(* ===== verification/_CoqProject ===== *)
-Q . S2P
Prelude.v
Params.v
Ring.v
Asm.v
Spinlock.v
Cstring.v
Kalloc.v
Vm.v
PageTable.v
Uvm.v
UvmAlloc.v
UvmFree.v
AddressSpace.v
Sched.v
Blocking.v
Invariant.v
Sleeplock.v
Bio.v
Cache.v
Log.v
Journal.v
Crash.v
Txn.v
Fs.v
Blocks.v
Inodes.v
Itrunc.v
Refs.v
Umem.v
Console.v
Term.v
Pipe.v
Fifo.v
Virtio.v
Device.v
Kern.v
Path.v
Contents.v
Growth.v
Writing.v
Names.v
Links.v
Namei.v
File.v
Proc.v
Exec.v
Sysfile.v
Syscall.v
Trap.v
Mmap.v
Close.v
Munmap.v
Boot.v
User.v
Programs.v
Grep.v
Umalloc.v
Sh.v
Shell.v
Parse.v
