(* ===== verification/Prelude.v ===== *)
(** Verification of xv6 with the mmap lab: the kernel ([src/kernel]) and user code
    ([src/user]).

    The C code is translated function by function into a state monad; the
    assembly is translated into programs of a small machine. The theorems are
    about these translations.

    * The program and its files here

    The kernel, from the machine up:

    - Constants ([param.h], [memlayout.h], [riscv.h], [fs.h], ...): [Params].
    - Assembly ([trampoline.S], [swtch.S], [kernelvec.S], [entry.S]): [Asm].
    - Spin locks ([spinlock.c]): [Spinlock]; the module [MutualExclusion] has
      the same code as atomic steps of several CPUs.
    - Strings ([string.c]): [Cstring].
    - Pages ([kalloc.c]): [Kalloc]. Virtual memory ([vm.c]): [Vm] has the code;
      [PageTable], [Uvm], [UvmAlloc], [UvmFree] and [AddressSpace] have the
      abstraction of page tables in memory to a tree, of an address space to a
      map from virtual pages to frames, and the theorems.
    - Processes ([proc.c]): [Sched] has the table, [sleep], [wakeup], [sched],
      [kill]; [Blocking] proves what they promise together; [Proc] has [fork],
      [exit], [wait] and the rest. [Invariant] is a logic for properties that
      hold however a run ends.
    - Sleep locks ([sleeplock.c]): [Sleeplock].
    - The disk driver ([virtio_disk.c]): [Virtio] has the code, [Device] runs it
      with a device that serves the requests it is notified of.
    - The buffer cache ([bio.c]): [Bio] and, its abstraction, [Cache].
    - The log ([log.c]): [Log]; [Journal] (commit), [Crash] (what a crash
      leaves and recovery) and [Txn] (whole transactions).
    - The file system ([fs.c]): [Fs] (blocks and inodes) and [Path] (contents,
      directories, paths) have the code. On the blocks as a transaction sees
      them, [Blocks] is about the bitmap, [Inodes] about the inode table and
      inodes on the disk, [Itrunc] about freeing them, [Refs] about the
      reference counts of the table, [Contents] about reading, [Growth] about [bmap],
      [Writing] about [writei], [Names] about directory entries and the parts of
      paths, [Links] about [dirlink], [Namei] about path lookup.
    - Console, UART, [printf] ([console.c], [uart.c], [printf.c]): [Console];
      [Term] has the theorems. [Ring] is the theory of circular buffers.
    - Pipes ([pipe.c]): [Pipe] and [Fifo].
    - The whole kernel state: [Kern]; on it, files ([file.c]): [File]; [exec.c]:
      [Exec]; system calls ([sysfile.c], [sysproc.c], [syscall.c], the argument
      functions in [Umem]): [Sysfile], [Syscall]; traps and the interrupt
      controller ([trap.c], [plic.c]): [Trap]; start-up ([main.c], [start.c]):
      [Boot]. [Mmap] proves [mmap] and its page faults, [Close] the last close
      of a file, [Munmap] proves [munmap].

    User code, over the memory of a process and the system calls:

    - The stubs ([usys.pl]), the library ([ulib.c]) and its [printf]: [User].
    - The allocator ([umalloc.c]): [Umalloc].
    - The shell ([sh.c]): [Sh] has the code, [Shell] a grammar of commands with
      its printer, and [Parse] proves that the parser implements the grammar.
    - [grep.c]: [Grep]. The smaller programs ([cat.c], [echo.c], [wc.c], [ls.c],
      [init.c], [kill.c], [ln.c], [mkdir.c], [rm.c], [zombie.c], [initcode.S]):
      [Programs].

    * How code is modelled

    Integers are [Z] with the wrap-around of their C type written out where the
    arithmetic can leave it. So it is for the counters that callers move without
    bound: the nesting of [push_off] and the reference counts of inodes and files
    are of 32 bits, and the theorems about them say how many references and how
    deep a nesting they are for ([cpu_room], [ref_room], [peak]). Without a
    wrap-around are counters that the code itself keeps in a range: loop
    indices below a bound that is tested, [log.outstanding] and [log.lh.n], which
    [begin_op] and [log_write] keep below LOGSIZE. Physical
    memory is a function from addresses to bytes, and structures that other code
    reaches through addresses (page tables, the free list, trap frames, blocks)
    are in it at their C offsets. Structures reached only through named fields
    are records, and pointers to elements of a static array are indices. Each
    component has its own state type; a lens places it in the state of a larger
    one, and operations that several components share (locks, [sleep]) are
    written once over any state with the lenses [HasCpu] and [HasPtab]. A run
    ends normally ([Ok]) or stops ([Stop]): by a panic, by an access C leaves
    undefined, in the scheduler ([Swtch]), or spinning. [swtch] is an operation
    of the state ([HasSwtch]): most states end a run there, and theorems about
    blocking give it what happens until the process runs again: in [Blocking] any
    list of events, which are [wakeup] and [kill] by other processes, changes to other
    entries of the table, and rounds of the scheduler.

    The device of [Device] is a parameter: it sees the registers that the driver
    has written with the rings at that moment, serves the requests it has been
    notified of and no other, and reports for each a status, success or an error.
    In [MutualExclusion] every read and write of the lock is a step of its own, so
    [holding] is two of them.

    A user process is its memory, its stack pointer and the world outside, a
    parameter with the operation [ecall]. What a program needs of the system is a
    class with the laws of the system calls it makes: [Streams] (a descriptor
    delivers its bytes in pieces, standard output takes all), [Brk] ([sbrk]),
    [Terminal] ([write] returns and [exit] does not). Each class has an instance,
    and the examples run on it.

    Loops have the fuel 2^64, more rounds than a 64-bit counter can count, held in
    binary so that the definitions still evaluate; recursive functions of user
    programs have the same fuel for their depth ([fixp]). Every theorem that says
    that code returns ([wp], or an equation with [Ok]) therefore shows that the
    fuel is enough. The recursions of [walk] and [freewalk] are structural in the
    level of the table.

    * What the theorems show

    - Memory: [walk] and [mappages] implement the abstract page table;
      [uvmalloc], [uvmcopy], [uvmunmap], [uvmfree], [copyin] and [copyout] do
      what they should on every branch, lose no page, and do not touch other
      address spaces ([uvm_isolation]). [mmap] reserves regions, page faults
      fill their pages from the file, [munmap] removes them and closes the
      file.
    - Concurrency: mutual exclusion of spin locks in every interleaving, nesting
      of interrupt disabling, a sleeping process runs again after a [wakeup] on its
      channel or a [kill] and not before, context switches and traps that keep
      registers.
    - Crash safety: a transaction is atomic whatever prefix of its disk writes
      is done, and recovery may itself crash.
    - The file system: blocks are allocated and freed as the bitmap says,
      references to inodes are counted and the last one of an unlinked inode
      frees it and its blocks, what is written is read back, directory
      entries that were linked are found, and a path leads to the inode that the
      directories on the disk have for it.
    - Input and output: the disk driver moves one block as the cache assumes, or
      panics when the device reports an error, the console is a line editor,
      [printf] prints what a relation between formats, arguments and texts says,
      pipes are queues.
    - User code: [malloc] and [free] keep blocks apart and lose no memory, the
      shell parses every line as its grammar says or reports an error, [grep]
      prints the lines its pattern matches, [cat] copies and [wc] counts.

    * Not modelled

    The hardware: the devices are what the code reads from and writes to them.
    The memory model is sequentially consistent and fences are no-ops. In [Bio]
    the disk transfer is one step ([disk_rw]), which [Device] shows the driver
    to carry out. The shell's command structures are nodes of a store instead of
    memory from [malloc]. [mkfs] is a program of the build machine. The test
    programs ([usertests.c], [grind.c], [mmaptest.c], [forktest.c],
    [stressfs.c]) are not modelled. [ramdisk.c] is not part of any build and uses
    fields that buffers no longer have.

    * This file

    Prelude: what every component of the development shares.

    - [Words]: the fixed-width integers of [src/kernel/types.h] as [Z] with
      their wrap-around written out;
    - [Bytes]: little-endian encodings, the byte lists of buffers and blocks,
      the byte-addressed physical memory and its frame lemmas;
    - [Kernel monad]: state passing with the ways kernel code can stop
      (a panic, undefined behaviour, a switch to the scheduler, a spin on a
      lock another CPU holds, exhausted fuel), its notation and its weakest
      preconditions;
    - [Lenses]: how a component's operation runs inside a larger state. *)

From stdpp Require Export base list strings gmap fin_maps numbers list_numbers finite vector.
From Stdlib Require Export Lia ZArith.
#[export] Set Default Goal Selector "!".

Open Scope Z_scope.

Create HintDb kernel discriminated.
Create Rewrite HintDb kernel_rw.

(** * Words *)

(** [unsigned char], [unsigned short], [unsigned int], [unsigned long]. *)
Definition u8 (x : Z) : Z := x mod 2 ^ 8.
Definition u16 (x : Z) : Z := x mod 2 ^ 16.
Definition u32 (x : Z) : Z := x mod 2 ^ 32.
Definition u64 (x : Z) : Z := x mod 2 ^ 64.

(** Conversion to a signed integer of [w] bits (two's complement). *)
Definition swrap (w x : Z) : Z :=
  let r := x mod 2 ^ w in if r <? 2 ^ (w - 1) then r else r - 2 ^ w.
Definition s8 : Z -> Z := swrap 8.
Definition s16 : Z -> Z := swrap 16.
Definition s32 : Z -> Z := swrap 32.
Definition s64 : Z -> Z := swrap 64.

(** A C condition on an integer. *)
Definition nz (x : Z) : bool := negb (x =? 0).

Lemma u8_range x : 0 <= u8 x < 256.
Proof. unfold u8. apply (Z.mod_pos_bound x 256). lia. Qed.

Lemma u64_range x : 0 <= u64 x < 2 ^ 64.
Proof. unfold u64. apply Z.mod_pos_bound. lia. Qed.

Lemma u32_range x : 0 <= u32 x < 2 ^ 32.
Proof. unfold u32. apply Z.mod_pos_bound. lia. Qed.

Lemma u64_small x : 0 <= x < 2 ^ 64 -> u64 x = x.
Proof. apply Z.mod_small. Qed.

Lemma u32_small x : 0 <= x < 2 ^ 32 -> u32 x = x.
Proof. apply Z.mod_small. Qed.

Lemma u16_small x : 0 <= x < 2 ^ 16 -> u16 x = x.
Proof. apply Z.mod_small. Qed.

Lemma u8_small x : 0 <= x < 256 -> u8 x = x.
Proof. apply (Z.mod_small x 256). Qed.

Lemma swrap_small w x : 0 < w -> - 2 ^ (w - 1) <= x < 2 ^ (w - 1) -> swrap w x = x.
Proof.
  intros Hw Hx. unfold swrap.
  assert (2 ^ w = 2 * 2 ^ (w - 1)) as Hp.
  { rewrite <- Z.pow_succ_r by lia. f_equal. lia. }
  destruct (Z.leb_spec 0 x).
  - rewrite Z.mod_small by lia. destruct (Z.ltb_spec x (2 ^ (w - 1))); lia.
  - assert (x mod 2 ^ w = x + 2 ^ w) as ->.
    { symmetry. apply (Z.mod_unique_pos _ _ (-1)); lia. }
    destruct (Z.ltb_spec (x + 2 ^ w) (2 ^ (w - 1))); lia.
Qed.

Lemma s32_small x : - 2 ^ 31 <= x < 2 ^ 31 -> s32 x = x.
Proof. intros. apply swrap_small; lia. Qed.

Lemma swrap_range w x : 0 < w -> - 2 ^ (w - 1) <= swrap w x < 2 ^ (w - 1).
Proof.
  intros Hw. unfold swrap.
  assert (2 ^ w = 2 * 2 ^ (w - 1)) as Hp.
  { rewrite <- Z.pow_succ_r by lia. f_equal. lia. }
  pose proof (Z.mod_pos_bound x (2 ^ w)) as Hb.
  destruct (Z.ltb_spec (x mod 2 ^ w) (2 ^ (w - 1))); lia.
Qed.

Lemma nz_true x : nz x = true <-> x <> 0.
Proof. unfold nz. rewrite negb_true_iff, Z.eqb_neq. done. Qed.

Lemma nz_false x : nz x = false <-> x = 0.
Proof. unfold nz. rewrite negb_false_iff, Z.eqb_eq. done. Qed.

(** Split on the integer comparisons of the goal (or of a hypothesis), turning
    each into its proposition. *)
Ltac zcases_step :=
  match goal with
  | |- context [?a =? ?b] => destruct (Z.eqb_spec a b)
  | |- context [?a <? ?b] => destruct (Z.ltb_spec a b)
  | |- context [?a <=? ?b] => destruct (Z.leb_spec a b)
  | H : context [?a =? ?b] |- _ => destruct (Z.eqb_spec a b)
  | H : context [?a <? ?b] |- _ => destruct (Z.ltb_spec a b)
  | H : context [?a <=? ?b] |- _ => destruct (Z.leb_spec a b)
  end.
Ltac zcases := repeat (zcases_step; try lia; cbn in *; try done).

(** ** Bits *)

Lemma testbit_above p n i : 0 <= n < 2 ^ p -> p <= i -> Z.testbit n i = false.
Proof.
  intros Hn Hi. destruct (decide (0 <= p)) as [Hp|Hp].
  - rewrite <- (Z.mod_small n (2 ^ p)) by lia. apply Z.mod_pow2_bits_high. lia.
  - rewrite Z.pow_neg_r in Hn; lia.
Qed.

(** Two numbers without a common bit: [lor] is addition. *)
Lemma lor_add a b : Z.land a b = 0 -> Z.lor a b = a + b.
Proof. intros H. pose proof (Z.add_lor_land a b). lia. Qed.

Lemma lor_lt_pow2 a b k :
  0 <= k -> 0 <= a < 2 ^ k -> 0 <= b < 2 ^ k -> 0 <= Z.lor a b < 2 ^ k.
Proof.
  intros Hk Ha Hb. split; [apply Z.lor_nonneg; lia|].
  destruct (decide (Z.lor a b = 0)) as [->|Hne]; [by apply Z.pow_pos_nonneg|].
  assert (0 <= Z.lor a b) by (apply Z.lor_nonneg; lia). apply Z.log2_lt_pow2; [lia|].
  rewrite Z.log2_lor by lia.
  assert (forall c, 0 <= c < 2 ^ k -> c = 0 \/ Z.log2 c < k) as Hlog.
  { intros c Hc. destruct (decide (c = 0)); [by left|right]. apply Z.log2_lt_pow2; lia. }
  destruct (Hlog a Ha) as [->|], (Hlog b Hb) as [->|]; change (Z.log2 0) with 0 in *; try lia.
  - done.
  - pose proof (Z.log2_nonneg b). lia.
  - pose proof (Z.log2_nonneg a). lia.
Qed.

Lemma land_ones_mod x k : 0 <= k -> Z.land x (2 ^ k - 1) = x mod 2 ^ k.
Proof.
  intros. replace (2 ^ k - 1) with (Z.ones k) by (rewrite Z.ones_equiv; lia).
  by apply Z.land_ones.
Qed.

Lemma land_lnot_ones x k : 0 <= k -> Z.land x (Z.lnot (2 ^ k - 1)) = x - x mod 2 ^ k.
Proof. intros. rewrite <- Z.sub_land_same_l, land_ones_mod by lia. done. Qed.

(** A multiple of [2 ^ k] and a number below [2 ^ k] share no bit. *)
Lemma land_mul_pow2_small a b k : 0 <= k -> 0 <= b < 2 ^ k -> Z.land (a * 2 ^ k) b = 0.
Proof.
  intros Hk Hb. apply Z.bits_inj'. intros i Hi.
  rewrite Z.land_spec, Z.bits_0.
  destruct (decide (i < k)).
  - rewrite Z.mul_pow2_bits_low by lia. done.
  - rewrite (testbit_above k b) by lia. apply andb_false_r.
Qed.

Lemma lor_mul_pow2 a b k : 0 <= k -> 0 <= b < 2 ^ k -> Z.lor (a * 2 ^ k) b = a * 2 ^ k + b.
Proof. intros. apply lor_add. by apply land_mul_pow2_small. Qed.

Lemma land_add_mul_pow2 a b c k :
  0 <= k -> 0 <= b < 2 ^ k -> 0 <= c < 2 ^ k -> Z.land (a * 2 ^ k + b) c = Z.land b c.
Proof.
  intros. rewrite <- lor_mul_pow2 by lia.
  rewrite Z.land_lor_distr_l, land_mul_pow2_small by lia. done.
Qed.

(** * Bytes *)

(** The [n] low bytes of [v], least significant first, and back. *)
Fixpoint le_bytes (n : nat) (v : Z) : list Z :=
  match n with
  | O => []
  | S n' => v mod 256 :: le_bytes n' (v / 256)
  end.
Definition le_val (l : list Z) : Z := foldr (fun b acc => b + 256 * acc) 0 l.

Definition is_byte (b : Z) : Prop := 0 <= b < 256.

Lemma length_le_bytes n v : length (le_bytes n v) = n.
Proof. revert v. induction n; intros; cbn; auto. Qed.

Lemma le_bytes_is_byte n v : Forall is_byte (le_bytes n v).
Proof.
  revert v. induction n as [|n IH]; intros v; cbn; constructor; auto.
  apply Z.mod_pos_bound. lia.
Qed.

Lemma le_val_bytes n v : le_val (le_bytes n v) = v mod 256 ^ Z.of_nat n.
Proof.
  revert v. induction n as [|n IH]; intros v; cbn [le_bytes le_val foldr].
  - by rewrite Z.mod_1_r.
  - unfold le_val in IH. rewrite IH, Nat2Z.inj_succ, Z.pow_succ_r by lia.
    rewrite Z.rem_mul_r by (try apply Z.pow_nonzero; lia). lia.
Qed.

Lemma le_val_range l : Forall is_byte l -> 0 <= le_val l < 256 ^ Z.of_nat (length l).
Proof.
  unfold is_byte. induction 1 as [|b l Hb Hl IH]; cbn -[Z.pow]; [lia|].
  rewrite Nat2Z.inj_succ, Z.pow_succ_r by lia. unfold le_val in IH. lia.
Qed.

Lemma le_bytes_val l : Forall is_byte l -> le_bytes (length l) (le_val l) = l.
Proof.
  unfold is_byte. induction 1 as [|b l Hb Hl IH]; [done|].
  cbn [length le_bytes le_val foldr]. fold (le_val l).
  replace (b + 256 * le_val l) with (b + le_val l * 256) by lia.
  rewrite Z.mod_add, Z.mod_small, Z.div_add, Z.div_small, Z.add_0_l, IH by lia. done.
Qed.

(** ** Buffers: byte lists read and written by offset *)

(** [memmove(d + off, l, length l)] inside a buffer that is large enough; what
    would fall outside is dropped, as [off + length l <= length d] always holds
    where it is used. *)
Definition splice (d : list Z) (off : nat) (l : list Z) : list Z :=
  take off d ++ l ++ drop (off + length l) d.
Definition slice (d : list Z) (off n : nat) : list Z := take n (drop off d).

(** Little-endian integer fields of a buffer. *)
Definition get_le (n : nat) (d : list Z) (off : nat) : Z := le_val (slice d off n).
Definition put_le (n : nat) (d : list Z) (off : nat) (v : Z) : list Z :=
  splice d off (le_bytes n v).

Lemma length_splice d off l :
  (off + length l <= length d)%nat -> length (splice d off l) = length d.
Proof. intros. unfold splice. rewrite !length_app, length_take, length_drop. lia. Qed.

Lemma length_put_le n d off v :
  (off + n <= length d)%nat -> length (put_le n d off v) = length d.
Proof. intros. apply length_splice. by rewrite length_le_bytes. Qed.

Lemma slice_splice_same d off l :
  (off + length l <= length d)%nat -> slice (splice d off l) off (length l) = l.
Proof.
  intros. unfold slice, splice.
  rewrite drop_app_ge by (rewrite length_take; lia).
  rewrite length_take. replace (off - off `min` length d)%nat with 0%nat by lia.
  by rewrite drop_0, take_app_length.
Qed.

Lemma lookup_splice_out d off l i :
  (off + length l <= length d)%nat -> (i < off \/ off + length l <= i)%nat ->
  splice d off l !! i = d !! i.
Proof.
  intros Hd Hi. unfold splice. destruct Hi as [Hi|Hi].
  - rewrite lookup_app_l by (rewrite length_take; lia). rewrite lookup_take_lt by lia. done.
  - rewrite lookup_app_r by (rewrite length_take; lia).
    rewrite length_take, lookup_app_r by lia. rewrite lookup_drop. f_equal. lia.
Qed.

Lemma lookup_splice_in d off l i :
  (off + length l <= length d)%nat -> (off <= i < off + length l)%nat ->
  splice d off l !! i = l !! (i - off)%nat.
Proof.
  intros Hd Hi. unfold splice.
  rewrite lookup_app_r by (rewrite length_take; lia).
  rewrite length_take, lookup_app_l by lia. f_equal. lia.
Qed.

Lemma lookup_slice d off n i :
  (i < n)%nat -> slice d off n !! i = d !! (off + i)%nat.
Proof. intros. unfold slice. by rewrite lookup_take_lt, lookup_drop by lia. Qed.

Lemma length_slice d off n : (off + n <= length d)%nat -> length (slice d off n) = n.
Proof. intros. unfold slice. rewrite length_take, length_drop. lia. Qed.

Lemma slice_ext d d' off n :
  (forall i, (off <= i < off + n)%nat -> d !! i = d' !! i) -> slice d off n = slice d' off n.
Proof.
  intros H. apply list_eq. intros i. unfold slice.
  destruct (decide (i < n)%nat).
  - rewrite !lookup_take_lt, !lookup_drop by lia. apply H. lia.
  - rewrite !lookup_take_ge by lia. done.
Qed.

Lemma slice_splice_other d off l off' n :
  (off + length l <= length d)%nat -> (off' + n <= off \/ off + length l <= off')%nat ->
  slice (splice d off l) off' n = slice d off' n.
Proof. intros. apply slice_ext. intros. apply lookup_splice_out; lia. Qed.

Lemma get_put_le n d off v :
  (off + n <= length d)%nat -> get_le n (put_le n d off v) off = v mod 256 ^ Z.of_nat n.
Proof.
  intros. unfold get_le, put_le. rewrite <- le_val_bytes. f_equal.
  rewrite <- (length_le_bytes n v) at 2. apply slice_splice_same.
  by rewrite length_le_bytes.
Qed.

Lemma get_put_le_other n d off v n' off' :
  (off + n <= length d)%nat -> (off' + n' <= off \/ off + n <= off')%nat ->
  get_le n' (put_le n d off v) off' = get_le n' d off'.
Proof. intros. unfold get_le, put_le. f_equal. apply slice_splice_other; rewrite length_le_bytes; lia. Qed.

Lemma Forall_slice P d off n : Forall P d -> Forall P (slice d off n).
Proof. intros. unfold slice. by apply Forall_take, Forall_drop. Qed.

Lemma Forall_splice P d off l : Forall P d -> Forall P l -> Forall P (splice d off l).
Proof.
  intros. unfold splice. repeat apply Forall_app_2; auto using Forall_take, Forall_drop.
Qed.

(** ** Physical memory *)

(** One byte per physical address. A read truncates to a byte, so memory needs
    no well-formedness hypothesis. *)
Definition memory : Type := Z -> Z.
Definition load8 (m : memory) (a : Z) : Z := u8 (m a).
Definition store8 (m : memory) (a v : Z) : memory :=
  fun x => if x =? a then u8 v else m x.
Definition load_bytes (m : memory) (a : Z) (n : nat) : list Z :=
  (fun i => load8 m (a + i)) <$> seqZ 0 (Z.of_nat n).
Fixpoint store_bytes (m : memory) (a : Z) (l : list Z) : memory :=
  match l with
  | [] => m
  | b :: l' => store_bytes (store8 m a b) (a + 1) l'
  end.
Definition load64 (m : memory) (a : Z) : Z := le_val (load_bytes m a 8).
Definition store64 (m : memory) (a v : Z) : memory := store_bytes m a (le_bytes 8 v).

#[global] Arguments load8 : simpl never.
#[global] Arguments store8 : simpl never.
#[global] Arguments load64 : simpl never.
#[global] Arguments store64 : simpl never.
#[global] Arguments load_bytes : simpl never.
#[global] Arguments u8 : simpl never.
#[global] Arguments u32 : simpl never.
#[global] Arguments u64 : simpl never.

(** Agreement of two memories on a set of addresses. *)
Definition mem_agree (P : Z -> Prop) (m m' : memory) : Prop := forall x, P x -> m x = m' x.

Lemma store_bytes_out l : forall m a x,
  x < a \/ a + Z.of_nat (length l) <= x -> store_bytes m a l x = m x.
Proof.
  induction l as [|b l IH]; intros m a x Hx; cbn; [done|].
  cbn [length] in Hx. rewrite IH by lia. unfold store8.
  destruct (Z.eqb_spec x a); [lia|done].
Qed.

Lemma store_bytes_in l : forall m a x,
  a <= x < a + Z.of_nat (length l) ->
  store_bytes m a l x = u8 (l !!! Z.to_nat (x - a)).
Proof.
  induction l as [|b l IH]; intros m a x Hx; cbn [length] in Hx; [cbn in Hx; lia|].
  cbn [store_bytes]. destruct (decide (x = a)) as [->|Hne].
  - rewrite store_bytes_out by lia. unfold store8. rewrite Z.eqb_refl.
    by rewrite Z.sub_diag.
  - rewrite IH by lia. f_equal.
    replace (Z.to_nat (x - a)) with (S (Z.to_nat (x - (a + 1)))) by lia. done.
Qed.

Lemma length_load_bytes m a n : length (load_bytes m a n) = n.
Proof. unfold load_bytes. rewrite length_fmap, length_seqZ. lia. Qed.

Lemma lookup_load_bytes m a n i :
  (i < n)%nat -> load_bytes m a n !! i = Some (load8 m (a + Z.of_nat i)).
Proof.
  intros Hi. unfold load_bytes. rewrite list_lookup_fmap.
  rewrite (lookup_seqZ_lt 0) by lia. cbn. do 2 f_equal.
Qed.

Lemma load_bytes_cons m a n : load_bytes m a (S n) = load8 m a :: load_bytes m (a + 1) n.
Proof.
  unfold load_bytes. rewrite Nat2Z.inj_succ, seqZ_cons by lia. cbn [fmap list_fmap].
  rewrite Z.add_0_r, Z.pred_succ. f_equal.
  rewrite <- (fmap_add_seqZ 1 0), <- list_fmap_compose. apply list_fmap_ext.
  intros i x _. cbn. f_equal. lia.
Qed.

Lemma load_bytes_is_byte m a n : Forall is_byte (load_bytes m a n).
Proof. apply Forall_forall. intros b [i [-> _]]%list_elem_of_fmap. apply u8_range. Qed.

Lemma load_bytes_ext m m' a n :
  mem_agree (fun x => a <= x < a + Z.of_nat n) m m' -> load_bytes m a n = load_bytes m' a n.
Proof.
  intros H. apply list_eq. intros i. destruct (decide (i < n)%nat).
  - rewrite !lookup_load_bytes by lia. unfold load8. rewrite H by lia. done.
  - rewrite !lookup_ge_None_2; rewrite ?length_load_bytes; lia || done.
Qed.

Lemma load_store_bytes m a l :
  Forall is_byte l -> load_bytes (store_bytes m a l) a (length l) = l.
Proof.
  intros Hl. apply list_eq. intros i. destruct (decide (i < length l)%nat) as [Hi|Hi].
  - rewrite lookup_load_bytes by lia. unfold load8. rewrite store_bytes_in by lia.
    replace (Z.to_nat (a + Z.of_nat i - a)) with i by lia.
    destruct (lookup_lt_is_Some_2 l i Hi) as [b Hb]. rewrite Hb.
    rewrite (list_lookup_total_correct l i b) by done.
    pose proof (Forall_lookup_1 _ _ _ _ Hl Hb) as Hr. unfold is_byte in Hr.
    by rewrite !(u8_small b) by done.
  - rewrite !lookup_ge_None_2; rewrite ?length_load_bytes; lia || done.
Qed.

Lemma load8_store8 m a v : load8 (store8 m a v) a = u8 v.
Proof. unfold load8, store8. rewrite Z.eqb_refl. unfold u8. by rewrite Z.mod_mod. Qed.

Lemma load8_store8_ne m a v x : x <> a -> load8 (store8 m a v) x = load8 m x.
Proof. intros. unfold load8, store8. by destruct (Z.eqb_spec x a). Qed.

Lemma load8_u8 m a : u8 (load8 m a) = load8 m a.
Proof. unfold load8, u8. by rewrite Z.mod_mod. Qed.

Lemma load_bytes_u8 m a n : u8 <$> load_bytes m a n = load_bytes m a n.
Proof.
  unfold load_bytes. rewrite <- list_fmap_compose. apply list_fmap_ext.
  intros i x _. cbn. unfold load8, u8. by rewrite Z.mod_mod.
Qed.

Lemma load64_range m a : 0 <= load64 m a < 2 ^ 64.
Proof.
  pose proof (le_val_range (load_bytes m a 8) (load_bytes_is_byte m a 8)) as H.
  rewrite length_load_bytes in H. exact H.
Qed.

Lemma load64_ext m m' a :
  mem_agree (fun x => a <= x < a + 8) m m' -> load64 m a = load64 m' a.
Proof. intros H. unfold load64. f_equal. by apply load_bytes_ext. Qed.

Lemma load64_store64 m a v : load64 (store64 m a v) a = u64 v.
Proof.
  unfold load64, store64.
  rewrite <- (length_le_bytes 8 v) at 2. rewrite load_store_bytes by apply le_bytes_is_byte.
  apply le_val_bytes.
Qed.

Lemma store64_out m a v x : x < a \/ a + 8 <= x -> store64 m a v x = m x.
Proof. intros. apply store_bytes_out. rewrite length_le_bytes. lia. Qed.

Lemma load64_store64_out m a v b :
  b + 8 <= a \/ a + 8 <= b -> load64 (store64 m a v) b = load64 m b.
Proof. intros. apply load64_ext. intros x Hx. apply store64_out. lia. Qed.

(** * The kernel monad *)

(** Why kernel code does not return: [panic(msg)]; undefined behaviour (a null
    dereference, an index outside an array), which the source does not define;
    [swtch] to the scheduler, when the thread sleeps, yields or exits; a spin on
    a lock that is held; and fuel that ran out, for loops that are not
    structural. *)
Inductive stop : Type :=
| Panic (msg : string)
| Fault (msg : string)
| Swtch
| Spin
| NoFuel.

Inductive out (S A : Type) : Type :=
| Ok (a : A) (s : S)
| Stop (why : stop) (s : S).
Arguments Ok {S A} a s.
Arguments Stop {S A} why s.

Definition M (S A : Type) : Type := S -> out S A.

Definition ret {S A} (a : A) : M S A := fun s => Ok a s.
Definition bind {S A B} (m : M S A) (k : A -> M S B) : M S B :=
  fun s => match m s with
           | Ok a s' => k a s'
           | Stop w s' => Stop w s'
           end.
Definition halt {S A} (w : stop) : M S A := fun s => Stop w s.
Definition panic {S A} (msg : string) : M S A := halt (Panic msg).
Definition fault {S A} (msg : string) : M S A := halt (Fault msg).
Definition gets {S A} (f : S -> A) : M S A := fun s => Ok (f s) s.
Definition modify {S} (f : S -> S) : M S unit := fun s => Ok tt (f s).
Definition when {S} (b : bool) (m : M S unit) : M S unit := if b then m else ret tt.

Declare Scope kernel_scope.
Delimit Scope kernel_scope with kernel.
Notation "x <- m ;; k" := (bind m (fun x => k))
  (at level 100, m at next level, k at level 200, right associativity) : kernel_scope.
Notation "m ;; k" := (bind m (fun _ => k))
  (at level 100, k at level 200, right associativity) : kernel_scope.

(** [for (x in l) f(x)] without an early exit. *)
Fixpoint forM {S X} (l : list X) (f : X -> M S unit) : M S unit :=
  match l with
  | [] => ret tt
  | x :: l' => (f x ;; forM l' f)%kernel
  end.

(** A loop that leaves at the first [Some]. *)
Fixpoint forM_find {S X B} (l : list X) (f : X -> M S (option B)) : M S (option B) :=
  match l with
  | [] => ret None
  | x :: l' => (r <- f x ;; match r with Some b => ret (Some b) | None => forM_find l' f end)%kernel
  end.

(** A [while] or [for] loop whose exit the code decides: the body returns the
    loop variables for another round ([inl]) or the result ([inr]). Fuel is
    binary, so that it may be [2 ^ 64] rounds and still compute: no loop over a
    64-bit counter needs more. *)
Fixpoint loop_fuel {S A B} (n : positive) (f : A -> M S (A + B)) (a : A) : M S (A + B) :=
  match n with
  | xH => f a
  | xO n' => (r <- loop_fuel n' f a ;;
              match r with inl a' => loop_fuel n' f a' | inr b => ret (inr b) end)%kernel
  | xI n' => (r <- f a ;;
              match r with
              | inl a' =>
                  r' <- loop_fuel n' f a' ;;
                  match r' with inl a'' => loop_fuel n' f a'' | inr b => ret (inr b) end
              | inr b => ret (inr b)
              end)%kernel
  end.
Definition loop {S A B} (f : A -> M S (A + B)) (a : A) : M S B :=
  (r <- loop_fuel (2 ^ 64) f a ;;
   match r with inl _ => halt NoFuel | inr b => ret b end)%kernel.
#[global] Arguments loop : simpl never.

(** Weakest precondition: the run returns, and its result satisfies [Q]. *)
Definition wp {S A} (m : M S A) (Q : A -> S -> Prop) (s : S) : Prop :=
  match m s with
  | Ok a s' => Q a s'
  | Stop _ _ => False
  end.

Section Monad.
Context {S : Type}.
Implicit Types s : S.

Lemma bind_ok {A B} (m : M S A) (k : A -> M S B) s a s' :
  m s = Ok a s' -> bind m k s = k a s'.
Proof. intros H. unfold bind. by rewrite H. Qed.

Lemma bind_stop {A B} (m : M S A) (k : A -> M S B) s w s' :
  m s = Stop w s' -> bind m k s = Stop w s'.
Proof. intros H. unfold bind. by rewrite H. Qed.

Lemma bind_inv {A B} (m : M S A) (k : A -> M S B) s b s2 :
  bind m k s = Ok b s2 -> exists a s1, m s = Ok a s1 /\ k a s1 = Ok b s2.
Proof. unfold bind. destruct (m s) as [a s1|]; [eauto|done]. Qed.

Lemma bind_assoc {A B C} (m : M S A) (k : A -> M S B) (h : B -> M S C) s :
  bind (bind m k) h s = bind m (fun a => bind (k a) h) s.
Proof. unfold bind. by destruct (m s). Qed.

Lemma wp_ret {A} (a : A) Q s : Q a s -> wp (ret a) Q s.
Proof. done. Qed.

Lemma wp_bind {A B} (m : M S A) (k : A -> M S B) Q s :
  wp m (fun a s' => wp (k a) Q s') s -> wp (bind m k) Q s.
Proof. unfold wp, bind. by destruct (m s). Qed.

Lemma wp_mono {A} (m : M S A) (Q Q' : A -> S -> Prop) s :
  wp m Q s -> (forall a s', Q a s' -> Q' a s') -> wp m Q' s.
Proof. unfold wp. destruct (m s); auto. Qed.

Lemma wp_ok {A} (m : M S A) Q s a s' : m s = Ok a s' -> Q a s' -> wp m Q s.
Proof. unfold wp. by intros ->. Qed.

Lemma wp_run {A} (m : M S A) Q s : wp m Q s -> exists a s', m s = Ok a s' /\ Q a s'.
Proof. unfold wp. destruct (m s); [eauto|done]. Qed.

Lemma forM_app {X} (l1 l2 : list X) (f : X -> M S unit) s :
  forM (l1 ++ l2) f s = bind (forM l1 f) (fun _ => forM l2 f) s.
Proof.
  revert s. induction l1 as [|x l1 IH]; intros s; [done|].
  cbn [app forM]. rewrite bind_assoc. unfold bind at 1 2.
  destruct (f x s); [apply IH|done].
Qed.

Lemma wp_gets {A} (f : S -> A) Q s : Q (f s) s -> wp (gets f) Q s.
Proof. done. Qed.

Lemma wp_modify f Q s : Q tt (f s) -> wp (modify f) Q s.
Proof. done. Qed.

(** The rounds of a loop, counted in unary, to reason about [loop]. *)
Fixpoint rounds {A B} (k : nat) (f : A -> M S (A + B)) (a : A) : M S (A + B) :=
  match k with
  | O => ret (inl a)
  | Datatypes.S k' => bind (f a) (fun r => match r with inl a' => rounds k' f a' | inr b => ret (inr b) end)
  end.

Lemma rounds_add {A B} (f : A -> M S (A + B)) j k : forall a s,
  rounds (j + k) f a s =
  bind (rounds j f a) (fun r => match r with inl a' => rounds k f a' | inr b => ret (inr b) end) s.
Proof.
  induction j as [|j IH]; intros a s; [done|]. cbn [Nat.add rounds].
  rewrite bind_assoc. unfold bind at 1 2. destruct (f a s) as [[a'|b] s'|]; [apply IH|done|done].
Qed.

Lemma loop_fuel_rounds {A B} (f : A -> M S (A + B)) n : forall a s,
  loop_fuel n f a s = rounds (Pos.to_nat n) f a s.
Proof.
  induction n as [n IH|n IH|]; intros a s; cbn [loop_fuel].
  - rewrite Pos2Nat.inj_xI. cbn [rounds]. unfold bind at 1 3.
    destruct (f a s) as [[a'|b] s'|]; [|done|done].
    replace (2 * Pos.to_nat n)%nat with (Pos.to_nat n + Pos.to_nat n)%nat by lia.
    rewrite rounds_add. unfold bind. rewrite IH. by destruct (rounds _ f a' s') as [[]|].
  - rewrite Pos2Nat.inj_xO.
    replace (2 * Pos.to_nat n)%nat with (Pos.to_nat n + Pos.to_nat n)%nat by lia.
    rewrite rounds_add. unfold bind. rewrite IH. by destruct (rounds _ f a s) as [[]|].
  - change (Pos.to_nat 1) with 1%nat. cbn. unfold bind. by destruct (f a s) as [[]|].
Qed.

(** Loop rule, for any outcome: an invariant with a measure that every round
    decreases. *)
Lemma loop_rule {A B} (f : A -> M S (A + B)) (I : nat -> A -> S -> Prop) (Q : out S B -> Prop) :
  (forall n a s, I n a s ->
     match f a s with
     | Ok (inl a') s' => exists n', (n' < n)%nat /\ I n' a' s'
     | Ok (inr b) s' => Q (Ok b s')
     | Stop w s' => Q (Stop w s')
     end) ->
  forall n a s, I n a s -> Z.of_nat n < 2 ^ 64 -> Q (loop f a s).
Proof.
  intros Hf n a s HI Hn.
  assert (Hr : forall k n a s, I n a s -> (n < k)%nat ->
    match rounds k f a s with
    | Ok (inl _) _ => False
    | Ok (inr b) s' => Q (Ok b s')
    | Stop w s' => Q (Stop w s')
    end).
  { clear n a s HI Hn. induction k as [|k IH]; intros n a s HI Hn; [lia|].
    cbn [rounds]. unfold bind. specialize (Hf n a s HI).
    destruct (f a s) as [[a'|b] s'|]; [|done|done].
    destruct Hf as (n'&Hn'&HI'). apply (IH n'); [done|lia]. }
  specialize (Hr (Pos.to_nat (2 ^ 64)) n a s HI ltac:(lia)).
  unfold loop, bind. rewrite loop_fuel_rounds.
  by destruct (rounds _ f a s) as [[]|].
Qed.

Lemma wp_loop {A B} (f : A -> M S (A + B)) (I : nat -> A -> S -> Prop) (Q : B -> S -> Prop) :
  (forall n a s, I n a s ->
     wp (f a) (fun r s' => match r with
                           | inl a' => exists n', (n' < n)%nat /\ I n' a' s'
                           | inr b => Q b s'
                           end) s) ->
  forall n a s, I n a s -> Z.of_nat n < 2 ^ 64 -> wp (loop f a) Q s.
Proof.
  intros Hf n a s HI Hn. unfold wp.
  apply (loop_rule f I (fun o => match o with Ok b s' => Q b s' | Stop _ _ => False end)) with n;
    [|done|done].
  intros n' a' s' HI'. specialize (Hf n' a' s' HI'). unfold wp in Hf.
  by destruct (f a' s') as [[]|].
Qed.

(** A loop that leaves in its first round. *)
Lemma loop_once {A B} (f : A -> M S (A + B)) a s b s' :
  f a s = Ok (inr b) s' -> loop f a s = Ok b s'.
Proof.
  intros Hf. apply (loop_rule f (fun _ a' s1 => a' = a /\ s1 = s) (fun o => o = Ok b s')) with (n := 0%nat); [|done|done].
  intros n a' s1 [-> ->]. by rewrite Hf.
Qed.

Lemma loop_stop {A B} (f : A -> M S (A + B)) a s w s' :
  f a s = Stop w s' -> loop f a s = Stop w s'.
Proof.
  intros Hf. apply (loop_rule f (fun _ a' s1 => a' = a /\ s1 = s) (fun o => o = Stop w s')) with (n := 0%nat); [|done|done].
  intros n a' s1 [-> ->]. by rewrite Hf.
Qed.

(** A loop that leaves after at most [n] rounds. *)
Lemma loop_rounds {A B} (f : A -> M S (A + B)) n a s b s' :
  rounds n f a s = Ok (inr b) s' -> Z.of_nat n <= 2 ^ 64 -> loop f a s = Ok b s'.
Proof.
  intros Hr Hn. unfold loop. rewrite (bind_ok _ _ _ (inr b) s'); [done|]. rewrite loop_fuel_rounds.
  replace (Pos.to_nat (2 ^ 64)) with (n + (Pos.to_nat (2 ^ 64) - n))%nat by lia.
  rewrite rounds_add. by erewrite bind_ok by exact Hr.
Qed.

(** Loop rule: an invariant indexed by what has been visited. *)
Lemma wp_forM {X} (l : list X) (f : X -> M S unit) (I : list X -> S -> Prop) s :
  I [] s ->
  (forall done x todo s', l = done ++ x :: todo -> I done s' ->
     wp (f x) (fun _ s'' => I (done ++ [x]) s'') s') ->
  wp (forM l f) (fun _ s' => I l s') s.
Proof.
  intros H0 Hstep.
  assert (forall todo done s', l = done ++ todo -> I done s' ->
            wp (forM todo f) (fun _ s'' => I l s'') s') as H.
  { induction todo as [|x todo IH]; intros dn s' Hl HI; cbn.
    - apply wp_ret. by rewrite Hl, app_nil_r.
    - apply wp_bind. eapply wp_mono; [by eapply Hstep|].
      intros [] s'' HI'. apply (IH (dn ++ [x])); [|done].
      by rewrite <- app_assoc. }
  by apply (H l []).
Qed.

(** [for (k = 0; k < n; k++)] with an invariant indexed by the counter. *)
Lemma wp_forZ (n : nat) (f : Z -> M S unit) (I : nat -> S -> Prop) s :
  I 0%nat s -> (forall k s', (k < n)%nat -> I k s' -> wp (f (Z.of_nat k)) (fun _ s'' => I (Datatypes.S k) s'') s') ->
  wp (forM (seqZ 0 (Z.of_nat n)) f) (fun _ s' => I n s') s.
Proof.
  intros H0 Hstep. eapply wp_mono.
  - apply (wp_forM _ _ (fun dn s' => I (length dn) s')); [done|].
    intros dn x todo s' E HI.
    assert (Hx : seqZ 0 (Z.of_nat n) !! length dn = Some x) by (rewrite E; by apply list_lookup_middle).
    apply lookup_seqZ in Hx as [-> Hlt]. rewrite length_app, Nat.add_comm. cbn. apply Hstep; [lia|done].
  - intros [] s'. cbn. by rewrite length_seqZ, Nat2Z.id.
Qed.
End Monad.

(** * Lenses *)

(** A component of a larger state. *)
Record lens (S A : Type) : Type := Lens { view : S -> A; put : A -> S -> S }.
Arguments Lens {S A} _ _.
Arguments view {S A} _ _.
Arguments put {S A} _ _ _.

Class LensOk {S A} (l : lens S A) : Prop := {
  view_put a s : view l (put l a s) = a;
  put_view s : put l (view l s) s = s;
  put_put a a' s : put l a (put l a' s) = put l a s;
}.

(** Two components that do not overlap. *)
Class LensDisj {S A B} (l : lens S A) (k : lens S B) : Prop := {
  view_put_l a s : view k (put l a s) = view k s;
  view_put_r b s : view l (put k b s) = view l s;
  put_comm a b s : put l a (put k b s) = put k b (put l a s);
}.

(** Instances for records are by computation. *)
Ltac solve_lens :=
  split; intros; first [reflexivity | match goal with s : _ |- _ => destruct s; reflexivity end].

Definition lens_comp {S A B} (l : lens S A) (k : lens A B) : lens S B :=
  Lens (fun s => view k (view l s)) (fun b s => put l (put k b (view l s)) s).

(** Run an operation of a component in the larger state. *)
Definition zoom {S T A} (l : lens S T) (m : M T A) : M S A :=
  fun s => match m (view l s) with
           | Ok a t => Ok a (put l t s)
           | Stop w t => Stop w (put l t s)
           end.

Lemma zoom_ok {S T A} (l : lens S T) (m : M T A) s a t :
  m (view l s) = Ok a t -> zoom l m s = Ok a (put l t s).
Proof. unfold zoom. by intros ->. Qed.

Lemma zoom_map {S T A B} (l : lens S T) (m : M T A) (g : A -> B) s a s' :
  zoom l m s = Ok a s' -> zoom l (x <- m ;; ret (g x))%kernel s = Ok (g a) s'.
Proof. unfold zoom, bind, ret. destruct (m (view l s)); [|done]. by intros [= <- <-]. Qed.

Lemma wp_zoom {S T A} (l : lens S T) (m : M T A) Q s :
  wp m (fun a t => Q a (put l t s)) (view l s) -> wp (zoom l m) Q s.
Proof. unfold wp, zoom. by destruct (m (view l s)). Qed.

(** The laws of composed lenses. *)
#[export] Instance lens_comp_ok {S A B} (l : lens S A) (k : lens A B) :
  LensOk l -> LensOk k -> LensOk (lens_comp l k).
Proof.
  intros Hl Hk. split; cbn; intros.
  - by rewrite (view_put (l:=l)), (view_put (l:=k)).
  - by rewrite (put_view (l:=k)), (put_view (l:=l)).
  - by rewrite (view_put (l:=l)), (put_put (l:=k)), (put_put (l:=l)).
Qed.

#[export] Instance lens_comp_disj_r {S A B C} (j : lens S A) (l : lens S B) (k : lens B C) :
  LensOk l -> LensDisj j l -> LensDisj j (lens_comp l k).
Proof.
  intros Hl Hd. split; cbn; intros.
  - by rewrite (view_put_l (l:=j) (k:=l)).
  - by rewrite (view_put_r (l:=j) (k:=l)).
  - by rewrite (view_put_l (l:=j) (k:=l)), (put_comm (l:=j) (k:=l)).
Qed.

Lemma lens_disj_sym {S A B} (l : lens S A) (k : lens S B) : LensDisj l k -> LensDisj k l.
Proof. intros [H1 H2 H3]. split; intros; [apply H2|apply H1|symmetry; apply H3]. Qed.

(** ** Arrays *)

(** A C array of [n] elements is a vector; a pointer to one of its elements is
    an index that is in range by its type. *)
Definition arrL {S A n} (l : lens S (vec A n)) (i : fin n) : lens S A :=
  Lens (fun s => view l s !!! i) (fun a s => put l (vinsert i a (view l s)) s).

#[export] Instance arrL_ok {S A n} (l : lens S (vec A n)) (i : fin n) : LensOk l -> LensOk (arrL l i).
Proof.
  intros Hl. split; cbn; intros.
  - by rewrite (view_put (l:=l)), vlookup_insert.
  - by rewrite vlookup_insert_self, (put_view (l:=l)).
  - rewrite (view_put (l:=l)), (put_put (l:=l)). f_equal. apply vec_eq. intros j.
    destruct (decide (i = j)) as [<-|]; [by rewrite !vlookup_insert|by rewrite !vlookup_insert_ne].
Qed.

#[export] Instance arrL_disj {S A B n} (j : lens S A) (l : lens S (vec B n)) (i : fin n) :
  LensOk l -> LensDisj j l -> LensDisj j (arrL l i).
Proof.
  intros Hl Hd. split; cbn; intros.
  - by rewrite (view_put_l (l:=j) (k:=l)).
  - by rewrite (view_put_r (l:=j) (k:=l)).
  - by rewrite (view_put_l (l:=j) (k:=l)), (put_comm (l:=j) (k:=l)).
Qed.

Lemma vinsert_same {A n} (i : fin n) (a : A) (v : vec A n) : v !!! i = a -> vinsert i a v = v.
Proof. intros <-. apply vlookup_insert_self. Qed.

Lemma vinsert_twice {A n} (i : fin n) (a b : A) (v : vec A n) : vinsert i a (vinsert i b v) = vinsert i a v.
Proof.
  apply vec_eq. intros j.
  destruct (decide (i = j)) as [<-|]; [by rewrite !vlookup_insert|by rewrite !vlookup_insert_ne].
Qed.

Lemma vlookup_vinsert {A n} (i j : fin n) (a : A) (v : vec A n) :
  vinsert i a v !!! j = if decide (i = j) then a else v !!! j.
Proof. case_decide as E; [subst; apply vlookup_insert|by apply vlookup_insert_ne]. Qed.

(** The indices of an array in order. *)
Definition indices (n : nat) : list (fin n) := enum (fin n).

Lemma elem_of_indices {n} (i : fin n) : i ∈ indices n.
Proof. apply elem_of_enum. Qed.

Lemma NoDup_indices n : NoDup (indices n).
Proof. apply NoDup_enum. Qed.

Lemma lookup_indices {n} (i : fin n) : indices n !! fin_to_nat i = Some i.
Proof.
  induction i as [n|n i IH]; [done|].
  change (indices (S n)) with (0%fin :: (FS <$> indices n)). cbn [fin_to_nat lookup list_lookup].
  apply list_lookup_fmap_Some. eauto.
Qed.

Lemma lookup_indices_inv {n} k (i : fin n) : indices n !! k = Some i -> k = fin_to_nat i.
Proof. intros H. eapply NoDup_lookup; [apply NoDup_indices|done|apply lookup_indices]. Qed.
