(* ===== verification/Params.v ===== *)
(** Parameters: the constants and macros of [src/kernel/param.h],
    [src/kernel/memlayout.h], [src/kernel/riscv.h], [src/kernel/fs.h],
    [src/kernel/stat.h], [src/kernel/fcntl.h] and [src/kernel/memlayout.h], and
    the arithmetic facts about page rounding, page-table entries and the three
    page-table indices of a virtual address. *)

From S2P Require Import Prelude.

(** * param.h *)
Definition NPROC : nat := 64.
Definition NCPU : nat := 8.
Definition NOFILE : nat := 16.
Definition NFILE : nat := 100.
Definition NINODE : nat := 50.
Definition NDEV : Z := 10.
Definition ROOTDEV : Z := 1.
Definition MAXARG : nat := 32.
Definition MAXOPBLOCKS : Z := 10.
Definition LOGSIZE : Z := MAXOPBLOCKS * 3.
Definition NBUF : nat := 30.
Definition FSSIZE : Z := 1000.
Definition MAXPATH : Z := 128.

(** * riscv.h *)
Definition PGSIZE : Z := 4096.
Definition PGSHIFT : Z := 12.
Definition PGROUNDUP (sz : Z) : Z := Z.land (u64 (sz + PGSIZE - 1)) (Z.lnot (PGSIZE - 1)).
Definition PGROUNDDOWN (a : Z) : Z := Z.land a (Z.lnot (PGSIZE - 1)).
Definition PTE_V : Z := 2 ^ 0.
Definition PTE_R : Z := 2 ^ 1.
Definition PTE_W : Z := 2 ^ 2.
Definition PTE_X : Z := 2 ^ 3.
Definition PTE_U : Z := 2 ^ 4.
Definition PA2PTE (pa : Z) : Z := u64 (Z.shiftl (Z.shiftr pa 12) 10).
Definition PTE2PA (pte : Z) : Z := u64 (Z.shiftl (Z.shiftr pte 10) 12).
Definition PTE_FLAGS (pte : Z) : Z := Z.land pte 1023.
Definition PXMASK : Z := 511.
Definition PXSHIFT (level : Z) : Z := PGSHIFT + 9 * level.
Definition PX (level va : Z) : Z := Z.land (Z.shiftr va (PXSHIFT level)) PXMASK.
Definition MAXVA : Z := 2 ^ (9 + 9 + 9 + 12 - 1).

(** * memlayout.h *)
Definition UART0 : Z := 268435456.          (* 0x10000000 *)
Definition VIRTIO0 : Z := 268439552.        (* 0x10001000 *)
Definition PLIC : Z := 201326592.           (* 0x0c000000 *)
Definition UART0_IRQ : Z := 10.
Definition VIRTIO0_IRQ : Z := 1.
Definition KERNBASE : Z := 2147483648.      (* 0x80000000 *)
Definition PHYSTOP : Z := KERNBASE + 128 * 1024 * 1024.
Definition TRAMPOLINE : Z := MAXVA - PGSIZE.
Definition KSTACK (p : Z) : Z := TRAMPOLINE - (p + 1) * 2 * PGSIZE.
Definition TRAPFRAME : Z := TRAMPOLINE - PGSIZE.

(** * fs.h, stat.h, fcntl.h *)
Definition ROOTINO : Z := 1.
Definition BSIZE : Z := 1024.
Definition FSMAGIC : Z := 270544960.        (* 0x10203040 *)
Definition NDIRECT : Z := 12.
Definition NINDIRECT : Z := BSIZE / 4.
Definition MAXFILE : Z := NDIRECT + NINDIRECT.
Definition IPB : Z := BSIZE / 64.
Definition BPB : Z := BSIZE * 8.
Definition DIRSIZ : nat := 14.
Definition T_DIR : Z := 1.
Definition T_FILE : Z := 2.
Definition T_DEVICE : Z := 3.
Definition O_RDONLY : Z := 0.
Definition O_WRONLY : Z := 1.
Definition O_RDWR : Z := 2.
Definition O_CREATE : Z := 512.             (* 0x200 *)
Definition O_TRUNC : Z := 1024.             (* 0x400 *)
Definition PROT_READ : Z := 1.
Definition PROT_WRITE : Z := 2.
Definition MAP_SHARED : Z := 1.
Definition MAP_PRIVATE : Z := 2.

#[global] Arguments PGROUNDUP : simpl never.
#[global] Arguments PGROUNDDOWN : simpl never.
#[global] Arguments PA2PTE : simpl never.
#[global] Arguments PTE2PA : simpl never.
#[global] Arguments PTE_FLAGS : simpl never.
#[global] Arguments PX : simpl never.

(** * Page arithmetic *)

Lemma PGROUNDDOWN_eq a : PGROUNDDOWN a = a - a mod PGSIZE.
Proof. apply (land_lnot_ones a 12). lia. Qed.

Lemma PGROUNDUP_eq sz :
  0 <= sz < 2 ^ 64 - PGSIZE -> PGROUNDUP sz = sz + PGSIZE - 1 - (sz + PGSIZE - 1) mod PGSIZE.
Proof.
  unfold PGSIZE. intros. unfold PGROUNDUP. rewrite u64_small by (unfold PGSIZE; lia).
  apply (land_lnot_ones _ 12). lia.
Qed.

Definition aligned (a : Z) : Prop := a mod PGSIZE = 0.

Lemma PGROUNDDOWN_aligned a : aligned (PGROUNDDOWN a).
Proof. rewrite PGROUNDDOWN_eq. unfold aligned, PGSIZE. rewrite Zminus_mod_idemp_r, Z.sub_diag. done. Qed.

Lemma PGROUNDDOWN_bounds a : PGROUNDDOWN a <= a < PGROUNDDOWN a + PGSIZE.
Proof. rewrite PGROUNDDOWN_eq. pose proof (Z.mod_pos_bound a PGSIZE). unfold PGSIZE in *. lia. Qed.

Lemma PGROUNDDOWN_id a : aligned a -> PGROUNDDOWN a = a.
Proof. rewrite PGROUNDDOWN_eq. unfold aligned. lia. Qed.

Lemma aligned_add a k : aligned a -> aligned (a + k * PGSIZE).
Proof. unfold aligned. intros. rewrite Z.mod_add by (unfold PGSIZE; lia). done. Qed.

Lemma aligned_step a : aligned a -> aligned (a + PGSIZE).
Proof. intros. replace (a + PGSIZE) with (a + 1 * PGSIZE) by lia. by apply aligned_add. Qed.

Lemma aligned_mult a : aligned a -> exists k, a = k * PGSIZE.
Proof.
  unfold aligned, PGSIZE. intros H. exists (a / 4096).
  pose proof (Z.div_mod a 4096). lia.
Qed.

Lemma PGROUNDUP_bounds sz :
  0 <= sz < 2 ^ 64 - PGSIZE ->
  aligned (PGROUNDUP sz) /\ sz <= PGROUNDUP sz < sz + PGSIZE.
Proof.
  intros H. rewrite PGROUNDUP_eq by done. unfold aligned, PGSIZE in *.
  pose proof (Z.mod_pos_bound (sz + 4096 - 1) 4096).
  rewrite Zminus_mod_idemp_r, Z.sub_diag. split; [done|lia].
Qed.

(** Two pages with different base addresses do not overlap. *)
Lemma aligned_disjoint a b :
  aligned a -> aligned b -> a <> b -> a + PGSIZE <= b \/ b + PGSIZE <= a.
Proof.
  intros [k ->]%aligned_mult [j ->]%aligned_mult Hne. unfold PGSIZE in *. lia.
Qed.

(** * Page-table entries *)

Lemma PA2PTE_eq pa : aligned pa -> 0 <= pa < 2 ^ 56 -> PA2PTE pa = pa / PGSIZE * 1024.
Proof.
  unfold aligned, PGSIZE. intros Ha Hr. unfold PA2PTE.
  rewrite Z.shiftr_div_pow2, Z.shiftl_mul_pow2 by lia.
  change (2 ^ 12) with 4096. change (2 ^ 10) with 1024.
  assert (0 <= pa / 4096 < 2 ^ 44).
  { split; [apply Z.div_pos; lia|]. apply Z.div_lt_upper_bound; lia. }
  rewrite u64_small by lia. done.
Qed.

(** A PTE built from an aligned physical address and flag bits gives both back. *)
Lemma PTE2PA_PA2PTE pa f :
  aligned pa -> 0 <= pa < 2 ^ 56 -> 0 <= f < 1024 -> PTE2PA (Z.lor (PA2PTE pa) f) = pa.
Proof.
  intros Ha Hp Hf. rewrite PA2PTE_eq by done.
  rewrite (lor_mul_pow2 _ f 10) by lia. change (2 ^ 10) with 1024.
  unfold PTE2PA. rewrite Z.shiftr_div_pow2, Z.shiftl_mul_pow2 by lia.
  change (2 ^ 10) with 1024. rewrite Z.div_add_l, (Z.div_small f), Z.add_0_r by lia.
  unfold aligned, PGSIZE in *. pose proof (Z.div_mod pa 4096).
  change (2 ^ 12) with 4096. rewrite u64_small; lia.
Qed.

Lemma PTE_FLAGS_PA2PTE pa f :
  aligned pa -> 0 <= pa < 2 ^ 56 -> 0 <= f < 1024 -> PTE_FLAGS (Z.lor (PA2PTE pa) f) = f.
Proof.
  intros Ha Hp Hf. rewrite PA2PTE_eq by done.
  rewrite (lor_mul_pow2 _ f 10) by lia.
  unfold PTE_FLAGS. rewrite (land_ones_mod _ 10) by lia.
  change (2 ^ 10) with 1024. rewrite Z.add_comm, Z.mod_add, Z.mod_small by lia. done.
Qed.

Lemma land_PTE_PA2PTE pa f b :
  aligned pa -> 0 <= pa < 2 ^ 56 -> 0 <= f < 1024 -> 0 <= b < 1024 ->
  Z.land (Z.lor (PA2PTE pa) f) b = Z.land f b.
Proof.
  intros Ha Hp Hf Hb. rewrite PA2PTE_eq by done.
  rewrite (lor_mul_pow2 _ f 10), (land_add_mul_pow2 _ _ _ 10) by lia. done.
Qed.

Lemma PTE_range pa f :
  aligned pa -> 0 <= pa < 2 ^ 56 -> 0 <= f < 1024 -> 0 <= Z.lor (PA2PTE pa) f < 2 ^ 64.
Proof.
  intros Ha Hp Hf. rewrite PA2PTE_eq by done. rewrite (lor_mul_pow2 _ f 10) by lia.
  unfold PGSIZE. assert (0 <= pa / 4096 < 2 ^ 44); [|lia].
  split; [apply Z.div_pos; lia|]. apply Z.div_lt_upper_bound; lia.
Qed.

(** * Virtual addresses *)

Lemma PX_eq level va : 0 <= level -> PX level va = va / 2 ^ (12 + 9 * level) mod 512.
Proof.
  intros. unfold PX, PXSHIFT, PGSHIFT, PXMASK.
  rewrite Z.shiftr_div_pow2 by lia. apply (land_ones_mod _ 9). lia.
Qed.

Lemma PX_range level va : 0 <= level -> 0 <= PX level va < 512.
Proof. intros. rewrite PX_eq by lia. apply Z.mod_pos_bound. lia. Qed.

(** The three indices determine the page of an address below [2^39]. *)
Lemma PX_page va :
  0 <= va < 2 ^ 39 ->
  PGROUNDDOWN va = PX 2 va * 2 ^ 30 + PX 1 va * 2 ^ 21 + PX 0 va * 2 ^ 12.
Proof.
  intros H. rewrite PGROUNDDOWN_eq, !PX_eq by lia.
  change (12 + 9 * 2) with 30. change (12 + 9 * 1) with 21. change (12 + 9 * 0) with 12.
  unfold PGSIZE.
  replace (2 ^ 30) with (2 ^ 21 * 512) by done.
  replace (2 ^ 21) with (2 ^ 12 * 512) by done.
  rewrite <- !Z.div_div by lia. change (2 ^ 12) with 4096.
  set (a := va / 4096).
  assert (a = a / 512 * 512 + a mod 512) by (pose proof (Z.div_mod a 512); lia).
  assert (a / 512 = a / 512 / 512 * 512 + (a / 512) mod 512)
    by (pose proof (Z.div_mod (a / 512) 512); lia).
  assert (0 <= a / 512 / 512 < 512).
  { unfold a. rewrite !Z.div_div by lia. split; [apply Z.div_pos; lia|].
    apply Z.div_lt_upper_bound; lia. }
  rewrite (Z.mod_small (a / 512 / 512)) by lia.
  pose proof (Z.div_mod va 4096). unfold a in *. lia.
Qed.

Lemma PX_inj va va' :
  0 <= va < 2 ^ 39 -> 0 <= va' < 2 ^ 39 ->
  PX 2 va = PX 2 va' -> PX 1 va = PX 1 va' -> PX 0 va = PX 0 va' ->
  PGROUNDDOWN va = PGROUNDDOWN va'.
Proof. intros ?? H2 H1 H0. rewrite !PX_page by lia. by rewrite H2, H1, H0. Qed.

Lemma PX_PGROUNDDOWN level va :
  0 <= level -> PX level (PGROUNDDOWN va) = PX level va.
Proof.
  intros Hl. rewrite !PX_eq, PGROUNDDOWN_eq by lia. f_equal. unfold PGSIZE.
  replace (2 ^ (12 + 9 * level)) with (4096 * 2 ^ (9 * level))
    by (rewrite Z.pow_add_r by lia; done).
  assert (0 < 2 ^ (9 * level)) by (apply Z.pow_pos_nonneg; lia).
  rewrite <- !Z.div_div by lia. f_equal.
  pose proof (Z.div_mod va 4096).
  replace (va - va mod 4096) with (va / 4096 * 4096) by lia.
  by rewrite Z.div_mul.
Qed.
