(* ===== verification/Ring.v ===== *)
(** Ring buffers: what the bounded queues of the pipe, of the console and of
    the UART driver hold. The indices count up and wrap at the size of their
    type; the slot of an index is its remainder by the size of the buffer, which
    divides that of the type. *)

From S2P Require Import Prelude.

(** The [n] elements from index [r] on, in a buffer of [N] slots. *)
Definition seg (N : Z) (buf : list Z) (r : Z) (n : nat) : list Z :=
  (fun i => buf !!! Z.to_nat ((r + i) mod N)) <$> seqZ 0 (Z.of_nat n).

Section Ring.
Variable N : Z.
Hypothesis N_pos : 0 < N.
Implicit Types (buf : list Z) (r : Z) (n : nat).

Lemma length_seg buf r n : length (seg N buf r n) = n.
Proof. unfold seg. rewrite length_fmap, length_seqZ. lia. Qed.

Lemma seg_0 buf r : seg N buf r 0 = [].
Proof. done. Qed.

Lemma seg_app buf r n k : seg N buf r (n + k) = seg N buf r n ++ seg N buf (r + Z.of_nat n) k.
Proof.
  unfold seg. replace (Z.of_nat (n + k)) with (Z.of_nat n + Z.of_nat k) by lia.
  rewrite seqZ_app by lia. rewrite fmap_app. f_equal.
  replace (0 + Z.of_nat n) with (Z.of_nat n + 0) by lia. rewrite <- fmap_add_seqZ, <- list_fmap_compose.
  apply list_fmap_ext. intros i x _. cbn. do 3 f_equal. lia.
Qed.

Lemma seg_1 buf r : seg N buf r 1 = [buf !!! Z.to_nat (r mod N)].
Proof. unfold seg. change (seqZ 0 (Z.of_nat 1)) with [0]. cbn [fmap list_fmap]. by rewrite Z.add_0_r. Qed.

Lemma seg_cons buf r n : seg N buf r (S n) = (buf !!! Z.to_nat (r mod N)) :: seg N buf (r + 1) n.
Proof. change (S n) with (1 + n)%nat. by rewrite seg_app, seg_1. Qed.

Lemma seg_snoc buf r n : seg N buf r (S n) = seg N buf r n ++ [buf !!! Z.to_nat ((r + Z.of_nat n) mod N)].
Proof. replace (S n) with (n + 1)%nat by lia. by rewrite seg_app, seg_1. Qed.

(** Indices that name the same slots. *)
Lemma seg_mod buf r r' n : r mod N = r' mod N -> seg N buf r n = seg N buf r' n.
Proof.
  intros H. unfold seg. apply list_fmap_ext. intros i x _. do 2 f_equal.
  rewrite <- (Zplus_mod_idemp_l r), H, Zplus_mod_idemp_l. done.
Qed.

(** Storing behind the [n] elements leaves them. *)
Lemma seg_insert buf r n x :
  Z.of_nat n < N -> seg N (<[Z.to_nat ((r + Z.of_nat n) mod N) := x]> buf) r n = seg N buf r n.
Proof.
  intros Hn. unfold seg. apply list_fmap_ext. intros i y Hy.
  apply lookup_seqZ in Hy as [-> Hi]. rewrite list_lookup_total_insert_ne; [done|].
  pose proof (Z.mod_pos_bound (r + Z.of_nat n) N N_pos). pose proof (Z.mod_pos_bound (r + (0 + Z.of_nat i)) N N_pos).
  intros E%(f_equal Z.of_nat). rewrite !Z2Nat.id in E by lia.
  assert ((r + Z.of_nat n - (r + (0 + Z.of_nat i))) mod N = 0) as Hm.
  { rewrite Zminus_mod, E, Z.sub_diag. by apply Z.mod_0_l; lia. }
  replace (r + Z.of_nat n - (r + (0 + Z.of_nat i))) with (Z.of_nat n - Z.of_nat i) in Hm by lia.
  rewrite Z.mod_small in Hm by lia. lia.
Qed.

(** Appending. *)
Lemma seg_push buf r n x :
  Z.of_nat (length buf) = N -> Z.of_nat n < N ->
  seg N (<[Z.to_nat ((r + Z.of_nat n) mod N) := x]> buf) r (S n) = seg N buf r n ++ [x].
Proof.
  intros Hl Hn. rewrite seg_snoc, seg_insert by done. f_equal.
  rewrite list_lookup_total_insert_eq; [done|].
  pose proof (Z.mod_pos_bound (r + Z.of_nat n) N N_pos). lia.
Qed.
End Ring.

(** Indices of [w] bits. *)
Section Word.
Variables N W : Z.
Hypothesis N_pos : 0 < N.
Hypothesis W_mult : (N | W).
Hypothesis W_pos : 0 < W.

(** A wrapped index names the same slot. *)
Lemma ring_wrap x : (x mod W) mod N = x mod N.
Proof. by apply Z.mod_mod_divide. Qed.

(** The number of elements between a read and a write index. *)
Definition used (r w : Z) : Z := (w - r) mod W.

Lemma used_range r w : 0 <= used r w < W.
Proof. by apply Z.mod_pos_bound. Qed.

Lemma used_slot r w : (r + used r w) mod N = w mod N.
Proof.
  unfold used. rewrite <- (ring_wrap (r + _)), Zplus_mod_idemp_r. replace (r + (w - r)) with w by lia. apply ring_wrap.
Qed.

Lemma used_push r w : used r w + 1 < W -> used r ((w + 1) mod W) = used r w + 1.
Proof.
  intros H. pose proof (used_range r w). unfold used in *. rewrite Zminus_mod_idemp_l.
  replace (w + 1 - r) with (w - r + 1) by lia. rewrite <- Zplus_mod_idemp_l. apply Z.mod_small. lia.
Qed.

Lemma used_pop r w : 0 < used r w -> used ((r + 1) mod W) w = used r w - 1.
Proof.
  intros H. pose proof (used_range r w). unfold used in *. rewrite Zminus_mod_idemp_r.
  replace (w - (r + 1)) with (w - r - 1) by lia. rewrite <- Zminus_mod_idemp_l. apply Z.mod_small. lia.
Qed.

(** Taking back the last element. *)
Lemma used_unpush r w : 0 < used r w -> used r ((w - 1) mod W) = used r w - 1.
Proof.
  intros H. pose proof (used_range r w). unfold used in *. rewrite Zminus_mod_idemp_l.
  replace (w - 1 - r) with (w - r - 1) by lia. rewrite <- Zminus_mod_idemp_l. apply Z.mod_small. lia.
Qed.

Lemma used_eq r w k : 0 <= w < W -> 0 <= k < W -> (w =? (r + k) mod W) = (used r w =? k).
Proof.
  intros Hw Hk. unfold used. destruct (Z.eqb_spec w ((r + k) mod W)) as [->|Hne].
  - symmetry. apply Z.eqb_eq. rewrite Zminus_mod_idemp_l. replace (r + k - r) with k by lia. by apply Z.mod_small.
  - symmetry. apply Z.eqb_neq. intros E. apply Hne. rewrite <- E, Zplus_mod_idemp_r.
    replace (r + (w - r)) with w by lia. symmetry. by apply Z.mod_small.
Qed.

Lemma used_zero r w : 0 <= r < W -> 0 <= w < W -> (r =? w) = (used r w =? 0).
Proof.
  intros Hr Hw. rewrite <- (used_eq r w 0) by lia. rewrite Z.add_0_r, (Z.mod_small r) by done. apply Z.eqb_sym.
Qed.

(** What the ring holds. *)
Definition ring (buf : list Z) (r w : Z) : list Z := seg N buf r (Z.to_nat (used r w)).

Lemma length_ring buf r w : length (ring buf r w) = Z.to_nat (used r w).
Proof. apply length_seg. Qed.

Lemma ring_push buf r w x :
  Z.of_nat (length buf) = N -> used r w < N -> used r w + 1 < W ->
  ring (<[Z.to_nat (w mod N) := x]> buf) r ((w + 1) mod W) = ring buf r w ++ [x].
Proof.
  intros Hl Hu Hw. pose proof (used_range r w). unfold ring. rewrite used_push by done.
  replace (Z.to_nat (used r w + 1)) with (S (Z.to_nat (used r w))) by lia.
  rewrite <- (used_slot r w). replace (used r w) with (Z.of_nat (Z.to_nat (used r w))) at 1 by lia.
  apply seg_push; [done..|lia].
Qed.

Lemma ring_pop buf r w :
  0 < used r w -> ring buf r w = (buf !!! Z.to_nat (r mod N)) :: ring buf ((r + 1) mod W) w.
Proof.
  intros Hu. unfold ring. rewrite used_pop by done.
  replace (Z.to_nat (used r w)) with (S (Z.to_nat (used r w - 1))) by lia. rewrite seg_cons. f_equal.
  apply seg_mod. symmetry. apply ring_wrap.
Qed.

Lemma ring_unpush buf r w :
  0 < used r w -> ring buf r w = ring buf r ((w - 1) mod W) ++ [buf !!! Z.to_nat ((w - 1) mod N)].
Proof.
  intros Hu. unfold ring. rewrite used_unpush by done.
  replace (Z.to_nat (used r w)) with (S (Z.to_nat (used r w - 1))) by lia. rewrite seg_snoc. do 4 f_equal.
  rewrite Z2Nat.id by lia. replace (r + (used r w - 1)) with (r + used r w - 1) by lia.
  rewrite <- Zminus_mod_idemp_l, used_slot, Zminus_mod_idemp_l. done.
Qed.

(** Two adjacent parts of the ring. *)
Lemma used_split r w e : used r w + used w e < W -> used r e = used r w + used w e.
Proof.
  intros H. pose proof (used_range r w). pose proof (used_range w e). unfold used in *.
  replace (e - r) with (w - r + (e - w)) by lia. rewrite Zplus_mod. apply Z.mod_small. lia.
Qed.

Lemma ring_split buf r w e : used r w + used w e < W -> ring buf r e = ring buf r w ++ ring buf w e.
Proof.
  intros H. pose proof (used_range r w). pose proof (used_range w e). unfold ring. rewrite (used_split r w e) by done.
  rewrite Z2Nat.inj_add, seg_app by lia. f_equal. apply seg_mod. rewrite Z2Nat.id by lia. apply used_slot.
Qed.
End Word.
