(* ===== verification/Asm.v ===== *)
(** The assembly of the kernel: the trampoline ([src/kernel/trampoline.S]),
    [swtch] ([src/kernel/swtch.S]), [kernelvec] and [timervec]
    ([src/kernel/kernelvec.S]) and the entry code ([src/kernel/entry.S]), as
    programs of the few RISC-V instructions they use.

    The memory is the one the program's loads and stores reach: for the
    trampoline the user page table, where [TRAPFRAME] is the trapframe page. *)

From S2P Require Import Prelude Params.

(** * Instructions *)

Module Asm.

Inductive reg : Type :=
| ra | sp | gp | tp | t0 | t1 | t2 | s0 | s1 | a0 | a1 | a2 | a3 | a4 | a5 | a6 | a7
| s2 | s3 | s4 | s5 | s6 | s7 | s8 | s9 | s10 | s11 | t3 | t4 | t5 | t6.
#[export] Instance reg_eq_dec : EqDecision reg.
Proof. solve_decision. Defined.

Inductive csr : Type := sscratch | satp | mscratch | mhartid | sip.
#[export] Instance csr_eq_dec : EqDecision csr.
Proof. solve_decision. Defined.

Inductive instr : Type :=
| Sd (rs : reg) (off : Z) (rb : reg)
| Ld (rd : reg) (off : Z) (rb : reg)
| Addi (rd rs : reg) (imm : Z)
| Add (rd rs rt : reg)
| Mul (rd rs rt : reg)
| Li (rd : reg) (imm : Z)
| Csrrw (rd : reg) (c : csr) (rs : reg)
| Csrr (rd : reg) (c : csr)
| Csrw (c : csr) (rs : reg)
| SfenceVma.

Record mach : Type := Mach {
  m_reg : reg -> Z;
  m_csr : csr -> Z;
  m_mem : memory;
}.

Definition setr (r : reg) (v : Z) (f : reg -> Z) : reg -> Z := fun x => if decide (x = r) then v else f x.
Definition setc (c : csr) (v : Z) (f : csr -> Z) : csr -> Z := fun x => if decide (x = c) then v else f x.

Definition step (i : instr) (m : mach) : mach :=
  let R := m_reg m in
  match i with
  | Sd rs off rb => Mach R (m_csr m) (store64 (m_mem m) (u64 (R rb + off)) (R rs))
  | Ld rd off rb => Mach (setr rd (load64 (m_mem m) (u64 (R rb + off))) R) (m_csr m) (m_mem m)
  | Addi rd rs imm => Mach (setr rd (u64 (R rs + imm)) R) (m_csr m) (m_mem m)
  | Add rd rs rt => Mach (setr rd (u64 (R rs + R rt)) R) (m_csr m) (m_mem m)
  | Mul rd rs rt => Mach (setr rd (u64 (R rs * R rt)) R) (m_csr m) (m_mem m)
  | Li rd imm => Mach (setr rd (u64 imm) R) (m_csr m) (m_mem m)
  | Csrrw rd c rs => Mach (setr rd (m_csr m c) R) (setc c (R rs) (m_csr m)) (m_mem m)
  | Csrr rd c => Mach (setr rd (m_csr m c) R) (m_csr m) (m_mem m)
  | Csrw c rs => Mach R (setc c (R rs) (m_csr m)) (m_mem m)
  | SfenceVma => m
  end.
Definition execute (p : list instr) (m : mach) : mach := foldl (fun m i => step i m) m p.

(** * The programs *)

(** [uservec], up to the jump to [usertrap]. *)
Definition uservec_save : list instr :=
  [Sd ra 40 a0; Sd sp 48 a0; Sd gp 56 a0; Sd tp 64 a0; Sd t0 72 a0; Sd t1 80 a0; Sd t2 88 a0; Sd s0 96 a0; Sd s1 104 a0;
   Sd a1 120 a0; Sd a2 128 a0; Sd a3 136 a0; Sd a4 144 a0; Sd a5 152 a0; Sd a6 160 a0; Sd a7 168 a0; Sd s2 176 a0;
   Sd s3 184 a0; Sd s4 192 a0; Sd s5 200 a0; Sd s6 208 a0; Sd s7 216 a0; Sd s8 224 a0; Sd s9 232 a0; Sd s10 240 a0;
   Sd s11 248 a0; Sd t3 256 a0; Sd t4 264 a0; Sd t5 272 a0; Sd t6 280 a0].
Definition uservec_end : list instr :=
  [Csrr t0 sscratch; Sd t0 112 a0; Ld sp 8 a0; Ld tp 32 a0; Ld t0 16 a0; Ld t1 0 a0; Csrw satp t1; SfenceVma].
Definition uservec : list instr := [Csrrw a0 sscratch a0] ++ uservec_save ++ uservec_end.

(** [userret], up to [sret]. *)
Definition userret_load : list instr :=
  [Ld ra 40 a0; Ld sp 48 a0; Ld gp 56 a0; Ld tp 64 a0; Ld t0 72 a0; Ld t1 80 a0; Ld t2 88 a0; Ld s0 96 a0; Ld s1 104 a0;
   Ld a1 120 a0; Ld a2 128 a0; Ld a3 136 a0; Ld a4 144 a0; Ld a5 152 a0; Ld a6 160 a0; Ld a7 168 a0; Ld s2 176 a0;
   Ld s3 184 a0; Ld s4 192 a0; Ld s5 200 a0; Ld s6 208 a0; Ld s7 216 a0; Ld s8 224 a0; Ld s9 232 a0; Ld s10 240 a0;
   Ld s11 248 a0; Ld t3 256 a0; Ld t4 264 a0; Ld t5 272 a0; Ld t6 280 a0].
Definition userret : list instr :=
  [Csrw satp a1; SfenceVma; Ld t0 112 a0; Csrw sscratch t0] ++ userret_load ++ [Csrrw a0 sscratch a0].

(** [swtch(old, new)]: it saves at [a0] and loads from [a1]. *)
Definition swtch_save : list instr :=
  [Sd ra 0 a0; Sd sp 8 a0; Sd s0 16 a0; Sd s1 24 a0; Sd s2 32 a0; Sd s3 40 a0; Sd s4 48 a0; Sd s5 56 a0; Sd s6 64 a0;
   Sd s7 72 a0; Sd s8 80 a0; Sd s9 88 a0; Sd s10 96 a0; Sd s11 104 a0].
Definition swtch_load : list instr :=
  [Ld ra 0 a1; Ld sp 8 a1; Ld s0 16 a1; Ld s1 24 a1; Ld s2 32 a1; Ld s3 40 a1; Ld s4 48 a1; Ld s5 56 a1; Ld s6 64 a1;
   Ld s7 72 a1; Ld s8 80 a1; Ld s9 88 a1; Ld s10 96 a1; Ld s11 104 a1].
Definition swtch : list instr := swtch_save ++ swtch_load.

(** [kernelvec], before and after the call of [kerneltrap]. *)
Definition kernelvec_save : list instr :=
  [Addi sp sp (-256); Sd ra 0 sp; Sd sp 8 sp; Sd gp 16 sp; Sd tp 24 sp; Sd t0 32 sp; Sd t1 40 sp; Sd t2 48 sp; Sd s0 56 sp;
   Sd s1 64 sp; Sd a0 72 sp; Sd a1 80 sp; Sd a2 88 sp; Sd a3 96 sp; Sd a4 104 sp; Sd a5 112 sp; Sd a6 120 sp; Sd a7 128 sp;
   Sd s2 136 sp; Sd s3 144 sp; Sd s4 152 sp; Sd s5 160 sp; Sd s6 168 sp; Sd s7 176 sp; Sd s8 184 sp; Sd s9 192 sp;
   Sd s10 200 sp; Sd s11 208 sp; Sd t3 216 sp; Sd t4 224 sp; Sd t5 232 sp; Sd t6 240 sp].
Definition kernelvec_load : list instr :=
  [Ld ra 0 sp; Ld sp 8 sp; Ld gp 16 sp; Ld t0 32 sp; Ld t1 40 sp; Ld t2 48 sp; Ld s0 56 sp; Ld s1 64 sp; Ld a0 72 sp;
   Ld a1 80 sp; Ld a2 88 sp; Ld a3 96 sp; Ld a4 104 sp; Ld a5 112 sp; Ld a6 120 sp; Ld a7 128 sp; Ld s2 136 sp; Ld s3 144 sp;
   Ld s4 152 sp; Ld s5 160 sp; Ld s6 168 sp; Ld s7 176 sp; Ld s8 184 sp; Ld s9 192 sp; Ld s10 200 sp; Ld s11 208 sp;
   Ld t3 216 sp; Ld t4 224 sp; Ld t5 232 sp; Ld t6 240 sp; Addi sp sp 256].

(** [timervec], up to [mret]. *)
Definition timervec : list instr :=
  [Csrrw a0 mscratch a0; Sd a1 0 a0; Sd a2 8 a0; Sd a3 16 a0; Ld a1 24 a0; Ld a2 32 a0; Ld a3 0 a1; Add a3 a3 a2; Sd a3 0 a1;
   Li a1 2; Csrw sip a1; Ld a3 16 a0; Ld a2 8 a0; Ld a1 0 a0; Csrrw a0 mscratch a0].

(** [_entry], up to the call of [start]; [la sp, stack0] is a load of an
    address. *)
Definition entry (stack0 : Z) : list instr :=
  [Li sp stack0; Li a0 (1024 * 4); Csrr a1 mhartid; Addi a1 a1 1; Mul a0 a0 a1; Add sp sp a0].

(** * Registers saved and restored *)

#[local] Strategy 1000 [load64 store64 u64].

Lemma setr_eq r v f : setr r v f r = v.
Proof. unfold setr. by rewrite decide_True. Qed.
Lemma setr_ne r v f x : x <> r -> setr r v f x = f x.
Proof. intros. unfold setr. by rewrite decide_False. Qed.
Lemma setc_eq c v f : setc c v f c = v.
Proof. unfold setc. by rewrite decide_True. Qed.
Lemma setc_ne c v f x : x <> c -> setc c v f x = f x.
Proof. intros. unfold setc. by rewrite decide_False. Qed.

(** The register reads of a straight-line program. *)
Ltac regs :=
  cbn [execute foldl step m_reg m_csr m_mem];
  repeat first [rewrite setr_eq | rewrite setc_eq | rewrite setr_ne by discriminate | rewrite setc_ne by discriminate].

(** A list of registers with their offsets from a base register. *)
Definition saves (rb : reg) (l : list (reg * Z)) : list instr := (fun x => Sd (fst x) (snd x) rb) <$> l.
Definition loads (rb : reg) (l : list (reg * Z)) : list instr := (fun x => Ld (fst x) (snd x) rb) <$> l.

Lemma exec_app p q m : execute (p ++ q) m = execute q (execute p m).
Proof. apply foldl_app. Qed.

Lemma exec_cons i p m : execute (i :: p) m = execute p (step i m).
Proof. done. Qed.

(** An area of memory the offsets stay in, without wrap-around. *)
Definition area (base len : Z) : Prop := 0 <= base /\ base + len <= 2 ^ 64.
Definition slots (len : Z) (l : list (reg * Z)) : Prop := Forall (fun x => 0 <= snd x /\ snd x + 8 <= len) l.
Lemma slot_in len l r o : slots len l -> (r, o) ∈ l -> 0 <= o /\ o + 8 <= len.
Proof. intros Hl Hin. exact (proj1 (Forall_forall _ _) Hl _ Hin). Qed.
(** Slots of eight bytes that do not overlap. *)
Fixpoint slot_apart (l : list (reg * Z)) : Prop :=
  match l with
  | [] => True
  | x :: l' => Forall (fun y => snd x + 8 <= snd y \/ snd y + 8 <= snd x) l' /\ slot_apart l'
  end.

Lemma saves_frame rb l len m :
  area (m_reg m rb) len -> slots len l ->
  m_reg (execute (saves rb l) m) = m_reg m /\ m_csr (execute (saves rb l) m) = m_csr m /\
  forall x, Forall (fun y => x < m_reg m rb + snd y \/ m_reg m rb + snd y + 8 <= x) l ->
    m_mem (execute (saves rb l) m) x = m_mem m x.
Proof.
  intros [Hb He] Hl. revert m Hb He. induction Hl as [|[r o] l [Ho1 Ho2] Hl IH]; intros m Hb He; [done|].
  cbn [saves fmap list_fmap fst snd] in *. rewrite exec_cons.
  destruct (IH (step (Sd r o rb) m)) as (H1 & H2 & H3); [done..|].
  split_and!; [done..|]. intros x [Hx1 Hx2]%Forall_cons. fold (saves rb l). rewrite H3 by done.
  cbn [step m_mem]. rewrite u64_small by lia. apply store_bytes_out. rewrite length_le_bytes. cbn in Hx1. lia.
Qed.

(** What has been saved is there. *)
Lemma saves_spec rb l len m r o :
  area (m_reg m rb) len -> slots len l -> slot_apart l -> (r, o) ∈ l -> 0 <= m_reg m r < 2 ^ 64 ->
  load64 (m_mem (execute (saves rb l) m)) (m_reg m rb + o) = m_reg m r.
Proof.
  intros Ha Hl Hap Hin Hr. revert m Ha Hr. induction Hl as [|[r' o'] l [Ho1 Ho2] Hl IH]; intros m Ha Hr; [by inversion Hin|].
  destruct Hap as [Hap1 Hap2]. cbn [saves fmap list_fmap fst snd] in *. rewrite exec_cons. fold (saves rb l).
  apply elem_of_cons in Hin as [[= <- <-]|Hin].
  - pose proof (saves_frame rb l len (step (Sd r o rb) m) Ha Hl) as (_ & _ & Hf).
    erewrite load64_ext.
    2: { intros x Hx. apply Hf. eapply Forall_impl; [exact Hap1|]. intros [r2 o2]. cbn in *. lia. }
    cbn [step m_mem]. destruct Ha. rewrite u64_small by lia.
    rewrite load64_store64. by apply u64_small.
  - by apply (IH Hap2 Hin (step (Sd r' o' rb) m)).
Qed.

(** Loads: the base register keeps its value. *)
Lemma loads_spec rb l len m :
  area (m_reg m rb) len -> slots len l ->
  (forall o, (rb, o) ∈ l -> load64 (m_mem m) (m_reg m rb + o) = m_reg m rb) ->
  NoDup l.*1 ->
  let m' := execute (loads rb l) m in
  m_mem m' = m_mem m /\ m_csr m' = m_csr m /\
  (forall r o, (r, o) ∈ l -> m_reg m' r = load64 (m_mem m) (m_reg m rb + o)) /\
  (forall r, r ∉ l.*1 -> m_reg m' r = m_reg m r).
Proof.
  intros Ha Hl. revert m Ha. induction Hl as [|[r' o'] l [Ho1 Ho2] Hl IH]; intros m Ha Hb Hnd m'.
  { split_and!; [done..|by intros ?? ?%not_elem_of_nil|done]. }
  apply NoDup_cons in Hnd as [Hn1 Hn2]. subst m'. cbn [loads fmap list_fmap fst snd] in *. rewrite exec_cons. fold (loads rb l).
  assert (u64 (m_reg m rb + o') = m_reg m rb + o') as Hu by (destruct Ha; apply u64_small; lia).
  assert (m_reg (step (Ld r' o' rb) m) rb = m_reg m rb) as Hrb.
  { cbn [step m_reg]. unfold setr. destruct (decide (rb = r')) as [<-|]; [|done]. rewrite Hu. apply Hb. left. }
  destruct (IH (step (Ld r' o' rb) m)) as (H1 & H2 & H3 & H4).
  { by rewrite Hrb. }
  { intros o Ho. rewrite Hrb. apply Hb. by right. }
  { done. }
  rewrite Hrb in H3. rewrite H1, H2. split_and!; [done..| |].
  - intros r o [[= -> ->]|Ho]%elem_of_cons; [|by apply H3].
    rewrite H4 by done. cbn [step m_reg]. unfold setr. rewrite decide_True by done. by rewrite Hu.
  - intros r [Hr1 Hr2]%not_elem_of_cons. rewrite H4 by done. cbn [step m_reg]. unfold setr. by rewrite decide_False.
Qed.

Lemma not_loaded r o (l : list (reg * Z)) : r ∉ l.*1 -> (r, o) ∉ l.
Proof. intros H Hin. apply H. apply list_elem_of_fmap. by exists (r, o). Qed.

(** Memory that is kept as it was. *)
Lemma kept_mem P f g h : mem_agree P (m_mem (Mach f g h)) h.
Proof. done. Qed.

(** ** The trampoline *)

(** The trapframe slots of the registers other than [a0], whose slot is 112. *)
Definition user_regs : list (reg * Z) :=
  [(ra, 40); (sp, 48); (gp, 56); (tp, 64); (t0, 72); (t1, 80); (t2, 88); (s0, 96); (s1, 104); (a1, 120); (a2, 128);
   (a3, 136); (a4, 144); (a5, 152); (a6, 160); (a7, 168); (s2, 176); (s3, 184); (s4, 192); (s5, 200); (s6, 208); (s7, 216);
   (s8, 224); (s9, 232); (s10, 240); (s11, 248); (t3, 256); (t4, 264); (t5, 272); (t6, 280)].
Definition tf_slot (r : reg) : Z := default 112 (snd <$> list_find (fun x => fst x = r) user_regs ≫= fun x => Some (snd x)).

#[global] Arguments tf_slot : simpl never.
Definition TFSIZE : Z := 288.

(** Registers hold 64-bit values. *)
Definition regs_ok (m : mach) : Prop := forall r, 0 <= m_reg m r < 2 ^ 64.

Ltac slots_tac := repeat (apply Forall_cons_2; [cbn; lia|]); apply Forall_nil_2.
Lemma uservec_saves : uservec_save = saves a0 user_regs.
Proof. reflexivity. Qed.
Lemma userret_loads : userret_load = loads a0 user_regs.
Proof. reflexivity. Qed.
Lemma user_regs_slots : slots TFSIZE user_regs.
Proof. unfold slots, user_regs, TFSIZE. slots_tac. Qed.
Lemma user_regs_apart : slot_apart user_regs.
Proof. cbn. repeat split; slots_tac. Qed.
Lemma user_regs_nodup : NoDup user_regs.*1.
Proof. apply (bool_decide_unpack _). by vm_compute. Qed.
Lemma user_regs_all r : r <> a0 -> (r, tf_slot r) ∈ user_regs.
Proof. intros H. destruct r; try done; apply (bool_decide_unpack _); by vm_compute. Qed.
Lemma tf_slot_range r : 40 <= tf_slot r /\ tf_slot r + 8 <= TFSIZE.
Proof. destruct r; by vm_compute. Qed.

Lemma tf_slot_112 r : r <> a0 -> tf_slot r + 8 <= 112 \/ 120 <= tf_slot r.
Proof. intros H. destruct r; try done; first [left; by vm_compute|right; by vm_compute]. Qed.

Lemma load64_store64_other m a v b : a + 8 <= b \/ b + 8 <= a -> load64 (store64 m a v) b = load64 m b.
Proof. intros H. apply load64_ext. intros x Hx. apply store_bytes_out. rewrite length_le_bytes. lia. Qed.

(** The end of [uservec]: the user's [a0] is saved and the kernel's registers loaded. *)
Lemma uservec_end_spec m :
  let m' := execute uservec_end m in
  let tf := m_reg m a0 in
  m_mem m' = store64 (m_mem m) (u64 (tf + 112)) (m_csr m sscratch) /\
  m_csr m' satp = load64 (m_mem m') (u64 (tf + 0)) /\ m_reg m' sp = load64 (m_mem m') (u64 (tf + 8)) /\
  m_reg m' t0 = load64 (m_mem m') (u64 (tf + 16)) /\ m_reg m' tp = load64 (m_mem m') (u64 (tf + 32)).
Proof. cbn zeta. unfold uservec_end. regs. done. Qed.

(** What [uservec] leaves in the trapframe and in the registers. *)
Lemma uservec_spec m tf :
  area tf TFSIZE -> regs_ok m -> m_csr m sscratch = tf ->
  let m' := execute uservec m in
  (forall r, load64 (m_mem m') (tf + tf_slot r) = m_reg m r) /\
  (forall x, x < tf + 40 \/ tf + TFSIZE <= x -> m_mem m' x = m_mem m x) /\
  m_csr m' satp = load64 (m_mem m) tf /\ m_reg m' sp = load64 (m_mem m) (tf + 8) /\
  m_reg m' t0 = load64 (m_mem m) (tf + 16) /\ m_reg m' tp = load64 (m_mem m) (tf + 32).
Proof.
  intros Ha Hr Hs m'. subst m'. unfold uservec. rewrite !exec_app, uservec_saves.
  remember (execute [Csrrw a0 sscratch a0] m) as m1 eqn:Hm1.
  assert (m_reg m1 a0 = tf) as Ha0 by (subst m1; exact Hs).
  assert (forall r, r <> a0 -> m_reg m1 r = m_reg m r) as Hother.
  { intros r Hne. subst m1. by apply setr_ne. }
  assert (m_csr m1 sscratch = m_reg m a0) as Hsc by by subst m1.
  assert (m_mem m1 = m_mem m) as Hmem by by subst m1.
  clear Hm1. destruct (saves_frame a0 user_regs TFSIZE m1) as (H1 & H2 & H3); [by rewrite Ha0|apply user_regs_slots|].
  assert (forall x, x < tf + 40 \/ tf + TFSIZE <= x \/ tf + 112 <= x < tf + 120 ->
    m_mem (execute (saves a0 user_regs) m1) x = m_mem m x) as Hframe.
  { intros x Hx. rewrite H3; [by rewrite Hmem|]. rewrite Ha0. unfold user_regs, TFSIZE in *. slots_tac. }
  pose proof (fun r o => saves_spec a0 user_regs TFSIZE m1 r o) as Hsv. rewrite Ha0 in Hsv.
  remember (execute (saves a0 user_regs) m1) as m2 eqn:Hm2. clear Hm2.
  rewrite <- H2 in Hsc.
  assert (m_reg m2 a0 = tf) as Ha2 by (by rewrite H1).
  destruct Ha as [Hb He]. destruct (uservec_end_spec m2) as (E1 & E2 & E3 & E4 & E5).
  rewrite Ha2, Hsc in *. unfold TFSIZE in *.
  remember (execute uservec_end m2) as m3 eqn:Hm3. clear Hm3.
  rewrite u64_small in E1, E2, E3, E4, E5 by lia.
  rewrite E2, E3, E4, E5, E1. rewrite !load64_store64_other by lia. split_and!.
  - intros r. destruct (decide (r = a0)) as [->|Hne].
    + change (tf_slot a0) with 112. rewrite load64_store64. apply u64_small, Hr.
    + pose proof (user_regs_all r Hne) as Hin. rewrite load64_store64_other.
      * rewrite (Hsv r (tf_slot r)); [by apply Hother|done|apply user_regs_slots|apply user_regs_apart|done|]. rewrite Hother by done. apply Hr.
      * pose proof (tf_slot_112 r Hne). lia.
  - intros x Hx. unfold store64. rewrite store_bytes_out by (rewrite length_le_bytes; lia). apply Hframe. lia.
  - rewrite Z.add_0_r. apply load64_ext. intros x Hx. apply Hframe. lia.
  - apply load64_ext. intros x Hx. apply Hframe. lia.
  - apply load64_ext. intros x Hx. apply Hframe. lia.
  - apply load64_ext. intros x Hx. apply Hframe. lia.
Qed.

(** What [userret] loads. *)
Lemma userret_spec m tf :
  area tf TFSIZE -> m_reg m a0 = tf ->
  let m' := execute userret m in
  (forall r, m_reg m' r = load64 (m_mem m) (tf + tf_slot r)) /\
  m_mem m' = m_mem m /\ m_csr m' satp = m_reg m a1 /\ m_csr m' sscratch = tf.
Proof.
  intros Ha Hr m'. subst m'. unfold userret. rewrite !exec_app, userret_loads.
  remember (execute [Csrw satp a1; SfenceVma; Ld t0 112 a0; Csrw sscratch t0] m) as m1 eqn:Hm1.
  assert (m_reg m1 a0 = tf) as Ha1 by (subst m1; exact Hr).
  assert (m_mem m1 = m_mem m) as Hm by by subst m1.
  assert (m_csr m1 satp = m_reg m a1) as Hsatp by by subst m1.
  assert (m_csr m1 sscratch = load64 (m_mem m) (tf + 112)) as Hs.
  { subst m1. regs. rewrite Hr. destruct Ha. unfold TFSIZE in *. by rewrite u64_small by lia. }
  clear Hm1.
  destruct (loads_spec a0 user_regs TFSIZE m1) as (H1 & H2 & H3 & H4).
  { by rewrite Ha1. }
  { apply user_regs_slots. }
  { intros o Ho. exfalso. revert Ho. apply not_loaded, (bool_decide_unpack _). by vm_compute. }
  { apply user_regs_nodup. }
  remember (execute (loads a0 user_regs) m1) as m2 eqn:Hm2. clear Hm2.
  rewrite Ha1, Hm in H3. rewrite Hm in H1. rewrite exec_cons. cbn [execute foldl step m_reg m_csr m_mem]. rewrite H1, H2.
  split_and!; [|done|by rewrite setc_ne|].
  - intros r. unfold setr. destruct (decide (r = a0)) as [->|Hne]; [exact Hs|].
    rewrite (H3 r (tf_slot r)) by (by apply user_regs_all). done.
  - rewrite setc_eq, H4; [done|].
    apply (bool_decide_unpack _). by vm_compute.
Qed.

(** C5: The trampoline saves and restores the user's registers. A trap with
    [sscratch] pointing to the trapframe runs [uservec], which stores all 31
    registers in it, changes no other memory, and loads the kernel's stack
    pointer, hart id, handler and page table from its first fields; when
    [userret] later runs with that trapframe, whose register slots the kernel
    may have changed, every register has the value of its slot — the one it had
    at the trap, where the slot is unchanged — the user's page table is
    installed, and [sscratch] points to the trapframe again. *)
Theorem trampoline_roundtrip m tf k :
  area tf TFSIZE -> regs_ok m -> m_csr m sscratch = tf -> m_reg k a0 = tf ->
  let m' := execute uservec m in
  let u := execute userret k in
  m_csr m' satp = load64 (m_mem m) tf /\ m_reg m' sp = load64 (m_mem m) (tf + 8) /\
  m_reg m' t0 = load64 (m_mem m) (tf + 16) /\ m_reg m' tp = load64 (m_mem m) (tf + 32) /\
  (forall x, x < tf + 40 \/ tf + TFSIZE <= x -> m_mem m' x = m_mem m x) /\
  (forall r, load64 (m_mem k) (tf + tf_slot r) = load64 (m_mem m') (tf + tf_slot r) -> m_reg u r = m_reg m r) /\
  (forall r, m_reg u r = load64 (m_mem k) (tf + tf_slot r)) /\
  m_csr u satp = m_reg k a1 /\ m_csr u sscratch = tf.
Proof.
  intros Ha Hr Hs Hk m' u.
  destruct (uservec_spec m tf Ha Hr Hs) as (H1 & H2 & H3 & H4 & H5 & H6).
  destruct (userret_spec k tf Ha Hk) as (K1 & _ & K3 & K4).
  split_and!; try done. intros r Hsame. unfold u, m' in *. by rewrite K1, Hsame.
Qed.

(** A trap and the return of the system call's value in [a0]. *)
Definition trap0 : mach := Mach (fun r => if decide (r = a7) then 11 else tf_slot r) (fun _ => TRAPFRAME) (fun _ => 0).
Definition back0 : mach :=
  Mach (setr a0 TRAPFRAME (fun _ => 0)) (fun _ => 0) (store64 (m_mem (execute uservec trap0)) (TRAPFRAME + 112) 3).
Lemma trampoline_roundtrip_witness : m_reg (execute userret back0) s11 = 248 /\ m_reg (execute userret back0) a0 = 3.
Proof.
  pose proof (trampoline_roundtrip trap0 TRAPFRAME back0) as H.
  destruct H as (_ & _ & _ & _ & _ & H1 & H2 & _).
  - by vm_compute.
  - intros r. destruct r; by vm_compute.
  - done.
  - done.
  - split; [rewrite H1; by vm_compute|rewrite H2; by vm_compute].
Defined.

(** ** Context switches *)

(** The slots of [struct context]. *)
Definition ctx_regs : list (reg * Z) :=
  [(ra, 0); (sp, 8); (s0, 16); (s1, 24); (s2, 32); (s3, 40); (s4, 48); (s5, 56); (s6, 64); (s7, 72); (s8, 80); (s9, 88);
   (s10, 96); (s11, 104)].
Definition CTXSIZE : Z := 112.
Lemma swtch_saves : swtch_save = saves a0 ctx_regs.
Proof. reflexivity. Qed.
Lemma swtch_loads : swtch_load = loads a1 ctx_regs.
Proof. reflexivity. Qed.
Lemma ctx_regs_slots : slots CTXSIZE ctx_regs.
Proof. unfold slots, ctx_regs, CTXSIZE. slots_tac. Qed.
Lemma ctx_regs_apart : slot_apart ctx_regs.
Proof. cbn. repeat split; slots_tac. Qed.
Lemma ctx_regs_nodup : NoDup ctx_regs.*1.
Proof. apply (bool_decide_unpack _). by vm_compute. Qed.

Definition disjoint (a b len : Z) : Prop := a + len <= b \/ b + len <= a.

(** [swtch] stores the registers at [old] and loads them from [new]. *)
Lemma swtch_spec m old new :
  area old CTXSIZE -> area new CTXSIZE -> disjoint old new CTXSIZE -> regs_ok m -> m_reg m a0 = old -> m_reg m a1 = new ->
  let m' := execute swtch m in
  (forall r o, (r, o) ∈ ctx_regs -> load64 (m_mem m') (old + o) = m_reg m r) /\
  (forall r o, (r, o) ∈ ctx_regs -> m_reg m' r = load64 (m_mem m) (new + o)) /\
  (forall x, x < old \/ old + CTXSIZE <= x -> m_mem m' x = m_mem m x).
Proof.
  intros Ho Hn Hd Hr H0 H1 m'. subst m'. unfold swtch. rewrite exec_app, swtch_saves, swtch_loads.
  destruct (saves_frame a0 ctx_regs CTXSIZE m) as (F1 & F2 & F3); [by rewrite H0|apply ctx_regs_slots|].
  assert (forall x, x < old \/ old + CTXSIZE <= x -> m_mem (execute (saves a0 ctx_regs) m) x = m_mem m x) as Hframe.
  { intros x Hx. apply F3. rewrite H0. eapply Forall_impl; [apply ctx_regs_slots|]. intros [r o]. cbn. lia. }
  pose proof (fun r o => saves_spec a0 ctx_regs CTXSIZE m r o) as Hsv. rewrite H0 in Hsv.
  remember (execute (saves a0 ctx_regs) m) as m1 eqn:Hm1. clear Hm1.
  destruct (loads_spec a1 ctx_regs CTXSIZE m1) as (L1 & _ & L3 & _).
  { by rewrite F1, H1. }
  { apply ctx_regs_slots. }
  { intros o Ho'. exfalso. revert Ho'. apply not_loaded, (bool_decide_unpack _). by vm_compute. }
  { apply ctx_regs_nodup. }
  rewrite L1. split_and!.
  - intros r o Hin. apply Hsv; auto using ctx_regs_slots, ctx_regs_apart.
  - intros r o Hin. rewrite (L3 r o Hin), F1, H1. apply load64_ext. intros x Hx. apply Hframe.
    pose proof (slot_in _ _ _ _ ctx_regs_slots Hin). unfold disjoint in Hd. lia.
  - exact Hframe.
Qed.

(** C38: A context switch is undone by the switch back. [swtch(old, new)] loads
    the callee-saved registers from [new] and changes no memory outside [old];
    when a later switch, from any state whose context [old] is as [swtch] left
    it, loads [old], then [ra], [sp] and [s0] to [s11] are what they were: the
    thread goes on where it called [swtch]. *)
Theorem swtch_roundtrip m old new k other :
  area old CTXSIZE -> area new CTXSIZE -> area other CTXSIZE ->
  disjoint old new CTXSIZE -> disjoint other old CTXSIZE -> regs_ok m -> regs_ok k ->
  m_reg m a0 = old -> m_reg m a1 = new -> m_reg k a0 = other -> m_reg k a1 = old ->
  mem_agree (fun x => old <= x < old + CTXSIZE) (m_mem k) (m_mem (execute swtch m)) ->
  forall r o, (r, o) ∈ ctx_regs ->
    m_reg (execute swtch m) r = load64 (m_mem m) (new + o) /\ m_reg (execute swtch k) r = m_reg m r.
Proof.
  intros Ho Hn Hx Hd Hd' Hr Hk H0 H1 K0 K1 Hag r o Hin.
  destruct (swtch_spec m old new) as (S1 & S2 & _); try done.
  destruct (swtch_spec k other old) as (_ & T2 & _); try done.
  split; [by apply S2|]. rewrite (T2 r o Hin), <- (S1 r o Hin). apply load64_ext. intros x Hxr. apply Hag.
  pose proof (slot_in _ _ _ _ ctx_regs_slots Hin). lia.
Qed.

(** A process (context at 4096) switches to the scheduler (at 8192) and back. *)
Definition proc_mach : mach := Mach (setr a0 4096 (setr a1 8192 tf_slot)) (fun _ => 0) (fun _ => 7).
Definition sched_mach : mach := Mach (setr a0 8192 (setr a1 4096 (fun _ => 1))) (fun _ => 0) (m_mem (execute swtch proc_mach)).
Lemma swtch_roundtrip_witness : m_reg (execute swtch sched_mach) s1 = 104.
Proof.
  refine (proj2 (swtch_roundtrip proc_mach 4096 8192 sched_mach 8192 _ _ _ _ _ _ _ eq_refl eq_refl eq_refl eq_refl _ s1 24 _)).
  - by vm_compute.
  - by vm_compute.
  - by vm_compute.
  - by left.
  - by right.
  - intros r. destruct r; by vm_compute.
  - intros r. destruct r; by vm_compute.
  - apply kept_mem.
  - apply (bool_decide_unpack _). by vm_compute.
Defined.

(** ** Traps from the kernel *)

Definition kern_regs : list (reg * Z) :=
  [(ra, 0); (sp, 8); (gp, 16); (tp, 24); (t0, 32); (t1, 40); (t2, 48); (s0, 56); (s1, 64); (a0, 72); (a1, 80); (a2, 88);
   (a3, 96); (a4, 104); (a5, 112); (a6, 120); (a7, 128); (s2, 136); (s3, 144); (s4, 152); (s5, 160); (s6, 168); (s7, 176);
   (s8, 184); (s9, 192); (s10, 200); (s11, 208); (t3, 216); (t4, 224); (t5, 232); (t6, 240)].
(** All but [tp] are loaded. *)
Definition kern_regs' : list (reg * Z) := filter (fun x => fst x <> tp) kern_regs.
Lemma kernelvec_saves : kernelvec_save = Addi sp sp (-256) :: saves sp kern_regs.
Proof. reflexivity. Qed.
Lemma kernelvec_loads : kernelvec_load = loads sp kern_regs' ++ [Addi sp sp 256].
Proof. reflexivity. Qed.
Lemma kern_regs_slots : slots 256 kern_regs.
Proof. unfold slots, kern_regs. slots_tac. Qed.
Lemma kern_regs_apart : slot_apart kern_regs.
Proof. cbn. repeat split; slots_tac. Qed.
Lemma kern_regs_nodup : NoDup kern_regs'.*1.
Proof. apply (bool_decide_unpack _). by vm_compute. Qed.
Lemma kern_regs_all r : exists o, (r, o) ∈ kern_regs.
Proof. destruct r; eexists; repeat first [left|right]. Qed.
Lemma kern_regs_loaded r o : (r, o) ∈ kern_regs -> r <> tp -> (r, o) ∈ kern_regs'.
Proof. intros. unfold kern_regs'. apply list_elem_of_filter. done. Qed.

(** C39: A trap taken in the kernel is invisible to the code it interrupts.
    [kernelvec] pushes all registers on the stack; if [kerneltrap] returns with
    the stack pointer it was called with and the 256 bytes pushed unchanged,
    every register but [tp] has again the value it had at the trap, and [tp] —
    the hart — is the one the handler returned with. *)
Theorem kernelvec_transparent m k :
  256 <= m_reg m sp < 2 ^ 64 -> regs_ok m ->
  m_reg k sp = m_reg (execute kernelvec_save m) sp ->
  mem_agree (fun x => m_reg m sp - 256 <= x < m_reg m sp) (m_mem k) (m_mem (execute kernelvec_save m)) ->
  (forall x, x < m_reg m sp - 256 \/ m_reg m sp <= x -> m_mem (execute kernelvec_save m) x = m_mem m x) /\
  m_mem (execute kernelvec_load k) = m_mem k /\
  forall r, m_reg (execute kernelvec_load k) r = if decide (r = tp) then m_reg k tp else m_reg m r.
Proof.
  intros Hsp Hr. rewrite kernelvec_saves, exec_cons, kernelvec_loads, !exec_app.
  remember (step (Addi sp sp (-256)) m) as m1 eqn:Hm1.
  assert (m_reg m1 sp = m_reg m sp - 256) as Hsp1.
  { subst m1. cbn [step m_reg]. rewrite setr_eq. apply u64_small. lia. }
  assert (forall r, r <> sp -> m_reg m1 r = m_reg m r) as Hoth.
  { intros r Hne. subst m1. by apply setr_ne. }
  assert (m_mem m1 = m_mem m) as Hmem by (by subst m1). clear Hm1.
  assert (area (m_reg m1 sp) 256) as Har by (rewrite Hsp1; split; lia).
  destruct (saves_frame sp kern_regs 256 m1 Har kern_regs_slots) as (F1 & _ & F3).
  pose proof (fun r o => saves_spec sp kern_regs 256 m1 r o Har kern_regs_slots kern_regs_apart) as Hsv.
  remember (execute (saves sp kern_regs) m1) as m2 eqn:Hm2. clear Hm2. rewrite F1, Hsp1.
  intros Hk Hag. set (b := m_reg m sp - 256) in *.
  assert (forall r o, (r, o) ∈ kern_regs -> load64 (m_mem k) (b + o) = m_reg m1 r) as Hld.
  { intros r o Hin. rewrite <- (Hsv r o Hin).
    - rewrite Hsp1. apply load64_ext. intros x Hx. apply Hag.
      pose proof (slot_in _ _ _ _ kern_regs_slots Hin). lia.
    - destruct (decide (r = sp)) as [->|]; [lia|]. rewrite Hoth by done. apply Hr. }
  destruct (loads_spec sp kern_regs' 256 k) as (L1 & _ & L3 & L4).
  { rewrite Hk. rewrite Hsp1 in Har. exact Har. }
  { unfold kern_regs'. unfold slots. apply Forall_forall. intros x [_ Hx]%list_elem_of_filter.
    by apply (proj1 (Forall_forall _ _) kern_regs_slots). }
  { intros o [_ Ho]%list_elem_of_filter. rewrite Hk. by rewrite (Hld sp o Ho). }
  { apply kern_regs_nodup. }
  rewrite Hk in L3. remember (execute (loads sp kern_regs') k) as k1 eqn:Hk1. clear Hk1.
  split_and!.
  - intros x Hx. rewrite F3, Hmem; [done|]. rewrite Hsp1. eapply Forall_impl; [apply kern_regs_slots|].
    intros [r o]. cbn. lia.
  - rewrite exec_cons. done.
  - intros r. cbn [execute foldl step m_reg]. destruct (decide (r = tp)) as [->|Hne].
    + rewrite setr_ne by done. apply L4. apply (bool_decide_unpack _). by vm_compute.
    + destruct (kern_regs_all r) as [o Hin]. pose proof (L3 r o (kern_regs_loaded r o Hin Hne)) as Hl.
      rewrite (Hld r o Hin) in Hl. destruct (decide (r = sp)) as [->|Hns].
      * rewrite setr_eq, Hl, Hsp1. unfold b. replace (m_reg m sp - 256 + 256) with (m_reg m sp) by lia. by apply u64_small.
      * rewrite setr_ne by done. by rewrite Hl, Hoth.
Qed.

(** An interrupt during which the thread moved to hart 3. *)
Definition kern0 : mach := Mach (fun r => if decide (r = sp) then 2 ^ 32 else tf_slot r) (fun _ => 0) (fun _ => 0).
Definition kern1 : mach :=
  Mach (setr tp 3 (setr sp (2 ^ 32 - 256) (fun _ => 0))) (fun _ => 0) (m_mem (execute kernelvec_save kern0)).
Lemma kernelvec_transparent_witness :
  m_reg (execute kernelvec_load kern1) a5 = 152 /\ m_reg (execute kernelvec_load kern1) tp = 3.
Proof.
  destruct (kernelvec_transparent kern0 kern1) as (_ & _ & H).
  - by vm_compute.
  - intros r. destruct r; by vm_compute.
  - by vm_compute.
  - apply kept_mem.
  - split; [by rewrite (H a5)|by rewrite (H tp)].
Defined.

(** ** The timer interrupt *)

(** The registers as [timervec] saves them in the scratch area [scr]. *)
Definition timer_saved (m : mach) (scr : Z) : memory :=
  store64 (store64 (store64 (m_mem m) (u64 (scr + 0)) (m_reg m a1)) (u64 (scr + 8)) (m_reg m a2)) (u64 (scr + 16)) (m_reg m a3).
Definition timer_next (mem : memory) (scr : Z) : memory :=
  let cmp := load64 mem (u64 (scr + 24)) in
  store64 mem (u64 (cmp + 0)) (u64 (load64 mem (u64 (cmp + 0)) + load64 mem (u64 (scr + 32)))).

Lemma timervec_effect m :
  let scr := m_csr m mscratch in
  let m' := execute timervec m in
  m_mem m' = timer_next (timer_saved m scr) scr /\
  m_csr m' sip = u64 2 /\ m_csr m' mscratch = scr /\ m_reg m' a0 = m_reg m a0 /\
  m_reg m' a1 = load64 (m_mem m') (u64 (scr + 0)) /\ m_reg m' a2 = load64 (m_mem m') (u64 (scr + 8)) /\
  m_reg m' a3 = load64 (m_mem m') (u64 (scr + 16)) /\
  forall r, r <> a0 -> r <> a1 -> r <> a2 -> r <> a3 -> m_reg m' r = m_reg m r.
Proof.
  cbn zeta. unfold timervec. regs. split_and!; try done.
  intros r H0 H1 H2 H3. by rewrite !setr_ne by done.
Qed.

Lemma timer_next_eq mem scr :
  area scr 40 -> area (load64 mem (scr + 24)) 8 ->
  timer_next mem scr =
  store64 mem (load64 mem (scr + 24)) (u64 (load64 mem (load64 mem (scr + 24)) + load64 mem (scr + 32))).
Proof. intros [Ha1 Ha2] [Hc1 Hc2]. unfold timer_next. rewrite !(u64_small (scr + _)), Z.add_0_r, (u64_small (load64 _ _)) by lia. done. Qed.

(** What a reader of the saved memory sees. *)
Lemma timer_saved_load m scr :
  area scr 40 -> regs_ok m ->
  load64 (timer_saved m scr) scr = m_reg m a1 /\ load64 (timer_saved m scr) (scr + 8) = m_reg m a2 /\
  load64 (timer_saved m scr) (scr + 16) = m_reg m a3 /\
  forall x, x < scr \/ scr + 24 <= x -> timer_saved m scr x = m_mem m x.
Proof.
  intros [Ha1 Ha2] Hr. unfold timer_saved. rewrite !u64_small, Z.add_0_r by lia. split_and!.
  - rewrite !load64_store64_other by lia. rewrite load64_store64. apply u64_small, Hr.
  - rewrite load64_store64_other by lia. rewrite load64_store64. apply u64_small, Hr.
  - rewrite load64_store64. apply u64_small, Hr.
  - intros x Hx. unfold store64. rewrite !store_bytes_out by (rewrite length_le_bytes; lia). done.
Qed.

(** [timervec] schedules the next timer interrupt and hands this one to the
    supervisor. With [mscratch] pointing to the hart's scratch area, it adds the
    interval stored there to the compare register whose address is stored there,
    raises a supervisor software interrupt, and leaves every register,
    [mscratch], and the memory outside the save area and the compare register
    as they were. *)
Theorem timervec_correct m scr :
  area scr 40 -> regs_ok m -> m_csr m mscratch = scr ->
  let cmp := load64 (m_mem m) (scr + 24) in
  area cmp 8 -> cmp + 8 <= scr \/ scr + 40 <= cmp ->
  let m' := execute timervec m in
  load64 (m_mem m') cmp = u64 (load64 (m_mem m) cmp + load64 (m_mem m) (scr + 32)) /\
  m_csr m' sip = 2 /\ m_csr m' mscratch = scr /\ (forall r, m_reg m' r = m_reg m r) /\
  (forall x, (x < scr \/ scr + 24 <= x) -> (x < cmp \/ cmp + 8 <= x) -> m_mem m' x = m_mem m x).
Proof.
  intros Ha Hr Hs cmp Hc Hd m'. destruct (timer_saved_load m scr Ha Hr) as (S1 & S2 & S3 & S4).
  assert (forall a, (a + 8 <= scr \/ scr + 24 <= a) -> load64 (timer_saved m scr) a = load64 (m_mem m) a) as Hld.
  { intros a Hx. apply load64_ext. intros x Hx'. apply S4. lia. }
  destruct (timervec_effect m) as (E1 & E2 & E3 & E4 & E5 & E6 & E7 & E8). rewrite Hs in *. fold m' in E1, E2, E3, E4, E5, E6, E7, E8.
  assert (load64 (timer_saved m scr) (scr + 24) = cmp) as Hcmp by (apply Hld; lia).
  rewrite timer_next_eq in E1 by (rewrite ?Hcmp; done). rewrite Hcmp, (Hld cmp), (Hld (scr + 32)) in E1 by lia.
  destruct Ha as [Ha1 Ha2]. rewrite !(u64_small (scr + _)), Z.add_0_r in * by lia.
  rewrite E1 in *. rewrite load64_store64_other in E5, E6, E7 by lia. split_and!.
  - rewrite load64_store64. unfold u64. by rewrite Z.mod_mod.
  - done.
  - done.
  - intros r. destruct r; first [by rewrite E4|by rewrite E5|by rewrite E6|by rewrite E7|by apply E8].
  - intros x Hx1 Hx2. unfold store64. rewrite store_bytes_out by (rewrite length_le_bytes; lia). by apply S4.
Qed.

(** Hart 0 with its scratch area at 4096. *)
Definition timer0 : mach :=
  Mach tf_slot (fun _ => 4096) (store64 (store64 (store64 (fun _ => 0) 4120 33570816) 4128 1000000) 33570816 5).
Lemma timervec_correct_witness : load64 (m_mem (execute timervec timer0)) 33570816 = 1000005.
Proof.
  destruct (timervec_correct timer0 4096) as (H & _).
  - by vm_compute.
  - intros r. destruct r; by vm_compute.
  - done.
  - by vm_compute.
  - right. by vm_compute.
  - exact H.
Defined.

(** ** Entry *)

(** Each hart gets its own 4096 bytes of [stack0]. *)
Lemma entry_stack stack0 m :
  0 <= m_csr m mhartid < Z.of_nat NCPU -> 0 <= stack0 -> stack0 + 4096 * Z.of_nat NCPU < 2 ^ 64 ->
  m_reg (execute (entry stack0) m) sp = stack0 + 4096 * (m_csr m mhartid + 1).
Proof.
  intros Hh H0 H1. unfold entry. regs. unfold NCPU in *. change (u64 (1024 * 4)) with 4096.
  rewrite (u64_small stack0), (u64_small (_ + 1)), (u64_small (4096 * _)), u64_small; lia.
Qed.
End Asm.
