(* ===== verification/Spinlock.v ===== *)
(** Spin locks and interrupt nesting: [src/kernel/spinlock.c], the [struct cpu]
    of [src/kernel/proc.h] and the interrupt-enable accessors of
    [src/kernel/riscv.h].

    An operation runs on one CPU: [cpu] holds that hart's [tp], its
    [sstatus.SIE] bit and its entry of [cpus[]]. A component that takes locks
    has a lens to the [cpu] ([HasCpu]) and one to each of its locks.

    [MutualExclusion] runs [acquire] and [release] of any number of harts one
    atomic memory access at a time. *)

From S2P Require Import Prelude Params.
Local Open Scope kernel_scope.

Record spinlock : Type := Spinlock {
  lk_locked : Z;
  lk_name : string;
  lk_cpu : option Z;
}.

Record cpu : Type := Cpu {
  c_id : Z;                 (* tp *)
  c_sie : bool;             (* sstatus.SIE *)
  c_proc : option (fin NPROC);      (* index into proc[] *)
  c_noff : Z;
  c_intena : bool;
}.

Definition set_sie (b : bool) (c : cpu) : cpu := Cpu (c_id c) b (c_proc c) (c_noff c) (c_intena c).
Definition set_noff (n : Z) (c : cpu) : cpu := Cpu (c_id c) (c_sie c) (c_proc c) n (c_intena c).
Definition set_intena (b : bool) (c : cpu) : cpu := Cpu (c_id c) (c_sie c) (c_proc c) (c_noff c) b.
Definition set_cproc (p : option (fin NPROC)) (c : cpu) : cpu := Cpu (c_id c) (c_sie c) p (c_noff c) (c_intena c).

Class HasCpu (S : Type) : Type := cpuL : lens S cpu.

Section Ops.
Context {S : Type} `{HasCpu S}.

Definition intr_on : M S unit := modify (fun s => put cpuL (set_sie true (view cpuL s)) s).
Definition intr_off : M S unit := modify (fun s => put cpuL (set_sie false (view cpuL s)) s).
Definition intr_get : M S bool := gets (fun s => c_sie (view cpuL s)).
Definition mycpu : M S cpu := gets (view cpuL).
Definition cpuid : M S Z := gets (fun s => c_id (view cpuL s)).
Definition set_mycpu (c : cpu) : M S unit := modify (put cpuL c).

Definition push_off : M S unit :=
  old <- intr_get ;;
  intr_off ;;
  c <- mycpu ;;
  when (c_noff c =? 0) (set_mycpu (set_intena old c)) ;;
  c <- mycpu ;;
  set_mycpu (set_noff (s32 (c_noff c + 1)) c).

Definition pop_off : M S unit :=
  i <- intr_get ;;
  if i : bool then panic "pop_off - interruptible" else
  c <- mycpu ;;
  if c_noff c <? 1 then panic "pop_off" else
  set_mycpu (set_noff (s32 (c_noff c - 1)) c) ;;
  c <- mycpu ;;
  when ((c_noff c =? 0) && c_intena c) intr_on.

Definition initlock (l : lens S spinlock) (name : string) : M S unit :=
  modify (put l (Spinlock 0 name None)).

(** [lk->locked && lk->cpu == mycpu()] *)
Definition holding_b (lk : spinlock) (id : Z) : bool :=
  nz (lk_locked lk) && bool_decide (lk_cpu lk = Some id).

Definition holding (l : lens S spinlock) : M S bool :=
  id <- cpuid ;;
  gets (fun s => holding_b (view l s) id).

(** The atomic swap of [acquire]: the new lock word and the old value. *)
Definition test_and_set (lk : spinlock) : Z * spinlock :=
  (lk_locked lk, Spinlock 1 (lk_name lk) (lk_cpu lk)).
Definition set_lkcpu (c : option Z) (lk : spinlock) : spinlock :=
  Spinlock (lk_locked lk) (lk_name lk) c.
Definition lock_release_word (lk : spinlock) : spinlock := Spinlock 0 (lk_name lk) (lk_cpu lk).

(** The loop around [test_and_set] leaves at once when the lock is free; when it
    is held no code of this CPU changes it, so the loop spins. *)
Definition acquire (l : lens S spinlock) : M S unit :=
  push_off ;;
  h <- holding l ;;
  if h : bool then panic "acquire" else
  lk <- gets (view l) ;;
  let '(old, lk') := test_and_set lk in
  modify (put l lk') ;;
  if nz old then halt Spin else
  id <- cpuid ;;
  modify (fun s => put l (set_lkcpu (Some id) (view l s)) s).

Definition release (l : lens S spinlock) : M S unit :=
  h <- holding l ;;
  if negb h then panic "release" else
  modify (fun s => put l (set_lkcpu None (view l s)) s) ;;
  modify (fun s => put l (lock_release_word (view l s)) s) ;;
  pop_off.

Definition myproc : M S (option (fin NPROC)) :=
  push_off ;;
  c <- mycpu ;;
  let p := c_proc c in
  pop_off ;;
  ret p.
End Ops.
#[global] Arguments push_off {S H} _ : simpl never.
#[global] Arguments pop_off {S H} _ : simpl never.
#[global] Arguments acquire {S H} _ _ : simpl never.
#[global] Arguments release {S H} _ _ : simpl never.
#[global] Arguments myproc {S H} _ : simpl never.

(** * Nesting of [push_off] and [pop_off] *)

(** The effect of each on the CPU, when it does not panic. *)
Definition push (c : cpu) : cpu :=
  Cpu (c_id c) false (c_proc c) (s32 (c_noff c + 1)) (if c_noff c =? 0 then c_sie c else c_intena c).
Definition pop (c : cpu) : cpu :=
  Cpu (c_id c) (((s32 (c_noff c - 1) =? 0) && c_intena c) || c_sie c) (c_proc c) (s32 (c_noff c - 1)) (c_intena c).

(** Interrupts are off whenever [noff] is positive, and [noff], an [int], has
    room for [k + 1] more calls of [push_off]. *)
Definition cpu_room (k : nat) (c : cpu) : Prop :=
  0 <= c_noff c /\ c_noff c + Z.of_nat k < 2 ^ 31 - 1 /\ (0 < c_noff c -> c_sie c = false).

(** Room for seventeen: more than the locks any path of the kernel nests. *)
Abbreviation cpu_ok := (cpu_room 16).

(** What is left of a matched pair: [intena] records the flag the outermost
    [push_off] found. *)
Definition settle (c : cpu) : cpu := if c_noff c =? 0 then set_intena (c_sie c) c else c.

Lemma room_zero c : c_noff c = 0 -> cpu_ok c.
Proof. intros Hn. unfold cpu_room. rewrite Hn. lia. Qed.

Lemma room_one c : c_noff c = 1 -> c_sie c = false -> cpu_ok c.
Proof. intros Hn Hs. unfold cpu_room. rewrite Hn. split_and!; lia || done. Qed.

Lemma noff_push k c : cpu_room k c -> s32 (c_noff c + 1) = c_noff c + 1.
Proof. intros (?&?&_). apply s32_small. lia. Qed.

Lemma pop_push {k} c : cpu_room k c -> pop (push c) = settle c.
Proof.
  intros Hc. pose proof (noff_push k c Hc) as Hp. destruct Hc as (Hn & Hk & Hs).
  destruct c as [id sie p n ie]. unfold pop, push, settle, set_intena. cbn in *.
  rewrite Hp. replace (n + 1 - 1) with n by lia. rewrite s32_small by lia.
  destruct (Z.eqb_spec n 0); cbn; f_equal.
  - by rewrite orb_false_r.
  - symmetry. apply Hs. lia.
Qed.

Lemma settle_idem c : settle (settle c) = settle c.
Proof. unfold settle. destruct (c_noff c =? 0) eqn:E; cbn; rewrite ?E; done. Qed.

Lemma settle_ok {k} c : cpu_room k c -> cpu_room k (settle c).
Proof. unfold settle, cpu_room. by destruct (c_noff c =? 0). Qed.

Lemma push_noff {k} c : cpu_room k c -> 1 <= c_noff (push c).
Proof. intros Hc. cbn. rewrite (noff_push k) by done. destruct Hc. lia. Qed.

Lemma settle_push {k} c : cpu_room k c -> settle (push c) = push c.
Proof. intros Hc. pose proof (push_noff c Hc). unfold settle. by destruct (Z.eqb_spec (c_noff (push c)) 0); [lia|]. Qed.

Lemma push_ok {k} c : cpu_room (S k) c -> cpu_room k (push c).
Proof. intros Hc. pose proof (noff_push _ c Hc) as E. destruct Hc as (?&?&?). unfold cpu_room. cbn. rewrite E. split_and!; lia || done. Qed.

Lemma room_le j k c : (j <= k)%nat -> cpu_room k c -> cpu_room j c.
Proof. intros ? (?&?&?). split_and!; lia || done. Qed.

Lemma settle_proc c : c_proc (settle c) = c_proc c.
Proof. unfold settle. by destruct (c_noff c =? 0). Qed.
Lemma settle_id c : c_id (settle c) = c_id c.
Proof. unfold settle. by destruct (c_noff c =? 0). Qed.
Lemma settle_noff c : c_noff (settle c) = c_noff c.
Proof. unfold settle. by destruct (c_noff c =? 0). Qed.
Lemma settle_sie c : c_sie (settle c) = c_sie c.
Proof. unfold settle. by destruct (c_noff c =? 0). Qed.
#[export] Hint Resolve settle_ok push_ok : kernel.
#[export] Hint Rewrite settle_idem settle_proc settle_id settle_noff settle_sie : kernel_rw.

Section Runs.
Context {S : Type} `{HasCpu S} `{!LensOk (cpuL (S:=S))}.

Lemma push_off_run s : push_off s = Ok tt (put cpuL (push (view cpuL s)) s).
Proof.
  unfold push_off, intr_get, intr_off, mycpu, set_mycpu, bind, gets, modify, when.
  rewrite view_put. cbn. unfold push. destruct (c_noff (view cpuL s) =? 0) eqn:E; cbn;
    rewrite ?view_put; cbn; rewrite !put_put; done.
Qed.

Lemma pop_off_run s :
  c_sie (view cpuL s) = false -> 1 <= c_noff (view cpuL s) ->
  pop_off s = Ok tt (put cpuL (pop (view cpuL s)) s).
Proof.
  intros Hs Hn. unfold pop_off, intr_get, intr_on, mycpu, set_mycpu, bind, gets, modify, when.
  rewrite Hs. destruct (Z.ltb_spec (c_noff (view cpuL s)) 1); [lia|].
  rewrite view_put. cbn. unfold pop. rewrite Hs, orb_false_r.
  destruct ((s32 (c_noff (view cpuL s) - 1) =? 0) && c_intena (view cpuL s)); cbn.
  - rewrite view_put, put_put. cbn. unfold set_sie. cbn. done.
  - unfold ret, set_noff. rewrite Hs. done.
Qed.

Lemma myproc_run {k} s :
  cpu_room k (view cpuL s) ->
  myproc s = Ok (c_proc (view cpuL s)) (put cpuL (settle (view cpuL s)) s).
Proof.
  intros Hc. unfold myproc. erewrite bind_ok by apply push_off_run.
  unfold mycpu. erewrite bind_ok by done.
  erewrite bind_ok.
  2:{ apply pop_off_run; rewrite view_put; [done|by apply (push_noff (k:=k))]. }
  unfold ret. rewrite view_put, put_put, pop_push by done. done.
Qed.

Section Lock.
Context (l : lens S spinlock) `{!LensOk l} `{!LensDisj cpuL l}.

Lemma lk_put_cpu c s : view l (put cpuL c s) = view l s.
Proof. apply (view_put_l (l:=cpuL) (k:=l)). Qed.
Lemma cpu_put_lk k s : view cpuL (put l k s) = view cpuL s.
Proof. apply (view_put_r (l:=cpuL) (k:=l)). Qed.

Definition lock_free (s : S) : Prop := lk_locked (view l s) = 0.

(** The lock taken by CPU [id]. *)
Definition taken (id : Z) (lk : spinlock) : spinlock := Spinlock 1 (lk_name lk) (Some id).
Definition freed (lk : spinlock) : spinlock := Spinlock 0 (lk_name lk) None.

Lemma acquire_run s :
  lock_free s ->
  acquire l s =
    Ok tt (put l (taken (c_id (view cpuL s)) (view l s)) (put cpuL (push (view cpuL s)) s)).
Proof.
  intros Hf. unfold acquire. erewrite bind_ok by apply push_off_run.
  unfold holding, cpuid, gets, modify, bind, test_and_set, halt.
  rewrite !view_put, !lk_put_cpu. unfold holding_b. unfold lock_free in Hf. rewrite Hf. cbn.
  rewrite !lk_put_cpu, Hf. cbn. rewrite cpu_put_lk, !view_put. cbn. rewrite put_put. done.
Qed.

(** Taking a lock this CPU already holds panics. *)
Lemma acquire_held s :
  holding_b (view l s) (c_id (view cpuL s)) = true ->
  acquire l s = Stop (Panic "acquire") (put cpuL (push (view cpuL s)) s).
Proof.
  intros Hh. unfold acquire. erewrite bind_ok by apply push_off_run.
  unfold holding, cpuid, gets, bind. rewrite view_put, lk_put_cpu.
  cbn [c_id push]. by rewrite Hh.
Qed.

Lemma release_run s :
  holding_b (view l s) (c_id (view cpuL s)) = true ->
  c_sie (view cpuL s) = false -> 1 <= c_noff (view cpuL s) ->
  release l s = Ok tt (put l (freed (view l s)) (put cpuL (pop (view cpuL s)) s)).
Proof.
  intros Hh Hs Hn. unfold release.
  unfold holding, cpuid, gets, modify, bind. rewrite Hh. cbn.
  rewrite view_put, put_put. rewrite pop_off_run; rewrite ?cpu_put_lk; [|done|done].
  rewrite (put_comm (l:=cpuL) (k:=l)). done.
Qed.

(** Releasing a lock this CPU does not hold panics and changes nothing. *)
Lemma release_not_held s :
  holding_b (view l s) (c_id (view cpuL s)) = false -> release l s = Stop (Panic "release") s.
Proof. intros Hh. unfold release, holding, cpuid, gets, bind. by rewrite Hh. Qed.

Lemma holding_taken id lk : holding_b (taken id lk) id = true.
Proof. unfold holding_b, taken. cbn. by rewrite bool_decide_true. Qed.

(** A critical section whose body leaves the lock and the CPU alone. *)
Lemma locked_run {A k} (body : M S A) s a s' :
  cpu_room k (view cpuL s) -> lock_free s ->
  body (put l (taken (c_id (view cpuL s)) (view l s)) (put cpuL (push (view cpuL s)) s)) = Ok a s' ->
  view cpuL s' = push (view cpuL s) ->
  view l s' = taken (c_id (view cpuL s)) (view l s) ->
  bind (acquire l) (fun _ => bind body (fun a => bind (release l) (fun _ => ret a))) s
  = Ok a (put l (freed (view l s)) (put cpuL (settle (view cpuL s)) s')).
Proof.
  intros Hc Hf Hb Hcp Hl.
  erewrite bind_ok by (by apply acquire_run).
  erewrite bind_ok by apply Hb.
  erewrite bind_ok.
  2:{ apply release_run; rewrite Hcp; [rewrite Hl; apply holding_taken|done|by apply (push_noff (k:=k))]. }
  rewrite Hcp, Hl, pop_push by done. done.
Qed.
End Lock.
End Runs.

(** * Matched nesting *)
Module Nesting.
Section Nesting.
Context {S : Type} `{HasCpu S} `{!LensOk (cpuL (S:=S))}.

(** A run of [push_off] ([true]) and [pop_off] ([false]) calls. *)
Definition run (l : list bool) : M S unit :=
  forM l (fun b : bool => if b then push_off else pop_off).

(** The nesting depth after a run, [None] when a [pop_off] has no partner. *)
Fixpoint depth (d : Z) (l : list bool) : option Z :=
  match l with
  | [] => Some d
  | true :: l' => depth (d + 1) l'
  | false :: l' => if d <? 1 then None else depth (d - 1) l'
  end.

(** The deepest nesting of a run, up to a [pop_off] without a partner. *)
Fixpoint peak (d : Z) (l : list bool) : Z :=
  match l with
  | [] => d
  | true :: l' => Z.max d (peak (d + 1) l')
  | false :: l' => if d <? 1 then d else Z.max d (peak (d - 1) l')
  end.

(** The CPU at depth [d] of a run that began with the interrupt flag [sie0]. *)
Record at_depth (sie0 : bool) (d : Z) (c : cpu) : Prop := {
  ad_pos : 0 <= d < 2 ^ 31;
  ad_noff : c_noff c = d;
  ad_sie : c_sie c = ((d =? 0) && sie0);
  ad_intena : 0 < d -> c_intena c = sie0;
}.

Lemma at_depth_push sie0 d c : at_depth sie0 d c -> d + 1 < 2 ^ 31 -> at_depth sie0 (d + 1) (push c).
Proof.
  intros [Hd Hn Hs Hi] Hb. split; [lia|..]; cbn; rewrite ?Hn.
  - apply s32_small. lia.
  - by destruct (Z.eqb_spec (d + 1) 0); [lia|].
  - intros _. rewrite Hs. destruct (Z.eqb_spec d 0); cbn; [done|]. apply Hi. lia.
Qed.

Lemma at_depth_pop sie0 d c : at_depth sie0 d c -> 1 <= d -> at_depth sie0 (d - 1) (pop c).
Proof.
  intros [Hd Hn Hs Hi] Hb. split; [lia|..]; cbn; rewrite ?Hn, ?(s32_small (d - 1)) by lia; [done| |].
  - rewrite Hs, Hi by lia. destruct (Z.eqb_spec d 0); [lia|]. cbn. by rewrite orb_false_r.
  - intros _. apply Hi. lia.
Qed.

(** A [pop_off] outside any section panics. *)
Lemma pop_off_bad s : c_noff (view cpuL s) = 0 -> exists why, pop_off s = Stop (Panic why) s.
Proof.
  intros Hn. unfold pop_off, intr_get, mycpu, bind, gets.
  destruct (c_sie (view cpuL s)); [by eexists|]. rewrite Hn. by eexists.
Qed.

Lemma run_depth l : forall s sie0 d,
  at_depth sie0 d (view cpuL s) -> peak d l < 2 ^ 31 ->
  match depth d l with
  | Some d' => exists s', run l s = Ok tt s' /\ at_depth sie0 d' (view cpuL s')
  | None => exists why s', run l s = Stop (Panic why) s'
  end.
Proof.
  induction l as [|[] l IH]; cbn; intros s sie0 d Hd Hp.
  - eauto.
  - erewrite bind_ok by apply push_off_run. apply (IH _ sie0); [rewrite view_put|lia].
    apply at_depth_push; [done|]. enough (d + 1 <= peak (d + 1) l) by lia. destruct l as [|[] l]; cbn; zcases; lia.
  - destruct (Z.ltb_spec d 1).
    + destruct (pop_off_bad s) as [why Hw]; [destruct Hd; lia|]. unfold bind. rewrite Hw. eauto.
    + erewrite bind_ok.
      2:{ apply pop_off_run; [|destruct Hd; lia]. destruct Hd as [_ _ -> _]. by destruct (Z.eqb_spec d 0); [lia|]. }
      apply (IH _ sie0); [rewrite view_put|lia]. by apply at_depth_pop.
Qed.
End Nesting.
End Nesting.

(** C37: [push_off] and [pop_off] nest. From a CPU outside any section, take any
    run of the two calls whose nesting stays below 2^31, the range of the [int]
    that counts it. If no [pop_off] lacks a partner, the run returns, leaves
    [noff] at the nesting depth, keeps interrupts off while the depth is
    positive and gives back the interrupt flag the CPU started with when the
    depth is zero again: it takes two [pop_off]s to undo two [push_off]s, and
    interrupts that were off stay off. If one does, the run panics. *)
Theorem push_pop_nest {S : Type} `{HasCpu S} `{!LensOk (cpuL (S:=S))} (l : list bool) (s : S) :
  c_noff (view cpuL s) = 0 -> Nesting.peak 0 l < 2 ^ 31 ->
  match Nesting.depth 0 l with
  | Some d => exists s', Nesting.run l s = Ok tt s' /\ c_noff (view cpuL s') = d /\
      c_sie (view cpuL s') = ((d =? 0) && c_sie (view cpuL s))
  | None => exists why s', Nesting.run l s = Stop (Panic why) s'
  end.
Proof.
  intros Hn Hp. pose proof (Nesting.run_depth l s (c_sie (view cpuL s)) 0) as H1.
  destruct (Nesting.depth 0 l) as [d|]; [|apply H1; [|done]; by split].
  destruct H1 as (s' & Hr & [_ Hd Hs _]); [by split|done|]. eauto.
Qed.

#[export] Instance HasCpu_cpu : HasCpu cpu := Lens (fun c => c) (fun c _ => c).
#[export] Instance HasCpu_cpu_ok : LensOk (cpuL (S:=cpu)).
Proof. solve_lens. Qed.

Lemma push_pop_nest_witness :
  (exists s', Nesting.run [true; true; false; true; false; false] (Cpu 3 true None 0 false) = Ok tt s' /\
    c_noff (view cpuL s') = 0 /\ c_sie (view cpuL s') = true) /\
  (exists s', Nesting.run [true; true; false] (Cpu 3 true None 0 false) = Ok tt s' /\
    c_noff (view cpuL s') = 1 /\ c_sie (view cpuL s') = false) /\
  (exists why s', Nesting.run [true; false; false] (Cpu 3 false None 0 false) = Stop (Panic why) s').
Proof.
  split; [|split].
  - exact (push_pop_nest [true; true; false; true; false; false] (Cpu 3 true None 0 false) eq_refl eq_refl).
  - exact (push_pop_nest [true; true; false] (Cpu 3 true None 0 false) eq_refl eq_refl).
  - exact (push_pop_nest [true; false; false] (Cpu 3 false None 0 false) eq_refl eq_refl).
Defined.

(** * Mutual exclusion *)
Module MutualExclusion.

(** Where a hart is: outside, or before one of the atomic accesses of
    [acquire] ([Check] .. [Won]), inside the critical section ([Crit], before the
    first access of [release]), or before one of the later ones of [release]
    ([Owned] .. [Popping]). [holding] reads the lock twice: the word at [Check]
    and [Crit], the owner at [CheckCpu] and [Owned]. *)
Inductive pc : Type :=
| Idle | Check | CheckCpu | Spinning | Won | Crit | Owned | Clearing | Unlocking | Popping | Panicked.
#[global] Instance pc_eq_dec : EqDecision pc.
Proof. solve_decision. Defined.

Record sys : Type := Sys {
  sy_lock : spinlock;
  sy_cpu : Z -> cpu;
  sy_pc : Z -> pc;
}.

Definition fset {A} (f : Z -> A) (h : Z) (a : A) : Z -> A := fun x => if x =? h then a else f x.
Definition goto (h : Z) (p : pc) (s : sys) : sys := Sys (sy_lock s) (sy_cpu s) (fset (sy_pc s) h p).
Definition with_lock (lk : spinlock) (s : sys) : sys := Sys lk (sy_cpu s) (sy_pc s).
Definition with_cpu (h : Z) (c : cpu) (s : sys) : sys := Sys (sy_lock s) (fset (sy_cpu s) h c) (sy_pc s).

(** One atomic step of hart [h]. *)
Definition hstep (h : Z) (s : sys) : sys :=
  let lk := sy_lock s in
  let c := sy_cpu s h in
  match sy_pc s h with
  | Idle => goto h Check (with_cpu h (push c) s)
  | Check => goto h (if nz (lk_locked lk) then CheckCpu else Spinning) s
  | CheckCpu => goto h (if bool_decide (lk_cpu lk = Some (c_id c)) then Panicked else Spinning) s
  | Spinning =>
      let '(old, lk') := test_and_set lk in
      goto h (if nz old then Spinning else Won) (with_lock lk' s)
  | Won => goto h Crit (with_lock (set_lkcpu (Some (c_id c)) lk) s)
  | Crit => goto h (if nz (lk_locked lk) then Owned else Panicked) s
  | Owned => goto h (if bool_decide (lk_cpu lk = Some (c_id c)) then Clearing else Panicked) s
  | Clearing => goto h Unlocking (with_lock (set_lkcpu None lk) s)
  | Unlocking => goto h Popping (with_lock (lock_release_word lk) s)
  | Popping =>
      if c_sie c then goto h Panicked s
      else if c_noff c <? 1 then goto h Panicked s
      else goto h Idle (with_cpu h (pop c) s)
  | Panicked => s
  end.

Inductive step : sys -> sys -> Prop :=
| step_hart h s : step s (hstep h s).

Definition init (lk : spinlock) (cpus : Z -> cpu) : sys := Sys lk cpus (fun _ => Idle).

Definition reachable (s : sys) : Prop :=
  exists name cpus, (forall h, c_id (cpus h) = h /\ c_noff (cpus h) = 0) /\
    rtc step (init (Spinlock 0 name None) cpus) s.

(** The lock word is owned. *)
Definition owns (p : pc) : bool :=
  match p with Won | Crit | Owned | Clearing | Unlocking => true | _ => false end.

Record inv (s : sys) : Prop := {
  inv_cpu h : c_id (sy_cpu s h) = h /\
    match sy_pc s h with
    | Panicked => False
    | Idle => c_noff (sy_cpu s h) = 0
    | _ => c_noff (sy_cpu s h) = 1 /\ c_sie (sy_cpu s h) = false
    end;
  inv_owner h : owns (sy_pc s h) = true ->
    lk_locked (sy_lock s) = 1 /\
    lk_cpu (sy_lock s) = (match sy_pc s h with Crit | Owned | Clearing => Some h | _ => None end) /\
    forall h', owns (sy_pc s h') = true -> h' = h;
  inv_word : (exists h, owns (sy_pc s h) = true) \/
    ((forall h, owns (sy_pc s h) = false) /\ lk_locked (sy_lock s) = 0 /\ lk_cpu (sy_lock s) = None);
}.

Lemma fset_eq {A} (f : Z -> A) h a : fset f h a h = a.
Proof. unfold fset. by rewrite Z.eqb_refl. Qed.
Lemma fset_ne {A} (f : Z -> A) h a x : x <> h -> fset f h a x = f x.
Proof. unfold fset. by destruct (Z.eqb_spec x h). Qed.

(** Steps of [h] leave the other harts where they are. *)
Lemma hstep_other h s h' : h' <> h -> sy_pc (hstep h s) h' = sy_pc s h' /\ sy_cpu (hstep h s) h' = sy_cpu s h'.
Proof.
  intros Hne. unfold hstep, goto, with_lock, with_cpu, test_and_set.
  destruct (sy_pc s h); cbn; rewrite ?fset_ne by done; try done.
  destruct (c_sie (sy_cpu s h)); cbn; rewrite ?fset_ne by done; [done|].
  destruct (c_noff (sy_cpu s h) <? 1); cbn; rewrite ?fset_ne by done; done.
Qed.

Lemma inv_init name cpus :
  (forall h, c_id (cpus h) = h /\ c_noff (cpus h) = 0) -> inv (init (Spinlock 0 name None) cpus).
Proof. intros Hc. split; cbn; auto. done. Qed.

(** Rebuild the invariant after a step of [h], given that the others have not
    moved: a step that keeps ownership, one that takes it, one that gives it up. *)
Lemma inv_rebuild h s s' :
  inv s ->
  (forall h', h' <> h -> sy_pc s' h' = sy_pc s h' /\ sy_cpu s' h' = sy_cpu s h') ->
  c_id (sy_cpu s' h) = h ->
  match sy_pc s' h with
  | Panicked => False
  | Idle => c_noff (sy_cpu s' h) = 0
  | _ => c_noff (sy_cpu s' h) = 1 /\ c_sie (sy_cpu s' h) = false
  end ->
  (if owns (sy_pc s' h) then
    lk_locked (sy_lock s') = 1 /\
    lk_cpu (sy_lock s') = (match sy_pc s' h with Crit | Owned | Clearing => Some h | _ => None end) /\
    forall h', owns (sy_pc s h') = true -> h' = h
   else if owns (sy_pc s h) then lk_locked (sy_lock s') = 0 /\ lk_cpu (sy_lock s') = None
   else lk_locked (sy_lock s') = lk_locked (sy_lock s) /\ lk_cpu (sy_lock s') = lk_cpu (sy_lock s)) ->
  inv s'.
Proof.
  intros [Ic Io Iw] Hoth Hid Hpc Hrel.
  assert (Hoth' : forall x, x <> h -> owns (sy_pc s' x) = owns (sy_pc s x))
    by (intros x Hx; by destruct (Hoth x Hx) as [-> _]).
  split.
  - intros x. destruct (decide (x = h)) as [->|Hne]; [by split|].
    destruct (Hoth x Hne) as [-> ->]. apply Ic.
  - intros x Hx. destruct (decide (x = h)) as [->|Hne].
    + rewrite Hx in Hrel. destruct Hrel as (?&?&Hu). split_and!; [done..|].
      intros h' Hh'. destruct (decide (h' = h)) as [|Hn']; [done|].
      rewrite Hoth' in Hh' by done. auto.
    + rewrite Hoth' in Hx by done. destruct (Hoth x Hne) as [-> _].
      destruct (Io x Hx) as (Hl&Hcpu&Hu).
      destruct (owns (sy_pc s' h)) eqn:Ho; [by destruct Hrel as (_&_&Hz); apply Hz in Hx|].
      destruct (owns (sy_pc s h)) eqn:Hp; [by apply Hu in Hp|].
      destruct Hrel as [-> ->]. split_and!; [done..|]. intros h' Hh'.
      destruct (decide (h' = h)) as [->|Hn']; [congruence|].
      rewrite Hoth' in Hh' by done. auto.
  - destruct (owns (sy_pc s' h)) eqn:Ho; [by left; exists h|].
    destruct Iw as [[x Hx]|(Hn&Hl&Hc)].
    + destruct (decide (x = h)) as [->|Hne].
      * rewrite Hx in Hrel. right. split; [|done]. intros y.
        destruct (decide (y = h)) as [->|Hy]; [done|]. rewrite Hoth' by done.
        apply not_true_iff_false. intros Hy'. by apply (Io h Hx) in Hy'.
      * left. exists x. by rewrite Hoth'.
    + rewrite Hn in Hrel. destruct Hrel as [-> ->]. right. split; [|done].
      intros y. destruct (decide (y = h)) as [->|Hy]; [done|]. by rewrite Hoth'.
Qed.

(** A hart that has not passed the swap is not the recorded owner. *)
Lemma inv_not_owner s h : inv s -> owns (sy_pc s h) = false -> lk_cpu (sy_lock s) <> Some h.
Proof.
  intros Hi E Hc. destruct (inv_word s Hi) as [[x Hx]|(_&_&Hn)]; [|congruence].
  destruct (inv_owner s Hi x Hx) as (_&Hx'&_). rewrite Hc in Hx'.
  assert (x = h) as -> by (destruct (sy_pc s x); by simplify_eq). congruence.
Qed.

Lemma inv_step h s : inv s -> inv (hstep h s).
Proof.
  intros Hi. pose proof (inv_cpu s Hi h) as [Hid Hpc]. pose proof (inv_owner s Hi h) as Ho.
  pose proof (inv_word s Hi) as Hw. pose proof (inv_not_owner s h Hi) as Hh.
  apply (inv_rebuild h s); [done|by intros; apply hstep_other|..]; unfold hstep;
    rewrite Hid; destruct (sy_pc s h) eqn:E; cbn -[nz] in *; rewrite ?fset_eq, ?Hid; try done.
  - destruct Hpc as [-> ->]. cbn. by rewrite fset_eq.
  - unfold push; cbn. by rewrite Hpc.
  - by destruct (nz (lk_locked (sy_lock s))).
  - rewrite bool_decide_false; auto.
  - by destruct (nz (lk_locked (sy_lock s))).
  - by destruct (Ho eq_refl) as (->&_).
  - destruct (Ho eq_refl) as (_&->&_). by rewrite bool_decide_true.
  - destruct Hpc as [Hn Hs]. rewrite Hs, Hn. cbn. rewrite !fset_eq. cbn. by rewrite Hn.
  - by destruct (nz (lk_locked (sy_lock s))).
  - by destruct (bool_decide _).
  - destruct Hw as [[x Hx]|(Hn&->&->)]; cbn.
    + destruct (inv_owner s Hi x Hx) as (->&->&_). done.
    + split_and!; [done..|]. intros x Hx. by rewrite Hn in Hx.
  - destruct (Ho eq_refl) as (?&_&?). done.
  - destruct (Ho eq_refl) as (->&?&?). done.
  - destruct (Ho eq_refl) as (?&Hl&?). rewrite bool_decide_true by done. done.
  - destruct (Ho eq_refl) as (?&_&?). done.
  - by destruct (Ho eq_refl) as (_&->&_).
  - destruct Hpc as [Hn Hs]. rewrite Hs, Hn. cbn. by rewrite !fset_eq.
Qed.

Lemma reachable_inv s : reachable s -> inv s.
Proof.
  intros (name&cpus&Hc&Hr).
  assert (inv (init (Spinlock 0 name None) cpus)) as Hi by by apply inv_init.
  induction Hr as [|s1 s2 s3 [h s'] _ IH]; [done|]. by apply IH, inv_step.
Qed.

(** One hart alone: the sequential [acquire] and [release] are runs of [hstep]. *)
Definition pairS : Type := (cpu * spinlock)%type.
#[global] Instance pair_cpu : HasCpu pairS := Lens fst (fun c s => (c, snd s)).
Definition pair_lock : lens pairS spinlock := Lens snd (fun k s => (fst s, k)).
#[global] Instance pair_cpu_ok : LensOk (cpuL (S:=pairS)).
Proof. solve_lens. Qed.
#[global] Instance pair_lock_ok : LensOk pair_lock.
Proof. solve_lens. Qed.
#[global] Instance pair_disj : LensDisj (cpuL (S:=pairS)) pair_lock.
Proof. solve_lens. Qed.

Definition alone (h : Z) (p : pc) (s : pairS) : sys :=
  Sys (snd s) (fset (fun x => Cpu x false None 0 false) h (fst s)) (fset (fun _ => Idle) h p).
(** Two systems that agree on the lock and on hart [h]. *)
Definition same_hart (h : Z) (s s' : sys) : Prop :=
  sy_lock s = sy_lock s' /\ sy_cpu s h = sy_cpu s' h /\ sy_pc s h = sy_pc s' h.

#[global] Instance same_hart_trans h : Transitive (same_hart h).
Proof. intros s1 s2 s3 (?&?&?) (?&?&?). split_and!; congruence. Qed.

(** A step of a hart depends on nothing but the lock and the hart. *)
#[global] Instance hstep_proper h : Proper (same_hart h ==> same_hart h) (hstep h).
Proof.
  intros s s' (El&Ec&Ep). unfold hstep, same_hart. rewrite El, Ec, Ep.
  destruct (sy_pc s' h) eqn:E; cbn; rewrite ?fset_eq, ?El, ?Ec, ?Ep; try done.
  destruct (c_sie (sy_cpu s' h)); cbn; rewrite ?fset_eq; [done|].
  destruct (c_noff (sy_cpu s' h) <? 1); cbn; rewrite ?fset_eq; done.
Qed.

Lemma alone_step h p s p' s' :
  sy_lock (hstep h (alone h p s)) = snd s' -> sy_cpu (hstep h (alone h p s)) h = fst s' ->
  sy_pc (hstep h (alone h p s)) h = p' -> same_hart h (hstep h (alone h p s)) (alone h p' s').
Proof. intros. unfold same_hart, alone. cbn. rewrite !fset_eq. done. Qed.

(** Steps of [h] through a list of its places and states. *)
Fixpoint passes (h : Z) (p : pc) (s : pairS) (l : list (pc * pairS)) : Prop :=
  match l with
  | [] => True
  | (p', s') :: l' => same_hart h (hstep h (alone h p s)) (alone h p' s') /\ passes h p' s' l'
  end.

Lemma iter_proper h n : Proper (same_hart h ==> same_hart h) (Nat.iter n (hstep h)).
Proof. intros s s' E. induction n as [|n IH]; [done|]. cbn. by apply hstep_proper. Qed.

Lemma alone_iter h l : forall p s,
  passes h p s l ->
  let '(p', s') := default (p, s) (last l) in
  same_hart h (Nat.iter (length l) (hstep h) (alone h p s)) (alone h p' s').
Proof.
  induction l as [|[p1 s1] l IH]; intros p s Hl; [done|]. destruct Hl as [H1 H2].
  specialize (IH _ _ H2). rewrite last_cons. cbn [length]. rewrite Nat.iter_succ_r.
  pose proof (iter_proper h (length l) _ _ H1).
  destruct (last l) as [[p' s']|]; cbn in *; by etrans.
Qed.

Ltac solve_step :=
  apply alone_step; unfold hstep, alone; cbn -[pop push]; rewrite !fset_eq; cbn -[pop push];
  rewrite ?bool_decide_true, ?fset_eq by done; done.

Lemma acquire_alone c lk :
  lk_locked lk = 0 -> acquire pair_lock (c, lk) = Ok tt (push c, taken (c_id c) lk).
Proof. exact (acquire_run pair_lock (c, lk)). Qed.

Lemma release_alone c lk :
  holding_b lk (c_id c) = true -> c_sie c = false -> 1 <= c_noff c ->
  release pair_lock (c, lk) = Ok tt (pop c, freed lk).
Proof. exact (release_run pair_lock (c, lk)). Qed.

Lemma acquire_passes c lk :
  lk_locked lk = 0 ->
  same_hart (c_id c) (Nat.iter 4 (hstep (c_id c)) (alone (c_id c) Idle (c, lk)))
    (alone (c_id c) Crit (push c, taken (c_id c) lk)).
Proof.
  destruct lk as [w nm o]. intros E. cbn in E. subst w.
  apply (alone_iter (c_id c) [(Check, (push c, Spinlock 0 nm o)); (Spinning, (push c, Spinlock 0 nm o));
    (Won, (push c, Spinlock 1 nm o)); (Crit, (push c, Spinlock 1 nm (Some (c_id c))))]).
  do 4 (split; [solve_step|]). exact I.
Qed.

Lemma release_passes c lk :
  c_sie c = false -> 1 <= c_noff c ->
  same_hart (c_id c) (Nat.iter 5 (hstep (c_id c)) (alone (c_id c) Crit (c, taken (c_id c) lk)))
    (alone (c_id c) Idle (pop c, freed (taken (c_id c) lk))).
Proof.
  destruct lk as [w nm o]. intros Hs Hn.
  apply (alone_iter (c_id c) [(Owned, (c, Spinlock 1 nm (Some (c_id c)))); (Clearing, (c, Spinlock 1 nm (Some (c_id c))));
    (Unlocking, (c, Spinlock 1 nm None)); (Popping, (c, Spinlock 0 nm None)); (Idle, (pop c, Spinlock 0 nm None))]).
  do 4 (split; [solve_step|]). split; [|exact I].
  apply alone_step; unfold hstep, alone; cbn -[pop]; rewrite !fset_eq, Hs;
    destruct (Z.ltb_spec (c_noff c) 1); try lia; cbn -[pop]; by rewrite ?fset_eq.
Qed.
End MutualExclusion.

(** C3: mutual exclusion. However the atomic steps of any number of harts
    interleave in [acquire] and [release], at most one hart is between the
    winning swap and the store that frees the lock; that hart runs with
    interrupts off; and neither the [panic] of [acquire] nor those of [release]
    and [pop_off] are reached. *)
Theorem spinlock_mutual_exclusion (s : MutualExclusion.sys) :
  MutualExclusion.reachable s ->
  (forall h1 h2, MutualExclusion.owns (MutualExclusion.sy_pc s h1) = true ->
     MutualExclusion.owns (MutualExclusion.sy_pc s h2) = true -> h1 = h2) /\
  (forall h, MutualExclusion.owns (MutualExclusion.sy_pc s h) = true ->
     c_sie (MutualExclusion.sy_cpu s h) = false) /\
  (forall h, MutualExclusion.sy_pc s h <> MutualExclusion.Panicked).
Proof.
  intros Hr. apply MutualExclusion.reachable_inv in Hr as Hi. split_and!.
  - intros h1 h2 H1 H2. by apply (MutualExclusion.inv_owner s Hi h2 H2).
  - intros h Ho. destruct (MutualExclusion.inv_cpu s Hi h) as [_ Hpc].
    destruct (MutualExclusion.sy_pc s h); try done; apply Hpc.
  - intros h E. destruct (MutualExclusion.inv_cpu s Hi h) as [_ Hpc]. by rewrite E in Hpc.
Qed.

(** Two harts race: hart 0 wins the swap, hart 1 spins. *)
Definition race : MutualExclusion.sys :=
  foldl (fun s h => MutualExclusion.hstep h s)
    (MutualExclusion.init (Spinlock 0 "l" None) (fun h => Cpu h true None 0 false))
    [0; 1; 0; 1; 0; 1; 0; 1].

Lemma spinlock_mutual_exclusion_witness :
  MutualExclusion.owns (MutualExclusion.sy_pc race 0) = true /\
  MutualExclusion.sy_pc race 1 = MutualExclusion.Spinning /\
  MutualExclusion.sy_pc race 1 <> MutualExclusion.Panicked.
Proof.
  split_and!; [reflexivity..|].
  apply (spinlock_mutual_exclusion race).
  exists "l", (fun h => Cpu h true None 0 false). split; [done|].
  do 8 (eapply rtc_l; [apply MutualExclusion.step_hart|]). apply rtc_refl.
Defined.

(** The sequential [acquire] of a free lock, and the [release] after it, are
    the atomic steps of one hart run without interference: four steps take the
    hart from outside the lock into the critical section with the CPU and the
    lock the sequential code computes, and five more take it out again. *)
Theorem acquire_release_refine (h : Z) (c : cpu) (lk : spinlock) :
  c_id c = h -> c_noff c = 0 -> lk_locked lk = 0 ->
  let run n := Nat.iter n (MutualExclusion.hstep h) in
  match acquire MutualExclusion.pair_lock (c, lk) with
  | Ok _ s1 =>
      MutualExclusion.same_hart h (run 4%nat (MutualExclusion.alone h MutualExclusion.Idle (c, lk)))
        (MutualExclusion.alone h MutualExclusion.Crit s1) /\
      match release MutualExclusion.pair_lock s1 with
      | Ok _ s2 =>
          MutualExclusion.same_hart h (run 5%nat (MutualExclusion.alone h MutualExclusion.Crit s1))
            (MutualExclusion.alone h MutualExclusion.Idle s2) /\
          fst s2 = settle c
      | Stop _ _ => False
      end
  | Stop _ _ => False
  end.
Proof.
  intros <- Hn Hl run. assert (cpu_ok c) as Hc by by apply room_zero.
  pose proof (push_noff c Hc). rewrite MutualExclusion.acquire_alone by done.
  split; [by apply MutualExclusion.acquire_passes|].
  rewrite (MutualExclusion.release_alone (push c)) by (done || apply holding_taken).
  split; [by apply (MutualExclusion.release_passes (push c))|]. by apply (pop_push (k:=16)).
Qed.

Lemma acquire_release_refine_witness :
  match acquire MutualExclusion.pair_lock (Cpu 2 true None 0 false, Spinlock 0 "l" None) with
  | Ok _ s1 =>
      MutualExclusion.same_hart 2
        (Nat.iter 4 (MutualExclusion.hstep 2)
           (MutualExclusion.alone 2 MutualExclusion.Idle (Cpu 2 true None 0 false, Spinlock 0 "l" None)))
        (MutualExclusion.alone 2 MutualExclusion.Crit s1)
  | Stop _ _ => False
  end.
Proof.
  generalize (acquire_release_refine 2 (Cpu 2 true None 0 false) (Spinlock 0 "l" None)
    eq_refl eq_refl eq_refl).
  destruct (acquire MutualExclusion.pair_lock _) as [[] s1|]; intros H; [exact (proj1 H)|exact H].
Defined.
