(* ===== verification/Cstring.v ===== *)
(** Memory and string routines: [src/kernel/string.c].

    The routines that write ([memset], [memmove], [strncpy], [safestrcpy])
    transform the byte memory, one store per iteration of their loops. Those
    that only read take their arguments as [cptr]: [p i] is the byte [p[i]],
    whether the bytes live in physical memory ([at_mem]) or in an array of a
    kernel structure ([at_list]). [char] is unsigned on RISC-V. *)

From S2P Require Import Prelude.

Definition cptr : Type := Z -> Z.
Definition at_mem (m : memory) (a : Z) : cptr := fun i => load8 m (a + i).
Definition at_list (l : list Z) : cptr := fun i => u8 (l !!! Z.to_nat i).
Definition shift (p : cptr) : cptr := fun i => p (i + 1).

(** * Writers *)

Fixpoint memset_loop (m : memory) (dst c : Z) (i : Z) (k : nat) : memory :=
  match k with
  | O => m
  | S k' => memset_loop (store8 m (dst + i) c) dst c (i + 1) k'
  end.
(** [memset(dst, c, n)] *)
Definition memset (m : memory) (dst c n : Z) : memory := memset_loop m dst c 0 (Z.to_nat n).

Fixpoint copy_fwd (m : memory) (d s : Z) (k : nat) : memory :=
  match k with
  | O => m
  | S k' => copy_fwd (store8 m d (load8 m s)) (d + 1) (s + 1) k'
  end.
Fixpoint copy_bwd (m : memory) (d s : Z) (k : nat) : memory :=
  match k with
  | O => m
  | S k' => copy_bwd (store8 m (d - 1) (load8 m (s - 1))) (d - 1) (s - 1) k'
  end.
(** [memmove(dst, src, n)] *)
Definition memmove (m : memory) (dst src n : Z) : memory :=
  if n =? 0 then m
  else if (src <? dst) && (dst <? src + n)
  then copy_bwd m (dst + n) (src + n) (Z.to_nat n)
  else copy_fwd m dst src (Z.to_nat n).
#[global] Arguments memset : simpl never.
#[global] Arguments memmove : simpl never.
(** [memcpy(dst, src, n)] *)
Definition memcpy (m : memory) (dst src n : Z) : memory := memmove m dst src n.

(** [strncpy]: the copying loop, which stops after a NUL, then the padding loop.
    [n-- > 0] fails for [n = 0] and leaves [n = -1], so the padding loop does
    not run. *)
Fixpoint strncpy_pad (m : memory) (s : Z) (k : nat) : memory :=
  match k with
  | O => m
  | S k' => strncpy_pad (store8 m s 0) (s + 1) k'
  end.
Fixpoint strncpy_copy (m : memory) (s t : Z) (k : nat) : memory :=
  match k with
  | O => m
  | S k' =>
      let c := load8 m t in
      let m' := store8 m s c in
      if nz c then strncpy_copy m' (s + 1) (t + 1) k' else strncpy_pad m' (s + 1) k'
  end.
Definition strncpy (m : memory) (s t n : Z) : memory := strncpy_copy m s t (Z.to_nat n).

(** [safestrcpy]: [--n > 0] bounds the copy to [n - 1] bytes, then [*s = 0]. *)
Fixpoint safestrcpy_loop (m : memory) (s t : Z) (k : nat) : memory * Z :=
  match k with
  | O => (m, s)
  | S k' =>
      let c := load8 m t in
      let m' := store8 m s c in
      if nz c then safestrcpy_loop m' (s + 1) (t + 1) k' else (m', s + 1)
  end.
Definition safestrcpy (m : memory) (s t n : Z) : memory :=
  if n <=? 0 then m else
  let '(m', s') := safestrcpy_loop m s t (Z.to_nat (n - 1)) in
  store8 m' s' 0.

(** * Readers *)

Fixpoint memcmp (p q : cptr) (n : nat) : Z :=
  match n with
  | O => 0
  | S n' => if p 0 =? q 0 then memcmp (shift p) (shift q) n' else p 0 - q 0
  end.

(** [while(n > 0 && *p && *p == *q) n--, p++, q++;] *)
Fixpoint strncmp (p q : cptr) (n : nat) : Z :=
  match n with
  | O => 0
  | S n' => if nz (p 0) && (p 0 =? q 0) then strncmp (shift p) (shift q) n' else p 0 - q 0
  end.

(** [strlen] has no bound: it needs fuel, and has a result when a NUL is found. *)
Fixpoint strlen (fuel : nat) (p : cptr) : option Z :=
  match fuel with
  | O => None
  | S f => if p 0 =? 0 then Some 0 else Z.succ <$> strlen f (shift p)
  end.

(** * What the readers see: the C string at a pointer, at most [n] bytes *)

Fixpoint cstr (p : cptr) (n : nat) : list Z :=
  match n with
  | O => []
  | S n' => if p 0 =? 0 then [] else p 0 :: cstr (shift p) n'
  end.

(** [strncmp] is zero exactly on equal strings, each cut at its NUL or after [n]
    bytes: directory names have no NUL when they are [DIRSIZ] bytes long. *)
Lemma strncmp_zero_iff (n : nat) (p q : cptr) : strncmp p q n = 0 <-> cstr p n = cstr q n.
Proof.
  revert p q. induction n as [|n IH]; intros p q; cbn [strncmp cstr]; [done|].
  unfold nz. destruct (Z.eqb_spec (p 0) 0) as [E|E], (Z.eqb_spec (q 0) 0) as [E'|E'];
    destruct (Z.eqb_spec (p 0) (q 0)) as [Epq|Epq]; cbn; try lia; try (split; [lia|done]).
  - split; [done|lia].
  - rewrite IH, Epq. split; [by intros ->|by intros [= ->]].
  - split; [lia|]. intros [= ??]. done.
Qed.

Lemma length_cstr n : forall p, (length (cstr p n) <= n)%nat.
Proof.
  induction n as [|n IH]; intros p; cbn; [lia|]. destruct (p 0 =? 0); cbn; [lia|].
  specialize (IH (shift p)). lia.
Qed.

Lemma cstr_ext n : forall p q, (forall i, 0 <= i < Z.of_nat n -> p i = q i) -> cstr p n = cstr q n.
Proof.
  induction n as [|n IH]; intros p q H; cbn; [done|].
  rewrite (H 0) by lia. destruct (q 0 =? 0); [done|]. f_equal. apply IH.
  intros i Hi. apply H. lia.
Qed.

(** * Correctness *)

Lemma memset_loop_spec k : forall m dst c i x,
  memset_loop m dst c i k x = if (dst + i <=? x) && (x <? dst + i + Z.of_nat k) then u8 c else m x.
Proof.
  induction k as [|k IH]; intros m dst c i x; cbn [memset_loop].
  - destruct (Z.leb_spec (dst + i) x), (Z.ltb_spec x (dst + i + Z.of_nat 0)); cbn; lia || done.
  - rewrite IH. unfold store8.
    destruct (Z.eqb_spec x (dst + i)), (Z.leb_spec (dst + (i + 1)) x), (Z.leb_spec (dst + i) x),
      (Z.ltb_spec x (dst + (i + 1) + Z.of_nat k)), (Z.ltb_spec x (dst + i + Z.of_nat (S k)));
      cbn; lia || done.
Qed.

Lemma memset_spec m dst c n x :
  0 <= n -> memset m dst c n x = if (dst <=? x) && (x <? dst + n) then u8 c else m x.
Proof. intros. unfold memset. rewrite memset_loop_spec, Z.add_0_r, Z2Nat.id by lia. done. Qed.

Lemma memset_in m dst c n x : dst <= x < dst + n -> memset m dst c n x = u8 c.
Proof. intros. rewrite memset_spec by lia. destruct (Z.leb_spec dst x), (Z.ltb_spec x (dst + n)); cbn; lia || done. Qed.

Lemma memset_out m dst c n x : x < dst \/ dst + n <= x -> memset m dst c n x = m x.
Proof.
  intros. destruct (Z.leb_spec 0 n).
  - rewrite memset_spec by lia. destruct (Z.leb_spec dst x), (Z.ltb_spec x (dst + n)); cbn; lia || done.
  - unfold memset. replace (Z.to_nat n) with 0%nat by lia. done.
Qed.

Lemma copy_fwd_out k : forall m d s x, x < d \/ d + Z.of_nat k <= x -> copy_fwd m d s k x = m x.
Proof.
  induction k as [|k IH]; intros m d s x Hx; cbn [copy_fwd]; [done|].
  rewrite IH by lia. unfold store8. destruct (Z.eqb_spec x d); [lia|done].
Qed.

(** Copying up is right when the destination is not ahead of the source inside it. *)
Lemma copy_fwd_in k : forall m d s x,
  d <= s \/ s + Z.of_nat k <= d -> d <= x < d + Z.of_nat k ->
  copy_fwd m d s k x = load8 m (s + (x - d)).
Proof.
  induction k as [|k IH]; intros m d s x Hds Hx; cbn [copy_fwd]; [lia|].
  destruct (decide (x = d)) as [->|Hne].
  - rewrite copy_fwd_out by lia. unfold store8. rewrite Z.eqb_refl, Z.sub_diag, Z.add_0_r.
    unfold load8, u8. by rewrite Z.mod_mod.
  - rewrite IH by lia. replace (s + 1 + (x - (d + 1))) with (s + (x - d)) by lia.
    unfold load8, store8. destruct (Z.eqb_spec (s + (x - d)) d) as [E|]; [|done].
    lia.
Qed.

Lemma copy_bwd_out k : forall m d s x, x < d - Z.of_nat k \/ d <= x -> copy_bwd m d s k x = m x.
Proof.
  induction k as [|k IH]; intros m d s x Hx; cbn [copy_bwd]; [done|].
  rewrite IH by lia. unfold store8. destruct (Z.eqb_spec x (d - 1)); [lia|done].
Qed.

Lemma copy_bwd_in k : forall m d s x,
  s <= d -> d - Z.of_nat k <= x < d -> copy_bwd m d s k x = load8 m (s + (x - d)).
Proof.
  induction k as [|k IH]; intros m d s x Hds Hx; cbn [copy_bwd]; [lia|].
  destruct (decide (x = d - 1)) as [->|Hne].
  - rewrite copy_bwd_out by lia. unfold store8. rewrite Z.eqb_refl.
    replace (s + (d - 1 - d)) with (s - 1) by lia.
    unfold load8, u8. by rewrite Z.mod_mod.
  - rewrite IH by lia. replace (s - 1 + (x - (d - 1))) with (s + (x - d)) by lia.
    unfold load8, store8. destruct (Z.eqb_spec (s + (x - d)) (d - 1)) as [E|]; [lia|done].
Qed.

Lemma memmove_out m dst src n x : x < dst \/ dst + n <= x -> memmove m dst src n x = m x.
Proof.
  intros Hx. unfold memmove. destruct (n =? 0) eqn:E; [done|]. apply Z.eqb_neq in E.
  destruct (Z.ltb_spec 0 n).
  - destruct ((src <? dst) && (dst <? src + n)).
    + apply copy_bwd_out. lia.
    + apply copy_fwd_out. lia.
  - replace (Z.to_nat n) with 0%nat by lia. by destruct (_ && _).
Qed.

Lemma memmove_in m dst src n x :
  dst <= x < dst + n -> memmove m dst src n x = load8 m (src + (x - dst)).
Proof.
  intros Hx. unfold memmove. destruct (Z.eqb_spec n 0); [lia|].
  destruct (Z.ltb_spec src dst), (Z.ltb_spec dst (src + n)); cbn [andb].
  - rewrite copy_bwd_in by lia. f_equal. lia.
  - apply copy_fwd_in; lia.
  - apply copy_fwd_in; lia.
  - apply copy_fwd_in; lia.
Qed.

Lemma strncpy_pad_spec k : forall m s x,
  strncpy_pad m s k x = if (s <=? x) && (x <? s + Z.of_nat k) then 0 else m x.
Proof.
  induction k as [|k IH]; intros m s x; cbn [strncpy_pad].
  - destruct (Z.leb_spec s x), (Z.ltb_spec x (s + Z.of_nat 0)); cbn; lia || done.
  - rewrite IH. unfold store8.
    destruct (Z.eqb_spec x s), (Z.leb_spec (s + 1) x), (Z.leb_spec s x),
      (Z.ltb_spec x (s + 1 + Z.of_nat k)), (Z.ltb_spec x (s + Z.of_nat (S k)));
      cbn; lia || done.
Qed.

Lemma load_strncpy_pad k m s : load_bytes (strncpy_pad m s k) s k = replicate k 0.
Proof.
  apply list_eq. intros i. destruct (decide (i < k)%nat).
  - rewrite lookup_load_bytes, lookup_replicate_2 by lia. unfold load8. rewrite strncpy_pad_spec.
    destruct (Z.leb_spec s (s + Z.of_nat i)), (Z.ltb_spec (s + Z.of_nat i) (s + Z.of_nat k)); cbn; lia || done.
  - rewrite !lookup_ge_None_2; rewrite ?length_load_bytes, ?length_replicate; lia || done.
Qed.

Lemma strncpy_copy_out k : forall m s t x, x < s \/ s + Z.of_nat k <= x -> strncpy_copy m s t k x = m x.
Proof.
  induction k as [|k IH]; intros m s t x Hx; cbn [strncpy_copy]; [done|].
  destruct (nz (load8 m t)).
  - rewrite IH by lia. unfold store8. by destruct (Z.eqb_spec x s); [lia|].
  - rewrite strncpy_pad_spec. unfold store8.
    destruct (Z.leb_spec (s + 1) x), (Z.ltb_spec x (s + 1 + Z.of_nat k)), (Z.eqb_spec x s); cbn; lia || done.
Qed.

(** The C string at [t] is not disturbed by a store outside it. *)
Lemma cstr_store8 m s t c k :
  s < t \/ t + Z.of_nat k <= s ->
  cstr (at_mem (store8 m s c) t) k = cstr (at_mem m t) k.
Proof. intros. apply cstr_ext. intros i Hi. unfold at_mem. apply load8_store8_ne. lia. Qed.

Lemma cstr_mem_cons m t k :
  cstr (at_mem m t) (S k) = if load8 m t =? 0 then [] else load8 m t :: cstr (at_mem m (t + 1)) k.
Proof.
  cbn [cstr]. unfold at_mem at 1 2. rewrite Z.add_0_r. destruct (load8 m t =? 0); [done|].
  f_equal. apply cstr_ext. intros i _. unfold shift, at_mem. f_equal. lia.
Qed.

Lemma strncpy_copy_spec k : forall m s t,
  t + Z.of_nat k <= s \/ s + Z.of_nat k <= t ->
  load_bytes (strncpy_copy m s t k) s k =
    cstr (at_mem m t) k ++ replicate (k - length (cstr (at_mem m t) k)) 0.
Proof.
  induction k as [|k IH]; intros m s t Hd; [done|].
  rewrite load_bytes_cons, cstr_mem_cons. cbn [strncpy_copy]. unfold nz.
  destruct (Z.eqb_spec (load8 m t) 0) as [E|E]; cbn [negb].
  - cbn. f_equal.
    + unfold load8 at 1. rewrite strncpy_pad_spec, E.
      destruct (Z.leb_spec (s + 1) s); [lia|]. cbn. unfold store8. by rewrite Z.eqb_refl.
    + rewrite load_strncpy_pad. done.
  - cbn [app length]. f_equal.
    + unfold load8 at 1. rewrite strncpy_copy_out by lia. unfold store8. rewrite Z.eqb_refl.
      by rewrite !load8_u8.
    + rewrite IH, cstr_store8 by lia. done.
Qed.

Lemma safestrcpy_loop_spec k : forall m s t,
  t + Z.of_nat k <= s \/ s + Z.of_nat k < t ->
  let '(m', s') := safestrcpy_loop m s t k in
  let l := cstr (at_mem m t) k in
  load_bytes m' s (length l) = l /\
  s' = s + Z.of_nat (length l) + (if (length l <? k)%nat then 1 else 0) /\
  ((length l < k)%nat -> load8 m' (s + Z.of_nat (length l)) = 0) /\
  forall x, x < s \/ s + Z.of_nat k <= x -> m' x = m x.
Proof.
  induction k as [|k IH]; intros m s t Hd; [cbn; split_and!; [done|lia|lia|done]|].
  rewrite cstr_mem_cons. cbn [safestrcpy_loop]. unfold nz.
  destruct (Z.eqb_spec (load8 m t) 0) as [E|E]; cbn [negb].
  - cbn. split_and!; [done|lia| |].
    + intros _. rewrite Z.add_0_r, E. by rewrite load8_store8.
    + intros x Hx. unfold store8. destruct (Z.eqb_spec x s); [lia|done].
  - specialize (IH (store8 m s (load8 m t)) (s + 1) (t + 1)).
    destruct (safestrcpy_loop _ _ _ k) as [m' s']. cbn zeta in IH.
    rewrite cstr_store8 in IH by lia.
    destruct IH as (Hl&Hs&Hz&Ho); [lia|]. cbn zeta. cbn [length].
    set (l := cstr (at_mem m (t + 1)) k) in *. split_and!.
    + rewrite load_bytes_cons. f_equal; [|done]. unfold load8 at 1. rewrite Ho by lia.
      unfold store8. rewrite Z.eqb_refl. by rewrite !load8_u8.
    + rewrite Hs. destruct (Nat.ltb_spec (length l) k), (Nat.ltb_spec (S (length l)) (S k)); lia.
    + intros Hk. replace (s + Z.of_nat (S (length l))) with (s + 1 + Z.of_nat (length l)) by lia.
      apply Hz. lia.
    + intros x Hx. rewrite Ho by lia. unfold store8. destruct (Z.eqb_spec x s); [lia|done].
Qed.

(** [memmove] copies correctly whether or not the regions overlap: every
    byte of the destination is the byte the source held before the call, and no
    byte outside the destination changes. *)
Theorem memmove_correct (m : memory) (dst src n : Z) :
  0 <= n ->
  load_bytes (memmove m dst src n) dst (Z.to_nat n) = load_bytes m src (Z.to_nat n) /\
  forall x, x < dst \/ dst + n <= x -> memmove m dst src n x = m x.
Proof.
  intros Hn. split; [|intros; by apply memmove_out].
  apply list_eq. intros i. destruct (decide (i < Z.to_nat n)%nat).
  - rewrite !lookup_load_bytes by lia. f_equal. unfold load8 at 1.
    rewrite memmove_in by lia. rewrite load8_u8. f_equal. lia.
  - rewrite !lookup_ge_None_2; rewrite ?length_load_bytes; lia || done.
Qed.

Lemma memmove_correct_witness :
  load_bytes (memmove (fun x => x) 102 100 4) 102 4 = [100; 101; 102; 103].
Proof. exact (proj1 (memmove_correct (fun x => x) 102 100 4 ltac:(lia))). Defined.

(** [strncpy] and [safestrcpy] on regions that do not overlap. [strncpy]
    fills all [n] bytes with the source string followed by NULs; [safestrcpy]
    stores the source string cut to [n - 1] bytes and always terminates it;
    neither writes outside the [n] bytes of the destination. *)
Theorem strcpy_correct (m : memory) (s t n : Z) :
  0 < n -> t + n <= s \/ s + n <= t ->
  (load_bytes (strncpy m s t n) s (Z.to_nat n) =
     let l := cstr (at_mem m t) (Z.to_nat n) in l ++ replicate (Z.to_nat n - length l) 0) /\
  (let l := cstr (at_mem m t) (Z.to_nat (n - 1)) in
   load_bytes (safestrcpy m s t n) s (S (length l)) = l ++ [0]) /\
  (forall x, x < s \/ s + n <= x -> strncpy m s t n x = m x /\ safestrcpy m s t n x = m x).
Proof.
  intros Hn Hd. split; [by apply strncpy_copy_spec; lia|].
  unfold safestrcpy. destruct (Z.leb_spec n 0); [lia|].
  pose proof (safestrcpy_loop_spec (Z.to_nat (n - 1)) m s t) as Hs.
  pose proof (length_cstr (Z.to_nat (n - 1)) (at_mem m t)) as Hlen.
  destruct (safestrcpy_loop m s t (Z.to_nat (n - 1))) as [m' s']. cbn zeta in *.
  set (l := cstr (at_mem m t) (Z.to_nat (n - 1))) in *.
  destruct Hs as (Hl&Hs'&Hz&Ho); [lia|]. split.
  - replace (S (length l)) with (length l + 1)%nat by lia.
    assert (s' = s + Z.of_nat (length l) \/
      (s' = s + Z.of_nat (length l) + 1 /\ load8 m' (s + Z.of_nat (length l)) = 0)) as Hcase.
    { destruct (Nat.ltb_spec (length l) (Z.to_nat (n - 1))); [right; split; [lia|auto]|left; lia]. }
    apply list_eq. intros i. destruct (decide (i < length l)%nat).
    + rewrite lookup_load_bytes, lookup_app_l by lia. rewrite load8_store8_ne by lia.
      rewrite <- Hl. by rewrite lookup_load_bytes.
    + destruct (decide (i = length l)) as [->|].
      * rewrite lookup_load_bytes, lookup_app_r, Nat.sub_diag by lia. cbn. f_equal.
        destruct Hcase as [-> |[-> ?]]; [by rewrite load8_store8|]. by rewrite load8_store8_ne by lia.
      * rewrite !lookup_ge_None_2; rewrite ?length_load_bytes, ?length_app; cbn; lia || done.
  - intros x Hx. split; [by apply strncpy_copy_out; lia|].
    unfold store8. destruct (Z.eqb_spec x s') as [->|].
    + exfalso. destruct (Nat.ltb_spec (length l) (Z.to_nat (n - 1))); lia.
    + apply Ho. lia.
Qed.

Lemma strcpy_correct_witness :
  load_bytes (safestrcpy (store_bytes (fun _ => 7) 200 [105; 110; 105; 116; 0]) 100 200 4) 100 4 = [105; 110; 105; 0].
Proof.
  destruct (strcpy_correct (store_bytes (fun _ => 7) 200 [105; 110; 105; 116; 0]) 100 200 4) as (_&H&_);
    [lia|lia|]. exact H.
Defined.

(** [strlen] finds the first NUL, given fuel beyond it. *)
Lemma strlen_spec n : forall p fuel,
  (forall i, 0 <= i < Z.of_nat n -> p i <> 0) -> p (Z.of_nat n) = 0 -> (n < fuel)%nat ->
  strlen fuel p = Some (Z.of_nat n).
Proof.
  induction n as [|n IH]; intros p [|fuel] Hp H0 Hf; try lia; cbn [strlen].
  - change (p 0 = 0) in H0. by rewrite H0.
  - destruct (Z.eqb_spec (p 0) 0) as [E|E]; [by apply Hp in E; [|lia]|].
    rewrite (IH (shift p)); [cbn; f_equal; lia| | |lia].
    + intros i Hi. apply Hp. lia.
    + unfold shift. rewrite <- H0. f_equal. lia.
Qed.
