(* ===== verification/Kalloc.v ===== *)
(** The physical page allocator: [src/kernel/kalloc.c].

    The free list is threaded through the free pages themselves: the first eight
    bytes of a free page are [struct run { struct run *next; }]. The state has
    the physical memory, [kmem.lock], [kmem.freelist] and the CPU the code runs
    on. [kend] is the linker's [end], the first address after the kernel image,
    a parameter: [src/kernel/kernel.ld] places it above [KERNBASE]. *)

From S2P Require Import Prelude Params Spinlock Cstring.
Local Open Scope kernel_scope.

Record kmst : Type := Km {
  km_cpu : cpu;
  km_mem : memory;
  km_lock : spinlock;
  km_freelist : Z;
}.

#[export] Instance km_HasCpu : HasCpu kmst :=
  Lens km_cpu (fun c s => Km c (km_mem s) (km_lock s) (km_freelist s)).
Definition kmem_lock : lens kmst spinlock :=
  Lens km_lock (fun k s => Km (km_cpu s) (km_mem s) k (km_freelist s)).
#[export] Instance km_cpu_ok : LensOk (cpuL (S:=kmst)).
Proof. solve_lens. Qed.
#[export] Instance kmem_lock_ok : LensOk kmem_lock.
Proof. solve_lens. Qed.
#[export] Instance km_cpu_lock : LensDisj (cpuL (S:=kmst)) kmem_lock.
Proof. solve_lens. Qed.

(** Memory accesses of kernel code. *)
Definition set_mem (m : memory) (s : kmst) : kmst := Km (km_cpu s) m (km_lock s) (km_freelist s).
Definition upd_mem (f : memory -> memory) : M kmst unit := modify (fun s => set_mem (f (km_mem s)) s).
Definition read64 (a : Z) : M kmst Z := gets (fun s => load64 (km_mem s) a).
Definition write64 (a v : Z) : M kmst unit := upd_mem (fun m => store64 m a v).
Definition memsetM (dst c n : Z) : M kmst unit := upd_mem (fun m => memset m dst c n).
Definition set_freelist (r : Z) : M kmst unit :=
  modify (fun s => Km (km_cpu s) (km_mem s) (km_lock s) r).

Section Kalloc.
Variable kend : Z.

Definition kfree (pa : Z) : M kmst unit :=
  if nz (pa mod PGSIZE) || (pa <? kend) || (PHYSTOP <=? pa) then panic "kfree" else
  memsetM pa 1 PGSIZE ;;
  acquire kmem_lock ;;
  next <- gets km_freelist ;;
  write64 pa next ;;
  set_freelist pa ;;
  release kmem_lock.

Definition kalloc : M kmst Z :=
  acquire kmem_lock ;;
  r <- gets km_freelist ;;
  when (nz r) (next <- read64 r ;; set_freelist next) ;;
  release kmem_lock ;;
  when (nz r) (memsetM r 5 PGSIZE) ;;
  ret r.

Fixpoint freerange_loop (fuel : nat) (p pa_end : Z) : M kmst unit :=
  match fuel with
  | O => halt NoFuel
  | S f => if p + PGSIZE <=? pa_end then kfree p ;; freerange_loop f (p + PGSIZE) pa_end else ret tt
  end.
(** One iteration per page of the range, and the test that leaves the loop. *)
Definition freerange (pa_start pa_end : Z) : M kmst unit :=
  freerange_loop (S (Z.to_nat ((pa_end - pa_start) / PGSIZE + 1))) (PGROUNDUP pa_start) pa_end.

Definition kinit : M kmst unit :=
  initlock kmem_lock "kmem" ;;
  freerange kend PHYSTOP.

(** * Representation of the free list *)

Fixpoint fl_rep (m : memory) (h : Z) (l : list Z) : Prop :=
  match l with
  | [] => h = 0
  | p :: l' => h = p /\ fl_rep m (load64 m p) l'
  end.

Definition page_ok (p : Z) : Prop := aligned p /\ kend <= p /\ p + PGSIZE <= PHYSTOP.
Definition in_page (p x : Z) : Prop := p <= x < p + PGSIZE.
Definition in_pages (l : list Z) (x : Z) : Prop := exists p, p ∈ l /\ in_page p x.

(** The allocator's invariant, with the free pages in list order. *)
Record km_inv (s : kmst) (l : list Z) : Prop := {
  kmi_cpu : cpu_ok (km_cpu s);
  kmi_lock : lock_free kmem_lock s;
  kmi_rep : fl_rep (km_mem s) (km_freelist s) l;
  kmi_ok : Forall page_ok l;
  kmi_dup : NoDup l;
}.

(** Two CPUs that differ by the [intena] a settled [push_off] leaves. *)
Definition csame (c c' : cpu) : Prop := settle c' = settle c.

#[global] Instance csame_equiv : Equivalence csame.
Proof. unfold csame. split; [done|by intros ??|intros ???; congruence]. Qed.

Lemma csame_settle c : csame c (settle c).
Proof. apply settle_idem. Qed.

Hypothesis kend_pos : KERNBASE <= kend.

Lemma page_ok_pos p : page_ok p -> 0 < p.
Proof. intros (_&?&_). unfold KERNBASE in *. lia. Qed.

Lemma page_ok_range p : page_ok p -> 0 <= p < 2 ^ 56.
Proof. intros (_&?&?). unfold PHYSTOP, KERNBASE, PGSIZE in *. lia. Qed.

Lemma fl_rep_frame m m' : forall l h,
  (forall x, in_pages l x -> m' x = m x) -> fl_rep m h l -> fl_rep m' h l.
Proof.
  induction l as [|p l IH]; intros h Hm; cbn; [done|]. intros [-> Hl]. split; [done|].
  replace (load64 m' p) with (load64 m p).
  - apply IH; [|done]. intros x (q&Hq&Hx). apply Hm. exists q. split; [by right|done].
  - apply load64_ext. intros x Hx. symmetry. apply Hm. exists p. split; [by left|].
    unfold in_page, PGSIZE. lia.
Qed.

Lemma pages_disjoint p q x : page_ok p -> page_ok q -> p <> q -> in_page p x -> ~ in_page q x.
Proof.
  intros (Hp&_) (Hq&_) Hne Hx Hy. unfold in_page in *.
  pose proof (aligned_disjoint p q Hp Hq Hne). lia.
Qed.

Lemma in_pages_not p l x :
  page_ok p -> Forall page_ok l -> p ∉ l -> in_pages l x -> ~ in_page p x.
Proof.
  intros Hp Hl Hnin (q&Hq&Hx) Hpx. rewrite Forall_forall in Hl.
  apply (pages_disjoint q p x); auto. by intros ->.
Qed.

(** * The two operations *)

Lemma kalloc_nil s :
  km_inv s [] ->
  kalloc s = Ok 0 (Km (settle (km_cpu s)) (km_mem s) (freed (km_lock s)) 0).
Proof.
  intros [Hc Hl Hr _ _]. cbn in Hr. unfold kalloc.
  erewrite bind_ok by (apply (acquire_run kmem_lock); done).
  unfold gets. erewrite bind_ok by done. cbn. rewrite Hr.
  erewrite bind_ok by done.
  erewrite bind_ok.
  2:{ apply (release_run kmem_lock); [apply holding_taken|done|by apply (push_noff (k:=16))]. }
  cbn. rewrite pop_push by done. done.
Qed.

Lemma kalloc_cons s p l :
  km_inv s (p :: l) ->
  kalloc s = Ok p (Km (settle (km_cpu s)) (memset (km_mem s) p 5 PGSIZE) (freed (km_lock s))
                      (load64 (km_mem s) p)).
Proof.
  intros [Hc Hl Hr Hok _]. destruct Hr as [Hh Hr]. inversion_clear Hok as [|?? Hp _].
  apply page_ok_pos in Hp. unfold kalloc.
  erewrite bind_ok by (apply (acquire_run kmem_lock); done).
  unfold gets. erewrite bind_ok by done. cbn. rewrite Hh.
  replace (nz p) with true by (symmetry; apply nz_true; lia).
  erewrite bind_ok by done.
  erewrite bind_ok.
  2:{ apply (release_run kmem_lock); [apply holding_taken|done|by apply (push_noff (k:=16))]. }
  cbn. rewrite pop_push by done. done.
Qed.

(** [kalloc] fails exactly when no page is free; otherwise it takes the first
    free page, fills it with junk and touches no other byte. *)
Lemma kalloc_spec s l :
  km_inv s l ->
  exists r s', kalloc s = Ok r s' /\ csame (km_cpu s) (km_cpu s') /\
    match l with
    | [] => r = 0 /\ km_inv s' [] /\ km_mem s' = km_mem s
    | p :: l' => r = p /\ page_ok p /\ (p ∉ l') /\ km_inv s' l' /\
        (forall x, in_page p x -> km_mem s' x = 5) /\
        (forall x, ~ in_page p x -> km_mem s' x = km_mem s x)
    end.
Proof.
  intros Hi. destruct l as [|p l].
  - eexists _, _. split; [by apply kalloc_nil|]. split; [apply csame_settle|].
    destruct Hi as [Hc Hl Hr ? ?]. split_and!; [done| |done]. split; cbn; auto using settle_ok.
    done.
  - eexists _, _. split; [by apply (kalloc_cons s p l)|]. split; [apply csame_settle|].
    destruct Hi as [Hc Hl Hr Hok Hd]. apply Forall_cons in Hok as [Hp Hok].
    apply NoDup_cons in Hd as [Hnin Hd]. destruct Hr as [_ Hr].
    assert (Hout : forall x, ~ in_page p x -> memset (km_mem s) p 5 PGSIZE x = km_mem s x).
    { intros x Hx. apply memset_out. unfold in_page in Hx. lia. }
    split_and!; [done..| | |].
    + split; cbn; auto using settle_ok; [done|].
      eapply fl_rep_frame; [|done]. intros x Hx. apply Hout. by eapply in_pages_not.
    + intros x Hx. cbn. by rewrite memset_in.
    + done.
Qed.

(** [kfree] of a page that is not free puts it at the front of the list, fills
    it with junk after the link and writes nothing outside the page. *)
Lemma kfree_spec s l p :
  km_inv s l -> page_ok p -> p ∉ l ->
  exists s', kfree p s = Ok tt s' /\ csame (km_cpu s) (km_cpu s') /\ km_inv s' (p :: l) /\
    (forall x, ~ in_page p x -> km_mem s' x = km_mem s x) /\
    (forall x, p + 8 <= x < p + PGSIZE -> km_mem s' x = 1).
Proof.
  intros [Hc Hl Hr Hok Hd] Hp Hnin. destruct Hp as (Ha&Hk&Hph).
  set (m' := store64 (memset (km_mem s) p 1 PGSIZE) p (km_freelist s)).
  assert (Hout : forall x, ~ in_page p x -> m' x = km_mem s x).
  { intros x Hx. unfold m', in_page, PGSIZE in *. rewrite store64_out by lia. apply memset_out. lia. }
  assert (Hfl : 0 <= km_freelist s < 2 ^ 64).
  { destruct l as [|q l]; cbn in Hr; [lia|]. destruct Hr as [-> _].
    apply Forall_cons in Hok as [Hq _]. apply page_ok_range in Hq. lia. }
  exists (Km (settle (km_cpu s)) m' (freed (km_lock s)) p). split.
  - unfold kfree, aligned in *. rewrite Ha.
    destruct (Z.ltb_spec p kend); [lia|]. destruct (Z.leb_spec PHYSTOP p); [unfold PGSIZE in *; lia|].
    change (nz 0 || false || false) with false. cbn iota. unfold memsetM. erewrite bind_ok by done.
    erewrite bind_ok by (apply (acquire_run kmem_lock); done).
    do 3 (erewrite bind_ok by done).
    erewrite (release_run kmem_lock); [|apply holding_taken|done|by apply (push_noff (k:=16))].
    cbn. rewrite pop_push by done. done.
  - split; [apply csame_settle|]. split; [|split; [done|]].
    2:{ intros x Hx. cbn. unfold m', PGSIZE in *. rewrite store64_out by lia. apply memset_in. lia. }
    split; cbn; auto using settle_ok; [done| | |].
    + split; [done|]. unfold m'. rewrite load64_store64, u64_small by done.
      eapply fl_rep_frame; [|done]. intros x Hx. apply Hout.
      by apply (in_pages_not p l x).
    + by constructor.
    + by constructor.
Qed.

(** [kfree] refuses an address that is not a page of the allocator's range. *)
Lemma kfree_bad s p : ~ page_ok p -> kfree p s = Stop (Panic "kfree") s.
Proof.
  intros Hb. unfold kfree.
  replace (nz (p mod PGSIZE) || (p <? kend) || (PHYSTOP <=? p)) with true; [done|].
  symmetry. rewrite !orb_true_iff, nz_true, Z.ltb_lt, Z.leb_le.
  destruct (Z.eq_dec (p mod PGSIZE) 0) as [Ha|]; [|tauto].
  destruct (Z.lt_ge_cases p kend); [tauto|]. destruct (Z.le_gt_cases PHYSTOP p); [tauto|].
  destruct Hb. split_and!; [done..|]. destruct (aligned_mult p Ha) as [k ->]. unfold PHYSTOP, KERNBASE, PGSIZE in *. lia.
Qed.

(** * Initialisation *)

(** The [n] pages from [p] up. *)
Fixpoint pages (p : Z) (n : nat) : list Z :=
  match n with
  | O => []
  | S n' => p :: pages (p + PGSIZE) n'
  end.

Lemma elem_of_pages n : forall p q,
  q ∈ pages p n <-> exists i : nat, (i < n)%nat /\ q = p + Z.of_nat i * PGSIZE.
Proof.
  induction n as [|n IH]; intros p q; cbn [pages].
  - split; [by intros ?%elem_of_nil|intros (i&?&_); lia].
  - rewrite elem_of_cons, IH. split.
    + intros [->|(i&Hi&->)]; [exists 0%nat; lia|]. exists (S i). lia.
    + intros ([|i]&Hi&->); [left; lia|]. right. exists i. lia.
Qed.

Lemma freerange_loop_spec pa_end n : forall fuel p s l,
  km_inv s l -> aligned p -> kend <= p -> pa_end <= PHYSTOP ->
  p + Z.of_nat n * PGSIZE <= pa_end < p + (Z.of_nat n + 1) * PGSIZE ->
  (forall q, q ∈ l -> q < p) -> (n < fuel)%nat ->
  exists s', freerange_loop fuel p pa_end s = Ok tt s' /\ km_inv s' (reverse (pages p n) ++ l).
Proof.
  induction n as [|n IH]; intros [|fuel] p s l Hi Ha Hk Hph Hn Hl Hf; try lia; cbn [freerange_loop].
  - destruct (Z.leb_spec (p + PGSIZE) pa_end); [lia|]. by exists s.
  - assert (PGSIZE = 4096) as HP by done.
    destruct (Z.leb_spec (p + PGSIZE) pa_end); [|lia].
    destruct (kfree_spec s l p) as (s1&Hrun&_&Hi1&_&_).
    { done. }
    { split_and!; [done..|lia]. }
    { intros Hin. apply Hl in Hin. lia. }
    erewrite bind_ok by exact Hrun. cbn [pages]. rewrite reverse_cons, <- app_assoc.
    apply IH; try done; try lia; [by apply aligned_step|].
    intros q [->|Hq]%elem_of_cons; [lia|]. apply Hl in Hq. lia.
Qed.
End Kalloc.

(** After [kinit] the free list holds each whole page of the range from
    [PGROUNDUP(end)] to [PHYSTOP] exactly once, and nothing else; the lock is
    free. Started with the zeroed [kmem] of the loaded image, on any contents of
    physical memory. *)
Theorem kinit_correct (kend : Z) (s : kmst) :
  KERNBASE <= kend <= PHYSTOP -> cpu_ok (km_cpu s) -> km_freelist s = 0 ->
  exists s' l, kinit kend s = Ok tt s' /\ km_inv kend s' l /\
    forall p, p ∈ l <-> page_ok kend p.
Proof.
  intros Hk Hc Hf. assert (PGSIZE = 4096) as HP by done.
  destruct (PGROUNDUP_bounds kend) as [Ha Hb]; [unfold PHYSTOP, KERNBASE in *; lia|].
  set (p0 := PGROUNDUP kend) in *. set (n := Z.to_nat ((PHYSTOP - p0) / PGSIZE)).
  assert (p0 <= PHYSTOP) as Hp0.
  { destruct (aligned_mult p0 Ha) as [k Hk']. unfold PHYSTOP, KERNBASE in *. lia. }
  assert (Hn : p0 + Z.of_nat n * PGSIZE <= PHYSTOP < p0 + (Z.of_nat n + 1) * PGSIZE).
  { unfold n. rewrite Z2Nat.id by (apply Z.div_pos; lia).
    pose proof (Z.div_mod (PHYSTOP - p0) PGSIZE). pose proof (Z.mod_pos_bound (PHYSTOP - p0) PGSIZE). lia. }
  unfold kinit. erewrite bind_ok by done.
  destruct (freerange_loop_spec kend ltac:(lia) PHYSTOP n
    (S (Z.to_nat ((PHYSTOP - kend) / PGSIZE + 1))) p0
    (put kmem_lock (Spinlock 0 "kmem" None) s) []) as (s'&Hrun&Hi); try done; try lia.
  { split; cbn; auto; [done|constructor]. }
  { by intros q ?%elem_of_nil. }
  { assert ((PHYSTOP - p0) / PGSIZE <= (PHYSTOP - kend) / PGSIZE) by (apply Z.div_le_mono; lia).
    assert (0 <= (PHYSTOP - p0) / PGSIZE) by (apply Z.div_pos; lia). unfold n. lia. }
  eexists _, _. split; [exact Hrun|]. split; [exact Hi|].
  intros p. rewrite app_nil_r, elem_of_reverse, elem_of_pages. split.
  - intros (i&Hi'&->). split_and!; [by apply aligned_add|lia|lia].
  - intros (Hpa&Hpk&Hpp). exists (Z.to_nat ((p - p0) / PGSIZE)).
    destruct (aligned_mult p Hpa) as [k ->]. destruct (aligned_mult p0 Ha) as [j Hj].
    rewrite Hj in *. assert (j <= k) by lia.
    replace (k * PGSIZE - j * PGSIZE) with ((k - j) * PGSIZE) by lia.
    rewrite Z.div_mul by lia. rewrite Z2Nat.id by lia. split; [|lia].
    apply Nat2Z.inj_lt. rewrite Z2Nat.id by lia. lia.
Qed.

Definition km_boot : kmst := Km (Cpu 0 false None 0 false) (fun _ => 0) (Spinlock 0 "bss" None) 0.

Lemma kinit_correct_witness :
  exists s' l, kinit (PHYSTOP - 10000) km_boot = Ok tt s' /\ km_inv (PHYSTOP - 10000) s' l /\
    forall p, p ∈ l <-> page_ok (PHYSTOP - 10000) p.
Proof.
  apply (kinit_correct (PHYSTOP - 10000) km_boot).
  - unfold PHYSTOP, KERNBASE. lia.
  - by apply room_zero.
  - reflexivity.
Defined.

(** C32: [kalloc] and [kfree] on a well-formed allocator, whose free list is a
    duplicate-free list of pages of the range threaded through the pages.
    [kalloc] returns 0 only when no page is free, otherwise the first page of
    the list, which is no longer on it and is filled with the byte 5. [kfree] of
    any page of the range that is not free puts it in front of the list and
    fills it with the byte 1 behind the link; [kfree] of any other address (not
    aligned, below the end of the kernel or beyond the memory) panics. Both keep
    the allocator well formed, leave the lock free, and change no byte outside
    the page. *)
Theorem kalloc_kfree_correct (kend : Z) (s : kmst) (l : list Z) :
  KERNBASE <= kend -> km_inv kend s l ->
  match l with
  | [] => exists s', kalloc s = Ok 0 s' /\ km_inv kend s' [] /\ km_mem s' = km_mem s
  | p :: l' =>
      exists s1, kalloc s = Ok p s1 /\ page_ok kend p /\ (p ∉ l') /\ km_inv kend s1 l' /\
        (forall x, in_page p x -> km_mem s1 x = 5) /\
        (forall x, ~ in_page p x -> km_mem s1 x = km_mem s x)
  end /\
  (forall p, page_ok kend p -> p ∉ l ->
    exists s', kfree kend p s = Ok tt s' /\ km_inv kend s' (p :: l) /\
      (forall x, p + 8 <= x < p + PGSIZE -> km_mem s' x = 1) /\
      (forall x, ~ in_page p x -> km_mem s' x = km_mem s x)) /\
  (forall p, ~ page_ok kend p -> kfree kend p s = Stop (Panic "kfree") s).
Proof.
  intros Hk Hi. split_and!.
  - destruct (kalloc_spec kend Hk s l Hi) as (r&s1&Hrun&_&Hs).
    destruct l as [|p l]; [destruct Hs as (->&?&?); eauto|].
    destruct Hs as (->&Hp&Hnin&Hi1&Hin&Hout). by exists s1.
  - intros p Hp Hnin. destruct (kfree_spec kend Hk s l p Hi Hp Hnin) as (s2&Hrun&_&Hi2&Hout&Hin).
    by exists s2.
  - intros p. apply kfree_bad.
Qed.

(** A free list of one page. *)
Definition km_one : kmst :=
  Km (Cpu 0 false None 0 false) (fun _ => 0) (Spinlock 0 "kmem" None) (PHYSTOP - 4096).

Lemma km_one_inv : km_inv (PHYSTOP - 8192) km_one [PHYSTOP - 4096].
Proof.
  split; cbn.
  - by apply room_zero.
  - reflexivity.
  - split; reflexivity.
  - repeat constructor; unfold PHYSTOP, KERNBASE, PGSIZE; lia.
  - apply NoDup_singleton.
Qed.

Lemma kalloc_kfree_correct_witness :
  (exists s1, kalloc km_one = Ok (PHYSTOP - 4096) s1 /\ km_inv (PHYSTOP - 8192) s1 []) /\
  (exists s1, kfree (PHYSTOP - 8192) (PHYSTOP - 8192) km_one = Ok tt s1 /\
     km_inv (PHYSTOP - 8192) s1 [PHYSTOP - 8192; PHYSTOP - 4096]) /\
  kfree (PHYSTOP - 8192) (PHYSTOP - 4095) km_one = Stop (Panic "kfree") km_one /\
  kfree (PHYSTOP - 8192) (PHYSTOP - 12288) km_one = Stop (Panic "kfree") km_one /\
  kfree (PHYSTOP - 8192) PHYSTOP km_one = Stop (Panic "kfree") km_one.
Proof.
  destruct (kalloc_kfree_correct (PHYSTOP - 8192) km_one [PHYSTOP - 4096]) as (H1&H2&H3);
    [unfold PHYSTOP, KERNBASE; lia|exact km_one_inv|].
  split; [|split; [|split; [|split]]].
  - destruct H1 as (s1&?&_&_&?&_). by exists s1.
  - destruct (H2 (PHYSTOP - 8192)) as (s1&?&?&_).
    + unfold page_ok, PHYSTOP, KERNBASE, PGSIZE. split; [done|lia].
    + rewrite list_elem_of_singleton. unfold PHYSTOP, KERNBASE. lia.
    + by exists s1.
  - apply H3. by intros [? _].
  - apply H3. unfold page_ok, PHYSTOP, KERNBASE. lia.
  - apply H3. unfold page_ok, PHYSTOP, KERNBASE, PGSIZE. lia.
Defined.
