(* ===== verification/Vm.v ===== *)
(** Virtual memory: [src/kernel/vm.c].

    A page table is a tree of pages in physical memory; a [pagetable_t] is the
    physical address of its root and a [pte_t *] the physical address of an
    eight-byte entry, 0 for the null pointer. Every function of [vm.c] that
    reads or changes page tables is here, on the state of the page allocator.
    Buffers of the kernel that [copyout] reads and [copyin] fills are byte
    lists. *)

From S2P Require Import Prelude Params Spinlock Cstring Kalloc.
Local Open Scope kernel_scope.

Section Vm.
Variable kend : Z.

(** The loop of [walk]: [level] counts down to 0. *)
Fixpoint walk_loop (level : nat) (pagetable va : Z) (alloc : bool) : M kmst Z :=
  match level with
  | O => ret (pagetable + 8 * PX 0 va)
  | S level' =>
      let pte := pagetable + 8 * PX (Z.of_nat level) va in
      v <- read64 pte ;;
      if nz (Z.land v PTE_V) then walk_loop level' (PTE2PA v) va alloc
      else if negb alloc then ret 0
      else
        pagetable' <- kalloc ;;
        if pagetable' =? 0 then ret 0 else
        memsetM pagetable' 0 PGSIZE ;;
        write64 pte (Z.lor (PA2PTE pagetable') PTE_V) ;;
        walk_loop level' pagetable' va alloc
  end.

Definition walk (pagetable va : Z) (alloc : bool) : M kmst Z :=
  if MAXVA <=? va then panic "walk" else walk_loop 2 pagetable va alloc.

Definition walkaddr (pagetable va : Z) : M kmst Z :=
  if MAXVA <=? va then ret 0 else
  pte <- walk pagetable va false ;;
  if pte =? 0 then ret 0 else
  v <- read64 pte ;;
  if Z.land v PTE_V =? 0 then ret 0 else
  if Z.land v PTE_U =? 0 then ret 0 else
  ret (PTE2PA v).

(** One round of [mappages]: the page [a] to the frame [pa]. *)
Definition mappages_step (pagetable last perm : Z) (v : Z * Z) : M kmst (Z * Z + Z) :=
  let '(a, pa) := v in
  pte <- walk pagetable a true ;;
  if pte =? 0 then ret (inr (-1)) else
  v <- read64 pte ;;
  if nz (Z.land v PTE_V) then panic "mappages: remap" else
  write64 pte (Z.lor (Z.lor (PA2PTE pa) perm) PTE_V) ;;
  if a =? last then ret (inr 0) else
  ret (inl (u64 (a + PGSIZE), u64 (pa + PGSIZE))).

Definition mappages (pagetable va size pa perm : Z) : M kmst Z :=
  if size =? 0 then panic "mappages: size" else
  let last := PGROUNDDOWN (u64 (va + size - 1)) in
  loop (mappages_step pagetable last perm) (PGROUNDDOWN va, pa).

Definition kvmmap (kpgtbl va pa sz perm : Z) : M kmst unit :=
  r <- mappages kpgtbl va sz pa perm ;;
  if nz r then panic "kvmmap" else ret tt.

(** One round of [uvmunmap]. *)
Definition uvmunmap_step (pagetable stop : Z) (do_free : bool) (a : Z) : M kmst (Z + unit) :=
  if a <? stop then
    pte <- walk pagetable a false ;;
    if pte =? 0 then panic "uvmunmap: walk" else
    v <- read64 pte ;;
    if Z.land v PTE_V =? 0 then panic "uvmunmap: not mapped" else
    if PTE_FLAGS v =? PTE_V then panic "uvmunmap: not a leaf" else
    when do_free (kfree kend (PTE2PA v)) ;;
    write64 pte 0 ;;
    ret (inl (u64 (a + PGSIZE)))
  else ret (inr tt).

Definition uvmunmap (pagetable va npages : Z) (do_free : bool) : M kmst unit :=
  if nz (va mod PGSIZE) then panic "uvmunmap: not aligned" else
  loop (uvmunmap_step pagetable (u64 (va + npages * PGSIZE)) do_free) va.

Definition uvmcreate : M kmst Z :=
  pagetable <- kalloc ;;
  if pagetable =? 0 then ret 0 else
  memsetM pagetable 0 PGSIZE ;;
  ret pagetable.

(** The code checks neither [kalloc] nor [mappages]; [memset] of the null page
    is undefined. *)
Definition uvminit (pagetable : Z) (src : list Z) (sz : Z) : M kmst unit :=
  if PGSIZE <=? sz then panic "inituvm: more than a page" else
  mem <- kalloc ;;
  if mem =? 0 then fault "uvminit: null page" else
  memsetM mem 0 PGSIZE ;;
  mappages pagetable 0 PGSIZE mem (Z.lor (Z.lor (Z.lor PTE_W PTE_R) PTE_X) PTE_U) ;;
  upd_mem (fun m => store_bytes m mem (take (Z.to_nat sz) src)).

Definition uvmdealloc (pagetable oldsz newsz : Z) : M kmst Z :=
  if oldsz <=? newsz then ret oldsz else
  when (PGROUNDUP newsz <? PGROUNDUP oldsz)
    (let npages := s32 ((PGROUNDUP oldsz - PGROUNDUP newsz) / PGSIZE) in
     uvmunmap pagetable (PGROUNDUP newsz) (u64 npages) true) ;;
  ret newsz.

Definition uvmalloc_step (pagetable oldsz newsz a : Z) : M kmst (Z + Z) :=
  if a <? newsz then
    mem <- kalloc ;;
    if mem =? 0 then
      uvmdealloc pagetable a oldsz ;;
      ret (inr 0)
    else
      memsetM mem 0 PGSIZE ;;
      r <- mappages pagetable a PGSIZE mem (Z.lor (Z.lor (Z.lor PTE_W PTE_X) PTE_R) PTE_U) ;;
      if nz r then
        kfree kend mem ;;
        uvmdealloc pagetable a oldsz ;;
        ret (inr 0)
      else ret (inl (u64 (a + PGSIZE)))
  else ret (inr newsz).

Definition uvmalloc (pagetable oldsz newsz : Z) : M kmst Z :=
  if newsz <? oldsz then ret oldsz else
  let oldsz := PGROUNDUP oldsz in
  loop (uvmalloc_step pagetable oldsz newsz) oldsz.

(** [freewalk] recurses along the tree; [depth] bounds the recursion, three
    being the depth of a page table. *)
Fixpoint freewalk (depth : nat) (pagetable : Z) : M kmst unit :=
  match depth with
  | O => halt NoFuel
  | S depth' =>
      forM (seqZ 0 512) (fun i =>
        pte <- read64 (pagetable + 8 * i) ;;
        if nz (Z.land pte PTE_V) && (Z.land pte (Z.lor (Z.lor PTE_R PTE_W) PTE_X) =? 0) then
          freewalk depth' (PTE2PA pte) ;;
          write64 (pagetable + 8 * i) 0
        else if nz (Z.land pte PTE_V) then panic "freewalk: leaf"
        else ret tt) ;;
      kfree kend pagetable
  end.

Definition uvmfree (pagetable sz : Z) : M kmst unit :=
  when (0 <? sz) (uvmunmap pagetable 0 (PGROUNDUP sz / PGSIZE) true) ;;
  freewalk 3 pagetable.

Definition uvmcopy_err (new i : Z) : M kmst (Z + Z) :=
  uvmunmap new 0 (i / PGSIZE) true ;;
  ret (inr (-1)).

Definition uvmcopy_step (old new sz i : Z) : M kmst (Z + Z) :=
  if i <? sz then
    pte <- walk old i false ;;
    if pte =? 0 then panic "uvmcopy: pte should exist" else
    v <- read64 pte ;;
    if Z.land v PTE_V =? 0 then panic "uvmcopy: page not present" else
    let pa := PTE2PA v in
    let flags := PTE_FLAGS v in
    mem <- kalloc ;;
    if mem =? 0 then uvmcopy_err new i else
    upd_mem (fun m => memmove m mem pa PGSIZE) ;;
    r <- mappages new i PGSIZE mem flags ;;
    if nz r then
      kfree kend mem ;;
      uvmcopy_err new i
    else ret (inl (u64 (i + PGSIZE)))
  else ret (inr 0).

Definition uvmcopy (old new sz : Z) : M kmst Z := loop (uvmcopy_step old new sz) 0.

Definition uvmclear (pagetable va : Z) : M kmst unit :=
  pte <- walk pagetable va false ;;
  if pte =? 0 then panic "uvmclear" else
  v <- read64 pte ;;
  write64 pte (Z.land v (Z.lnot PTE_U)).

(** [copyout]: the loop variables are [len], [src] and [dstva]. *)
Definition copyout_step (pagetable : Z) (v : Z * list Z * Z) : M kmst (Z * list Z * Z + Z) :=
  let '(len, src, dstva) := v in
  if 0 <? len then
    let va0 := PGROUNDDOWN dstva in
    pa0 <- walkaddr pagetable va0 ;;
    if pa0 =? 0 then ret (inr (-1)) else
    let n := PGSIZE - (dstva - va0) in
    let n := if len <? n then len else n in
    upd_mem (fun m => store_bytes m (pa0 + (dstva - va0)) (take (Z.to_nat n) src)) ;;
    ret (inl (len - n, drop (Z.to_nat n) src, u64 (va0 + PGSIZE)))
  else ret (inr 0).

Definition copyout (pagetable dstva : Z) (src : list Z) (len : Z) : M kmst Z :=
  loop (copyout_step pagetable) (len, src, dstva).

(** [copyin] returns what it has stored at [dst] with its result. *)
Definition copyin_step (pagetable : Z) (v : Z * list Z * Z) : M kmst (Z * list Z * Z + Z * list Z) :=
  let '(len, dst, srcva) := v in
  if 0 <? len then
    let va0 := PGROUNDDOWN srcva in
    pa0 <- walkaddr pagetable va0 ;;
    if pa0 =? 0 then ret (inr (-1, dst)) else
    let n := PGSIZE - (srcva - va0) in
    let n := if len <? n then len else n in
    bytes <- gets (fun s => load_bytes (km_mem s) (pa0 + (srcva - va0)) (Z.to_nat n)) ;;
    ret (inl (len - n, dst ++ bytes, u64 (va0 + PGSIZE)))
  else ret (inr (0, dst)).

Definition copyin (pagetable srcva len : Z) : M kmst (Z * list Z) :=
  loop (copyin_step pagetable) (len, [], srcva).

(** The inner loop of [copyinstr]: up to [n] bytes at [p], stopping at a NUL;
    what is stored at [dst], and whether the NUL was found. *)
Fixpoint copyinstr_page (m : memory) (p : Z) (n : nat) : list Z * bool :=
  match n with
  | O => ([], false)
  | S n' =>
      if load8 m p =? 0 then ([0], true)
      else let '(l, got) := copyinstr_page m (p + 1) n' in (load8 m p :: l, got)
  end.

Definition copyinstr_step (pagetable : Z) (v : Z * list Z * Z) : M kmst (Z * list Z * Z + Z * list Z) :=
  let '(max, dst, srcva) := v in
  if 0 <? max then
    let va0 := PGROUNDDOWN srcva in
    pa0 <- walkaddr pagetable va0 ;;
    if pa0 =? 0 then ret (inr (-1, dst)) else
    let n := PGSIZE - (srcva - va0) in
    let n := if max <? n then max else n in
    r <- gets (fun s => copyinstr_page (km_mem s) (pa0 + (srcva - va0)) (Z.to_nat n)) ;;
    let '(bytes, got_null) := r in
    if got_null : bool then ret (inr (0, dst ++ bytes))
    else ret (inl (max - n, dst ++ bytes, u64 (va0 + PGSIZE)))
  else ret (inr (-1, dst)).

Definition copyinstr (pagetable srcva max : Z) : M kmst (Z * list Z) :=
  loop (copyinstr_step pagetable) (max, [], srcva).
End Vm.
