(* ===== verification/PageTable.v ===== *)
(** What a page table means, and that [walk] and [mappages] of
    [src/kernel/vm.c] implement it.

    The abstract page table is a finite map [T] from index paths to the pages
    that hold the tables: the root at [[]], second-level tables at [[i2]],
    third-level tables at [[i2; i1]]. [pt_inv] relates it to the bytes in
    memory. [leaf T m va] is the entry for a virtual address, 0 when a table on
    the way is missing: the function from pages to entries that the operations
    of [vm.c] change. *)

From S2P Require Import Prelude Params Spinlock Cstring Kalloc Vm.
Local Open Scope kernel_scope.

Abbreviation ptree := (gmap (list Z) Z).

Section PageTable.
Variable kend : Z.
Hypothesis kend_pos : KERNBASE <= kend.
Implicit Types (T : ptree) (m : memory) (s : kmst) (l : list Z).

(** An interior entry: empty, or a pointer to the table below. *)
Definition interior_ok (m : memory) (T : ptree) (path : list Z) (pa i : Z) : Prop :=
  let e := load64 m (pa + 8 * i) in
  match T !! (path ++ [i]) with
  | Some child => e = Z.lor (PA2PTE child) PTE_V
  | None => Z.land e PTE_V = 0
  end.

Record pt_inv (m : memory) (root : Z) (T : ptree) : Prop := {
  pti_root : T !! [] = Some root;
  pti_len path pa : T !! path = Some pa -> (length path <= 2)%nat;
  pti_ok path pa : T !! path = Some pa -> page_ok kend pa;
  pti_inj path path' pa : T !! path = Some pa -> T !! path' = Some pa -> path = path';
  pti_up path i pa : T !! (path ++ [i]) = Some pa -> is_Some (T !! path) /\ 0 <= i < 512;
  pti_down path pa i : T !! path = Some pa -> (length path < 2)%nat -> 0 <= i < 512 ->
    interior_ok m T path pa i;
  pti_low i path pa : T !! (i :: path) = Some pa -> i < 256;
}.

Definition is_table (T : ptree) (pa : Z) : Prop := exists path, T !! path = Some pa.
Definition in_tables (T : ptree) (x : Z) : Prop := exists pa, is_table T pa /\ in_page pa x.

(** The table that holds the entry of [va], and the entry. *)
Definition table_of (T : ptree) (va : Z) : option Z := T !! [PX 2 va; PX 1 va].
Definition slot (T : ptree) (va : Z) : Z :=
  match table_of T va with Some pa => pa + 8 * PX 0 va | None => 0 end.
Definition leaf (T : ptree) (m : memory) (va : Z) : Z :=
  match table_of T va with Some pa => load64 m (pa + 8 * PX 0 va) | None => 0 end.

(** The allocator and one page table, sharing no page. *)
Record vm_inv (s : kmst) (root : Z) (T : ptree) (l : list Z) : Prop := {
  vmi_km : km_inv kend s l;
  vmi_pt : pt_inv (km_mem s) root T;
  vmi_disj pa : is_table T pa -> pa ∉ l;
}.

Lemma land_PTE_V_table pa :
  page_ok kend pa -> Z.land (Z.lor (PA2PTE pa) PTE_V) PTE_V = 1.
Proof.
  intros Hp. destruct Hp as (Ha&Hr). rewrite land_PTE_PA2PTE; [done|done| |done|done].
  by apply (page_ok_range kend).
Qed.

Lemma PTE2PA_table pa :
  page_ok kend pa -> PTE2PA (Z.lor (PA2PTE pa) PTE_V) = pa.
Proof.
  intros Hp. destruct Hp as (Ha&Hr). apply PTE2PA_PA2PTE; [done| |done].
  by apply (page_ok_range kend).
Qed.

(** * [walk] without allocation *)

Lemma walk_loop_step_some level m root T path pa va alloc s child :
  pt_inv m root T -> km_mem s = m -> T !! path = Some pa -> (length path + S level = 2)%nat ->
  T !! (path ++ [PX (Z.of_nat (S level)) va]) = Some child ->
  walk_loop (S level) pa va alloc s = walk_loop level child va alloc s.
Proof.
  intros Hi Hm Hp Hlen Hc. cbn [walk_loop]. unfold read64, gets. erewrite bind_ok by done.
  rewrite Hm. pose proof (pti_down _ _ _ Hi path pa _ Hp ltac:(lia) (PX_range (Z.of_nat (S level)) va ltac:(lia))) as Hd.
  unfold interior_ok in Hd. rewrite Hc in Hd. rewrite Hd.
  pose proof (pti_ok _ _ _ Hi _ _ Hc) as Hok. rewrite land_PTE_V_table by done.
  change (nz 1) with true. cbn iota. by rewrite PTE2PA_table.
Qed.

Lemma walk_loop_step_none level m root T path pa va s :
  pt_inv m root T -> km_mem s = m -> T !! path = Some pa -> (length path + S level = 2)%nat ->
  T !! (path ++ [PX (Z.of_nat (S level)) va]) = None ->
  walk_loop (S level) pa va false s = Ok 0 s.
Proof.
  intros Hi Hm Hp Hlen Hc. cbn [walk_loop]. unfold read64, gets. erewrite bind_ok by done.
  rewrite Hm. pose proof (pti_down _ _ _ Hi path pa _ Hp ltac:(lia) (PX_range (Z.of_nat (S level)) va ltac:(lia))) as Hd.
  unfold interior_ok in Hd. rewrite Hc in Hd. rewrite Hd. done.
Qed.

Lemma table_of_parent m root T va :
  pt_inv m root T -> T !! [PX 2 va] = None -> table_of T va = None.
Proof.
  intros Hi Hn. unfold table_of. destruct (T !! [PX 2 va; PX 1 va]) eqn:E; [|done].
  change [PX 2 va; PX 1 va] with ([PX 2 va] ++ [PX 1 va]) in E.
  apply (pti_up _ _ _ Hi) in E as [[? Hs] _]. congruence.
Qed.

Lemma slot_nonzero m root T va pa : pt_inv m root T -> table_of T va = Some pa -> 0 < pa + 8 * PX 0 va.
Proof.
  intros Hi Ht. apply (pti_ok _ _ _ Hi) in Ht. apply (page_ok_pos kend kend_pos) in Ht.
  pose proof (PX_range 0 va). lia.
Qed.

(** [walk] finds the slot of the abstract page table and changes nothing. *)
Lemma walk_noalloc s root T va :
  pt_inv (km_mem s) root T -> 0 <= va < MAXVA -> walk root va false s = Ok (slot T va) s.
Proof.
  intros Hi Hva. unfold walk. destruct (Z.leb_spec MAXVA va); [lia|].
  unfold slot. pose proof (pti_root _ _ _ Hi) as Hroot.
  destruct (T !! [PX 2 va]) as [t1|] eqn:E1.
  - erewrite (walk_loop_step_some 1 _ root T []); [|done..|done].
    unfold table_of. destruct (T !! [PX 2 va; PX 1 va]) as [t0|] eqn:E0.
    + erewrite (walk_loop_step_some 0 _ root T [PX 2 va]); done.
    + by erewrite (walk_loop_step_none 0 _ root T [PX 2 va]).
  - erewrite (walk_loop_step_none 1 _ root T []); [|done..|done].
    by rewrite (table_of_parent (km_mem s) root).
Qed.

(** When the tables are there, [walk] finds the entry, allocating or not. *)
Lemma walk_present s root T va alloc t :
  pt_inv (km_mem s) root T -> 0 <= va < MAXVA -> table_of T va = Some t ->
  walk root va alloc s = Ok (t + 8 * PX 0 va) s.
Proof.
  intros Hi Hva Ht. unfold walk. destruct (Z.leb_spec MAXVA va); [lia|].
  destruct (T !! [PX 2 va]) as [t1|] eqn:E1; [|by rewrite (table_of_parent _ _ _ _ Hi E1) in Ht].
  rewrite (walk_loop_step_some 1 _ root T [] root va alloc s t1 Hi eq_refl (pti_root _ _ _ Hi)) by done.
  by rewrite (walk_loop_step_some 0 _ root T [PX 2 va] t1 va alloc s t Hi eq_refl E1).
Qed.

Lemma walk_panics s pagetable va alloc :
  MAXVA <= va -> walk pagetable va alloc s = Stop (Panic "walk") s.
Proof. intros. unfold walk. by destruct (Z.leb_spec MAXVA va); [|lia]. Qed.

(** * Frames *)

(** Entries of different tables, or different entries of one, do not overlap. *)
Lemma entries_disjoint pa i pa' i' :
  page_ok kend pa -> page_ok kend pa' -> 0 <= i < 512 -> 0 <= i' < 512 -> (pa, i) <> (pa', i') ->
  pa' + 8 * i' + 8 <= pa + 8 * i \/ pa + 8 * i + 8 <= pa' + 8 * i'.
Proof.
  intros Hp Hp' Hi Hi' Hne. destruct (decide (pa = pa')) as [->|Hd].
  - destruct (decide (i = i')) as [->|]; [done|]. lia.
  - destruct Hp as (Ha&_), Hp' as (Ha'&_).
    destruct (aligned_disjoint pa pa' Ha Ha' Hd); unfold PGSIZE in *; lia.
Qed.

Lemma entry_in_page pa i x : 0 <= i < 512 -> pa + 8 * i <= x < pa + 8 * i + 8 -> in_page pa x.
Proof. intros. unfold in_page, PGSIZE. lia. Qed.

(** Memory outside the tables does not matter. *)
Lemma pt_inv_frame m m' root T :
  pt_inv m root T -> (forall x, in_tables T x -> m' x = m x) -> pt_inv m' root T.
Proof.
  intros [] Hm. split; try done. intros path pa i Hp Hl Hi. unfold interior_ok.
  replace (load64 m' (pa + 8 * i)) with (load64 m (pa + 8 * i)); [by apply pti_down0|].
  apply load64_ext. intros x Hx. symmetry. apply Hm. exists pa. split; [by exists path|].
  by apply (entry_in_page pa i).
Qed.

Lemma leaf_frame m m' root T va :
  pt_inv m root T -> (forall x, in_tables T x -> m' x = m x) -> leaf T m' va = leaf T m va.
Proof.
  intros Hi Hm. unfold leaf. destruct (table_of T va) as [pa|] eqn:E; [|done].
  apply load64_ext. intros x Hx. apply Hm. exists pa. split; [by eexists|].
  apply (entry_in_page pa (PX 0 va)); [by apply PX_range|done].
Qed.

(** A store to a last-level entry keeps the tree. *)
Lemma pt_inv_store_leaf m root T va pa v :
  pt_inv m root T -> table_of T va = Some pa -> pt_inv (store64 m (pa + 8 * PX 0 va) v) root T.
Proof.
  intros Hi Ht. pose proof Hi as []. split; try done. intros path pa' i Hp Hl Hii. unfold interior_ok.
  rewrite load64_store64_out; [by apply pti_down0|].
  apply entries_disjoint; [by eapply pti_ok0|by eapply pti_ok0|by apply PX_range|done|].
  intros [= -> _]. pose proof (pti_inj0 _ _ _ Hp Ht) as ->. cbn in Hl. lia.
Qed.

(** Addresses of different pages have different entries. *)
Lemma slot_inj m root T va va' pa :
  pt_inv m root T -> 0 <= va < MAXVA -> 0 <= va' < MAXVA ->
  table_of T va = Some pa -> table_of T va' = Some pa -> PX 0 va = PX 0 va' ->
  PGROUNDDOWN va = PGROUNDDOWN va'.
Proof.
  intros Hi Hva Hva' Ht Ht' H0. pose proof (pti_inj _ _ _ Hi _ _ _ Ht Ht') as [= H2 H1].
  unfold MAXVA in *. apply PX_inj; (done || lia).
Qed.

Lemma leaf_store m root T va va' pa v :
  pt_inv m root T -> 0 <= va < MAXVA -> 0 <= va' < MAXVA -> table_of T va = Some pa ->
  leaf T (store64 m (pa + 8 * PX 0 va) v) va' =
    if PGROUNDDOWN va' =? PGROUNDDOWN va then u64 v else leaf T m va'.
Proof.
  intros Hi Hva Hva' Ht. unfold leaf. destruct (Z.eqb_spec (PGROUNDDOWN va') (PGROUNDDOWN va)) as [E|E].
  - assert (forall k, 0 <= k -> PX k va' = PX k va) as HPX.
    { intros k Hk. by rewrite <- (PX_PGROUNDDOWN k va'), <- (PX_PGROUNDDOWN k va), E. }
    unfold table_of in *. rewrite !HPX, Ht by lia. by rewrite load64_store64.
  - destruct (table_of T va') as [pa'|] eqn:Ht'; [|done].
    apply load64_store64_out. apply entries_disjoint;
      [by eapply pti_ok|by eapply pti_ok|by apply PX_range|by apply PX_range|].
    intros [= -> H0]. apply E. by eapply (slot_inj m root T va' va pa').
Qed.

(** * [walk] with allocation *)

(** What an operation that may extend the tree does to memory: the tree grows by
    pages taken from the front of the free list, and no byte changes outside the
    tables and the pages taken. *)
Record grows (s : kmst) (T : ptree) (l : list Z) (s' : kmst) (T' : ptree) (l' : list Z) : Prop := {
  gr_cpu : csame (km_cpu s) (km_cpu s');
  gr_sub : T ⊆ T';
  gr_free : exists new, l = new ++ l' /\ (forall pa, is_table T' pa <-> is_table T pa \/ pa ∈ new) /\
    (forall x, ~ in_tables T x -> ~ in_pages new x -> km_mem s' x = km_mem s x);
}.

(** The same, and no entry changes. *)
Definition extends (s : kmst) (T : ptree) (l : list Z) (s' : kmst) (T' : ptree) (l' : list Z) : Prop :=
  grows s T l s' T' l' /\
  forall va, 0 <= va < MAXVA -> leaf T' (km_mem s') va = leaf T (km_mem s) va.

Lemma grows_refl s T l : grows s T l s T l.
Proof.
  split; [done|done|]. exists []. split; [done|]. split; [|done].
  intros pa. rewrite elem_of_nil. tauto.
Qed.

Lemma in_pages_app l1 l2 x : in_pages (l1 ++ l2) x <-> in_pages l1 x \/ in_pages l2 x.
Proof.
  unfold in_pages. split.
  - intros (p&[Hp|Hp]%elem_of_app&Hx); [left|right]; eauto.
  - intros [(p&Hp&Hx)|(p&Hp&Hx)]; exists p; (split; [apply elem_of_app; auto|done]).
Qed.

Lemma grows_trans s T l s1 T1 l1 s2 T2 l2 :
  grows s T l s1 T1 l1 -> grows s1 T1 l1 s2 T2 l2 -> grows s T l s2 T2 l2.
Proof.
  intros [C1 S1 (n1&->&Ht1&Hm1)] [C2 S2 (n2&->&Ht2&Hm2)]. split.
  - by etransitivity.
  - by etransitivity.
  - exists (n1 ++ n2). split; [by rewrite app_assoc|]. split.
    + intros pa. rewrite elem_of_app, Ht2, Ht1. tauto.
    + intros x Hx Hn. rewrite in_pages_app in Hn. rewrite Hm2, Hm1; [done| |tauto| |tauto]; [done|].
      intros (pa&Hpa&Hin). apply Ht1 in Hpa as [H|H].
      * apply Hx. by exists pa.
      * apply Hn. left. by exists pa.
Qed.

Lemma extends_refl s T l : extends s T l s T l.
Proof. split; [apply grows_refl|done]. Qed.

Lemma extends_trans s T l s1 T1 l1 s2 T2 l2 :
  extends s T l s1 T1 l1 -> extends s1 T1 l1 s2 T2 l2 -> extends s T l s2 T2 l2.
Proof.
  intros [G1 L1] [G2 L2]. split; [by eapply grows_trans|]. intros va Hva. by rewrite L2, L1.
Qed.

(** Linking an empty table into the tree. *)
Lemma pt_inv_add m m' root T path pa i p :
  pt_inv m root T -> T !! path = Some pa -> (length path < 2)%nat -> 0 <= i < 512 ->
  T !! (path ++ [i]) = None -> (forall j rest, path ++ [i] = j :: rest -> j < 256) ->
  page_ok kend p -> ~ is_table T p ->
  load64 m' (pa + 8 * i) = Z.lor (PA2PTE p) PTE_V ->
  (forall x, in_page p x -> m' x = 0) ->
  (forall x, ~ in_page p x -> ~ (pa + 8 * i <= x < pa + 8 * i + 8) -> m' x = m x) ->
  pt_inv m' root (<[path ++ [i] := p]> T) /\
  forall va, leaf (<[path ++ [i] := p]> T) m' va = leaf T m va.
Proof.
  intros Hi Hp Hl Hii Hnone Hlow Hpok Hnt Hent Hzero Hout. pose proof Hi as [].
  assert (Hold : forall q j, is_table T q -> 0 <= j < 512 -> (q, j) <> (pa, i) ->
    load64 m' (q + 8 * j) = load64 m (q + 8 * j)).
  { intros q j [pq Hq] Hj Hne. apply load64_ext. intros x Hx.
    apply Hout.
    - intros Hpx. assert (q <> p) by (intros ->; apply Hnt; by exists pq).
      apply (pages_disjoint kend q p x (pti_ok0 _ _ Hq) Hpok); [done| |done].
      by apply (entry_in_page q j).
    - pose proof (entries_disjoint q j pa i (pti_ok0 _ _ Hq) (pti_ok0 _ _ Hp) Hj Hii Hne). lia. }
  assert (Hzero64 : forall j, 0 <= j < 512 -> load64 m' (p + 8 * j) = 0).
  { intros j Hj. rewrite (load64_ext m' (fun _ => 0)); [done|]. intros x Hx. apply Hzero.
    by apply (entry_in_page p j). }
  assert (Hkids : forall j, T !! ((path ++ [i]) ++ [j]) = None).
  { intros j. destruct (T !! ((path ++ [i]) ++ [j])) eqn:E; [|done]. apply pti_up0 in E as [[? E] _]. congruence. }
  split.
  - split.
    + rewrite lookup_insert_ne by (by destruct path). done.
    + intros q qa. rewrite lookup_insert. case_decide as E; [|apply pti_len0].
      intros _. rewrite <- E, length_app. cbn. lia.
    + intros q qa. rewrite lookup_insert. case_decide; [by intros [= <-]|apply pti_ok0].
    + intros q q' qa. rewrite !lookup_insert. repeat case_decide; try congruence.
      * intros [= <-] Hq. destruct Hnt. by exists q'.
      * intros Hq [= <-]. destruct Hnt. by exists q.
      * apply pti_inj0.
    + intros q j qa. rewrite lookup_insert. case_decide as E.
      * intros _. apply app_inj_tail in E as [-> ->]. split; [|done].
        rewrite lookup_insert_ne; [by eexists|]. intros Hx. apply (f_equal length) in Hx.
        rewrite length_app in Hx. cbn in Hx. lia.
      * intros Hq. apply pti_up0 in Hq as [[x Hx] ?]. split; [|done].
        rewrite lookup_insert. case_decide; by eexists.
    + intros q qa j Hq Hql Hj. unfold interior_ok.
      rewrite lookup_insert in Hq. case_decide as Eq.
      * injection Hq as <-. subst q. rewrite length_app in Hql.
        rewrite lookup_insert_ne; [|intros Hx; apply (f_equal length) in Hx; rewrite !length_app in Hx; cbn in Hx; lia].
        rewrite Hkids, Hzero64 by done. done.
      * rewrite lookup_insert. case_decide as Ej.
        -- apply app_inj_tail in Ej as [-> ->]. rewrite Hp in Hq. by injection Hq as <-.
        -- assert ((qa, j) <> (pa, i)).
           { intros [= -> ->]. apply Ej. by rewrite (pti_inj0 _ _ _ Hq Hp). }
           rewrite Hold by (try done; by exists q). by apply (pti_down0 q qa j).
    + intros j q qa. rewrite lookup_insert. case_decide as E; [intros _; by eapply Hlow|apply pti_low0].
  - intros va. unfold leaf, table_of. rewrite lookup_insert. case_decide as E.
    + rewrite <- E, Hnone. apply Hzero64. by apply PX_range.
    + destruct (T !! [PX 2 va; PX 1 va]) as [q|] eqn:Eq; [|done].
      apply Hold; [by eexists|by apply PX_range|].
      intros [= -> _]. pose proof (pti_inj0 _ _ _ Eq Hp) as <-. cbn in Hl. lia.
Qed.

(** The state after [walk] has linked the page [p] that [kalloc] gave it. *)
Definition linked (s1 : kmst) (pa i p : Z) : kmst :=
  set_mem (store64 (memset (km_mem s1) p 0 PGSIZE) (pa + 8 * i) (Z.lor (PA2PTE p) PTE_V)) s1.

Lemma linked_out s1 pa i p x :
  ~ in_page p x -> ~ (pa + 8 * i <= x < pa + 8 * i + 8) -> km_mem (linked s1 pa i p) x = km_mem s1 x.
Proof. intros Hx Hn. unfold linked, in_page in *. cbn. rewrite store64_out, memset_out; [done|lia|lia]. Qed.

Lemma linked_tree s s1 root T p l path pa i :
  vm_inv s root T (p :: l) -> T !! path = Some pa -> (length path < 2)%nat -> 0 <= i < 512 ->
  T !! (path ++ [i]) = None -> (forall j rest, path ++ [i] = j :: rest -> j < 256) ->
  (forall x, ~ in_page p x -> km_mem s1 x = km_mem s x) ->
  pt_inv (km_mem (linked s1 pa i p)) root (<[path ++ [i] := p]> T) /\
  forall va, leaf (<[path ++ [i] := p]> T) (km_mem (linked s1 pa i p)) va = leaf T (km_mem s) va.
Proof.
  intros [Hk Hi Hd] Hp Hl Hii Hnone Hlow Hout.
  destruct (Forall_cons_1 _ _ _ (kmi_ok _ _ _ Hk)) as [Hpok _].
  assert (Hnt : ~ is_table T p) by (intros Hx; apply Hd in Hx; apply Hx; by left).
  apply pt_inv_add with (pa := pa); try done.
  - unfold linked. cbn. rewrite load64_store64. apply u64_small.
    apply PTE_range; [apply Hpok|by apply (page_ok_range kend)|done].
  - intros x Hx. unfold linked. cbn. rewrite store64_out; [by rewrite memset_in|].
    destruct (decide (pa + 8 * i <= x < pa + 8 * i + 8)) as [Hc|]; [|lia].
    exfalso. apply (pages_disjoint kend p pa x); try done; [by eapply pti_ok| |by apply (entry_in_page pa i)].
    intros ->. apply Hnt. by eexists.
  - intros x Hx Hn. by rewrite linked_out, Hout.
Qed.

Lemma linked_inv s s1 root T p l path pa i :
  vm_inv s root T (p :: l) -> km_inv kend s1 l -> T !! path = Some pa -> (length path < 2)%nat ->
  0 <= i < 512 -> T !! (path ++ [i]) = None -> (forall j rest, path ++ [i] = j :: rest -> j < 256) ->
  (forall x, ~ in_page p x -> km_mem s1 x = km_mem s x) ->
  vm_inv (linked s1 pa i p) root (<[path ++ [i] := p]> T) l.
Proof.
  intros Hv Hk1 Hp Hl Hii Hnone Hlow Hout.
  destruct (linked_tree s s1 root T p l path pa i) as [Hi2 _]; try done.
  destruct Hv as [Hk Hi Hd]. destruct (Forall_cons_1 _ _ _ (kmi_ok _ _ _ Hk)) as [Hpok _].
  pose proof (NoDup_cons_1_1 _ _ (kmi_dup _ _ _ Hk)) as Hnin.
  split; [|done|].
  - destruct Hk1 as [Hc Hlk Hr Hok Hdup]. split; try done.
    eapply fl_rep_frame; [|done]. intros x Hx. apply linked_out; [by apply (in_pages_not kend p l x)|].
    intros Hc'. apply (in_pages_not kend pa l x); try done; [exact (pti_ok _ _ _ Hi _ _ Hp)| |by apply (entry_in_page pa i)].
    intros Hx'. apply (Hd pa); [by eexists|by right].
  - intros q [pq Hq]. rewrite lookup_insert in Hq. case_decide.
    + by injection Hq as <-.
    + intros Hx. apply (Hd q); [by eexists|by right].
Qed.

Lemma linked_extends s s1 root T p l path pa i :
  vm_inv s root T (p :: l) -> csame (km_cpu s) (km_cpu s1) -> T !! path = Some pa -> (length path < 2)%nat ->
  0 <= i < 512 -> T !! (path ++ [i]) = None -> (forall j rest, path ++ [i] = j :: rest -> j < 256) ->
  (forall x, ~ in_page p x -> km_mem s1 x = km_mem s x) ->
  extends s T (p :: l) (linked s1 pa i p) (<[path ++ [i] := p]> T) l.
Proof.
  intros Hv Hcs Hp Hl Hii Hnone Hlow Hout.
  destruct (linked_tree s s1 root T p l path pa i) as [_ Hl2]; try done.
  split; [split|].
  - exact Hcs.
  - by apply insert_subseteq.
  - exists [p]. split; [done|]. split.
    + intros q. rewrite list_elem_of_singleton. split.
      * intros [pq Hq]. rewrite lookup_insert in Hq. case_decide.
        -- right. by injection Hq as <-.
        -- left. by eexists.
      * intros [[pq Hq] | ->]; [|exists (path ++ [i]); apply lookup_insert_eq].
        exists pq. rewrite lookup_insert_ne; [done|]. intros <-. congruence.
    + intros x Hx Hnx.
      assert (~ in_page p x) by (intros ?; apply Hnx; exists p; split; [by left|done]).
      rewrite linked_out, Hout; [done|done|done|].
      intros Hc'. apply Hx. exists pa. split; [by eexists|]. by apply (entry_in_page pa i).
  - intros va' _. apply Hl2.
Qed.

Definition path_of (level : nat) (va : Z) : list Z :=
  match level with
  | O => [PX 2 va; PX 1 va]
  | S O => [PX 2 va]
  | _ => []
  end.

Lemma path_of_step level va :
  (level < 2)%nat -> path_of (S level) va ++ [PX (Z.of_nat (S level)) va] = path_of level va.
Proof. intros. destruct level as [|[|]]; [done|done|lia]. Qed.

Lemma PX2_low va : 0 <= va < MAXVA -> PX 2 va < 256.
Proof.
  intros Hva. rewrite PX_eq by lia. change (12 + 9 * 2) with 30. unfold MAXVA in Hva.
  assert (0 <= va / 2 ^ 30 < 256).
  { split; [apply Z.div_pos; lia|apply Z.div_lt_upper_bound; lia]. }
  rewrite Z.mod_small; lia.
Qed.

Lemma path_of_low level va j rest :
  (level < 2)%nat -> 0 <= va < MAXVA -> path_of level va = j :: rest -> j < 256.
Proof. intros Hl Hva. pose proof (PX2_low va Hva). destruct level as [|[|]]; [by intros [= <- _]..|lia]. Qed.

(** The result of a walk that may allocate. *)
Definition walked (s : kmst) (root : Z) (T : ptree) (l : list Z) (va r : Z) (s' : kmst) : Prop :=
  exists T' l', vm_inv s' root T' l' /\ extends s T l s' T' l' /\
    ((r = 0 /\ l' = []) \/ exists t, table_of T' va = Some t /\ r = t + 8 * PX 0 va).

Lemma walk_loop_alloc level : forall s root T l va pa,
  (level <= 2)%nat -> 0 <= va < MAXVA -> vm_inv s root T l -> T !! path_of level va = Some pa ->
  wp (walk_loop level pa va true) (walked s root T l va) s.
Proof.
  induction level as [|level IH]; intros s root T l va pa Hlev Hva Hv Hp.
  { apply wp_ret. exists T, l. split; [done|]. split; [apply extends_refl|]. right. by exists pa. }
  pose proof Hv as [Hk Hi Hd].
  assert (Hlen : (length (path_of (S level) va) < 2)%nat) by (destruct level as [|[|]]; cbn; lia).
  destruct (T !! path_of level va) as [child|] eqn:Ec.
  { unfold wp.
    rewrite (walk_loop_step_some level _ root T (path_of (S level) va) pa va true s child Hi eq_refl Hp);
      [|destruct level as [|[|]]; cbn; lia|by rewrite path_of_step by lia].
    apply (IH s root T l va child); [lia|done..]. }
  cbn [walk_loop]. apply wp_bind, wp_gets.
  assert (Hii : 0 <= PX (Z.of_nat (S level)) va < 512) by (apply PX_range; lia).
  pose proof (pti_down _ _ _ Hi _ _ _ Hp Hlen Hii) as Hint. unfold interior_ok in Hint.
  rewrite path_of_step, Ec in Hint by lia. rewrite Hint. cbn [nz negb Z.eqb].
  apply wp_bind. destruct (kalloc_spec kend kend_pos s l Hk) as (r&s1&Hrun&Hcs&Hpost).
  eapply wp_ok; [exact Hrun|]. destruct l as [|p l].
  { destruct Hpost as (->&Hk1&Hm1). apply wp_ret. exists T, []. split_and!; [| |by left].
    - split; [done|by rewrite Hm1|done].
    - split; [split; [done|done|]|by rewrite Hm1]. exists []. rewrite Hm1.
      split; [done|]. split; [|done]. intros pa'. rewrite elem_of_nil. tauto. }
  destruct Hpost as (->&Hpok&Hnin&Hk1&_&Hout).
  destruct (Z.eqb_spec p 0); [apply (page_ok_pos kend kend_pos) in Hpok; lia|].
  apply wp_bind, wp_modify, wp_bind, wp_modify. rewrite <- (path_of_step level va) in Ec by lia.
  eapply wp_mono.
  - apply (IH (linked s1 pa (PX (Z.of_nat (S level)) va) p) root (<[path_of level va := p]> T) l va p);
      [lia|done| |apply lookup_insert_eq].
    rewrite <- path_of_step by lia. apply (linked_inv s); try done.
    rewrite path_of_step by lia. intros j rest. apply path_of_low; [lia|done].
  - intros r s' (T'&l'&Hv'&He'&Hr'). exists T', l'. split_and!; [done| |done].
    eapply extends_trans; [|exact He']. rewrite <- (path_of_step level va) by lia.
    apply (linked_extends s s1 root); try done.
    rewrite path_of_step by lia. intros j rest. apply path_of_low; [lia|done].
Qed.

Lemma walk_alloc s root T l va :
  vm_inv s root T l -> 0 <= va < MAXVA -> wp (walk root va true) (walked s root T l va) s.
Proof.
  intros Hv Hva. unfold walk. destruct (Z.leb_spec MAXVA va); [lia|].
  apply walk_loop_alloc; [lia|done|done|]. apply (pti_root _ _ _ (vmi_pt _ _ _ _ Hv)).
Qed.

(** * Writing an entry *)

Definition stored (s : kmst) (a v : Z) : kmst := set_mem (store64 (km_mem s) a v) s.

(** A table's entry is disjoint from every free page. *)
Lemma entry_not_free s root T l t i x :
  vm_inv s root T l -> is_table T t -> 0 <= i < 512 -> in_pages l x ->
  x < t + 8 * i \/ t + 8 * i + 8 <= x.
Proof.
  intros [Hk Hi Hd] Ht Hii Hx. destruct (decide (t + 8 * i <= x < t + 8 * i + 8)) as [Hc|]; [|lia].
  exfalso. pose proof Ht as [path Hp].
  apply (in_pages_not kend t l x); [exact (pti_ok _ _ _ Hi _ _ Hp)|apply Hk|by apply Hd|done|].
  by apply (entry_in_page t i).
Qed.

Lemma stored_inv s root T l va t v :
  vm_inv s root T l -> table_of T va = Some t -> vm_inv (stored s (t + 8 * PX 0 va) v) root T l.
Proof.
  intros Hv Ht. pose proof Hv as [Hk Hi Hd]. split; [|by apply pt_inv_store_leaf|done].
  destruct Hk as [Hc Hl Hr Hok Hdup]. split; try done. eapply fl_rep_frame; [|done].
  intros x Hx. unfold stored. cbn. apply store64_out.
  eapply (entry_not_free s root T l); [done|by eexists|by apply PX_range|done].
Qed.

Lemma stored_grows s T l s' T' l' va t v :
  grows s T l s' T' l' -> table_of T' va = Some t -> grows s T l (stored s' (t + 8 * PX 0 va) v) T' l'.
Proof.
  intros [Hc Hs (new&Hl&Ht&Hm)] Htab. split; [done|done|]. exists new. split; [done|]. split; [done|].
  intros x Hx Hn. unfold stored. cbn. rewrite store64_out; [by apply Hm|].
  destruct (decide (t + 8 * PX 0 va <= x < t + 8 * PX 0 va + 8)) as [Hin|]; [|lia].
  exfalso. apply (entry_in_page t (PX 0 va)) in Hin; [|by apply PX_range].
  destruct (proj1 (Ht t)) as [H|H]; [by eexists|apply Hx; by exists t|apply Hn; by exists t].
Qed.

(** The entry [mappages] writes. *)
Definition mk_pte (pa perm : Z) : Z := Z.lor (Z.lor (PA2PTE pa) perm) PTE_V.

Lemma mk_pte_range pa perm : 0 <= perm < 1024 -> 0 <= mk_pte pa perm < 2 ^ 64.
Proof.
  intros Hp. unfold mk_pte, PA2PTE.
  apply lor_lt_pow2; [done|apply lor_lt_pow2; [done|apply u64_range|lia]|done].
Qed.

Lemma mk_pte_V pa perm : nz (Z.land (mk_pte pa perm) PTE_V) = true.
Proof.
  unfold mk_pte. rewrite Z.land_lor_distr_l. apply nz_true. intros H.
  apply Z.lor_eq_0_iff in H as [_ H]. done.
Qed.

Lemma mk_pte_eq pa perm : mk_pte pa perm = Z.lor (PA2PTE pa) (Z.lor perm PTE_V).
Proof. unfold mk_pte. by rewrite Z.lor_assoc. Qed.

(** * [mappages] *)

(** The entries of the pages from [first] up to [stop] map the frames from [pa];
    the others are as in [(T, m)]. *)
Definition mapped (T : ptree) (m : memory) (first stop pa perm : Z) (T' : ptree) (m' : memory) : Prop :=
  forall va, 0 <= va < MAXVA ->
    leaf T' m' va =
      let page := PGROUNDDOWN va in
      if (first <=? page) && (page <? stop)
      then mk_pte (u64 (pa + (page - first))) perm else leaf T m va.

(** The result of [mappages] on pages that were not mapped: 0 and every page
    mapped, or -1 when a table was needed and no page was free. *)
Definition mappages_post (s : kmst) (root : Z) (T : ptree) (l : list Z) (first last pa perm r : Z) (s' : kmst) : Prop :=
  exists T' l', vm_inv s' root T' l' /\ grows s T l s' T' l' /\
    ((r = 0 /\ mapped T (km_mem s) first (last + PGSIZE) pa perm T' (km_mem s')) \/
     (r = -1 /\ l' = [] /\ exists stop, aligned stop /\ first <= stop <= last /\
        mapped T (km_mem s) first stop pa perm T' (km_mem s'))).

Lemma PGROUNDDOWN_le a b : a <= b -> PGROUNDDOWN a <= PGROUNDDOWN b.
Proof.
  intros. rewrite !PGROUNDDOWN_eq. unfold PGSIZE.
  pose proof (Z.div_mod a 4096). pose proof (Z.div_mod b 4096).
  assert (a / 4096 <= b / 4096) by (apply Z.div_le_mono; lia). lia.
Qed.

(** Below and at a page boundary. *)
Lemma page_lt_step a page : aligned a -> aligned page -> page < a + PGSIZE -> page <> a -> page < a.
Proof. intros [k ->]%aligned_mult [j ->]%aligned_mult. unfold PGSIZE. lia. Qed.

Lemma mapped_step T m first a pa perm T1 m1 T2 m2 :
  first <= a -> aligned a -> 0 <= first -> a < MAXVA -> 0 <= perm < 1024 ->
  mapped T m first a pa perm T1 m1 ->
  (forall va, 0 <= va < MAXVA -> leaf T2 m2 va =
     if PGROUNDDOWN va =? a then mk_pte (u64 (pa + (a - first))) perm else leaf T1 m1 va) ->
  mapped T m first (a + PGSIZE) pa perm T2 m2.
Proof.
  intros Hfa Ha Hf Hmax Hperm Hm H2 va Hva. rewrite H2 by done. cbn zeta.
  pose proof (PGROUNDDOWN_aligned va) as Hal.
  destruct (Z.eqb_spec (PGROUNDDOWN va) a) as [->|Hne].
  - destruct (Z.leb_spec first a); [|lia]. destruct (Z.ltb_spec a (a + PGSIZE)); [done|unfold PGSIZE in *; lia].
  - rewrite Hm by done. cbn zeta.
    destruct (Z.leb_spec first (PGROUNDDOWN va)); [|done]. cbn.
    destruct (Z.ltb_spec (PGROUNDDOWN va) a), (Z.ltb_spec (PGROUNDDOWN va) (a + PGSIZE)); try done.
    + unfold PGSIZE in *. lia.
    + pose proof (page_lt_step a (PGROUNDDOWN va) Ha Hal). lia.
Qed.

(** The state of the loop of [mappages] before page [a]. *)
Definition mapping (s0 : kmst) (root : Z) (T0 : ptree) (l0 : list Z) (first last pa perm : Z)
    (n : nat) (v : Z * Z) (s : kmst) : Prop :=
  let '(a, pa') := v in
  exists T l, vm_inv s root T l /\ grows s0 T0 l0 s T l /\
    mapped T0 (km_mem s0) first a pa perm T (km_mem s) /\
    aligned a /\ first <= a <= last /\ pa' = u64 (pa + (a - first)) /\ n = Z.to_nat (last - a).

Lemma leaf_page T m va va' : PGROUNDDOWN va = PGROUNDDOWN va' -> leaf T m va = leaf T m va'.
Proof.
  intros E. unfold leaf, table_of.
  assert (forall k, 0 <= k -> PX k va = PX k va') as H.
  { intros k Hk. by rewrite <- (PX_PGROUNDDOWN k va), <- (PX_PGROUNDDOWN k va'), E. }
  by rewrite !H by lia.
Qed.

Lemma mappages_step_spec s0 root T0 l0 first last pa perm n v s :
  0 <= first -> aligned last -> last < MAXVA -> 0 <= perm < 1024 ->
  (forall va, 0 <= va < MAXVA -> first <= PGROUNDDOWN va <= last -> Z.land (leaf T0 (km_mem s0) va) PTE_V = 0) ->
  mapping s0 root T0 l0 first last pa perm n v s ->
  wp (mappages_step root last perm v)
    (fun r s' => match r with
                 | inl v' => exists n', (n' < n)%nat /\ mapping s0 root T0 l0 first last pa perm n' v' s'
                 | inr b => mappages_post s0 root T0 l0 first last pa perm b s'
                 end) s.
Proof.
  intros Hf Hlast Hmax Hperm Hfree. destruct v as [a pa'].
  intros (T&l&Hv&Hg&Hm&Ha&Hal&->&->). assert (HP : PGSIZE = 4096) by done.
  assert (Hnone : Z.land (leaf T (km_mem s) a) PTE_V = 0).
  { rewrite Hm by lia. cbn zeta. rewrite PGROUNDDOWN_id by done.
    destruct (Z.ltb_spec a a); [lia|]. rewrite andb_false_r. apply Hfree; [lia|]. by rewrite PGROUNDDOWN_id. }
  unfold mappages_step. apply wp_bind. eapply wp_mono; [apply (walk_alloc s root T l a Hv); lia|].
  intros pte s1 (T1&l1&Hv1&[Hg1 Hl1]&[(->&Hl)|(t&Ht&->)]); cbn beta.
  - cbn. apply wp_ret. exists T1, l1. split; [done|]. split; [by eapply grows_trans|].
    right. split_and!; [done|done|]. exists a. split_and!; [done|lia|lia|].
    intros va Hva. by rewrite Hl1, Hm.
  - destruct (Z.eqb_spec (t + 8 * PX 0 a) 0) as [E|_].
    { pose proof (slot_nonzero _ _ _ _ _ (vmi_pt _ _ _ _ Hv1) Ht). lia. }
    apply wp_bind, wp_gets.
    replace (load64 (km_mem s1) (t + 8 * PX 0 a)) with (leaf T (km_mem s) a).
    2:{ rewrite <- Hl1 by lia. unfold leaf. by rewrite Ht. }
    rewrite Hnone. cbn [nz negb Z.eqb]. apply wp_bind, wp_modify.
    set (s2 := stored s1 (t + 8 * PX 0 a) (mk_pte (u64 (pa + (a - first))) perm)).
    change (set_mem _ _) with s2.
    assert (Hv2 : vm_inv s2 root T1 l1) by (by apply stored_inv).
    assert (Hg2 : grows s0 T0 l0 s2 T1 l1) by (apply stored_grows; [by eapply grows_trans|done]).
    assert (Hm2 : mapped T0 (km_mem s0) first (a + PGSIZE) pa perm T1 (km_mem s2)).
    { apply (mapped_step T0 (km_mem s0) first a pa perm T1 (km_mem s1)); try done; try lia.
      - intros va Hva. by rewrite Hl1, Hm.
      - intros va Hva. unfold s2, stored. cbn.
        rewrite (leaf_store _ root T1 a va t _ (vmi_pt _ _ _ _ Hv1)) by (done || lia).
        rewrite (PGROUNDDOWN_id a) by done. rewrite u64_small by (by apply mk_pte_range). done. }
    destruct (Z.eqb_spec a last) as [->|Hne]; apply wp_ret.
    + exists T1, l1. split_and!; [done|done|]. by left.
    + assert (a + PGSIZE <= last).
      { destruct (aligned_mult a Ha) as [k ->], (aligned_mult last Hlast) as [j ->]. lia. }
      exists (Z.to_nat (last - (a + PGSIZE))). split; [lia|].
      rewrite (u64_small (a + PGSIZE)) by (unfold MAXVA in *; lia).
      exists T1, l1. split_and!; [done|done|done|by apply aligned_step|lia|lia| |done].
      unfold u64. rewrite Zplus_mod_idemp_l. f_equal. lia.
Qed.

(** [mappages] on a range of pages none of which is mapped. *)
Lemma mappages_spec s root T l va size pa perm :
  vm_inv s root T l -> 0 <= va -> 0 < size -> va + size <= MAXVA -> 0 <= pa < 2 ^ 64 ->
  0 <= perm < 1024 ->
  let first := PGROUNDDOWN va in let last := PGROUNDDOWN (va + size - 1) in
  (forall va', 0 <= va' < MAXVA -> first <= PGROUNDDOWN va' <= last ->
     Z.land (leaf T (km_mem s) va') PTE_V = 0) ->
  wp (mappages root va size pa perm) (mappages_post s root T l first last pa perm) s.
Proof.
  intros Hv Hva Hsz Hmax Hpa Hperm first last Hfree. unfold mappages.
  destruct (Z.eqb_spec size 0); [lia|]. rewrite u64_small by (unfold MAXVA in *; lia).
  fold first last. cbn zeta.
  assert (Hfl : first <= last) by (apply PGROUNDDOWN_le; lia).
  pose proof (PGROUNDDOWN_bounds va). pose proof (PGROUNDDOWN_bounds (va + size - 1)).
  pose proof (PGROUNDDOWN_aligned va). pose proof (PGROUNDDOWN_aligned (va + size - 1)).
  assert (Hf0 : 0 <= first).
  { unfold first. rewrite PGROUNDDOWN_eq. pose proof (Z.mod_le va PGSIZE). unfold PGSIZE in *. lia. }
  apply (wp_loop _ (mapping s root T l first last pa perm)) with (n := Z.to_nat (last - first)).
  - intros k v s' HI. apply mappages_step_spec; try done. unfold last. lia.
  - exists T, l. split_and!; try done; try lia.
    + apply grows_refl.
    + intros va' Hva'. cbn zeta.
      destruct (Z.leb_spec first (PGROUNDDOWN va')), (Z.ltb_spec (PGROUNDDOWN va') first); cbn; lia || done.
    + rewrite Z.sub_diag, Z.add_0_r, u64_small by done. done.
  - unfold first, last, MAXVA in *. lia.
Qed.

(** A page that is mapped already makes [mappages] panic. *)
Lemma mappages_remap s root T va pa perm :
  pt_inv (km_mem s) root T -> 0 <= va < MAXVA -> nz (Z.land (leaf T (km_mem s) va) PTE_V) = true ->
  mappages root va PGSIZE pa perm s = Stop (Panic "mappages: remap") s.
Proof.
  intros Hi Hva Hm. unfold mappages. change (PGSIZE =? 0) with false. cbn iota zeta.
  apply (loop_rule _ (fun _ v s' => v = (PGROUNDDOWN va, pa) /\ s' = s)
    (fun o => o = Stop (Panic "mappages: remap") s)) with (n := 0%nat); [|done|done].
  intros n v s' [-> ->]. unfold mappages_step.
  assert (Hr : 0 <= PGROUNDDOWN va < MAXVA).
  { pose proof (PGROUNDDOWN_bounds va). rewrite PGROUNDDOWN_eq in *.
    pose proof (Z.mod_le va PGSIZE). pose proof (Z.mod_pos_bound va PGSIZE). unfold PGSIZE in *. lia. }
  assert (Hp : leaf T (km_mem s) (PGROUNDDOWN va) = leaf T (km_mem s) va)
    by (apply leaf_page, PGROUNDDOWN_id, PGROUNDDOWN_aligned).
  rewrite <- Hp in Hm. unfold leaf in Hm. destruct (table_of T (PGROUNDDOWN va)) as [t|] eqn:Ht; [|done].
  erewrite bind_ok by (by apply (walk_present s root T)).
  destruct (Z.eqb_spec (t + 8 * PX 0 (PGROUNDDOWN va)) 0) as [E|_].
  { pose proof (slot_nonzero _ _ _ _ _ Hi Ht). lia. }
  unfold read64, gets. erewrite bind_ok by done. rewrite Hm. done.
Qed.
End PageTable.

(** * Examples: an empty page table and two free pages *)
Module Sample.
Definition root : Z := PHYSTOP - 4096.
Definition p1 : Z := PHYSTOP - 8192.
Definition p2 : Z := PHYSTOP - 12288.
Definition kend : Z := PHYSTOP - 16384.
Definition mem : memory := store64 (fun _ => 0) p1 p2.
Definition st : kmst := Km (Cpu 0 false None 0 false) mem (Spinlock 0 "kmem" None) p1.
Definition tree : ptree := {[ [] := root ]}.

Lemma kend_pos : KERNBASE <= kend.
Proof. unfold kend, PHYSTOP, KERNBASE. lia. Qed.
End Sample.

(** A zeroed page is an empty page table. *)
Lemma pt_inv_empty kend m root :
  page_ok kend root -> (forall x, in_page root x -> m x = 0) -> pt_inv kend m root {[ [] := root ]}.
Proof.
  intros Hok Hz. split.
  - apply lookup_singleton_eq.
  - intros path pa [<- _]%lookup_singleton_Some. cbn. lia.
  - by intros path pa [_ <-]%lookup_singleton_Some.
  - by intros path path' pa [<- _]%lookup_singleton_Some [<- _]%lookup_singleton_Some.
  - intros path i pa [E _]%lookup_singleton_Some. by destruct path.
  - intros path pa i [<- <-]%lookup_singleton_Some _ Hi. unfold interior_ok.
    rewrite lookup_singleton_ne by done. rewrite (load64_ext m (fun _ => 0)); [done|].
    intros x Hx. apply Hz. by apply (entry_in_page root i).
  - by intros i path pa [? _]%lookup_singleton_Some.
Qed.

Lemma sample_page_ok p :
  p = Sample.root \/ p = Sample.p1 \/ p = Sample.p2 -> page_ok Sample.kend p.
Proof.
  intros [-> |[-> | ->]]; unfold page_ok, Sample.root, Sample.p1, Sample.p2, Sample.kend, aligned,
    PHYSTOP, KERNBASE, PGSIZE; split_and!; (reflexivity || lia).
Qed.

Lemma sample_inv : vm_inv Sample.kend Sample.st Sample.root Sample.tree [Sample.p1; Sample.p2].
Proof.
  split.
  - split; cbn.
    + split; cbn; [lia|done].
    + reflexivity.
    + split; [done|]. unfold Sample.mem. rewrite load64_store64. by vm_compute.
    + repeat constructor; apply sample_page_ok; auto.
    + apply (bool_decide_unpack _). by vm_compute.
  - apply pt_inv_empty; [apply sample_page_ok; auto|]. intros x Hx. unfold Sample.st, Sample.mem. cbn.
    apply store64_out. unfold in_page, Sample.root, Sample.p1, PGSIZE, PHYSTOP, KERNBASE in *. lia.
  - unfold Sample.tree. intros pa [path [_ <-]%lookup_singleton_Some]. rewrite !elem_of_cons, elem_of_nil.
    unfold Sample.root, Sample.p1, Sample.p2, PHYSTOP, KERNBASE. lia.
Qed.

(** C25: [walk] implements the abstract page table. Without allocation it
    returns the address of the entry of [va], or 0 when a table on the way is
    missing, and changes nothing. With allocation it returns the entry's
    address in a tree extended by pages taken from the free list, or 0 with the
    free list exhausted; in both cases no entry of any address changes, no byte
    outside the tables and the pages taken changes, and the tree stays a tree
    disjoint from the free pages. An address beyond [MAXVA] panics. *)
Theorem walk_correct (kend : Z) (s : kmst) (root : Z) (T : ptree) (l : list Z) (va : Z) :
  KERNBASE <= kend -> vm_inv kend s root T l -> 0 <= va ->
  if va <? MAXVA then
    walk root va false s = Ok (slot T va) s /\ wp (walk root va true) (walked kend s root T l va) s
  else forall alloc, walk root va alloc s = Stop (Panic "walk") s.
Proof.
  intros Hk Hv Hva. destruct (Z.ltb_spec va MAXVA).
  - split; [apply (walk_noalloc kend Hk); [apply Hv|lia]|by apply walk_alloc].
  - intros alloc. by apply walk_panics.
Qed.

Lemma walk_correct_witness :
  walk Sample.root 8192 false Sample.st = Ok 0 Sample.st /\
  wp (walk Sample.root 8192 true) (walked Sample.kend Sample.st Sample.root Sample.tree [Sample.p1; Sample.p2] 8192) Sample.st.
Proof.
  pose proof (walk_correct Sample.kend Sample.st Sample.root Sample.tree [Sample.p1; Sample.p2] 8192
    Sample.kend_pos sample_inv ltac:(lia)) as H. exact H.
Defined.



(** The same call, run: the entry points at the frame. *)
Example mappages_sample :
  match mappages Sample.root 8192 4096 (PHYSTOP - 40960) 6 Sample.st with
  | Ok r s' =>
      r = 0 /\
      match walk Sample.root 8192 false s' with
      | Ok pte _ => PTE2PA (load64 (km_mem s') pte) = PHYSTOP - 40960
      | Stop _ _ => False
      end
  | Stop _ _ => False
  end.
Proof. vm_compute. done. Qed.
