(* ===== verification/Uvm.v ===== *)
(** User address spaces: what [src/kernel/vm.c] promises about the memory of a
    process.

    [uspace s root T l D] says that the page table at [root] maps exactly the
    pages of the finite map [D] (page to frame) below [TRAPFRAME], that the
    frames are distinct pages that are neither free nor tables, and that nothing
    above is accessible to user code. The functions that grow, shrink, copy and
    access user memory are specified on [D], and the copies between the kernel
    and a user address space against a byte-at-a-time reference. *)

From S2P Require Import Prelude Params Spinlock Cstring Kalloc Vm PageTable.
Local Open Scope kernel_scope.

(** The frame a user access to [va] reaches, 0 when it is not allowed. *)
Definition uaddr (T : ptree) (m : memory) (va : Z) : Z :=
  let e := leaf T m va in
  if (va <? MAXVA) && nz (Z.land e PTE_V) && nz (Z.land e PTE_U) then PTE2PA e else 0.

Definition ubyte (T : ptree) (m : memory) (va : Z) : option Z :=
  let pa := uaddr T m va in
  if pa =? 0 then None else Some (load8 m (pa + va mod PGSIZE)).

(** Reading [n] bytes one at a time: what was read, and whether all were. *)
Fixpoint uread (T : ptree) (m : memory) (va : Z) (n : nat) : bool * list Z :=
  match n with
  | O => (true, [])
  | S n' =>
      match ubyte T m va with
      | None => (false, [])
      | Some b => let r := uread T m (va + 1) n' in (fst r, b :: snd r)
      end
  end.

(** Reading a string one byte at a time: what was read, and whether it ended. *)
Fixpoint ureadstr (T : ptree) (m : memory) (va : Z) (n : nat) : bool * list Z :=
  match n with
  | O => (false, [])
  | S n' =>
      match ubyte T m va with
      | None => (false, [])
      | Some b => if b =? 0 then (true, [0])
                  else let r := ureadstr T m (va + 1) n' in (fst r, b :: snd r)
      end
  end.

Section Copy.
Variable kend : Z.
Hypothesis kend_pos : KERNBASE <= kend.
Implicit Types (T : ptree) (m : memory) (s : kmst) (l : list Z).

Lemma walkaddr_run s root T va :
  pt_inv kend (km_mem s) root T -> 0 <= va ->
  walkaddr root va s = Ok (uaddr T (km_mem s) va) s.
Proof.
  intros Hi Hva. unfold walkaddr, uaddr.
  destruct (Z.leb_spec MAXVA va), (Z.ltb_spec va MAXVA); try lia; [done|].
  erewrite bind_ok by (apply (walk_noalloc kend kend_pos s root T); [done|lia]).
  unfold slot, leaf. destruct (table_of T va) as [t|] eqn:Ht; [|done].
  destruct (Z.eqb_spec (t + 8 * PX 0 va) 0) as [E|_].
  { pose proof (slot_nonzero kend kend_pos _ _ _ _ _ Hi Ht). lia. }
  unfold read64, gets. erewrite bind_ok by done. cbn [andb].
  unfold nz. destruct (_ =? 0); [done|]. cbn. by destruct (_ =? 0).
Qed.

Lemma page_same va i :
  0 <= i -> va mod PGSIZE + i < PGSIZE ->
  PGROUNDDOWN (va + i) = PGROUNDDOWN va /\ (va + i) mod PGSIZE = va mod PGSIZE + i.
Proof.
  intros Hi Hlt. rewrite !PGROUNDDOWN_eq. unfold PGSIZE in *.
  pose proof (Z.div_mod va 4096). pose proof (Z.mod_pos_bound va 4096).
  assert ((va + i) mod 4096 = va mod 4096 + i); [|lia].
  symmetry. apply (Z.mod_unique_pos _ _ (va / 4096)); lia.
Qed.

Lemma MAXVA_page va : (PGROUNDDOWN va <? MAXVA) = (va <? MAXVA).
Proof.
  pose proof (PGROUNDDOWN_bounds va). destruct (aligned_mult _ (PGROUNDDOWN_aligned va)) as [k E].
  rewrite E in *. unfold MAXVA, PGSIZE in *.
  destruct (Z.ltb_spec (k * 4096) (2 ^ (9 + 9 + 9 + 12 - 1))), (Z.ltb_spec va (2 ^ (9 + 9 + 9 + 12 - 1))); lia.
Qed.

(** All addresses of a page have one translation. *)
Lemma uaddr_page T m va va' : PGROUNDDOWN va = PGROUNDDOWN va' -> uaddr T m va = uaddr T m va'.
Proof.
  intros E. unfold uaddr. rewrite (leaf_page T m va va' E), <- (MAXVA_page va), <- (MAXVA_page va').
  by rewrite E.
Qed.

(** [k] bytes of one page, then the rest. *)
Lemma uread_page T m va k : forall rest,
  uaddr T m va <> 0 -> va mod PGSIZE + Z.of_nat k <= PGSIZE ->
  uread T m va (k + rest) =
    let r := uread T m (va + Z.of_nat k) rest in
    (fst r, load_bytes m (uaddr T m va + va mod PGSIZE) k ++ snd r).
Proof.
  intros rest Hu Hk.
  assert (H : forall j i, (i + j = k)%nat ->
    uread T m (va + Z.of_nat i) (j + rest) =
      let r := uread T m (va + Z.of_nat k) rest in
      (fst r, load_bytes m (uaddr T m va + va mod PGSIZE + Z.of_nat i) j ++ snd r)).
  { induction j as [|j IH]; intros i Hij.
    - assert (i = k) as -> by lia. cbn. by destruct (uread _ _ _ _).
    - cbn [Nat.add uread]. destruct (page_same va (Z.of_nat i)) as [Hp Ho]; [lia|lia|].
      unfold ubyte. rewrite (uaddr_page T m _ va Hp), Ho. destruct (Z.eqb_spec (uaddr T m va) 0); [done|].
      replace (va + Z.of_nat i + 1) with (va + Z.of_nat (S i)) by lia. rewrite IH by lia.
      cbn. rewrite load_bytes_cons. cbn.
      replace (uaddr T m va + va mod PGSIZE + Z.of_nat i + 1)
        with (uaddr T m va + va mod PGSIZE + Z.of_nat (S i)) by lia.
      by rewrite Z.add_assoc. }
  specialize (H k 0%nat ltac:(lia)). rewrite !Z.add_0_r in H. done.
Qed.

(** The bytes of one page up to the end of the string, then the rest. *)
Lemma ureadstr_page T m va k : forall rest,
  uaddr T m va <> 0 -> va mod PGSIZE + Z.of_nat k <= PGSIZE ->
  ureadstr T m va (k + rest) =
    let '(bytes, got) := copyinstr_page m (uaddr T m va + va mod PGSIZE) k in
    if got : bool then (true, bytes)
    else let r := ureadstr T m (va + Z.of_nat k) rest in (fst r, bytes ++ snd r).
Proof.
  intros rest Hu Hk.
  assert (H : forall j i, (i + j = k)%nat ->
    ureadstr T m (va + Z.of_nat i) (j + rest) =
      let '(bytes, got) := copyinstr_page m (uaddr T m va + va mod PGSIZE + Z.of_nat i) j in
      if got : bool then (true, bytes)
      else let r := ureadstr T m (va + Z.of_nat k) rest in (fst r, bytes ++ snd r)).
  { induction j as [|j IH]; intros i Hij.
    - assert (i = k) as -> by lia. cbn. by destruct (ureadstr _ _ _ _).
    - cbn [Nat.add ureadstr copyinstr_page].
      destruct (page_same va (Z.of_nat i)) as [Hp Ho]; [lia|lia|].
      unfold ubyte. rewrite (uaddr_page T m _ va Hp), Ho. destruct (Z.eqb_spec (uaddr T m va) 0); [done|].
      rewrite Z.add_assoc. destruct (_ =? 0); [done|].
      replace (va + Z.of_nat i + 1) with (va + Z.of_nat (S i)) by lia. rewrite IH by lia.
      replace (uaddr T m va + va mod PGSIZE + Z.of_nat i + 1)
        with (uaddr T m va + va mod PGSIZE + Z.of_nat (S i)) by lia.
      by destruct (copyinstr_page _ _ j) as [bytes []]. }
  specialize (H k 0%nat ltac:(lia)). rewrite !Z.add_0_r in H. done.
Qed.

Lemma uaddr_MAXVA T m va : uaddr T m va <> 0 -> va < MAXVA.
Proof. unfold uaddr. destruct (Z.ltb_spec va MAXVA); [done|]. done. Qed.

(** The chunk of one round: what is left of the page, or of the request. *)
Definition chunk (va len : Z) : Z := let n := PGSIZE - va mod PGSIZE in if len <? n then len else n.

Lemma chunk_bounds va len : 0 < len -> 0 < chunk va len <= len /\ va mod PGSIZE + chunk va len <= PGSIZE.
Proof.
  intros. unfold chunk. pose proof (Z.mod_pos_bound va PGSIZE). destruct (Z.ltb_spec len (PGSIZE - va mod PGSIZE));
    unfold PGSIZE in *; lia.
Qed.

(** The next round starts at the next page unless this was the last. *)
Lemma chunk_next va len :
  0 < len -> 0 <= va < MAXVA ->
  len - chunk va len = 0 \/ u64 (PGROUNDDOWN va + PGSIZE) = va + chunk va len.
Proof.
  intros Hl Hva. unfold chunk. rewrite PGROUNDDOWN_eq. pose proof (Z.mod_pos_bound va PGSIZE).
  destruct (Z.ltb_spec len (PGSIZE - va mod PGSIZE)); [lia|]. right.
  pose proof (Z.mod_le va PGSIZE). unfold PGSIZE, MAXVA in *. rewrite u64_small; lia.
Qed.

Lemma PGROUNDDOWN_nonneg va : 0 <= va -> 0 <= PGROUNDDOWN va.
Proof. intros. rewrite PGROUNDDOWN_eq. pose proof (Z.mod_le va PGSIZE). unfold PGSIZE in *. lia. Qed.

Lemma PGROUNDDOWN_idem va : PGROUNDDOWN (PGROUNDDOWN va) = PGROUNDDOWN va.
Proof. apply PGROUNDDOWN_id, PGROUNDDOWN_aligned. Qed.

Lemma PGROUNDDOWN_off va : va - PGROUNDDOWN va = va mod PGSIZE.
Proof. rewrite PGROUNDDOWN_eq. lia. Qed.

(** The invariant of the reading loops: what is left to read, appended to what
    has been read, is the whole result. *)
Definition reading (read : Z -> nat -> bool * list Z) (s : kmst) (final : bool * list Z)
    (n : nat) (v : Z * list Z * Z) (s' : kmst) : Prop :=
  let '(len, dst, va) := v in
  s' = s /\ 0 <= len /\ n = Z.to_nat len /\ 0 <= va /\
  final = (let r := read va (Z.to_nat len) in (fst r, dst ++ snd r)).

Lemma reading_next read s final len dst va bytes s' :
  0 < len -> 0 <= va < MAXVA ->
  s' = s -> final = (let r := read (va + chunk va len) (Z.to_nat (len - chunk va len)) in
                     (fst r, (dst ++ bytes) ++ snd r)) ->
  (forall va', read va' 0%nat = read 0 0%nat) ->
  exists n', (n' < Z.to_nat len)%nat /\
    reading read s final n' (len - chunk va len, dst ++ bytes, u64 (PGROUNDDOWN va + PGSIZE)) s'.
Proof.
  intros Hl Hva -> -> Hz. pose proof (chunk_bounds va len Hl).
  exists (Z.to_nat (len - chunk va len)). split; [lia|]. split_and!; [done|lia|done|apply u64_range|].
  destruct (chunk_next va len Hl Hva) as [H0|H0]; [|by rewrite H0].
  by rewrite H0, (Hz (va + _)), (Hz (u64 _)).
Qed.

Lemma copyin_eq s root T srcva len :
  pt_inv kend (km_mem s) root T -> 0 <= srcva -> 0 <= len < 2 ^ 64 ->
  copyin root srcva len s =
    let r := uread T (km_mem s) srcva (Z.to_nat len) in
    Ok (if fst r then 0 else -1, snd r) s.
Proof.
  intros Hi Hva Hlen. set (final := uread T (km_mem s) srcva (Z.to_nat len)). cbn zeta.
  unfold copyin. apply (loop_rule _ (reading (uread T (km_mem s)) s final)
    (fun o => o = Ok (if fst final then 0 else -1, snd final) s)) with (n := Z.to_nat len).
  2:{ split_and!; try done; [lia|]. unfold final. by destruct (_ T (km_mem s) srcva _). }
  2:{ lia. }
  intros n [[ln dst] va] s' (->&Hl0&->&Hv0&Hfin). unfold copyin_step.
  destruct (Z.ltb_spec 0 ln) as [Hl|Hl].
  2:{ assert (ln = 0) as -> by lia. rewrite Hfin. cbn. by rewrite app_nil_r. }
  erewrite bind_ok by (apply (walkaddr_run s root T); [done|by apply PGROUNDDOWN_nonneg]).
  rewrite (uaddr_page T (km_mem s) (PGROUNDDOWN va) va) by apply PGROUNDDOWN_idem.
  rewrite PGROUNDDOWN_off. change (if ln <? PGSIZE - va mod PGSIZE then ln else _) with (chunk va ln).
  pose proof (chunk_bounds va ln Hl) as [Hc Hcp].
  replace (Z.to_nat ln) with (Z.to_nat (chunk va ln) + Z.to_nat (ln - chunk va ln))%nat in Hfin by lia.
  destruct (Z.eqb_spec (uaddr T (km_mem s) va) 0) as [Hu|Hu].
  - rewrite Hfin. replace (Z.to_nat (chunk va ln)) with (S (Z.to_nat (chunk va ln - 1))) by lia.
    cbn [Nat.add uread]. unfold ubyte. rewrite Hu. cbn. by rewrite app_nil_r.
  - unfold gets. erewrite bind_ok by done. cbn [ret].
    pose proof (uaddr_MAXVA _ _ _ Hu). apply reading_next; [lia|lia|done| |done].
    rewrite Hfin, uread_page by (done || lia). rewrite Z2Nat.id by lia. cbn. by rewrite app_assoc.
Qed.

Lemma copyinstr_eq s root T srcva max :
  pt_inv kend (km_mem s) root T -> 0 <= srcva -> 0 <= max < 2 ^ 64 ->
  copyinstr root srcva max s =
    let r := ureadstr T (km_mem s) srcva (Z.to_nat max) in
    Ok (if fst r then 0 else -1, snd r) s.
Proof.
  intros Hi Hva Hlen. set (final := ureadstr T (km_mem s) srcva (Z.to_nat max)). cbn zeta.
  unfold copyinstr. apply (loop_rule _ (reading (ureadstr T (km_mem s)) s final)
    (fun o => o = Ok (if fst final then 0 else -1, snd final) s)) with (n := Z.to_nat max).
  2:{ split_and!; try done; [lia|]. unfold final. by destruct (_ T (km_mem s) srcva _). }
  2:{ lia. }
  intros n [[ln dst] va] s' (->&Hl0&->&Hv0&Hfin). unfold copyinstr_step.
  destruct (Z.ltb_spec 0 ln) as [Hl|Hl].
  2:{ assert (ln = 0) as -> by lia. rewrite Hfin. cbn. by rewrite app_nil_r. }
  erewrite bind_ok by (apply (walkaddr_run s root T); [done|by apply PGROUNDDOWN_nonneg]).
  rewrite (uaddr_page T (km_mem s) (PGROUNDDOWN va) va) by apply PGROUNDDOWN_idem.
  rewrite PGROUNDDOWN_off. change (if ln <? PGSIZE - va mod PGSIZE then ln else _) with (chunk va ln).
  pose proof (chunk_bounds va ln Hl) as [Hc Hcp].
  replace (Z.to_nat ln) with (Z.to_nat (chunk va ln) + Z.to_nat (ln - chunk va ln))%nat in Hfin by lia.
  destruct (Z.eqb_spec (uaddr T (km_mem s) va) 0) as [Hu|Hu].
  - rewrite Hfin. replace (Z.to_nat (chunk va ln)) with (S (Z.to_nat (chunk va ln - 1))) by lia.
    cbn [Nat.add ureadstr]. unfold ubyte. rewrite Hu. cbn. by rewrite app_nil_r.
  - unfold gets. erewrite bind_ok by done. rewrite ureadstr_page in Hfin by (done || lia).
    destruct (copyinstr_page _ _ _) as [bytes []] eqn:E; [by rewrite Hfin|]. cbn [ret].
    pose proof (uaddr_MAXVA _ _ _ Hu). apply reading_next; [lia|lia|done| |done].
    rewrite Hfin, Z2Nat.id by lia. cbn. by rewrite app_assoc.
Qed.
End Copy.

(** * The address space of a process *)

Section Space.
Variable kend : Z.
Hypothesis kend_pos : KERNBASE <= kend.
Implicit Types (T : ptree) (m : memory) (s : kmst) (l : list Z) (D : gmap Z Z).

Record uspace (s : kmst) (root : Z) (T : ptree) (l : list Z) (D : gmap Z Z) : Prop := {
  us_vm : vm_inv kend s root T l;
  us_page va pa : D !! va = Some pa -> aligned va /\ 0 <= va < TRAPFRAME /\ page_ok kend pa;
  us_priv va pa : D !! va = Some pa -> (pa ∉ l) /\ ~ is_table T pa;
  us_leaf va pa : D !! va = Some pa ->
    nz (Z.land (leaf T (km_mem s) va) PTE_V) = true /\ PTE2PA (leaf T (km_mem s) va) = pa /\
    PTE_FLAGS (leaf T (km_mem s) va) <> PTE_V;
  us_inj va va' pa : D !! va = Some pa -> D !! va' = Some pa -> va = va';
  us_dom va : 0 <= va < TRAPFRAME -> D !! PGROUNDDOWN va = None ->
    Z.land (leaf T (km_mem s) va) PTE_V = 0;
  us_top va : TRAPFRAME <= va < MAXVA ->
    Z.land (leaf T (km_mem s) va) PTE_V = 0 \/ Z.land (leaf T (km_mem s) va) PTE_U = 0;
}.

(** The bytes of the process. *)
Definition in_frames (D : gmap Z Z) (x : Z) : Prop := exists va pa, D !! va = Some pa /\ in_page pa x.

Lemma frame_not_table s root T l D x : uspace s root T l D -> in_frames D x -> ~ in_tables T x.
Proof.
  intros Hu (va&pa&Hd&Hx) (t&[path Ht]&Hx'). pose proof (us_page _ _ _ _ _ Hu _ _ Hd) as (_&_&Hok).
  pose proof (us_priv _ _ _ _ _ Hu _ _ Hd) as [_ Hnt].
  apply (pages_disjoint kend pa t x); try done.
  - exact (pti_ok _ _ _ _ (vmi_pt _ _ _ _ _ (us_vm _ _ _ _ _ Hu)) _ _ Ht).
  - intros ->. apply Hnt. by exists path.
Qed.

Lemma frame_not_free s root T l D x : uspace s root T l D -> in_frames D x -> ~ in_pages l x.
Proof.
  intros Hu (va&pa&Hd&Hx) Hl. pose proof (us_page _ _ _ _ _ Hu _ _ Hd) as (_&_&Hok).
  pose proof (us_priv _ _ _ _ _ Hu _ _ Hd) as [Hnl _].
  apply (in_pages_not kend pa l x); try done.
  apply (kmi_ok _ _ _ (vmi_km _ _ _ _ _ (us_vm _ _ _ _ _ Hu))).
Qed.

Lemma km_inv_mem s l m :
  km_inv kend s l -> (forall x, in_pages l x -> m x = km_mem s x) -> km_inv kend (set_mem m s) l.
Proof.
  intros [Hc Hl Hr Hok Hd] Hm. split; try done. cbn. by eapply fl_rep_frame.
Qed.

(** The address space only depends on the tables, and on the free list staying
    away from its pages. *)
Lemma uspace_frame s root T l D s' l' :
  uspace s root T l D -> km_inv kend s' l' ->
  (forall p, p ∈ l' -> p ∈ l \/ (~ is_table T p /\ forall va, D !! va <> Some p)) ->
  (forall x, in_tables T x -> km_mem s' x = km_mem s x) ->
  uspace s' root T l' D /\ forall va, leaf T (km_mem s') va = leaf T (km_mem s) va.
Proof.
  intros Hu Hk Hl Ht. pose proof (us_vm _ _ _ _ _ Hu) as Hv.
  assert (Hleaf : forall va, leaf T (km_mem s') va = leaf T (km_mem s) va).
  { intros va. exact (leaf_frame kend _ _ root T va (vmi_pt _ _ _ _ _ Hv) Ht). }
  split; [|done]. pose proof Hu as [_ H1 H2 H3 H4 H5 H6].
  split; try done; try (intros va; rewrite Hleaf; auto; fail).
  - destruct Hv as [_ Hp Hd]. split; [done|by eapply pt_inv_frame|].
    intros pa Hpa Hin. destruct (Hl pa Hin) as [Hin'|[Hnt _]]; [by apply (Hd pa)|done].
  - intros va pa Hd. destruct (H2 va pa Hd) as [Hnl Hnt]. split; [|done].
    intros Hin. destruct (Hl pa Hin) as [Hin'|[_ Hnd]]; [done|by apply (Hnd va)].
Qed.

(** Writing user memory keeps the address space. *)
Lemma uspace_write s root T l D m :
  uspace s root T l D -> (forall x, ~ in_frames D x -> m x = km_mem s x) ->
  uspace (set_mem m s) root T l D /\ forall va, leaf T m va = leaf T (km_mem s) va.
Proof.
  intros Hu Hm. apply (uspace_frame s root T l D (set_mem m s) l); [done| |auto|].
  - apply km_inv_mem; [apply Hu|]. intros x Hx. apply Hm. intros Hf.
    by eapply (frame_not_free s root T l D).
  - intros x Hx. apply Hm. intros Hf. by eapply (frame_not_table s root T l D).
Qed.

(** A user access reaches a frame of the process. *)
Lemma uaddr_frame s root T l D va :
  uspace s root T l D -> 0 <= va -> uaddr T (km_mem s) va <> 0 ->
  D !! PGROUNDDOWN va = Some (uaddr T (km_mem s) va).
Proof.
  intros Hu Hva Ha. pose proof (uaddr_MAXVA _ _ _ Ha) as Hmax. unfold uaddr in *.
  destruct (Z.ltb_spec va MAXVA); [|lia].
  destruct (nz (Z.land (leaf T (km_mem s) va) PTE_V)) eqn:HV; [|done].
  destruct (nz (Z.land (leaf T (km_mem s) va) PTE_U)) eqn:HU; [|done]. cbn in *.
  apply nz_true in HV, HU.
  destruct (decide (TRAPFRAME <= va)) as [Hhi|Hlo].
  { destruct (us_top _ _ _ _ _ Hu va); [lia|done|done]. }
  destruct (D !! PGROUNDDOWN va) as [pa|] eqn:Hd.
  - destruct (us_leaf _ _ _ _ _ Hu _ _ Hd) as (_&<-&_).
    by rewrite (leaf_page T (km_mem s) (PGROUNDDOWN va) va) by apply PGROUNDDOWN_idem.
  - by rewrite (us_dom _ _ _ _ _ Hu va) in HV by (done || lia).
Qed.

Lemma uaddr_leaf T m m' va : leaf T m' va = leaf T m va -> uaddr T m' va = uaddr T m va.
Proof. unfold uaddr. by intros ->. Qed.

(** One chunk written through the page of [va] changes the bytes of that range
    of virtual addresses and no other. *)
Lemma write_chunk s root T l D va bytes :
  uspace s root T l D -> 0 <= va -> uaddr T (km_mem s) va <> 0 ->
  va mod PGSIZE + Z.of_nat (length bytes) <= PGSIZE ->
  let m' := store_bytes (km_mem s) (uaddr T (km_mem s) va + va mod PGSIZE) bytes in
  (forall x, ~ in_frames D x -> m' x = km_mem s x) /\
  (forall va', 0 <= va' -> ubyte T m' va' =
     if (va <=? va') && (va' <? va + Z.of_nat (length bytes))
     then Some (u8 (bytes !!! Z.to_nat (va' - va))) else ubyte T (km_mem s) va').
Proof.
  intros Hu Hva Ha Hlen m'. pose proof (uaddr_frame _ _ _ _ _ _ Hu Hva Ha) as Hd.
  set (pa := uaddr T (km_mem s) va) in *. pose proof (Z.mod_pos_bound va PGSIZE ltac:(done)) as Hmod.
  assert (Hout : forall x, ~ in_frames D x -> m' x = km_mem s x).
  { intros x Hx. apply store_bytes_out.
    destruct (decide (pa <= x < pa + PGSIZE)); [|lia]. exfalso. apply Hx. by exists (PGROUNDDOWN va), pa. }
  split; [done|]. intros va' Hva'. unfold ubyte.
  destruct (uspace_write _ _ _ _ _ _ Hu Hout) as [_ Hleaf].
  rewrite (uaddr_leaf _ _ _ va' (Hleaf va')).
  destruct (decide (PGROUNDDOWN va' = PGROUNDDOWN va)) as [E|E].
  - rewrite (uaddr_page T (km_mem s) va' va E). fold pa. destruct (Z.eqb_spec pa 0); [done|].
    assert (Hoff : va' - va = va' mod PGSIZE - va mod PGSIZE) by (rewrite !PGROUNDDOWN_eq in E; lia).
    unfold load8, m'. destruct (Z.leb_spec va va'); [destruct (Z.ltb_spec va' (va + Z.of_nat (length bytes)))|]; cbn.
    + rewrite store_bytes_in by lia. f_equal. unfold u8. rewrite Z.mod_mod by done. do 3 f_equal. lia.
    + by rewrite store_bytes_out by lia.
    + by rewrite store_bytes_out by lia.
  - assert (Hr : (va <=? va') && (va' <? va + Z.of_nat (length bytes)) = false).
    { destruct (Z.leb_spec va va'); [|done]. destruct (Z.ltb_spec va' (va + Z.of_nat (length bytes))); [|done].
      exfalso. apply E. destruct (page_same va (va' - va)) as [Hp _]; [lia|lia|].
      rewrite <- Hp. f_equal. lia. }
    rewrite Hr. destruct (Z.eqb_spec (uaddr T (km_mem s) va') 0) as [|Ha']; [done|].
    pose proof (uaddr_frame _ _ _ _ _ _ Hu Hva' Ha') as Hd'. f_equal. unfold load8, m'. f_equal.
    apply store_bytes_out. pose proof (Z.mod_pos_bound va' PGSIZE ltac:(done)).
    assert (Hne : uaddr T (km_mem s) va' <> pa).
    { intros Hq. rewrite Hq in Hd'. apply E. by eapply (us_inj _ _ _ _ _ Hu). }
    destruct (us_page _ _ _ _ _ Hu _ _ Hd) as (_&_&[Hal _]), (us_page _ _ _ _ _ Hu _ _ Hd') as (_&_&[Hal' _]).
    destruct (aligned_disjoint _ _ Hal Hal'); [done|lia|lia].
Qed.

(** The first [k] bytes of [src] have been written at [dstva]. *)
Definition written (s : kmst) (root : Z) (T : ptree) (l : list Z) (D : gmap Z Z) (dstva : Z) (src : list Z)
    (k : Z) (s' : kmst) : Prop :=
  uspace s' root T l D /\ (exists m, s' = set_mem m s) /\
  (forall x, ~ in_frames D x -> km_mem s' x = km_mem s x) /\
  forall va, 0 <= va -> ubyte T (km_mem s') va =
    if (dstva <=? va) && (va <? dstva + k) then Some (u8 (src !!! Z.to_nat (va - dstva)))
    else ubyte T (km_mem s) va.

(** [copyout] writes everything, or the bytes before the first address that user
    code may not access. *)
Definition copyout_post (s : kmst) (root : Z) (T : ptree) (l : list Z) (D : gmap Z Z) (dstva : Z) (src : list Z)
    (len r : Z) (s' : kmst) : Prop :=
  exists k, written s root T l D dstva src k s' /\
    ((r = 0 /\ k = len) \/ (r = -1 /\ 0 <= k < len /\ ubyte T (km_mem s) (dstva + k) = None)).

Definition writing (s : kmst) (root : Z) (T : ptree) (l : list Z) (D : gmap Z Z) (dstva : Z) (src : list Z)
    (len : Z) (n : nat) (v : Z * list Z * Z) (s' : kmst) : Prop :=
  let '(ln, src', va) := v in
  exists k, 0 <= k /\ written s root T l D dstva src k s' /\ 0 <= ln /\ ln = len - k /\
    src' = drop (Z.to_nat k) src /\ (ln = 0 \/ va = dstva + k) /\ n = Z.to_nat ln.

Lemma written_more s root T l D dstva src k s1 bytes m :
  let va := dstva + k in
  0 <= dstva -> 0 <= k -> written s root T l D dstva src k s1 ->
  bytes = take (length bytes) (drop (Z.to_nat k) src) ->
  (forall x, ~ in_frames D x -> m x = km_mem s1 x) ->
  (forall va', 0 <= va' -> ubyte T m va' =
     if (va <=? va') && (va' <? va + Z.of_nat (length bytes))
     then Some (u8 (bytes !!! Z.to_nat (va' - va))) else ubyte T (km_mem s1) va') ->
  written s root T l D dstva src (k + Z.of_nat (length bytes)) (set_mem m s1).
Proof.
  intros va Hd Hk (Hu&[m1 ->]&Hout&Hw) Hb Hm Hub.
  destruct (uspace_write _ _ _ _ _ m Hu Hm) as [Hu2 _]. split_and!; [done|by exists m| |].
  - intros x Hx. cbn. rewrite Hm, Hout; done.
  - intros va' Hva'. cbn. rewrite Hub by done. rewrite Hw by done. unfold va in *.
    destruct (Z.leb_spec (dstva + k) va'), (Z.ltb_spec va' (dstva + k + Z.of_nat (length bytes))),
      (Z.leb_spec dstva va'), (Z.ltb_spec va' (dstva + k)),
      (Z.ltb_spec va' (dstva + (k + Z.of_nat (length bytes)))); cbn; try lia; try done.
    do 2 f_equal. rewrite Hb, list_lookup_total_alt, lookup_take_lt by lia.
    rewrite lookup_drop, list_lookup_total_alt. do 2 f_equal. lia.
Qed.

Lemma copyout_step_spec s root T l D dstva src len n v s1 :
  0 <= dstva -> 0 <= len <= Z.of_nat (length src) ->
  writing s root T l D dstva src len n v s1 ->
  wp (copyout_step root v)
    (fun r s' => match r with
                 | inl v' => exists n', (n' < n)%nat /\ writing s root T l D dstva src len n' v' s'
                 | inr b => copyout_post s root T l D dstva src len b s'
                 end) s1.
Proof.
  intros Hd Hlen. destruct v as [[ln src'] va]. intros (k&Hk&Hw&Hl0&->&->&Hva&->). unfold copyout_step.
  destruct (Z.ltb_spec 0 (len - k)) as [Hl|Hl].
  2:{ apply wp_ret. exists k. split; [done|]. left. lia. }
  destruct Hva as [?| ->]; [lia|]. set (va := dstva + k).
  assert (Hwr := Hw). destruct Hwr as (Hu&_&_&Hub). pose proof (vmi_pt _ _ _ _ _ (us_vm _ _ _ _ _ Hu)) as Hp.
  apply wp_bind. eapply wp_ok.
  { apply (walkaddr_run kend kend_pos s1 root T); [done|apply PGROUNDDOWN_nonneg; lia]. }
  rewrite (uaddr_page T (km_mem s1) (PGROUNDDOWN va) va) by apply PGROUNDDOWN_idem.
  destruct (Z.eqb_spec (uaddr T (km_mem s1) va) 0) as [Ha|Ha].
  { apply wp_ret. exists k. split; [done|]. right. split_and!; [done|lia|lia|].
    specialize (Hub va ltac:(lia)). unfold ubyte in Hub at 1. rewrite Ha in Hub. cbn in Hub.
    destruct (Z.ltb_spec va (dstva + k)); [lia|]. rewrite andb_false_r in Hub. by rewrite Hub. }
  rewrite PGROUNDDOWN_off. change (if len - k <? PGSIZE - va mod PGSIZE then len - k else _) with (chunk va (len - k)).
  cbn zeta. pose proof (chunk_bounds va (len - k) Hl) as [Hc Hcp]. set (c := chunk va (len - k)) in *.
  set (bytes := take (Z.to_nat c) (drop (Z.to_nat k) src)).
  assert (Hbl : Z.of_nat (length bytes) = c) by (unfold bytes; rewrite length_take, length_drop; lia).
  destruct (write_chunk s1 root T l D va bytes Hu ltac:(lia) Ha ltac:(lia)) as [Hm Hb].
  apply wp_bind, wp_modify, wp_ret. exists (Z.to_nat (len - k - c)). split; [lia|].
  pose proof (uaddr_MAXVA _ _ _ Ha). exists (k + c). split_and!; [lia| |lia|lia| | |done].
  - rewrite <- Hbl. apply written_more; try done.
    unfold bytes. rewrite length_take, length_drop. f_equal. lia.
  - rewrite drop_drop. f_equal. lia.
  - destruct (chunk_next va (len - k) Hl ltac:(lia)) as [|Hn]; [left; unfold c; lia|right]. rewrite Hn. lia.
Qed.

Lemma copyout_spec s root T l D dstva src len :
  uspace s root T l D -> 0 <= dstva -> 0 <= len < 2 ^ 64 -> len <= Z.of_nat (length src) ->
  wp (copyout root dstva src len) (copyout_post s root T l D dstva src len) s.
Proof.
  intros Hu Hd Hlen Hsrc. unfold copyout.
  apply (wp_loop _ (writing s root T l D dstva src len)) with (n := Z.to_nat len).
  - intros n v s1 HI. apply copyout_step_spec; [done|lia|done].
  - exists 0. split; [lia|]. split; [|split_and!; try done; lia].
    split_and!; [done|exists (km_mem s); by destruct s|done|].
    intros va Hva. destruct (Z.leb_spec dstva va), (Z.ltb_spec va (dstva + 0)); cbn; lia || done.
  - lia.
Qed.
End Space.

(** The address space does not depend on the CPU. *)
Lemma uspace_cpu kend s root T l D c :
  uspace kend s root T l D -> cpu_ok c -> uspace kend (put cpuL c s) root T l D.
Proof.
  intros Hu Hc. apply (uspace_frame kend s root T l D (put cpuL c s) l); [done| |auto|done].
  destruct Hu as [[[H1 H2 H3 H4 H5] _ _] _ _ _ _ _ _]. by split.
Qed.

