(* ===== verification/UvmAlloc.v ===== *)
(** Growing, shrinking and copying user address spaces: [uvmunmap],
    [uvmdealloc], [uvmalloc] and [uvmcopy] of [src/kernel/vm.c].

    Each is specified by what happens to the bytes user code sees ([ubyte]) and
    to the pool of pages: the free pages, the tables and the frames of the
    process together. An operation that neither leaks nor steals a page leaves
    the pool as it was. *)

From S2P Require Import Prelude Params Spinlock Cstring Kalloc Vm PageTable Uvm.
Local Open Scope kernel_scope.

(** The pages an address space and the allocator hold. *)
Definition pool (T : ptree) (l : list Z) (D : gmap Z Z) (p : Z) : Prop :=
  p ∈ l \/ is_table T p \/ exists va, D !! va = Some p.

(** The pages of [D] outside a range. *)
Definition without (D : gmap Z Z) (lo hi : Z) : gmap Z Z :=
  filter (fun kv => ~ (lo <= kv.1 < hi)) D.

Lemma lookup_without D lo hi k :
  without D lo hi !! k = if decide (lo <= k < hi) then None else D !! k.
Proof.
  unfold without. rewrite map_lookup_filter. destruct (D !! k) as [v|]; cbn.
  - destruct (decide (lo <= k < hi)) as [Hd|Hd]; case_guard as Hg; tauto || done.
  - by case_decide.
Qed.

Section Space.
Variable kend : Z.
Hypothesis kend_pos : KERNBASE <= kend.
Implicit Types (T : ptree) (m : memory) (s : kmst) (l : list Z) (D : gmap Z Z).
Local Abbreviation uspace := (uspace kend).

(** Nothing outside the pool has changed. *)
Definition outside (T : ptree) (l : list Z) (D : gmap Z Z) (s s' : kmst) : Prop :=
  forall x, (forall p, pool T l D p -> ~ in_page p x) -> km_mem s' x = km_mem s x.

Lemma outside_refl T l D s : outside T l D s s.
Proof. by intros x _. Qed.

Lemma outside_trans T l D s T1 l1 D1 s1 s2 :
  (forall p, pool T1 l1 D1 p -> pool T l D p) ->
  outside T l D s s1 -> outside T1 l1 D1 s1 s2 -> outside T l D s s2.
Proof. intros Hp H1 H2 x Hx. rewrite H2, H1; auto. Qed.

Lemma outside_page T l D p s s' :
  pool T l D p -> (forall x, ~ in_page p x -> km_mem s' x = km_mem s x) -> outside T l D s s'.
Proof. intros Hp Hm x Hx. by apply Hm, Hx. Qed.

(** * One page *)

(** A page nobody holds. *)
Definition fresh (T : ptree) (l : list Z) (D : gmap Z Z) (p : Z) : Prop :=
  page_ok kend p /\ (p ∉ l) /\ ~ is_table T p /\ forall va, D !! va <> Some p.

Lemma fresh_not_table s root T l D p x :
  uspace s root T l D -> fresh T l D p -> in_page p x -> ~ in_tables T x.
Proof.
  intros Hu (Hok&_&Hnt&_) Hx (t&[path Ht]&Hx').
  apply (pages_disjoint kend p t x); try done; [|intros ->; apply Hnt; by exists path].
  exact (pti_ok _ _ _ _ (vmi_pt _ _ _ _ _ (us_vm _ _ _ _ _ _ Hu)) _ _ Ht).
Qed.

Lemma fresh_not_frame s root T l D p x :
  uspace s root T l D -> fresh T l D p -> in_page p x -> ~ in_frames D x.
Proof.
  intros Hu (Hok&_&_&Hnd) Hx (va&pa&Hd&Hx').
  apply (pages_disjoint kend p pa x); try done; [apply (us_page _ _ _ _ _ _ Hu _ _ Hd)|].
  intros ->. by apply (Hnd va).
Qed.

Lemma fresh_not_free s root T l D p x :
  uspace s root T l D -> fresh T l D p -> in_page p x -> ~ in_pages l x.
Proof.
  intros Hu (Hok&Hnl&_) Hx Hl. apply (in_pages_not kend p l x); try done.
  apply (kmi_ok _ _ _ (vmi_km _ _ _ _ _ (us_vm _ _ _ _ _ _ Hu))).
Qed.

(** What a step keeps of the user's bytes: the frames are untouched. *)
Definition same_frames (D : gmap Z Z) (s s' : kmst) : Prop :=
  forall x, in_frames D x -> km_mem s' x = km_mem s x.

Lemma ubyte_ext T m T' m' va :
  leaf T' m' va = leaf T m va ->
  (uaddr T m va <> 0 -> forall x, in_page (uaddr T m va) x -> m' x = m x) ->
  ubyte T' m' va = ubyte T m va.
Proof.
  intros Hl Hf. unfold ubyte, uaddr. rewrite Hl. fold (uaddr T m va).
  destruct (Z.eqb_spec (uaddr T m va) 0) as [|Ha]; [done|].
  f_equal. unfold load8. f_equal. apply Hf; [done|].
  pose proof (Z.mod_pos_bound va PGSIZE ltac:(done)). unfold in_page. lia.
Qed.

Lemma ubyte_same s root T l D T' s' va :
  uspace s root T l D -> 0 <= va -> leaf T' (km_mem s') va = leaf T (km_mem s) va ->
  same_frames D s s' -> ubyte T' (km_mem s') va = ubyte T (km_mem s) va.
Proof.
  intros Hu Hva Hl Hf. apply ubyte_ext; [done|]. intros Ha x Hx. apply Hf.
  exists (PGROUNDDOWN va), (uaddr T (km_mem s) va). split; [by eapply (uaddr_frame kend)|done].
Qed.

Lemma ubyte_invalid T m va : Z.land (leaf T m va) PTE_V = 0 -> ubyte T m va = None.
Proof. intros H. unfold ubyte, uaddr. rewrite H. by rewrite andb_false_r. Qed.

Lemma kalloc_uspace s root T l D :
  uspace s root T l D ->
  wp kalloc (fun r s' => csame (km_cpu s) (km_cpu s') /\
    (forall va, leaf T (km_mem s') va = leaf T (km_mem s) va) /\ same_frames D s s' /\ outside T l D s s' /\
    match l with
    | [] => r = 0 /\ uspace s' root T [] D
    | p :: l' => r = p /\ uspace s' root T l' D /\ fresh T l' D p /\
        forall x, ~ in_page p x -> km_mem s' x = km_mem s x
    end) s.
Proof.
  intros Hu. pose proof (us_vm _ _ _ _ _ _ Hu) as [Hk Hp Hd].
  destruct (kalloc_spec kend kend_pos s l Hk) as (r&s'&Hrun&Hc&Hpost). eapply wp_ok; [exact Hrun|].
  split; [done|]. destruct l as [|p l'].
  - destruct Hpost as (->&Hk'&Hm).
    destruct (uspace_frame kend s root T [] D s' [] Hu Hk') as [Hu' Hl]; [auto|by rewrite Hm|].
    split_and!; try done; intros x _; by rewrite Hm.
  - destruct Hpost as (->&Hok&Hnin&Hk'&_&Hout).
    assert (Hfr : fresh T l' D p).
    { split_and!; try done.
      - intros Ht. apply (Hd p Ht). by left.
      - intros va Hva. apply (us_priv _ _ _ _ _ _ Hu) in Hva as [Hx _]. apply Hx. by left. }
    destruct (uspace_frame kend s root T (p :: l') D s' l' Hu Hk') as [Hu' Hl].
    { intros q Hq. left. by right. }
    { intros x Hx. apply Hout. intros Hpx. destruct Hx as (t&[path Ht]&Hx).
      apply (pages_disjoint kend p t x); try done; [exact (pti_ok _ _ _ _ Hp _ _ Ht)|].
      intros ->. apply Hfr. by exists path. }
    split_and!; try done.
    + intros x Hx. apply Hout. intros Hpx. by apply (fresh_not_frame s' root T l' D p x).
    + apply (outside_page _ _ _ p); [|done]. left. by left.
Qed.

(** Giving a page nobody holds back. *)
Lemma kfree_uspace s root T l D p :
  uspace s root T l D -> fresh T l D p ->
  wp (kfree kend p) (fun _ s' => csame (km_cpu s) (km_cpu s') /\ uspace s' root T (p :: l) D /\
    (forall va, leaf T (km_mem s') va = leaf T (km_mem s) va) /\ same_frames D s s' /\
    forall x, ~ in_page p x -> km_mem s' x = km_mem s x) s.
Proof.
  intros Hu Hfr. pose proof Hfr as (Hok&Hnl&Hnt&Hnd).
  destruct (kfree_spec kend kend_pos s l p) as (s'&Hrun&Hc&Hk&Hout&_); [apply Hu|done|done|].
  eapply wp_ok; [exact Hrun|].
  destruct (uspace_frame kend s root T l D s' (p :: l) Hu Hk) as [Hu' Hl].
  - intros q [->|Hq]%elem_of_cons; [by right|by left].
  - intros x Hx. apply Hout. intros Hpx. by apply (fresh_not_table s root T l D p x).
  - split_and!; try done. intros x Hx. apply Hout. intros Hpx.
    by apply (fresh_not_frame s root T l D p x).
Qed.

(** Filling a page nobody holds. *)
Lemma fill_uspace s root T l D p m :
  uspace s root T l D -> fresh T l D p -> (forall x, ~ in_page p x -> m x = km_mem s x) ->
  uspace (set_mem m s) root T l D /\
  (forall va, leaf T m va = leaf T (km_mem s) va) /\ same_frames D s (set_mem m s).
Proof.
  intros Hu Hfr Hm.
  destruct (uspace_frame kend s root T l D (set_mem m s) l Hu) as [Hu' Hl].
  - apply km_inv_mem; [apply Hu|]. intros x Hx. apply Hm. intros Hpx.
    by apply (fresh_not_free s root T l D p x).
  - auto.
  - intros x Hx. apply Hm. intros Hpx. by apply (fresh_not_table s root T l D p x).
  - split_and!; try done. intros x Hx. apply Hm. intros Hpx.
    by apply (fresh_not_frame s root T l D p x).
Qed.

(** * Mapping and unmapping one page *)

Lemma uspace_unmap s root T l D a pa s' l' :
  uspace s root T l D -> D !! a = Some pa -> vm_inv kend s' root T l' ->
  (forall p, p ∈ l' -> p ∈ l \/ p = pa) ->
  (forall va, 0 <= va < MAXVA ->
     leaf T (km_mem s') va = if PGROUNDDOWN va =? a then 0 else leaf T (km_mem s) va) ->
  uspace s' root T l' (delete a D).
Proof.
  intros Hu Ha Hv Hl Hlf. assert (HT : TRAPFRAME < MAXVA) by done.
  assert (Hkey : forall va pa', delete a D !! va = Some pa' -> va <> a /\ D !! va = Some pa').
  { intros va pa' [? ?]%lookup_delete_Some. split; [by intros ->|done]. }
  pose proof Hu as [_ H1 H2 H3 H4 H5 H6]. split; try done.
  - intros va pa' [_ Hd]%Hkey. by apply H1.
  - intros va pa' [Hne Hd]%Hkey. destruct (H2 _ _ Hd) as [Hnl Hnt]. split; [|done].
    intros Hin. destruct (Hl _ Hin) as [| ->]; [done|]. by apply Hne, (H4 va a pa).
  - intros va pa' [Hne Hd]%Hkey. destruct (H1 _ _ Hd) as (Hal&Hr&_).
    rewrite Hlf, PGROUNDDOWN_id by (done || lia). destruct (Z.eqb_spec va a); [done|]. by apply H3.
  - intros va va' pa' [_ Hd]%Hkey [_ Hd']%Hkey. by apply (H4 va va' pa').
  - intros va Hva Hd. rewrite Hlf by lia. destruct (Z.eqb_spec (PGROUNDDOWN va) a) as [|Hne]; [done|].
    rewrite lookup_delete_ne in Hd by done. by apply H5.
  - intros va Hva. rewrite Hlf by (unfold TRAPFRAME, TRAMPOLINE, PGSIZE, MAXVA in *; lia).
    destruct (_ =? a); [by left|by apply H6].
Qed.

(** The entry of a page of the process. *)
Lemma frame_table s root T l D a pa :
  uspace s root T l D -> D !! a = Some pa -> exists t, table_of T a = Some t.
Proof.
  intros Hu Ha. destruct (us_leaf _ _ _ _ _ _ Hu _ _ Ha) as (HV&_). unfold leaf in HV.
  destruct (table_of T a) as [t|]; [by eexists|done].
Qed.

(** What unmapping the pages of [D] from [lo] up to [hi] leaves. *)
Record unmapped (s : kmst) (root : Z) (T : ptree) (l : list Z) (D : gmap Z Z) (do_free : bool) (lo hi : Z)
    (s' : kmst) (l' : list Z) : Prop := {
  um_space : uspace s' root T l' (without D lo hi);
  um_cpu : csame (km_cpu s) (km_cpu s');
  um_free p : p ∈ l' <-> p ∈ l \/ (do_free = true /\ exists a, lo <= a < hi /\ D !! a = Some p);
  um_mem : same_frames (without D lo hi) s s';
  um_leaf va : 0 <= va < MAXVA ->
    leaf T (km_mem s') va = if (lo <=? PGROUNDDOWN va) && (PGROUNDDOWN va <? hi) then 0 else leaf T (km_mem s) va;
  um_out : outside T l D s s';
}.

(** Freeing a frame that is still mapped. *)
Lemma free_frame s root T l D a pa do_free :
  uspace s root T l D -> D !! a = Some pa ->
  exists s1, when do_free (kfree kend pa) s = Ok tt s1 /\
    vm_inv kend s1 root T (if do_free then pa :: l else l) /\ csame (km_cpu s) (km_cpu s1) /\
    (forall x, ~ in_page pa x -> km_mem s1 x = km_mem s x) /\
    forall va, leaf T (km_mem s1) va = leaf T (km_mem s) va.
Proof.
  intros Hu Ha. pose proof (us_vm _ _ _ _ _ _ Hu) as Hv. destruct do_free; [|exists s; split_and!; done].
  destruct (us_page _ _ _ _ _ _ Hu _ _ Ha) as (_&_&Hok), (us_priv _ _ _ _ _ _ Hu _ _ Ha) as (Hnl&Hnt).
  pose proof Hv as [Hk Hp Hd].
  destruct (kfree_spec kend kend_pos s l pa Hk Hok Hnl) as (s1&Hrun&Hc&Hk1&Hout&_).
  assert (Ht : forall x, in_tables T x -> km_mem s1 x = km_mem s x).
  { intros x Hx. apply Hout. intros Hpx.
    apply (frame_not_table kend s root T l D x Hu); [by exists a, pa|done]. }
  exists s1. split_and!; try done.
  - split; [done|by eapply pt_inv_frame|].
    intros q Hq [->|Hin]%elem_of_cons; [done|by apply (Hd q)].
  - intros va. by eapply (leaf_frame kend).
Qed.

(** The body of [uvmunmap]'s loop on a mapped page. *)
Lemma unmap_one s root T l D a pa do_free :
  uspace s root T l D -> D !! a = Some pa ->
  exists t s', table_of T a = Some t /\
    (when do_free (kfree kend pa) ;; write64 (t + 8 * PX 0 a) 0) s = Ok tt s' /\
    uspace s' root T (if do_free then pa :: l else l) (delete a D) /\
    csame (km_cpu s) (km_cpu s') /\ same_frames (delete a D) s s' /\ outside T l D s s' /\
    (forall va, 0 <= va < MAXVA ->
       leaf T (km_mem s') va = if PGROUNDDOWN va =? a then 0 else leaf T (km_mem s) va).
Proof.
  intros Hu Ha. destruct (frame_table _ _ _ _ _ _ _ Hu Ha) as [t Ht].
  destruct (us_page _ _ _ _ _ _ Hu _ _ Ha) as (Hal&Hr&Hok), (us_priv _ _ _ _ _ _ Hu _ _ Ha) as (Hnl&Hnt).
  assert (HT : TRAPFRAME < MAXVA) by done. pose proof (us_vm _ _ _ _ _ _ Hu) as Hv.
  destruct (free_frame _ _ _ _ _ _ _ do_free Hu Ha) as (s1&Hrun&Hv1&Hc&Hout&Hlf1).
  exists t, (stored s1 (t + 8 * PX 0 a) 0). split; [done|].
  assert (Hlf : forall va, 0 <= va < MAXVA -> leaf T (km_mem (stored s1 (t + 8 * PX 0 a) 0)) va =
    if PGROUNDDOWN va =? a then 0 else leaf T (km_mem s) va).
  { intros va Hva. unfold stored. cbn.
    rewrite (leaf_store kend _ root T a va t) by (done || lia || apply Hv1).
    by rewrite (PGROUNDDOWN_id a), Hlf1. }
  split; [|split; [|split; [done|split; [|split; [|done]]]]].
  - erewrite bind_ok by exact Hrun. done.
  - eapply uspace_unmap; [done|done|by apply stored_inv| |done].
    intros p Hp. destruct do_free; [apply elem_of_cons in Hp; tauto|by left].
  - intros x Hx. unfold stored. cbn. rewrite store64_out.
    + apply Hout. intros Hpx. destruct Hx as (va&pa'&[Hne Hd]%lookup_delete_Some&Hx).
      apply (pages_disjoint kend pa pa' x); try done; [apply (us_page _ _ _ _ _ _ Hu _ _ Hd)|].
      intros <-. apply Hne. by eapply (us_inj _ _ _ _ _ _ Hu).
    + destruct (decide (t + 8 * PX 0 a <= x < t + 8 * PX 0 a + 8)); [exfalso|lia].
      apply (frame_not_table kend s root T l D x Hu).
      * destruct Hx as (va&pa'&[_ Hd]%lookup_delete_Some&Hx). by exists va, pa'.
      * exists t. split; [by eexists|]. apply (entry_in_page t (PX 0 a)); [by apply PX_range|done].
  - intros x Hx. unfold stored. cbn. rewrite store64_out; [apply Hout, Hx; right; right; by exists a|].
    destruct (decide (t + 8 * PX 0 a <= x < t + 8 * PX 0 a + 8)) as [Hin|]; [exfalso|lia].
    apply (Hx t); [right; left; by eexists|]. apply (entry_in_page t (PX 0 a)); [by apply PX_range|done].
Qed.

(** * [uvmunmap] *)

Lemma without_step D lo a :
  (forall k pa, D !! k = Some pa -> aligned k) -> aligned a -> lo <= a ->
  without D lo (a + PGSIZE) = delete a (without D lo a).
Proof.
  intros Hal Ha Hlo. assert (HP : PGSIZE = 4096) by done. apply map_eq. intros k.
  rewrite lookup_delete, !lookup_without. destruct (decide (a = k)) as [<-|Hne].
  - case_decide; [done|lia].
  - destruct (D !! k) as [pa|] eqn:Hk; [|by repeat case_decide].
    apply Hal in Hk. pose proof (page_lt_step a k Ha Hk). repeat case_decide; (done || lia).
Qed.

Lemma without_nil D lo : without D lo lo = D.
Proof. apply map_eq. intros k. rewrite lookup_without. case_decide; [lia|done]. Qed.

Lemma unmapped_nil s root T l D do_free lo : uspace s root T l D -> unmapped s root T l D do_free lo lo s l.
Proof.
  intros Hu. split; [by rewrite without_nil|done| |done| |apply outside_refl].
  - intros p. split; [by left|]. intros [|(_&a&?&_)]; [done|lia].
  - intros va _. destruct (Z.leb_spec lo (PGROUNDDOWN va)), (Z.ltb_spec (PGROUNDDOWN va) lo); cbn; lia || done.
Qed.

Lemma unmapped_step s root T l D do_free lo a pa s1 l1 s2 :
  uspace s root T l D -> aligned a -> lo <= a -> D !! a = Some pa ->
  unmapped s root T l D do_free lo a s1 l1 ->
  uspace s2 root T (if do_free then pa :: l1 else l1) (delete a (without D lo a)) ->
  csame (km_cpu s1) (km_cpu s2) -> same_frames (delete a (without D lo a)) s1 s2 ->
  outside T l1 (without D lo a) s1 s2 ->
  (forall va, 0 <= va < MAXVA ->
     leaf T (km_mem s2) va = if PGROUNDDOWN va =? a then 0 else leaf T (km_mem s1) va) ->
  unmapped s root T l D do_free lo (a + PGSIZE) s2 (if do_free then pa :: l1 else l1).
Proof.
  intros Hu Ha Hlo Hd [H1 H2 H3 H4 H5 H6] Hu2 Hc Hsf Hout Hlf. assert (HP : PGSIZE = 4096) by done.
  assert (Hal : forall k q, D !! k = Some q -> aligned k) by (intros k q Hk; apply (us_page _ _ _ _ _ _ Hu _ _ Hk)).
  assert (Hin : forall k, aligned k -> lo <= k < a + PGSIZE <-> lo <= k < a \/ k = a).
  { intros k Hk. pose proof (page_lt_step a k Ha Hk). lia. }
  split; rewrite ?without_step by done; [done|by etransitivity| | | |].
  - intros p. transitivity (p ∈ l1 \/ (do_free = true /\ p = pa)).
    { destruct do_free; [rewrite elem_of_cons|]; intuition congruence. }
    rewrite H3. split.
    + intros [[|(->&k&Hk&Hp)]|(->&->)]; [by left| |].
      * right. split; [done|]. exists k. split; [lia|done].
      * right. split; [done|]. exists a. split; [lia|done].
    + intros [|(->&k&Hk&Hp)]; [by left; left|]. apply Hin in Hk as [Hk|Hk]; [| |by eapply Hal].
      * left. right. split; [done|]. by exists k.
      * right. split; [done|]. congruence.
  - intros x Hx. rewrite Hsf by done. apply H4. destruct Hx as (k&q&[_ Hk]%lookup_delete_Some&Hx). by exists k, q.
  - intros va Hva. rewrite Hlf, H5 by done. pose proof (Hin _ (PGROUNDDOWN_aligned va)) as Hi.
    destruct (Z.eqb_spec (PGROUNDDOWN va) a), (Z.leb_spec lo (PGROUNDDOWN va)), (Z.ltb_spec (PGROUNDDOWN va) a),
      (Z.ltb_spec (PGROUNDDOWN va) (a + PGSIZE)); cbn; try done; lia.
  - eapply outside_trans; [|done|done]. intros p [Hp|[Hp|[k Hk]]]; [|by right; left|].
    + apply H3 in Hp as [|(_&k&_&Hk)]; [by left|]. right. right. by exists k.
    + rewrite lookup_without in Hk. case_decide; [done|]. right. right. by exists k.
Qed.

Definition unmapping (s : kmst) (root : Z) (T : ptree) (l : list Z) (D : gmap Z Z) (do_free : bool) (lo hi : Z)
    (n : nat) (a : Z) (s' : kmst) : Prop :=
  aligned a /\ lo <= a <= hi /\ n = Z.to_nat (hi - a) /\ exists l', unmapped s root T l D do_free lo a s' l'.

(** The loop body of [uvmunmap] on a page of the process. *)
Lemma uvmunmap_step_run s root T l D a pa hi do_free :
  uspace s root T l D -> D !! a = Some pa -> a < hi ->
  exists s', uvmunmap_step kend root hi do_free a s = Ok (inl (u64 (a + PGSIZE))) s' /\
    uspace s' root T (if do_free then pa :: l else l) (delete a D) /\
    csame (km_cpu s) (km_cpu s') /\ same_frames (delete a D) s s' /\ outside T l D s s' /\
    (forall va, 0 <= va < MAXVA ->
       leaf T (km_mem s') va = if PGROUNDDOWN va =? a then 0 else leaf T (km_mem s) va).
Proof.
  intros Hu Hd Hlt. destruct (unmap_one _ _ _ _ _ _ _ do_free Hu Hd) as (t&s'&Ht&Hrun&Hrest).
  exists s'. split; [|done]. destruct (us_page _ _ _ _ _ _ Hu _ _ Hd) as (_&Hr&_).
  destruct (us_leaf _ _ _ _ _ _ Hu _ _ Hd) as (HV&Hpa&Hfl). unfold leaf in HV, Hpa, Hfl. rewrite Ht in HV, Hpa, Hfl.
  assert (HT : TRAPFRAME < MAXVA) by done. pose proof (vmi_pt _ _ _ _ _ (us_vm _ _ _ _ _ _ Hu)) as Hp.
  unfold uvmunmap_step. destruct (Z.ltb_spec a hi); [|lia].
  erewrite bind_ok by (apply (walk_present kend kend_pos _ root T); [done|lia|done]).
  destruct (Z.eqb_spec (t + 8 * PX 0 a) 0) as [E|_]; [pose proof (slot_nonzero kend kend_pos _ _ _ _ _ Hp Ht); lia|].
  unfold read64, gets. erewrite bind_ok by done. apply nz_true in HV.
  destruct (Z.eqb_spec (Z.land (load64 (km_mem s) (t + 8 * PX 0 a)) PTE_V) 0); [done|].
  destruct (Z.eqb_spec (PTE_FLAGS (load64 (km_mem s) (t + 8 * PX 0 a))) PTE_V); [done|].
  rewrite Hpa. unfold bind in Hrun |- *. destruct (when do_free _ s); [|done]. by rewrite Hrun.
Qed.

Lemma uvmunmap_spec s root T l D va n do_free :
  uspace s root T l D -> aligned va -> 0 <= va -> 0 <= n -> va + n * PGSIZE <= TRAPFRAME ->
  (forall a, aligned a -> va <= a < va + n * PGSIZE -> is_Some (D !! a)) ->
  wp (uvmunmap kend root va n do_free)
    (fun _ s' => exists l', unmapped s root T l D do_free va (va + n * PGSIZE) s' l') s.
Proof.
  intros Hu Ha Hva Hn Hhi Hall. unfold uvmunmap. unfold aligned in Ha. rewrite Ha. cbn [nz negb Z.eqb].
  assert (HT : TRAPFRAME < 2 ^ 40) by done. assert (HP : PGSIZE = 4096) by done.
  rewrite u64_small by lia. set (hi := va + n * PGSIZE) in *.
  assert (Hhia : aligned hi) by (by apply aligned_add).
  apply (wp_loop _ (unmapping s root T l D do_free va hi)) with (n := Z.to_nat (hi - va)).
  - intros k a s1 (Haa&Hr&->&l1&Hum). destruct (decide (a = hi)) as [->|Hne].
    { unfold uvmunmap_step. destruct (Z.ltb_spec hi hi); [lia|]. apply wp_ret. by exists l1. }
    destruct (Hall a Haa ltac:(lia)) as [pa Hd].
    destruct (uvmunmap_step_run s1 root T l1 (without D va a) a pa hi do_free) as (s2&Hrun&Hu2&Hc&Hsf&Hout&Hlf).
    { apply Hum. } { rewrite lookup_without. case_decide; [lia|done]. } { lia. }
    eapply wp_ok; [exact Hrun|]. rewrite u64_small by lia.
    assert (a + PGSIZE <= hi) by (destruct (aligned_mult _ Haa) as [i ->], (aligned_mult _ Hhia) as [j ->]; lia).
    exists (Z.to_nat (hi - (a + PGSIZE))). split; [lia|].
    split_and!; [by apply aligned_step|lia|lia|done|]. eexists.
    eapply unmapped_step; try done. lia.
  - split_and!; [done|lia|unfold hi; lia|done|]. exists l. by apply unmapped_nil.
  - unfold hi. lia.
Qed.

(** * [uvmdealloc] *)

Lemma PGROUNDUP_mono a b : 0 <= a <= b -> b < 2 ^ 40 -> PGROUNDUP a <= PGROUNDUP b.
Proof.
  intros Ha Hb. destruct (PGROUNDUP_bounds a) as [Haa Hab], (PGROUNDUP_bounds b) as [Hba Hbb];
    try (unfold PGSIZE; lia).
  destruct (aligned_mult _ Haa) as [i Ei], (aligned_mult _ Hba) as [j Ej]. rewrite Ei, Ej in *. unfold PGSIZE in *. lia.
Qed.

Lemma uvmdealloc_spec s root T l D oldsz newsz :
  uspace s root T l D -> 0 <= newsz -> 0 <= oldsz <= TRAPFRAME ->
  (forall a, aligned a -> PGROUNDUP newsz <= a < PGROUNDUP oldsz -> is_Some (D !! a)) ->
  wp (uvmdealloc kend root oldsz newsz)
    (fun r s' => r = (if newsz <? oldsz then newsz else oldsz) /\
       exists l', unmapped s root T l D true (PGROUNDUP newsz)
         (if newsz <? oldsz then Z.max (PGROUNDUP newsz) (PGROUNDUP oldsz) else PGROUNDUP newsz) s' l') s.
Proof.
  intros Hu Hnew Hold Hall. unfold uvmdealloc.
  destruct (Z.leb_spec oldsz newsz), (Z.ltb_spec newsz oldsz); try lia.
  { apply wp_ret. split; [done|]. exists l. by apply unmapped_nil. }
  assert (HP : PGSIZE = 4096) by done. assert (HT : TRAPFRAME < 2 ^ 39) by done. assert (HTa : aligned TRAPFRAME) by done.
  destruct (PGROUNDUP_bounds newsz) as [Hna Hnb], (PGROUNDUP_bounds oldsz) as [Hoa Hob]; [lia..|].
  set (lo := PGROUNDUP newsz) in *. set (hi := PGROUNDUP oldsz) in *.
  assert (Hhi : hi <= TRAPFRAME).
  { destruct (aligned_mult _ Hoa) as [i Ei], (aligned_mult _ HTa) as [j Ej]. lia. }
  apply wp_bind. destruct (Z.ltb_spec lo hi) as [Hlt|Hge]; cbn [when].
  - assert (Hk : (hi - lo) / PGSIZE * PGSIZE = hi - lo).
    { destruct (aligned_mult _ Hna) as [i ->], (aligned_mult _ Hoa) as [j ->].
      rewrite <- Z.mul_sub_distr_r, Z.div_mul by lia. done. }
    set (k := (hi - lo) / PGSIZE) in *. assert (0 <= k < 2 ^ 27) by lia.
    assert (s32 k = k) as ->.
    { unfold s32, swrap. rewrite Z.mod_small by lia. cbn zeta. destruct (Z.ltb_spec k (2 ^ (32 - 1))); [done|lia]. }
    rewrite u64_small by lia. eapply wp_mono; [apply (uvmunmap_spec s root T l D lo k true); try done; try lia|].
    + intros a Haa Hr. apply Hall; [done|lia].
    + intros _ s' [l' Hum]. apply wp_ret. split; [done|]. exists l'.
      by replace (Z.max lo hi) with (lo + k * PGSIZE) by lia.
  - apply wp_ret, wp_ret. split; [done|]. exists l.
    replace (Z.max lo hi) with lo by lia. by apply unmapped_nil.
Qed.

(** * Mapping one page *)

Lemma grows_pool s T l s' T' l' D p : grows s T l s' T' l' -> pool T' l' D p <-> pool T l D p.
Proof.
  intros [_ _ (new&->&Ht&_)]. unfold pool. rewrite elem_of_app, Ht. tauto.
Qed.

(** Bytes a step that grows the tree does not touch. *)
Lemma grows_mem s T l s' T' l' x :
  grows s T l s' T' l' -> ~ in_tables T x -> ~ in_pages l x -> km_mem s' x = km_mem s x.
Proof.
  intros [_ _ (new&->&_&Hm)] Ht Hl. apply Hm; [done|]. intros Hn. apply Hl, in_pages_app. by left.
Qed.

Lemma grows_frames s root T l D s' T' l' :
  uspace s root T l D -> grows s T l s' T' l' -> same_frames D s s'.
Proof.
  intros Hu Hg x Hx. eapply grows_mem; [done|by eapply (frame_not_table kend)|by eapply (frame_not_free kend)].
Qed.

Lemma grows_uspace s root T l D s' T' l' :
  uspace s root T l D -> vm_inv kend s' root T' l' -> grows s T l s' T' l' ->
  (forall va, 0 <= va < MAXVA -> leaf T' (km_mem s') va = leaf T (km_mem s) va) ->
  uspace s' root T' l' D.
Proof.
  intros Hu Hv Hg Hlf. assert (HT : TRAPFRAME < MAXVA) by done. pose proof Hu as [_ H1 H2 H3 H4 H5 H6].
  split; try done.
  - intros va pa Hd. destruct (H2 _ _ Hd) as [Hnl Hnt]. destruct Hg as [_ _ (new&->&Ht&_)]. split.
    + intros Hin. apply Hnl, elem_of_app. by right.
    + rewrite Ht. intros [|Hin]; [done|]. apply Hnl, elem_of_app. by left.
  - intros va pa Hd. destruct (H1 _ _ Hd) as (_&Hr&_). rewrite Hlf by lia. by apply H3.
  - intros va Hva. rewrite Hlf by lia. by apply H5.
  - intros va Hva. rewrite Hlf by (unfold TRAPFRAME, TRAMPOLINE, PGSIZE, MAXVA in *; lia). by apply H6.
Qed.

Lemma uspace_map s root T l D a p perm s' T' l' :
  uspace s root T l D -> fresh T l D p -> aligned a -> 0 <= a < TRAPFRAME -> D !! a = None ->
  0 <= perm < 1024 -> Z.lor perm PTE_V <> PTE_V ->
  vm_inv kend s' root T' l' -> grows s T l s' T' l' ->
  (forall va, 0 <= va < MAXVA ->
     leaf T' (km_mem s') va = if PGROUNDDOWN va =? a then mk_pte p perm else leaf T (km_mem s) va) ->
  uspace s' root T' l' (<[a := p]> D).
Proof.
  intros Hu (Hok&Hpl&Hpt&Hpd) Ha Har Hda Hperm Hleafy Hv Hg Hlf. assert (HT : TRAPFRAME < MAXVA) by done.
  assert (Hf : 0 <= Z.lor perm PTE_V < 1024).
  { by apply (lor_lt_pow2 _ _ 10). }
  pose proof Hu as [_ H1 H2 H3 H4 H5 H6]. destruct Hg as [_ _ (new&->&Ht&_)].
  assert (Hpr := page_ok_range kend kend_pos p Hok). split; try done.
  - intros va pa. rewrite lookup_insert. case_decide as E; [subst; by intros [= <-]|apply H1].
  - intros va pa. rewrite lookup_insert, Ht. rewrite elem_of_app in Hpl. case_decide as E.
    + intros [= <-]. tauto.
    + intros Hd. destruct (H2 _ _ Hd) as [Hnl Hnt]. rewrite elem_of_app in Hnl. tauto.
  - intros va pa. rewrite lookup_insert. case_decide as E.
    + subst va. intros [= <-]. rewrite Hlf, PGROUNDDOWN_id, Z.eqb_refl by (done || lia).
      split; [apply mk_pte_V|]. rewrite mk_pte_eq. assert (Hpa : aligned p) by apply Hok.
      split; [by apply PTE2PA_PA2PTE|]. by rewrite PTE_FLAGS_PA2PTE.
    + intros Hd. destruct (H1 _ _ Hd) as (Hal&Hr&_). rewrite Hlf, PGROUNDDOWN_id by (done || lia).
      destruct (Z.eqb_spec va a); [congruence|]. by apply H3.
  - intros va va' pa. rewrite !lookup_insert. repeat case_decide; intros Hd Hd'; simplify_eq; [done|..].
    + by destruct (Hpd va').
    + by destruct (Hpd va).
    + by apply (H4 va va' pa).
  - intros va Hva. rewrite lookup_insert. case_decide as E; [done|]. intros Hd. rewrite Hlf by lia.
    destruct (Z.eqb_spec (PGROUNDDOWN va) a); [congruence|]. by apply H5.
  - intros va Hva. rewrite Hlf by (unfold TRAPFRAME, TRAMPOLINE, PGSIZE, MAXVA in *; lia).
    destruct (Z.eqb_spec (PGROUNDDOWN va) a) as [E|]; [|by apply H6].
    pose proof (PGROUNDDOWN_le TRAPFRAME va ltac:(lia)) as Hle. rewrite E in Hle. change (PGROUNDDOWN TRAPFRAME) with TRAPFRAME in Hle. lia.
Qed.

Lemma page_end a : aligned a -> PGROUNDDOWN (a + PGSIZE - 1) = a.
Proof.
  intros Ha. destruct (page_same a 4095) as [H _]; [lia|unfold aligned in Ha; rewrite Ha; unfold PGSIZE; lia|].
  rewrite (PGROUNDDOWN_id a Ha) in H. rewrite <- H at 2. f_equal. unfold PGSIZE. lia.
Qed.

Lemma page_eqb a page : aligned a -> aligned page -> (a <=? page) && (page <? a + PGSIZE) = (page =? a).
Proof.
  intros Ha Hp. pose proof (page_lt_step a page Ha Hp). assert (PGSIZE = 4096) by done.
  destruct (Z.leb_spec a page), (Z.ltb_spec page (a + PGSIZE)), (Z.eqb_spec page a); cbn; lia || done.
Qed.

(** The result of mapping the page [a] to a frame nobody holds. *)
Definition map_post (s : kmst) (root : Z) (T : ptree) (l : list Z) (D : gmap Z Z) (a p perm r : Z) (s' : kmst) : Prop :=
  exists T' l', grows s T l s' T' l' /\ fresh T' l' D p /\
    ((r = 0 /\ uspace s' root T' l' (<[a := p]> D) /\
      forall va, 0 <= va < MAXVA ->
        leaf T' (km_mem s') va = if PGROUNDDOWN va =? a then mk_pte p perm else leaf T (km_mem s) va) \/
     (r = -1 /\ l' = [] /\ uspace s' root T' l' D /\
      forall va, 0 <= va < MAXVA -> leaf T' (km_mem s') va = leaf T (km_mem s) va)).

Lemma fresh_grows s T l s' T' l' D p : grows s T l s' T' l' -> fresh T l D p -> fresh T' l' D p.
Proof.
  intros [_ _ (new&->&Ht&_)] (Hok&Hl&Hnt&Hnd). rewrite elem_of_app in Hl.
  split_and!; [done|tauto| |done]. rewrite Ht. tauto.
Qed.

Lemma map_page s root T l D a p perm :
  uspace s root T l D -> fresh T l D p -> aligned a -> 0 <= a < TRAPFRAME -> D !! a = None ->
  0 <= perm < 1024 -> Z.lor perm PTE_V <> PTE_V ->
  wp (mappages root a PGSIZE p perm) (map_post s root T l D a p perm) s.
Proof.
  intros Hu Hfr Ha Har Hda Hperm Hleafy. assert (HP : PGSIZE = 4096) by done.
  assert (HT : TRAPFRAME + PGSIZE < MAXVA) by done.
  pose proof (page_ok_range kend kend_pos p (proj1 Hfr)).
  eapply wp_mono.
  - apply (mappages_spec kend kend_pos s root T l a PGSIZE p perm (us_vm _ _ _ _ _ _ Hu)); try lia.
    rewrite (PGROUNDDOWN_id a), page_end by done. intros va Hva Hpg.
    assert (PGROUNDDOWN va = a) as E by lia.
    rewrite (leaf_page T (km_mem s) va a) by (by rewrite (PGROUNDDOWN_id a)).
    apply (us_dom _ _ _ _ _ _ Hu); [done|]. by rewrite PGROUNDDOWN_id.
  - intros r s' (T'&l'&Hv&Hg&Hr). rewrite (PGROUNDDOWN_id a), page_end in Hr by done.
    exists T', l'. split_and!; [done|by eapply fresh_grows|].
    assert (Hua : u64 (p + 0) = p) by (rewrite Z.add_0_r; apply u64_small; lia).
    destruct Hr as [[-> Hm]|(->&Hnil&stop&Hsa&Hs&Hm)]; [left|right; split; [done|]]; (split; [done|]).
    + assert (Hlf : forall va, 0 <= va < MAXVA -> leaf T' (km_mem s') va =
        if PGROUNDDOWN va =? a then mk_pte p perm else leaf T (km_mem s) va).
      { intros va Hva. rewrite Hm by done. cbn zeta. rewrite page_eqb by (done || apply PGROUNDDOWN_aligned).
        destruct (Z.eqb_spec (PGROUNDDOWN va) a) as [->|]; [|done]. by rewrite Z.sub_diag, Hua. }
      split; [|done]. by eapply uspace_map.
    + assert (Hlf : forall va, 0 <= va < MAXVA -> leaf T' (km_mem s') va = leaf T (km_mem s) va).
      { intros va Hva. rewrite Hm by done. cbn zeta.
        destruct (Z.leb_spec a (PGROUNDDOWN va)), (Z.ltb_spec (PGROUNDDOWN va) stop); cbn; (done || lia). }
      split; [|done]. by eapply grows_uspace.
Qed.

(** * Growing an address space *)

(** The address space as it was, on the same pool; tables may have been added. *)
Record kept (s : kmst) (root : Z) (T : ptree) (l : list Z) (D : gmap Z Z)
    (s' : kmst) (T' : ptree) (l' : list Z) : Prop := {
  kp_space : uspace s' root T' l' D;
  kp_cpu : csame (km_cpu s) (km_cpu s');
  kp_pool p : pool T' l' D p <-> pool T l D p;
  kp_out : outside T l D s s';
  kp_byte va : 0 <= va < MAXVA -> ubyte T' (km_mem s') va = ubyte T (km_mem s) va;
}.

(** The bytes and the flags the new pages are to have. *)
Section Grown.
Variables (f : Z -> option Z) (g : Z -> Z).

(** [s] has become [s'], with the pages of [D] kept, new pages from [lo] up to
    [hi] that hold the bytes [f] with the flags [g], the same pool of pages, the
    same CPU and nothing changed outside the pool. *)
Record grown (s : kmst) (root : Z) (T : ptree) (l : list Z) (D : gmap Z Z) (lo hi : Z)
    (s' : kmst) (T' : ptree) (l' : list Z) (D' : gmap Z Z) : Prop := {
  gn_space : uspace s' root T' l' D';
  gn_old : without D' lo hi = D;
  gn_new a : aligned a -> lo <= a < hi -> is_Some (D' !! a);
  gn_pool p : pool T' l' D' p <-> pool T l D p;
  gn_cpu : csame (km_cpu s) (km_cpu s');
  gn_byte va : 0 <= va < MAXVA ->
    ubyte T' (km_mem s') va = if (lo <=? va) && (va <? hi) then f va else ubyte T (km_mem s) va;
  gn_flags va : 0 <= va < MAXVA ->
    PTE_FLAGS (leaf T' (km_mem s') va) =
      if (lo <=? va) && (va <? hi) then g va else PTE_FLAGS (leaf T (km_mem s) va);
  gn_out : outside T l D s s';
}.

Lemma empty_range lo va : (lo <=? va) && (va <? lo) = false.
Proof. destruct (Z.leb_spec lo va), (Z.ltb_spec va lo); cbn; lia || done. Qed.

Lemma grown_refl s root T l D lo : uspace s root T l D -> grown s root T l D lo lo s T l D.
Proof.
  intros Hu. split; try done.
  - apply without_nil.
  - intros a _ ?. lia.
  - intros va _. by rewrite empty_range.
  - intros va _. by rewrite empty_range.
Qed.

(** A step that keeps the entries and the frames of the new address space. *)
Lemma grown_keep s root T l D lo hi s1 T1 l1 D1 s2 T2 l2 :
  grown s root T l D lo hi s1 T1 l1 D1 -> uspace s2 root T2 l2 D1 ->
  csame (km_cpu s1) (km_cpu s2) -> same_frames D1 s1 s2 ->
  (forall va, 0 <= va < MAXVA -> leaf T2 (km_mem s2) va = leaf T1 (km_mem s1) va) ->
  (forall q, pool T2 l2 D1 q <-> pool T1 l1 D1 q) -> outside T1 l1 D1 s1 s2 ->
  grown s root T l D lo hi s2 T2 l2 D1.
Proof.
  intros [G1 G2 G3 G4 G5 G6 G7 G8] Hu Hc Hs Hl Hp Ho. split; try done.
  - intros p. by rewrite Hp.
  - by etransitivity.
  - intros va Hva. rewrite <- G6 by done. by apply (ubyte_same s1 root T1 l1 D1); [|lia|auto|].
  - intros va Hva. by rewrite <- G7, Hl.
  - eapply outside_trans; [|done|done]. intros p. by rewrite G4.
Qed.

(** The byte behind an entry [mappages] wrote, and the entry's flags. *)
Lemma ubyte_mk_pte T m va p perm :
  0 <= va < MAXVA -> leaf T m va = mk_pte p perm -> page_ok kend p -> 0 <= perm < 1024 ->
  ubyte T m va = if nz (Z.land perm PTE_U) then Some (load8 m (p + va mod PGSIZE)) else None.
Proof.
  intros Hva Hl Hok Hperm. unfold ubyte, uaddr. rewrite Hl, mk_pte_V, mk_pte_eq.
  pose proof (page_ok_range kend kend_pos p Hok). pose proof (page_ok_pos kend kend_pos p Hok).
  assert (Hf : 0 <= Z.lor perm PTE_V < 1024) by (by apply (lor_lt_pow2 _ _ 10)).
  assert (Hpa : aligned p) by apply Hok. destruct (Z.ltb_spec va MAXVA); [|lia].
  rewrite land_PTE_PA2PTE, Z.land_lor_distr_l by done. change (Z.land PTE_V PTE_U) with 0.
  rewrite Z.lor_0_r, PTE2PA_PA2PTE by done. destruct (nz (Z.land perm PTE_U)); [|done]. cbn.
  by destruct (Z.eqb_spec p 0); [lia|].
Qed.

Lemma flags_mk_pte p perm : page_ok kend p -> 0 <= perm < 1024 -> PTE_FLAGS (mk_pte p perm) = Z.lor perm PTE_V.
Proof.
  intros Hok Hperm. rewrite mk_pte_eq. apply PTE_FLAGS_PA2PTE; [apply Hok|by apply (page_ok_range kend)|].
  by apply (lor_lt_pow2 _ _ 10).
Qed.

(** Unmapped pages have no bytes; the others keep theirs. *)
Lemma ubyte_unmapped s root T l D do_free lo hi s' l' va :
  uspace s root T l D -> unmapped s root T l D do_free lo hi s' l' -> 0 <= va < MAXVA ->
  ubyte T (km_mem s') va =
    if (lo <=? PGROUNDDOWN va) && (PGROUNDDOWN va <? hi) then None else ubyte T (km_mem s) va.
Proof.
  intros Hu [_ _ _ Hsf Hlf _] Hva. specialize (Hlf va Hva).
  destruct (_ && _) eqn:E; [apply ubyte_invalid; by rewrite Hlf|].
  apply ubyte_ext; [done|]. intros Ha x Hx. apply Hsf.
  exists (PGROUNDDOWN va), (uaddr T (km_mem s) va). split; [|done]. rewrite lookup_without.
  case_decide; [|eapply (uaddr_frame kend); [done|lia|done]].
  destruct (Z.leb_spec lo (PGROUNDDOWN va)), (Z.ltb_spec (PGROUNDDOWN va) hi); (done || lia).
Qed.

Lemma page_range lo hi va : aligned lo -> aligned hi ->
  (lo <=? PGROUNDDOWN va) && (PGROUNDDOWN va <? hi) = (lo <=? va) && (va <? hi).
Proof.
  intros Hlo Hhi. pose proof (PGROUNDDOWN_bounds va).
  assert (Hl : (lo <=? PGROUNDDOWN va) = (lo <=? va)).
  { destruct (Z.leb_spec lo (PGROUNDDOWN va)), (Z.leb_spec lo va); try lia.
    pose proof (PGROUNDDOWN_le lo va ltac:(lia)) as Hle. rewrite (PGROUNDDOWN_id lo) in Hle by done. lia. }
  assert (Hh : (PGROUNDDOWN va <? hi) = (va <? hi)).
  { destruct (Z.ltb_spec (PGROUNDDOWN va) hi), (Z.ltb_spec va hi); try lia.
    pose proof (PGROUNDDOWN_le hi va ltac:(lia)) as Hle. rewrite (PGROUNDDOWN_id hi) in Hle by done. lia. }
  by rewrite Hl, Hh.
Qed.

(** Taking the new pages away again gives the old address space back. *)
Lemma grown_undo s root T l D lo a s1 T1 l1 D1 s2 l2 :
  uspace s root T l D -> aligned lo -> aligned a -> a <= TRAPFRAME -> 0 <= lo ->
  grown s root T l D lo a s1 T1 l1 D1 -> unmapped s1 root T1 l1 D1 true lo a s2 l2 ->
  kept s root T l D s2 T1 l2.
Proof.
  intros Hu Hlo Ha Hat Hlo0 [G1 G2 G3 G4 G5 G6 G7 G8] Hum.
  pose proof Hum as [U1 U2 U3 U4 U5 U6]. rewrite G2 in *. split; [done|by etransitivity| | |].
  - intros p. rewrite <- G4. unfold pool. rewrite U3. split.
    + intros [[?|(_&k&_&Hk)]|[?|[k Hk]]]; [tauto|by right; right; exists k|tauto|].
      right. right. exists k. rewrite <- G2, lookup_without in Hk. by case_decide.
    + intros [?|[?|[k Hk]]]; [tauto|tauto|]. destruct (decide (lo <= k < a)) as [Hr|Hr].
      * left. right. split; [done|]. by exists k.
      * right. right. exists k. by rewrite <- G2, lookup_without, decide_False.
  - eapply outside_trans; [|done|done]. intros p. by rewrite G4.
  - intros va Hva. rewrite (ubyte_unmapped _ _ _ _ _ _ _ _ _ _ va G1 Hum Hva), G6, page_range by done.
    destruct (Z.leb_spec lo va); [|done]. destruct (Z.ltb_spec va a); [|done]. cbn [andb].
    symmetry. apply ubyte_invalid, (us_dom _ _ _ _ _ _ Hu); [lia|].
    assert (Hr : (lo <=? PGROUNDDOWN va) && (PGROUNDDOWN va <? a) = true).
    { rewrite page_range by done. apply andb_true_iff. rewrite Z.leb_le, Z.ltb_lt. lia. }
    apply andb_true_iff in Hr as [?%Z.leb_le ?%Z.ltb_lt].
    rewrite <- G2, lookup_without. case_decide; [done|lia].
Qed.

Lemma pool_insert T l D a p q : D !! a = None -> pool T l (<[a := p]> D) q <-> pool T l D q \/ q = p.
Proof.
  intros Hna. unfold pool. split.
  - intros [?|[?|[k Hk]]]; [tauto|tauto|]. rewrite lookup_insert in Hk. case_decide; [right; congruence|].
    left. right. right. by exists k.
  - intros [[?|[?|[k Hk]]]| ->]; [tauto|tauto| |].
    + right. right. exists k. rewrite lookup_insert_ne by congruence. done.
    + right. right. exists a. apply lookup_insert_eq.
Qed.

(** One page more at the end of a range. *)
Lemma range_step lo a va : aligned lo -> aligned a -> lo <= a ->
  (lo <=? va) && (va <? a + PGSIZE) = (PGROUNDDOWN va =? a) || ((lo <=? va) && (va <? a)).
Proof.
  intros Hlo Ha Hla. assert (HP : PGSIZE = 4096) by done.
  rewrite <- (page_range lo a va), <- (page_range lo (a + PGSIZE) va) by (done || by apply aligned_step).
  pose proof (page_lt_step a _ Ha (PGROUNDDOWN_aligned va)).
  destruct (Z.eqb_spec (PGROUNDDOWN va) a), (Z.leb_spec lo (PGROUNDDOWN va)),
    (Z.ltb_spec (PGROUNDDOWN va) (a + PGSIZE)), (Z.ltb_spec (PGROUNDDOWN va) a); cbn; (done || lia).
Qed.

(** A new page at the end of the range. *)
Lemma grown_page s root T l D lo a s1 T1 l1 D1 p perm s' T' l' :
  aligned lo -> aligned a -> lo <= a -> 0 <= a < TRAPFRAME ->
  grown s root T l D lo a s1 T1 (p :: l1) D1 -> D1 !! a = None -> page_ok kend p ->
  uspace s' root T' l' (<[a := p]> D1) -> csame (km_cpu s1) (km_cpu s') ->
  (forall q, pool T' l' D1 q <-> pool T1 l1 D1 q) -> same_frames D1 s1 s' -> outside T1 (p :: l1) D1 s1 s' ->
  (forall va, 0 <= va < MAXVA ->
     leaf T' (km_mem s') va = if PGROUNDDOWN va =? a then mk_pte p perm else leaf T1 (km_mem s1) va) ->
  (forall va, PGROUNDDOWN va = a -> ubyte T' (km_mem s') va = f va /\ PTE_FLAGS (mk_pte p perm) = g va) ->
  grown s root T l D lo (a + PGSIZE) s' T' l' (<[a := p]> D1).
Proof.
  intros Hlo Ha Hla Har [G1 G2 G3 G4 G5 G6 G7 G8] Hna Hok Hu' Hc Hpool Hsf Hout Hlf Hfg.
  assert (HP : PGSIZE = 4096) by done. split; try done.
  - apply map_eq. intros k. rewrite <- G2, !lookup_without, lookup_insert.
    destruct (decide (a = k)) as [<-|Hne]; [repeat case_decide; (done || lia)|].
    destruct (D1 !! k) as [q|] eqn:Hk; [|by repeat case_decide].
    apply (us_page _ _ _ _ _ _ G1) in Hk as (Hka&_). pose proof (page_lt_step a k Ha Hka).
    repeat case_decide; (done || lia).
  - intros k Hk Hr. rewrite lookup_insert. case_decide; [done|]. apply G3; [done|].
    pose proof (page_lt_step a k Ha Hk). lia.
  - intros q. rewrite <- G4, pool_insert, Hpool by done. unfold pool. rewrite elem_of_cons. tauto.
  - by etransitivity.
  - intros va Hva. rewrite range_step by done. specialize (Hlf va Hva).
    destruct (Z.eqb_spec (PGROUNDDOWN va) a) as [E|E]; cbn [orb]; [by apply Hfg|].
    rewrite <- G6 by done. by apply (ubyte_same s1 root T1 (p :: l1) D1); [|lia|..].
  - intros va Hva. rewrite range_step, Hlf by done.
    destruct (Z.eqb_spec (PGROUNDDOWN va) a) as [E|E]; cbn [orb]; [by apply Hfg|by rewrite <- G7].
  - eapply outside_trans; [|done|done]. intros q. by rewrite G4.
Qed.

(** A page taken ([s2]), filled ([m3]) and mapped: one page more, or the entries
    and frames as they were. *)
Lemma fill_and_map s root T l D lo a s1 T1 p l1 D1 s2 m3 perm :
  uspace s root T l D -> aligned lo -> aligned a -> 0 <= lo <= a -> a < TRAPFRAME -> D !! a = None ->
  grown s root T l D lo a s1 T1 (p :: l1) D1 ->
  csame (km_cpu s1) (km_cpu s2) -> (forall va, leaf T1 (km_mem s2) va = leaf T1 (km_mem s1) va) ->
  same_frames D1 s1 s2 -> outside T1 (p :: l1) D1 s1 s2 -> uspace s2 root T1 l1 D1 -> fresh T1 l1 D1 p ->
  (forall x, ~ in_page p x -> m3 x = km_mem s2 x) ->
  0 <= perm < 1024 -> Z.lor perm PTE_V <> PTE_V ->
  (forall va, PGROUNDDOWN va = a ->
     f va = (if nz (Z.land perm PTE_U) then Some (load8 m3 (p + va mod PGSIZE)) else None) /\
     Z.lor perm PTE_V = g va) ->
  wp (mappages root a PGSIZE p perm)
    (fun r s' => exists T' l', fresh T' l' D1 p /\
       ((r = 0 /\ grown s root T l D lo (a + PGSIZE) s' T' l' (<[a := p]> D1)) \/
        (r = -1 /\ l' = [] /\ uspace s' root T' l' D1 /\ csame (km_cpu s1) (km_cpu s') /\ same_frames D1 s1 s' /\
         (forall q, pool T' l' D1 q <-> pool T1 l1 D1 q) /\ outside T1 (p :: l1) D1 s1 s' /\
         forall va, 0 <= va < MAXVA -> leaf T' (km_mem s') va = leaf T1 (km_mem s1) va)))
    (set_mem m3 s2).
Proof.
  intros Hu Hlo Ha Hla Hat Hda Hg Hc2 Hl2 Hs2 Ho2 Hu2 Hfr Hm3 Hperm Hleafy Hfg.
  assert (Hd1 : D1 !! a = None).
  { rewrite <- (gn_old _ _ _ _ _ _ _ _ _ _ _ Hg), lookup_without, decide_False in Hda by lia. done. }
  destruct (fill_uspace s2 root T1 l1 D1 p m3 Hu2 Hfr Hm3) as (Hu3&Hl3&Hs3).
  set (s3 := set_mem m3 s2) in *.
  eapply wp_mono; [apply (map_page s3 root T1 l1 D1 a p); try done; lia|].
  intros r s4 (T'&l'&Hgr&Hfr'&Hr). exists T', l'. split; [done|].
  assert (Hs4 : same_frames D1 s1 s4).
  { intros x Hx. rewrite (grows_frames s3 root T1 l1 D1 s4 T' l') by done. rewrite Hs3, Hs2; done. }
  assert (Hp4 : forall q, pool T' l' D1 q <-> pool T1 l1 D1 q) by (intros q; by eapply grows_pool).
  assert (Hc4 : csame (km_cpu s1) (km_cpu s4)) by (etransitivity; [exact Hc2|apply Hgr]).
  assert (Ho4 : outside T1 (p :: l1) D1 s1 s4).
  { intros x Hx. rewrite (grows_mem s3 T1 l1 s4 T' l' x Hgr).
    - unfold s3. cbn. rewrite Hm3; [by apply Ho2|]. apply Hx. left. by left.
    - intros (t&Ht&Hxt). apply (Hx t); [by right; left|done].
    - intros (q&Hq&Hxq). apply (Hx q); [left; by right|done]. }
  destruct Hr as [(->&Hu4&Hl4)|(->&Hnil&Hu4&Hl4)]; [left|right; split; [done|]]; (split; [done|]).
  - apply (grown_page s root T l D lo a s1 T1 l1 D1 p perm s4 T' l'); try done; try lia; [apply Hfr| |].
    + intros va Hva. rewrite Hl4 by done. unfold s3. cbn. by rewrite Hl3, Hl2.
    + intros va E. destruct (Hfg va E) as [-> <-]. pose proof (PGROUNDDOWN_bounds va).
      assert (HT : TRAPFRAME + PGSIZE < MAXVA) by done.
      split; [|apply flags_mk_pte; [apply Hfr|done]].
      rewrite (ubyte_mk_pte T' (km_mem s4) va p perm); [|lia| |apply Hfr|done].
      * destruct (nz _); [|done]. f_equal. unfold load8. f_equal.
        assert (in_page p (p + va mod PGSIZE)).
        { pose proof (Z.mod_pos_bound va PGSIZE ltac:(done)). unfold in_page. lia. }
        rewrite (grows_mem s3 T1 l1 s4 T' l' _ Hgr); [done|by eapply fresh_not_table|by eapply fresh_not_free].
      * rewrite Hl4 by lia. by rewrite E, Z.eqb_refl.
  - split_and!; try done. intros va Hva. rewrite Hl4 by done. unfold s3. cbn. by rewrite Hl3, Hl2.
Qed.
End Grown.

Lemma PGROUNDUP_id a : aligned a -> 0 <= a < 2 ^ 40 -> PGROUNDUP a = a.
Proof.
  intros Ha Hr. destruct (PGROUNDUP_bounds a) as [Hua Hub]; [unfold PGSIZE; lia|].
  destruct (aligned_mult _ Ha) as [i Ei], (aligned_mult _ Hua) as [j Ej]. unfold PGSIZE in *. lia.
Qed.

(** * [uvmalloc] *)

Definition zeroed (va : Z) : option Z := Some 0.
Definition heap_perm : Z := Z.lor (Z.lor (Z.lor PTE_W PTE_X) PTE_R) PTE_U.
Definition heap_flags (va : Z) : Z := Z.lor heap_perm PTE_V.

(** The roll back of [uvmalloc]. *)
Lemma uvmalloc_undo s root T l D lo a s1 T1 l1 D1 :
  uspace s root T l D -> aligned lo -> aligned a -> 0 <= lo <= a -> a <= TRAPFRAME ->
  grown zeroed heap_flags s root T l D lo a s1 T1 l1 D1 ->
  wp (uvmdealloc kend root a lo) (fun _ s' => exists l', kept s root T l D s' T1 l') s1.
Proof.
  intros Hu Hlo Ha Hla Hat Hg. assert (HT : TRAPFRAME < 2 ^ 39) by done. eapply wp_mono.
  - apply (uvmdealloc_spec s1 root T1 l1 D1 a lo); [apply Hg|lia|lia|].
    intros k Hk Hr. rewrite !PGROUNDUP_id in Hr by (done || lia). by apply Hg.
  - intros r s2 (_&l2&Hum). exists l2. rewrite !PGROUNDUP_id in Hum by (done || lia).
    replace (if lo <? a then Z.max lo a else lo) with a in Hum by (destruct (Z.ltb_spec lo a); lia).
    by apply (grown_undo zeroed heap_flags s root T l D lo a s1 T1 l1 D1); try lia.
Qed.

(** What [uvmalloc] leaves: the range mapped and zeroed, or, when memory runs
    out, the address space it started from. *)
Definition uvmalloc_post (s : kmst) (root : Z) (T : ptree) (l : list Z) (D : gmap Z Z) (lo newsz r : Z) (s' : kmst) : Prop :=
  exists T' l',
    (r = newsz /\ exists D', grown zeroed heap_flags s root T l D lo (PGROUNDUP newsz) s' T' l' D') \/
    (r = 0 /\ kept s root T l D s' T' l').

Definition allocating (s : kmst) (root : Z) (T : ptree) (l : list Z) (D : gmap Z Z) (lo newsz : Z)
    (n : nat) (a : Z) (s' : kmst) : Prop :=
  aligned a /\ lo <= a <= PGROUNDUP newsz /\ n = Z.to_nat (PGROUNDUP newsz - a) /\
  exists T' l' D', grown zeroed heap_flags s root T l D lo a s' T' l' D'.

(** The page [fill_and_map] could not map goes back to the allocator. *)
Lemma unfilled f g s root T l D lo a s1 T1 p l1 D1 s4 T' l' :
  grown f g s root T l D lo a s1 T1 (p :: l1) D1 -> fresh T' l' D1 p ->
  uspace s4 root T' l' D1 -> csame (km_cpu s1) (km_cpu s4) -> same_frames D1 s1 s4 ->
  (forall q, pool T' l' D1 q <-> pool T1 l1 D1 q) -> outside T1 (p :: l1) D1 s1 s4 ->
  (forall va, 0 <= va < MAXVA -> leaf T' (km_mem s4) va = leaf T1 (km_mem s1) va) ->
  wp (kfree kend p) (fun _ s5 => grown f g s root T l D lo a s5 T' (p :: l') D1) s4.
Proof.
  intros Hg Hfr Hu4 Hc4 Hs4 Hp4 Ho4 Hl4.
  eapply wp_mono; [by apply (kfree_uspace s4 root T' l' D1 p)|].
  intros _ s5 (Hc5&Hu5&Hl5&Hs5&Ho5). eapply grown_keep; [done|done|by etransitivity| | | |].
  - intros x Hx. rewrite Hs5, Hs4; done.
  - intros va Hva. by rewrite Hl5, Hl4.
  - intros q. specialize (Hp4 q). unfold pool in *. rewrite !elem_of_cons. tauto.
  - intros x Hx. rewrite Ho5; [by apply Ho4|]. apply Hx. left. by left.
Qed.

Lemma uvmalloc_step_spec s root T l D lo newsz n a s1 :
  uspace s root T l D -> aligned lo -> 0 <= lo -> 0 <= newsz <= TRAPFRAME ->
  (forall k, aligned k -> lo <= k < newsz -> D !! k = None) ->
  allocating s root T l D lo newsz n a s1 ->
  wp (uvmalloc_step kend root lo newsz a)
    (fun r s' => match r with
                 | inl a' => exists n', (n' < n)%nat /\ allocating s root T l D lo newsz n' a' s'
                 | inr b => uvmalloc_post s root T l D lo newsz b s'
                 end) s1.
Proof.
  intros Hu Hlo Hlo0 Hnew Hfree (Ha&Hla&->&T1&l1&D1&Hg).
  assert (HP : PGSIZE = 4096) by done. assert (HT : TRAPFRAME < 2 ^ 39) by done.
  destruct (PGROUNDUP_bounds newsz) as [Hna Hnb]; [lia|]. unfold uvmalloc_step.
  destruct (Z.ltb_spec a newsz) as [Hlt|Hge].
  2:{ apply wp_ret. exists T1, l1. left. split; [done|]. exists D1.
      replace (PGROUNDUP newsz) with a; [done|].
      destruct (aligned_mult _ Ha) as [i Ei], (aligned_mult _ Hna) as [j Ej]. lia. }
  assert (a + PGSIZE <= PGROUNDUP newsz).
  { destruct (aligned_mult _ Ha) as [i Ei], (aligned_mult _ Hna) as [j Ej]. lia. }
  apply wp_bind. eapply wp_mono; [apply (kalloc_uspace s1 root T1 l1 D1); apply Hg|].
  intros mem s2 (Hc2&Hl2&Hs2&Ho2&Hpost). destruct l1 as [|p l1].
  - destruct Hpost as (->&Hu2). cbn [Z.eqb]. apply wp_bind. eapply wp_mono.
    + apply (uvmalloc_undo s root T l D lo a s2 T1 [] D1); try done; try lia. by eapply grown_keep.
    + intros r s3 [l3 Hg3]. apply wp_ret. exists T1, l3. by right.
  - destruct Hpost as (->&Hu2&Hfr&_). pose proof (page_ok_pos kend kend_pos p (proj1 Hfr)).
    destruct (Z.eqb_spec p 0); [lia|]. apply wp_bind, wp_modify, wp_bind. eapply wp_mono.
    + apply (fill_and_map zeroed heap_flags s root T l D lo a s1 T1 p l1 D1); try done; try lia.
      * apply Hfree; [done|lia].
      * intros x Hx. apply memset_out. unfold in_page in Hx. lia.
      * intros va _. split; [|done]. pose proof (Z.mod_pos_bound va PGSIZE).
        change (nz _) with true. cbn iota. unfold zeroed, load8. rewrite memset_in by lia. done.
    + intros r s4 (T'&l'&Hfr'&[(->&Hg4)|(->&_&Hu4&Hc4&Hs4&Hp4&Ho4&Hl4)]).
      * change (nz 0) with false. cbn iota. apply wp_ret.
        exists (Z.to_nat (PGROUNDUP newsz - (a + PGSIZE))). split; [lia|]. rewrite u64_small by lia.
        split_and!; [by apply aligned_step|lia|lia|done|]. by exists T', l', (<[a := p]> D1).
      * change (nz (-1)) with true. cbn iota. apply wp_bind. eapply wp_mono.
        { by apply (unfilled zeroed heap_flags s root T l D lo a s1 T1 p l1 D1 s4 T' l'). }
        intros [] s5 Hg5. apply wp_bind. eapply wp_mono.
        -- apply (uvmalloc_undo s root T l D lo a s5 T' (p :: l') D1); try done; lia.
        -- intros r s6 [l6 Hg6]. apply wp_ret. exists T', l6. by right.
Qed.

Lemma uvmalloc_spec s root T l D oldsz newsz :
  uspace s root T l D -> 0 <= oldsz <= newsz -> newsz <= TRAPFRAME ->
  (forall a, aligned a -> PGROUNDUP oldsz <= a < newsz -> D !! a = None) ->
  wp (uvmalloc kend root oldsz newsz) (uvmalloc_post s root T l D (PGROUNDUP oldsz) newsz) s.
Proof.
  intros Hu Hold Hnew Hfree. unfold uvmalloc. destruct (Z.ltb_spec newsz oldsz); [lia|].
  assert (HP : PGSIZE = 4096) by done. assert (HT : TRAPFRAME < 2 ^ 39) by done.
  destruct (PGROUNDUP_bounds oldsz) as [Hoa Hob]; [lia|]. pose proof (PGROUNDUP_mono oldsz newsz).
  destruct (PGROUNDUP_bounds newsz) as [Hna Hnb]; [lia|]. cbn zeta. set (lo := PGROUNDUP oldsz) in *.
  apply (wp_loop _ (allocating s root T l D lo newsz)) with (n := Z.to_nat (PGROUNDUP newsz - lo)).
  - intros n a s1 HI. apply uvmalloc_step_spec; try done; lia.
  - split_and!; [done|lia|lia|done|]. exists T, l, D. by apply grown_refl.
  - lia.
Qed.

(** * Two address spaces *)

(** The pages of one are not pages of the other. *)
Definition apart (T1 : ptree) (D1 : gmap Z Z) (T2 : ptree) (D2 : gmap Z Z) : Prop :=
  forall p, is_table T1 p \/ (exists va, D1 !! va = Some p) -> ~ is_table T2 p /\ forall va, D2 !! va <> Some p.

Lemma pool_page_ok s root T l D p : uspace s root T l D -> pool T l D p -> page_ok kend p.
Proof.
  intros Hu [Hp|[[path Hp]|[va Hp]]].
  - pose proof (kmi_ok _ _ _ (vmi_km _ _ _ _ _ (us_vm _ _ _ _ _ _ Hu))) as Hok.
    by apply (proj1 (Forall_forall _ _) Hok).
  - exact (pti_ok _ _ _ _ (vmi_pt _ _ _ _ _ (us_vm _ _ _ _ _ _ Hu)) _ _ Hp).
  - apply (us_page _ _ _ _ _ _ Hu _ _ Hp).
Qed.

(** The bytes of one address space lie outside the pool of the other. *)
Lemma apart_out s ro To l Do rn Tn Dn x :
  uspace s ro To l Do -> uspace s rn Tn l Dn -> apart To Do Tn Dn ->
  in_tables To x \/ in_frames Do x -> forall p, pool Tn l Dn p -> ~ in_page p x.
Proof.
  intros Ho Hn Hap Hx p Hp Hpx.
  assert (exists q, in_page q x /\ page_ok kend q /\ (q ∉ l) /\
    (is_table To q \/ exists va, Do !! va = Some q)) as (q&Hq&Hok&Hnl&Hq').
  { destruct Hx as [(q&Hq&Hx)|(va&q&Hq&Hx)]; exists q; (split; [done|]).
    - split; [by eapply pool_page_ok; [exact Ho|right; left]|]. split; [|by left].
      by apply (vmi_disj _ _ _ _ _ (us_vm _ _ _ _ _ _ Ho)).
    - split; [by apply (us_page _ _ _ _ _ _ Ho _ _ Hq)|]. split; [|right; by exists va].
      by apply (us_priv _ _ _ _ _ _ Ho _ _ Hq). }
  destruct (Hap q Hq') as [Hnt Hnd].
  apply (pages_disjoint kend q p x Hok); [by eapply pool_page_ok| |done|done].
  intros ->. destruct Hp as [|[|[va Hva]]]; [done|done|by apply (Hnd va)].
Qed.

(** An operation on one address space leaves the other alone. *)
Lemma other_keeps s ro To l Do rn Tn Dn s' Tn' l' Dn' :
  uspace s ro To l Do -> uspace s rn Tn l Dn -> apart To Do Tn Dn -> km_inv kend s' l' ->
  (forall p, pool Tn' l' Dn' p <-> pool Tn l Dn p) -> outside Tn l Dn s s' ->
  uspace s' ro To l' Do /\ same_frames Do s s' /\ (forall va, leaf To (km_mem s') va = leaf To (km_mem s) va) /\
  apart To Do Tn' Dn'.
Proof.
  intros Ho Hn Hap Hk Hpool Hout.
  assert (Hsame : forall x, in_tables To x \/ in_frames Do x -> km_mem s' x = km_mem s x).
  { intros x Hx. apply Hout. by apply (apart_out s ro To l Do rn Tn Dn x). }
  destruct (uspace_frame kend s ro To l Do s' l' Ho Hk) as [Ho' Hl].
  - intros p Hp. assert (pool Tn l Dn p) as [|[Ht|[va Hd]]] by (apply Hpool; by left); [by left|right..].
    + split; [intros Ht'; by destruct (Hap p (or_introl Ht'))|].
      intros va Hd. destruct (Hap p) as [? _]; [right; by exists va|done].
    + split; [intros Ht'; destruct (Hap p (or_introl Ht')) as [_ H]; by apply (H va)|].
      intros va' Hd'. destruct (Hap p) as [_ H]; [right; by exists va'|by apply (H va)].
  - intros x Hx. apply Hsame. by left.
  - split_and!; try done.
    + intros x Hx. apply Hsame. by right.
    + intros p Hp. assert (~ pool Tn l Dn p) as Hnp.
      { destruct (Hap p Hp) as [Hnt Hnd]. intros [Hl'|[?|[va Hd]]]; [|done|by apply (Hnd va)].
        destruct Hp as [Hp|[va Hp]]; [by apply (vmi_disj _ _ _ _ _ (us_vm _ _ _ _ _ _ Ho) p)|].
        by apply (proj1 (us_priv _ _ _ _ _ _ Ho _ _ Hp)). }
      rewrite <- Hpool in Hnp. split; [intros ?; apply Hnp; by right; left|].
      intros va Hd. apply Hnp. right. right. by exists va.
Qed.

(** * [uvmcopy] *)

Section Uvmcopy.
Variables (s : kmst) (old new : Z) (To Tn : ptree) (l : list Z) (Do Dn : gmap Z Z) (sz : Z).
Hypotheses (Hold : uspace s old To l Do) (Hnew : uspace s new Tn l Dn) (Hapart : apart To Do Tn Dn).
Hypotheses (Hsz : 0 <= sz <= TRAPFRAME).
Hypothesis Hmapped : forall a, aligned a -> 0 <= a < sz -> is_Some (Do !! a).
Hypothesis Hfree : forall a, aligned a -> 0 <= a < sz -> Dn !! a = None.

(** The parent's bytes and flags. *)
Definition parent_byte (va : Z) : option Z := ubyte To (km_mem s) va.
Definition parent_flags (va : Z) : Z := PTE_FLAGS (leaf To (km_mem s) va).

(** The parent's address space is as it was. *)
Definition parent_kept (s' : kmst) (l' : list Z) : Prop :=
  uspace s' old To l' Do /\ same_frames Do s s' /\
  forall va, leaf To (km_mem s') va = leaf To (km_mem s) va.

Lemma grown_parent hi s1 T1 l1 D1 :
  grown parent_byte parent_flags s new Tn l Dn 0 hi s1 T1 l1 D1 ->
  parent_kept s1 l1 /\ apart To Do T1 D1.
Proof.
  intros [G1 _ _ G4 _ _ _ G8].
  destruct (other_keeps s old To l Do new Tn Dn s1 T1 l1 D1) as (H1&H2&H3&H4); try done. apply G1.
Qed.

Lemma kept_parent s1 T1 l1 : kept s new Tn l Dn s1 T1 l1 -> parent_kept s1 l1.
Proof.
  intros [G1 _ G3 G4 _].
  destruct (other_keeps s old To l Do new Tn Dn s1 T1 l1 Dn) as (H1&H2&H3&H4); try done. apply G1.
Qed.

Definition uvmcopy_post (r : Z) (s' : kmst) : Prop :=
  exists T' l', parent_kept s' l' /\
    ((r = 0 /\ exists D', grown parent_byte parent_flags s new Tn l Dn 0 (PGROUNDUP sz) s' T' l' D') \/
     (r = -1 /\ kept s new Tn l Dn s' T' l')).

Definition copying (n : nat) (i : Z) (s' : kmst) : Prop :=
  aligned i /\ 0 <= i <= PGROUNDUP sz /\ n = Z.to_nat (PGROUNDUP sz - i) /\
  exists T' l' D', grown parent_byte parent_flags s new Tn l Dn 0 i s' T' l' D'.

Lemma uvmcopy_err_spec i s1 T1 l1 D1 :
  aligned i -> 0 <= i <= TRAPFRAME ->
  grown parent_byte parent_flags s new Tn l Dn 0 i s1 T1 l1 D1 ->
  wp (uvmcopy_err kend new i)
    (fun r s' => match r with inl _ => False | inr b => uvmcopy_post b s' end) s1.
Proof.
  intros Hi Hr Hg. unfold uvmcopy_err. apply wp_bind.
  assert (Hk : i / PGSIZE * PGSIZE = i).
  { destruct (aligned_mult _ Hi) as [k ->]. by rewrite Z.div_mul. }
  eapply wp_mono; [apply (uvmunmap_spec s1 new T1 l1 D1 0 (i / PGSIZE) true); try done; try lia|].
  - apply Hg.
  - apply Z.div_pos; [lia|done].
  - intros a Ha Har. apply Hg; [done|lia].
  - intros _ s2 [l2 Hum]. apply wp_ret. rewrite Z.add_0_l, Hk in Hum.
    assert (Hkp : kept s new Tn l Dn s2 T1 l2).
    { by apply (grown_undo parent_byte parent_flags s new Tn l Dn 0 i s1 T1 l1 D1); try lia. }
    exists T1, l2. split; [by eapply kept_parent|by right].
Qed.

Lemma PTE_FLAGS_range e : 0 <= PTE_FLAGS e < 1024.
Proof.
  unfold PTE_FLAGS. change 1023 with (2 ^ 10 - 1). rewrite (land_ones_mod e 10) by lia.
  by apply Z.mod_pos_bound.
Qed.

Lemma land_FLAGS e b : Z.land b 1023 = b -> Z.land (PTE_FLAGS e) b = Z.land e b.
Proof. intros Hb. unfold PTE_FLAGS. by rewrite <- Z.land_assoc, (Z.land_comm 1023), Hb. Qed.

Lemma flags_V e : nz (Z.land e PTE_V) = true -> Z.lor (PTE_FLAGS e) PTE_V = PTE_FLAGS e.
Proof.
  intros HV. apply Z.bits_inj'. intros n Hn. rewrite Z.lor_spec. unfold PTE_V. rewrite Z.pow2_bits_eqb by lia.
  destruct (Z.eqb_spec 0 n) as [<-|]; [|by rewrite orb_false_r]. rewrite orb_true_r. unfold PTE_FLAGS.
  rewrite Z.land_spec. change (Z.testbit 1023 0) with true. rewrite andb_true_r.
  destruct (Z.testbit e 0) eqn:E; [done|]. exfalso. apply nz_true in HV. apply HV.
  apply Z.bits_inj'. intros k Hk. rewrite Z.land_spec, Z.bits_0. unfold PTE_V. rewrite Z.pow2_bits_eqb by lia.
  destruct (Z.eqb_spec 0 k) as [<-|]; [by rewrite E|by rewrite andb_false_r].
Qed.

(** What the child's page is filled with is what the parent sees. *)
Lemma copied_byte a pa p m3 va :
  Do !! a = Some pa -> PGROUNDDOWN va = a ->
  (forall x, in_page p x -> m3 x = load8 (km_mem s) (pa + (x - p))) ->
  let flags := PTE_FLAGS (leaf To (km_mem s) a) in
  parent_byte va = (if nz (Z.land flags PTE_U) then Some (load8 m3 (p + va mod PGSIZE)) else None) /\
  Z.lor flags PTE_V = parent_flags va.
Proof.
  intros Hd E Hm3 flags. destruct (us_leaf _ _ _ _ _ _ Hold _ _ Hd) as (HV&Hpa&_).
  destruct (us_page _ _ _ _ _ _ Hold _ _ Hd) as (Ha&Har&Hok). pose proof (page_ok_pos kend kend_pos pa Hok).
  assert (Hl : leaf To (km_mem s) va = leaf To (km_mem s) a) by (apply leaf_page; by rewrite (PGROUNDDOWN_id a)).
  pose proof (PGROUNDDOWN_bounds va). assert (HT : TRAPFRAME + PGSIZE < MAXVA) by done.
  unfold parent_flags, flags. rewrite Hl. split; [|by apply flags_V].
  unfold parent_byte, ubyte, uaddr. rewrite Hl, land_FLAGS, HV, Hpa by done.
  destruct (Z.ltb_spec va MAXVA); [|lia]. cbn [andb].
  destruct (nz (Z.land (leaf To (km_mem s) a) PTE_U)); [|done].
  destruct (Z.eqb_spec pa 0); [lia|]. f_equal. unfold load8 at 2.
  pose proof (Z.mod_pos_bound va PGSIZE ltac:(done)).
  rewrite Hm3, load8_u8 by (unfold in_page; lia). f_equal. lia.
Qed.

(** The page [i] of the parent, read through its page table. *)
Lemma parent_page i s1 l1 : 
  parent_kept s1 l1 -> aligned i -> 0 <= i < sz ->
  exists t pa, Do !! i = Some pa /\ walk old i false s1 = Ok (t + 8 * PX 0 i) s1 /\ t + 8 * PX 0 i <> 0 /\
    load64 (km_mem s1) (t + 8 * PX 0 i) = leaf To (km_mem s) i.
Proof.
  intros (Ho&_&Hl) Hi Hir. destruct (Hmapped i Hi Hir) as [pa Hd].
  destruct (frame_table _ _ _ _ _ _ _ Ho Hd) as [t Ht]. assert (HT : TRAPFRAME < MAXVA) by done.
  pose proof (vmi_pt _ _ _ _ _ (us_vm _ _ _ _ _ _ Ho)) as Hp. exists t, pa. split_and!; [done| | |].
  - apply (walk_present kend kend_pos _ old To); [done|lia|done].
  - pose proof (slot_nonzero kend kend_pos _ _ _ _ _ Hp Ht). lia.
  - rewrite <- Hl. unfold leaf. by rewrite Ht.
Qed.

Lemma uvmcopy_step_spec n i s1 :
  copying n i s1 ->
  wp (uvmcopy_step kend old new sz i)
    (fun r s' => match r with
                 | inl i' => exists n', (n' < n)%nat /\ copying n' i' s'
                 | inr b => uvmcopy_post b s'
                 end) s1.
Proof.
  intros (Hi&Hir&->&T1&l1&D1&Hg). destruct (grown_parent _ _ _ _ _ Hg) as [Hpar Hap1].
  assert (HP : PGSIZE = 4096) by done. assert (HT : TRAPFRAME < 2 ^ 39) by done.
  destruct (PGROUNDUP_bounds sz) as [Hza Hzb]; [lia|]. unfold uvmcopy_step.
  destruct (Z.ltb_spec i sz) as [Hlt|Hge].
  2:{ apply wp_ret. exists T1, l1. split; [done|]. left. split; [done|]. exists D1.
      replace (PGROUNDUP sz) with i; [done|].
      destruct (aligned_mult _ Hi) as [k Ek], (aligned_mult _ Hza) as [j Ej]. lia. }
  assert (i + PGSIZE <= PGROUNDUP sz).
  { destruct (aligned_mult _ Hi) as [k Ek], (aligned_mult _ Hza) as [j Ej]. lia. }
  destruct (parent_page i s1 l1 Hpar Hi ltac:(lia)) as (t&pa&Hd&Hwalk&Hnz&Hload).
  apply wp_bind. eapply wp_ok; [exact Hwalk|]. destruct (Z.eqb_spec (t + 8 * PX 0 i) 0); [done|].
  apply wp_bind, wp_gets. rewrite Hload.
  destruct (us_leaf _ _ _ _ _ _ Hold _ _ Hd) as (HV&Hpa&Hfl). pose proof HV as HV'. apply nz_true in HV'.
  destruct (Z.eqb_spec (Z.land (leaf To (km_mem s) i) PTE_V) 0); [done|]. cbn zeta. rewrite Hpa.
  apply wp_bind. eapply wp_mono; [apply (kalloc_uspace s1 new T1 l1 D1); apply Hg|].
  intros mem s2 (Hc2&Hl2&Hs2&Ho2&Hpost). destruct l1 as [|p l1].
  - destruct Hpost as (->&Hu2). cbn [Z.eqb].
    eapply wp_mono; [apply (uvmcopy_err_spec i s2 T1 [] D1); try done; try lia; by eapply grown_keep|].
    by intros [] s3 Hpost.
  - destruct Hpost as (->&Hu2&Hfr&_). pose proof (page_ok_pos kend kend_pos p (proj1 Hfr)).
    destruct (Z.eqb_spec p 0); [lia|]. apply wp_bind, wp_modify, wp_bind. eapply wp_mono.
    + apply (fill_and_map parent_byte parent_flags s new Tn l Dn 0 i s1 T1 p l1 D1); try done; try lia.
      * apply Hfree; [done|lia].
      * intros x Hx. apply memmove_out. unfold in_page in Hx. lia.
      * apply PTE_FLAGS_range.
      * by rewrite flags_V.
      * intros va E. apply (copied_byte i pa p); [done|done|]. intros x Hx.
        rewrite memmove_in by (unfold in_page in Hx; lia). unfold load8. f_equal.
        assert (Hfx : in_frames Do (pa + (x - p))) by (exists i, pa; split; [done|]; unfold in_page in *; lia).
        destruct Hpar as (Hou&Hps&_). rewrite Ho2; [by apply Hps|]. 
        apply (apart_out s1 old To (p :: l1) Do new T1 D1); [done|apply Hg|done|by right].
    + intros r s4 (T'&l'&Hfr'&[(->&Hg4)|(->&_&Hu4&Hc4&Hs4&Hp4&Ho4&Hl4)]).
      * change (nz 0) with false. cbn iota. apply wp_ret.
        exists (Z.to_nat (PGROUNDUP sz - (i + PGSIZE))). split; [lia|]. rewrite u64_small by lia.
        split_and!; [by apply aligned_step|lia|lia|done|]. by exists T', l', (<[i := p]> D1).
      * change (nz (-1)) with true. cbn iota. apply wp_bind. eapply wp_mono.
        { by apply (unfilled parent_byte parent_flags s new Tn l Dn 0 i s1 T1 p l1 D1 s4 T' l'). }
        intros [] s5 Hg5.
        eapply wp_mono; [apply (uvmcopy_err_spec i s5 T' (p :: l') D1); try done; lia|].
        by intros [] s6 Hpost.
Qed.

Lemma uvmcopy_spec : wp (uvmcopy kend old new sz) uvmcopy_post s.
Proof.
  assert (HP : PGSIZE = 4096) by done. assert (HT : TRAPFRAME < 2 ^ 39) by done.
  destruct (PGROUNDUP_bounds sz) as [Hza Hzb]; [lia|].
  apply (wp_loop _ copying) with (n := Z.to_nat (PGROUNDUP sz)).
  - intros n i s1 HI. by apply uvmcopy_step_spec.
  - split_and!; [done|lia|lia|f_equal; lia|]. exists Tn, l, Dn. by apply grown_refl.
  - lia.
Qed.
End Uvmcopy.
End Space.
