(* ===== verification/UvmFree.v ===== *)
(** Creating and tearing down user address spaces: [uvmcreate], [freewalk] and
    [uvmfree] of [src/kernel/vm.c], and the claims about address spaces. *)

From S2P Require Import Prelude Params Spinlock Cstring Kalloc Vm PageTable Uvm UvmAlloc.
Local Open Scope kernel_scope.

Section Free.
Variable kend : Z.
Hypothesis kend_pos : KERNBASE <= kend.

(** * [uvmcreate] *)

Lemma leaf_empty root m va : leaf {[ [] := root ]} m va = 0.
Proof. unfold leaf, table_of. by rewrite lookup_singleton_ne. Qed.

Lemma uspace_empty s root l :
  km_inv kend s l -> page_ok kend root -> root ∉ l -> (forall x, in_page root x -> km_mem s x = 0) ->
  uspace kend s root {[ [] := root ]} l ∅.
Proof.
  intros Hk Hok Hnl Hz. split; try (by intros *; rewrite lookup_empty).
  - split; [done|by apply pt_inv_empty|]. by intros pa [path [_ <-]%lookup_singleton_Some].
  - intros va _ _. by rewrite leaf_empty.
  - intros va _. rewrite leaf_empty. by left.
Qed.

Lemma uvmcreate_spec s l :
  km_inv kend s l ->
  wp uvmcreate (fun r s' => csame (km_cpu s) (km_cpu s') /\
    match l with
    | [] => r = 0 /\ km_inv kend s' [] /\ km_mem s' = km_mem s
    | p :: l' => r = p /\ uspace kend s' p {[ [] := p ]} l' ∅ /\
        forall x, ~ in_page p x -> km_mem s' x = km_mem s x
    end) s.
Proof.
  intros Hk. unfold uvmcreate. apply wp_bind.
  destruct (kalloc_spec kend kend_pos s l Hk) as (r&s1&Hrun&Hc&Hpost). eapply wp_ok; [exact Hrun|].
  destruct l as [|p l]; [by destruct Hpost as (->&?&?)|].
  destruct Hpost as (->&Hok&Hnin&Hk1&_&Hout). pose proof (page_ok_pos kend kend_pos p Hok).
  destruct (Z.eqb_spec p 0); [lia|]. apply wp_bind, wp_modify, wp_ret. split; [done|]. split; [done|].
  assert (Hset : forall x, ~ in_page p x -> memset (km_mem s1) p 0 PGSIZE x = km_mem s1 x).
  { intros x Hx. apply memset_out. unfold in_page in Hx. lia. }
  split; [|intros x Hx; cbn; by rewrite Hset, Hout].
  apply uspace_empty; [|done|done|intros x Hx; by apply memset_in].
  apply km_inv_mem; [done|]. intros x Hx. apply Hset.
  by apply (in_pages_not kend p l x); [|apply Hk1|..].
Qed.

(** A new address space beside another. *)
Lemma uvmcreate_beside s ro To l Do :
  uspace kend s ro To l Do ->
  wp uvmcreate (fun r s' =>
    match l with
    | [] => r = 0
    | p :: l' => r = p /\ uspace kend s' p {[ [] := p ]} l' ∅ /\ uspace kend s' ro To l' Do /\
        apart To Do {[ [] := p ]} ∅ /\
        forall va, 0 <= va -> ubyte To (km_mem s') va = ubyte To (km_mem s) va
    end) s.
Proof.
  intros Hu. eapply wp_mono; [apply (uvmcreate_spec s l); apply Hu|]. intros r s' [_ Hpost].
  destruct l as [|p l]; [by destruct Hpost as (->&_)|]. destruct Hpost as (->&Hn&Hout).
  assert (Hnt : ~ is_table To p).
  { intros Ht. apply (vmi_disj _ _ _ _ _ (us_vm _ _ _ _ _ _ Hu) p Ht). by left. }
  assert (Hnd : forall va, Do !! va <> Some p).
  { intros va Hd. apply (proj1 (us_priv _ _ _ _ _ _ Hu _ _ Hd)). by left. }
  assert (Hok : page_ok kend p) by (eapply (pool_page_ok kend); [exact Hu|left; by left]).
  destruct (uspace_frame kend s ro To (p :: l) Do s' l Hu) as [Ho Hl].
  { apply Hn. } { intros q Hq. left. by right. }
  { intros x (t&[path Ht]&Hx). apply Hout. intros Hpx. apply (pages_disjoint kend p t x); try done.
    - exact (pti_ok _ _ _ _ (vmi_pt _ _ _ _ _ (us_vm _ _ _ _ _ _ Hu)) _ _ Ht).
    - intros ->. apply Hnt. by exists path. }
  split_and!; try done.
  - intros q Hq. split; [|by intros va; rewrite lookup_empty].
    intros [path [_ <-]%lookup_singleton_Some]. destruct Hq as [|[va Hd]]; [done|by apply (Hnd va)].
  - intros va Hva. eapply (ubyte_same kend); [exact Hu|done|apply Hl|]. intros x (a&pa&Hd&Hx). apply Hout. intros Hpx.
    apply (pages_disjoint kend p pa x); try done; [apply (us_page _ _ _ _ _ _ Hu _ _ Hd)|].
    intros ->. by apply (Hnd a).
Qed.

(** * [freewalk] *)

Section Freewalk.
Variables (m0 : memory) (root : Z) (T : ptree).
Hypothesis Hpt : pt_inv kend m0 root T.
(** No entry of a last-level table is valid. *)
Hypothesis Hnoleaf : forall path t j, length path = 2%nat -> T !! path = Some t -> 0 <= j < 512 ->
  Z.land (load64 m0 (t + 8 * j)) PTE_V = 0.

(** The tables at and below a path. *)
Definition below (path : list Z) (p : Z) : Prop := exists rest, T !! (path ++ rest) = Some p.
Definition in_below (path : list Z) (x : Z) : Prop := exists p, below path p /\ in_page p x.

Lemma below_ok path p : below path p -> page_ok kend p.
Proof. intros [rest Hp]. exact (pti_ok _ _ _ _ Hpt _ _ Hp). Qed.

Lemma below_child path i p : below (path ++ [i]) p -> below path p.
Proof. intros [rest Hp]. exists (i :: rest). by rewrite <- app_assoc in Hp. Qed.

Lemma below_root path p : below path p -> is_Some (T !! path).
Proof.
  intros [rest H]. revert p H. induction rest as [|j rest IH] using rev_ind; intros p H.
  - rewrite app_nil_r in H. by eexists.
  - rewrite app_assoc in H. apply (pti_up _ _ _ _ Hpt) in H as [[q Hq] _]. by apply (IH q).
Qed.

(** A table below [path] is the table at [path] or below one of its entries. *)
Lemma below_split path pa p :
  T !! path = Some pa -> below path p <-> p = pa \/ exists i, 0 <= i < 512 /\ below (path ++ [i]) p.
Proof.
  intros Hp. split.
  - intros [[|i rest] H]; [rewrite app_nil_r in H; left; congruence|]. right.
    replace (path ++ i :: rest) with ((path ++ [i]) ++ rest) in H by (by rewrite <- app_assoc).
    destruct (below_root (path ++ [i]) p) as [c Hc]; [by exists rest|]. exists i. split; [|by exists rest]. by apply (pti_up _ _ _ _ Hpt path i c).
  - intros [->|(i&_&H)]; [exists []; by rewrite app_nil_r|by eapply below_child].
Qed.

(** Subtrees under different entries share no page, nor do they hold their root. *)
Lemma below_disjoint path i j p : below (path ++ [i]) p -> below (path ++ [j]) p -> i = j.
Proof.
  intros [r1 H1] [r2 H2]. pose proof (pti_inj _ _ _ _ Hpt _ _ _ H1 H2) as E.
  rewrite <- !app_assoc in E. apply app_inv_head in E. by injection E.
Qed.

Lemma below_not_root path pa i : T !! path = Some pa -> ~ below (path ++ [i]) pa.
Proof.
  intros Hp [rest H]. pose proof (pti_inj _ _ _ _ Hpt _ _ _ H Hp) as E.
  apply (f_equal length) in E. rewrite !length_app in E. cbn in E. lia.
Qed.

(** [freewalk] from [s]: the tables below [path] are free, the rest is as it was. *)
Record freed_below (path : list Z) (s : kmst) (l : list Z) (s' : kmst) (l' : list Z) : Prop := {
  fb_km : km_inv kend s' l';
  fb_cpu : csame (km_cpu s) (km_cpu s');
  fb_free p : p ∈ l' <-> p ∈ l \/ below path p;
  fb_mem x : ~ in_below path x -> km_mem s' x = km_mem s x;
}.

(** The loop over the entries of the table [pa]: those in [done] are finished. *)
Record freeing (path : list Z) (pa : Z) (s : kmst) (l : list Z) (dn : list Z) (s' : kmst) (l' : list Z) : Prop := {
  fr_km : km_inv kend s' l';
  fr_cpu : csame (km_cpu s) (km_cpu s');
  fr_free p : p ∈ l' <-> p ∈ l \/ exists i, i ∈ dn /\ below (path ++ [i]) p;
  fr_entry j : 0 <= j < 512 -> j ∉ dn -> load64 (km_mem s') (pa + 8 * j) = load64 m0 (pa + 8 * j);
  fr_todo j x : 0 <= j < 512 -> j ∉ dn -> in_below (path ++ [j]) x -> km_mem s' x = m0 x;
  fr_mem x : ~ in_below path x -> km_mem s' x = km_mem s x;
}.

Lemma in_below_page path pa x : T !! path = Some pa -> in_page pa x -> in_below path x.
Proof. intros Hp Hx. exists pa. split; [exists []; by rewrite app_nil_r|done]. Qed.

Lemma in_below_child path i x : in_below (path ++ [i]) x -> in_below path x.
Proof. intros (p&Hp&Hx). exists p. split; [by eapply below_child|done]. Qed.

Lemma in_below_disjoint path i j x : in_below (path ++ [i]) x -> in_below (path ++ [j]) x -> i = j.
Proof.
  intros (p&Hp&Hx) (q&Hq&Hy). apply (below_disjoint path i j p); [done|].
  destruct (decide (p = q)) as [->|Hne]; [done|]. exfalso.
  by apply (pages_disjoint kend p q x (below_ok _ _ Hp) (below_ok _ _ Hq)).
Qed.

Lemma in_below_not_root path pa i x : T !! path = Some pa -> in_below (path ++ [i]) x -> ~ in_page pa x.
Proof.
  intros Hp (q&Hq&Hx). apply (pages_disjoint kend q pa x); [by eapply below_ok|exact (pti_ok _ _ _ _ Hpt _ _ Hp)| |done].
  intros ->. by apply (below_not_root path pa i).
Qed.

(** An entry without a table below it needs no work. *)
Lemma freeing_skip path pa s l dn s1 l1 i :
  freeing path pa s l dn s1 l1 -> T !! (path ++ [i]) = None -> freeing path pa s l (dn ++ [i]) s1 l1.
Proof.
  intros [F1 F2 F3 F4 F5 F6] Hn. split; try done.
  - intros p. rewrite F3. split; (intros [|(j&Hj&Hp)]; [by left|right]).
    + exists j. split; [apply elem_of_app; by left|done].
    + exists j. split; [|done]. apply elem_of_app in Hj as [|Hj]; [done|]. apply list_elem_of_singleton in Hj as ->.
      apply below_root in Hp as [? ?]. congruence.
  - intros j Hj Hnj. apply F4; [done|]. intros ?. apply Hnj, elem_of_app. by left.
  - intros j x Hj Hnj. apply F5; [done|]. intros ?. apply Hnj, elem_of_app. by left.
Qed.

(** A subtree freed and its entry cleared. *)
Lemma freeing_child path pa s l dn s1 l1 i s2 l2 :
  T !! path = Some pa -> 0 <= i < 512 -> (forall p, below path p -> p ∉ l) ->
  freeing path pa s l dn s1 l1 -> freed_below (path ++ [i]) s1 l1 s2 l2 ->
  freeing path pa s l (dn ++ [i]) (stored s2 (pa + 8 * i) 0) l2.
Proof.
  intros Hp Hi Hnl [F1 F2 F3 F4 F5 F6] [B1 B2 B3 B4].
  assert (Hok : page_ok kend pa) by exact (pti_ok _ _ _ _ Hpt _ _ Hp).
  assert (Hpa : pa ∉ l2).
  { rewrite B3, F3. intros [[H|(j&_&H)]|H].
    - apply (Hnl pa); [exists []; by rewrite app_nil_r|done].
    - by apply (below_not_root path pa j).
    - by apply (below_not_root path pa i). }
  assert (Hent : forall x, ~ (pa + 8 * i <= x < pa + 8 * i + 8) -> km_mem (stored s2 (pa + 8 * i) 0) x = km_mem s2 x).
  { intros x Hx. unfold stored. cbn. apply store64_out. lia. }
  assert (Hnd : forall j, j ∉ dn ++ [i] -> (j ∉ dn) /\ j <> i).
  { intros j Hj. rewrite elem_of_app, list_elem_of_singleton in Hj. tauto. }
  split.
  - apply km_inv_mem; [done|]. intros x Hx. apply Hent. intros Hc.
    apply (in_pages_not kend pa l2 x); [done|apply B1|done|done|by apply (entry_in_page pa i)].
  - by etransitivity.
  - intros p. rewrite B3, F3. split.
    + intros [[|(j&Hj&Hb)]|Hb]; [by left|right|right].
      * exists j. split; [apply elem_of_app; by left|done].
      * exists i. split; [apply elem_of_app; right; by left|done].
    + intros [|(j&Hj&Hb)]; [by left; left|]. apply elem_of_app in Hj as [Hj|Hj].
      * left. right. by exists j.
      * apply list_elem_of_singleton in Hj as ->. by right.
  - intros j Hj [Hnj Hne]%Hnd. rewrite <- (F4 j Hj Hnj). unfold stored. cbn.
    rewrite load64_store64_out.
    + apply load64_ext. intros x Hx. apply B4. intros Hb.
      apply (in_below_not_root path pa i x Hp Hb). by apply (entry_in_page pa j).
    + apply (entries_disjoint kend); try done. congruence.
  - intros j x Hj [Hnj Hne]%Hnd Hb. rewrite Hent.
    + rewrite B4; [by apply (F5 j)|]. intros Hb'. apply Hne. by apply (in_below_disjoint path j i x).
    + intros Hc. apply (in_below_not_root path pa j x Hp Hb). by apply (entry_in_page pa i).
  - intros x Hx. rewrite Hent.
    + rewrite B4; [by apply F6|]. intros Hb. apply Hx. by eapply in_below_child.
    + intros Hc. apply Hx. apply (in_below_page path pa); [done|]. by apply (entry_in_page pa i).
Qed.

(** An entry of an interior table that has a table below it. *)
Lemma freewalk_entry path pa i child :
  T !! path = Some pa -> (length path < 2)%nat -> 0 <= i < 512 -> T !! (path ++ [i]) = Some child ->
  let e := load64 m0 (pa + 8 * i) in
  nz (Z.land e PTE_V) && (Z.land e (Z.lor (Z.lor PTE_R PTE_W) PTE_X) =? 0) = true /\ PTE2PA e = child.
Proof.
  intros Hp Hl Hi Hc e. pose proof (pti_down _ _ _ _ Hpt _ _ _ Hp Hl Hi) as Hd. unfold interior_ok in Hd.
  rewrite Hc in Hd. unfold e. rewrite Hd. pose proof (pti_ok _ _ _ _ Hpt _ _ Hc) as Hok.
  split; [|by apply (PTE2PA_table kend)]. rewrite (land_PTE_V_table kend kend_pos child Hok).
  rewrite land_PTE_PA2PTE; [done|apply Hok|by apply (page_ok_range kend)|done|done].
Qed.

Lemma freewalk_invalid path pa i :
  T !! path = Some pa -> 0 <= i < 512 -> T !! (path ++ [i]) = None -> Z.land (load64 m0 (pa + 8 * i)) PTE_V = 0.
Proof.
  intros Hp Hi Hn. pose proof (pti_len _ _ _ _ Hpt _ _ Hp). destruct (decide (length path < 2)%nat) as [Hl|Hl].
  - pose proof (pti_down _ _ _ _ Hpt _ _ _ Hp Hl Hi) as Hd. unfold interior_ok in Hd. by rewrite Hn in Hd.
  - apply (Hnoleaf path); [lia|done|done].
Qed.

Definition freewalk_ok (depth : nat) : Prop := forall path pa s l,
  (length path + depth = 3)%nat -> T !! path = Some pa -> km_inv kend s l ->
  (forall p, below path p -> p ∉ l) -> (forall x, in_below path x -> km_mem s x = m0 x) ->
  wp (freewalk kend depth pa) (fun _ s' => exists l', freed_below path s l s' l') s.

(** The loop body of [freewalk]. *)
Definition freewalk_body (depth : nat) (pagetable i : Z) : M kmst unit :=
  pte <- read64 (pagetable + 8 * i) ;;
  if nz (Z.land pte PTE_V) && (Z.land pte (Z.lor (Z.lor PTE_R PTE_W) PTE_X) =? 0) then
    freewalk kend depth (PTE2PA pte) ;;
    write64 (pagetable + 8 * i) 0
  else if nz (Z.land pte PTE_V) then panic "freewalk: leaf"
  else ret tt.

Lemma freewalk_step depth path pa s l dn i s1 l1 :
  freewalk_ok depth -> (length path + S depth = 3)%nat -> T !! path = Some pa ->
  (forall p, below path p -> p ∉ l) -> 0 <= i < 512 -> i ∉ dn ->
  freeing path pa s l dn s1 l1 ->
  wp (freewalk_body depth pa i) (fun _ s2 => exists l2, freeing path pa s l (dn ++ [i]) s2 l2) s1.
Proof.
  intros IH Hlen Hp Hnl Hi Hni Hf. unfold freewalk_body.
  apply wp_bind, wp_gets. rewrite (fr_entry _ _ _ _ _ _ _ Hf) by done.
  destruct (T !! (path ++ [i])) as [child|] eqn:Ec.
  - assert (Hl2 : (length path < 2)%nat).
    { pose proof (pti_len _ _ _ _ Hpt _ _ Ec) as Hx. rewrite length_app in Hx. cbn in Hx. lia. }
    destruct (freewalk_entry path pa i child Hp Hl2 Hi Ec) as [-> ->]. apply wp_bind.
    eapply wp_mono; [apply (IH (path ++ [i]) child s1 l1)|].
    + rewrite length_app. cbn. lia.
    + done.
    + apply Hf.
    + intros p Hb. rewrite (fr_free _ _ _ _ _ _ _ Hf). intros [H|(j&Hj&Hb')].
      * by apply (Hnl p); [eapply below_child|].
      * apply Hni. by rewrite (below_disjoint path i j p Hb Hb').
    + intros x Hx. by apply (fr_todo _ _ _ _ _ _ _ Hf i).
    + intros [] s2 [l2 Hb]. apply wp_modify. exists l2. by apply (freeing_child path pa s l dn s1 l1 i).
  - rewrite (freewalk_invalid path pa i) by done. exists l1. by apply freeing_skip.
Qed.

(** All subtrees freed: the table itself goes. *)
Lemma freeing_done path pa s l s1 l1 :
  T !! path = Some pa -> (forall p, below path p -> p ∉ l) -> freeing path pa s l (seqZ 0 512) s1 l1 ->
  wp (kfree kend pa) (fun _ s' => exists l', freed_below path s l s' l') s1.
Proof.
  intros Hp Hnl [F1 F2 F3 F4 F5 F6].
  destruct (kfree_spec kend kend_pos s1 l1 pa) as (s2&Hrun&Hc&Hk2&Hout&_);
    [done|exact (pti_ok _ _ _ _ Hpt _ _ Hp)| |].
  { rewrite F3. intros [H|(i&_&H)]; [|by apply (below_not_root path pa i)].
    apply (Hnl pa); [exists []; by rewrite app_nil_r|done]. }
  eapply wp_ok; [exact Hrun|]. exists (pa :: l1). split; [done|by etransitivity| |].
  - intros p. rewrite elem_of_cons, F3, (below_split path pa p Hp). split.
    + intros [->|[|(i&Hi%elem_of_seqZ&Hb)]]; [right; by left|by left|]. right. right. by exists i.
    + intros [|[->|(i&Hi&Hb)]]; [by right; left|by left|]. right. right. exists i. split; [|done].
      by apply elem_of_seqZ.
  - intros x Hx. rewrite Hout, F6; [done|done|]. intros Hpx. apply Hx. by apply (in_below_page path pa).
Qed.

Lemma freewalk_spec depth : freewalk_ok depth.
Proof.
  induction depth as [|depth IH]; intros path pa s l Hlen Hp Hk Hnl Hm.
  { pose proof (pti_len _ _ _ _ Hpt _ _ Hp). lia. }
  cbn [freewalk]. apply wp_bind. eapply wp_mono.
  - apply (wp_forM _ (freewalk_body depth pa) (fun dn s' => exists l', freeing path pa s l dn s' l')).
    + exists l. split; try done.
      * intros p. split; [by left|]. intros [|(i&Hi&_)]; [done|by apply elem_of_nil in Hi].
      * intros j Hj _. apply load64_ext. intros x Hx. apply Hm. apply (in_below_page path pa); [done|].
        by apply (entry_in_page pa j).
      * intros j x Hj _ Hx. apply Hm. by eapply in_below_child.
    + intros dn i todo s1 Hl [l1 Hf].
      assert (Hi : i ∈ seqZ 0 512) by (rewrite Hl; apply elem_of_app; right; by left).
      apply elem_of_seqZ in Hi. apply (freewalk_step depth path pa s l dn i s1 l1); try done.
      pose proof (NoDup_seqZ 0 512) as Hd. rewrite Hl in Hd. apply NoDup_app in Hd as (_&Hd&_).
      intros Hin. apply (Hd i Hin). by left.
  - intros [] s1 [l1 Hf]. by apply (freeing_done path pa s l s1 l1).
Qed.
End Freewalk.

(** * [uvmfree] *)

(** The address of an entry of a last-level table. *)
Lemma PX_compose i2 i1 i0 :
  0 <= i2 < 256 -> 0 <= i1 < 512 -> 0 <= i0 < 512 ->
  let va := i2 * 2 ^ 30 + i1 * 2 ^ 21 + i0 * 2 ^ 12 in
  0 <= va < MAXVA /\ PX 2 va = i2 /\ PX 1 va = i1 /\ PX 0 va = i0.
Proof.
  intros H2 H1 H0 va. assert (0 <= va < MAXVA) by (unfold va, MAXVA; lia).
  split; [done|]. rewrite !PX_eq by lia.
  change (12 + 9 * 2) with 30. change (12 + 9 * 1) with 21. change (12 + 9 * 0) with 12.
  assert (E2 : va / 2 ^ 30 = i2) by (unfold va; symmetry; apply (Z.div_unique_pos _ _ _ (i1 * 2 ^ 21 + i0 * 2 ^ 12)); lia).
  assert (E1 : va / 2 ^ 21 = i2 * 512 + i1) by (unfold va; symmetry; apply (Z.div_unique_pos _ _ _ (i0 * 2 ^ 12)); lia).
  assert (E0 : va / 2 ^ 12 = (i2 * 512 + i1) * 512 + i0) by (unfold va; symmetry; apply (Z.div_unique_pos _ _ _ 0); lia).
  rewrite E2, E1, E0, Z.mod_small by lia. split; [done|].
  split; symmetry; [apply (Z.mod_unique_pos _ _ i2)|apply (Z.mod_unique_pos _ _ (i2 * 512 + i1))]; lia.
Qed.

(** With no page mapped, every entry of a last-level table is invalid. *)
Lemma no_leaf m root T :
  pt_inv kend m root T -> (forall va, 0 <= va < MAXVA -> Z.land (leaf T m va) PTE_V = 0) ->
  forall path t j, length path = 2%nat -> T !! path = Some t -> 0 <= j < 512 ->
  Z.land (load64 m (t + 8 * j)) PTE_V = 0.
Proof.
  intros Hp Hinv [|i2 [|i1 [|]]] t j Hlen Ht Hj; try done.
  pose proof (pti_low _ _ _ _ Hp _ _ _ Ht) as H2.
  destruct (pti_up _ _ _ _ Hp [i2] i1 t Ht) as [[t1 Ht1] H1]. destruct (pti_up _ _ _ _ Hp [] i2 t1 Ht1) as [_ H2'].
  destruct (PX_compose i2 i1 j) as (Hva&E2&E1&E0); [lia|done|done|].
  specialize (Hinv _ Hva). unfold leaf, table_of in Hinv. rewrite E2, E1, E0, Ht in Hinv. done.
Qed.

(** The user pages first. *)
Lemma uvmfree_unmap s root T l D sz :
  uspace kend s root T l D -> 0 <= sz -> aligned (PGROUNDUP sz) -> 0 <= PGROUNDUP sz <= TRAPFRAME -> (sz = 0 -> PGROUNDUP sz = 0) ->
  (forall a, aligned a -> 0 <= a < PGROUNDUP sz -> is_Some (D !! a)) ->
  wp (when (0 <? sz) (uvmunmap kend root 0 (PGROUNDUP sz / PGSIZE) true))
    (fun _ s' => exists l', unmapped kend s root T l D true 0 (PGROUNDUP sz) s' l') s.
Proof.
  intros Hu Hsz Hza Hhi Hz0 Hall. assert (HP : PGSIZE = 4096) by done.
  destruct (Z.ltb_spec 0 sz); cbn [when].
  - assert (Hk : PGROUNDUP sz / PGSIZE * PGSIZE = PGROUNDUP sz).
    { destruct (aligned_mult _ Hza) as [k ->]. by rewrite Z.div_mul. }
    eapply wp_mono; [apply (uvmunmap_spec kend kend_pos s root T l D 0 (PGROUNDUP sz / PGSIZE) true); try done; try lia|].
    + intros a Ha Har. apply Hall; [done|lia].
    + intros _ s1 [l1 Hum]. exists l1. by rewrite Z.add_0_l, Hk in Hum.
  - apply wp_ret. exists l. rewrite Hz0 by lia. by apply unmapped_nil.
Qed.

(** After that no entry is valid. *)
Lemma all_invalid s root T l D sz s1 l1 va :
  uspace kend s root T l D -> unmapped kend s root T l D true 0 (PGROUNDUP sz) s1 l1 ->
  (forall a pa, D !! a = Some pa -> a < PGROUNDUP sz) ->
  (forall va, TRAPFRAME <= va < MAXVA -> Z.land (leaf T (km_mem s) va) PTE_V = 0) ->
  0 <= va < MAXVA -> Z.land (leaf T (km_mem s1) va) PTE_V = 0.
Proof.
  intros Hu Hum Hmax Htop Hva. rewrite (um_leaf _ _ _ _ _ _ _ _ _ _ _ Hum) by done. destruct (_ && _) eqn:E; [done|].
  destruct (decide (TRAPFRAME <= va)); [apply Htop; lia|]. apply (us_dom _ _ _ _ _ _ Hu); [lia|].
  destruct (D !! PGROUNDDOWN va) as [pa|] eqn:Hd; [|done]. exfalso.
  pose proof (Hmax _ _ Hd). pose proof (PGROUNDDOWN_nonneg va ltac:(lia)).
  destruct (Z.leb_spec 0 (PGROUNDDOWN va)), (Z.ltb_spec (PGROUNDDOWN va) (PGROUNDUP sz)); (done || lia).
Qed.

Lemma uvmfree_spec s root T l D sz :
  uspace kend s root T l D -> 0 <= sz <= TRAPFRAME ->
  (forall a, aligned a -> 0 <= a < PGROUNDUP sz -> is_Some (D !! a)) ->
  (forall a pa, D !! a = Some pa -> a < PGROUNDUP sz) ->
  (forall va, TRAPFRAME <= va < MAXVA -> Z.land (leaf T (km_mem s) va) PTE_V = 0) ->
  wp (uvmfree kend root sz)
    (fun _ s' => exists l', km_inv kend s' l' /\ csame (km_cpu s) (km_cpu s') /\
       (forall p, p ∈ l' <-> pool T l D p) /\ outside T l D s s') s.
Proof.
  intros Hu Hsz Hall Hmax Htop. assert (HT : TRAPFRAME < 2 ^ 39) by done. assert (HP : PGSIZE = 4096) by done.
  assert (HTa : aligned TRAPFRAME) by done. destruct (PGROUNDUP_bounds sz) as [Hza Hzb]; [lia|].
  assert (Hhi : PGROUNDUP sz <= TRAPFRAME).
  { destruct (aligned_mult _ Hza) as [i Ei], (aligned_mult _ HTa) as [j Ej]. lia. }
  unfold uvmfree. apply wp_bind.
  eapply wp_mono; [apply (uvmfree_unmap s root T l D sz); try done; [lia|lia|by intros ->]|].
  intros [] s1 [l1 Hum]. pose proof Hum as [U1 U2 U3 U4 U5 U6].
  pose proof (us_vm _ _ _ _ _ _ U1) as [Hk1 Hp1 Hd1].
  assert (Hnone : forall va, 0 <= va < MAXVA -> Z.land (leaf T (km_mem s1) va) PTE_V = 0)
    by (intros va; by apply (all_invalid s root T l D sz s1 l1)).
  eapply wp_mono.
  - apply (freewalk_spec (km_mem s1) root T Hp1 (no_leaf _ _ _ Hp1 Hnone) 3 [] root s1 l1); try done.
    apply (pti_root _ _ _ _ Hp1).
  - intros [] s2 [l2 [B1 B2 B3 B4]]. exists l2. split_and!; [done|by etransitivity| |].
    + intros p. rewrite B3, U3. unfold pool, is_table, below. cbn [app].
      assert ((exists a, 0 <= a < PGROUNDUP sz /\ D !! a = Some p) <-> exists va, D !! va = Some p) as Hiff.
      { split; [intros (a&_&?); by exists a|]. intros [a Ha]. exists a. split; [|done].
        pose proof (Hmax _ _ Ha). destruct (us_page _ _ _ _ _ _ Hu _ _ Ha) as (_&?&_). lia. }
      rewrite Hiff. tauto.
    + intros x Hx. rewrite B4; [by apply U6|]. intros (p&[path Hp]&Hpx). apply (Hx p); [|done].
      right. left. by exists path.
Qed.
End Free.
