(* ===== verification/AddressSpace.v ===== *)
(** What user address spaces promise: the claims about [uvmunmap], [uvmalloc],
    [uvmcopy], [uvmfree], [copyout], [copyin] and [copyinstr] of
    [src/kernel/vm.c], on the abstract address spaces of [Uvm] and [UvmAlloc]. *)

From S2P Require Import Prelude Params Spinlock Cstring Kalloc Vm PageTable Uvm UvmAlloc UvmFree.
Local Open Scope kernel_scope.

(** * A concrete address space *)

(** A free list threaded through memory. *)
Fixpoint thread (m : memory) (l : list Z) : memory :=
  match l with
  | [] => m
  | p :: l' => store64 (thread m l') p (hd 0 l')
  end.

Lemma thread_out kend m l x : ~ in_pages l x -> Forall (page_ok kend) l -> thread m l x = m x.
Proof.
  induction l as [|p l IH]; intros Hx Hok; cbn; [done|]. apply Forall_cons in Hok as [_ Hok].
  rewrite store64_out.
  - apply IH; [|done]. intros (q&Hq&Hxq). apply Hx. exists q. split; [by right|done].
  - destruct (decide (p <= x < p + 8)); [|lia]. exfalso. apply Hx. exists p.
    split; [by left|unfold in_page, PGSIZE; lia].
Qed.

Lemma thread_rep kend m l :
  KERNBASE <= kend -> Forall (page_ok kend) l -> NoDup l -> fl_rep (thread m l) (hd 0 l) l.
Proof.
  intros Hk. induction l as [|p l IH]; intros Hok Hd; cbn; [done|]. split; [done|].
  apply Forall_cons in Hok as [Hp Hok]. apply NoDup_cons in Hd as [Hnin Hd].
  rewrite load64_store64, u64_small.
  - eapply fl_rep_frame; [|by apply IH]. intros x Hx. apply store64_out.
    pose proof (in_pages_not kend p l x Hp Hok Hnin Hx) as Hn. unfold in_page, PGSIZE in Hn. lia.
  - destruct l as [|q l]; cbn; [done|]. apply Forall_cons in Hok as [Hq _].
    pose proof (page_ok_range kend Hk q Hq). lia.
Qed.

(** A boot state: an empty page table in the last page of memory and the pages
    from [kend] up to it on the free list. *)
Module Boot.
Definition kend : Z := PHYSTOP - 10 * 4096.
Definition root : Z := PHYSTOP - 4096.
Definition free : list Z := pages kend 9.
Definition st : kmst :=
  Km (Cpu 0 false None 0 false) (thread (fun _ => 0) free) (Spinlock 0 "kmem" None) (hd 0 free).
Definition tree : ptree := {[ [] := root ]}.

Lemma boot_kend_pos : KERNBASE <= kend.
Proof. unfold kend, PHYSTOP, KERNBASE. lia. Qed.

Lemma page_ok_at (i : nat) : (i < 10)%nat -> page_ok kend (kend + Z.of_nat i * PGSIZE).
Proof.
  intros Hi. split_and!; [by apply aligned_add|unfold PGSIZE; lia|unfold kend, PGSIZE; lia].
Qed.

Lemma free_ok : Forall (page_ok kend) free.
Proof. apply Forall_forall. intros p (i&Hi&->)%elem_of_pages. apply page_ok_at. lia. Qed.

Lemma free_dup : NoDup free.
Proof. apply (bool_decide_unpack _). vm_compute. done. Qed.

Lemma root_eq : root = kend + Z.of_nat 9 * PGSIZE.
Proof. reflexivity. Qed.

Lemma km : km_inv kend st free.
Proof.
  split.
  - split; cbn; [lia|done].
  - done.
  - apply (thread_rep kend (fun _ => 0) free); [apply boot_kend_pos|apply free_ok|apply free_dup].
  - apply free_ok.
  - apply free_dup.
Qed.

Lemma root_not_free : root ∉ free.
Proof. intros (i&Hi&E)%elem_of_pages. rewrite root_eq in E. unfold PGSIZE in E. lia. Qed.

Lemma space : uspace kend st root tree free ∅.
Proof.
  assert (Hok : page_ok kend root) by (rewrite root_eq; apply page_ok_at; lia).
  apply uspace_empty; [apply km|done|apply root_not_free|].
  intros x Hx. change (thread (fun _ => 0) free x = 0). apply (thread_out kend _ free x); [|apply free_ok].
  intros Hf. by apply (in_pages_not kend root free x Hok free_ok root_not_free).
Qed.
End Boot.

(** * Growing and shrinking *)

(** C27: [uvmalloc] grows an address space. Either it returns the new size and
    every page from the old end to the new one is mapped readable, writable and
    executable for user code and holds zeros; or it returns 0 and the address
    space is as before. Every byte the process could see it still sees unchanged.
    In both cases no page is lost or taken from elsewhere, and no byte outside
    the allocator's and the process's pages changes. A request to shrink returns
    the old size and does nothing. *)
Theorem uvmalloc_correct (kend : Z) (s : kmst) (root : Z) (T : ptree) (l : list Z) (D : gmap Z Z) (oldsz newsz : Z) :
  KERNBASE <= kend -> uspace kend s root T l D -> 0 <= oldsz -> newsz <= TRAPFRAME ->
  (forall a, aligned a -> PGROUNDUP oldsz <= a < newsz -> D !! a = None) ->
  if newsz <? oldsz then uvmalloc kend root oldsz newsz s = Ok oldsz s
  else wp (uvmalloc kend root oldsz newsz) (uvmalloc_post kend s root T l D (PGROUNDUP oldsz) newsz) s.
Proof.
  intros Hk Hu Hold Hnew Hfree. destruct (Z.ltb_spec newsz oldsz) as [Hlt|Hge].
  - unfold uvmalloc. by destruct (Z.ltb_spec newsz oldsz); [|lia].
  - by apply uvmalloc_spec; try lia.
Qed.

Lemma uvmalloc_correct_witness :
  wp (uvmalloc Boot.kend Boot.root 0 5000)
    (uvmalloc_post Boot.kend Boot.st Boot.root Boot.tree Boot.free ∅ (PGROUNDUP 0) 5000) Boot.st.
Proof.
  pose proof (uvmalloc_correct Boot.kend Boot.st Boot.root Boot.tree Boot.free ∅ 0 5000 Boot.boot_kend_pos Boot.space
    ltac:(lia) ltac:(unfold TRAPFRAME, TRAMPOLINE, MAXVA, PGSIZE; lia) (fun a _ _ => lookup_empty a)) as H.
  replace (5000 <? 0) with false in H by reflexivity. exact H.
Defined.

(** Run: a page appears, and reads as zero. *)
Example uvmalloc_sample :
  match uvmalloc Boot.kend Boot.root 0 100 Boot.st with
  | Ok r s' => r = 100 /\
      match copyin Boot.root 98 2 s' with Ok b _ => b = (0, [0; 0]) | Stop _ _ => False end
  | Stop _ _ => False
  end.
Proof. vm_compute. done. Qed.

(** The loop of [uvmunmap] at a page that is not mapped. *)
Lemma uvmunmap_step_hole kend s root T l D a hi do_free :
  KERNBASE <= kend -> uspace kend s root T l D -> aligned a -> 0 <= a < TRAPFRAME -> a < hi -> D !! a = None ->
  uvmunmap_step kend root hi do_free a s = Stop (Panic "uvmunmap: walk") s \/
  uvmunmap_step kend root hi do_free a s = Stop (Panic "uvmunmap: not mapped") s.
Proof.
  intros Hk Hu Ha Hr Hhi Hd. assert (HT : TRAPFRAME < MAXVA) by done. unfold uvmunmap_step.
  destruct (Z.ltb_spec a hi); [|lia]. pose proof (vmi_pt _ _ _ _ _ (us_vm _ _ _ _ _ _ Hu)) as Hp.
  erewrite bind_ok by (apply (walk_noalloc kend Hk s root T); [done|lia]).
  assert (HV : Z.land (leaf T (km_mem s) a) PTE_V = 0).
  { apply (us_dom _ _ _ _ _ _ Hu); [done|]. by rewrite PGROUNDDOWN_id. }
  unfold slot, leaf in *. destruct (table_of T a) as [t|] eqn:Ht; [|by left].
  destruct (Z.eqb_spec (t + 8 * PX 0 a) 0) as [E|_].
  { pose proof (slot_nonzero kend Hk _ _ _ _ _ Hp Ht). lia. }
  unfold read64, gets. erewrite bind_ok by done. rewrite HV. by right.
Qed.

(** The first page of a range that is not mapped. *)
Lemma first_hole (D : gmap Z Z) va h :
  aligned va -> va <= h -> aligned h -> D !! h = None ->
  exists h0, aligned h0 /\ va <= h0 <= h /\ D !! h0 = None /\ forall a, aligned a -> va <= a < h0 -> is_Some (D !! a).
Proof.
  intros Hva Hle Hh Hd. assert (HP : PGSIZE = 4096) by done. remember (Z.to_nat (h - va)) as n eqn:En.
  revert h Hle Hh Hd En. induction (lt_wf n) as [n _ IH]. intros h Hle Hh Hd En.
  destruct (decide (Exists (fun a => a mod PGSIZE = 0 /\ D !! a = None) (seqZ va (h - va)))) as [(a & Ha%elem_of_seqZ & Haa & Hda)%Exists_exists|Hno].
  - destruct (IH (Z.to_nat (a - va)) ltac:(lia) a) as (h0 & H1 & H2 & H3 & H4); [lia|done..|].
    exists h0. split_and!; [done|lia|lia|done|done].
  - exists h. split_and!; [done|lia|lia|done|]. intros a Ha Har. destruct (D !! a) eqn:E; [done|].
    exfalso. apply Hno, Exists_exists. exists a. rewrite elem_of_seqZ. split_and!; [lia|lia|done|done].
Qed.

(** [uvmunmap] of a range with a page that is not mapped: the pages before the
    first such page are gone when it panics. *)
Lemma uvmunmap_hole kend s root T l D va n do_free h :
  KERNBASE <= kend -> uspace kend s root T l D -> aligned va -> 0 <= va -> va + n * PGSIZE <= TRAPFRAME ->
  aligned h -> va <= h < va + n * PGSIZE -> D !! h = None -> (forall a, aligned a -> va <= a < h -> is_Some (D !! a)) ->
  exists s' l', unmapped kend s root T l D do_free va h s' l' /\
    (uvmunmap kend root va n do_free s = Stop (Panic "uvmunmap: walk") s' \/
     uvmunmap kend root va n do_free s = Stop (Panic "uvmunmap: not mapped") s').
Proof.
  intros Hk Hu Ha Hva Hmax Hh Hr Hd Hall. unfold uvmunmap. pose proof Ha as Ha'. unfold aligned in Ha'. rewrite Ha'. cbn [nz negb Z.eqb].
  assert (HT : TRAPFRAME < 2 ^ 40) by done. assert (HP : PGSIZE = 4096) by done.
  rewrite u64_small by lia. set (hi := va + n * PGSIZE) in *.
  apply (loop_rule _ (unmapping kend s root T l D do_free va h)
    (fun o => exists s' l', unmapped kend s root T l D do_free va h s' l' /\
      (o = Stop (Panic "uvmunmap: walk") s' \/ o = Stop (Panic "uvmunmap: not mapped") s'))) with (n := Z.to_nat (h - va)).
  - intros k a s1 (Haa&Har&->&l1&Hum). destruct (decide (a = h)) as [->|Hne].
    { destruct (uvmunmap_step_hole kend s1 root T l1 (without D va h) h hi do_free Hk) as [E|E]; try (done || lia); [apply Hum| |rewrite E; eauto..].
      rewrite lookup_without. case_decide; [lia|done]. }
    destruct (Hall a Haa ltac:(lia)) as [pa Hda].
    destruct (uvmunmap_step_run kend Hk s1 root T l1 (without D va a) a pa hi do_free) as (s2&Hrun&Hu2&Hc&Hsf&Hout&Hlf).
    { apply Hum. } { rewrite lookup_without. case_decide; [lia|done]. } { lia. }
    rewrite Hrun, u64_small by lia.
    assert (a + PGSIZE <= h) by (destruct (aligned_mult _ Haa) as [i ->], (aligned_mult _ Hh) as [j ->]; lia).
    exists (Z.to_nat (h - (a + PGSIZE))). split; [lia|].
    split_and!; [by apply aligned_step|lia|lia|done|]. eexists.
    eapply unmapped_step; try done. lia.
  - split_and!; [done|lia|lia|done|]. exists l. by apply unmapped_nil.
  - unfold hi in *. lia.
Qed.

(** What a user sees, and who holds which page, once the pages from [va] to [hi] are
    unmapped. *)
Definition gone (kend : Z) (s : kmst) (root : Z) (T : ptree) (l : list Z) (D : gmap Z Z) (do_free : bool) (va hi : Z)
    (s' : kmst) : Prop :=
  exists l', uspace kend s' root T l' (without D va hi) /\ outside T l D s s' /\
    (forall p, p ∈ l' <-> p ∈ l \/ (do_free = true /\ exists a, va <= a < hi /\ D !! a = Some p)) /\
    forall va', 0 <= va' < MAXVA ->
      ubyte T (km_mem s') va' = if (va <=? PGROUNDDOWN va') && (PGROUNDDOWN va' <? hi) then None else ubyte T (km_mem s) va'.

Lemma unmapped_gone kend s root T l D do_free va hi s' l' :
  KERNBASE <= kend -> uspace kend s root T l D -> unmapped kend s root T l D do_free va hi s' l' ->
  gone kend s root T l D do_free va hi s'.
Proof.
  intros Hk Hu Hum. exists l'. split_and!; [apply Hum..|]. intros va' Hva'. by eapply ubyte_unmapped.
Qed.

(** C29: [uvmunmap]. When every page of the range is mapped the call returns: the
    pages of the range disappear from the address space, the others keep their
    bytes, and nothing outside the pool of pages changes. With [do_free] the
    frames are on the free list afterwards, so the pool is the same; without it
    they are in nobody's hands any more. A page of the range that is not mapped,
    wherever it is, is a panic at the first such page, and the pages before that
    one are gone by then. A start that is not page aligned panics at once. *)
Theorem uvmunmap_correct (kend : Z) (s : kmst) (root : Z) (T : ptree) (l : list Z) (D : gmap Z Z) (va n : Z) (do_free : bool) :
  KERNBASE <= kend -> uspace kend s root T l D -> 0 <= va -> 0 < n -> va + n * PGSIZE <= TRAPFRAME ->
  (~ aligned va -> uvmunmap kend root va n do_free s = Stop (Panic "uvmunmap: not aligned") s) /\
  (aligned va -> forall h, aligned h -> va <= h < va + n * PGSIZE -> D !! h = None ->
   exists h0 s', aligned h0 /\ va <= h0 <= h /\ D !! h0 = None /\ (forall a, aligned a -> va <= a < h0 -> is_Some (D !! a)) /\
     gone kend s root T l D do_free va h0 s' /\
     (uvmunmap kend root va n do_free s = Stop (Panic "uvmunmap: walk") s' \/
      uvmunmap kend root va n do_free s = Stop (Panic "uvmunmap: not mapped") s')) /\
  (aligned va -> (forall a, aligned a -> va <= a < va + n * PGSIZE -> is_Some (D !! a)) ->
   wp (uvmunmap kend root va n do_free) (fun _ s' => gone kend s root T l D do_free va (va + n * PGSIZE) s') s).
Proof.
  intros Hk Hu Hva Hn Hmax. split_and!.
  - intros Hna. unfold uvmunmap, aligned in *. by replace (nz (va mod PGSIZE)) with true by (symmetry; by apply nz_true).
  - intros Ha h Hh Hr Hd. destruct (first_hole D va h Ha ltac:(lia) Hh Hd) as (h0 & Hh0 & Hr0 & Hd0 & Hall).
    destruct (uvmunmap_hole kend s root T l D va n do_free h0) as (s' & l' & Hum & Hrun); try done; [lia|].
    exists h0, s'. split_and!; try (done || lia). by eapply unmapped_gone.
  - intros Ha Hall. eapply wp_mono; [by apply (uvmunmap_spec kend Hk s root T l D va n do_free); try lia|].
    intros [] s' [l' Hum]. by eapply unmapped_gone.
Qed.

(** A process with one page at 0. *)
Lemma boot_runs :
  match uvmalloc Boot.kend Boot.root 0 100 Boot.st with
  | Ok r s1 => (r =? 100) && match uvmcreate s1 with Ok p _ => negb (p =? 0) | Stop _ _ => false end
  | Stop _ _ => false
  end = true.
Proof. vm_compute. reflexivity. Qed.

(** After [uvmalloc] of 100 bytes. *)
Lemma boot_grown :
  exists s T l D, uvmalloc Boot.kend Boot.root 0 100 Boot.st = Ok 100 s /\
    grown Boot.kend zeroed heap_flags Boot.st Boot.root Boot.tree Boot.free ∅ 0 4096 s T l D.
Proof.
  assert (HT : 100 <= TRAPFRAME) by (unfold TRAPFRAME, TRAMPOLINE, MAXVA, PGSIZE; lia).
  pose proof (uvmalloc_spec Boot.kend Boot.boot_kend_pos Boot.st Boot.root Boot.tree Boot.free ∅ 0 100 Boot.space
    ltac:(lia) HT (fun a _ _ => lookup_empty a)) as Hrun.
  apply wp_run in Hrun as (r&s1&Hr&T'&l'&Hpost).
  pose proof boot_runs as Hr1. rewrite Hr in Hr1. apply andb_true_iff in Hr1 as [->%Z.eqb_eq _].
  destruct Hpost as [(_&D'&Hg)|(?&_)]; [|done].
  change (PGROUNDUP 0) with 0 in Hg. change (PGROUNDUP 100) with 4096 in Hg. exists s1, T', l', D'. exact (conj Hr Hg).
Qed.

(** A process with one page, at 0: the page is taken away, a range that starts with
    it panics at the next page, and an address inside it is refused. *)
Lemma uvmunmap_correct_witness :
  exists s T l D p, D !! 0 = Some p /\
    wp (uvmunmap Boot.kend Boot.root 0 1 true) (fun _ s' => gone Boot.kend s Boot.root T l D true 0 4096 s') s /\
    (exists s', gone Boot.kend s Boot.root T l D true 0 4096 s' /\
      (uvmunmap Boot.kend Boot.root 0 3 true s = Stop (Panic "uvmunmap: walk") s' \/
       uvmunmap Boot.kend Boot.root 0 3 true s = Stop (Panic "uvmunmap: not mapped") s')) /\
    uvmunmap Boot.kend Boot.root 100 2 true s = Stop (Panic "uvmunmap: not aligned") s.
Proof.
  destruct boot_grown as (s & T & l & D & _ & Hg). pose proof (gn_space _ _ _ _ _ _ _ _ _ _ _ _ _ _ Hg) as Hu.
  assert (HP : PGSIZE = 4096) by reflexivity. assert (HT : 16384 <= TRAPFRAME) by (unfold TRAPFRAME, TRAMPOLINE, MAXVA, PGSIZE; lia).
  destruct (gn_new _ _ _ _ _ _ _ _ _ _ _ _ _ _ Hg 0 eq_refl ltac:(lia)) as [p Hp].
  assert (Hone : forall a, aligned a -> 0 <= a < 4096 -> a = 0).
  { intros a Ha Har. destruct (aligned_mult a Ha) as [i ->]. unfold PGSIZE in *. lia. }
  exists s, T, l, D, p. split; [exact Hp|]. split; [|split].
  - apply (uvmunmap_correct Boot.kend s Boot.root T l D 0 1 true Boot.boot_kend_pos Hu); [lia|lia|lia|reflexivity|].
    intros a Ha Har. rewrite (Hone a Ha) by lia. by exists p.
  - destruct (uvmunmap_correct Boot.kend s Boot.root T l D 0 3 true Boot.boot_kend_pos Hu ltac:(lia) ltac:(lia) ltac:(lia)) as (_ & H & _).
    assert (D !! 4096 = None) as Hd.
    { destruct (D !! 4096) as [q|] eqn:E; [|reflexivity]. exfalso.
      assert (without D 0 4096 !! 4096 = Some q) as E' by (rewrite lookup_without, decide_False by lia; exact E).
      rewrite (gn_old _ _ _ _ _ _ _ _ _ _ _ _ _ _ Hg), lookup_empty in E'. discriminate E'. }
    destruct (H eq_refl 4096 eq_refl ltac:(lia) Hd) as (h0 & s' & Hh0 & Hr & Hd0 & _ & Hgo & Hrun).
    assert (h0 = 4096) as ->; [|by exists s'].
    destruct (decide (h0 < 4096)) as [Hlt|]; [|lia].
    rewrite (Hone h0 Hh0) in Hd0 by lia. rewrite Hp in Hd0. discriminate Hd0.
  - apply (uvmunmap_correct Boot.kend s Boot.root T l D 100 2 true Boot.boot_kend_pos Hu); [lia|lia|lia|].
    intros Ha. discriminate Ha.
Defined.

(** * [fork] *)

(** C28: [uvmcopy], the memory of [fork]. When the parent's pages below [sz] are
    mapped and the child's are not, the call returns. With 0, the child sees,
    at every address of those pages, the byte the parent sees, with the same
    permissions, in frames of its own; with -1 the child is as before. The
    parent's address space and all it sees are unchanged, the child's pool of
    pages is the same, and no byte elsewhere has changed. *)
Theorem uvmcopy_correct (kend : Z) (s : kmst) (old new : Z) (To Tn : ptree) (l : list Z) (Do Dn : gmap Z Z) (sz : Z) :
  KERNBASE <= kend -> uspace kend s old To l Do -> uspace kend s new Tn l Dn -> apart To Do Tn Dn ->
  0 <= sz <= TRAPFRAME ->
  (forall a, aligned a -> 0 <= a < sz -> is_Some (Do !! a)) ->
  (forall a, aligned a -> 0 <= a < sz -> Dn !! a = None) ->
  wp (uvmcopy kend old new sz)
    (fun r s' => exists T' l' D', uspace kend s' new T' l' D' /\ uspace kend s' old To l' Do /\
       (forall p, pool T' l' D' p <-> pool Tn l Dn p) /\ outside Tn l Dn s s' /\
       (forall va, 0 <= va < MAXVA -> ubyte To (km_mem s') va = ubyte To (km_mem s) va) /\
       ((r = 0 /\ forall va, 0 <= va < MAXVA ->
           ubyte T' (km_mem s') va =
             (if (0 <=? va) && (va <? PGROUNDUP sz) then ubyte To (km_mem s) va else ubyte Tn (km_mem s) va) /\
           PTE_FLAGS (leaf T' (km_mem s') va) =
             (if (0 <=? va) && (va <? PGROUNDUP sz) then PTE_FLAGS (leaf To (km_mem s) va)
              else PTE_FLAGS (leaf Tn (km_mem s) va))) \/
        (r = -1 /\ D' = Dn /\ forall va, 0 <= va < MAXVA -> ubyte T' (km_mem s') va = ubyte Tn (km_mem s) va))) s.
Proof.
  intros Hk Ho Hn Hap Hsz Hmap Hfree.
  eapply wp_mono; [by apply (uvmcopy_spec kend Hk s old new To Tn l Do Dn sz)|].
  intros r s' (T'&l'&(Ho'&Hsf&Hl)&Hr).
  assert (Hpar : forall va, 0 <= va < MAXVA -> ubyte To (km_mem s') va = ubyte To (km_mem s) va).
  { intros va Hva. eapply (ubyte_same kend); [exact Ho|lia|apply Hl|done]. }
  destruct Hr as [(->&D'&Hg)|(->&Hkp)].
  - exists T', l', D'. split_and!; try apply Hg; try done. left. split; [done|]. intros va Hva.
    split; [by apply Hg|by apply Hg].
  - exists T', l', Dn. split_and!; try apply Hkp; try done. right. split_and!; [done..|]. intros va Hva. by apply Hkp.
Qed.

(** A process with a page of zeros at 0. *)
Lemma boot_user :
  exists s T l D, uspace Boot.kend s Boot.root T l D /\ forall va, 0 <= va < 4096 -> ubyte T (km_mem s) va = Some 0.
Proof.
  destruct boot_grown as (s & T & l & D & _ & Hg). exists s, T, l, D. split; [apply Hg|]. intros va Hva.
  rewrite (gn_byte _ _ _ _ _ _ _ _ _ _ _ _ _ _ Hg) by (unfold MAXVA; lia).
  destruct (Z.leb_spec 0 va), (Z.ltb_spec va 4096); try lia. done.
Qed.

Lemma boot_two :
  exists s new To Tn l Do Dn, uspace Boot.kend s Boot.root To l Do /\ uspace Boot.kend s new Tn l Dn /\
    apart To Do Tn Dn /\ (forall a, aligned a -> 0 <= a < 100 -> is_Some (Do !! a)) /\
    (forall a, aligned a -> 0 <= a < 100 -> Dn !! a = None) /\
    (forall va, 0 <= va < 4096 -> ubyte To (km_mem s) va = Some 0).
Proof.
  destruct boot_grown as (s1 & T' & l' & D' & Hr & Hg).
  pose proof boot_runs as Hr2. rewrite Hr in Hr2. pose proof (gn_space _ _ _ _ _ _ _ _ _ _ _ _ _ _ Hg) as Hu.
  pose proof (uvmcreate_beside Boot.kend Boot.boot_kend_pos s1 Boot.root T' l' D' Hu) as Hc.
  apply wp_run in Hc as (p&s2&Hc&Hc2). rewrite Hc in Hr2.
  destruct l' as [|q l']; [subst p; done|]. destruct Hc2 as (->&Hn&Ho&Hap&Hb).
  exists s2, q, T', {[ [] := q ]}, l', D', ∅. split; [exact Ho|]. split; [exact Hn|]. split; [exact Hap|].
  split; [intros a Ha Har; apply Hg; [exact Ha|lia]|]. split; [intros a _ _; apply lookup_empty|].
  intros va Hva. rewrite Hb by lia. rewrite (gn_byte _ _ _ _ _ _ _ _ _ _ _ _ _ _ Hg) by (unfold MAXVA; lia).
  destruct (Z.leb_spec 0 va), (Z.ltb_spec va 4096); try lia. reflexivity.
Qed.

Lemma uvmcopy_correct_witness :
  exists s new, wp (uvmcopy Boot.kend Boot.root new 100) (fun r s' => r = 0 \/ r = -1) s.
Proof.
  destruct boot_two as (s&new&To&Tn&l&Do&Dn&Ho&Hn&Hap&Hm&Hf&_). exists s, new.
  assert (HT : 0 <= 100 <= TRAPFRAME) by (unfold TRAPFRAME, TRAMPOLINE, MAXVA, PGSIZE; lia).
  eapply wp_mono.
  - exact (uvmcopy_correct Boot.kend s Boot.root new To Tn l Do Dn 100 Boot.boot_kend_pos Ho Hn Hap HT Hm Hf).
  - intros r s' (T'&l'&D'&_&_&_&_&_&[(->&_)|(->&_)]); [by left|by right].
Defined.

(** * The end of a process's memory *)

(** C31: [uvmfree]. When the user pages are exactly those below [sz] and nothing
    is mapped above, every frame and every table of the address space is on the
    free list afterwards together with the pages that were free before, and
    nothing else changes; in particular none of the panics of [uvmunmap] and
    [freewalk] is reached. *)
Theorem uvmfree_correct (kend : Z) (s : kmst) (root : Z) (T : ptree) (l : list Z) (D : gmap Z Z) (sz : Z) :
  KERNBASE <= kend -> uspace kend s root T l D -> 0 <= sz <= TRAPFRAME ->
  (forall a, aligned a -> 0 <= a < PGROUNDUP sz -> is_Some (D !! a)) ->
  (forall a pa, D !! a = Some pa -> a < PGROUNDUP sz) ->
  (forall va, TRAPFRAME <= va < MAXVA -> Z.land (leaf T (km_mem s) va) PTE_V = 0) ->
  wp (uvmfree kend root sz)
    (fun _ s' => exists l', km_inv kend s' l' /\ csame (km_cpu s) (km_cpu s') /\
       (forall p, p ∈ l' <-> pool T l D p) /\ outside T l D s s') s.
Proof. intros Hk. by apply (uvmfree_spec kend Hk). Qed.

(** The process with one page: its frame is free again. *)
Lemma uvmfree_correct_witness :
  exists s T l D p, D !! 0 = Some p /\
    wp (uvmfree Boot.kend Boot.root 100)
      (fun _ s' => exists l', km_inv Boot.kend s' l' /\ csame (km_cpu s) (km_cpu s') /\ p ∈ l' /\
         (forall q, q ∈ l' <-> pool T l D q) /\ outside T l D s s') s.
Proof.
  destruct boot_grown as (s & T & l & D & _ & Hg). pose proof (gn_space _ _ _ _ _ _ _ _ _ _ _ _ _ _ Hg) as Hu.
  destruct (gn_new _ _ _ _ _ _ _ _ _ _ _ _ _ _ Hg 0 eq_refl ltac:(lia)) as [p Hp].
  exists s, T, l, D, p. split; [exact Hp|]. eapply wp_mono.
  - apply (uvmfree_correct Boot.kend s Boot.root T l D 100 Boot.boot_kend_pos Hu).
    + unfold TRAPFRAME, TRAMPOLINE, MAXVA, PGSIZE. lia.
    + change (PGROUNDUP 100) with 4096. apply Hg.
    + change (PGROUNDUP 100) with 4096. intros a pa Ha. destruct (Z.ltb_spec a 4096); [assumption|exfalso].
      assert (without D 0 4096 !! a = Some pa) as E by (rewrite lookup_without, decide_False by lia; exact Ha).
      rewrite (gn_old _ _ _ _ _ _ _ _ _ _ _ _ _ _ Hg), lookup_empty in E. discriminate E.
    + intros va Hva. assert (HT : 4096 <= TRAPFRAME) by (unfold TRAPFRAME, TRAMPOLINE, MAXVA, PGSIZE; lia).
      assert (forall x, Z.land x PTE_V = Z.land (PTE_FLAGS x) PTE_V) as Hfl
        by (intros x; unfold PTE_FLAGS; rewrite <- Z.land_assoc; reflexivity).
      rewrite Hfl, (gn_flags _ _ _ _ _ _ _ _ _ _ _ _ _ _ Hg) by (unfold TRAPFRAME, TRAMPOLINE in *; lia).
      destruct (Z.ltb_spec va 4096); [lia|]. rewrite andb_false_r. unfold Boot.tree. rewrite leaf_empty. reflexivity.
  - intros [] s' (l' & H1 & H2 & H3 & H4). exists l'. split; [exact H1|]. split; [exact H2|]. split; [|split; [exact H3|exact H4]].
    apply H3. right. right. exists 0. exact Hp.
Defined.

(** * Copies between the kernel and user memory *)

(** C23: [copyin] and [copyinstr], which copy page by page, return exactly what
    reading user memory one byte at a time would: the bytes up to the end of the
    request (of the string) and 0, or the bytes before the first address user
    code may not read and -1; no address, however large, is read outside the
    user's pages, and nothing changes. *)
Theorem copyin_equiv (kend : Z) (s : kmst) (root : Z) (T : ptree) (srcva n : Z) :
  KERNBASE <= kend -> pt_inv kend (km_mem s) root T -> 0 <= srcva < 2 ^ 64 -> 0 <= n < 2 ^ 64 ->
  copyin root srcva n s =
    (let '(ok, bytes) := uread T (km_mem s) srcva (Z.to_nat n) in Ok (if ok then 0 else -1, bytes) s) /\
  copyinstr root srcva n s =
    (let '(ok, bytes) := ureadstr T (km_mem s) srcva (Z.to_nat n) in Ok (if ok then 0 else -1, bytes) s).
Proof.
  intros Hk Hp Hva Hn. split.
  - rewrite (copyin_eq kend Hk s root T srcva n) by (done || lia). by destruct (uread _ _ _ _).
  - rewrite (copyinstr_eq kend Hk s root T srcva n) by (done || lia). by destruct (ureadstr _ _ _ _).
Qed.

Lemma copyin_equiv_witness :
  copyin Boot.root (2 ^ 64 - 2) 8 Boot.st = Ok (-1, []) Boot.st.
Proof.
  destruct (copyin_equiv Boot.kend Boot.st Boot.root Boot.tree (2 ^ 64 - 2) 8) as [H _].
  - exact Boot.boot_kend_pos.
  - exact (vmi_pt _ _ _ _ _ (us_vm _ _ _ _ _ _ Boot.space)).
  - lia.
  - lia.
  - rewrite H. cbn [Z.to_nat Pos.to_nat Pos.iter_op uread ubyte].
    unfold uread, ubyte, uaddr. reflexivity.
Defined.

(** What was written is what is read. *)
Lemma uread_written kend s root T l D va src s' :
  written kend s root T l D va src (Z.of_nat (length src)) s' -> 0 <= va -> Forall is_byte src ->
  uread T (km_mem s') va (length src) = (true, src).
Proof.
  intros (_&_&_&Hw) Hva Hb.
  assert (H : forall k pre, src = pre ++ k -> uread T (km_mem s') (va + Z.of_nat (length pre)) (length k) = (true, k)).
  { induction k as [|b k IH]; intros pre E; [done|]. cbn [length uread].
    assert (Hlen : length src = (length pre + S (length k))%nat) by (rewrite E, length_app; done).
    rewrite Hw by lia.
    destruct (Z.leb_spec va (va + Z.of_nat (length pre))), (Z.ltb_spec (va + Z.of_nat (length pre)) (va + Z.of_nat (length src)));
      try lia. cbn [andb].
    replace (Z.to_nat (va + Z.of_nat (length pre) - va)) with (length pre) by lia.
    assert (Hb' : src !! length pre = Some b) by (rewrite E; apply list_lookup_middle; done).
    rewrite (list_lookup_total_correct _ _ _ Hb').
    specialize (IH (pre ++ [b])). rewrite <- app_assoc in IH. specialize (IH E). rewrite length_app in IH.
    replace (va + Z.of_nat (length pre) + 1) with (va + Z.of_nat (length pre + length [b])) by (cbn; lia).
    rewrite IH. cbn. pose proof (Forall_lookup_1 _ _ _ _ Hb Hb') as Hr. unfold is_byte in Hr.
    by rewrite u8_small. }
  specialize (H src [] eq_refl). by rewrite Z.add_0_r in H.
Qed.

(** C24: [copyout] writes the bytes of [src] at [dstva] in the user's address
    space: all of them and 0, or those before the first address user code may not
    access and -1. Every other byte the user sees, and every byte that is not in
    the user's frames (page tables, free pages, other processes, the kernel)
    keeps its value. After a successful [copyout], [copyin] of the range gives
    the bytes back. *)
Theorem copyout_correct (kend : Z) (s : kmst) (root : Z) (T : ptree) (l : list Z) (D : gmap Z Z) (dstva : Z) (src : list Z) :
  KERNBASE <= kend -> uspace kend s root T l D -> 0 <= dstva < 2 ^ 64 ->
  Z.of_nat (length src) < 2 ^ 64 -> Forall is_byte src ->
  wp (copyout root dstva src (Z.of_nat (length src)))
    (fun r s' => uspace kend s' root T l D /\
       (forall x, ~ in_frames D x -> km_mem s' x = km_mem s x) /\
       exists k, (forall va, 0 <= va -> ubyte T (km_mem s') va =
                    if (dstva <=? va) && (va <? dstva + k) then Some (u8 (src !!! Z.to_nat (va - dstva)))
                    else ubyte T (km_mem s) va) /\
         ((r = 0 /\ k = Z.of_nat (length src) /\
           copyin root dstva (Z.of_nat (length src)) s' = Ok (0, src) s') \/
          (r = -1 /\ 0 <= k < Z.of_nat (length src) /\ ubyte T (km_mem s) (dstva + k) = None))) s.
Proof.
  intros Hk Hu Hd Hlen Hb.
  eapply wp_mono; [apply (copyout_spec kend Hk s root T l D dstva src); try done; lia|].
  intros r s' (k&Hw&Hr). pose proof Hw as (Hu'&_&Hout&Hub). split_and!; [done..|].
  exists k. split; [done|]. destruct Hr as [[-> ->]|Hr]; [left|by right].
  split_and!; [done..|]. pose proof (vmi_pt _ _ _ _ _ (us_vm _ _ _ _ _ _ Hu')) as Hp.
  rewrite (copyin_eq kend Hk s' root T dstva) by (done || lia). rewrite Nat2Z.id.
  rewrite (uread_written kend s root T l D dstva src s'); [done|done|lia|done].
Qed.

(** Three bytes into a page of zeros. *)
Lemma copyout_correct_witness : exists s,
  wp (copyout Boot.root 50 [1; 2; 3] 3) (fun r s' => r = 0 /\ copyin Boot.root 50 3 s' = Ok (0, [1; 2; 3]) s') s.
Proof.
  destruct boot_user as (s & T & l & D & Hu & Hz). exists s. eapply wp_mono.
  - apply (copyout_correct Boot.kend s Boot.root T l D 50 [1; 2; 3] Boot.boot_kend_pos Hu); [lia|done|repeat constructor; done].
  - intros r s' (_&_&k&_&[(->&_&H)|(_&Hk&Hn)]); [exact (conj eq_refl H)|exfalso]. cbn in Hk. rewrite Hz in Hn by lia. discriminate Hn.
Defined.

(** * Isolation *)

(** C2: isolation. Growing one process ([uvmalloc]) or writing into it
    ([copyout]) leaves every byte that another process can see, its page table
    and its frames, as they were. *)
Theorem uvm_isolation (kend : Z) (s : kmst) (r1 r2 : Z) (T1 T2 : ptree) (l : list Z) (D1 D2 : gmap Z Z)
    (oldsz newsz dstva : Z) (src : list Z) :
  KERNBASE <= kend -> uspace kend s r1 T1 l D1 -> uspace kend s r2 T2 l D2 -> apart T2 D2 T1 D1 ->
  0 <= oldsz <= newsz -> newsz <= TRAPFRAME ->
  (forall a, aligned a -> PGROUNDUP oldsz <= a < newsz -> D1 !! a = None) ->
  0 <= dstva < 2 ^ 64 -> Z.of_nat (length src) < 2 ^ 64 ->
  let intact := fun s' => exists l', uspace kend s' r2 T2 l' D2 /\
    forall va, 0 <= va -> ubyte T2 (km_mem s') va = ubyte T2 (km_mem s) va in
  wp (uvmalloc kend r1 oldsz newsz) (fun _ s' => intact s') s /\
  wp (copyout r1 dstva src (Z.of_nat (length src))) (fun _ s' => intact s') s.
Proof.
  intros Hk H1 H2 Hap Hsz Hmax Hfree Hd Hlen intact.
  assert (Hother : forall s' T' l' D', uspace kend s' r1 T' l' D' ->
    (forall p, pool T' l' D' p <-> pool T1 l D1 p) -> outside T1 l D1 s s' -> intact s').
  { intros s' T' l' D' Hu Hpool Hout. exists l'.
    destruct (other_keeps kend s r2 T2 l D2 r1 T1 D1 s' T' l' D') as (Hu2&Hsf&Hl&_); try done; [apply Hu|].
    split; [done|]. intros va Hva. by apply (ubyte_same kend s r2 T2 l D2). }
  split.
  - eapply wp_mono; [by apply (uvmalloc_spec kend Hk s r1 T1 l D1)|].
    intros r s' (T'&l'&[(_&D'&Hg)|(_&Hkp)]); eapply Hother; (apply Hg || apply Hkp).
  - eapply wp_mono; [apply (copyout_spec kend Hk s r1 T1 l D1 dstva src); try done; lia|].
    intros r s' (k&(Hu&_&Hout&_)&_). apply (Hother s' T1 l D1); [done|done|].
    intros x Hx. apply Hout. intros (va&pa&Hd'&Hpx). apply (Hx pa); [|done]. right. right. by exists va.
Qed.

(** A second process grows by a page, and is written to: the first one sees its zeros. *)
Lemma uvm_isolation_witness : exists s new To,
  (forall va, 0 <= va < 4096 -> ubyte To (km_mem s) va = Some 0) /\
  wp (uvmalloc Boot.kend new 0 100) (fun _ s' => forall va, 0 <= va < 4096 -> ubyte To (km_mem s') va = Some 0) s /\
  wp (copyout new 50 [7] 1) (fun _ s' => forall va, 0 <= va < 4096 -> ubyte To (km_mem s') va = Some 0) s.
Proof.
  destruct boot_two as (s&new&To&Tn&l&Do&Dn&Ho&Hn&Hap&_&Hf&Hz). exists s, new, To. split; [exact Hz|].
  destruct (uvm_isolation Boot.kend s new Boot.root Tn To l Dn Do 0 100 50 [7] Boot.boot_kend_pos Hn Ho Hap
    ltac:(lia) ltac:(unfold TRAPFRAME, TRAMPOLINE, MAXVA, PGSIZE; lia)
    (fun a Ha Hr => Hf a Ha ltac:(change (PGROUNDUP 0) with 0 in Hr; lia)) ltac:(lia) ltac:(cbn; lia)) as [Hg Hw].
  split; [eapply wp_mono; [exact Hg|]|eapply wp_mono; [exact Hw|]]; intros r s' (l'&_&Hb) va Hva; (rewrite Hb by lia); apply Hz; exact Hva.
Defined.
