(* ===== verification/Sched.v ===== *)
(** Processes and scheduling: the process table of [src/kernel/proc.h] and the
    parts of [src/kernel/proc.c] that block, wake and switch processes
    ([sleep], [wakeup], [sched], [yield], [scheduler], [kill], [allocpid],
    [procinit]).

    A component whose code sleeps has a lens to the process table ([HasPtab])
    and an operation [swtch] ([HasSwtch]), which stands for the assembly of
    [src/kernel/swtch.S]: all that happens from saving this context until it
    runs again. [swtch_stop] is the instance that ends a run there. *)

From S2P Require Import Prelude Params Spinlock.
Local Open Scope kernel_scope.

(** * Data *)

(** [struct vm_area_struct] *)
Record vma : Type := Vma {
  vm_addr : Z;
  vm_len : Z;
  vm_prot : Z;
  vm_flag : Z;
  vm_f : option (fin NFILE);
  vm_offset : Z;
  vm_fd : Z;
  vm_valid : Z;
}.

(** The kernel objects code sleeps on: [void *chan] is the address of one of
    them, and different objects have different addresses. *)
Inductive kobj : Type :=
| KBuf (i : nat)                (* a struct buf, waiting for the disk *)
| KBufLock (i : nat)            (* its sleep lock *)
| KInodeLock (i : nat)
| KDiskFree                     (* disk.free[0] *)
| KLog
| KProc (i : nat)               (* a struct proc, in wait() *)
| KPipeRead (pa : Z)            (* pi->nread of the pipe in the page pa *)
| KPipeWrite (pa : Z)
| KTicks
| KConsR                        (* cons.r *)
| KUartTx.                      (* uart_tx_r *)
#[export] Instance kobj_eq_dec : EqDecision kobj.
Proof. solve_decision. Defined.

Inductive procstate : Type := UNUSED | USED | SLEEPING | RUNNABLE | RUNNING | ZOMBIE.
#[export] Instance procstate_eq_dec : EqDecision procstate.
Proof. solve_decision. Defined.

(** [struct context]: [ra], [sp] and [s0] to [s11]. *)
Record context : Type := Context { cx_ra : Z; cx_sp : Z; cx_s : list Z }.

Record proc : Type := Proc {
  p_lock : spinlock;
  p_state : procstate;
  p_chan : option kobj;
  p_killed : Z;
  p_xstate : Z;
  p_pid : Z;
  p_parent : option (fin NPROC);
  p_kstack : Z;
  p_sz : Z;
  p_pagetable : Z;
  p_trapframe : Z;
  p_context : context;
  p_ofile : vec (option (fin NFILE)) NOFILE;
  p_cwd : option (fin NINODE);
  p_name : list Z;
  p_vma : vec vma 16;
}.

(** The fields the scheduling code writes. *)
Definition set_plock (k : spinlock) (p : proc) : proc :=
  Proc k (p_state p) (p_chan p) (p_killed p) (p_xstate p) (p_pid p) (p_parent p) (p_kstack p) (p_sz p)
    (p_pagetable p) (p_trapframe p) (p_context p) (p_ofile p) (p_cwd p) (p_name p) (p_vma p).
Definition set_pstate (x : procstate) (p : proc) : proc :=
  Proc (p_lock p) x (p_chan p) (p_killed p) (p_xstate p) (p_pid p) (p_parent p) (p_kstack p) (p_sz p)
    (p_pagetable p) (p_trapframe p) (p_context p) (p_ofile p) (p_cwd p) (p_name p) (p_vma p).
Definition set_pchan (x : option kobj) (p : proc) : proc :=
  Proc (p_lock p) (p_state p) x (p_killed p) (p_xstate p) (p_pid p) (p_parent p) (p_kstack p) (p_sz p)
    (p_pagetable p) (p_trapframe p) (p_context p) (p_ofile p) (p_cwd p) (p_name p) (p_vma p).
Definition set_pkilled (x : Z) (p : proc) : proc :=
  Proc (p_lock p) (p_state p) (p_chan p) x (p_xstate p) (p_pid p) (p_parent p) (p_kstack p) (p_sz p)
    (p_pagetable p) (p_trapframe p) (p_context p) (p_ofile p) (p_cwd p) (p_name p) (p_vma p).
Definition set_pkstack (x : Z) (p : proc) : proc :=
  Proc (p_lock p) (p_state p) (p_chan p) (p_killed p) (p_xstate p) (p_pid p) (p_parent p) x (p_sz p)
    (p_pagetable p) (p_trapframe p) (p_context p) (p_ofile p) (p_cwd p) (p_name p) (p_vma p).

(** The globals of [proc.c]. *)
Record ptab : Type := Ptab {
  pt_proc : vec proc NPROC;
  pt_initproc : option (fin NPROC);
  pt_nextpid : Z;
  pt_pid_lock : spinlock;
  pt_wait_lock : spinlock;
}.

Class HasPtab (S : Type) : Type := ptabL : lens S ptab.
Class HasSwtch (S : Type) : Type := swtch : M S unit.
Definition swtch_stop {S} : HasSwtch S := halt Swtch.

Definition pt_procL : lens ptab (vec proc NPROC) :=
  Lens pt_proc (fun v t => Ptab v (pt_initproc t) (pt_nextpid t) (pt_pid_lock t) (pt_wait_lock t)).
Definition pt_nextpidL : lens ptab Z :=
  Lens pt_nextpid (fun v t => Ptab (pt_proc t) (pt_initproc t) v (pt_pid_lock t) (pt_wait_lock t)).
Definition pt_pid_lockL : lens ptab spinlock :=
  Lens pt_pid_lock (fun v t => Ptab (pt_proc t) (pt_initproc t) (pt_nextpid t) v (pt_wait_lock t)).
Definition pt_wait_lockL : lens ptab spinlock :=
  Lens pt_wait_lock (fun v t => Ptab (pt_proc t) (pt_initproc t) (pt_nextpid t) (pt_pid_lock t) v).
Definition p_lockL : lens proc spinlock := Lens p_lock set_plock.
#[export] Instance pt_procL_ok : LensOk pt_procL.
Proof. solve_lens. Qed.
#[export] Instance pt_nextpidL_ok : LensOk pt_nextpidL.
Proof. solve_lens. Qed.
#[export] Instance pt_pid_lockL_ok : LensOk pt_pid_lockL.
Proof. solve_lens. Qed.
#[export] Instance pt_wait_lockL_ok : LensOk pt_wait_lockL.
Proof. solve_lens. Qed.
#[export] Instance p_lockL_ok : LensOk p_lockL.
Proof. solve_lens. Qed.

Section Ops.
Context {S : Type} `{HasCpu S} `{HasPtab S} `{HasSwtch S}.

Definition procsL : lens S (vec proc NPROC) := lens_comp ptabL pt_procL.
Definition nextpidL : lens S Z := lens_comp ptabL pt_nextpidL.
Definition pid_lockL : lens S spinlock := lens_comp ptabL pt_pid_lockL.
Definition wait_lockL : lens S spinlock := lens_comp ptabL pt_wait_lockL.
(** [&proc[i]] and [&proc[i].lock] *)
Definition procL (i : fin NPROC) : lens S proc := arrL procsL i.
Definition plockL (i : fin NPROC) : lens S spinlock := lens_comp (procL i) p_lockL.

Definition getp (i : fin NPROC) : M S proc := gets (view (procL i)).
Definition updp (i : fin NPROC) (f : proc -> proc) : M S unit :=
  modify (fun s => put (procL i) (f (view (procL i) s)) s).

(** A field of [*myproc()]: a null pointer is not dereferenced. *)
Definition myprocp : M S (fin NPROC) :=
  p <- myproc ;;
  match p with Some i => ret i | None => fault "myproc: null" end.

Definition procinit : M S unit :=
  initlock pid_lockL "nextpid" ;;
  initlock wait_lockL "wait_lock" ;;
  forM (indices NPROC) (fun i =>
    initlock (plockL i) "proc" ;;
    updp i (set_pkstack (KSTACK (Z.of_nat (fin_to_nat i))))).

Definition allocpid : M S Z :=
  acquire pid_lockL ;;
  pid <- gets (view nextpidL) ;;
  modify (put nextpidL (s32 (pid + 1))) ;;
  release pid_lockL ;;
  ret pid.

Definition sched : M S unit :=
  p <- myprocp ;;
  h <- holding (plockL p) ;;
  if negb h then panic "sched p->lock" else
  c <- mycpu ;;
  if negb (c_noff c =? 1) then panic "sched locks" else
  pr <- getp p ;;
  if bool_decide (p_state pr = RUNNING) then panic "sched running" else
  i <- intr_get ;;
  if i : bool then panic "sched interruptible" else
  c <- mycpu ;;
  let intena := c_intena c in
  swtch ;;
  c <- mycpu ;;
  set_mycpu (set_intena intena c).

Definition yield : M S unit :=
  p <- myprocp ;;
  acquire (plockL p) ;;
  updp p (set_pstate RUNNABLE) ;;
  sched ;;
  release (plockL p).

Definition sleep (chan : kobj) (lk : lens S spinlock) : M S unit :=
  p <- myprocp ;;
  acquire (plockL p) ;;
  release lk ;;
  updp p (set_pchan (Some chan)) ;;
  updp p (set_pstate SLEEPING) ;;
  sched ;;
  updp p (set_pchan None) ;;
  release (plockL p) ;;
  acquire lk.

(** One process of the loop of [wakeup]. *)
Definition wakeup_one (chan : kobj) (i : fin NPROC) : M S unit :=
  me <- myproc ;;
  if bool_decide (Some i = me) then ret tt else
  acquire (plockL i) ;;
  p <- getp i ;;
  when (bool_decide (p_state p = SLEEPING) && bool_decide (p_chan p = Some chan)) (updp i (set_pstate RUNNABLE)) ;;
  release (plockL i).

Definition wakeup (chan : kobj) : M S unit := forM (indices NPROC) (wakeup_one chan).

Definition kill (pid : Z) : M S Z :=
  r <- forM_find (indices NPROC) (fun i =>
    acquire (plockL i) ;;
    p <- getp i ;;
    if p_pid p =? pid then
      updp i (set_pkilled 1) ;;
      when (bool_decide (p_state p = SLEEPING)) (updp i (set_pstate RUNNABLE)) ;;
      release (plockL i) ;;
      ret (Some 0)
    else
      release (plockL i) ;;
      ret None) ;;
  ret (default (-1) r).

(** One process of the inner loop of [scheduler]. *)
Definition scheduler_one (i : fin NPROC) : M S unit :=
  acquire (plockL i) ;;
  p <- getp i ;;
  when (bool_decide (p_state p = RUNNABLE))
    (updp i (set_pstate RUNNING) ;;
     c <- mycpu ;;
     set_mycpu (set_cproc (Some i) c) ;;
     swtch ;;
     c <- mycpu ;;
     set_mycpu (set_cproc None c)) ;;
  release (plockL i).

(** One round of the outer loop; [scheduler] repeats it for ever. *)
Definition scheduler_round : M S unit :=
  intr_on ;;
  forM (indices NPROC) scheduler_one.
End Ops.
#[global] Arguments wakeup {S H H0} _ _ : simpl never.
#[global] Arguments sleep {S H H0 H1} _ _ _ : simpl never.

(** * Runs *)

(** A lock nobody holds, as [initlock] and [release] leave it. *)
Definition idle (lk : spinlock) : Prop := lk_locked lk = 0 /\ lk_cpu lk = None.

Lemma freed_idle lk : idle lk -> freed lk = lk.
Proof. destruct lk as [w nm o]. unfold idle, freed. cbn. by intros [-> ->]. Qed.

Lemma freed_taken id lk : idle lk -> freed (taken id lk) = lk.
Proof. exact (freed_idle lk). Qed.

(** Normal form of a state with two disjoint components: [l] outermost. *)
Ltac lens_norm l k :=
  repeat first
    [ rewrite (view_put (l:=l)) | rewrite (view_put (l:=k))
    | rewrite (view_put_l (l:=l) (k:=k)) | rewrite (view_put_r (l:=l) (k:=k))
    | rewrite (put_put (l:=l)) | rewrite (put_put (l:=k))
    | rewrite <- (put_comm (l:=l) (k:=k)) ].

(** What [wakeup(chan)] does to the process [i]. *)
Definition woken (chan : kobj) (me : option (fin NPROC)) (i : fin NPROC) (p : proc) : proc :=
  if negb (bool_decide (Some i = me)) && bool_decide (p_state p = SLEEPING) && bool_decide (p_chan p = Some chan)
  then set_pstate RUNNABLE p else p.

Section Runs.
Context {S : Type} `{HasCpu S} `{HasPtab S} `{HasSwtch S}.
Context `{!LensOk (cpuL (S:=S))} `{!LensOk (ptabL (S:=S))} `{!LensDisj (cpuL (S:=S)) ptabL}.
Implicit Types s : S.

#[export] Instance procsL_ok : LensOk (procsL (S:=S)).
Proof. unfold procsL. apply _. Qed.
#[export] Instance procsL_cpu : LensDisj (cpuL (S:=S)) procsL.
Proof. unfold procsL. apply _. Qed.
#[export] Instance plockL_ok i : LensOk (plockL (S:=S) i).
Proof. unfold plockL, procL. apply _. Qed.
#[export] Instance plockL_cpu i : LensDisj (cpuL (S:=S)) (plockL i).
Proof. unfold plockL, procL. apply _. Qed.

Lemma put_plock i k s :
  put (plockL i) k s = put procsL (vinsert i (set_plock k (view procsL s !!! i)) (view procsL s)) s.
Proof. done. Qed.
Lemma view_plock i s : view (plockL i) s = p_lock (view procsL s !!! i).
Proof. done. Qed.
Lemma put_procL i p s : put (procL i) p s = put procsL (vinsert i p (view procsL s)) s.
Proof. done. Qed.

Ltac psimp := unfold getp, updp, gets, modify; rewrite ?put_plock, ?view_plock, ?put_procL;
  cbn [view procL arrL]; lens_norm (cpuL (S:=S)) (procsL (S:=S));
  rewrite ?vlookup_insert, ?vinsert_twice; cbn [p_lock set_plock set_pstate].

Lemma wakeup_one_run {k} chan i s :
  cpu_room k (view cpuL s) ->
  (Some i <> c_proc (view cpuL s) -> idle (p_lock (view procsL s !!! i))) ->
  wakeup_one chan i s =
    Ok tt (put cpuL (settle (view cpuL s))
      (put procsL (vinsert i (woken chan (c_proc (view cpuL s)) i (view procsL s !!! i)) (view procsL s)) s)).
Proof.
  intros Hc Hl. unfold wakeup_one. erewrite bind_ok by (by eapply myproc_run). unfold woken.
  destruct (bool_decide_reflect (Some i = c_proc (view cpuL s))) as [Hme|Hme]; cbn [negb andb].
  { unfold ret. rewrite vlookup_insert_self, (put_view (l:=procsL)). done. }
  destruct (Hl Hme) as [Hw Ho]. set (c := view cpuL s) in *. set (v := view procsL s) in *.
  erewrite bind_ok.
  2:{ apply (acquire_run (plockL i)). unfold lock_free. psimp. done. }
  erewrite bind_ok by done. psimp. cbn [p_state p_chan set_plock]. fold v.
  set (b := bool_decide (p_state (v !!! i) = SLEEPING) && bool_decide (p_chan (v !!! i) = Some chan)).
  set (p' := if b then set_pstate RUNNABLE (v !!! i) else v !!! i).
  erewrite (bind_ok (when b _) _ _ tt
    (put cpuL (push (settle c)) (put procsL (vinsert i (set_plock (taken (c_id (settle c)) (p_lock (v !!! i))) p') v) s))).
  2:{ unfold p'. destruct b; cbn [when]; psimp; done. }
  rewrite (release_run (plockL i)); psimp.
  - fold v. rewrite pop_push by eauto with kernel. rewrite settle_idem. do 4 f_equal.
    unfold p', freed, taken. cbn. destruct (v !!! i) as [[w nm o] ???????????????]. cbn in *. subst.
    by destruct b.
  - apply holding_taken.
  - done.
  - apply (push_noff (k:=k)). auto with kernel.
Qed.

Lemma wakeup_list_run {k} chan : forall (l : list (fin NPROC)) s,
  NoDup l -> cpu_room k (view cpuL s) ->
  (forall i, Some i <> c_proc (view cpuL s) -> idle (p_lock (view procsL s !!! i))) ->
  forM l (wakeup_one chan) s =
    Ok tt (put cpuL (match l with [] => view cpuL s | _ => settle (view cpuL s) end)
      (put procsL (fun_to_vec (fun i => if decide (i ∈ l)
         then woken chan (c_proc (view cpuL s)) i (view procsL s !!! i) else view procsL s !!! i)) s)).
Proof.
  induction l as [|x l IH]; intros s Hd Hc Hl; cbn [forM].
  - replace (fun_to_vec _) with (view procsL s).
    + unfold ret. by rewrite (put_view (l:=procsL)), (put_view (l:=cpuL)).
    + apply vec_eq. intros j. rewrite lookup_fun_to_vec. by case_decide as E; [apply elem_of_nil in E|].
  - apply NoDup_cons in Hd as [Hx Hd]. erewrite bind_ok by (eapply wakeup_one_run; eauto).
    set (c := view cpuL s) in *. set (v := view procsL s) in *.
    rewrite IH; [|done|psimp; auto with kernel|].
    + psimp. rewrite settle_proc, settle_idem. do 2 f_equal; [by destruct l|]. f_equal. apply vec_eq. intros j.
      rewrite !lookup_fun_to_vec, vlookup_vinsert. fold v.
      destruct (decide (x = j)) as [<-|Hne].
      * rewrite decide_False by done. rewrite decide_True; [done|by left].
      * destruct (decide (j ∈ l)); [by rewrite decide_True by (by right)|].
        rewrite decide_False; [done|]. by intros [->|?]%elem_of_cons.
    + intros i. psimp. rewrite settle_proc, vlookup_vinsert. intros Hi. fold v.
      case_decide; [subst|by apply Hl]. unfold woken. destruct (_ && _); by apply Hl.
Qed.

(** The processes after [wakeup(chan)]. *)
Definition wake_all (chan : kobj) (me : option (fin NPROC)) (v : vec proc NPROC) : vec proc NPROC :=
  fun_to_vec (fun i => woken chan me i (v !!! i)).

Lemma wakeup_run {k} chan s :
  cpu_room k (view cpuL s) ->
  (forall i, Some i <> c_proc (view cpuL s) -> idle (p_lock (view procsL s !!! i))) ->
  wakeup chan s =
    Ok tt (put cpuL (settle (view cpuL s))
      (put procsL (wake_all chan (c_proc (view cpuL s)) (view procsL s)) s)).
Proof.
  intros Hc Hl. unfold wakeup. rewrite wakeup_list_run by (done || apply NoDup_indices).
  destruct (indices NPROC) eqn:E.
  { pose proof (elem_of_indices (0%fin : fin NPROC)) as Hin. rewrite E in Hin. by apply elem_of_nil in Hin. }
  do 2 f_equal. f_equal.
  apply vec_eq. intros j. unfold wake_all. rewrite !lookup_fun_to_vec, decide_True; [done|]. rewrite <- E. apply elem_of_indices.
Qed.
End Runs.
#[global] Arguments wake_all : simpl never.
