(* ===== verification/Blocking.v ===== *)
(** Blocking: what [sleep], [wakeup], [kill] and [yield] of
    [src/kernel/proc.c] promise together with the scheduler.

    The scheduler runs a process by the [swtch] in the middle of its loop; for
    the process, the switch in [sched] is the rest of that round, what happens
    until the scheduler comes back to it, and the start of the round that picks
    it again. What happens in between is any sequence of events ([event]): calls
    of [wakeup] and [kill] by others, any change of the other processes, and
    rounds in which the scheduler looks at the process. *)

From S2P Require Import Prelude Params Spinlock Sched.
Local Open Scope kernel_scope.

(** * The scheduler around a process *)

Section Round.
Context {S : Type} `{HasCpu S} `{HasPtab S}.

(** [scheduler]'s round for the process [i], before and after its [swtch]. *)
Definition sched_head (i : fin NPROC) : M S bool :=
  acquire (plockL i) ;;
  p <- getp i ;;
  if bool_decide (p_state p = RUNNABLE) then
    updp i (set_pstate RUNNING) ;;
    c <- mycpu ;;
    set_mycpu (set_cproc (Some i) c) ;;
    ret true
  else ret false.
Definition sched_tail (i : fin NPROC) (ran : bool) : M S unit :=
  when ran (c <- mycpu ;; set_mycpu (set_cproc None c)) ;;
  release (plockL i).

Lemma scheduler_one_split (sw : HasSwtch S) i s :
  scheduler_one (H1:=sw) i s = (b <- sched_head i ;; when b swtch ;; sched_tail i b) s.
Proof.
  unfold scheduler_one, sched_head, sched_tail. unfold bind.
  destruct (acquire (plockL i) s) as [[] s1|]; [|done].
  unfold getp, gets. destruct (bool_decide _); [|done]. cbn.
  by destruct (swtch _) as [[] s2|].
Qed.

(** What happens while [me] is off the CPU: [wakeup(c)] by a process or in the
    scheduler (no process), [kill(pid)], any change of the entries of the other
    processes, and the scheduler's inner loop reaching [me]. *)
Inductive event : Type :=
| Wakeup (by_ : option (fin NPROC)) (c : kobj)
| Kill (pid : Z)
| Others (w : vec proc NPROC)
| Round.

(** A call of [wakeup] while the process [b] has the CPU. *)
Definition wakeup_by (b : option (fin NPROC)) (c : kobj) : M S unit :=
  u <- mycpu ;; set_mycpu (set_cproc b u) ;;
  wakeup c ;;
  u <- mycpu ;; set_mycpu (set_cproc None u).

(** From the scheduler until it runs [me] again; it never does if the events end
    before a round that finds [me] runnable. *)
Fixpoint away (me : fin NPROC) (evs : list event) : M S unit :=
  match evs with
  | [] => halt Swtch
  | Wakeup b c :: evs' => wakeup_by b c ;; away me evs'
  | Kill pid :: evs' => kill pid ;; away me evs'
  | Others w :: evs' =>
      modify (fun s => put procsL (vinsert me (view procsL s !!! me) w) s) ;; away me evs'
  | Round :: evs' =>
      ran <- sched_head me ;;
      if ran : bool then ret tt else
      sched_tail me false ;; away me evs'
  end.

(** The [swtch] of a process that calls [sched]. *)
Definition switch_away (me : fin NPROC) (evs : list event) : HasSwtch S :=
  sched_tail me true ;; away me evs.
End Round.

(** An event makes a process that sleeps on [chan] runnable if it is a wakeup of
    the channel or a kill of the process. *)
Definition rouses (chan : kobj) (pid : Z) (e : event) : bool :=
  match e with
  | Wakeup _ c => bool_decide (c = chan)
  | Kill p => p =? pid
  | _ => false
  end.
Definition kills (pid : Z) (e : event) : bool := match e with Kill p => p =? pid | _ => false end.

(** Events of the other processes: the caller of [wakeup] is not [me], and the
    others have pids of their own and hold no process lock between events. *)
Definition others (me : fin NPROC) (pid : Z) (v : vec proc NPROC) : Prop :=
  forall i, i <> me -> idle (p_lock (v !!! i)) /\ p_pid (v !!! i) <> pid.
Definition event_ok (me : fin NPROC) (pid : Z) (e : event) : Prop :=
  match e with
  | Wakeup b _ => b <> Some me
  | Others w => others me pid w
  | _ => True
  end.

(** * Sleeping and waking *)

Section Sleep.
Context {S : Type} `{HasCpu S} `{HasPtab S}.
Context `{!LensOk (cpuL (S:=S))} `{!LensOk (ptabL (S:=S))} `{!LensDisj (cpuL (S:=S)) ptabL}.
Context (lk : lens S spinlock) `{!LensOk lk} `{!LensDisj cpuL lk} `{!LensDisj ptabL lk}.
Implicit Types s : S.

#[local] Instance procs_lk : LensDisj (procsL (S:=S)) lk.
Proof. apply lens_disj_sym. unfold procsL. apply lens_comp_disj_r; [done|]. by apply lens_disj_sym. Qed.

(** A state as its three components over [s]. *)
Definition at3 (c : cpu) (v : vec proc NPROC) (k : spinlock) (s : S) : S := put cpuL c (put procsL v (put lk k s)).

Lemma at3_self s : at3 (view cpuL s) (view procsL s) (view lk s) s = s.
Proof. unfold at3. rewrite (put_view (l:=lk)), (put_view (l:=procsL)), (put_view (l:=cpuL)). done. Qed.
Lemma at3_cpu c v k s : view cpuL (at3 c v k s) = c.
Proof. apply view_put. Qed.
Lemma at3_procs c v k s : view procsL (at3 c v k s) = v.
Proof. unfold at3. by rewrite (view_put_l (l:=cpuL) (k:=procsL)), view_put. Qed.
Lemma at3_lk c v k s : view lk (at3 c v k s) = k.
Proof. unfold at3. by rewrite (view_put_l (l:=cpuL) (k:=lk)), (view_put_l (l:=procsL) (k:=lk)), view_put. Qed.
Lemma at3_put_cpu c' c v k s : put cpuL c' (at3 c v k s) = at3 c' v k s.
Proof. apply put_put. Qed.
Lemma at3_put_procs v' c v k s : put procsL v' (at3 c v k s) = at3 c v' k s.
Proof. unfold at3. by rewrite <- (put_comm (l:=cpuL) (k:=procsL)), put_put. Qed.
Lemma at3_put_lk k' c v k s : put lk k' (at3 c v k s) = at3 c v k' s.
Proof. unfold at3. by rewrite <- (put_comm (l:=cpuL) (k:=lk)), <- (put_comm (l:=procsL) (k:=lk)), put_put. Qed.

Ltac a3 := repeat progress rewrite ?at3_cpu, ?at3_procs, ?at3_lk, ?at3_put_cpu, ?at3_put_procs, ?at3_put_lk.

(** ** The operations on such states *)

Lemma acquire_p3 c v k s i :
  lk_locked (p_lock (v !!! i)) = 0 ->
  acquire (plockL i) (at3 c v k s) =
    Ok tt (at3 (push c) (vinsert i (set_plock (taken (c_id c) (p_lock (v !!! i))) (v !!! i)) v) k s).
Proof.
  intros Hf. rewrite (acquire_run (plockL i)).
  - a3. rewrite put_plock, view_plock. by a3.
  - unfold lock_free. rewrite view_plock. by a3.
Qed.

Lemma release_p3 c v k s i :
  holding_b (p_lock (v !!! i)) (c_id c) = true -> c_sie c = false -> 1 <= c_noff c ->
  release (plockL i) (at3 c v k s) =
    Ok tt (at3 (pop c) (vinsert i (set_plock (freed (p_lock (v !!! i))) (v !!! i)) v) k s).
Proof.
  intros Hh Hs Hn. rewrite (release_run (plockL i)); rewrite ?view_plock; a3; try done.
  rewrite put_plock. by a3.
Qed.

Lemma acquire_k3 c v k s :
  lk_locked k = 0 -> acquire lk (at3 c v k s) = Ok tt (at3 (push c) v (taken (c_id c) k) s).
Proof. intros Hf. rewrite (acquire_run lk); [by a3|]. unfold lock_free. by a3. Qed.

Lemma release_k3 c v k s :
  holding_b k (c_id c) = true -> c_sie c = false -> 1 <= c_noff c ->
  release lk (at3 c v k s) = Ok tt (at3 (pop c) v (freed k) s).
Proof. intros Hh Hs Hn. rewrite (release_run lk); by a3. Qed.

Lemma myprocp3 {j} c v k s me :
  cpu_room j c -> c_proc c = Some me -> myprocp (at3 c v k s) = Ok me (at3 (settle c) v k s).
Proof.
  intros Hc Hp. unfold myprocp. erewrite bind_ok.
  2:{ eapply myproc_run. by rewrite at3_cpu. }
  a3. by rewrite Hp.
Qed.

Lemma getp3 c v k s i : getp i (at3 c v k s) = Ok (v !!! i) (at3 c v k s).
Proof. unfold getp, gets. cbn [view procL arrL]. by a3. Qed.

Lemma updp3 c v k s i f : updp i f (at3 c v k s) = Ok tt (at3 c (vinsert i (f (v !!! i)) v) k s).
Proof. unfold updp, modify. rewrite put_procL. cbn [view procL arrL]. by a3. Qed.

Lemma wakeup3 {j} c v k s chan :
  cpu_room j c -> (forall i, Some i <> c_proc c -> idle (p_lock (v !!! i))) ->
  wakeup chan (at3 c v k s) = Ok tt (at3 (settle c) (wake_all chan (c_proc c) v) k s).
Proof. intros Hc Hl. rewrite (wakeup_run (k:=j)); by a3. Qed.

Lemma mycpu3 c v k s : mycpu (at3 c v k s) = Ok c (at3 c v k s).
Proof. unfold mycpu, gets. by a3. Qed.
Lemma set_mycpu3 c' c v k s : set_mycpu c' (at3 c v k s) = Ok tt (at3 c' v k s).
Proof. unfold set_mycpu, modify. by a3. Qed.

(** ** The switch *)

(** The CPU in a process that holds one spin lock. *)
Definition in_section (id : Z) (p : option (fin NPROC)) (ie : bool) : cpu := Cpu id false p 1 ie.

(** The process [me] as it stands in the table when [sched] switches. *)
Definition asleep (id : Z) (chan : kobj) (p : proc) : proc :=
  set_pstate SLEEPING (set_pchan (Some chan) (set_plock (taken id (p_lock p)) p)).

(** The next round for [me]: the process runs if it is runnable. *)
Lemma sched_head_run id ie v k s me :
  idle (p_lock (v !!! me)) ->
  sched_head me (at3 (Cpu id ie None 0 ie) v k s) =
    if bool_decide (p_state (v !!! me) = RUNNABLE) then
      Ok true (at3 (in_section id (Some me) ie) (vinsert me (set_pstate RUNNING (set_plock (taken id (p_lock (v !!! me))) (v !!! me))) v) k s)
    else Ok false (at3 (in_section id None ie) (vinsert me (set_plock (taken id (p_lock (v !!! me))) (v !!! me)) v) k s).
Proof.
  intros [Hw Ho]. unfold sched_head. erewrite bind_ok by (by apply acquire_p3).
  erewrite bind_ok by apply getp3. rewrite vlookup_insert. cbn [p_state set_plock c_id].
  destruct (bool_decide _); [|done].
  erewrite bind_ok by apply updp3. erewrite bind_ok by apply mycpu3. erewrite bind_ok by apply set_mycpu3.
  by rewrite vlookup_insert, vinsert_twice.
Qed.

(** The end of the round in which [me] went to sleep. *)
Lemma sched_tail_run id ie v k s me p :
  v !!! me = set_plock (taken id (p_lock p)) p -> idle (p_lock p) ->
  sched_tail me true (at3 (in_section id (Some me) ie) v k s) = Ok tt (at3 (Cpu id ie None 0 ie) (vinsert me p v) k s).
Proof.
  intros Hme Hp. unfold sched_tail. cbn [when]. erewrite bind_ok.
  2:{ erewrite bind_ok by apply mycpu3. apply set_mycpu3. }
  rewrite release_p3; [|rewrite Hme; apply holding_taken|done|done].
  rewrite Hme. cbn [p_lock set_plock]. rewrite freed_taken by done.
  unfold pop. cbn. rewrite orb_false_r. by destruct p.
Qed.

(** [sched] in a process that holds only its own lock. *)
Lemma sched_run (sw : HasSwtch S) id ie v k s me :
  holding_b (p_lock (v !!! me)) id = true -> p_state (v !!! me) <> RUNNING ->
  let s1 := at3 (in_section id (Some me) ie) v k s in
  sched (H1:=sw) s1 = (swtch ;; c <- mycpu ;; set_mycpu (set_intena ie c)) s1.
Proof.
  intros Hh Hst s1. remember ((swtch ;; _) s1) as r eqn:Hr. unfold sched, s1. erewrite bind_ok by (apply (myprocp3 (j:=16)); [by apply room_one|done]).
  change (settle _) with (in_section id (Some me) ie).
  erewrite bind_ok.
  2:{ unfold holding, bind, cpuid, gets. rewrite view_plock. a3. cbn [c_id in_section]. rewrite Hh. reflexivity. }
  cbn [negb]. erewrite bind_ok by apply mycpu3. change (negb (c_noff _ =? 1)) with false. cbv iota.
  erewrite bind_ok by apply getp3. rewrite bool_decide_eq_false_2 by done.
  erewrite bind_ok.
  2:{ unfold intr_get, gets. a3. reflexivity. }
  cbn [c_sie in_section]. erewrite bind_ok by apply mycpu3. by rewrite Hr.
Qed.

(** [sleep] down to the switch. *)
Lemma sleep_down (sw : HasSwtch S) chan id ie v k s me :
  idle (p_lock (v !!! me)) -> idle k ->
  sleep (H1:=sw) chan lk (at3 (in_section id (Some me) ie) v (taken id k) s) =
  (swtch ;; c <- mycpu ;; set_mycpu (set_intena ie c) ;;
   updp me (set_pchan None) ;; release (plockL me) ;; acquire lk)
    (at3 (in_section id (Some me) ie) (vinsert me (asleep id chan (v !!! me)) v) k s).
Proof.
  intros [Hw Ho] Hk. remember ((swtch ;; _) _) as r eqn:Hr. unfold sleep. erewrite bind_ok by (apply (myprocp3 (j:=16)); [by apply room_one|done]).
  change (settle _) with (in_section id (Some me) ie).
  erewrite bind_ok by (by apply acquire_p3).
  erewrite bind_ok by (apply release_k3; [apply holding_taken|done|done]).
  rewrite freed_taken by done. change (pop _) with (in_section id (Some me) ie).
  erewrite bind_ok by apply updp3. rewrite vlookup_insert, vinsert_twice.
  erewrite bind_ok by apply updp3. rewrite vlookup_insert, vinsert_twice.
  change (set_pstate SLEEPING _) with (asleep id chan (v !!! me)).
  unfold bind at 1. rewrite sched_run; [|rewrite vlookup_insert; apply holding_taken|by rewrite vlookup_insert].
  rewrite Hr. unfold bind. by destruct (swtch _) as [[] s2|].
Qed.

(** The return to [sleep] after the switch. *)
Lemma sleep_up id ie v k s me p :
  v !!! me = set_plock (taken id (p_lock p)) p -> idle (p_lock p) -> idle k ->
  (c <- mycpu ;; set_mycpu (set_intena ie c) ;; updp me (set_pchan None) ;; release (plockL me) ;; acquire lk)
    (at3 (in_section id (Some me) ie) v k s)
  = Ok tt (at3 (in_section id (Some me) ie) (vinsert me (set_pchan None p) v) (taken id k) s).
Proof.
  intros Hme Hp [Hw Ho]. erewrite bind_ok by apply mycpu3. erewrite bind_ok by apply set_mycpu3.
  erewrite bind_ok by apply updp3. rewrite Hme. erewrite bind_ok.
  2:{ apply release_p3; [rewrite vlookup_insert; apply holding_taken|done|done]. }
  rewrite vlookup_insert, vinsert_twice. rewrite acquire_k3 by done.
  cbn [p_lock set_pchan set_plock]. rewrite freed_taken by done.
  unfold push, pop, in_section. cbn. rewrite orb_false_r. by destruct p.
Qed.
End Sleep.

(** * Killing *)

Section Kill.
Context {S : Type} `{HasCpu S} `{HasPtab S} `{!LensOk (cpuL (S:=S))} `{!LensOk (ptabL (S:=S))} `{!LensDisj (cpuL (S:=S)) ptabL}.

(** What [kill] does to its victim. *)
Definition struck (p : proc) : proc :=
  let p := set_pkilled 1 p in
  if bool_decide (p_state p = SLEEPING) then set_pstate RUNNABLE p else p.

(** The first process of [l] with that pid. *)
Definition victim (pid : Z) (v : vec proc NPROC) (l : list (fin NPROC)) : option (fin NPROC) :=
  snd <$> list_find (fun i => p_pid (v !!! i) = pid) l.

Ltac psimp := unfold getp, updp, gets, modify; rewrite ?put_plock, ?view_plock, ?put_procL;
  cbn [view procL arrL]; lens_norm (cpuL (S:=S)) (procsL (S:=S));
  rewrite ?vlookup_insert, ?vinsert_twice; cbn [p_lock set_plock set_pstate set_pkilled].

(** One process of the loop of [kill]. *)
Definition kill_one (pid : Z) (i : fin NPROC) : M S (option Z) :=
  acquire (plockL i) ;;
  p <- getp i ;;
  if p_pid p =? pid then
    updp i (set_pkilled 1) ;;
    when (bool_decide (p_state p = SLEEPING)) (updp i (set_pstate RUNNABLE)) ;;
    release (plockL i) ;;
    ret (Some 0)
  else
    release (plockL i) ;;
    ret None.

Lemma kill_one_run pid i s :
  cpu_ok (view cpuL s) -> idle (p_lock (view procsL s !!! i)) ->
  kill_one pid i s =
    if p_pid (view procsL s !!! i) =? pid then
      Ok (Some 0) (put cpuL (settle (view cpuL s)) (put procsL (vinsert i (struck (view procsL s !!! i)) (view procsL s)) s))
    else Ok None (put cpuL (settle (view cpuL s)) s).
Proof.
  intros Hc [Hw Ho]. unfold kill_one. set (c := view cpuL s) in *. set (v := view procsL s) in *.
  erewrite bind_ok.
  2:{ apply (acquire_run (plockL i)). unfold lock_free. psimp. done. }
  erewrite bind_ok by done. psimp. cbn [p_pid set_plock]. fold v c.
  destruct (p_pid (v !!! i) =? pid).
  - erewrite bind_ok by done. psimp. fold v.
    erewrite (bind_ok (when _ _) _ _ tt
      (put cpuL (push c) (put procsL (vinsert i (set_plock (taken (c_id c) (p_lock (v !!! i))) (struck (v !!! i))) v) s))).
    2:{ unfold struck. cbn [p_state set_plock set_pkilled]. destruct (bool_decide _); cbn [when]; psimp; done. }
    erewrite bind_ok.
    2:{ apply (release_run (plockL i)); psimp; [apply holding_taken|done|by apply (push_noff (k:=16))]. }
    psimp. rewrite pop_push by done. fold v. unfold ret. do 4 f_equal. unfold struck, freed, taken.
    destruct (v !!! i) as [[w nm o] ???????????????]. cbn in *. subst. by destruct (bool_decide _).
  - erewrite bind_ok.
    2:{ apply (release_run (plockL i)); psimp; [apply holding_taken|done|by apply (push_noff (k:=16))]. }
    psimp. rewrite pop_push by done. fold v. unfold ret. do 2 f_equal.
    replace (vinsert i _ v) with v; [apply put_view|].
    symmetry. apply vinsert_same. unfold freed, taken. destruct (v !!! i) as [[w nm o] ???????????????]. cbn in *. by subst.
Qed.

Lemma kill_list_run pid : forall l s,
  l <> [] -> cpu_ok (view cpuL s) -> (forall i, idle (p_lock (view procsL s !!! i))) ->
  forM_find l (kill_one pid) s =
    match victim pid (view procsL s) l with
    | Some i => Ok (Some 0) (put cpuL (settle (view cpuL s)) (put procsL (vinsert i (struck (view procsL s !!! i)) (view procsL s)) s))
    | None => Ok None (put cpuL (settle (view cpuL s)) s)
    end.
Proof.
  induction l as [|x l IH]; intros s Hne Hc Hi; [done|]. cbn [forM_find]. unfold victim. cbn [list_find].
  unfold bind. rewrite kill_one_run by done. destruct (Z.eqb_spec (p_pid (view procsL s !!! x)) pid) as [E|E].
  - by rewrite decide_True by done.
  - rewrite decide_False by done. destruct l as [|y l]; [done|].
    rewrite IH; [|done|rewrite view_put; auto with kernel|].
    + unfold victim. lens_norm (cpuL (S:=S)) (procsL (S:=S)).
      destruct (list_find _ (y :: l)) as [[? i]|]; cbn [fmap option_fmap option_map snd prod_map]; lens_norm (cpuL (S:=S)) (procsL (S:=S)); by rewrite ?settle_idem.
    + intros i. rewrite (view_put_l (l:=cpuL) (k:=procsL)). apply Hi.
Qed.

Lemma kill_loop pid s : kill pid s = (r <- forM_find (indices NPROC) (kill_one pid) ;; ret (default (-1) r)) s.
Proof. done. Qed.
End Kill.

Section KillRun.
Context {S : Type} `{HasCpu S} `{HasPtab S} `{!LensOk (cpuL (S:=S))} `{!LensOk (ptabL (S:=S))} `{!LensDisj (cpuL (S:=S)) ptabL}.

(** The table after [kill(pid)], and what [kill] returns. *)
Definition kill_all (pid : Z) (v : vec proc NPROC) : vec proc NPROC :=
  match victim pid v (indices NPROC) with Some i => vinsert i (struck (v !!! i)) v | None => v end.

Lemma kill_run pid s :
  cpu_ok (view cpuL s) -> (forall i, idle (p_lock (view procsL s !!! i))) ->
  kill pid s = Ok (match victim pid (view procsL s) (indices NPROC) with Some _ => 0 | None => -1 end)
    (put cpuL (settle (view cpuL s)) (put procsL (kill_all pid (view procsL s)) s)).
Proof.
  intros Hc Hi. rewrite kill_loop. unfold bind. rewrite kill_list_run; [|done|done|done]. unfold kill_all.
  destruct (victim pid _ _); [done|]. by rewrite (put_view (l:=procsL)).
Qed.

Lemma victim_spec pid v :
  match victim pid v (indices NPROC) with
  | Some i => p_pid (v !!! i) = pid /\ (forall j, (fin_to_nat j < fin_to_nat i)%nat -> p_pid (v !!! j) <> pid)
  | None => forall j, p_pid (v !!! j) <> pid
  end.
Proof.
  unfold victim.
  destruct (list_find (fun i => p_pid (v !!! i) = pid) (indices NPROC)) as [[n i]|] eqn:E; cbn.
  - apply list_find_Some in E as (E1 & E2 & E3). split; [done|].
    intros j Hj. apply (E3 (fin_to_nat j)); [apply lookup_indices|].
    by apply lookup_indices_inv in E1 as ->.
  - apply list_find_None in E. rewrite Forall_forall in E. intros j. apply E, elem_of_indices.
Qed.

(** A process with a pid of its own is struck exactly by a [kill] of that pid. *)
Lemma kill_all_me pid v me :
  (forall i, i <> me -> p_pid (v !!! i) <> p_pid (v !!! me)) ->
  kill_all pid v !!! me = if pid =? p_pid (v !!! me) then struck (v !!! me) else v !!! me.
Proof.
  intros Hu. unfold kill_all. pose proof (victim_spec pid v) as Hs.
  destruct (victim pid v (indices NPROC)) as [i|].
  - destruct Hs as [Hp _]. rewrite vlookup_vinsert. destruct (decide (i = me)) as [->|Hne].
    + rewrite Hp. by rewrite Z.eqb_refl.
    + rewrite <- Hp. by destruct (Z.eqb_spec (p_pid (v !!! i)) (p_pid (v !!! me))); [apply Hu in Hne|].
  - by destruct (Z.eqb_spec pid (p_pid (v !!! me))) as [E|]; [symmetry in E; apply Hs in E|].
Qed.

Lemma kill_all_pid pid v i : p_pid (kill_all pid v !!! i) = p_pid (v !!! i) /\ p_lock (kill_all pid v !!! i) = p_lock (v !!! i).
Proof.
  unfold kill_all. destruct (victim pid v _) as [j|]; [|done]. rewrite vlookup_vinsert.
  case_decide; [subst|done]. unfold struck. by destruct (bool_decide _).
Qed.

Lemma wake_all_pid c b v i : p_pid (wake_all c b v !!! i) = p_pid (v !!! i) /\ p_lock (wake_all c b v !!! i) = p_lock (v !!! i).
Proof. unfold wake_all. rewrite lookup_fun_to_vec. unfold woken. by destruct (_ && _). Qed.
End KillRun.

(** * While a process is away *)

(** No round comes after a rousing event. *)
Definition missed (chan : kobj) (pid : Z) (up : bool) (evs : list event) : Prop :=
  forall pre post, evs = pre ++ Round :: post -> up || existsb (rouses chan pid) pre = false.

(** What the events do to the table. *)
Definition effect (me : fin NPROC) (v : vec proc NPROC) (e : event) : vec proc NPROC :=
  match e with
  | Wakeup b c => wake_all c b v
  | Kill pid => kill_all pid v
  | Others w => vinsert me (v !!! me) w
  | Round => v
  end.
Definition replay (me : fin NPROC) (evs : list event) (v : vec proc NPROC) : vec proc NPROC := foldl (effect me) v evs.

Section Away.
Context {S : Type} `{HasCpu S} `{HasPtab S}.
Context `{!LensOk (cpuL (S:=S))} `{!LensOk (ptabL (S:=S))} `{!LensDisj (cpuL (S:=S)) ptabL}.
Context (lk : lens S spinlock) `{!LensOk lk} `{!LensDisj cpuL lk} `{!LensDisj ptabL lk}.
Context (me : fin NPROC) (chan : kobj) (p0 : proc) (id : Z) (ie : bool) (k : spinlock) (s : S).
Hypothesis p0_idle : idle (p_lock p0).

(** The entry of [me] while it is away: asleep, or roused; perhaps killed. *)
Definition dozing (up dead : bool) : proc :=
  set_pstate (if up then RUNNABLE else SLEEPING) (set_pchan (Some chan) (if dead then set_pkilled 1 p0 else p0)).

(** The state in which the scheduler looks for a process, with the entry of [me]
    as given. *)
Definition dozes (up dead : bool) (v : vec proc NPROC) : Prop :=
  v !!! me = dozing up dead /\ others me (p_pid p0) v.
Abbreviation idling v := (at3 lk (Cpu id ie None 0 ie) v k s).

Lemma dozing_lock up dead : p_lock (dozing up dead) = p_lock p0.
Proof. by destruct up, dead. Qed.
Lemma dozing_pid up dead : p_pid (dozing up dead) = p_pid p0.
Proof. by destruct up, dead. Qed.

Lemma dozes_idle up dead v i : dozes up dead v -> idle (p_lock (v !!! i)).
Proof.
  intros [Hme Ho]. destruct (decide (i = me)) as [->|Hne]; [by rewrite Hme, dozing_lock|]. by apply Ho.
Qed.

(** ** One event *)

Lemma wakeup_away b c up dead v :
  dozes up dead v -> b <> Some me ->
  wakeup_by b c (idling v) =
    Ok tt (idling (wake_all c b v)) /\ dozes (up || bool_decide (c = chan)) dead (wake_all c b v).
Proof.
  intros Hd Hb. split.
  - unfold wakeup_by. erewrite bind_ok by apply mycpu3. erewrite bind_ok by apply set_mycpu3.
    erewrite bind_ok.
    2:{ apply (wakeup3 lk (j:=16)); [by apply room_zero|]. intros i _. by eapply dozes_idle. }
    erewrite bind_ok by apply mycpu3. apply set_mycpu3.
  - destruct Hd as [Hme Ho]. split.
    + unfold wake_all. rewrite lookup_fun_to_vec, Hme. unfold woken.
      rewrite (bool_decide_eq_false_2 (Some me = b)) by congruence. cbn [negb andb].
      destruct up; cbn [orb dozing]; [by rewrite bool_decide_eq_false_2|].
      rewrite bool_decide_eq_true_2 by done. cbn [andb].
      destruct (decide (c = chan)) as [->|Hne]; [by rewrite !bool_decide_eq_true_2|].
      by rewrite !bool_decide_eq_false_2 by (cbn; congruence).
    + intros i Hi. destruct (wake_all_pid c b v i) as [-> ->]. by apply Ho.
Qed.

Lemma kill_away pid up dead v :
  dozes up dead v ->
  exists r, kill pid (idling v) = Ok r (idling (kill_all pid v)) /\
    dozes (up || (pid =? p_pid p0)) (dead || (pid =? p_pid p0)) (kill_all pid v).
Proof.
  intros Hd. eexists. split.
  - rewrite kill_run; rewrite ?at3_cpu, ?at3_procs; [|by apply room_zero|intros i; by eapply dozes_idle].
    by rewrite at3_put_procs, at3_put_cpu.
  - destruct Hd as [Hme Ho]. split.
    + rewrite kill_all_me; rewrite Hme, dozing_pid; [|intros i Hi; by apply Ho].
      destruct (pid =? p_pid p0); rewrite ?orb_true_r, ?orb_false_r; [|done]. by destruct up, dead.
    + intros i Hi. destruct (kill_all_pid pid v i) as [-> ->]. by apply Ho.
Qed.

Lemma others_away w up dead v : dozes up dead v -> others me (p_pid p0) w -> dozes up dead (vinsert me (v !!! me) w).
Proof.
  intros [Hme _] Ho. split; [by rewrite vlookup_insert|].
  intros i Hi. rewrite vlookup_insert_ne by congruence. by apply Ho.
Qed.

(** A round that finds [me] asleep. *)
Lemma round_asleep dead v :
  dozes false dead v ->
  sched_head me (idling v) = Ok false (at3 lk (in_section id None ie) (vinsert me (set_plock (taken id (p_lock (v !!! me))) (v !!! me)) v) k s) /\
  sched_tail me false (at3 lk (in_section id None ie) (vinsert me (set_plock (taken id (p_lock (v !!! me))) (v !!! me)) v) k s) = Ok tt (idling v).
Proof.
  intros Hd. pose proof (dozes_idle _ _ _ me Hd) as Hi. split.
  - rewrite sched_head_run by done. by destruct Hd as [-> _].
  - unfold sched_tail. cbn [when]. erewrite bind_ok by done.
    rewrite release_p3; [|rewrite vlookup_insert; apply holding_taken|done|done].
    rewrite vlookup_insert, vinsert_twice. cbn [p_lock set_plock]. rewrite freed_taken by done.
    rewrite vinsert_same by (by destruct (v !!! me)). unfold pop. cbn. by rewrite orb_false_r.
Qed.

(** ** All of them *)

Lemma missed_cons e up evs :
  (e = Round -> up = false) -> missed chan (p_pid p0) (up || rouses chan (p_pid p0) e) evs ->
  missed chan (p_pid p0) up (e :: evs).
Proof.
  intros He Hm pre post E. destruct pre as [|e' pre]; simplify_eq/=; [by rewrite He|].
  rewrite orb_assoc. by eapply Hm.
Qed.

(** What [away] ends in. *)
Definition away_ends (up dead : bool) (v : vec proc NPROC) (evs : list event) (o : out S unit) : Prop :=
  match o with
  | Ok _ s' => exists pre post, evs = pre ++ Round :: post /\
      up || existsb (rouses chan (p_pid p0)) pre = true /\ missed chan (p_pid p0) up pre /\
      s' = at3 lk (in_section id (Some me) ie)
        (vinsert me (set_pstate RUNNING (set_plock (taken id (p_lock p0)) (dozing true (dead || existsb (kills (p_pid p0)) pre))))
          (replay me pre v)) k s
  | Stop why s' => why = Swtch /\ missed chan (p_pid p0) up evs /\ exists v',
      s' = idling v' /\ v' !!! me = dozing (up || existsb (rouses chan (p_pid p0)) evs) (dead || existsb (kills (p_pid p0)) evs)
  end.

Lemma away_ends_cons e up dead v evs o :
  (e = Round -> up = false) ->
  away_ends (up || rouses chan (p_pid p0) e) (dead || kills (p_pid p0) e) (effect me v e) evs o ->
  away_ends up dead v (e :: evs) o.
Proof.
  intros He. destruct o as [[] s'|why s']; cbn.
  - intros (pre & post & -> & Hr & Hm & Hs). exists (e :: pre), post. cbn.
    rewrite !orb_assoc. split_and!; try done. by apply missed_cons.
  - intros (-> & Hm & v' & Hs & Hv). rewrite !orb_assoc. split_and!; [done|by apply missed_cons|by eauto].
Qed.

Lemma away_run evs : forall up dead v,
  dozes up dead v -> Forall (event_ok me (p_pid p0)) evs -> away_ends up dead v evs (away me evs (idling v)).
Proof.
  induction evs as [|e evs IH]; intros up dead v Hd Hok.
  { cbn. split_and!; [done|by intros []|]. exists v. rewrite !orb_false_r. split; [done|apply Hd]. }
  apply Forall_cons in Hok as [He Hok]. destruct e as [b c|pid|w|]; cbn [away].
  - destruct (wakeup_away b c up dead v Hd He) as [Hrun Hd']. apply away_ends_cons; [done|].
    rewrite orb_false_r. erewrite bind_ok by exact Hrun. by apply IH.
  - destruct (kill_away pid up dead v Hd) as (r & Hrun & Hd'). apply away_ends_cons; [done|].
    erewrite bind_ok by exact Hrun. by apply IH.
  - apply away_ends_cons; [done|]. rewrite !orb_false_r. erewrite bind_ok by done.
    rewrite at3_procs, at3_put_procs. apply IH; [|done]. by apply others_away.
  - destruct up.
    + pose proof (sched_head_run lk id ie v k s me (dozes_idle _ _ _ me Hd)) as Hh.
      destruct Hd as [Hme Ho]. rewrite Hme in Hh. cbn [dozing p_state set_pstate] in Hh.
      rewrite bool_decide_eq_true_2 in Hh by done. erewrite bind_ok by exact Hh. cbn.
      exists [], evs. rewrite orb_false_r. split_and!; [done|done|by intros []|].
      by destruct dead.
    + destruct (round_asleep dead v Hd) as [H1 H2]. apply away_ends_cons; [done|]. rewrite !orb_false_r.
      erewrite bind_ok by exact H1. cbv iota. erewrite bind_ok by exact H2. by apply IH.
Qed.

Lemma dozing_up dead :
  set_pstate RUNNING (set_plock (taken id (p_lock p0)) (dozing true dead)) =
  set_plock (taken id (p_lock (set_pstate RUNNING (dozing true dead)))) (set_pstate RUNNING (dozing true dead)).
Proof. by destruct dead. Qed.

Lemma dozing_back dead :
  p_state p0 = RUNNING -> p_chan p0 = None ->
  set_pchan None (set_pstate RUNNING (dozing true dead)) = if dead then set_pkilled 1 p0 else p0.
Proof. intros Hs Hc. unfold dozing. destruct p0, dead; cbn in *; by subst. Qed.

(** From the switch in [sleep] on. *)
Lemma switch_away_run evs v :
  v !!! me = set_plock (taken id (p_lock p0)) (dozing false false) -> others me (p_pid p0) v ->
  Forall (event_ok me (p_pid p0)) evs ->
  away_ends false false (vinsert me (dozing false false) v) evs (switch_away me evs (at3 lk (in_section id (Some me) ie) v k s)).
Proof.
  intros Hme Ho Hok. unfold switch_away. erewrite bind_ok by exact (sched_tail_run lk id ie v k s me (dozing false false) Hme p0_idle).
  apply away_run; [|done]. split; [by rewrite vlookup_insert|].
  intros i Hi. rewrite vlookup_insert_ne by congruence. by apply Ho.
Qed.
End Away.

Section Claims.
Context {S : Type} `{HasCpu S} `{HasPtab S}.
Context `{!LensOk (cpuL (S:=S))} `{!LensOk (ptabL (S:=S))} `{!LensDisj (cpuL (S:=S)) ptabL}.
Context (lk : lens S spinlock) `{!LensOk lk} `{!LensDisj cpuL lk} `{!LensDisj ptabL lk}.

(** C36: [sleep] ends by a [wakeup] of its channel or a [kill] of its process,
    and by nothing else. Process [me] calls [sleep(chan, lk)] holding [lk]; then
    any sequence of events happens: [wakeup] of any channel by any other
    process, [kill] of any pid, any change of the other processes, and rounds of
    the scheduler. [sleep] returns at the first round that comes after an event
    that wakes the channel or kills the process. It then holds [lk] again, on
    the CPU as it was, and nothing is changed but the table of processes: the
    process runs as before, marked as killed if a [kill] was for it, and the
    others are as the events left them. If no round comes after such an event,
    [sleep] has not returned: [lk] is free, and the process waits on [chan],
    asleep if none of the events was for it and runnable otherwise. *)
Theorem sleep_wakeup (chan : kobj) (evs : list event) (id : Z) (ie : bool) (me : fin NPROC) (k : spinlock) (s : S) :
  view cpuL s = in_section id (Some me) ie -> view lk s = taken id k -> idle k ->
  let v := view procsL s in
  let p := v !!! me in
  p_state p = RUNNING -> p_chan p = None -> idle (p_lock p) ->
  others me (p_pid p) v -> Forall (event_ok me (p_pid p)) evs ->
  match sleep (H1:=switch_away me evs) chan lk s with
  | Ok _ s' =>
      exists pre post, evs = pre ++ Round :: post /\
        existsb (rouses chan (p_pid p)) pre = true /\
        (forall pre1 post1, pre = pre1 ++ Round :: post1 -> existsb (rouses chan (p_pid p)) pre1 = false) /\
        s' = put procsL (vinsert me (if existsb (kills (p_pid p)) pre then set_pkilled 1 p else p)
               (replay me pre (vinsert me (set_pstate SLEEPING (set_pchan (Some chan) p)) v))) s
  | Stop why s' =>
      why = Swtch /\
      (forall pre post, evs = pre ++ Round :: post -> existsb (rouses chan (p_pid p)) pre = false) /\
      lk_locked (view lk s') = 0 /\ p_chan (view procsL s' !!! me) = Some chan /\
      p_state (view procsL s' !!! me) = if existsb (rouses chan (p_pid p)) evs then RUNNABLE else SLEEPING
  end.
Proof.
  intros Hc Hl Hk v p Hst Hch Hi Ho Hev. 
  assert (at3 lk (in_section id (Some me) ie) v (taken id k) s = s) as Es by (rewrite <- Hc, <- Hl; exact (at3_self lk s)).
  rewrite <- (f_equal (sleep (H1:=switch_away me evs) chan lk) Es), (sleep_down lk (switch_away me evs) chan id ie v k s me Hi Hk). unfold bind at 1. unfold swtch.
  pose proof (switch_away_run lk me chan p id ie k s Hi evs (vinsert me (asleep id chan p) v)) as Hr.
  rewrite vlookup_insert, vinsert_twice in Hr. fold p. specialize (Hr eq_refl).
  destruct (switch_away me evs _) as [[] s'|why s']; cbn in Hr.
  - destruct Hr as (pre & post & E & Hx & Hm & ->); [by intros i Hne; rewrite vlookup_insert_ne by congruence; apply Ho|done|].
    rewrite (sleep_up lk id ie _ k s me (set_pstate RUNNING (dozing chan p true (existsb (kills (p_pid p)) pre)))).
    + exists pre, post. split_and!; [done..|]. rewrite vinsert_twice.
      rewrite <- (f_equal (put procsL _) Es), at3_put_procs. by rewrite dozing_back.
    + rewrite vlookup_insert. apply dozing_up.
    + change (idle (p_lock (dozing chan p true (existsb (kills (p_pid p)) pre)))). by rewrite dozing_lock.
    + done.
  - destruct Hr as (-> & Hm & v' & -> & Hv); [by intros i Hne; rewrite vlookup_insert_ne by congruence; apply Ho|done|].
    rewrite (at3_lk lk), (at3_procs lk), Hv. split; [done|]. split; [done|]. split; [by destruct Hk|]. unfold dozing. by destruct (existsb (rouses _ _) _).
Qed.
End Claims.

(** [kill(pid)] marks the first process with that pid, if there is one, as
    killed, makes it runnable if it sleeps, and returns 0; with no such process
    it changes nothing and returns -1. No other process is touched, every lock
    is free again, and the interrupt state of the CPU is what it was. *)
Theorem kill_correct {S : Type} `{HasCpu S} `{HasPtab S} `{!LensOk (cpuL (S:=S))} `{!LensOk (ptabL (S:=S))}
    `{!LensDisj (cpuL (S:=S)) ptabL} (pid : Z) (s : S) :
  cpu_ok (view cpuL s) -> (forall i, idle (p_lock (view procsL s !!! i))) ->
  let v := view procsL s in
  match victim pid v (indices NPROC) with
  | Some i =>
      p_pid (v !!! i) = pid /\ (forall j, (fin_to_nat j < fin_to_nat i)%nat -> p_pid (v !!! j) <> pid) /\
      kill pid s = Ok 0 (put cpuL (settle (view cpuL s)) (put procsL (vinsert i (struck (v !!! i)) v) s))
  | None =>
      (forall j, p_pid (v !!! j) <> pid) /\
      kill pid s = Ok (-1) (put cpuL (settle (view cpuL s)) s)
  end.
Proof.
  intros Hc Hi v. pose proof (victim_spec pid v) as Hs. pose proof (kill_run pid s Hc Hi) as Hk. fold v in Hk.
  rewrite Hk. unfold kill_all.
  destruct (victim pid v (indices NPROC)) as [i|]; [by destruct Hs|]. unfold v. by rewrite (put_view (l:=procsL)).
Qed.

(** * A small system *)

Module Two.
(** A CPU, a table of processes that all sleep on the log, and a lock. *)
Record sys : Type := Sys { y_cpu : cpu; y_ptab : ptab; y_lock : spinlock }.
#[global] Instance sys_cpu : HasCpu sys := Lens y_cpu (fun c s => Sys c (y_ptab s) (y_lock s)).
#[global] Instance sys_ptab : HasPtab sys := Lens y_ptab (fun t s => Sys (y_cpu s) t (y_lock s)).
Definition sys_lock : lens sys spinlock := Lens y_lock (fun k s => Sys (y_cpu s) (y_ptab s) k).
#[global] Instance sys_cpu_ok : LensOk (cpuL (S:=sys)).
Proof. solve_lens. Qed.
#[global] Instance sys_ptab_ok : LensOk (ptabL (S:=sys)).
Proof. solve_lens. Qed.
#[global] Instance sys_lock_ok : LensOk sys_lock.
Proof. solve_lens. Qed.
#[global] Instance sys_cpu_ptab : LensDisj (cpuL (S:=sys)) ptabL.
Proof. solve_lens. Qed.
#[global] Instance sys_cpu_lock : LensDisj (cpuL (S:=sys)) sys_lock.
Proof. solve_lens. Qed.
#[global] Instance sys_ptab_lock : LensDisj (ptabL (S:=sys)) sys_lock.
Proof. solve_lens. Qed.

Definition lk : spinlock := Spinlock 0 "lock" None.
Definition pr (i : fin NPROC) : proc :=
  Proc lk (if decide (i = 0%fin) then RUNNING else SLEEPING) (if decide (i = 0%fin) then None else Some KLog) 0 0
    (Z.of_nat (fin_to_nat i)) None 0 0 0 0 (Context 0 0 []) (vreplicate NOFILE None) None []
    (vreplicate 16 (Vma 0 0 0 0 None 0 0 0)).
Definition st : sys := Sys (in_section 0 (Some 0%fin) true) (Ptab (fun_to_vec pr) None 1 lk lk) (taken 0 lk).
Definition st0 : sys := Sys (Cpu 0 true None 0 true) (y_ptab st) lk.

Lemma st_procs i : view procsL st !!! i = pr i.
Proof. apply lookup_fun_to_vec. Qed.
Lemma st_idle i : idle (p_lock (view procsL st !!! i)).
Proof. rewrite st_procs. split; reflexivity. Qed.
Lemma st_others : others 0%fin 0 (view procsL st).
Proof.
  intros i Hi. split; [apply st_idle|]. rewrite st_procs. cbn. intros E. apply Hi, fin_to_nat_inj. cbn. lia.
Qed.
End Two.

(** A round too early, a wakeup of another channel, the wakeup and a round; a
    kill and a round; nothing that matters. *)
Lemma sleep_wakeup_witness :
  (exists s', sleep (H1:=switch_away 0%fin [Round; Wakeup (Some 2%fin) KLog; Round; Wakeup None KTicks; Round])
     KTicks Two.sys_lock Two.st = Ok tt s') /\
  (exists s', sleep (H1:=switch_away 0%fin [Kill 0; Round]) KTicks Two.sys_lock Two.st = Ok tt s' /\
     p_killed (view procsL s' !!! 0%fin) = 1) /\
  (exists s', sleep (H1:=switch_away 0%fin [Kill 7; Wakeup None KLog; Round; Round]) KTicks Two.sys_lock Two.st = Stop Swtch s').
Proof.
  assert (forall evs, Forall (event_ok 0%fin 0) evs -> _) as H
    by exact (fun evs => sleep_wakeup Two.sys_lock KTicks evs 0 true 0%fin Two.lk Two.st eq_refl eq_refl (conj eq_refl eq_refl)
      eq_refl eq_refl (conj eq_refl eq_refl) Two.st_others).
  split; [|split].
  - specialize (H [Round; Wakeup (Some 2%fin) KLog; Round; Wakeup None KTicks; Round]).
    destruct (sleep KTicks _ _) as [[] s'|why s']; [by eexists|].
    destruct H as (_ & H & _); [by repeat constructor|].
    by specialize (H [Round; Wakeup (Some 2%fin) KLog; Round; Wakeup None KTicks] [] eq_refl).
  - specialize (H [Kill 0; Round]). destruct (sleep KTicks _ _) as [[] s'|why s'].
    + destruct H as (pre & post & E & Hr & _ & ->); [by repeat constructor|].
      eexists. split; [reflexivity|]. rewrite view_put, vlookup_insert.
      destruct pre as [|e pre]; [done|]. injection E as <- E. done.
    + destruct H as (_ & H & _); [by repeat constructor|]. by specialize (H [Kill 0] [] eq_refl).
  - specialize (H [Kill 7; Wakeup None KLog; Round; Round]). destruct (sleep KTicks _ _) as [[] s'|why s'].
    + destruct H as (pre & post & E & Hr & _); [by repeat constructor|].
      destruct pre as [|? [|? [|? [|? [|? ?]]]]]; by simplify_eq/=.
    + destruct H as (-> & _); [by repeat constructor|]. by eexists.
Defined.

Lemma kill_correct_witness :
  exists s', kill 3 Two.st0 = Ok 0 s' /\ p_state (view procsL s' !!! 3%fin) = RUNNABLE.
Proof.
  assert (cpu_ok (Two.y_cpu Two.st0)) as Hc by (by apply room_zero).
  pose proof (kill_correct 3 Two.st0 Hc Two.st_idle) as H. change (victim _ _ _) with (Some (3%fin : fin NPROC)) in H. destruct H as (_ & _ & H).
  eexists. split; [exact H|].
  rewrite (view_put_l (l:=cpuL) (k:=procsL)), view_put, vlookup_insert. reflexivity.
Defined.
