(* ===== verification/Invariant.v ===== *)
(** Invariants of kernel code: properties of the state that hold however an
    operation ends — by returning, by panicking, or by switching away.

    [wpe] is the precondition of such a triple and [keeps P m] says that [m]
    preserves [P]. The rules for locks and for the scheduler's operations need
    only that [P] does not depend on the fields they write ([Stable]). *)

From S2P Require Import Prelude Params Spinlock Sched.
Local Open Scope kernel_scope.

(** * Triples for every outcome *)

Definition wpe {S A} (m : M S A) (Q : A -> S -> Prop) (E : S -> Prop) (s : S) : Prop :=
  match m s with Ok a s' => Q a s' | Stop _ s' => E s' end.
Definition keeps {S A} (P : S -> Prop) (m : M S A) : Prop := forall s, P s -> wpe m (fun _ => P) P s.

Section Rules.
Context {S : Type}.
Implicit Types (P E : S -> Prop) (s : S).

Lemma wpe_bind {A B} (m : M S A) (k : A -> M S B) Q E s :
  wpe m (fun a s' => wpe (k a) Q E s') E s -> wpe (bind m k) Q E s.
Proof. unfold wpe, bind. by destruct (m s). Qed.

Lemma wpe_mono {A} (m : M S A) (Q Q' : A -> S -> Prop) E E' s :
  wpe m Q E s -> (forall a s', Q a s' -> Q' a s') -> (forall s', E s' -> E' s') -> wpe m Q' E' s.
Proof. unfold wpe. destruct (m s); auto. Qed.

Lemma wpe_keeps {A} P (m : M S A) (k : A -> S -> Prop) E s :
  keeps P m -> P s -> (forall a s', P s' -> k a s') -> (forall s', P s' -> E s') -> wpe m k E s.
Proof. intros Hm HP Hk HE. eapply wpe_mono; [by apply Hm|auto|auto]. Qed.

Lemma keeps_ret {A} P (a : A) : keeps P (ret a).
Proof. by intros s. Qed.
Lemma keeps_gets {A} P (f : S -> A) : keeps P (gets f).
Proof. by intros s. Qed.
Lemma keeps_halt {A} P w : keeps (A:=A) P (halt w).
Proof. by intros s. Qed.
Lemma keeps_panic {A} P msg : keeps (A:=A) P (panic msg).
Proof. by intros s. Qed.
Lemma keeps_fault {A} P msg : keeps (A:=A) P (fault msg).
Proof. by intros s. Qed.
Lemma keeps_modify P f : (forall s, P s -> P (f s)) -> keeps P (modify f).
Proof. intros H s. apply H. Qed.
Lemma keeps_bind {A B} P (m : M S A) (k : A -> M S B) : keeps P m -> (forall a, keeps P (k a)) -> keeps P (bind m k).
Proof. intros Hm Hk s HP. apply wpe_bind. eapply wpe_keeps; [done|done|intros; by apply Hk|done]. Qed.
Lemma keeps_when P b m : keeps P m -> keeps P (when b m).
Proof. intros Hm. destruct b; [done|apply keeps_ret]. Qed.
Lemma keeps_forM {X} P (l : list X) f : (forall x, keeps P (f x)) -> keeps P (forM l f).
Proof. intros Hf. induction l; cbn; [apply keeps_ret|by apply keeps_bind]. Qed.
Lemma keeps_forM_find {X B} P (l : list X) (f : X -> M S (option B)) : (forall x, keeps P (f x)) -> keeps P (forM_find l f).
Proof. intros Hf. induction l as [|x l IH]; cbn; [apply keeps_ret|]. apply keeps_bind; [done|]. intros []; [apply keeps_ret|done]. Qed.

(** A loop whose rounds keep an invariant [I] of the loop variables and state. *)
Lemma wpe_loop_fuel {A B} (f : A -> M S (A + B)) (I : A -> S -> Prop) (Q : B -> S -> Prop) E n :
  (forall a s, I a s -> wpe (f a) (fun r s' => match r with inl a' => I a' s' | inr b => Q b s' end) E s) ->
  forall a s, I a s -> wpe (loop_fuel n f a) (fun r s' => match r with inl a' => I a' s' | inr b => Q b s' end) E s.
Proof.
  intros Hf. induction n as [n IH|n IH|]; intros a s HI; cbn [loop_fuel]; [| |by apply Hf].
  - apply wpe_bind. eapply wpe_mono; [by apply Hf| |done]. intros [a'|b] s' H'; [|done].
    apply wpe_bind. eapply wpe_mono; [by apply IH| |done]. intros [a''|b] s'' H''; [by apply IH|done].
  - apply wpe_bind. eapply wpe_mono; [by apply IH| |done]. intros [a'|b] s' H'; [by apply IH|done].
Qed.

Lemma wpe_loop {A B} (f : A -> M S (A + B)) (I : A -> S -> Prop) (Q : B -> S -> Prop) E :
  (forall a s, I a s -> wpe (f a) (fun r s' => match r with inl a' => I a' s' | inr b => Q b s' end) E s) ->
  (forall a s, I a s -> E s) ->
  forall a s, I a s -> wpe (loop f a) Q E s.
Proof.
  intros Hf HE a s HI. unfold loop. apply wpe_bind. eapply wpe_mono; [by apply wpe_loop_fuel| |done].
  intros [a'|b] s' H'; [by eapply HE|done].
Qed.

Lemma keeps_loop {A B} P (f : A -> M S (A + B)) a : (forall a, keeps P (f a)) -> keeps P (loop f a).
Proof.
  intros Hf s HP. apply (wpe_loop f (fun _ s' => P s')); [|done|done].
  intros a' s' HP'. eapply wpe_keeps; [apply Hf|done|by intros []|done].
Qed.

(** An operation of a component. *)
Lemma keeps_zoom {T A} P (Q : T -> Prop) (l : lens S T) (m : M T A) :
  keeps Q m -> (forall s, P s -> Q (view l s)) -> (forall t s, P s -> Q t -> P (put l t s)) -> keeps P (zoom l m).
Proof.
  intros Hm HV HP s Hs. specialize (Hm (view l s) (HV s Hs)). unfold wpe, zoom in *.
  destruct (m (view l s)); by apply HP.
Qed.
End Rules.

(** * Stability *)

(** [P] does not depend on the component [l]. *)
Class Stable {S A} (P : S -> Prop) (l : lens S A) : Prop := stable : forall a s, P s -> P (put l a s).

Create HintDb keeps discriminated.
#[export] Hint Resolve keeps_ret keeps_gets keeps_halt keeps_panic keeps_fault keeps_bind keeps_when keeps_forM
  keeps_forM_find keeps_loop : keeps.
#[export] Hint Extern 1 (Stable _ _) => apply _ : keeps.

(** Through [if], [match] and pairs to the operations of a body. *)
Ltac keeps_step :=
  match goal with
  | |- forall _, _ => intro
  | |- keeps _ (bind _ _) => apply keeps_bind
  | |- keeps _ (when _ _) => apply keeps_when
  | |- keeps _ (forM _ _) => apply keeps_forM
  | |- keeps _ (forM_find _ _) => apply keeps_forM_find
  | |- keeps _ (loop _ _) => apply keeps_loop
  | |- keeps _ (let '(_, _) := ?x in _) => destruct x
  | |- keeps _ (if ?b then _ else _) => destruct b
  | |- keeps _ (match ?x with _ => _ end) => destruct x
  | |- keeps _ _ => solve [eauto with keeps]
  end.
Ltac keeps := repeat keeps_step.

Section Locks.
Context {S : Type} `{HasCpu S}.
Context (P : S -> Prop) `{!Stable P cpuL}.

Lemma keeps_cpu f : keeps P (modify (fun s => put cpuL (f s) s)).
Proof. apply keeps_modify. intros. by apply (stable (l:=cpuL)). Qed.
Lemma keeps_set_mycpu c : keeps P (set_mycpu c).
Proof. apply keeps_modify. intros. by apply (stable (l:=cpuL)). Qed.
Hint Resolve keeps_cpu keeps_set_mycpu : keeps.

Lemma keeps_intr_on : keeps P intr_on.
Proof. apply keeps_cpu. Qed.
Lemma keeps_intr_off : keeps P intr_off.
Proof. apply keeps_cpu. Qed.
Hint Resolve keeps_intr_on keeps_intr_off : keeps.
Lemma keeps_push_off : keeps P push_off.
Proof. unfold push_off, intr_get, mycpu. keeps. Qed.
Lemma keeps_pop_off : keeps P pop_off.
Proof. unfold pop_off, intr_get, mycpu. keeps. Qed.
Hint Resolve keeps_push_off keeps_pop_off : keeps.
Lemma keeps_myproc : keeps P myproc.
Proof. unfold myproc, mycpu. keeps. Qed.

Lemma keeps_put {A} (l : lens S A) f : Stable P l -> keeps P (modify (fun s => put l (f s) s)).
Proof. intros Hl. apply keeps_modify. intros. by apply (stable (l:=l)). Qed.
Lemma keeps_acquire (l : lens S spinlock) : Stable P l -> keeps P (acquire l).
Proof.
  intros Hl. unfold acquire, holding, cpuid. keeps; try (apply keeps_modify; intros; by apply (stable (l:=l))).
Qed.
Lemma keeps_release (l : lens S spinlock) : Stable P l -> keeps P (release l).
Proof.
  intros Hl. unfold release, holding, cpuid. keeps; try (apply keeps_modify; intros; by apply (stable (l:=l))).
Qed.
Lemma keeps_initlock (l : lens S spinlock) name : Stable P l -> keeps P (initlock l name).
Proof. intros Hl. unfold initlock. keeps; try (apply keeps_modify; intros; by apply (stable (l:=l))). Qed.
End Locks.
#[export] Hint Resolve keeps_set_mycpu keeps_intr_on keeps_intr_off keeps_push_off keeps_pop_off keeps_myproc
  keeps_acquire keeps_release keeps_initlock : keeps.
#[export] Hint Unfold intr_get mycpu cpuid : keeps.

#[export] Instance stable_comp {S A B} (P : S -> Prop) (l : lens S A) (k : lens A B) : Stable P l -> Stable P (lens_comp l k).
Proof. intros Hl b s Hs. by apply (stable (l:=l)). Qed.
#[export] Instance stable_arr {S A n} (P : S -> Prop) (l : lens S (vec A n)) i : Stable P l -> Stable P (arrL l i).
Proof. intros Hl b s Hs. by apply (stable (l:=l)). Qed.

(** ** The scheduler's operations *)

Section Sched.
Context {S : Type} `{HasCpu S} `{HasPtab S} `{HasSwtch S}.
Context (P : S -> Prop) `{!Stable P cpuL} `{!Stable P ptabL}.

#[export] Instance stable_procs : Stable P procsL.
Proof. unfold procsL. apply _. Qed.
#[export] Instance stable_proc i : Stable P (procL i).
Proof. unfold procL. apply _. Qed.
#[export] Instance stable_plock i : Stable P (plockL i).
Proof. unfold plockL. apply _. Qed.

Lemma keeps_getp i : keeps P (getp i).
Proof. apply keeps_gets. Qed.
Lemma keeps_updp i f : keeps P (updp i f).
Proof. apply keeps_modify. intros. by apply (stable (l:=procL i)). Qed.
Lemma keeps_myprocp : keeps P myprocp.
Proof. unfold myprocp. keeps. Qed.
Hint Resolve keeps_getp keeps_updp keeps_myprocp : keeps.
Lemma keeps_mycpu : keeps P mycpu.
Proof. apply keeps_gets. Qed.
Hint Resolve keeps_mycpu : keeps.

Lemma keeps_sched : keeps P swtch -> keeps P sched.
Proof. intros Hs. unfold sched, holding, cpuid, intr_get. keeps. Qed.
Lemma keeps_sleep chan lk : Stable P lk -> keeps P swtch -> keeps P (sleep chan lk).
Proof. intros Hl Hs. pose proof (keeps_sched Hs). unfold sleep. keeps. Qed.
Lemma keeps_wakeup chan : keeps P (wakeup chan).
Proof. unfold wakeup, wakeup_one. keeps. Qed.
End Sched.
#[export] Hint Resolve keeps_getp keeps_updp keeps_myprocp keeps_mycpu keeps_sched keeps_sleep keeps_wakeup : keeps.
