(* ===== verification/Sleeplock.v ===== *)
(** Sleep locks: [src/kernel/sleeplock.c]. *)

From S2P Require Import Prelude Params Spinlock Sched.
Local Open Scope kernel_scope.

Record sleeplock : Type := Sleeplock {
  sl_locked : Z;
  sl_lk : spinlock;
  sl_name : string;
  sl_pid : Z;
}.

Definition set_sllk (k : spinlock) (l : sleeplock) : sleeplock := Sleeplock (sl_locked l) k (sl_name l) (sl_pid l).
Definition set_sllocked (v : Z) (l : sleeplock) : sleeplock := Sleeplock v (sl_lk l) (sl_name l) (sl_pid l).
Definition set_slpid (v : Z) (l : sleeplock) : sleeplock := Sleeplock (sl_locked l) (sl_lk l) (sl_name l) v.
Definition set_slname (v : string) (l : sleeplock) : sleeplock := Sleeplock (sl_locked l) (sl_lk l) v (sl_pid l).
Definition sl_lkL : lens sleeplock spinlock := Lens sl_lk set_sllk.
#[export] Instance sl_lkL_ok : LensOk sl_lkL.
Proof. solve_lens. Qed.

Section Ops.
Context {S : Type} `{HasCpu S} `{HasPtab S} `{HasSwtch S}.

Definition upd {A} (l : lens S A) (f : A -> A) : M S unit := modify (fun s => put l (f (view l s)) s).

Definition mypid : M S Z := p <- myprocp ;; pr <- getp p ;; ret (p_pid pr).

Definition initsleeplock (l : lens S sleeplock) (name : string) : M S unit :=
  initlock (lens_comp l sl_lkL) "sleep lock" ;;
  upd l (set_slname name) ;;
  upd l (set_sllocked 0) ;;
  upd l (set_slpid 0).

(** [obj] is the address of the lock, the channel sleepers wait on. *)
Definition acquiresleep (obj : kobj) (l : lens S sleeplock) : M S unit :=
  acquire (lens_comp l sl_lkL) ;;
  loop (fun _ : unit =>
    sl <- gets (view l) ;;
    if nz (sl_locked sl) then sleep obj (lens_comp l sl_lkL) ;; ret (inl tt)
    else ret (inr tt)) tt ;;
  upd l (set_sllocked 1) ;;
  pid <- mypid ;;
  upd l (set_slpid pid) ;;
  release (lens_comp l sl_lkL).

Definition releasesleep (obj : kobj) (l : lens S sleeplock) : M S unit :=
  acquire (lens_comp l sl_lkL) ;;
  upd l (set_sllocked 0) ;;
  upd l (set_slpid 0) ;;
  wakeup obj ;;
  release (lens_comp l sl_lkL).

Definition holdingsleep (l : lens S sleeplock) : M S bool :=
  acquire (lens_comp l sl_lkL) ;;
  sl <- gets (view l) ;;
  pid <- (if nz (sl_locked sl) then mypid else ret 0) ;;
  let r := nz (sl_locked sl) && (sl_pid sl =? pid) in
  release (lens_comp l sl_lkL) ;;
  ret r.
End Ops.

(** * Runs without contention *)

Section Runs.
Context {S : Type} `{HasCpu S} `{HasPtab S} `{HasSwtch S}.
Context `{!LensOk (cpuL (S:=S))} `{!LensOk (ptabL (S:=S))} `{!LensDisj (cpuL (S:=S)) ptabL}.
Context (l : lens S sleeplock) `{!LensOk l} `{!LensDisj cpuL l} `{!LensDisj ptabL l}.
Implicit Types s : S.
Local Abbreviation lkL := (lens_comp l sl_lkL).

(** The running process. *)
Definition running (s : S) (me : fin NPROC) : Prop := c_proc (view cpuL s) = Some me.

#[local] Instance procs_l : LensDisj (procsL (S:=S)) l.
Proof. apply lens_disj_sym. unfold procsL. apply lens_comp_disj_r; [done|]. by apply lens_disj_sym. Qed.

Lemma put_lk k s : put lkL k s = put l (set_sllk k (view l s)) s.
Proof. done. Qed.
Lemma view_lk s : view lkL s = sl_lk (view l s).
Proof. done. Qed.

Ltac ssimp := unfold upd, gets, modify, running in *; rewrite ?put_lk, ?view_lk; 
  repeat first [progress lens_norm (cpuL (S:=S)) l | progress lens_norm (cpuL (S:=S)) (procsL (S:=S))
               | progress lens_norm (procsL (S:=S)) l].

Lemma mypid_run {k} s me :
  cpu_room k (view cpuL s) -> running s me ->
  mypid s = Ok (p_pid (view procsL s !!! me)) (put cpuL (settle (view cpuL s)) s).
Proof.
  intros Hc Hr. unfold mypid, myprocp. rewrite bind_assoc. erewrite bind_ok by (by eapply myproc_run).
  rewrite Hr. unfold bind, ret, getp, gets. cbn. f_equal.
  by rewrite (view_put_l (l:=cpuL) (k:=ptabL)).
Qed.

Lemma acquiresleep_run {k} obj s me :
  cpu_room (Datatypes.S k) (view cpuL s) -> running s me -> idle (sl_lk (view l s)) -> sl_locked (view l s) = 0 ->
  acquiresleep obj l s =
    Ok tt (put cpuL (settle (view cpuL s))
      (put l (set_slpid (p_pid (view procsL s !!! me)) (set_sllocked 1 (view l s))) s)).
Proof.
  intros Hc Hr [Hw Ho] Hl. unfold acquiresleep.
  erewrite bind_ok by (by apply (acquire_run lkL)). ssimp.
  erewrite bind_ok.
  2:{ apply loop_once. unfold bind. ssimp. cbn [set_sllk sl_locked]. rewrite Hl. done. }
  erewrite bind_ok by done. erewrite bind_ok.
  2:{ eapply (mypid_run _ me); ssimp; [by eapply push_ok|done]. }
  erewrite bind_ok by done. ssimp.
  rewrite settle_push by done. rewrite (release_run lkL); ssimp; [|apply holding_taken|done|by apply (push_noff (k:=Datatypes.S k))].
  rewrite pop_push by done. do 3 f_equal. destruct (view l s) as [w [lw nm o] n pid]. cbn in *. by subst.
Qed.

Lemma releasesleep_run {k} obj s me :
  cpu_room (Datatypes.S k) (view cpuL s) -> running s me -> idle (sl_lk (view l s)) ->
  (forall i, i <> me -> idle (p_lock (view procsL s !!! i))) ->
  releasesleep obj l s =
    Ok tt (put cpuL (settle (view cpuL s))
      (put procsL (wake_all obj (Some me) (view procsL s))
        (put l (set_slpid 0 (set_sllocked 0 (view l s))) s))).
Proof.
  intros Hc Hr [Hw Ho] Hp. unfold releasesleep.
  erewrite bind_ok by (by apply (acquire_run lkL)). ssimp.
  do 2 (erewrite bind_ok by done; ssimp). erewrite bind_ok.
  2:{ eapply wakeup_run; ssimp; [by eapply push_ok|]. cbn. rewrite Hr. intros i Hi. apply Hp. congruence. }
  ssimp. rewrite settle_push by done.
  rewrite (release_run lkL); ssimp; [|apply holding_taken|done|by apply (push_noff (k:=Datatypes.S k))].
  rewrite pop_push by done. cbn [push c_proc]. rewrite Hr. do 4 f_equal.
  destruct (view l s) as [w [lw nm o] n pid]. cbn in *. by subst.
Qed.

Lemma holdingsleep_run {k} s me :
  cpu_room (Datatypes.S k) (view cpuL s) -> running s me -> idle (sl_lk (view l s)) ->
  holdingsleep l s =
    Ok (nz (sl_locked (view l s)) && (sl_pid (view l s) =? p_pid (view procsL s !!! me)))
      (put cpuL (settle (view cpuL s)) s).
Proof.
  intros Hc Hr [Hw Ho]. unfold holdingsleep.
  erewrite bind_ok by (by apply (acquire_run lkL)). ssimp. erewrite bind_ok by done. ssimp.
  cbn [set_sllk sl_locked sl_pid].
  set (pid := if nz (sl_locked (view l s)) then p_pid (view procsL s !!! me) else 0).
  erewrite (bind_ok _ _ _ pid
    (put cpuL (push (view cpuL s)) (put l (set_sllk (taken (c_id (view cpuL s)) (sl_lk (view l s))) (view l s)) s))).
  2:{ unfold pid. destruct (nz _); [|done]. rewrite (mypid_run (k:=k) _ me); ssimp; [|by eapply push_ok|done].
      by rewrite settle_push by done. }
  erewrite bind_ok.
  2:{ apply (release_run lkL); ssimp; [apply holding_taken|done|by apply (push_noff (k:=Datatypes.S k))]. }
  unfold ret. ssimp. rewrite pop_push by done. unfold pid. f_equal; [by destruct (nz _)|]. f_equal.
  transitivity (put l (view l s) s); [|apply put_view]. f_equal.
  destruct (view l s) as [w [lw nm o] n p]. cbn in *. by subst.
Qed.
End Runs.
