(* ===== verification/Bio.v ===== *)
(** The buffer cache: [src/kernel/bio.c].

    [bcache.buf] and [bcache.head] are one array: index 0 is the list head,
    [FS i] the buffer [buf[i]]; [prev] and [next] are indices. The disk behind
    the cache is the blocks it held at the start and the block writes it has
    received since, in order: what is on it is the result of all of them, and
    what a crash leaves is the result of a prefix. [disk_rw] is what
    [virtio_disk_rw] of [src/kernel/virtio_disk.c] does for its caller: it
    transfers the block and returns when the device is done. *)

From S2P Require Import Prelude Params Spinlock Sched Sleeplock.
Local Open Scope kernel_scope.

(** * The disk *)

Definition blocks : Type := Z -> list Z.
Definition set_block (d : blocks) (w : Z * list Z) : blocks := fun b => if b =? fst w then snd w else d b.
Definition apply_writes (d : blocks) (ws : list (Z * list Z)) : blocks := foldl set_block d ws.

Record disk : Type := Disk { d_base : blocks; d_writes : list (Z * list Z) }.
Definition dread (d : disk) : blocks := apply_writes (d_base d) (d_writes d).
Definition dwrite (d : disk) (b : Z) (data : list Z) : disk := Disk (d_base d) (d_writes d ++ [(b, data)]).

(** * The cache *)

Abbreviation bufp := (fin (S NBUF)).
Definition bhead : bufp := 0%fin.

Record buf : Type := Buf {
  b_valid : Z;
  b_disk : Z;
  b_dev : Z;
  b_blockno : Z;
  b_lock : sleeplock;
  b_refcnt : Z;
  b_prev : bufp;
  b_next : bufp;
  b_data : list Z;
}.

Definition set_bvalid (x : Z) (b : buf) : buf :=
  Buf x (b_disk b) (b_dev b) (b_blockno b) (b_lock b) (b_refcnt b) (b_prev b) (b_next b) (b_data b).
Definition set_bdev (x : Z) (b : buf) : buf :=
  Buf (b_valid b) (b_disk b) x (b_blockno b) (b_lock b) (b_refcnt b) (b_prev b) (b_next b) (b_data b).
Definition set_bblockno (x : Z) (b : buf) : buf :=
  Buf (b_valid b) (b_disk b) (b_dev b) x (b_lock b) (b_refcnt b) (b_prev b) (b_next b) (b_data b).
Definition set_block_lock (x : sleeplock) (b : buf) : buf :=
  Buf (b_valid b) (b_disk b) (b_dev b) (b_blockno b) x (b_refcnt b) (b_prev b) (b_next b) (b_data b).
Definition set_brefcnt (x : Z) (b : buf) : buf :=
  Buf (b_valid b) (b_disk b) (b_dev b) (b_blockno b) (b_lock b) x (b_prev b) (b_next b) (b_data b).
Definition set_bprev (x : bufp) (b : buf) : buf :=
  Buf (b_valid b) (b_disk b) (b_dev b) (b_blockno b) (b_lock b) (b_refcnt b) x (b_next b) (b_data b).
Definition set_bnext (x : bufp) (b : buf) : buf :=
  Buf (b_valid b) (b_disk b) (b_dev b) (b_blockno b) (b_lock b) (b_refcnt b) (b_prev b) x (b_data b).
Definition set_bdata (x : list Z) (b : buf) : buf :=
  Buf (b_valid b) (b_disk b) (b_dev b) (b_blockno b) (b_lock b) (b_refcnt b) (b_prev b) (b_next b) x.

Record bst : Type := Bst {
  bs_cpu : cpu;
  bs_ptab : ptab;
  bs_lock : spinlock;
  bs_buf : vec buf (S NBUF);
  bs_disk : disk;
}.

#[export] Instance bst_cpu : HasCpu bst :=
  Lens bs_cpu (fun c s => Bst c (bs_ptab s) (bs_lock s) (bs_buf s) (bs_disk s)).
#[export] Instance bst_ptab : HasPtab bst :=
  Lens bs_ptab (fun c s => Bst (bs_cpu s) c (bs_lock s) (bs_buf s) (bs_disk s)).
#[export] Instance bst_swtch : HasSwtch bst := swtch_stop.
Definition bcache_lock : lens bst spinlock :=
  Lens bs_lock (fun c s => Bst (bs_cpu s) (bs_ptab s) c (bs_buf s) (bs_disk s)).
Definition bufsL : lens bst (vec buf (S NBUF)) :=
  Lens bs_buf (fun c s => Bst (bs_cpu s) (bs_ptab s) (bs_lock s) c (bs_disk s)).
Definition b_lockL : lens buf sleeplock := Lens b_lock set_block_lock.
Definition block_lock (i : bufp) : lens bst sleeplock := lens_comp (arrL bufsL i) b_lockL.
Definition set_disk (d : disk) (s : bst) : bst := Bst (bs_cpu s) (bs_ptab s) (bs_lock s) (bs_buf s) d.
#[export] Instance bst_cpu_ok : LensOk (cpuL (S:=bst)).
Proof. solve_lens. Qed.
#[export] Instance bst_ptab_ok : LensOk (ptabL (S:=bst)).
Proof. solve_lens. Qed.
#[export] Instance bcache_lock_ok : LensOk bcache_lock.
Proof. solve_lens. Qed.
#[export] Instance bufsL_ok : LensOk bufsL.
Proof. solve_lens. Qed.
#[export] Instance b_lockL_ok : LensOk b_lockL.
Proof. solve_lens. Qed.
#[export] Instance bst_cpu_ptab : LensDisj (cpuL (S:=bst)) ptabL.
Proof. solve_lens. Qed.
#[export] Instance bst_cpu_lock : LensDisj (cpuL (S:=bst)) bcache_lock.
Proof. solve_lens. Qed.
#[export] Instance bst_cpu_bufs : LensDisj (cpuL (S:=bst)) bufsL.
Proof. solve_lens. Qed.
#[export] Instance bst_ptab_bufs : LensDisj (ptabL (S:=bst)) bufsL.
Proof. solve_lens. Qed.
#[export] Instance block_lock_ok i : LensOk (block_lock i).
Proof. unfold block_lock. apply _. Qed.
#[export] Instance bst_cpu_block i : LensDisj (cpuL (S:=bst)) (block_lock i).
Proof. unfold block_lock. apply _. Qed.
#[export] Instance bst_ptab_block i : LensDisj (ptabL (S:=bst)) (block_lock i).
Proof. unfold block_lock. apply _. Qed.

Definition getb (i : bufp) : M bst buf := gets (fun s => bs_buf s !!! i).
Definition updb (i : bufp) (f : buf -> buf) : M bst unit := upd (arrL bufsL i) f.
Definition buf_obj (i : bufp) : kobj := KBufLock (fin_to_nat i).

(** What the driver and the device do with a request for the buffer [i]. *)
Definition disk_rw (i : bufp) (write : bool) : M bst unit :=
  b <- getb i ;;
  if write then modify (fun s => set_disk (dwrite (bs_disk s) (b_blockno b) (b_data b)) s)
  else
    d <- gets (fun s => dread (bs_disk s) (b_blockno b)) ;;
    updb i (set_bdata d).

(** One round of [binit]'s loop. *)
Definition binit_one (k : fin NBUF) : M bst unit :=
  let b : bufp := FS k in
  h <- getb bhead ;;
  updb b (set_bnext (b_next h)) ;;
  updb b (set_bprev bhead) ;;
  initsleeplock (block_lock b) "buffer" ;;
  h <- getb bhead ;;
  updb (b_next h) (set_bprev b) ;;
  updb bhead (set_bnext b).

Definition binit : M bst unit :=
  initlock bcache_lock "bcache" ;;
  updb bhead (set_bprev bhead) ;;
  updb bhead (set_bnext bhead) ;;
  forM (indices NBUF) binit_one.

(** The two searches of [bget]: along [next] for the block, along [prev] for an
    unused buffer. *)
Definition bget_find (dev blockno : Z) (i : bufp) : M bst (bufp + option bufp) :=
  if bool_decide (i = bhead) then ret (inr None) else
  b <- getb i ;;
  if (b_dev b =? dev) && (b_blockno b =? blockno) then ret (inr (Some i))
  else ret (inl (b_next b)).
Definition bget_lru (i : bufp) : M bst (bufp + option bufp) :=
  if bool_decide (i = bhead) then ret (inr None) else
  b <- getb i ;;
  if b_refcnt b =? 0 then ret (inr (Some i))
  else ret (inl (b_prev b)).

Definition bget (dev blockno : Z) : M bst bufp :=
  acquire bcache_lock ;;
  h <- getb bhead ;;
  r <- loop (bget_find dev blockno) (b_next h) ;;
  match r with
  | Some b =>
      updb b (fun x => set_brefcnt (u32 (b_refcnt x + 1)) x) ;;
      release bcache_lock ;;
      acquiresleep (buf_obj b) (block_lock b) ;;
      ret b
  | None =>
      h <- getb bhead ;;
      r <- loop bget_lru (b_prev h) ;;
      match r with
      | Some b =>
          updb b (set_bdev dev) ;;
          updb b (set_bblockno blockno) ;;
          updb b (set_bvalid 0) ;;
          updb b (set_brefcnt 1) ;;
          release bcache_lock ;;
          acquiresleep (buf_obj b) (block_lock b) ;;
          ret b
      | None => panic "bget: no buffers"
      end
  end.

Definition bread (dev blockno : Z) : M bst bufp :=
  b <- bget dev blockno ;;
  x <- getb b ;;
  when (b_valid x =? 0)
    (disk_rw b false ;;
     updb b (set_bvalid 1)) ;;
  ret b.

Definition bwrite (b : bufp) : M bst unit :=
  h <- holdingsleep (block_lock b) ;;
  if negb h then panic "bwrite" else
  disk_rw b true.

(** The buffer goes to the front of the list. *)
Definition brelse_front (b : bufp) : M bst unit :=
  x <- getb b ;;
  updb (b_next x) (set_bprev (b_prev x)) ;;
  x <- getb b ;;
  updb (b_prev x) (set_bnext (b_next x)) ;;
  h <- getb bhead ;;
  updb b (set_bnext (b_next h)) ;;
  updb b (set_bprev bhead) ;;
  h <- getb bhead ;;
  updb (b_next h) (set_bprev b) ;;
  updb bhead (set_bnext b).

Definition brelse (b : bufp) : M bst unit :=
  h <- holdingsleep (block_lock b) ;;
  if negb h then panic "brelse" else
  releasesleep (buf_obj b) (block_lock b) ;;
  acquire bcache_lock ;;
  updb b (fun x => set_brefcnt (u32 (b_refcnt x - 1)) x) ;;
  x <- getb b ;;
  when (b_refcnt x =? 0) (brelse_front b) ;;
  release bcache_lock.

Definition bpin (b : bufp) : M bst unit :=
  acquire bcache_lock ;;
  updb b (fun x => set_brefcnt (u32 (b_refcnt x + 1)) x) ;;
  release bcache_lock.

Definition bunpin (b : bufp) : M bst unit :=
  acquire bcache_lock ;;
  updb b (fun x => set_brefcnt (u32 (b_refcnt x - 1)) x) ;;
  release bcache_lock.

(** * The doubly linked list *)

Section Links.
Context {A : Type} `{EqDecision A}.
Implicit Types (N P : A -> A) (l : list A).

(** Neighbours in [l] point at each other. *)
Fixpoint links (N P : A -> A) (l : list A) : Prop :=
  match l with
  | a :: ((b :: _) as l') => N a = b /\ P b = a /\ links N P l'
  | _ => True
  end.

Lemma links_app N P l1 a l2 : links N P (l1 ++ a :: l2) <-> links N P (l1 ++ [a]) /\ links N P (a :: l2).
Proof.
  induction l1 as [|x l1 IH]; cbn [app]; [cbn; tauto|].
  destruct l1 as [|y l1]; cbn in *; [tauto|]. rewrite IH. tauto.
Qed.

(** The [next] of all but the last and the [prev] of all but the first matter. *)
Lemma links_ext N P N' P' l :
  (forall x, x ∈ removelast l -> N' x = N x) -> (forall x, x ∈ tail l -> P' x = P x) ->
  links N P l -> links N' P' l.
Proof.
  induction l as [|a l IH]; [done|]. destruct l as [|b l]; [done|].
  intros HN HP (Ha&Hb&Hl). cbn [links]. split_and!.
  - rewrite HN; [done|]. by left.
  - rewrite HP; [done|]. by left.
  - apply IH; [| |done]; intros x Hx; [apply HN; by right|apply HP]. cbn in *. by right.
Qed.

Definition upd_fun {B} (f : A -> B) (a : A) (b : B) : A -> B := fun x => if decide (x = a) then b else f x.
Lemma upd_fun_eq {B} (f : A -> B) a b : upd_fun f a b a = b.
Proof. unfold upd_fun. by rewrite decide_True. Qed.
Lemma upd_fun_ne {B} (f : A -> B) a b x : x <> a -> upd_fun f a b x = f x.
Proof. intros. unfold upd_fun. by rewrite decide_False. Qed.

Lemma upd_fun_ext {B} (f g : A -> B) a b x : (forall y, f y = g y) -> upd_fun f a b x = upd_fun g a b x.
Proof. intros E. unfold upd_fun. by rewrite E. Qed.

Lemma elem_of_removelast l x : x ∈ removelast l -> x ∈ l.
Proof.
  induction l as [|a l IH]; [done|]. destruct l as [|b l]; [by intros ?%elem_of_nil|].
  intros [->|Hx]%elem_of_cons; [by left|right; by apply IH].
Qed.
Lemma elem_of_tail l x : x ∈ tail l -> x ∈ l.
Proof. destruct l; [done|]. by right. Qed.

Lemma removelast_snoc l a : removelast (l ++ [a]) = l.
Proof. apply removelast_last. Qed.

(** The circular list [h; l; h] starts and ends somewhere. *)
Lemma snoc_cases l h : exists f r, l ++ [h] = f :: r /\ f = hd h l.
Proof. destruct l as [|a l]; [by exists h, []|by exists a, (l ++ [h])]. Qed.

Lemma cons_snoc_cases h l : exists r p, h :: l = r ++ [p].
Proof.
  destruct (exists_last (l := h :: l)) as (r&p&E); [done|]. by exists r, p.
Qed.

(** Taking [i] out of the list. *)
Lemma links_unlink N P h l1 i l2 :
  NoDup (h :: l1 ++ i :: l2) -> links N P (h :: l1 ++ i :: l2 ++ [h]) ->
  N i <> i /\ links (upd_fun N (P i) (N i)) (upd_fun P (N i) (P i)) (h :: l1 ++ l2 ++ [h]).
Proof.
  intros Hd Hl. destruct (cons_snoc_cases h l1) as (f1&p&Ef), (snoc_cases l2 h) as (q&b2&Eb&_).
  rewrite Eb in Hl |- *. rewrite app_comm_cons, Ef, <- app_assoc in Hl. rewrite app_comm_cons, Ef, <- app_assoc. cbn [app] in *.
  apply links_app in Hl as [Hf (Hp&Hi&Hq&Hq'&Hb)]. rewrite Hi, Hq.
  apply NoDup_cons in Hd as [Hh Hd]. apply NoDup_app in Hd as (Hd1&Hd12&Hd2). apply NoDup_cons in Hd2 as [Hi2 Hd2].
  assert (Hpf : p = h \/ p ∈ l1) by (apply elem_of_cons; rewrite Ef; apply elem_of_app; right; by left).
  assert (Hqb : q = h \/ q ∈ l2).
  { assert (q ∈ l2 ++ [h]) as Hx by (rewrite Eb; by left). apply elem_of_app in Hx as [|Hx]; [by right|].
    left. by apply list_elem_of_singleton in Hx. }
  rewrite elem_of_app, elem_of_cons in Hh.
  assert (Hqi : q <> i) by (destruct Hqb as [-> |]; [tauto|intros ->; done]).
  split; [done|]. apply links_app. split.
  - eapply links_ext; [| |exact Hf].
    + intros x Hx. rewrite removelast_snoc in Hx. apply upd_fun_ne. intros ->.
      assert (NoDup (f1 ++ [p])) as Hnd by (rewrite <- Ef; apply NoDup_cons; tauto).
      apply NoDup_app in Hnd as (_&Hnd&_). apply (Hnd p Hx). by left.
    + intros x Hx. rewrite <- Ef in Hx. cbn in Hx. apply upd_fun_ne. intros ->.
      destruct Hqb as [->|Hqb]; [tauto|]. apply (Hd12 q Hx). by right.
  - split; [apply upd_fun_eq|]. split; [apply upd_fun_eq|]. eapply links_ext; [| |exact Hb].
    + intros x Hx. rewrite <- Eb, removelast_snoc in Hx. apply upd_fun_ne. intros ->.
      destruct Hpf as [->|Hpf]; [tauto|]. apply (Hd12 p Hpf). by right.
    + intros x Hx. apply upd_fun_ne. intros ->.
      assert (NoDup (q :: b2)) as Hnd.
      { rewrite <- Eb. apply NoDup_app. split_and!; [done| |apply NoDup_singleton].
        intros y Hy Hyh. apply list_elem_of_singleton in Hyh as ->. tauto. }
      apply NoDup_cons in Hnd as [Hnd _]. done.
Qed.

(** Putting [i] at the front. *)
Lemma links_push N P h i l :
  NoDup (h :: l) -> i <> h -> i ∉ l -> links N P (h :: l ++ [h]) ->
  links (upd_fun (upd_fun N i (N h)) h i) (upd_fun (upd_fun P i h) (N h) i) (h :: i :: l ++ [h]).
Proof.
  intros Hd Hih Hil Hl. destruct (snoc_cases l h) as (q&r&E&_). rewrite E in *.
  destruct Hl as (Hh&Hq&Hl). rewrite Hh. apply NoDup_cons in Hd as [Hhl Hd].
  assert (Hqb : q = h \/ q ∈ l).
  { assert (q ∈ l ++ [h]) as Hx by (rewrite E; by left). apply elem_of_app in Hx as [|Hx]; [by right|].
    left. by apply list_elem_of_singleton in Hx. }
  assert (Hqi : i <> q) by (destruct Hqb as [-> |]; [done|by intros ->]).
  split; [apply upd_fun_eq|]. split; [by rewrite upd_fun_ne, upd_fun_eq|].
  split; [by rewrite upd_fun_ne, upd_fun_eq|]. split; [apply upd_fun_eq|]. eapply links_ext; [| |exact Hl].
  - intros x Hx. rewrite <- E, removelast_snoc in Hx. rewrite !upd_fun_ne; [done| |]; by intros ->.
  - intros x Hx. assert (NoDup (q :: r)) as Hnd.
    { rewrite <- E. apply NoDup_app. split_and!; [done| |apply NoDup_singleton].
      intros y Hy Hyh. by apply list_elem_of_singleton in Hyh as ->. }
    apply NoDup_cons in Hnd as [Hnd _]. assert (x ∈ l ++ [h]) as Hx' by (rewrite E; by right).
    rewrite !upd_fun_ne; [done| |by intros ->]. intros ->.
    apply elem_of_app in Hx' as [|Hx']; [done|]. by apply list_elem_of_singleton in Hx'.
Qed.

(** The neighbours of an element. *)
Lemma links_next N P h l1 i l2 : links N P (h :: l1 ++ i :: l2 ++ [h]) -> N i = hd h l2.
Proof.
  intros Hl. destruct (snoc_cases l2 h) as (q&r&E&->). rewrite E, app_comm_cons in Hl.
  apply links_app in Hl as [_ (H&_)]. done.
Qed.

Lemma links_prev N P h l1 i l2 : links N P (h :: l1 ++ i :: l2) -> P i = default h (last l1).
Proof.
  intros Hl. destruct l1 as [|x l1] using rev_ind; [by destruct Hl as (_&H&_)|].
  rewrite last_snoc. rewrite <- app_assoc in Hl.
  apply (links_app N P (h :: l1) x (i :: l2)) in Hl as [_ (_&H&_)]. done.
Qed.
End Links.

(** * The list of buffers *)

Definition nextf (v : vec buf (S NBUF)) (i : bufp) : bufp := b_next (v !!! i).
Definition prevf (v : vec buf (S NBUF)) (i : bufp) : bufp := b_prev (v !!! i).

(** The buffers are on the list once each, most recently used first. *)
Record lru (v : vec buf (S NBUF)) (order : list bufp) : Prop := {
  lru_links : links (nextf v) (prevf v) (bhead :: order ++ [bhead]);
  lru_dup : NoDup (bhead :: order);
  lru_all i : i <> bhead -> i ∈ order;
}.

(** The block a buffer caches. *)
Definition caches (x : buf) (dev b : Z) : Prop := b_dev x = dev /\ b_blockno x = b.

(** ** The searches *)

Lemma order_length v order : lru v order -> Z.of_nat (length order) < 2 ^ 64.
Proof.
  intros [_ Hd _]. apply NoDup_cons in Hd as [_ Hd].
  assert (order ⊆+ enum bufp) as Hs%submseteq_length by (apply NoDup_submseteq; [done|intros x _; apply elem_of_enum]).
  assert (length (enum bufp) = 31%nat) by (by vm_compute). lia.
Qed.

(** What the searches return: the first buffer that satisfies [P], if any. *)
Definition search_post (s : bst) (P : buf -> Prop) (o : out bst (option bufp)) : Prop :=
  exists r, o = Ok r s /\
    match r with
    | Some i => i <> bhead /\ P (bs_buf s !!! i)
    | None => forall i, i <> bhead -> ~ P (bs_buf s !!! i)
    end.

Lemma bget_find_run s order dev b :
  lru (bs_buf s) order ->
  search_post s (fun x => caches x dev b) (loop (bget_find dev b) (b_next (bs_buf s !!! bhead)) s).
Proof.
  intros Hlru. pose proof Hlru as [Hl Hd Hall]. set (v := bs_buf s) in *.
  apply (loop_rule _ (fun n i s' => s' = s /\ exists l1 l2, order = l1 ++ l2 /\ i = hd bhead l2 /\
      n = length l2 /\ forall j, j ∈ l1 -> ~ caches (v !!! j) dev b)
    (search_post s (fun x => caches x dev b))) with (n := length order); [| |by eapply order_length].
  - intros n i s' (->&l1&l2&Ho&->&->&Hno). unfold bget_find. destruct l2 as [|x l2]; cbn [hd].
    + rewrite bool_decide_true by done. rewrite app_nil_r in Ho. subst. exists None. split; [done|].
      intros i Hi. apply Hno, Hall, Hi.
    + apply NoDup_cons in Hd as [Hh Hd].
      assert (Hx : x <> bhead) by (intros ->; apply Hh; rewrite Ho; apply elem_of_app; right; by left).
      rewrite bool_decide_false by done. unfold getb, gets. erewrite bind_ok by done. fold v.
      destruct ((b_dev (v !!! x) =? dev) && (b_blockno (v !!! x) =? b)) eqn:E; cbn [ret].
      * apply andb_true_iff in E as [?%Z.eqb_eq ?%Z.eqb_eq]. by exists (Some x).
      * exists (length l2). split; [cbn; lia|]. split; [done|]. exists (l1 ++ [x]), l2.
        split_and!; [by rewrite <- app_assoc| |done|].
        { rewrite Ho, <- app_assoc in Hl. by apply links_next in Hl. }
        intros j [Hj|Hj]%elem_of_app; [by apply Hno|]. apply list_elem_of_singleton in Hj as ->.
        intros [H1 H2]. by rewrite H1, H2, !Z.eqb_refl in E.
  - split; [done|]. exists [], order. split_and!; [done| |done|by intros j ?%elem_of_nil].
    destruct (snoc_cases order bhead) as (q&r&E&->). rewrite E in Hl. by destruct Hl as (H&_).
Qed.

Lemma bget_lru_run s order :
  lru (bs_buf s) order ->
  search_post s (fun x => b_refcnt x = 0) (loop bget_lru (b_prev (bs_buf s !!! bhead)) s).
Proof.
  intros Hlru. pose proof Hlru as [Hl Hd Hall]. set (v := bs_buf s) in *.
  apply (loop_rule _ (fun n i s' => s' = s /\ exists l1 l2, order = l1 ++ l2 /\ i = default bhead (last l1) /\
      n = length l1 /\ forall j, j ∈ l2 -> b_refcnt (v !!! j) <> 0)
    (search_post s (fun x => b_refcnt x = 0))) with (n := length order); [| |by eapply order_length].
  - intros n i s' (->&l1&l2&Ho&->&->&Hno). unfold bget_lru. destruct l1 as [|x l1 _] using rev_ind.
    + cbn. rewrite bool_decide_true by done. cbn in Ho. subst. exists None. split; [done|].
      intros i Hi. apply Hno, Hall, Hi.
    + rewrite last_snoc. change (default bhead (Some x)) with x. apply NoDup_cons in Hd as [Hh Hd]. rewrite <- app_assoc in Ho. cbn in Ho.
      assert (Hx : x <> bhead) by (intros ->; apply Hh; rewrite Ho; apply elem_of_app; right; by left).
      rewrite bool_decide_false by done. unfold getb, gets. erewrite bind_ok by done. fold v.
      destruct (Z.eqb_spec (b_refcnt (v !!! x)) 0) as [E|E]; [by exists (Some x)|].
      exists (length l1). rewrite length_app. split; [cbn; lia|]. split; [done|]. exists l1, (x :: l2).
      split_and!; [done| |done|].
      * rewrite Ho, <- app_assoc in Hl. cbn in Hl. by apply links_prev in Hl.
      * by intros j [->|Hj]%elem_of_cons; [|apply Hno].
  - split; [done|]. exists order, []. split_and!; [by rewrite app_nil_r| |done|by intros j ?%elem_of_nil].
    apply links_prev in Hl. done.
Qed.
