(* ===== verification/Cache.v ===== *)
(** The buffer cache is transparent: the operations of [src/kernel/bio.c] seen
    through what the cache promises its users.

    The abstract state is the content [V b] of every block, the number [R b] of
    references to it and the buffers [H] the running process has locked, with
    their blocks. The relation [cache] says that the buffers, their list and the
    disk implement it; each operation is then described by its effect on the
    abstract state. *)

From stdpp Require Import gmap.
From S2P Require Import Prelude Params Spinlock Sched Sleeplock Bio.
Local Open Scope kernel_scope.

#[local] Arguments freed : simpl never.
#[local] Arguments taken : simpl never.
#[local] Arguments settle : simpl never.
#[local] Arguments push : simpl never.
#[local] Arguments pop : simpl never.

(** * The abstraction relation *)

(** How many more spin locks the CPU's [noff] has room for while the cache is
    used: the cache is also used under the log's lock. *)
Class Depth : Type := depth : nat.
#[export] Instance depth_default : Depth | 100 := 16%nat.

(** The process [me], the entry [pr] of the table, runs and no spin lock of the
    cache or of a process is held. *)
Record quiet {dp : Depth} (c : cpu) (lk : spinlock) (procs : vec proc NPROC) (me : fin NPROC) (pr : proc) : Prop := {
  qt_cpu : cpu_room depth c;
  qt_run : c_proc c = Some me;
  qt_me : procs !!! me = pr;
  qt_lock : idle lk;
  qt_procs i : idle (p_lock (procs !!! i));
}.

(** A buffer, locked for the block [h] or unlocked, of a cache with the contents
    [V] and the reference counts [R] over the disk [D]. *)
Record buf_ok (pid : Z) (h : option Z) (V : blocks) (R : Z -> Z) (D : blocks) (x : buf) : Prop := {
  bk_sl : idle (sl_lk (b_lock x));
  bk_held : match h with
            | Some b => b_dev x = ROOTDEV /\ b_blockno x = b /\ 0 < b_refcnt x /\
                        sl_locked (b_lock x) = 1 /\ sl_pid (b_lock x) = pid
            | None => sl_locked (b_lock x) = 0
            end;
  bk_ref : 0 <= b_refcnt x < 2 ^ 32;
  bk_view : b_dev x = 0 /\ b_refcnt x = 0 \/
            b_dev x = ROOTDEV /\ b_valid x = 1 /\ V (b_blockno x) = b_data x /\ R (b_blockno x) = b_refcnt x;
  bk_clean : b_dev x = ROOTDEV -> b_refcnt x = 0 -> b_data x = D (b_blockno x);
}.

Record cache {dp : Depth} (s : bst) (me : fin NPROC) (pr : proc) (H : gmap bufp Z) (V : blocks) (R : Z -> Z) : Prop := {
  ca_quiet : quiet (bs_cpu s) (bs_lock s) (pt_proc (bs_ptab s)) me pr;
  ca_lru : exists order, lru (bs_buf s) order;
  ca_buf i : i <> bhead -> buf_ok (p_pid pr) (H !! i) V R (dread (bs_disk s)) (bs_buf s !!! i);
  ca_head : H !! bhead = None;
  ca_uniq i j b : i <> bhead -> j <> bhead ->
    caches (bs_buf s !!! i) ROOTDEV b -> caches (bs_buf s !!! j) ROOTDEV b -> i = j;
  ca_out b : (forall i, i <> bhead -> ~ caches (bs_buf s !!! i) ROOTDEV b) -> V b = dread (bs_disk s) b /\ R b = 0;
}.

(** At most [NBUF - 1] blocks are referenced: a buffer is unused. *)
Definition room (R : Z -> Z) : Prop := exists L, (length L < NBUF)%nat /\ forall b, 0 < R b -> b ∈ L.

Definition bump (R : Z -> Z) (b n : Z) : Z -> Z := fun x => if x =? b then R b + n else R x.

#[export] Instance caches_dec x dev b : Decision (caches x dev b).
Proof. unfold caches. apply _. Defined.

Lemma lru_vinsert v order i x :
  lru v order -> b_next x = b_next (v !!! i) -> b_prev x = b_prev (v !!! i) -> lru (vinsert i x v) order.
Proof.
  intros [Hl Hd Ha] Hn Hp. split; [|done|done]. eapply links_ext; [| |exact Hl]; intros j _;
    unfold nextf, prevf; rewrite vlookup_vinsert; by case_decide; subst.
Qed.

Lemma settle_quiet {dp : Depth} c lk procs me pr : quiet c lk procs me pr -> quiet (settle c) lk procs me pr.
Proof. intros []. split; [by apply settle_ok|by rewrite settle_proc|done..]. Qed.

(** One buffer's content changes, at most for its block. *)
Lemma cache_set {dp : Depth} s me pr H V R i x H' V' R' c' d' :
  cache s me pr H V R -> i <> bhead ->
  b_next x = b_next (bs_buf s !!! i) -> b_prev x = b_prev (bs_buf s !!! i) -> b_dev x = ROOTDEV ->
  buf_ok (p_pid pr) (H' !! i) V' R' (dread d') x -> (forall j, j <> i -> H' !! j = H !! j) ->
  (forall b, b <> b_blockno x -> V' b = V b /\ R' b = R b /\ dread d' b = dread (bs_disk s) b) ->
  (caches (bs_buf s !!! i) ROOTDEV (b_blockno x) \/
   b_refcnt (bs_buf s !!! i) = 0 /\ forall j, j <> bhead -> ~ caches (bs_buf s !!! j) ROOTDEV (b_blockno x)) ->
  quiet c' (bs_lock s) (pt_proc (bs_ptab s)) me pr ->
  cache (Bst c' (bs_ptab s) (bs_lock s) (vinsert i x (bs_buf s)) d') me pr H' V' R'.
Proof.
  intros [Hq [order Hlru] Hbuf Hh Hu Ho] Hi Hn Hp Hdev Hx HH Hsame Hold Hq'.
  assert (Hne : forall j, j <> i -> j <> bhead -> ~ caches (bs_buf s !!! j) ROOTDEV (b_blockno x)).
  { intros j Hj Hjh Hc. destruct Hold as [Hold|[_ Hold]]; [|by apply (Hold j)]. apply Hj. by apply (Hu j i (b_blockno x)). }
  split; cbn; [done|exists order; by apply lru_vinsert| | | |].
  - intros j Hj. rewrite vlookup_vinsert. case_decide as E; [by subst|]. rewrite HH by done.
    destruct (Hbuf j Hj) as [H1 H2 H3 H4 H5]. specialize (Hne j ltac:(done) Hj).
    assert (Hb : b_dev (bs_buf s !!! j) = ROOTDEV -> b_blockno (bs_buf s !!! j) <> b_blockno x).
    { intros Hd Hb. by apply Hne. }
    split; [done..| |].
    + destruct H4 as [H4|(Hd&H4)]; [by left|right]. by destruct (Hsame _ (Hb Hd)) as (->&->&_).
    + intros Hd Hr. destruct (Hsame _ (Hb Hd)) as (_&_&->). by apply H5.
  - by rewrite HH by done.
  - intros j k b Hj Hk. rewrite !vlookup_vinsert. repeat case_decide; subst; try done.
    + intros [_ <-] Hc. by destruct (Hne k ltac:(done) Hk).
    + intros Hc [_ <-]. by destruct (Hne j ltac:(done) Hj).
    + by apply Hu.
  - intros b Hb. assert (Hbx : b <> b_blockno x).
    { intros ->. apply (Hb i Hi). by rewrite vlookup_insert. }
    destruct (Hsame b Hbx) as (->&->&->). destruct (decide (caches (bs_buf s !!! i) ROOTDEV b)) as [[Hd Hc]|Hc].
    + destruct Hold as [[_ Hold]|[Hold _]]; [congruence|]. destruct (Hbuf i Hi) as [_ _ _ H4 H5].
      destruct H4 as [[H4 _]|(_&_&H4)]; [rewrite Hd in H4; by vm_compute in H4|].
      rewrite Hc in H4. destruct H4 as [-> ->]. rewrite H5, Hc by done. done.
    + apply Ho. intros j Hj. destruct (decide (j = i)) as [->|E]; [done|].
      specialize (Hb j Hj). by rewrite vlookup_insert_ne in Hb by done.
Qed.

(** * Reading *)

(** The buffer [x] locked by the process [pid]. *)
Definition locked_by (pid : Z) (x : buf) : buf :=
  set_block_lock (set_slpid pid (set_sllocked 1 (b_lock x))) x.

Definition settled (s : bst) (v : vec buf (S NBUF)) : bst :=
  Bst (settle (bs_cpu s)) (bs_ptab s) (bs_lock s) v (bs_disk s).

(** The end of [bget]: the list's lock goes, the buffer's lock is taken. *)
Lemma bget_take s me pr i x c lk v :
  quiet (bs_cpu s) (bs_lock s) (pt_proc (bs_ptab s)) me pr ->
  idle (sl_lk (b_lock x)) -> sl_locked (b_lock x) = 0 -> v !!! i = x ->
  c = push (bs_cpu s) -> lk = taken (c_id (bs_cpu s)) (bs_lock s) ->
  (release bcache_lock ;; acquiresleep (buf_obj i) (block_lock i) ;; ret i)
    (Bst c (bs_ptab s) lk v (bs_disk s)) = Ok i (settled s (vinsert i (locked_by (p_pid pr) x) v)).
Proof.
  intros [Hc Hr Hpid Hlk Hpr] Hsl Hl Hx -> ->.
  erewrite bind_ok.
  2:{ apply (release_run bcache_lock); [apply holding_taken|done|by eapply push_noff]. }
  cbn. rewrite pop_push, freed_taken by done.
  erewrite bind_ok.
  2:{ eapply (acquiresleep_run (block_lock i) (buf_obj i) _ me); cbn.
      - by apply settle_ok.
      - unfold running. cbn. by rewrite settle_proc.
      - by rewrite Hx.
      - by rewrite Hx. }
  unfold ret. cbn. rewrite settle_idem, Hx, Hpid. done.
Qed.

(** The block is in the cache. *)
Lemma bread_hit s me pr H V R b i :
  cache s me pr H V R -> i <> bhead -> H !! i = None -> caches (bs_buf s !!! i) ROOTDEV b ->
  b_refcnt (bs_buf s !!! i) + 1 < 2 ^ 32 ->
  bread ROOTDEV b s =
    Ok i (settled s (vinsert i (locked_by (p_pid pr) (set_brefcnt (b_refcnt (bs_buf s !!! i) + 1) (bs_buf s !!! i))) (bs_buf s))).
Proof.
  intros Hb Hi Hnh Hca Href. pose proof (ca_quiet _ _ _ _ _ _ Hb) as Hq. pose proof Hq as [Hc _ _ _ _].
  destruct (ca_lru _ _ _ _ _ _ Hb) as [order Hlru]. destruct (ca_buf _ _ _ _ _ _ Hb i Hi) as [H1 H2 H3 H4 _].
  rewrite Hnh in H2.
  assert (Hget : bget ROOTDEV b s =
    Ok i (settled s (vinsert i (locked_by (p_pid pr) (set_brefcnt (b_refcnt (bs_buf s !!! i) + 1) (bs_buf s !!! i))) (bs_buf s)))).
  { unfold bget. erewrite bind_ok by (apply (acquire_run bcache_lock), Hq).
    unfold getb, gets. erewrite bind_ok by done. cbn.
    set (s1 := Bst (push (bs_cpu s)) (bs_ptab s) (taken (c_id (bs_cpu s)) (bs_lock s)) (bs_buf s) (bs_disk s)).
    destruct (bget_find_run s1 order ROOTDEV b) as (r&Hrun&Hpost); [done|].
    change (loop (bget_find ROOTDEV b) (b_next (bs_buf s !!! bhead)) s1 = Ok r s1) in Hrun.
    erewrite bind_ok by exact Hrun. destruct r as [j|]; [|by destruct (Hpost i Hi)].
    destruct Hpost as [Hj Hjc]. cbn in Hjc.
    assert (j = i) as -> by (by apply (ca_uniq _ _ _ _ _ _ Hb j i b)).
    unfold updb, upd, modify. erewrite bind_ok by done. cbn. rewrite u32_small by lia.
    erewrite (bget_take s me pr i _ _ _ _ Hq); [|..|by rewrite vlookup_insert|done|done]; [|done..].
    by rewrite vinsert_twice. }
  unfold bread. erewrite bind_ok by exact Hget. unfold getb, gets. erewrite bind_ok by done. cbn.
  rewrite vlookup_insert. cbn. destruct Hca as [Hd _], H4 as [[H4 _]|(_&->&_)]; [by rewrite Hd in H4|done].
Qed.

(** A buffer recycled for the block [b] of [dev]. *)
Definition recycled (pid dev b : Z) (data : list Z) (x : buf) : buf :=
  locked_by pid (Buf 1 (b_disk x) dev b (b_lock x) 1 (b_prev x) (b_next x) data).

(** The block is not in the cache and a buffer is unused. *)
Lemma bread_miss s me pr H V R b :
  cache s me pr H V R -> (forall i, i <> bhead -> ~ caches (bs_buf s !!! i) ROOTDEV b) ->
  (exists i, i <> bhead /\ b_refcnt (bs_buf s !!! i) = 0) ->
  exists i, i <> bhead /\ H !! i = None /\ b_refcnt (bs_buf s !!! i) = 0 /\
    bread ROOTDEV b s =
      Ok i (settled s (vinsert i (recycled (p_pid pr) ROOTDEV b (dread (bs_disk s) b) (bs_buf s !!! i)) (bs_buf s))).
Proof.
  intros Hb Hno [i0 [Hi0 Hr0]]. pose proof (ca_quiet _ _ _ _ _ _ Hb) as Hq. pose proof Hq as [Hc _ _ _ _].
  destruct (ca_lru _ _ _ _ _ _ Hb) as [order Hlru].
  set (s1 := Bst (push (bs_cpu s)) (bs_ptab s) (taken (c_id (bs_cpu s)) (bs_lock s)) (bs_buf s) (bs_disk s)).
  destruct (bget_find_run s1 order ROOTDEV b) as (r&Hrun&Hpost); [done|].
  destruct r as [j|]; [destruct Hpost as [Hj Hjc]; by destruct (Hno j Hj)|].
  destruct (bget_lru_run s1 order) as (r&Hrun2&Hpost2); [done|].
  destruct r as [i|]; [|by destruct (Hpost2 i0 Hi0)]. destruct Hpost2 as [Hi Hri]. cbn in Hri.
  destruct (ca_buf _ _ _ _ _ _ Hb i Hi) as [H1 H2 _ _ _].
  assert (Hnh : H !! i = None) by (destruct (H !! i); [lia|done]). rewrite Hnh in H2.
  exists i. split_and!; [done..|].
  assert (Hget : bget ROOTDEV b s = Ok i (settled s (vinsert i
    (locked_by (p_pid pr) (set_brefcnt 1 (set_bvalid 0 (set_bblockno b (set_bdev ROOTDEV (bs_buf s !!! i)))))) (bs_buf s)))).
  { unfold bget. erewrite bind_ok by (apply (acquire_run bcache_lock), Hq).
    unfold getb, gets. erewrite bind_ok by done. cbn.
    change (loop (bget_find ROOTDEV b) (b_next (bs_buf s !!! bhead)) s1 = Ok None s1) in Hrun.
    change (loop bget_lru (b_prev (bs_buf s !!! bhead)) s1 = Ok (Some i) s1) in Hrun2.
    fold s1. erewrite bind_ok by exact Hrun. cbv beta iota. erewrite bind_ok by done.
    erewrite bind_ok by exact Hrun2. cbv beta iota.
    unfold updb, upd, modify. do 4 (erewrite bind_ok by done). cbn. rewrite !vlookup_insert, !vinsert_twice.
    erewrite (bget_take s me pr i _ _ _ _ Hq); [|..|by rewrite vlookup_insert|done|done]; [|done..].
    by rewrite vinsert_twice. }
  unfold bread. erewrite bind_ok by exact Hget. unfold getb, gets. erewrite bind_ok by done. cbn.
  rewrite vlookup_insert. cbn. unfold bind, disk_rw, getb, gets, updb, upd, modify, ret. cbn.
  rewrite !vlookup_insert. cbn. rewrite ?vlookup_insert, !vinsert_twice. done.
Qed.

(** While at most [NBUF - 1] blocks are referenced some buffer is not. *)
Lemma room_free s me pr H V R :
  cache s me pr H V R -> room R -> exists i, i <> bhead /\ b_refcnt (bs_buf s !!! i) = 0.
Proof.
  intros Hca (L&HL&Hin).
  destruct (decide (exists i, i <> bhead /\ b_refcnt (bs_buf s !!! i) = 0)) as [|Hno]; [done|exfalso].
  set (f := fun k : fin NBUF => b_blockno (bs_buf s !!! (FS k : bufp))).
  assert (Hv : forall k, caches (bs_buf s !!! (FS k : bufp)) ROOTDEV (f k) /\ 0 < R (f k)).
  { intros k. destruct (ca_buf _ _ _ _ _ _ Hca (FS k) ltac:(done)) as [_ _ Hr Hv _].
    assert (b_refcnt (bs_buf s !!! (FS k : bufp)) <> 0) by (intros E; apply Hno; by exists (FS k)).
    destruct Hv as [[_ Hv]|(Hd&_&_&Hv)]; [done|]. split; [done|]. unfold f. rewrite Hv. lia. }
  assert (NoDup (f <$> indices NBUF)) as Hnd.
  { apply NoDup_fmap_2_strong; [|apply NoDup_indices]. intros x y _ _ E.
    apply (inj FS). apply (ca_uniq _ _ _ _ _ _ Hca _ _ (f x)); [done..|apply Hv|rewrite E; apply Hv]. }
  assert (f <$> indices NBUF ⊆+ L) as Hs%submseteq_length.
  { apply NoDup_submseteq; [done|]. intros b (k&->&_)%list_elem_of_fmap. apply Hin, Hv. }
  rewrite length_fmap in Hs. assert (length (indices NBUF) = NBUF) by (by vm_compute). lia.
Qed.

Lemma bump_same R b n : bump R b n b = R b + n.
Proof. unfold bump. by rewrite Z.eqb_refl. Qed.
Lemma bump_ne R b n x : x <> b -> bump R b n x = R x.
Proof. intros E. unfold bump. by apply Z.eqb_neq in E as ->. Qed.

Lemma locked_by_ok pid b V V' R R' D x y :
  buf_ok pid None V R D x -> b_lock y = b_lock x -> b_dev y = ROOTDEV -> b_blockno y = b -> b_valid y = 1 ->
  0 < b_refcnt y < 2 ^ 32 -> V' b = b_data y -> R' b = b_refcnt y ->
  buf_ok pid (Some b) V' R' D (locked_by pid y).
Proof.
  intros [H1 _ _ _ _] Hl Hd Hb Hv Hr HV HR. split; cbn; [by rewrite Hl|by split_and!; try lia|lia| |lia].
  right. by rewrite Hb.
Qed.

Lemma bread_spec s me pr H V R b :
  cache s me pr H V R -> (forall i, H !! i <> Some b) -> 0 < R b \/ room R -> R b + 1 < 2 ^ 32 ->
  wp (bread ROOTDEV b) (fun i s' =>
    H !! i = None /\ cache s' me pr (<[i:=b]> H) V (bump R b 1) /\ bs_disk s' = bs_disk s) s.
Proof.
  intros Hca Hnh Hroom Hr. pose proof (ca_quiet _ _ _ _ _ _ Hca) as Hq.
  destruct (decide (exists i, i <> bhead /\ caches (bs_buf s !!! i) ROOTDEV b)) as [(i&Hi&Hc)|Hno].
  - pose proof (ca_buf _ _ _ _ _ _ Hca i Hi) as Hx. pose proof Hx as [H1 H2 H3 H4 H5]. pose proof Hc as [Hd Hb].
    destruct H4 as [[H4 _]|(_&Hva&HV&HR)]; [by rewrite Hd in H4|]. rewrite Hb in HV, HR.
    assert (HHi : H !! i = None).
    { destruct (H !! i) as [b'|] eqn:E; [|done]. destruct H2 as (_&<-&_). by destruct (Hnh i); rewrite E, Hb. }
    rewrite HHi in Hx. eapply wp_ok; [apply (bread_hit s me pr H V R b i); [done..|lia]|].
    split_and!; [done| |done]. apply (cache_set s me pr H V R); cbn; [done..| | | | |by apply settle_quiet].
    + rewrite lookup_insert_eq. eapply locked_by_ok; [exact Hx|done..|cbn; lia|done|]. rewrite bump_same. cbn. lia.
    + intros j Hj. by rewrite lookup_insert_ne.
    + intros b' Hb'. rewrite Hb in Hb'. by rewrite bump_ne.
    + left. by rewrite Hb.
  - assert (Hno' : forall i, i <> bhead -> ~ caches (bs_buf s !!! i) ROOTDEV b) by (intros i Hi Hc; apply Hno; by exists i).
    destruct (ca_out _ _ _ _ _ _ Hca b Hno') as [HV HR]. destruct Hroom as [|Hroom]; [lia|].
    destruct (bread_miss s me pr H V R b Hca Hno') as (i&Hi&HHi&Hri&Hrun); [by eapply room_free|].
    pose proof (ca_buf _ _ _ _ _ _ Hca i Hi) as Hx. rewrite HHi in Hx.
    eapply wp_ok; [exact Hrun|]. split_and!; [done| |done].
    apply (cache_set s me pr H V R); cbn; [done..| | | | |by apply settle_quiet].
    + rewrite lookup_insert_eq. eapply locked_by_ok; [exact Hx|done..|]. rewrite bump_same. cbn. lia.
    + intros j Hj. by rewrite lookup_insert_ne.
    + intros b' Hb'. by rewrite bump_ne.
    + by right.
Qed.

(** * Buffers held *)

Lemma cache_held {dp : Depth} s me pr H V R i b :
  cache s me pr H V R -> H !! i = Some b ->
  i <> bhead /\ caches (bs_buf s !!! i) ROOTDEV b /\ buf_ok (p_pid pr) (Some b) V R (dread (bs_disk s)) (bs_buf s !!! i) /\
  b_data (bs_buf s !!! i) = V b /\ b_refcnt (bs_buf s !!! i) = R b /\ 0 < R b < 2 ^ 32.
Proof.
  intros Hca Hi. assert (Hb : i <> bhead) by (intros ->; by rewrite (ca_head _ _ _ _ _ _ Hca) in Hi).
  pose proof (ca_buf _ _ _ _ _ _ Hca i Hb) as Hx. rewrite Hi in Hx. pose proof Hx as [_ (Hd&Hbn&Hr&_) Hr' Hv _].
  rewrite Hbn in Hv. destruct Hv as [[_ Hv]|(_&_&HV&HR)]; [lia|]. split_and!; try done; lia.
Qed.

Definition setv (V : blocks) (b : Z) (d : list Z) : blocks := set_block V (b, d).
Lemma setv_same V b d : setv V b d b = d.
Proof. unfold setv, set_block. cbn. by rewrite Z.eqb_refl. Qed.
Lemma setv_ne V b d x : x <> b -> setv V b d x = V x.
Proof. intros E. unfold setv, set_block. cbn. by apply Z.eqb_neq in E as ->. Qed.
Lemma dread_dwrite d b data : dread (dwrite d b data) = setv (dread d) b data.
Proof. unfold dread, dwrite, apply_writes. cbn. by rewrite foldl_snoc. Qed.

(** The holder of a buffer's lock changes its data. *)
Lemma write_data_spec s me pr H V R i b f :
  cache s me pr H V R -> H !! i = Some b ->
  wp (updb i (fun x => set_bdata (f (b_data x)) x)) (fun _ s' =>
    cache s' me pr H (setv V b (f (V b))) R /\ bs_disk s' = bs_disk s) s.
Proof.
  intros Hca Hi. destruct (cache_held _ _ _ _ _ _ _ _ Hca Hi) as (Hb&Hc&[H1 H2 H3 H4 H5]&HV&HR&Hpos).
  unfold updb, upd. apply wp_modify. cbn. split; [|done].
  destruct Hc as [Hd Hbn]. apply (cache_set s me pr H V R); cbn; [done..| | | |by left; rewrite Hbn|apply Hca].
  - rewrite Hi. split; cbn; [done..| |lia]. right. rewrite Hbn, setv_same, HV in *.
    destruct H4 as [[_ H4]|(_&?&_&?)]; [lia|done].
  - done.
  - intros b' Hb'. rewrite Hbn in Hb'. by rewrite setv_ne.
Qed.

Lemma holds_run s me pr H V R i b :
  cache s me pr H V R -> H !! i = Some b ->
  holdingsleep (block_lock i) s = Ok true (settled s (bs_buf s)).
Proof.
  intros Hca Hi. destruct (cache_held _ _ _ _ _ _ _ _ Hca Hi) as (Hb&_&[H1 H2 _ _ _]&_).
  pose proof (ca_quiet _ _ _ _ _ _ Hca) as [Hc Hr Hp _ _]. destruct H2 as (_&_&_&Hl&Hpid).
  rewrite (holdingsleep_run (k:=15) (block_lock i) s me); [|done..]. cbn. rewrite Hl, Hpid, Hp, Z.eqb_refl. done.
Qed.

Lemma bwrite_spec s me pr H V R i b :
  cache s me pr H V R -> H !! i = Some b ->
  wp (bwrite i) (fun _ s' => cache s' me pr H V R /\ bs_disk s' = dwrite (bs_disk s) b (V b)) s.
Proof.
  intros Hca Hi. destruct (cache_held _ _ _ _ _ _ _ _ Hca Hi) as (Hb&Hc&[H1 H2 H3 H4 H5]&HV&HR&Hpos).
  pose proof Hc as [Hd Hbn]. unfold bwrite. apply wp_bind. eapply wp_ok; [by eapply holds_run|]. cbn [negb].
  unfold disk_rw, getb. apply wp_bind, wp_gets, wp_modify. cbn. rewrite Hbn, HV. split; [|done].
  unfold set_disk, settled. cbn. rewrite <- (vinsert_same i (bs_buf s !!! i) (bs_buf s)) at 1 by done.
  apply (cache_set s me pr H V R); [done..| | | |by left; rewrite Hbn|apply settle_quiet, Hca].
  - rewrite Hi. split; [done..|lia].
  - done.
  - intros b' Hb'. rewrite Hbn in Hb'. by rewrite dread_dwrite, setv_ne.
Qed.

(** [bpin] and [bunpin]: the reference count changes under the list's lock. *)
Lemma repin_run {dp : Depth} s me pr H V R i n :
  cache s me pr H V R ->
  (acquire bcache_lock ;; updb i (fun x => set_brefcnt (u32 (b_refcnt x + n)) x) ;; release bcache_lock) s =
    Ok tt (settled s (vinsert i (set_brefcnt (u32 (b_refcnt (bs_buf s !!! i) + n)) (bs_buf s !!! i)) (bs_buf s))).
Proof.
  intros Hca. pose proof (ca_quiet _ _ _ _ _ _ Hca) as Hq.
  erewrite bind_ok by (apply (acquire_run bcache_lock), Hq). unfold updb, upd, modify. erewrite bind_ok by done. cbn.
  rewrite (release_run bcache_lock); cbn; [|apply holding_taken|done|by eapply push_noff, Hq].
  rewrite pop_push, freed_taken by apply Hq. done.
Qed.

Lemma repin_spec {dp : Depth} s me pr H V R i b n :
  cache s me pr H V R -> H !! i = Some b -> 0 < R b + n < 2 ^ 32 ->
  wp (acquire bcache_lock ;; updb i (fun x => set_brefcnt (u32 (b_refcnt x + n)) x) ;; release bcache_lock)
    (fun _ s' => cache s' me pr H V (bump R b n) /\ bs_disk s' = bs_disk s /\ bs_cpu s' = settle (bs_cpu s)) s.
Proof.
  intros Hca Hi Hn. destruct (cache_held _ _ _ _ _ _ _ _ Hca Hi) as (Hb&Hc&[H1 H2 H3 H4 H5]&HV&HR&Hpos).
  pose proof Hc as [Hd Hbn]. eapply wp_ok; [by eapply repin_run|]. split; [|done].
  rewrite HR, u32_small by lia. apply (cache_set s me pr H V R); cbn;
    [done..| |done| |by left; rewrite Hbn|apply settle_quiet, Hca].
  - rewrite Hi. split; cbn; [done|by split_and!; try apply H2; try lia|lia| |lia].
    right. rewrite Hbn, bump_same, HV. destruct H4 as [[_ H4]|(_&?&_)]; [lia|done].
  - intros b' Hb'. rewrite Hbn in Hb'. by rewrite bump_ne.
Qed.

Lemma bpin_spec {dp : Depth} s me pr H V R i b :
  cache s me pr H V R -> H !! i = Some b -> R b + 1 < 2 ^ 32 ->
  wp (bpin i) (fun _ s' => cache s' me pr H V (bump R b 1) /\ bs_disk s' = bs_disk s /\ bs_cpu s' = settle (bs_cpu s)) s.
Proof.
  intros Hca Hi Hn. destruct (cache_held _ _ _ _ _ _ _ _ Hca Hi) as (_&_&_&_&_&?).
  apply (repin_spec s me pr H V R i b 1); [done..|lia].
Qed.

Lemma bunpin_spec s me pr H V R i b :
  cache s me pr H V R -> H !! i = Some b -> 1 < R b ->
  wp (bunpin i) (fun _ s' => cache s' me pr H V (bump R b (-1)) /\ bs_disk s' = bs_disk s) s.
Proof.
  intros Hca Hi Hn. destruct (cache_held _ _ _ _ _ _ _ _ Hca Hi) as (_&_&_&_&_&?).
  eapply wp_mono; [apply (repin_spec s me pr H V R i b (-1)); [done..|lia]|]. by intros [] t (?&?&_).
Qed.

(** * Releasing *)

Abbreviation bufs := (vec buf (S NBUF)).

(** [brelse] moves the buffer [i] to the front of the list. *)
Definition unlink (i : bufp) (v : bufs) : bufs :=
  let v1 := vinsert (b_next (v !!! i)) (set_bprev (b_prev (v !!! i)) (v !!! b_next (v !!! i))) v in
  vinsert (b_prev (v1 !!! i)) (set_bnext (b_next (v1 !!! i)) (v1 !!! b_prev (v1 !!! i))) v1.
Definition push_front (i : bufp) (v : bufs) : bufs :=
  let v1 := vinsert i (set_bnext (b_next (v !!! bhead)) (v !!! i)) v in
  let v2 := vinsert i (set_bprev bhead (v1 !!! i)) v1 in
  let v3 := vinsert (b_next (v2 !!! bhead)) (set_bprev i (v2 !!! b_next (v2 !!! bhead))) v2 in
  vinsert bhead (set_bnext i (v3 !!! bhead)) v3.

(** A buffer without its links. *)
Definition content (x : buf) : buf := set_bnext bhead (set_bprev bhead x).

Lemma nextf_set_next v i j : forall k, nextf (vinsert i (set_bnext j (v !!! i)) v) k = upd_fun (nextf v) i j k.
Proof. intros k. unfold nextf, upd_fun. rewrite vlookup_vinsert. repeat case_decide; by subst. Qed.
Lemma nextf_set_prev v i j : forall k, nextf (vinsert i (set_bprev j (v !!! i)) v) k = nextf v k.
Proof. intros k. unfold nextf. rewrite vlookup_vinsert. case_decide; by subst. Qed.
Lemma prevf_set_prev v i j : forall k, prevf (vinsert i (set_bprev j (v !!! i)) v) k = upd_fun (prevf v) i j k.
Proof. intros k. unfold prevf, upd_fun. rewrite vlookup_vinsert. repeat case_decide; by subst. Qed.
Lemma prevf_set_next v i j : forall k, prevf (vinsert i (set_bnext j (v !!! i)) v) k = prevf v k.
Proof. intros k. unfold prevf. rewrite vlookup_vinsert. case_decide; by subst. Qed.
Lemma content_set_next (v : bufs) i j k : content (vinsert i (set_bnext j (v !!! i)) v !!! k) = content (v !!! k).
Proof. rewrite vlookup_vinsert. case_decide; by subst. Qed.
Lemma content_set_prev (v : bufs) i j k : content (vinsert i (set_bprev j (v !!! i)) v !!! k) = content (v !!! k).
Proof. rewrite vlookup_vinsert. case_decide; by subst. Qed.

Lemma content_push i v k : content (push_front i (unlink i v) !!! k) = content (v !!! k).
Proof. unfold push_front, unlink. by rewrite content_set_next, content_set_prev, content_set_prev, !content_set_next, content_set_prev. Qed.

Lemma unlink_links i v : b_next (v !!! i) <> i ->
  (forall k, nextf (unlink i v) k = upd_fun (nextf v) (prevf v i) (nextf v i) k) /\
  (forall k, prevf (unlink i v) k = upd_fun (prevf v) (nextf v i) (prevf v i) k).
Proof.
  intros Hn. unfold unlink. 
  set (v1 := vinsert (b_next (v !!! i)) (set_bprev (b_prev (v !!! i)) (v !!! b_next (v !!! i))) v).
  assert (Hv1 : v1 !!! i = v !!! i) by (unfold v1; by rewrite vlookup_insert_ne).
  rewrite Hv1. split; intros k.
  - rewrite nextf_set_next. apply upd_fun_ext, nextf_set_prev.
  - rewrite prevf_set_next. apply prevf_set_prev.
Qed.

Lemma push_links i v : i <> bhead ->
  (forall k, nextf (push_front i v) k = upd_fun (upd_fun (nextf v) i (nextf v bhead)) bhead i k) /\
  (forall k, prevf (push_front i v) k = upd_fun (upd_fun (prevf v) i bhead) (nextf v bhead) i k).
Proof.
  intros Hi. unfold push_front. set (v1 := vinsert i (set_bnext (b_next (v !!! bhead)) (v !!! i)) v).
  set (v2 := vinsert i (set_bprev bhead (v1 !!! i)) v1).
  assert (H2 : v2 !!! bhead = v !!! bhead) by (unfold v2, v1; by rewrite !vlookup_insert_ne).
  rewrite H2. set (v3 := vinsert (b_next (v !!! bhead)) (set_bprev i (v2 !!! b_next (v !!! bhead))) v2).
  assert (Hn : forall k, nextf v3 k = upd_fun (nextf v) i (nextf v bhead) k).
  { intros k. unfold v3, v2, v1. rewrite !nextf_set_prev, nextf_set_next. done. }
  assert (Hp : forall k, prevf v3 k = upd_fun (upd_fun (prevf v) i bhead) (nextf v bhead) i k).
  { intros k. unfold v3. rewrite prevf_set_prev. apply upd_fun_ext. intros y.
    unfold v2. rewrite prevf_set_prev. apply upd_fun_ext, prevf_set_next. }
  split; intros k.
  - rewrite nextf_set_next. by apply upd_fun_ext.
  - rewrite prevf_set_next. apply Hp.
Qed.

(** The buffer is then the most recently used one. *)
Lemma relink_lru v order i :
  lru v order -> i <> bhead ->
  exists order', lru (push_front i (unlink i v)) (i :: order') /\ i :: order' ≡ₚ order.
Proof.
  intros [Hl Hd Ha] Hi. destruct (list_elem_of_split order i (Ha i Hi)) as (l1&l2&->).
  rewrite <- app_assoc in Hl. destruct (links_unlink _ _ _ _ _ _ Hd Hl) as [Hni Hl'].
  destruct (unlink_links i v Hni) as [HN HP]. destruct (push_links i (unlink i v) Hi) as [HN' HP'].
  assert (Hd' : NoDup (i :: bhead :: l1 ++ l2)).
  { assert (Hp : i :: bhead :: l1 ++ l2 ≡ₚ bhead :: l1 ++ i :: l2) by (by rewrite <- Permutation_middle, Permutation_swap).
    by rewrite Hp. }
  apply NoDup_cons in Hd' as [Hil Hd']. rewrite elem_of_cons in Hil.
  exists (l1 ++ l2). split; [|apply Permutation_middle]. split.
  - cbn [app]. eapply links_ext; [intros k _; apply HN'|intros k _; apply HP'|].
    apply links_push; [done|done|tauto|]. rewrite <- app_assoc.
    eapply links_ext; [intros k _; apply HN|intros k _; apply HP|done].
  - rewrite NoDup_cons, NoDup_cons in *. rewrite elem_of_cons. intuition.
  - intros j Hj. specialize (Ha j Hj). rewrite elem_of_app, elem_of_cons in Ha. rewrite elem_of_cons, elem_of_app. tauto.
Qed.

Lemma cache_relink s me pr H V R v :
  cache s me pr H V R -> (forall k, content (v !!! k) = content (bs_buf s !!! k)) -> (exists order, lru v order) ->
  cache (Bst (bs_cpu s) (bs_ptab s) (bs_lock s) v (bs_disk s)) me pr H V R.
Proof.
  intros [Hq _ Hb Hh Hu Ho] Hv Hl.
  assert (Hf : forall k, exists p n, v !!! k = set_bnext n (set_bprev p (bs_buf s !!! k))).
  { intros k. specialize (Hv k). exists (b_prev (v !!! k)), (b_next (v !!! k)).
    destruct (v !!! k), (bs_buf s !!! k). unfold content in Hv. cbn in *. by simplify_eq. }
  assert (Hc : forall k b, caches (v !!! k) ROOTDEV b <-> caches (bs_buf s !!! k) ROOTDEV b).
  { intros k b. by destruct (Hf k) as (p&n&->). }
  split; cbn; [done..| |done| |].
  - intros i Hi. destruct (Hf i) as (p&n&->). destruct (Hb i Hi). by split.
  - intros i j b. rewrite !Hc. apply Hu.
  - intros b Hno. apply Ho. intros i Hi. rewrite <- Hc. by apply Hno.
Qed.

Lemma cache_env {j dp : Depth} s me pr H V R c pt :
  cache (dp:=j) s me pr H V R -> quiet (dp:=dp) c (bs_lock s) (pt_proc pt) me pr ->
  cache (dp:=dp) (Bst c pt (bs_lock s) (bs_buf s) (bs_disk s)) me pr H V R.
Proof. intros [_ Hl Hb Hh Hu Ho] Hq. by split. Qed.

(** Another entry for the process, of the same process id. *)
Lemma cache_proc s me pr H V R pr' pt :
  cache s me pr H V R -> p_pid pr' = p_pid pr -> quiet (bs_cpu s) (bs_lock s) (pt_proc pt) me pr' ->
  cache (Bst (bs_cpu s) pt (bs_lock s) (bs_buf s) (bs_disk s)) me pr' H V R.
Proof. intros [_ Hl Hb Hh Hu Ho] E Hq. split; try done. by rewrite E. Qed.

Lemma quiet_wake {dp : Depth} c lk v me pr chan :
  quiet c lk v me pr -> quiet c lk (wake_all chan (Some me) v) me pr.
Proof.
  intros [Hc Hr Hp Hl Hs]. split; [done..| | done|]; [|intros i; specialize (Hs i)];
    unfold wake_all; rewrite lookup_fun_to_vec; unfold woken; [by rewrite bool_decide_eq_true_2|by destruct (_ && _)].
Qed.

(** The buffer [x] unlocked, with one reference less. *)
Definition unlocked (x : buf) : buf := set_block_lock (set_slpid 0 (set_sllocked 0 (b_lock x))) x.
Definition dropped (x : buf) : buf := set_brefcnt (u32 (b_refcnt (unlocked x) - 1)) (unlocked x).
Definition released (i : bufp) (v : bufs) : bufs :=
  let v' := vinsert i (dropped (v !!! i)) v in
  if b_refcnt (v' !!! i) =? 0 then push_front i (unlink i v') else v'.

Lemma brelse_front_run i s :
  brelse_front i s =
    Ok tt (Bst (bs_cpu s) (bs_ptab s) (bs_lock s) (push_front i (unlink i (bs_buf s))) (bs_disk s)).
Proof. done. Qed.

Lemma brelse_run s me pr H V R i b :
  cache s me pr H V R -> H !! i = Some b ->
  brelse i s = Ok tt (Bst (settle (bs_cpu s))
    (put pt_procL (wake_all (buf_obj i) (Some me) (pt_proc (bs_ptab s))) (bs_ptab s))
    (bs_lock s) (released i (bs_buf s)) (bs_disk s)).
Proof.
  intros Hca Hi. destruct (cache_held _ _ _ _ _ _ _ _ Hca Hi) as (Hb&_&[H1 _ _ _ _]&_).
  pose proof (ca_quiet _ _ _ _ _ _ Hca) as [Hc Hr Hp Hlk Hpr].
  unfold brelse. erewrite bind_ok by (by eapply holds_run). cbn [negb].
  erewrite bind_ok.
  2:{ eapply (releasesleep_run (block_lock i) (buf_obj i) _ me); cbn.
      - by apply settle_ok.
      - unfold running. cbn. by rewrite settle_proc.
      - done.
      - intros j _. apply Hpr. }
  cbn. rewrite settle_idem.
  erewrite bind_ok by (apply (acquire_run bcache_lock), Hlk). cbn.
  rewrite !vlookup_insert, vinsert_twice. fold (unlocked (bs_buf s !!! i)). fold (dropped (bs_buf s !!! i)).
  set (v' := vinsert i (dropped (bs_buf s !!! i)) (bs_buf s)).
  set (pt := Ptab _ _ _ _ _). set (c := push _). set (lk := taken _ _).
  rewrite (bind_ok _ _ _ tt (Bst c pt lk (released i (bs_buf s)) (bs_disk s))).
  2:{ unfold released. fold v'. rewrite (vlookup_insert i (dropped (bs_buf s !!! i)) (bs_buf s) : v' !!! i = _).
      destruct (_ =? 0); [exact (brelse_front_run i (Bst c pt lk v' (bs_disk s)))|done]. }
  rewrite (release_run bcache_lock); [|apply holding_taken|done|by eapply push_noff, settle_ok].
  cbn. unfold c, lk. rewrite pop_push, settle_idem, freed_taken by (done || by apply settle_ok). done.
Qed.

Lemma brelse_spec s me pr H V R i b :
  cache s me pr H V R -> H !! i = Some b -> 1 < R b \/ V b = dread (bs_disk s) b ->
  wp (brelse i) (fun _ s' => cache s' me pr (delete i H) V (bump R b (-1)) /\ bs_disk s' = bs_disk s) s.
Proof.
  intros Hca Hi Hcl. destruct (cache_held _ _ _ _ _ _ _ _ Hca Hi) as (Hb&[Hd Hbn]&[H1 H2 H3 H4 H5]&HV&HR&Hpos).
  eapply wp_ok; [by eapply brelse_run|]. split; [|done].
  assert (Hu : u32 (b_refcnt (bs_buf s !!! i) - 1) = R b - 1) by (rewrite u32_small; lia).
  assert (Hca' : cache (Bst (bs_cpu s) (bs_ptab s) (bs_lock s) (vinsert i (dropped (bs_buf s !!! i)) (bs_buf s)) (bs_disk s))
    me pr (delete i H) V (bump R b (-1))).
  { apply (cache_set s me pr H V R); cbn; [done..| | | |by left; rewrite Hbn|apply Hca].
    - rewrite lookup_delete_eq. split; cbn; [done|done|lia| |].
      + right. rewrite Hu, Hbn, bump_same, HV. destruct H4 as [[_ H4]|(_&?&_)]; [lia|done].
      + intros _ Hz. rewrite Hbn, HV. destruct Hcl as [?|Hcl]; [lia|done].
    - intros j Hj. by rewrite lookup_delete_ne.
    - intros b' Hb'. rewrite Hbn in Hb'. by rewrite bump_ne. }
  apply (cache_env _ _ _ _ _ _ (settle (bs_cpu s)) (put pt_procL (wake_all (buf_obj i) (Some me) (pt_proc (bs_ptab s))) (bs_ptab s)))
    in Hca'; [|apply quiet_wake, settle_quiet, Hca].
  cbn in Hca'. pose proof (ca_lru _ _ _ _ _ _ Hca') as [order Hlru].
  unfold released. destruct (_ =? 0); [|done].
  eapply cache_relink in Hca'; [exact Hca'|intros k; apply content_push|].
  destruct (relink_lru _ _ i Hlru Hb) as (o&Ho&_). by eexists.
Qed.

(** * Initialisation *)

(** One round of [binit]'s loop: the buffer [i] enters the list, with a new lock. *)
Definition new_lock : sleeplock := Sleeplock 0 (Spinlock 0 "sleep lock" None) "buffer" 0.
Definition entered (i : bufp) (v : bufs) : bufs :=
  let v1 := vinsert i (set_bnext (b_next (v !!! bhead)) (v !!! i)) v in
  let v2 := vinsert i (set_bprev bhead (v1 !!! i)) v1 in
  let v2' := vinsert i (set_block_lock new_lock (v2 !!! i)) v2 in
  let v3 := vinsert (b_next (v2' !!! bhead)) (set_bprev i (v2' !!! b_next (v2' !!! bhead))) v2' in
  vinsert bhead (set_bnext i (v3 !!! bhead)) v3.

Lemma entered_push i v : i <> bhead ->
  entered i v = push_front i (vinsert i (set_block_lock new_lock (v !!! i)) v).
Proof.
  intros Hi. assert (Hh : forall x (w : bufs), vinsert i x w !!! bhead = w !!! bhead) by (intros; by rewrite vlookup_insert_ne).
  unfold entered, push_front. cbv zeta. by rewrite !Hh, !vlookup_insert, !vinsert_twice.
Qed.

Lemma binit_one_run k s :
  binit_one k s = Ok tt (Bst (bs_cpu s) (bs_ptab s) (bs_lock s) (entered (FS k) (bs_buf s)) (bs_disk s)).
Proof.
  unfold binit_one, initsleeplock, initlock, bind, getb, gets, updb, upd, modify, entered. cbn [bs_buf].
  generalize (FS k : bufp) as b. intros b. cbn. rewrite !vlookup_insert, !vinsert_twice. done.
Qed.

(** The cache after the buffers [l] entered the list. *)
Record entering (s0 : bst) (l : list (fin NBUF)) (s : bst) : Prop := {
  en_disk : bs_disk s = bs_disk s0;
  en_lock : idle (bs_lock s);
  en_links : links (nextf (bs_buf s)) (prevf (bs_buf s)) (bhead :: reverse (FS <$> l) ++ [bhead]);
  en_buf k : b_dev (bs_buf s !!! (FS k : bufp)) = 0 /\ b_refcnt (bs_buf s !!! (FS k : bufp)) = 0 /\
             (k ∈ l -> b_lock (bs_buf s !!! (FS k : bufp)) = new_lock);
}.

Lemma content_dev x y : content x = content y ->
  b_dev x = b_dev y /\ b_refcnt x = b_refcnt y /\ b_lock x = b_lock y.
Proof. destruct x, y. unfold content. cbn. by intros [=]. Qed.

Lemma content_push_front i v k : content (push_front i v !!! k) = content (v !!! k).
Proof. unfold push_front. by rewrite content_set_next, !content_set_prev, content_set_next. Qed.

Lemma entered_links i v l :
  i <> bhead -> NoDup (bhead :: l) -> i ∉ l -> links (nextf v) (prevf v) (bhead :: l ++ [bhead]) ->
  links (nextf (entered i v)) (prevf (entered i v)) (bhead :: i :: l ++ [bhead]).
Proof.
  intros Hi Hd Hil Hl. rewrite entered_push by done. set (w := vinsert i _ v).
  assert (Hn : forall k, nextf w k = nextf v k).
  { intros k. unfold nextf, w. rewrite vlookup_vinsert. case_decide; by subst. }
  assert (Hp : forall k, prevf w k = prevf v k).
  { intros k. unfold prevf, w. rewrite vlookup_vinsert. case_decide; by subst. }
  destruct (push_links i w Hi) as [HN HP].
  eapply links_ext; [intros k _; apply HN|intros k _; apply HP|]. apply links_push; [done..|].
  eapply links_ext; [intros k _; apply Hn|intros k _; apply Hp|done].
Qed.

Lemma NoDup_entered (l : list (fin NBUF)) : NoDup l -> NoDup (bhead :: reverse (FS <$> l)).
Proof.
  intros Hl. rewrite reverse_Permutation. apply NoDup_cons. split; [by intros (y&?&_)%list_elem_of_fmap|].
  apply NoDup_fmap; [apply _|done].
Qed.

Lemma entering_step s0 l s k :
  NoDup (l ++ [k]) -> entering s0 l s ->
  entering s0 (l ++ [k]) (Bst (bs_cpu s) (bs_ptab s) (bs_lock s) (entered (FS k) (bs_buf s)) (bs_disk s)).
Proof.
  intros (Hnd&Hk&_)%NoDup_app [Hd Hlk Hl Hb]. split; cbn [bs_buf bs_disk bs_lock]; [done..| |].
  - rewrite fmap_app, reverse_app. apply (entered_links (FS k) (bs_buf s) (reverse (FS <$> l))); [done| | |done].
    + by apply NoDup_entered.
    + intros (y&E%(inj FS)&Hy)%elem_of_reverse%list_elem_of_fmap. subst. apply (Hk y Hy). by left.
  - intros j. rewrite entered_push by done. 
    destruct (content_dev _ _ (content_push_front (FS k) (vinsert (FS k) (set_block_lock new_lock (bs_buf s !!! (FS k : bufp))) (bs_buf s)) (FS j)))
      as (->&->&->). rewrite vlookup_vinsert. destruct (Hb j) as (H1&H2&H3).
    case_decide as E; [apply (inj FS) in E; subst; cbn; tauto|]. split_and!; [done..|].
    intros [Hj|Hj]%elem_of_app; [tauto|]. apply list_elem_of_singleton in Hj. by subst.
Qed.

(** [binit] on the zeroed kernel data makes an empty cache: every block has its
    content on the disk and no references. *)
Lemma binit_spec s0 :
  (forall k, b_dev (bs_buf s0 !!! (FS k : bufp)) = 0 /\ b_refcnt (bs_buf s0 !!! (FS k : bufp)) = 0) ->
  wp binit (fun _ s => bs_disk s = bs_disk s0 /\ idle (bs_lock s) /\ forall c pt me pr,
    quiet c (bs_lock s) (pt_proc pt) me pr ->
    cache (Bst c pt (bs_lock s) (bs_buf s) (bs_disk s)) me pr ∅ (dread (bs_disk s0)) (fun _ => 0)) s0.
Proof.
  intros Hz. unfold binit. do 3 (apply wp_bind; eapply wp_ok; [reflexivity|]). 
  cbn [put view bufsL arrL bcache_lock bs_cpu bs_ptab bs_lock bs_buf bs_disk]. eapply wp_mono.
  { apply (wp_forM _ _ (entering s0)).
    - split; cbn [bs_lock bs_buf bs_disk]; [done..| |].
      + rewrite vlookup_insert, vinsert_twice. cbn [fmap list_fmap reverse rev_append app links]. unfold nextf, prevf. by rewrite vlookup_insert.
      + intros k. rewrite !vlookup_insert_ne by done. destruct (Hz k). split_and!; [done..|]. by intros ?%elem_of_nil.
    - intros l k l2 s E HI. eapply wp_ok; [apply binit_one_run|]. apply (entering_step s0 l s k); [|done].
      assert (NoDup ((l ++ [k]) ++ l2)) as Hnd by (rewrite <- app_assoc; cbn; rewrite <- E; apply NoDup_indices).
      by apply NoDup_app in Hnd as (?&_). }
  intros [] s [Hd Hlk Hl Hb]. split; [done|]. split; [done|]. intros c pt me pr Hq.
  assert (Hnc : forall i b, i <> bhead -> ~ caches (bs_buf s !!! i) ROOTDEV b).
  { intros i b Hi [Hdev _]. inv_fin i; [done|]. intros k _ Hdev. destruct (Hb k) as [Hb0 _]. by rewrite Hdev in Hb0. }
  split; cbn; [done| | |done| |].
  - exists (reverse (FS <$> indices NBUF)). split; [done| |].
    + apply NoDup_entered, NoDup_indices.
    + intros i Hi. apply elem_of_reverse. inv_fin i; [done|]. intros k _. apply list_elem_of_fmap_2, elem_of_indices.
  - intros i Hi. rewrite lookup_empty. inv_fin i; [done|]. intros k _. destruct (Hb k) as (H1&H2&H3).
    specialize (H3 (elem_of_indices k)). split; rewrite ?H1, ?H2, ?H3; [done..|lia|by left|done].
  - intros i j b Hi _ Hc _. by destruct (Hnc i b Hi).
  - intros b _. by rewrite Hd.
Qed.

(** * The abstract state is extensional *)

Lemma cache_ext {dp : Depth} s me pr H V R V' R' :
  cache s me pr H V R -> (forall b, V' b = V b) -> (forall b, R' b = R b) -> cache s me pr H V' R'.
Proof.
  intros [Hq Hl Hb Hh Hu Ho] HV HR. split; [done..| |done|done|].
  - intros i Hi. destruct (Hb i Hi). split; [done..| |done]. by rewrite HV, HR.
  - intros b. rewrite HV, HR. apply Ho.
Qed.

Lemma room_mono R R' : room R -> (forall b, 0 < R' b -> 0 < R b) -> room R'.
Proof. intros (L&HL&HR) Hm. exists L. split; [done|]. intros b Hb. by apply HR, Hm. Qed.

Lemma bump_bump R b n m x : bump (bump R b n) b m x = bump R b (n + m) x.
Proof. unfold bump. destruct (Z.eqb_spec x b); [|done]. rewrite Z.eqb_refl. lia. Qed.

Lemma bump_0 R b x : bump R b 0 x = R x.
Proof. unfold bump. destruct (Z.eqb_spec x b); [subst; lia|done]. Qed.
