(* ===== verification/Log.v ===== *)
(** The write-ahead log: [src/kernel/log.c].

    The state is the buffer cache and [struct log log]. [struct logheader] in
    the header block is its little-endian image: [n] in bytes 0 to 3 and
    [block[i]] in the four bytes from [4 + 4 * i]; the other bytes of the block
    are whatever they were. Entries of [log.lh.block] outside its [LOGSIZE]
    elements are not memory of the array: an access there is a fault. *)

From S2P Require Import Prelude Params Spinlock Sched Sleeplock Bio.
Local Open Scope kernel_scope.

(** * Data *)

(** [struct superblock] of [src/kernel/fs.h] *)
Record superblock : Type := Superblock {
  sb_magic : Z;
  sb_size : Z;
  sb_nblocks : Z;
  sb_ninodes : Z;
  sb_nlog : Z;
  sb_logstart : Z;
  sb_inodestart : Z;
  sb_bmapstart : Z;
}.

(** [struct log] with its [struct logheader]. *)
Record log : Type := Log {
  lg_lock : spinlock;
  lg_start : Z;
  lg_size : Z;
  lg_outstanding : Z;
  lg_committing : Z;
  lg_dev : Z;
  lg_n : Z;
  lg_block : list Z;
}.

Definition set_lglock (k : spinlock) (l : log) : log :=
  Log k (lg_start l) (lg_size l) (lg_outstanding l) (lg_committing l) (lg_dev l) (lg_n l) (lg_block l).
Definition set_start (x : Z) (l : log) : log :=
  Log (lg_lock l) x (lg_size l) (lg_outstanding l) (lg_committing l) (lg_dev l) (lg_n l) (lg_block l).
Definition set_size (x : Z) (l : log) : log :=
  Log (lg_lock l) (lg_start l) x (lg_outstanding l) (lg_committing l) (lg_dev l) (lg_n l) (lg_block l).
Definition set_outstanding (x : Z) (l : log) : log :=
  Log (lg_lock l) (lg_start l) (lg_size l) x (lg_committing l) (lg_dev l) (lg_n l) (lg_block l).
Definition set_committing (x : Z) (l : log) : log :=
  Log (lg_lock l) (lg_start l) (lg_size l) (lg_outstanding l) x (lg_dev l) (lg_n l) (lg_block l).
Definition set_lgdev (x : Z) (l : log) : log :=
  Log (lg_lock l) (lg_start l) (lg_size l) (lg_outstanding l) (lg_committing l) x (lg_n l) (lg_block l).
Definition set_lhn (x : Z) (l : log) : log :=
  Log (lg_lock l) (lg_start l) (lg_size l) (lg_outstanding l) (lg_committing l) (lg_dev l) x (lg_block l).
Definition set_lhblock (x : list Z) (l : log) : log :=
  Log (lg_lock l) (lg_start l) (lg_size l) (lg_outstanding l) (lg_committing l) (lg_dev l) (lg_n l) x.

Record lst : Type := Lst { ls_b : bst; ls_log : log }.

Definition bioL : lens lst bst := Lens ls_b (fun b s => Lst b (ls_log s)).
Definition logL : lens lst log := Lens ls_log (fun l s => Lst (ls_b s) l).
Definition lg_lockL : lens log spinlock := Lens lg_lock set_lglock.
Definition log_lock : lens lst spinlock := lens_comp logL lg_lockL.
#[export] Instance lst_cpu : HasCpu lst := lens_comp bioL (cpuL (S:=bst)).
#[export] Instance lst_ptab : HasPtab lst := lens_comp bioL (ptabL (S:=bst)).
#[export] Instance lst_swtch : HasSwtch lst := swtch_stop.
#[export] Instance bioL_ok : LensOk bioL.
Proof. solve_lens. Qed.
#[export] Instance logL_ok : LensOk logL.
Proof. solve_lens. Qed.
#[export] Instance lg_lockL_ok : LensOk lg_lockL.
Proof. solve_lens. Qed.
#[export] Instance bio_log_disj : LensDisj bioL logL.
Proof. solve_lens. Qed.
#[export] Instance log_lock_ok : LensOk log_lock.
Proof. unfold log_lock. apply _. Qed.
#[export] Instance lst_cpu_ok : LensOk (cpuL (S:=lst)).
Proof. apply (lens_comp_ok bioL (cpuL (S:=bst))); apply _. Qed.
#[export] Instance lst_ptab_ok : LensOk (ptabL (S:=lst)).
Proof. apply (lens_comp_ok bioL (ptabL (S:=bst))); apply _. Qed.
#[export] Instance lst_cpu_ptab : LensDisj (cpuL (S:=lst)) ptabL.
Proof. solve_lens. Qed.
#[export] Instance lst_cpu_lock : LensDisj (cpuL (S:=lst)) log_lock.
Proof. solve_lens. Qed.

Definition bio {A} (m : M bst A) : M lst A := zoom bioL m.
(** [bread(dev, blockno)] with [int] arguments for its [uint] parameters. *)
Definition breadi (dev blockno : Z) : M lst bufp := bio (bread (u32 dev) (u32 blockno)).
Definition getlog : M lst log := gets ls_log.
Definition updlog (f : log -> log) : M lst unit := upd logL f.

(** [struct logheader *] into a block *)
Definition hdr_n (d : list Z) : Z := s32 (get_le 4 d 0).
Definition hdr_block (d : list Z) (i : Z) : Z := s32 (get_le 4 d (Z.to_nat (4 + 4 * i))).
Definition put_n (v : Z) (d : list Z) : list Z := put_le 4 d 0 v.
Definition put_block (i v : Z) (d : list Z) : list Z := put_le 4 d (Z.to_nat (4 + 4 * i)) v.

(** [log.lh.block[i]] *)
Definition get_lhblock (i : Z) : M lst Z :=
  l <- getlog ;;
  match (if i <? 0 then None else lg_block l !! Z.to_nat i) with
  | Some b => ret b
  | None => fault "log.lh.block"
  end.
Definition put_lhblock (i b : Z) : M lst unit :=
  l <- getlog ;;
  if (0 <=? i) && (i <? Z.of_nat (length (lg_block l)))
  then updlog (fun l => set_lhblock (<[Z.to_nat i := b]> (lg_block l)) l)
  else fault "log.lh.block".

(** [memmove(to->data, from->data, BSIZE)]: all of the data. *)
Definition copy_data (to from : bufp) : M lst unit :=
  x <- bio (getb from) ;;
  bio (updb to (set_bdata (b_data x))).

(** * Recovery and commit *)

Definition install_one (recovering tail : Z) : M lst unit :=
  l <- getlog ;;
  lbuf <- breadi (lg_dev l) (lg_start l + tail + 1) ;;
  b <- get_lhblock tail ;;
  dbuf <- breadi (lg_dev l) b ;;
  copy_data dbuf lbuf ;;
  bio (bwrite dbuf) ;;
  when (recovering =? 0) (bio (bunpin dbuf)) ;;
  bio (brelse lbuf) ;;
  bio (brelse dbuf).
Definition install_trans (recovering : Z) : M lst unit :=
  l <- getlog ;;
  forM (seqZ 0 (lg_n l)) (install_one recovering).

Definition read_head : M lst unit :=
  l <- getlog ;;
  buf <- breadi (lg_dev l) (lg_start l) ;;
  x <- bio (getb buf) ;;
  updlog (set_lhn (hdr_n (b_data x))) ;;
  l <- getlog ;;
  forM (seqZ 0 (lg_n l)) (fun i => put_lhblock i (hdr_block (b_data x) i)) ;;
  bio (brelse buf).

Definition write_head_entry (buf : bufp) (i : Z) : M lst unit :=
  b <- get_lhblock i ;;
  bio (updb buf (fun x => set_bdata (put_block i b (b_data x)) x)).
Definition write_head : M lst unit :=
  l <- getlog ;;
  buf <- breadi (lg_dev l) (lg_start l) ;;
  bio (updb buf (fun x => set_bdata (put_n (lg_n l) (b_data x)) x)) ;;
  forM (seqZ 0 (lg_n l)) (write_head_entry buf) ;;
  bio (bwrite buf) ;;
  bio (brelse buf).

Definition recover_from_log : M lst unit :=
  read_head ;;
  install_trans 1 ;;
  updlog (set_lhn 0) ;;
  write_head.

(** [sizeof(struct logheader)] *)
Definition sizeof_logheader : Z := 4 + 4 * LOGSIZE.

Definition initlog (dev : Z) (sb : superblock) : M lst unit :=
  if BSIZE <=? sizeof_logheader then panic "initlog: too big logheader" else
  initlock log_lock "log" ;;
  updlog (set_start (s32 (sb_logstart sb))) ;;
  updlog (set_size (s32 (sb_nlog sb))) ;;
  updlog (set_lgdev dev) ;;
  recover_from_log.

Definition write_log_one (tail : Z) : M lst unit :=
  l <- getlog ;;
  to <- breadi (lg_dev l) (lg_start l + tail + 1) ;;
  b <- get_lhblock tail ;;
  from <- breadi (lg_dev l) b ;;
  copy_data to from ;;
  bio (bwrite to) ;;
  bio (brelse from) ;;
  bio (brelse to).
Definition write_log : M lst unit :=
  l <- getlog ;;
  forM (seqZ 0 (lg_n l)) write_log_one.

Definition commit : M lst unit :=
  l <- getlog ;;
  when (0 <? lg_n l)
    (write_log ;;
     write_head ;;
     install_trans 0 ;;
     updlog (set_lhn 0) ;;
     write_head).

(** * Operations of a system call *)

Definition begin_op_try (_ : unit) : M lst (unit + unit) :=
  l <- getlog ;;
  if nz (lg_committing l) then sleep KLog log_lock ;; ret (inl tt)
  else if LOGSIZE <? lg_n l + (lg_outstanding l + 1) * MAXOPBLOCKS then sleep KLog log_lock ;; ret (inl tt)
  else
    updlog (fun l => set_outstanding (lg_outstanding l + 1) l) ;;
    release log_lock ;;
    ret (inr tt).
Definition begin_op : M lst unit :=
  acquire log_lock ;;
  loop begin_op_try tt.

Definition end_op : M lst unit :=
  acquire log_lock ;;
  updlog (fun l => set_outstanding (lg_outstanding l - 1) l) ;;
  l <- getlog ;;
  if nz (lg_committing l) then panic "log.committing" else
  let do_commit := lg_outstanding l =? 0 in
  (if do_commit then updlog (set_committing 1) else wakeup KLog) ;;
  release log_lock ;;
  when do_commit
    (commit ;;
     acquire log_lock ;;
     updlog (set_committing 0) ;;
     wakeup KLog ;;
     release log_lock).

(** The search of [log_write] for the block: its index, or [log.lh.n]. *)
Definition log_find (blockno i : Z) : M lst (Z + Z) :=
  l <- getlog ;;
  if negb (i <? lg_n l) then ret (inr i) else
  b <- get_lhblock i ;;
  if u32 b =? blockno then ret (inr i) else ret (inl (i + 1)).

Definition log_write (b : bufp) : M lst unit :=
  acquire log_lock ;;
  l <- getlog ;;
  if (LOGSIZE <=? lg_n l) || (lg_size l - 1 <=? lg_n l) then panic "too big a transaction" else
  if lg_outstanding l <? 1 then panic "log_write outside of trans" else
  x <- bio (getb b) ;;
  i <- loop (log_find (b_blockno x)) 0 ;;
  put_lhblock i (s32 (b_blockno x)) ;;
  when (i =? lg_n l)
    (bio (bpin b) ;;
     updlog (fun l => set_lhn (lg_n l + 1) l)) ;;
  release log_lock.
