(* ===== verification/Journal.v ===== *)
(** The log makes system calls atomic: the specification of
    [src/kernel/log.c] on top of the cache's.

    [jr] relates the state to the abstract cache, the log and the disk; the
    first part describes every operation of the log through it. *)

From stdpp Require Import gmap.
From S2P Require Import Prelude Params Spinlock Sched Sleeplock Bio Cache Log.
Local Open Scope kernel_scope.

Record jr {dp : Depth} (s : lst) (me : fin NPROC) (pr : proc) (H : gmap bufp Z) (V : blocks) (R : Z -> Z) (l : log) (d : disk) : Prop := {
  jr_cache : cache (ls_b s) me pr H V R;
  jr_log : ls_log s = l;
  jr_disk : bs_disk (ls_b s) = d;
}.

Section Ops.
Context (me : fin NPROC) (pr : proc).
Implicit Types (H : gmap bufp Z) (V : blocks) (R : Z -> Z) (l : log) (d : disk).

Lemma jr_ext s H V R l d V' R' :
  jr s me pr H V R l d -> (forall b, V' b = V b) -> (forall b, R' b = R b) -> jr s me pr H V' R' l d.
Proof. intros [Hc Hl Hd] HV HR. split; [by eapply cache_ext|done..]. Qed.

Lemma wp_getlog {dp : Depth} s H V R l d (Q : log -> lst -> Prop) : jr s me pr H V R l d -> Q l s -> wp getlog Q s.
Proof. intros [_ <- _] HQ. by apply wp_gets. Qed.

Lemma jr_updlog s H V R l d f :
  jr s me pr H V R l d -> wp (updlog f) (fun _ s' => jr s' me pr H V R (f l) d) s.
Proof. intros [Hc <- Hd]. by apply wp_modify. Qed.

Lemma jr_bread s H V R l d dev b :
  jr s me pr H V R l d -> dev = ROOTDEV -> 0 <= b < 2 ^ 32 -> (forall i, H !! i <> Some b) ->
  0 < R b \/ room R -> R b + 1 < 2 ^ 32 ->
  wp (breadi dev b) (fun i s' => H !! i = None /\ jr s' me pr (<[i:=b]> H) V (bump R b 1) l d) s.
Proof.
  intros [Hc Hl Hd] -> Hb Hh Hr Hr1. unfold breadi, bio. rewrite (u32_small b), u32_small by (done || vm_compute; lia).
  apply wp_zoom. eapply wp_mono; [by eapply bread_spec|]. intros i t (Hi&Hc'&Hd'). split; [done|].
  split; [done|done|]. cbn. by rewrite Hd'.
Qed.

Lemma jr_getb s H V R l d i b :
  jr s me pr H V R l d -> H !! i = Some b ->
  wp (bio (getb i)) (fun x s' => b_data x = V b /\ b_blockno x = b /\ jr s' me pr H V R l d) s.
Proof.
  intros Hj Hi. destruct (cache_held _ _ _ _ _ _ _ _ (jr_cache _ _ _ _ _ _ _ _ Hj) Hi) as (_&[_ Hb]&_&HV&_).
  apply wp_zoom, wp_gets. split_and!; [done..|]. by destruct Hj.
Qed.

Lemma jr_data s H V R l d i b f :
  jr s me pr H V R l d -> H !! i = Some b ->
  wp (bio (updb i (fun x => set_bdata (f (b_data x)) x))) (fun _ s' =>
    jr s' me pr H (setv V b (f (V b))) R l d) s.
Proof.
  intros [Hc Hl Hd] Hi. apply wp_zoom. eapply wp_mono; [by eapply write_data_spec|].
  intros [] t [Hc' Hd']. split; [done|done|]. cbn. by rewrite Hd'.
Qed.

Lemma jr_bwrite s H V R l d i b :
  jr s me pr H V R l d -> H !! i = Some b ->
  wp (bio (bwrite i)) (fun _ s' => jr s' me pr H V R l (dwrite d b (V b))) s.
Proof.
  intros [Hc Hl <-] Hi. apply wp_zoom. eapply wp_mono; [by eapply bwrite_spec|].
  intros [] t [Hc' Hd']. by split.
Qed.

Lemma jr_bunpin s H V R l d i b :
  jr s me pr H V R l d -> H !! i = Some b -> 1 < R b ->
  wp (bio (bunpin i)) (fun _ s' => jr s' me pr H V (bump R b (-1)) l d) s.
Proof.
  intros [Hc Hl <-] Hi Hr. apply wp_zoom. eapply wp_mono; [by eapply bunpin_spec|].
  intros [] t [Hc' Hd']. by split.
Qed.

Lemma jr_bpin {dp : Depth} s H V R l d i b :
  jr s me pr H V R l d -> H !! i = Some b -> R b + 1 < 2 ^ 32 ->
  wp (bio (bpin i)) (fun _ s' =>
    jr s' me pr H V (bump R b 1) l d /\ bs_cpu (ls_b s') = settle (bs_cpu (ls_b s))) s.
Proof.
  intros [Hc Hl <-] Hi Hr. apply wp_zoom. eapply wp_mono; [by eapply bpin_spec|].
  intros [] t (Hc'&Hd'&Hcpu). by split.
Qed.

Lemma jr_brelse s H V R l d i b :
  jr s me pr H V R l d -> H !! i = Some b -> 1 < R b \/ V b = dread d b ->
  wp (bio (brelse i)) (fun _ s' => jr s' me pr (delete i H) V (bump R b (-1)) l d) s.
Proof.
  intros [Hc Hl <-] Hi Hr. apply wp_zoom. eapply wp_mono; [by eapply brelse_spec|].
  intros [] t [Hc' Hd']. by split.
Qed.

Lemma wp_get_lhblock {dp : Depth} s H V R l d i b (Q : Z -> lst -> Prop) :
  jr s me pr H V R l d -> 0 <= i -> lg_block l !! Z.to_nat i = Some b -> Q b s -> wp (get_lhblock i) Q s.
Proof.
  intros [_ <- _] Hi Hb HQ. unfold get_lhblock, getlog. apply wp_bind, wp_gets.
  destruct (Z.ltb_spec i 0); [lia|]. rewrite Hb. by apply wp_ret.
Qed.

Lemma jr_put_lhblock s H V R l d i b :
  jr s me pr H V R l d -> 0 <= i < Z.of_nat (length (lg_block l)) ->
  wp (put_lhblock i b) (fun _ s' => jr s' me pr H V R (set_lhblock (<[Z.to_nat i := b]> (lg_block l)) l) d) s.
Proof.
  intros Hj Hi. unfold put_lhblock. apply wp_bind. eapply wp_getlog; [done|].
  destruct (Z.leb_spec 0 i); [|lia]. destruct (Z.ltb_spec i (Z.of_nat (length (lg_block l)))); [|lia]. cbn.
  by eapply (jr_updlog s H V R l d (fun l => set_lhblock (<[Z.to_nat i := b]> (lg_block l)) l)).
Qed.

Lemma jr_copy_data s H V R l d i b j c :
  jr s me pr H V R l d -> H !! i = Some b -> H !! j = Some c ->
  wp (copy_data i j) (fun _ s' => jr s' me pr H (setv V b (V c)) R l d) s.
Proof.
  intros Hj Hi Hjc. unfold copy_data. apply wp_bind. eapply wp_mono; [by eapply jr_getb|].
  intros x s' (<-&_&Hj'). by apply (jr_data s' H V R l d i b (fun _ => b_data x)).
Qed.
End Ops.

(** * The log on disk *)

(** The log occupies the blocks from [start]; the other blocks are home blocks. *)
Definition home (l : log) (b : Z) : Prop := 0 <= b < 2 ^ 31 /\ (b < lg_start l \/ lg_start l + lg_size l <= b).

(** The transaction in memory: the home blocks [L]. *)
Record txn (l : log) (L : list Z) : Prop := {
  tx_dev : lg_dev l = ROOTDEV;
  tx_start : 0 <= lg_start l /\ lg_start l + lg_size l < 2 ^ 31;
  tx_block : length (lg_block l) = Z.to_nat LOGSIZE;
  tx_n : lg_n l = Z.of_nat (length L);
  tx_max : (length L <= Z.to_nat LOGSIZE)%nat /\ Z.of_nat (length L) < lg_size l;
  tx_take : take (length L) (lg_block l) = L;
  tx_dup : NoDup L;
  tx_home : Forall (home l) L;
}.

Lemma txn_lookup l L i b : txn l L -> L !! i = Some b -> lg_block l !! i = Some b /\ home l b /\ (i < length L)%nat.
Proof.
  intros [] Hi. pose proof (lookup_lt_Some _ _ _ Hi) as Hlt. split_and!; [| |done].
  - rewrite <- (lookup_take_lt _ (length L)) by done. by rewrite tx_take0.
  - by eapply Forall_lookup_1.
Qed.

(** The header block of the transaction [L] over the old content [data]. *)
Fixpoint put_blocks (i : Z) (L : list Z) (data : list Z) : list Z :=
  match L with
  | [] => data
  | b :: L' => put_blocks (i + 1) L' (put_block i b data)
  end.
Definition head (L : list Z) (data : list Z) : list Z := put_blocks 0 L (put_n (Z.of_nat (length L)) data).

Lemma put_blocks_snoc L b : forall i data,
  put_blocks i (L ++ [b]) data = put_block (i + Z.of_nat (length L)) b (put_blocks i L data).
Proof.
  induction L as [|a L IH]; intros i data; cbn [app put_blocks length]; [by rewrite Z.add_0_r|].
  rewrite IH. f_equal. lia.
Qed.

Lemma put_blocks_take L k b data : L !! k = Some b ->
  put_blocks 0 (take (S k) L) data = put_block (Z.of_nat k) b (put_blocks 0 (take k L) data).
Proof.
  intros Hb. rewrite (take_S_r _ _ _ Hb), put_blocks_snoc, length_take_le; [done|].
  pose proof (lookup_lt_Some _ _ _ Hb). lia.
Qed.

(** ** Sequences of writes *)

Definition dapp (d : disk) (ws : list (Z * list Z)) : disk := Disk (d_base d) (d_writes d ++ ws).

Lemma dapp_nil d : dapp d [] = d.
Proof. unfold dapp. rewrite app_nil_r. by destruct d. Qed.
Lemma dapp_app d w1 w2 : dapp (dapp d w1) w2 = dapp d (w1 ++ w2).
Proof. unfold dapp. cbn. by rewrite app_assoc. Qed.
Lemma dwrite_dapp d b x : dwrite d b x = dapp d [(b, x)].
Proof. done. Qed.
Lemma apply_writes_app D w1 w2 : apply_writes D (w1 ++ w2) = apply_writes (apply_writes D w1) w2.
Proof. apply foldl_app. Qed.
Lemma dread_dapp d ws : dread (dapp d ws) = apply_writes (dread d) ws.
Proof. unfold dread, dapp. cbn. apply apply_writes_app. Qed.

Lemma apply_writes_out ws : forall D b, b ∉ ws.*1 -> apply_writes D ws b = D b.
Proof.
  induction ws as [|[a x] ws IH]; intros D b Hb; [done|]. cbn in *. apply not_elem_of_cons in Hb as [Ha Hb].
  rewrite IH by done. unfold set_block. cbn. by apply Z.eqb_neq in Ha as ->.
Qed.

Lemma apply_writes_in ws : forall D i b x, NoDup ws.*1 -> ws !! i = Some (b, x) -> apply_writes D ws b = x.
Proof.
  induction ws as [|[a y] ws IH]; intros D i b x Hd Hi; [done|]. cbn in *. apply NoDup_cons in Hd as [Ha Hd].
  destruct i as [|i]; cbn in Hi; [|by eapply IH]. simplify_eq. fold (apply_writes (set_block D (b, x)) ws).
  rewrite apply_writes_out by done. unfold set_block. cbn. by rewrite Z.eqb_refl.
Qed.

Lemma apply_writes_ext ws D D' b : (forall b, D b = D' b) -> apply_writes D ws b = apply_writes D' ws b.
Proof.
  revert D D'. induction ws as [|[a x] ws IH]; intros D D' E; [done|]. cbn. apply IH.
  intros c. unfold set_block. cbn. by rewrite E.
Qed.

(** The transaction [L] with the contents [V], in the log and at home. *)
Definition log_writes (l : log) (L : list Z) (V : blocks) : list (Z * list Z) :=
  imap (fun i b => (lg_start l + Z.of_nat i + 1, V b)) L.
Definition home_writes (l : log) (L : list Z) (V : blocks) : list (Z * list Z) :=
  imap (fun i b => (b, V (lg_start l + Z.of_nat i + 1))) L.

Lemma log_writes_lookup l L V i b : L !! i = Some b -> log_writes l L V !! i = Some (lg_start l + Z.of_nat i + 1, V b).
Proof. intros Hi. unfold log_writes. by rewrite list_lookup_imap, Hi. Qed.
Lemma home_writes_lookup l L V i b : L !! i = Some b -> home_writes l L V !! i = Some (b, V (lg_start l + Z.of_nat i + 1)).
Proof. intros Hi. unfold home_writes. by rewrite list_lookup_imap, Hi. Qed.

Lemma log_writes_keys l L V k b :
  txn l L -> b ∈ (take k (log_writes l L V)).*1 -> lg_start l < b < lg_start l + lg_size l.
Proof.
  intros [] ([c x]&->&Hin)%list_elem_of_fmap. apply elem_of_take in Hin as (i&Hi&_).
  unfold log_writes in Hi. rewrite list_lookup_imap in Hi. destruct (L !! i) eqn:E; [|done]. cbn in *.
  apply lookup_lt_Some in E. simplify_eq. cbn. lia.
Qed.

Lemma home_writes_keys_eq l L V : (home_writes l L V).*1 = L.
Proof.
  apply list_eq. intros i. rewrite list_lookup_fmap. unfold home_writes. rewrite list_lookup_imap. by destruct (L !! i).
Qed.

Lemma home_writes_keys l L V k b : b ∈ (take k (home_writes l L V)).*1 <-> b ∈ take k L.
Proof. by rewrite fmap_take, home_writes_keys_eq. Qed.

(** The references of the blocks [L] that the log has given up. *)
Definition unpinned (L : list Z) (R : Z -> Z) : Z -> Z := fun c => if decide (c ∈ L) then R c - 1 else R c.

Lemma unpinned_snoc L b R c : b ∉ L -> bump (unpinned L R) b (-1) c = unpinned (L ++ [b]) R c.
Proof.
  intros Hb. unfold bump, unpinned. destruct (Z.eqb_spec c b) as [->|E].
  - rewrite decide_False by done. rewrite decide_True; [lia|]. apply elem_of_app. right. by left.
  - apply decide_ext. rewrite elem_of_app, list_elem_of_singleton. tauto.
Qed.

(** Equations between reference counts. *)
Ltac bump_tac :=
  intros; unfold bump;
  repeat match goal with |- context [?x =? ?y] => destruct (Z.eqb_spec x y) end; subst; try congruence; lia.

(** [wseq H]: the next operation, by the lemma [H]. *)
Tactic Notation "wseq" uconstr(H) := apply wp_bind; eapply wp_mono; [eapply H|].

Section Specs.
Context (me : fin NPROC) (pr : proc) (l : log) (L : list Z) (tx : txn l L).
Implicit Types (H : gmap bufp Z) (V : blocks) (R : Z -> Z) (d : disk).
Abbreviation slot i := (lg_start l + i + 1).

(** One block of the transaction to its place in the log. *)
Lemma write_log_one_spec s V R d i b :
  jr s me pr ∅ V R l d -> room R -> (forall c, 0 <= R c < 2 ^ 31) ->
  L !! i = Some b -> 0 < R b ->
  wp (write_log_one (Z.of_nat i)) (fun _ s' =>
    jr s' me pr ∅ (setv V (slot (Z.of_nat i)) (V b)) R l (dwrite d (slot (Z.of_nat i)) (V b))) s.
Proof.
  intros Hj Hroom HR Hi Hb. destruct (txn_lookup l L i b tx Hi) as (Hlb&Hhome&Hlt). pose proof tx as [].
  assert (Hne : b <> slot (Z.of_nat i)) by (unfold home in Hhome; lia).
  pose proof (HR b). pose proof (HR (slot (Z.of_nat i))).
  assert (Hp : 0 <= slot (Z.of_nat i) < 2 ^ 32) by lia.
  unfold write_log_one. apply wp_bind. eapply wp_getlog; [done|]. set (p := slot (Z.of_nat i)) in *. clearbody p.
  wseq jr_bread; [done..|intros; by rewrite lookup_empty|by right|lia|]. intros to s1 [_ Hj1].
  apply wp_bind. eapply wp_get_lhblock; [exact Hj1|lia|by rewrite Nat2Z.id|].
  wseq jr_bread; [exact Hj1|done|unfold home in Hhome; lia| | | |].
  { intros k. destruct (decide (k = to)) as [->|]; [by rewrite lookup_insert_eq; intros [=]|by rewrite lookup_insert_ne]. }
  { left. rewrite bump_ne by done. done. }
  { rewrite bump_ne by done. lia. }
  intros from s2 [Hf Hj2]. assert (Hft : from <> to) by (intros ->; by rewrite lookup_insert_eq in Hf).
  wseq jr_copy_data; [exact Hj2|by rewrite lookup_insert_ne, lookup_insert_eq|by rewrite lookup_insert_eq|].
  intros [] s3 Hj3.
  wseq jr_bwrite; [exact Hj3|by rewrite lookup_insert_ne, lookup_insert_eq|]. rewrite setv_same. intros [] s4 Hj4.
  wseq jr_brelse; [exact Hj4|by rewrite lookup_insert_eq| |].
  { left. rewrite bump_same, bump_ne by done. lia. }
  intros [] s5 Hj5. eapply wp_mono; [eapply jr_brelse; [exact Hj5| |]|].
  { rewrite delete_insert_id by done. by rewrite lookup_insert_eq. }
  { right. by rewrite dread_dwrite, !setv_same. }
  cbn. intros [] s6 Hj6. rewrite !delete_insert_id in Hj6 by done. eapply jr_ext; [exact Hj6|done|].
  bump_tac.
Qed.

(** One block of the log to its home location. *)
Lemma install_one_spec recovering s V R d i b :
  jr s me pr ∅ V R l d -> (forall c, 0 <= R c < 2 ^ 31) -> L !! i = Some b ->
  V (slot (Z.of_nat i)) = dread d (slot (Z.of_nat i)) ->
  (recovering = 0 /\ room R /\ 0 < R b \/ recovering = 1 /\ forall c, R c = 0) ->
  wp (install_one recovering (Z.of_nat i)) (fun _ s' =>
    jr s' me pr ∅ (setv V b (V (slot (Z.of_nat i)))) (if recovering =? 0 then bump R b (-1) else R) l
      (dwrite d b (V (slot (Z.of_nat i))))) s.
Proof.
  intros Hj HR Hi Hcl Hrec. destruct (txn_lookup l L i b tx Hi) as (Hlb&Hhome&Hlt). pose proof tx as [].
  assert (Hne : b <> slot (Z.of_nat i)) by (unfold home in Hhome; lia).
  pose proof (HR b). pose proof (HR (slot (Z.of_nat i))).
  assert (Hp : 0 <= slot (Z.of_nat i) < 2 ^ 32) by lia.
  assert (Hroom : room R).
  { destruct Hrec as [(_&?&_)|[_ Hz]]; [done|]. exists []. split; [cbn; unfold NBUF; lia|]. intros c Hc. by rewrite Hz in Hc. }
  unfold install_one. apply wp_bind. eapply wp_getlog; [done|]. set (p := slot (Z.of_nat i)) in *. clearbody p.
  wseq jr_bread; [done..|intros; by rewrite lookup_empty|by right|lia|]. intros lb s1 [_ Hj1].
  apply wp_bind. eapply wp_get_lhblock; [exact Hj1|lia|by rewrite Nat2Z.id|].
  wseq jr_bread; [exact Hj1|done|unfold home in Hhome; lia| | | |].
  { intros k. destruct (decide (k = lb)) as [->|]; [by rewrite lookup_insert_eq; intros [=]|by rewrite lookup_insert_ne]. }
  { destruct Hrec as [(_&_&?)|[_ Hz]]; [left; by rewrite bump_ne|right].
    exists [p]. split; [cbn; unfold NBUF; lia|]. intros c Hc. apply list_elem_of_singleton.
    destruct (decide (c = p)); [done|]. rewrite bump_ne, Hz in Hc by done. lia. }
  { rewrite bump_ne by done. lia. }
  intros db s2 [Hf Hj2]. assert (Hft : db <> lb) by (intros ->; by rewrite lookup_insert_eq in Hf).
  wseq jr_copy_data; [exact Hj2|by rewrite lookup_insert_eq|by rewrite lookup_insert_ne, lookup_insert_eq|].
  intros [] s3 Hj3.
  wseq jr_bwrite; [exact Hj3|by rewrite lookup_insert_eq|]. rewrite setv_same. intros [] s4 Hj4.
  set (R2 := bump (bump R p 1) b 1) in *. set (R3 := if recovering =? 0 then bump R2 b (-1) else R2).
  apply wp_bind. eapply (wp_mono _ (fun _ s' => jr s' me pr (<[db:=b]> (<[lb:=p]> ∅)) (setv V b (V p)) R3 l (dwrite d b (V p)))).
  { unfold when, R3. destruct Hrec as [(->&_&?)|[-> _]]; cbn [Z.eqb Pos.eqb].
    - eapply jr_bunpin; [exact Hj4|by rewrite lookup_insert_eq|]. unfold R2. rewrite bump_same, bump_ne by done. lia.
    - by apply wp_ret. }
  intros [] s5 Hj5. wseq jr_brelse; [exact Hj5|by rewrite lookup_insert_ne, lookup_insert_eq| |].
  { right. by rewrite dread_dwrite, !setv_ne. }
  intros [] s6 Hj6. eapply wp_mono; [eapply jr_brelse; [exact Hj6| |]|].
  { rewrite lookup_delete_ne by done. by rewrite lookup_insert_eq. }
  { right. by rewrite dread_dwrite, !setv_same. }
  cbn. intros [] s7 Hj7. rewrite delete_insert_ne, (delete_insert_id ∅ lb), delete_insert_id in Hj7 by done.
  eapply jr_ext; [exact Hj7|done|].
  unfold R3, R2. destruct (recovering =? 0); bump_tac.
Qed.

(** The header block gets the transaction. *)
Lemma write_head_spec s V R d :
  jr s me pr ∅ V R l d -> room R -> (forall c, 0 <= R c < 2 ^ 31) ->
  wp write_head (fun _ s' =>
    jr s' me pr ∅ (setv V (lg_start l) (head L (V (lg_start l)))) R l
      (dwrite d (lg_start l) (head L (V (lg_start l))))) s.
Proof.
  intros Hj Hroom HR. pose proof tx as []. unfold write_head. apply wp_bind. eapply wp_getlog; [done|].
  pose proof (HR (lg_start l)). set (p := lg_start l) in *. set (D := V p).
  wseq jr_bread; [done..|lia|intros; by rewrite lookup_empty|by right|lia|]. intros buf s1 [_ Hj1].
  wseq (jr_data me pr s1 _ V _ l d buf p (put_n (lg_n l))); [exact Hj1|by rewrite lookup_insert_eq|]. intros [] s2 Hj2.
  apply wp_bind. rewrite tx_n0. eapply wp_mono.
  { apply (wp_forZ (length L) _ (fun k s' => jr s' me pr (<[buf:=p]> ∅)
      (setv V p (put_blocks 0 (take k L) (put_n (lg_n l) D))) (bump R p 1) l d)); [done|].
    intros k s' Hk Hj'. destruct (lookup_lt_is_Some_2 L k Hk) as [b Hb].
    destruct (txn_lookup l L k b tx Hb) as (Hlb&_). unfold write_head_entry.
    apply wp_bind. eapply wp_get_lhblock; [exact Hj'|lia|by rewrite Nat2Z.id|].
    eapply wp_mono; [eapply (jr_data me pr s' _ _ _ l d buf p (put_block (Z.of_nat k) b)); [exact Hj'|by rewrite lookup_insert_eq]|].
    cbn. intros [] s'' Hj''. eapply jr_ext; [exact Hj''| |done].
    intros c. rewrite setv_same, (put_blocks_take L k b) by done. unfold setv, set_block. cbn. by destruct (c =? p). }
  rewrite tx_n0, take_ge by lia. fold (head L D). cbn. intros [] s3 Hj3.
  wseq jr_bwrite; [exact Hj3|by rewrite lookup_insert_eq|]. rewrite setv_same. intros [] s4 Hj4.
  eapply wp_mono; [eapply jr_brelse; [exact Hj4|by rewrite lookup_insert_eq|]|].
  { right. by rewrite dread_dwrite, !setv_same. }
  cbn. intros [] s5 Hj5. rewrite delete_insert_id in Hj5 by done. eapply jr_ext; [exact Hj5|done|]. bump_tac.
Qed.

Lemma home_not_log V k b : home l b -> apply_writes V (take k (log_writes l L V)) b = V b.
Proof. intros Hb. apply apply_writes_out. intros Hin%(log_writes_keys l L V k b tx). unfold home in Hb. lia. Qed.

Lemma write_log_spec s V R d :
  jr s me pr ∅ V R l d -> room R -> (forall c, 0 <= R c < 2 ^ 31) -> (forall b, b ∈ L -> 0 < R b) ->
  wp write_log (fun _ s' =>
    jr s' me pr ∅ (apply_writes V (log_writes l L V)) R l (dapp d (log_writes l L V))) s.
Proof.
  intros Hj Hroom HR Hpin. pose proof tx as []. unfold write_log. apply wp_bind. eapply wp_getlog; [done|].
  set (W := log_writes l L V). rewrite tx_n0. eapply wp_mono.
  - apply (wp_forZ (length L) _ (fun k s' => jr s' me pr ∅ (apply_writes V (take k W)) R l (dapp d (take k W)))).
    { by rewrite take_0, dapp_nil. }
    intros k s' Hk Hj'. destruct (lookup_lt_is_Some_2 L k Hk) as [b Hb].
    destruct (txn_lookup l L k b tx Hb) as (_&Hh&_).
    rewrite (take_S_r W k (slot (Z.of_nat k), V b)) by (by apply log_writes_lookup).
    rewrite <- dapp_app, apply_writes_app. cbn.
    eapply wp_mono; [eapply (write_log_one_spec s' _ R _ k b Hj'); [done..|by apply Hpin, (list_elem_of_lookup_2 _ k)]|].
    cbn. intros [] s2. by rewrite home_not_log.
  - intros [] s'. by rewrite take_ge by (unfold W, log_writes; by rewrite length_imap).
Qed.

(** The slots of the log are not home blocks. *)
Lemma slot_not_home V W k i : (i < length L)%nat ->
  apply_writes V (take k (home_writes l L W)) (slot (Z.of_nat i)) = V (slot (Z.of_nat i)).
Proof.
  intros Hi. apply apply_writes_out. rewrite home_writes_keys. intros Hin.
  pose proof tx as []. apply elem_of_take in Hin as (j&Hj&_). eapply Forall_lookup_1 in tx_home0; [|exact Hj].
  unfold home in tx_home0. lia.
Qed.

Lemma install_trans_spec recovering s V R d :
  jr s me pr ∅ V R l d -> (forall c, 0 <= R c < 2 ^ 31) ->
  (forall i, (i < length L)%nat -> V (slot (Z.of_nat i)) = dread d (slot (Z.of_nat i))) ->
  (recovering = 0 /\ room R /\ (forall b, b ∈ L -> 0 < R b) \/ recovering = 1 /\ forall c, R c = 0) ->
  wp (install_trans recovering) (fun _ s' =>
    jr s' me pr ∅ (apply_writes V (home_writes l L V)) (if recovering =? 0 then unpinned L R else R) l
      (dapp d (home_writes l L V))) s.
Proof.
  intros Hj HR Hcl Hrec. pose proof tx as []. unfold install_trans. apply wp_bind. eapply wp_getlog; [done|].
  set (W := home_writes l L V). rewrite tx_n0. eapply wp_mono.
  - apply (wp_forZ (length L) _ (fun k s' => jr s' me pr ∅ (apply_writes V (take k W))
      (if recovering =? 0 then unpinned (take k L) R else R) l (dapp d (take k W)))).
    { rewrite take_0, dapp_nil. eapply jr_ext; [done..|]. by destruct (recovering =? 0). }
    intros k s' Hk Hj'. destruct (lookup_lt_is_Some_2 L k Hk) as [b Hb].
    rewrite (take_S_r W k (b, V (slot (Z.of_nat k)))) by (by apply home_writes_lookup).
    rewrite (take_S_r L k b Hb), <- dapp_app, apply_writes_app. cbn.
    assert (Hbk : b ∉ take k L).
    { intros Hin%(elem_of_take _ _ _). destruct Hin as (j&Hj1&Hj2).
      pose proof (NoDup_lookup _ _ _ _ tx_dup0 Hj1 Hb). lia. }
    eapply wp_mono; [eapply (install_one_spec recovering s' _ _ _ k b Hj')|].
    + intros c. destruct (recovering =? 0) eqn:E; [|done]. unfold unpinned. case_decide as Hin; [|done].
      destruct Hrec as [(_&_&Hp)|[-> _]]; [|done]. apply elem_of_take in Hin as (j&Hin&_).
      specialize (Hp c (list_elem_of_lookup_2 _ _ _ Hin)). specialize (HR c). lia.
    + done.
    + unfold W. rewrite dread_dapp, !slot_not_home by done. by apply Hcl.
    + destruct Hrec as [(->&Hr&Hp)|[-> Hz]]; [left|by right]. cbn. split_and!; [done| |].
      * eapply room_mono; [done|]. intros c. unfold unpinned. case_decide; lia.
      * unfold unpinned. rewrite decide_False by done. by apply Hp, (list_elem_of_lookup_2 _ k).
    + cbn. intros [] s2. unfold W. rewrite slot_not_home by done. intros Hj2.
      eapply jr_ext; [exact Hj2|done|]. intros c. destruct (recovering =? 0); [|done]. by rewrite unpinned_snoc.
  - cbn. intros [] s'. rewrite (take_ge L) by lia. rewrite (take_ge W); [done|].
    unfold W, home_writes. rewrite length_imap. lia.
Qed.

(** What a commit writes, in order: the blocks in the log, the header, the blocks
    at home, the cleared header. *)
Definition at_home (V : blocks) : list (Z * list Z) := (fun b => (b, V b)) <$> L.
Definition commit_writes (V : blocks) : list (Z * list Z) :=
  let h := head L (V (lg_start l)) in
  log_writes l L V ++ [(lg_start l, h)] ++ at_home V ++ [(lg_start l, head [] h)].

Lemma log_writes_dup V : NoDup (log_writes l L V).*1.
Proof.
  apply NoDup_alt. intros i j b. unfold log_writes. rewrite !list_lookup_fmap, !list_lookup_imap.
  destruct (L !! i), (L !! j); cbn; try done. intros [= <-] [=]. lia.
Qed.

Lemma after_log_slot (D : blocks) V h i b : L !! i = Some b ->
  apply_writes D (log_writes l L V ++ [(lg_start l, h)]) (slot (Z.of_nat i)) = V b.
Proof.
  intros Hi. rewrite apply_writes_app. cbn. unfold set_block. cbn.
  destruct (Z.eqb_spec (slot (Z.of_nat i)) (lg_start l)); [lia|].
  apply (apply_writes_in _ _ i); [apply log_writes_dup|by apply log_writes_lookup].
Qed.

Lemma after_log_start V : apply_writes V (log_writes l L V) (lg_start l) = V (lg_start l).
Proof.
  apply apply_writes_out. intros Hin. rewrite <- (take_ge (log_writes l L V) (length (log_writes l L V))) in Hin by lia.
  apply (log_writes_keys l L V _ _ tx) in Hin. lia.
Qed.

Lemma home_writes_after V h :
  home_writes l L (apply_writes V (log_writes l L V ++ [(lg_start l, h)])) = at_home V.
Proof.
  apply list_eq. intros i. unfold home_writes, at_home. rewrite list_lookup_imap, list_lookup_fmap.
  destruct (L !! i) as [b|] eqn:Hi; [|done]. cbn. by rewrite after_log_slot with (b := b).
Qed.

Lemma start_not_home V : lg_start l ∉ (at_home V).*1.
Proof.
  unfold at_home. rewrite <- list_fmap_compose. intros (b&E&Hb)%list_elem_of_fmap. cbn in *.
  pose proof tx as []. rewrite Forall_forall in tx_home0. specialize (tx_home0 _ Hb). unfold home in tx_home0. lia.
Qed.

Lemma txn_clear : txn (set_lhn 0 l) [].
Proof. pose proof tx as []. split; cbn; try done; try lia; by constructor. Qed.
End Specs.

Lemma commit_spec me pr l L s V R d :
  txn l L -> jr s me pr ∅ V R l d -> room R -> (forall c, 0 <= R c < 2 ^ 31) -> (forall b, b ∈ L -> 0 < R b) -> L <> [] ->
  wp commit (fun _ s' => jr s' me pr ∅ (apply_writes V (commit_writes l L V)) (unpinned L R) (set_lhn 0 l)
    (dapp d (commit_writes l L V))) s.
Proof.
  intros tx Hj Hroom HR Hpin Hne. pose proof tx as []. unfold commit. apply wp_bind. eapply wp_getlog; [done|].
  destruct (Z.ltb_spec 0 (lg_n l)); [|destruct L; [done|cbn in *; lia]]. cbn [when].
  set (W := log_writes l L V). set (h := head L (V (lg_start l))).
  wseq write_log_spec; [done..|]. intros [] s1 Hj1.
  wseq (write_head_spec me pr l L tx s1 _ _ _ Hj1); [done..|]. rewrite after_log_start by done. fold W h. intros [] s2 Hj2.
  rewrite dwrite_dapp, dapp_app in Hj2.
  change (setv (apply_writes V W) (lg_start l) h) with (apply_writes (apply_writes V W) [(lg_start l, h)]) in Hj2.
  rewrite <- apply_writes_app in Hj2. set (V2 := apply_writes V (W ++ [(lg_start l, h)])) in *.
  assert (HW : home_writes l L V2 = at_home L V) by (by apply home_writes_after).
  wseq (install_trans_spec me pr l L tx 0 s2 V2 R _ Hj2); [done| |left; done|].
  { intros i Hi. destruct (lookup_lt_is_Some_2 L i Hi) as [b Hb]. rewrite dread_dapp. unfold V2, W.
    by rewrite !(after_log_slot l L _ V h i b Hb). }
  rewrite HW, dapp_app. cbn [Z.eqb]. intros [] s3 Hj3.
  wseq (jr_updlog me pr s3 _ _ _ l _ (set_lhn 0) Hj3). intros [] s4 Hj4.
  eapply wp_mono; [eapply (write_head_spec me pr (set_lhn 0 l) [] (txn_clear l L tx) s4 _ _ _ Hj4)|].
  { eapply room_mono; [done|]. intros c. unfold unpinned. case_decide; lia. }
  { intros c. unfold unpinned. specialize (HR c). case_decide as Hc; [|done]. specialize (Hpin c Hc). lia. }
  cbn [set_lhn lg_start]. rewrite apply_writes_out by (by apply start_not_home).
  assert (HVh : V2 (lg_start l) = h).
  { unfold V2. rewrite apply_writes_app. cbn. unfold set_block. cbn. by rewrite Z.eqb_refl. }
  rewrite HVh. intros [] s5 Hj5. rewrite dwrite_dapp, dapp_app, <- !app_assoc in Hj5.
  eapply jr_ext; [exact Hj5| |done]. intros b. unfold commit_writes, V2, W. fold h.
  by rewrite !apply_writes_app.
Qed.
