(* ===== verification/Crash.v ===== *)
(** Crashes: what is on the disk at any moment of a commit, and what recovery
    makes of it.

    A crash leaves the disk with some prefix of the writes that were in progress
    ([src/kernel/log.c] waits for each write before the next, and a block write
    is atomic). [durable l D F] says that the disk [D] stands for the home
    blocks [F]: either its log is empty and [F] is at home, or its log holds a
    committed transaction that completes [D] to [F]. *)

From stdpp Require Import gmap.
From S2P Require Import Prelude Params Spinlock Sched Sleeplock Bio Cache Log Journal.
Local Open Scope kernel_scope.

(** * The header block *)

Lemma s32_mod v : 0 <= v < 2 ^ 31 -> s32 (v mod 256 ^ Z.of_nat 4) = v.
Proof. intros Hv. rewrite Z.mod_small by (change (256 ^ Z.of_nat 4) with (2 ^ 32); lia). apply s32_small. lia. Qed.

Lemma put_blocks_length L : forall i data,
  0 <= i -> (Z.to_nat (4 + 4 * (i + Z.of_nat (length L))) <= length data)%nat ->
  length (put_blocks i L data) = length data.
Proof.
  induction L as [|b L IH]; intros i data Hi Hd; [done|]. cbn [put_blocks length] in *.
  assert (length (put_block i b data) = length data) as E by (apply length_put_le; lia). rewrite IH; lia.
Qed.

(** Entries are written to places of their own. *)
Lemma put_blocks_get L : forall i data off,
  0 <= i -> (Z.to_nat (4 + 4 * (i + Z.of_nat (length L))) <= length data)%nat ->
  (off + 4 <= Z.to_nat (4 + 4 * i))%nat -> get_le 4 (put_blocks i L data) off = get_le 4 data off.
Proof.
  induction L as [|b L IH]; intros i data off Hi Hd Ho; [done|]. cbn [put_blocks length] in *.
  assert (length (put_block i b data) = length data) as E by (apply length_put_le; lia).
  rewrite IH by lia. apply get_put_le_other; lia.
Qed.

Lemma put_blocks_entry L : forall i data k b,
  0 <= i -> (Z.to_nat (4 + 4 * (i + Z.of_nat (length L))) <= length data)%nat ->
  L !! k = Some b -> 0 <= b < 2 ^ 31 -> hdr_block (put_blocks i L data) (i + Z.of_nat k) = b.
Proof.
  induction L as [|a L IH]; intros i data k b Hi Hd Hk Hb; [done|]. cbn [put_blocks length] in *.
  assert (length (put_block i a data) = length data) as E by (apply length_put_le; lia).
  destruct k as [|k]; cbn in Hk.
  - simplify_eq. unfold hdr_block. rewrite put_blocks_get by lia.
    replace (i + Z.of_nat 0) with i by lia. unfold put_block. rewrite get_put_le by lia. by apply s32_mod.
  - rewrite <- (IH (i + 1) (put_block i a data) k b) by (done || lia). f_equal. lia.
Qed.

Definition blk (d : list Z) : Prop := length d = Z.to_nat BSIZE.

Lemma head_blk L data : (length L <= Z.to_nat LOGSIZE)%nat -> blk data -> blk (head L data).
Proof.
  intros HL Hd. unfold blk, head, BSIZE, LOGSIZE, MAXOPBLOCKS, put_n in *.
  rewrite put_blocks_length; rewrite ?length_put_le; try lia.
Qed.

Lemma head_n L data : (length L <= Z.to_nat LOGSIZE)%nat -> blk data -> hdr_n (head L data) = Z.of_nat (length L).
Proof.
  intros HL Hd. unfold hdr_n, head. unfold blk, BSIZE, LOGSIZE, MAXOPBLOCKS, put_n in *.
  rewrite put_blocks_get by (rewrite ?length_put_le; lia). rewrite get_put_le by lia. apply s32_mod. lia.
Qed.

Lemma head_block L data i b :
  (length L <= Z.to_nat LOGSIZE)%nat -> blk data -> L !! i = Some b -> 0 <= b < 2 ^ 31 ->
  hdr_block (head L data) (Z.of_nat i) = b.
Proof.
  intros HL Hd Hi Hb. unfold head. unfold blk, BSIZE, LOGSIZE, MAXOPBLOCKS, put_n in *.
  rewrite <- (put_blocks_entry L 0 (put_n (Z.of_nat (length L)) data) i b); [done|lia| |done|done].
  unfold put_n. rewrite length_put_le; lia.
Qed.

(** * Durable states *)

Record clean (l : log) (D F : blocks) : Prop := {
  cl_n : hdr_n (D (lg_start l)) = 0;
  cl_home b : home l b -> D b = F b;
}.

Record committed (l : log) (L : list Z) (D F : blocks) : Prop := {
  cm_max : (length L <= Z.to_nat LOGSIZE)%nat /\ Z.of_nat (length L) < lg_size l;
  cm_dup : NoDup L;
  cm_home : Forall (home l) L;
  cm_n : hdr_n (D (lg_start l)) = Z.of_nat (length L);
  cm_block i b : L !! i = Some b ->
    hdr_block (D (lg_start l)) (Z.of_nat i) = b /\ D (lg_start l + Z.of_nat i + 1) = F b;
  cm_rest b : home l b -> b ∉ L -> D b = F b;
}.

Definition durable (l : log) (D F : blocks) : Prop :=
  blk (D (lg_start l)) /\ (clean l D F \/ exists L, committed l L D F).

Section Atomic.
Context (l : log) (L : list Z) (tx : txn l L) (D V : blocks).
Context (Dn : hdr_n (D (lg_start l)) = 0) (Dlen : blk (D (lg_start l))) (Dhead : V (lg_start l) = D (lg_start l)).
Context (Drest : forall b, home l b -> b ∉ L -> V b = D b).

(** While the blocks go to the log the old contents stand. *)
Lemma commit_prefix_log k : durable l (apply_writes D (take k (log_writes l L V))) D.
Proof.
  assert (Hout : forall b, b <= lg_start l \/ lg_start l + lg_size l <= b ->
    apply_writes D (take k (log_writes l L V)) b = D b).
  { intros b Hb. apply apply_writes_out. intros Hin%(log_writes_keys l L V k b tx). lia. }
  split; [by rewrite Hout by lia|]. left. split; [by rewrite Hout by lia|].
  intros b [_ Hb]. apply Hout. lia.
Qed.

(** From the write of the header on the new contents do. *)
Lemma commit_prefix_home k :
  durable l (apply_writes D (log_writes l L V ++ [(lg_start l, head L (V (lg_start l)))] ++ take k (at_home L V))) V.
Proof.
  pose proof tx as []. rewrite Dhead. set (h := head L (D (lg_start l))). rewrite app_assoc, apply_writes_app.
  set (D1 := apply_writes D (log_writes l L V ++ [(lg_start l, h)])).
  assert (Hk : forall b, b ∈ (take k (at_home L V)).*1 -> b ∈ L).
  { intros b Hb. rewrite fmap_take in Hb. apply subseteq_take in Hb. unfold at_home in Hb.
    rewrite <- list_fmap_compose in Hb. apply list_elem_of_fmap in Hb as (c&->&Hc). done. }
  assert (Hhome : forall b, b ∈ L -> home l b) by (by apply Forall_forall).
  assert (Hst : apply_writes D1 (take k (at_home L V)) (lg_start l) = h).
  { rewrite apply_writes_out by (intros Hin%Hk%Hhome; unfold home in Hin; lia).
    unfold D1. rewrite apply_writes_app. cbn. unfold set_block. cbn. by rewrite Z.eqb_refl. }
  split; [rewrite Hst; apply head_blk; [lia|done]|]. right. exists L. split; [done..| | |].
  - rewrite Hst. apply head_n; [lia|done].
  - intros i b Hi. rewrite Hst. pose proof (Hhome b (list_elem_of_lookup_2 _ _ _ Hi)) as Hb.
    split; [apply (head_block L _ i b); [lia|done..|apply Hb]|].
    rewrite apply_writes_out.
    + unfold D1. by apply after_log_slot.
    + apply lookup_lt_Some in Hi. intros Hin%Hk%Hhome. unfold home in Hin. lia.
  - intros b Hb HbL. rewrite apply_writes_out by (by intros ?%Hk). rewrite Drest by done.
    unfold D1. rewrite apply_writes_app. cbn. unfold set_block. cbn.
    destruct (Z.eqb_spec b (lg_start l)); [unfold home in Hb; lia|].
    rewrite <- (take_ge (log_writes l L V) (length (log_writes l L V))) by lia.
    apply apply_writes_out. intros Hin%(log_writes_keys l L V _ b tx). unfold home in Hb. lia.
Qed.

(** The complete commit leaves an empty log. *)
Lemma commit_done : durable l (apply_writes D (commit_writes l L V)) V /\ clean l (apply_writes D (commit_writes l L V)) V.
Proof.
  pose proof tx as []. unfold commit_writes. rewrite Dhead, !app_assoc, apply_writes_app.
  set (h := head L (D (lg_start l))). set (D1 := apply_writes D _).
  assert (Hst : apply_writes D1 [(lg_start l, head [] h)] (lg_start l) = head [] h) by (apply setv_same).
  assert (Hblk : blk h) by (apply head_blk; [lia|done]).
  assert (Hcl : clean l (apply_writes D1 [(lg_start l, head [] h)]) V).
  { split; [rewrite Hst; apply head_n; [cbn; lia|done]|]. intros b Hb.
    assert (b <> lg_start l) by (unfold home in Hb; lia). change (setv D1 (lg_start l) (head [] h) b = V b).
    rewrite setv_ne by done. unfold D1. rewrite apply_writes_app.
    destruct (decide (b ∈ L)) as [Hin|Hin].
    - apply list_elem_of_lookup in Hin as [i Hi]. apply (apply_writes_in _ _ i).
      + unfold at_home. rewrite <- list_fmap_compose. by rewrite list_fmap_id.
      + unfold at_home. by rewrite list_lookup_fmap, Hi.
    - rewrite apply_writes_out.
      + rewrite apply_writes_app. change (setv (apply_writes D (log_writes l L V)) (lg_start l) h b = V b).
        rewrite setv_ne, Drest by done. rewrite <- (take_ge (log_writes l L V) (length (log_writes l L V))) by lia.
        apply apply_writes_out. intros Hx%(log_writes_keys l L V _ b tx). unfold home in Hb. lia.
      + unfold at_home. rewrite <- list_fmap_compose. by rewrite list_fmap_id. }
  split; [|done]. split; [rewrite Hst; apply head_blk; [cbn; lia|done]|by left].
Qed.

(** Every prefix of a commit's writes stands for the old or for the new contents. *)
Lemma commit_prefix k :
  let D' := apply_writes D (take k (commit_writes l L V)) in durable l D' D \/ durable l D' V.
Proof.
  cbn. destruct (decide (length (commit_writes l L V) <= k)%nat) as [Hk|Hk].
  { right. rewrite take_ge by done. apply commit_done. }
  unfold commit_writes in *. rewrite !length_app in Hk. cbn in Hk.
  destruct (decide (k <= length (log_writes l L V))%nat) as [Hk1|Hk1].
  - left. rewrite take_app_le by done. apply commit_prefix_log.
  - right. rewrite take_app_ge by lia. destruct (k - length (log_writes l L V))%nat as [|j] eqn:Ej; [lia|].
    cbn [take app]. rewrite take_app_le by lia. apply commit_prefix_home.
Qed.
End Atomic.

(** * Recovery *)

(** The log area as [initlog] finds it. *)
Record geom (l : log) : Prop := {
  ge_dev : lg_dev l = ROOTDEV;
  ge_start : 0 <= lg_start l /\ lg_start l + lg_size l < 2 ^ 31;
  ge_size : 0 < lg_size l;
  ge_block : length (lg_block l) = Z.to_nat LOGSIZE;
}.

(** The transaction [L] in the header block [h]. *)
Record in_head (l : log) (L : list Z) (h : list Z) : Prop := {
  ih_max : (length L <= Z.to_nat LOGSIZE)%nat /\ Z.of_nat (length L) < lg_size l;
  ih_dup : NoDup L;
  ih_home : Forall (home l) L;
  ih_n : hdr_n h = Z.of_nat (length L);
  ih_block i b : L !! i = Some b -> hdr_block h (Z.of_nat i) = b;
}.

(** The log in memory while the header is read. *)
Definition loading (l : log) (n : Z) (B : list Z) : log := set_lhblock B (set_lhn n l).

Lemma take_insert_next {A} (B L : list A) k b :
  (k < length B)%nat -> L !! k = Some b -> take k B = take k L -> take (S k) (<[k:=b]> B) = take (S k) L.
Proof.
  intros Hk Hb E. rewrite (take_S_r L k b Hb), (take_S_r (<[k:=b]> B) k b) by (by apply list_lookup_insert_eq).
  rewrite take_insert_ge by lia. by rewrite E.
Qed.

Lemma read_head_spec me pr l L s V R d :
  geom l -> in_head l L (V (lg_start l)) -> jr s me pr ∅ V R l d -> room R -> (forall c, 0 <= R c < 2 ^ 31) ->
  V (lg_start l) = dread d (lg_start l) ->
  wp read_head (fun _ s' => exists B, jr s' me pr ∅ V R (loading l (Z.of_nat (length L)) B) d /\
    txn (loading l (Z.of_nat (length L)) B) L) s.
Proof.
  intros [] [] Hj Hroom HR Hcl. pose proof (HR (lg_start l)).
  unfold read_head. apply wp_bind. eapply wp_getlog; [done|].
  wseq jr_bread; [done..|lia|intros; by rewrite lookup_empty|by right|lia|]. intros buf s1 [_ Hj1].
  wseq jr_getb; [exact Hj1|by rewrite lookup_insert_eq|]. intros x s2 (Hx&_&Hj2). rewrite Hx, ih_n0.
  wseq (jr_updlog me pr s2 _ _ _ _ _ (set_lhn (Z.of_nat (length L))) Hj2). intros [] s3 Hj3.
  apply wp_bind. eapply wp_getlog; [done|]. cbn [set_lhn lg_n].
  apply wp_bind. eapply wp_mono.
  { apply (wp_forZ (length L) _ (fun k s' => exists B, length B = Z.to_nat LOGSIZE /\ take k B = take k L /\
      jr s' me pr (<[buf:=lg_start l]> ∅) V (bump R (lg_start l) 1) (loading l (Z.of_nat (length L)) B) d)).
    { exists (lg_block l). by split_and!. }
    intros k s' Hk (B&HB&Ht&Hj'). destruct (lookup_lt_is_Some_2 L k Hk) as [b Hb].
    rewrite (ih_block0 k b Hb). eapply wp_mono; [eapply jr_put_lhblock; [exact Hj'|cbn; lia]|].
    cbn. intros [] s'' Hj''. rewrite Nat2Z.id in Hj''. exists (<[k:=b]> B).
    split_and!; [by rewrite length_insert|apply take_insert_next; [lia|done..]|exact Hj'']. }
  cbn. intros [] s4 (B&HB&Ht&Hj4). rewrite (take_ge L) in Ht by lia.
  eapply wp_mono; [eapply jr_brelse; [exact Hj4|by rewrite lookup_insert_eq|by right]|].
  cbn. intros [] s5 Hj5. rewrite delete_insert_id in Hj5 by done. exists B. split.
  - eapply jr_ext; [exact Hj5|done|]. bump_tac.
  - by split.
Qed.

(** What recovery writes. *)
Definition recovery_writes (l : log) (L : list Z) (D : blocks) : list (Z * list Z) :=
  home_writes l L D ++ [(lg_start l, head [] (D (lg_start l)))].

Lemma recover_run me pr l L s V R d :
  geom l -> in_head l L (V (lg_start l)) -> jr s me pr ∅ V R l d -> (forall c, R c = 0) ->
  (forall b, V b = dread d b) ->
  wp recover_from_log (fun _ s' => exists l', jr s' me pr ∅ (apply_writes V (recovery_writes l L V)) R l'
    (dapp d (recovery_writes l L V)) /\ txn l' [] /\ lg_start l' = lg_start l /\ lg_size l' = lg_size l /\
    lg_outstanding l' = lg_outstanding l /\ lg_committing l' = lg_committing l) s.
Proof.
  intros Hg Hh Hj HR HV.
  assert (Hroom : room R) by (exists []; split; [cbn; unfold NBUF; lia|intros c Hc; by rewrite HR in Hc]).
  assert (HR' : forall c, 0 <= R c < 2 ^ 31) by (intros c; rewrite HR; lia).
  unfold recover_from_log. wseq (read_head_spec me pr l L s V R d Hg Hh Hj Hroom HR' (HV _)).
  intros [] s1 (B&Hj1&Htx). set (l1 := loading l (Z.of_nat (length L)) B) in *.
  wseq (install_trans_spec me pr l1 L Htx 1 s1 V R d Hj1 HR'); [by intros; apply HV|by right|].
  cbn [Z.eqb Pos.eqb]. intros [] s2 Hj2.
  wseq (jr_updlog me pr s2 _ _ _ l1 _ (set_lhn 0) Hj2). intros [] s3 Hj3.
  eapply wp_mono; [eapply (write_head_spec me pr (set_lhn 0 l1) [] (txn_clear l1 L Htx) s3 _ _ _ Hj3 Hroom HR')|].
  cbn [set_lhn lg_start]. intros [] s4 Hj4. exists (set_lhn 0 l1).
  change (home_writes l1 L V) with (home_writes l L V) in Hj4. change (lg_start l1) with (lg_start l) in Hj4.
  assert (Hst : apply_writes V (home_writes l L V) (lg_start l) = V (lg_start l)).
  { apply apply_writes_out. rewrite home_writes_keys_eq. intros Hin. destruct Hh as [Hm _ Hhome _ _].
    rewrite Forall_forall in Hhome. specialize (Hhome _ Hin). destruct Hg. unfold home in Hhome. lia. }
  rewrite Hst, dwrite_dapp, dapp_app in Hj4. split; [|split; [by apply (txn_clear l1 L)|done]].
  eapply jr_ext; [exact Hj4| |done]. intros b. unfold recovery_writes. by rewrite apply_writes_app.
Qed.

Section Recovery.
Context (l : log) (Hg : geom l) (D F : blocks).

Lemma clean_in_head : clean l D F -> in_head l [] (D (lg_start l)).
Proof. intros [Hn _]. pose proof Hg as []. split; [cbn; lia|constructor|constructor|done|done]. Qed.

Lemma committed_in_head L : committed l L D F -> in_head l L (D (lg_start l)).
Proof. intros [Hm Hd Hh Hn Hb _]. split; [done..|]. intros i b Hi. by apply Hb. Qed.

(** A recovery that is cut short has changed nothing that matters. *)
Lemma committed_prefix L k :
  blk (D (lg_start l)) -> committed l L D F -> durable l (apply_writes D (take k (home_writes l L D))) F.
Proof.
  intros Hb [Hm Hd Hh Hn Hbl Hr]. pose proof Hg as []. rewrite Forall_forall in Hh.
  assert (Hout : forall b, lg_start l <= b < lg_start l + lg_size l ->
    apply_writes D (take k (home_writes l L D)) b = D b).
  { intros b Hb'. apply apply_writes_out. rewrite home_writes_keys. intros Hin%subseteq_take%Hh. unfold home in Hin. lia. }
  split; [by rewrite Hout by lia|]. right. exists L. split; [done..|by apply Forall_forall|by rewrite Hout by lia| |].
  - intros i b Hi. pose proof (lookup_lt_Some _ _ _ Hi). rewrite !Hout by lia. by apply Hbl.
  - intros b Hb' HbL. rewrite apply_writes_out; [by apply Hr|]. rewrite home_writes_keys. by intros ?%subseteq_take.
Qed.

Lemma committed_done L :
  blk (D (lg_start l)) -> committed l L D F ->
  clean l (apply_writes D (recovery_writes l L D)) F /\ blk (apply_writes D (recovery_writes l L D) (lg_start l)).
Proof.
  intros Hb [Hm Hd Hh Hn Hbl Hr]. pose proof Hg as []. unfold recovery_writes. rewrite apply_writes_app.
  set (D1 := apply_writes D (home_writes l L D)). change (apply_writes D1 [?w]) with (set_block D1 w).
  fold (setv D1 (lg_start l) (head [] (D (lg_start l)))). rewrite setv_same.
  split; [|apply head_blk; [cbn; lia|done]]. split; [rewrite setv_same; apply head_n; [cbn; lia|done]|].
  intros b Hb'. rewrite setv_ne by (unfold home in Hb'; lia). unfold D1. destruct (decide (b ∈ L)) as [Hin|Hin].
  - apply list_elem_of_lookup in Hin as [i Hi]. destruct (Hbl i b Hi) as [_ <-].
    apply (apply_writes_in _ _ i); [by rewrite home_writes_keys_eq|by apply home_writes_lookup].
  - rewrite apply_writes_out; [by apply Hr|by rewrite home_writes_keys_eq].
Qed.

Lemma clean_done : blk (D (lg_start l)) -> clean l D F ->
  clean l (apply_writes D (recovery_writes l [] D)) F /\ blk (apply_writes D (recovery_writes l [] D) (lg_start l)).
Proof.
  intros Hb [Hn Hh]. change (apply_writes D (recovery_writes l [] D)) with (setv D (lg_start l) (head [] (D (lg_start l)))).
  rewrite setv_same. split; [|apply head_blk; [cbn; lia|done]].
  split; [rewrite setv_same; apply head_n; [cbn; lia|done]|]. intros b Hb'. pose proof Hg as [].
  rewrite setv_ne by (unfold home in Hb'; lia). by apply Hh.
Qed.

(** From a durable disk: the transaction of the header, every prefix of its
    installation, and its end. *)
Lemma durable_recovery :
  durable l D F -> exists L, in_head l L (D (lg_start l)) /\
    (forall k, durable l (apply_writes D (take k (recovery_writes l L D))) F) /\
    clean l (apply_writes D (recovery_writes l L D)) F.
Proof.
  intros [Hb [Hc|[L Hc]]].
  - exists []. destruct (clean_done Hb Hc) as [Hd Hb']. split_and!; [by apply clean_in_head| |done].
    intros k. destruct k as [|k]; [split; [done|by left]|]. rewrite take_ge by (cbn; lia). split; [done|by left].
  - exists L. destruct (committed_done L Hb Hc) as [Hd Hb']. split_and!; [by apply committed_in_head| |done].
    intros k. destruct (decide (length (recovery_writes l L D) <= k)%nat) as [Hk|Hk].
    + rewrite take_ge by done. split; [done|by left].
    + unfold recovery_writes in *. rewrite length_app in Hk. cbn in Hk. rewrite take_app_le by lia.
      by apply committed_prefix.
Qed.
End Recovery.

(** A boot: the cache is empty and reads what is on the disk. *)
Definition booted (s : lst) (me : fin NPROC) (pr : proc) (l : log) (d : disk) : Prop :=
  jr s me pr ∅ (dread d) (fun _ => 0) l d.

Lemma recover_spec me pr l s d F :
  geom l -> booted s me pr l d -> durable l (dread d) F ->
  wp recover_from_log (fun _ s' => exists ws l',
    jr s' me pr ∅ (dread (dapp d ws)) (fun _ => 0) l' (dapp d ws) /\ txn l' [] /\
    lg_start l' = lg_start l /\ lg_size l' = lg_size l /\
    lg_outstanding l' = lg_outstanding l /\ lg_committing l' = lg_committing l /\
    clean l (dread (dapp d ws)) F /\
    forall k, durable l (dread (dapp d (take k ws))) F) s.
Proof.
  intros Hg Hb Hd. destruct (durable_recovery l Hg _ F Hd) as (L&Hh&Hpre&Hdone).
  eapply wp_mono; [by apply (recover_run me pr l L s (dread d) (fun _ => 0) d)|].
  cbv beta. intros [] s' (l'&Hj&Htx&?&?&?&?). exists (recovery_writes l L (dread d)), l'. rewrite dread_dapp.
  split_and!; try done. intros k. rewrite dread_dapp. apply Hpre.
Qed.
