(* ===== verification/Txn.v ===== *)
(** Transactions: [begin_op], [log_write] and [end_op] of [src/kernel/log.c]. *)

From stdpp Require Import gmap.
From S2P Require Import Prelude Params Spinlock Sched Sleeplock Bio Cache Log Journal Crash.
Local Open Scope kernel_scope.

#[local] Arguments freed : simpl never.
#[local] Arguments taken : simpl never.
#[local] Arguments settle : simpl never.
#[local] Arguments push : simpl never.
#[local] Arguments pop : simpl never.

(** * Under the log's lock *)

(** The log's lock is held since the CPU was [c0] and the lock [lk]. *)
Record locked (s : lst) (me : fin NPROC) (pr : proc) (H : gmap bufp Z) (V : blocks) (R : Z -> Z) (l : log) (d : disk)
  (c0 : cpu) (lk : spinlock) : Prop := {
  lo_jr : jr (dp:=15%nat) s me pr H V R l d;
  lo_cpu : bs_cpu (ls_b s) = push c0;
  lo_ok : cpu_ok c0;
  lo_lock : lg_lock l = taken (c_id c0) lk;
  lo_idle : idle lk;
}.

Section Locked.
Context (me : fin NPROC) (pr : proc).
Implicit Types (H : gmap bufp Z) (V : blocks) (R : Z -> Z) (l : log) (d : disk).

Lemma quiet_cpu {j k : Depth} s H V R c :
  cache (dp:=j) s me pr H V R -> cpu_room k c -> c_proc c = c_proc (bs_cpu s) ->
  cache (dp:=k) (Bst c (bs_ptab s) (bs_lock s) (bs_buf s) (bs_disk s)) me pr H V R.
Proof.
  intros Hc Hok Hp. apply (cache_env (j:=j) (dp:=k)); [done|]. destruct (ca_quiet _ _ _ _ _ _ Hc). split; [done|by rewrite Hp|done..].
Qed.

Lemma locked_acquire s H V R l d :
  jr s me pr H V R l d -> idle (lg_lock l) ->
  wp (acquire log_lock) (fun _ s' =>
    locked s' me pr H V R (set_lglock (taken (c_id (bs_cpu (ls_b s))) (lg_lock l)) l) d (bs_cpu (ls_b s)) (lg_lock l)) s.
Proof.
  intros [Hc <- Hd] Hidle. pose proof (ca_quiet _ _ _ _ _ _ Hc) as [Hok _ _ _ _].
  eapply wp_ok; [apply (acquire_run log_lock), Hidle|]. split; [|done..].
  split; [|done|done]. apply quiet_cpu; [done|by eapply push_ok|done].
Qed.

Lemma locked_release s H V R l d c0 lk :
  locked s me pr H V R l d c0 lk ->
  wp (release log_lock) (fun _ s' => jr s' me pr H V R (set_lglock lk l) d) s.
Proof.
  intros [[Hc <- Hd] Hcpu Hok Hlk Hidle].
  eapply wp_ok.
  { apply (release_run log_lock); cbn; rewrite Hcpu; [rewrite Hlk; apply holding_taken|done|by eapply push_noff]. }
  cbn. rewrite Hcpu, Hlk, pop_push, freed_taken by done. split; [|done|done].
  apply (quiet_cpu (j:=15%nat) (ls_b s)); [done|by apply settle_ok|]. by rewrite Hcpu, settle_proc.
Qed.

Lemma locked_getlog s H V R l d c0 lk (Q : log -> lst -> Prop) : locked s me pr H V R l d c0 lk -> Q l s -> wp getlog Q s.
Proof. intros [[_ <- _] _ _ _ _] HQ. by apply wp_gets. Qed.

Lemma locked_updlog s H V R l d c0 lk f :
  locked s me pr H V R l d c0 lk -> lg_lock (f l) = lg_lock l ->
  wp (updlog f) (fun _ s' => locked s' me pr H V R (f l) d c0 lk) s.
Proof. intros [[Hc <- Hd] Hcpu Hok Hlk Hidle] Hf. apply wp_modify. split; [by split|done..|by rewrite Hf|done]. Qed.

(** [wakeup(&log)] changes only sleeping processes. *)
Lemma locked_wakeup s H V R l d c0 lk :
  locked s me pr H V R l d c0 lk -> wp (wakeup KLog) (fun _ s' => locked s' me pr H V R l d c0 lk) s.
Proof.
  intros [[Hc <- Hd] Hcpu Hok Hlk Hidle]. pose proof (ca_quiet _ _ _ _ _ _ Hc) as Hq. pose proof Hq as [Hcok Hr _ _ Hp].
  eapply wp_ok; [eapply wakeup_run; [done|intros i _; apply Hp]|].
  cbn. rewrite Hr, Hcpu, settle_push by done. split; [|done..]. split; [|done|done].
  apply (cache_env (j:=15%nat) (dp:=15%nat) (ls_b s)); [done|]. cbn. rewrite Hcpu in Hq. by apply quiet_wake.
Qed.

Lemma locked_put_lhblock s H V R l d c0 lk i b :
  locked s me pr H V R l d c0 lk -> 0 <= i < Z.of_nat (length (lg_block l)) ->
  wp (put_lhblock i b) (fun _ s' =>
    locked s' me pr H V R (set_lhblock (<[Z.to_nat i := b]> (lg_block l)) l) d c0 lk) s.
Proof.
  intros Hl Hi. unfold put_lhblock. apply wp_bind. eapply locked_getlog; [done|].
  destruct (Z.leb_spec 0 i); [|lia]. destruct (Z.ltb_spec i (Z.of_nat (length (lg_block l)))); [|lia]. cbn.
  by eapply (locked_updlog s H V R l d c0 lk (fun l => set_lhblock (<[Z.to_nat i := b]> (lg_block l)) l)).
Qed.

Lemma locked_bpin s H V R l d c0 lk i b :
  locked s me pr H V R l d c0 lk -> H !! i = Some b -> R b + 1 < 2 ^ 32 ->
  wp (bio (bpin i)) (fun _ s' => locked s' me pr H V (bump R b 1) l d c0 lk) s.
Proof.
  intros [Hj Hcpu Hok Hlk Hidle] Hi Hr. eapply wp_mono; [by eapply (jr_bpin me pr (dp:=15%nat))|].
  intros [] s' [Hj' Hc']. split; [done| |done..]. by rewrite Hc', Hcpu, settle_push by done.
Qed.

Lemma locked_getb s H V R l d c0 lk i b (Q : buf -> lst -> Prop) :
  locked s me pr H V R l d c0 lk -> H !! i = Some b -> (forall x, b_blockno x = b -> Q x s) -> wp (bio (getb i)) Q s.
Proof.
  intros [[Hc _ _] _ _ _ _] Hi HQ. destruct (cache_held _ _ _ _ _ _ _ _ Hc Hi) as (_&[_ Hb]&_).
  apply wp_zoom, wp_gets. rewrite (put_view (l:=bioL)). by apply HQ.
Qed.
End Locked.

(** * Recording a block *)

Section Ops.
Context (me : fin NPROC) (pr : proc).
Implicit Types (H : gmap bufp Z) (V : blocks) (R : Z -> Z) (l : log) (d : disk) (L : list Z).

Lemma txn_lock l L k : txn (set_lglock k l) L <-> txn l L.
Proof. split; intros []; by split. Qed.

Lemma log_find_spec s H V R l d c0 lk L b :
  locked s me pr H V R l d c0 lk -> txn l L ->
  wp (loop (log_find b) 0) (fun r s' => s' = s /\
    exists k, r = Z.of_nat k /\ (L !! k = Some b \/ k = length L /\ b ∉ L)) s.
Proof.
  intros Hl Htx. pose proof Htx as [].
  apply (wp_loop _ (fun n i s' => s' = s /\ exists k, i = Z.of_nat k /\ (n = length L - k)%nat /\ (k <= length L)%nat /\
    forall j c, (j < k)%nat -> L !! j = Some c -> c <> b)) with (n := length L).
  - intros n i s' (->&k&->&Hn&Hk&Hno). unfold log_find. apply wp_bind. eapply locked_getlog; [done|].
    destruct (Z.ltb_spec (Z.of_nat k) (lg_n l)) as [Hlt|Hge]; cbn [negb].
    + destruct (lookup_lt_is_Some_2 L k ltac:(lia)) as [c Hc]. destruct (txn_lookup l L k c Htx Hc) as (Hlc&Hh&_).
      apply wp_bind. eapply (wp_get_lhblock me pr (dp:=15%nat)); [apply Hl|lia|by rewrite Nat2Z.id|].
      unfold home in Hh. rewrite u32_small by lia. destruct (Z.eqb_spec c b) as [->|Hne]; apply wp_ret.
      * split; [done|]. exists k. auto.
      * exists (length L - S k)%nat. split; [lia|]. split; [done|]. exists (S k). split_and!; [lia..|].
        intros j c' Hj Hc'. destruct (decide (j = k)) as [->|]; [by simplify_eq|]. apply (Hno j); [lia|done].
    + apply wp_ret. split; [done|]. exists k. split; [done|right]. split; [lia|].
      intros [j Hj]%list_elem_of_lookup. apply (Hno j b); [|done..]. apply lookup_lt_Some in Hj. lia.
  - split; [done|]. exists 0%nat. split_and!; [done|lia|lia|]. intros j c Hj. lia.
  - unfold LOGSIZE, MAXOPBLOCKS in *. lia.
Qed.

(** The transaction with the block [b]. *)
Definition logged (L : list Z) (b : Z) : list Z := if decide (b ∈ L) then L else L ++ [b].
Definition pinned (L : list Z) (b : Z) (R : Z -> Z) : Z -> Z := if decide (b ∈ L) then R else bump R b 1.

Lemma txn_append l L b :
  txn l L -> home l b -> b ∉ L -> lg_n l < LOGSIZE -> lg_n l + 1 < lg_size l ->
  txn (set_lhn (lg_n l + 1) (set_lhblock (<[length L := b]> (lg_block l)) l)) (L ++ [b]).
Proof.
  intros [] Hb HbL Hn Hs. split; cbn; rewrite ?length_insert, ?length_app; cbn; try done; try lia.
  - rewrite Nat.add_comm. cbn. erewrite take_S_r; [|apply list_lookup_insert_eq; lia].
    rewrite take_insert_ge by lia. by rewrite tx_take.
  - apply NoDup_app. split_and!; [done| |apply NoDup_singleton]. intros x Hx ->%list_elem_of_singleton. done.
  - apply Forall_app. split; [done|by constructor].
Qed.

Lemma log_write_spec s H V R l d L i b :
  jr s me pr H V R l d -> txn l L -> idle (lg_lock l) -> H !! i = Some b -> home l b -> R b + 1 < 2 ^ 32 ->
  lg_n l < LOGSIZE -> lg_n l + 1 < lg_size l -> 1 <= lg_outstanding l ->
  wp (log_write i) (fun _ s' => exists l',
    jr s' me pr H V (pinned L b R) l' d /\ txn l' (logged L b) /\ lg_lock l' = lg_lock l /\
    lg_start l' = lg_start l /\ lg_size l' = lg_size l /\
    lg_outstanding l' = lg_outstanding l /\ lg_committing l' = lg_committing l) s.
Proof.
  intros Hj Htx Hidle Hi Hb Hr Hn Hs Ho. unfold log_write. wseq locked_acquire; [done..|]. cbv beta. intros [] s1 Hl1.
  set (l1 := set_lglock _ l) in *. set (c0 := bs_cpu (ls_b s)) in *.
  apply wp_bind. eapply locked_getlog; [done|]. cbn [l1 set_lglock lg_n lg_size lg_outstanding].
  destruct (Z.leb_spec LOGSIZE (lg_n l)); [lia|]. destruct (Z.leb_spec (lg_size l - 1) (lg_n l)); [lia|]. cbn [orb].
  destruct (Z.ltb_spec (lg_outstanding l) 1); [lia|].
  apply wp_bind. eapply locked_getb; [done..|]. intros x Hx. rewrite Hx.
  wseq (log_find_spec s1 H V R l1 d c0 (lg_lock l) L b Hl1); [by apply txn_lock|]. cbv beta.
  intros r s2 (->&k&->&Hk). pose proof Htx as [].
  assert (Hkb : (k <= length L)%nat) by (destruct Hk as [Hk|[-> _]]; [apply lookup_lt_Some in Hk|]; lia).
  rewrite (s32_small b) by (unfold home in Hb; lia).
  wseq (locked_put_lhblock me pr s1 H V R l1 d c0 (lg_lock l) (Z.of_nat k) b Hl1); [cbn; lia|].
  cbv beta. rewrite Nat2Z.id. intros [] s2 Hl2. set (l2 := set_lhblock _ l1) in *.
  unfold logged, pinned. destruct Hk as [Hk|[-> HbL]].
  - rewrite !decide_True by (by apply (list_elem_of_lookup_2 _ k)). apply lookup_lt_Some in Hk as Hlt.
    destruct (Z.eqb_spec (Z.of_nat k) (lg_n l)); [lia|]. cbn [when]. apply wp_bind, wp_ret.
    eapply wp_mono; [by eapply locked_release|]. cbv beta. intros [] s3 Hj3. exists l. split; [|by split_and!].
    destruct (txn_lookup l L k b Htx Hk) as (Hlb&_). unfold l2, l1 in Hj3. cbn in Hj3.
    rewrite list_insert_id in Hj3 by done. by destruct l.
  - rewrite !decide_False by done. destruct (Z.eqb_spec (Z.of_nat (length L)) (lg_n l)); [|lia]. cbn [when].
    apply wp_bind. wseq (locked_bpin me pr s2 H V R l2 d c0 (lg_lock l) i b Hl2 Hi Hr). intros [] s3 Hl3.
    eapply wp_mono; [eapply (locked_updlog me pr s3 _ _ _ _ _ _ _ (fun l => set_lhn (lg_n l + 1) l) Hl3); done|].
    cbv beta. intros [] s4 Hl4. eapply wp_mono; [by eapply locked_release|]. cbv beta. intros [] s5 Hj5.
    eexists. split; [exact Hj5|]. split; [|done].
    exact (proj2 (txn_lock _ _ (lg_lock l)) (txn_append l L b Htx Hb HbL Hn Hs)).
Qed.

(** * Beginning and ending *)

(** There is room for an operation. *)
Definition admits (l : log) : Prop := lg_committing l = 0 /\ lg_n l + (lg_outstanding l + 1) * MAXOPBLOCKS <= LOGSIZE.

Lemma begin_op_spec s H V R l d :
  jr s me pr H V R l d -> idle (lg_lock l) -> admits l ->
  wp begin_op (fun _ s' => jr s' me pr H V R (set_outstanding (lg_outstanding l + 1) l) d) s.
Proof.
  intros Hj Hidle [Hc Hn]. unfold begin_op. wseq locked_acquire; [done..|]. cbv beta. intros [] s1 Hl1.
  assert (Hw : wp (begin_op_try tt) (fun r s' => r = inr tt /\
    jr s' me pr H V R (set_outstanding (lg_outstanding l + 1) l) d) s1).
  { unfold begin_op_try. apply wp_bind. eapply locked_getlog; [done|]. cbn [set_lglock lg_n lg_outstanding lg_committing].
    rewrite Hc. cbn [nz Z.eqb negb]. destruct (Z.ltb_spec LOGSIZE (lg_n l + (lg_outstanding l + 1) * MAXOPBLOCKS)); [lia|].
    wseq (locked_updlog me pr s1 _ _ _ _ _ _ _ (fun l => set_outstanding (lg_outstanding l + 1) l) Hl1); [done|].
    cbv beta. intros [] s2 Hl2. wseq locked_release; [done|]. cbv beta. intros [] s3 Hj3. apply wp_ret. split; [done|].
    by destruct l. }
  apply wp_run in Hw as (r&s2&Hrun&->&Hj2). eapply wp_ok; [by apply loop_once|done].
Qed.

(** The log after the last operation of a transaction. *)
Definition ended (l : log) : log := set_committing 0 (set_lhn 0 (set_committing 1 (set_outstanding (lg_outstanding l - 1) l))).

(** [end_op] of the last operation, around the commit. *)
Lemma end_op_around s V R l d l' V' R' d' :
  jr s me pr ∅ V R l d -> idle (lg_lock l) -> lg_committing l = 0 -> lg_outstanding l = 1 -> lg_lock l' = lg_lock l ->
  (forall s4, jr s4 me pr ∅ V R (set_committing 1 (set_outstanding (lg_outstanding l - 1) l)) d ->
     wp commit (fun _ s5 => jr s5 me pr ∅ V' R' l' d') s4) ->
  wp end_op (fun _ s' => jr s' me pr ∅ V' R' (set_committing 0 l') d') s.
Proof.
  intros Hj Hidle Hc Ho Hlk Hcommit. unfold end_op. wseq locked_acquire; [done..|]. cbv beta. intros [] s1 Hl1.
  wseq (locked_updlog me pr s1 _ _ _ _ _ _ _ (fun l => set_outstanding (lg_outstanding l - 1) l) Hl1); [done|].
  cbv beta. intros [] s2 Hl2. apply wp_bind. eapply locked_getlog; [done|].
  cbn [set_outstanding set_lglock lg_committing lg_outstanding]. rewrite Hc, Ho. cbn [nz Z.eqb negb Z.sub Z.add Z.opp Z.pos_sub].
  wseq (locked_updlog me pr s2 _ _ _ _ _ _ _ (set_committing 1) Hl2); [done|]. cbv beta. intros [] s3 Hl3.
  wseq locked_release; [done|]. cbv beta. intros [] s4 Hj4. cbn [when].
  wseq (Hcommit s4); [by destruct l|]. cbv beta. intros [] s5 Hj5.
  wseq (locked_acquire me pr s5 _ _ _ _ _ Hj5); [by rewrite Hlk|]. cbv beta. intros [] s6 Hl6.
  wseq (locked_updlog me pr s6 _ _ _ _ _ _ _ (set_committing 0) Hl6); [done|]. cbv beta. intros [] s7 Hl7.
  wseq locked_wakeup; [done|]. cbv beta. intros [] s8 Hl8.
  eapply wp_mono; [by eapply locked_release|]. cbv beta. intros [] s9 Hj9. by destruct l'.
Qed.

Lemma end_op_spec s V R l d L :
  jr s me pr ∅ V R l d -> txn l L -> idle (lg_lock l) -> lg_committing l = 0 -> lg_outstanding l = 1 ->
  room R -> (forall c, 0 <= R c < 2 ^ 31) -> (forall b, b ∈ L -> 0 < R b) -> L <> [] ->
  wp end_op (fun _ s' => jr s' me pr ∅ (apply_writes V (commit_writes l L V)) (unpinned L R) (ended l)
    (dapp d (commit_writes l L V))) s.
Proof.
  intros Hj Htx Hidle Hc Ho Hroom HR Hpin Hne.
  apply (end_op_around s V R l d (set_lhn 0 (set_committing 1 (set_outstanding (lg_outstanding l - 1) l)))); try done.
  intros s4 Hj4. set (l4 := set_committing 1 _) in *. assert (Htx4 : txn l4 L) by (destruct Htx; by split).
  change (commit_writes l L V) with (commit_writes l4 L V). by apply commit_spec.
Qed.

(** Nothing was written: there is nothing to commit. *)
Lemma end_op_nothing s V R l d :
  jr s me pr ∅ V R l d -> txn l [] -> idle (lg_lock l) -> lg_committing l = 0 -> lg_outstanding l = 1 ->
  wp end_op (fun _ s' => jr s' me pr ∅ V R (ended l) d) s.
Proof.
  intros Hj Htx Hidle Hc Ho. pose proof (tx_n _ _ Htx) as Hn. cbn in Hn.
  apply (end_op_around s V R l d (set_lhn 0 (set_committing 1 (set_outstanding (lg_outstanding l - 1) l)))); try done.
  intros s4 Hj4. unfold commit. apply wp_bind. unfold getlog. apply wp_gets. rewrite (jr_log _ _ _ _ _ _ _ _ Hj4).
  change (lg_n (set_committing 1 _)) with (lg_n l). rewrite Hn. cbn [Z.ltb Z.compare when]. apply wp_ret.
  replace (set_lhn 0 _) with (set_committing 1 (set_outstanding (lg_outstanding l - 1) l)); [done|].
  destruct l. cbn in *. by subst.
Qed.
End Ops.

(** * Whole transactions *)

(** One reference for every block of the transaction. *)
Definition pins (L : list Z) : Z -> Z := fun b => if decide (b ∈ L) then 1 else 0.

(** The header on disk is of an empty log. *)
Definition empty_log (l : log) (d : disk) : Prop :=
  hdr_n (dread d (lg_start l)) = 0 /\ blk (dread d (lg_start l)).

(** Inside an operation: the contents [V] differ from the disk at most on [L]. *)
Record active (s : lst) (me : fin NPROC) (pr : proc) (V : blocks) (l : log) (d : disk) (L : list Z) : Prop := {
  ac_jr : jr s me pr ∅ V (pins L) l d;
  ac_txn : txn l L;
  ac_idle : idle (lg_lock l);
  ac_op : lg_committing l = 0 /\ lg_outstanding l = 1;
  ac_size : lg_size l <= LOGSIZE;
  ac_empty : empty_log l d;
  ac_clean b : b ∉ L -> V b = dread d b;
}.

(** Between operations: the cache shows the disk. *)
Record quiescent (s : lst) (me : fin NPROC) (pr : proc) (l : log) (d : disk) : Prop := {
  qu_jr : jr s me pr ∅ (dread d) (fun _ => 0) l d;
  qu_txn : txn l [];
  qu_idle : idle (lg_lock l);
  qu_op : lg_committing l = 0 /\ lg_outstanding l = 0;
  qu_size : lg_size l <= LOGSIZE;
  qu_empty : empty_log l d;
}.

(** How the file system changes a block. *)
Definition update (b : Z) (f : list Z -> list Z) : M lst unit :=
  i <- breadi ROOTDEV b ;;
  bio (updb i (fun x => set_bdata (f (b_data x)) x)) ;;
  log_write i ;;
  bio (brelse i).

Definition transaction (us : list (Z * (list Z -> list Z))) : M lst unit :=
  begin_op ;;
  forM us (fun u => update (fst u) (snd u)) ;;
  end_op.

(** The contents after the updates. *)
Definition updated (V : blocks) (us : list (Z * (list Z -> list Z))) : blocks :=
  foldl (fun V u => setv V (fst u) (snd u (V (fst u)))) V us.

Section Transactions.
Context (me : fin NPROC) (pr : proc).
Implicit Types (V : blocks) (l : log) (d : disk) (L : list Z).

Lemma pins_room L : (length L < NBUF)%nat -> room (pins L).
Proof. intros HL. exists L. split; [done|]. intros b. unfold pins. case_decide; [done|lia]. Qed.

Lemma pins_range L c : 0 <= pins L c < 2 ^ 31.
Proof. unfold pins. case_decide; lia. Qed.

Lemma active_length s V l d L : active s me pr V l d L -> (length L < NBUF)%nat.
Proof. intros [_ [] _ _ Hs _ _]. unfold LOGSIZE, MAXOPBLOCKS, NBUF in *. lia. Qed.

Lemma update_spec s V l d L b f :
  active s me pr V l d L -> home l b -> Z.of_nat (length L) + 1 < lg_size l ->
  wp (update b f) (fun _ s' => exists l', active s' me pr (setv V b (f (V b))) l' d (logged L b) /\
    lg_start l' = lg_start l /\ lg_size l' = lg_size l) s.
Proof.
  intros Hac Hb HL. pose proof (active_length _ _ _ _ _ Hac) as HL'. pose proof Hac as [Hj Htx Hidle [Hc Ho] Hs He Hcl].
  pose proof (pins_range L b). pose proof (tx_n _ _ Htx) as Hn.
  unfold update. wseq jr_bread; [exact Hj|done|unfold home in Hb; lia|intros; by rewrite lookup_empty|
    right; by apply pins_room|lia|]. intros i s1 [_ Hj1].
  wseq (jr_data me pr s1 _ V _ l d i b f Hj1); [by rewrite lookup_insert_eq|]. intros [] s2 Hj2.
  wseq (log_write_spec me pr s2 _ _ _ l d L i b Hj2 Htx Hidle); [by rewrite lookup_insert_eq|done| | |lia|lia|].
  { rewrite bump_same. lia. }
  { lia. }
  cbv beta. intros [] s3 (l'&Hj3&Htx3&Hlk&Hst&Hsz&Hou&Hco).
  eapply wp_mono; [eapply jr_brelse; [exact Hj3|by rewrite lookup_insert_eq|]|].
  { left. unfold pinned, pins. case_decide; rewrite ?bump_same; rewrite ?decide_True, ?decide_False by done; lia. }
  cbv beta. intros [] s4 Hj4. rewrite delete_insert_id in Hj4 by done. exists l'. split; [|done].
  split; [|done|by rewrite Hlk|by rewrite Hco, Hou|by rewrite Hsz| |].
  - eapply jr_ext; [exact Hj4|done|]. intros c. unfold logged, pinned, pins, bump.
    destruct (decide (b ∈ L)), (Z.eqb_spec c b) as [->|]; rewrite ?Z.eqb_refl; try done; repeat case_decide;
      rewrite ?elem_of_app, ?list_elem_of_singleton in *; try tauto; lia.
  - unfold empty_log. by rewrite Hst.
  - intros c Hc'. assert (c <> b /\ c ∉ L) as [Hcb HcL].
    { unfold logged in Hc'. case_decide; [split; [by intros ->|done]|].
      rewrite elem_of_app, list_elem_of_singleton in Hc'. tauto. }
    rewrite setv_ne by done. by apply Hcl.
Qed.

Lemma logged_length L b : (length (logged L b) <= length L + 1)%nat.
Proof. unfold logged. case_decide; rewrite ?length_app; cbn; lia. Qed.

Lemma updates_spec s V l d us :
  active s me pr V l d [] -> Forall (home l) us.*1 -> Z.of_nat (length us) < lg_size l ->
  wp (forM us (fun u => update (fst u) (snd u))) (fun _ s' => exists l',
    active s' me pr (updated V us) l' d (foldl logged [] us.*1) /\
    lg_start l' = lg_start l /\ lg_size l' = lg_size l) s.
Proof.
  intros Hac Hus Hlen.
  eapply wp_mono.
  - apply (wp_forM us _ (fun dn s' => exists l', active s' me pr (updated V dn) l' d (foldl logged [] dn.*1) /\
      lg_start l' = lg_start l /\ lg_size l' = lg_size l /\ (length (foldl logged [] dn.*1) <= length dn)%nat)).
    { by exists l. }
    intros dn [b f] todo s' E (l'&Hac'&Hst&Hsz&Hl').
    assert (Hb : home l b).
    { rewrite Forall_forall in Hus. apply Hus. rewrite E, fmap_app. apply elem_of_app. right. by left. }
    assert (Hlt : (length dn < length us)%nat) by (rewrite E, length_app; cbn; lia).
    eapply wp_mono; [apply (update_spec s' (updated V dn) l' d _ b f Hac')|].
    + unfold home in *. by rewrite Hst, Hsz.
    + rewrite Hsz. lia.
    + cbv beta. intros [] s'' (l''&Hac''&Hst'&Hsz'). exists l''. unfold updated in *.
      rewrite fmap_app, !foldl_app, length_app. cbn. split_and!; [done|congruence|congruence|].
      pose proof (logged_length (foldl logged [] dn.*1) b). lia.
  - cbv beta. intros [] s' (l'&?&?&?&_). by exists l'.
Qed.

(** The cache and the disk agree on what a commit has written. *)
Lemma apply_writes_agree ws : forall V D b, b ∈ ws.*1 \/ V b = D b -> apply_writes V ws b = apply_writes D ws b.
Proof.
  induction ws as [|[a x] ws IH]; intros V D b Hb; [by destruct Hb as [?%elem_of_nil|]|]. cbn. apply IH.
  cbn in Hb. rewrite elem_of_cons in Hb. destruct (decide (b = a)) as [->|Hne].
  - right. unfold set_block. cbn. by rewrite Z.eqb_refl.
  - destruct Hb as [[?|?]|E]; [done|by left|right]. unfold set_block. cbn. by apply Z.eqb_neq in Hne as ->.
Qed.

Lemma unpinned_pins L c : unpinned L (pins L) c = 0.
Proof. unfold unpinned, pins. by case_decide. Qed.

Lemma commit_home_keys l L V b : b ∈ L -> b ∈ (commit_writes l L V).*1.
Proof.
  intros Hb. unfold commit_writes, at_home. rewrite !fmap_app, !elem_of_app. right. right. left.
  rewrite <- list_fmap_compose. apply list_elem_of_fmap. by exists b.
Qed.

Lemma txn_ended l L : txn l L -> txn (ended l) [].
Proof. intros []. split; cbn; try done; try lia; by constructor. Qed.

Lemma end_active s V l d L :
  active s me pr V l d L -> L <> [] ->
  wp end_op (fun _ s' => quiescent s' me pr (ended l) (dapp d (commit_writes l L V))) s.
Proof.
  intros Hac Hne. pose proof (active_length _ _ _ _ _ Hac) as HL. pose proof Hac as [Hj Htx Hidle [Hc Ho] Hs [He Hb] Hcl].
  eapply wp_mono; [apply (end_op_spec me pr s V (pins L) l d L); try done|].
  - by apply pins_room.
  - apply pins_range.
  - intros b HbL. unfold pins. rewrite decide_True by done. lia.
  - cbv beta. intros [] s' Hj'.
    assert (Hst : V (lg_start l) = dread d (lg_start l)).
    { apply Hcl. intros Hin. destruct Htx as [_ ? _ _ ? _ _ Hh]. rewrite Forall_forall in Hh.
      specialize (Hh _ Hin). unfold home in Hh. lia. }
    destruct (commit_done l L Htx (dread d) V Hb Hst (fun b _ => Hcl b)) as [[Hblk _] [Hn _]].
    split; [|by eapply txn_ended|done|cbn; lia|done|].
    + eapply jr_ext; [exact Hj'| |]; [|intros; by rewrite unpinned_pins]. intros b. rewrite dread_dapp. symmetry.
      apply apply_writes_agree. destruct (decide (b ∈ L)); [left; by apply commit_home_keys|right; by apply Hcl].
    + unfold empty_log. change (lg_start (ended l)) with (lg_start l). by rewrite dread_dapp.
Qed.
Lemma end_nothing s V l d :
  active s me pr V l d [] -> wp end_op (fun _ s' => quiescent s' me pr (ended l) d) s.
Proof.
  intros [Hj Htx Hidle [Hc Ho] Hs He Hcl]. eapply wp_mono; [by apply (end_op_nothing me pr s V (pins []) l d)|].
  cbv beta. intros [] s' Hj'. split; [|by eapply txn_ended|done|cbn; lia|done|done].
  eapply jr_ext; [exact Hj'| |]; intros b; [symmetry; apply Hcl; by intros ?%elem_of_nil|].
  unfold pins. by rewrite decide_False by (by intros ?%elem_of_nil).
Qed.
End Transactions.

(** ** Beginning *)

Lemma begin_active me pr s l d :
  quiescent s me pr l d ->
  wp begin_op (fun _ s' => active s' me pr (dread d) (set_outstanding 1 l) d []) s.
Proof.
  intros [Hj Htx Hidle [Hc Ho] Hs He].
  eapply wp_mono; [apply (begin_op_spec me pr s ∅ _ _ l d Hj Hidle)|].
  - split; [done|]. rewrite Ho, (tx_n _ _ Htx). by vm_compute.
  - cbv beta. rewrite Ho. intros [] s' Hj'. split; [exact Hj'|destruct Htx; by split|done|done|done|done|done].
Qed.

Lemma updated_out us : forall V b, b ∉ us.*1 -> updated V us b = V b.
Proof.
  unfold updated. induction us as [|[a f] us IH]; intros V b Hb; [done|]. cbn in *.
  apply not_elem_of_cons in Hb as [Ha Hb]. rewrite IH by done. by rewrite setv_ne.
Qed.

(** [home], [clean] and [durable] depend only on where the log is. *)
Lemma clean_log l l' D F : lg_start l = lg_start l' -> lg_size l = lg_size l' -> clean l D F -> clean l' D F.
Proof. intros Hst Hsz [H1 H2]. split; [by rewrite <- Hst|]. intros b Hb. apply H2. unfold home in *. by rewrite Hst, Hsz. Qed.

Lemma durable_log l l' D F : lg_start l = lg_start l' -> lg_size l = lg_size l' -> durable l D F -> durable l' D F.
Proof.
  intros Hst Hsz [Hb Hd]. split; [by rewrite <- Hst|]. destruct Hd as [Hd|[L [H1 H2 H3 H4 H5 H6]]]; [left; by eapply clean_log|right].
  exists L. split; rewrite <- ?Hst, <- ?Hsz; try done.
  - eapply Forall_impl; [exact H3|]. intros b. unfold home. by rewrite Hst, Hsz.
  - intros b Hbh. apply H6. unfold home in *. by rewrite Hst, Hsz.
Qed.

(** What a transaction in progress finds on the disk. *)
Lemma active_log_empty s me pr V l d L : active s me pr V l d L ->
  hdr_n (dread d (lg_start l)) = 0 /\ blk (dread d (lg_start l)) /\ V (lg_start l) = dread d (lg_start l).
Proof.
  intros [_ Htx _ _ _ [Hn Hb] Hcl]. split_and!; [done..|]. apply Hcl. intros Hin.
  destruct Htx as [_ ? _ _ ? _ _ Hh]. rewrite Forall_forall in Hh. specialize (Hh _ Hin). unfold home in Hh. lia.
Qed.

(** The end of an operation, whether or not it has written: the disk has its blocks. *)
Lemma end_any me pr s V l d L :
  active s me pr V l d L ->
  wp end_op (fun _ s' => exists d', quiescent s' me pr (ended l) d' /\ forall b, home l b -> dread d' b = V b) s.
Proof.
  intros Hac. destruct (decide (L = [])) as [->|Hne].
  - eapply wp_mono; [by apply (end_nothing me pr s V l d)|]. cbv beta. intros [] s' Hq. exists d. split; [done|]. intros b _.
    symmetry. apply (ac_clean _ _ _ _ _ _ _ Hac). by intros ?%elem_of_nil.
  - eapply wp_mono; [by apply (end_active me pr s V l d L)|]. cbv beta. intros [] s' Hq. eexists. split; [exact Hq|].
    rewrite dread_dapp. destruct (active_log_empty _ _ _ _ _ _ _ Hac) as (Hn & Hb & Hh).
    apply (commit_done l L (ac_txn _ _ _ _ _ _ _ Hac) (dread d) V Hb Hh (fun b _ => ac_clean _ _ _ _ _ _ _ Hac b)).
Qed.

Lemma logged_not_nil bs : forall L b, foldl logged L (b :: bs) <> [].
Proof.
  induction bs as [|c bs IH]; intros L b; [|apply (IH (logged L b))].
  cbn. unfold logged. case_decide as H; [by intros ->; apply elem_of_nil in H|]. by destruct L.
Qed.

(** Recovery from a disk that stands for [F] or for [F']. *)
Lemma durable_crash me pr s l l' d F F' :
  geom l -> booted s me pr l d -> lg_start l = lg_start l' -> lg_size l = lg_size l' ->
  durable l (dread d) F \/ durable l (dread d) F' ->
  wp recover_from_log (fun _ s' =>
    clean l' (dread (bs_disk (ls_b s'))) F \/ clean l' (dread (bs_disk (ls_b s'))) F') s.
Proof.
  intros Hg Hb Hst Hsz [Hd|Hd]; (eapply wp_mono; [by apply (recover_spec me pr l s d _ Hg Hb Hd)|]); cbv beta;
    intros [] s' (ws&l1&[_ _ Hdk]&_&_&_&_&_&Hcl&_); rewrite Hdk; [left|right]; by eapply clean_log.
Qed.

(** * Theorems *)

(** C1: a system call's updates are atomic. For every sequence of at most 29 block
    updates made between [begin_op] and [end_op], the code returns with the log
    empty again and the updated contents on the disk; and if the machine stops
    after any prefix of the writes that [end_op] sends to the disk and boots
    again, [recover_from_log] leaves on the disk either all of the old contents
    or all of the new ones. *)
Theorem transaction_atomic me pr s l d us :
  quiescent s me pr l d -> us <> [] -> Forall (home l) us.*1 -> Z.of_nat (length us) < lg_size l ->
  wp (transaction us) (fun _ s' => exists l' ws,
    quiescent s' me pr l' (dapp d ws) /\
    clean l (dread (dapp d ws)) (updated (dread d) us) /\
    forall k s2 me2 pr2 l2, geom l2 -> lg_start l2 = lg_start l -> lg_size l2 = lg_size l ->
      booted s2 me2 pr2 l2 (dapp d (take k ws)) ->
      wp recover_from_log (fun _ s3 =>
        clean l (dread (bs_disk (ls_b s3))) (dread d) \/
        clean l (dread (bs_disk (ls_b s3))) (updated (dread d) us)) s2) s.
Proof.
  intros Hq Hne Hus Hlen. unfold transaction. wseq begin_active; [done|]. cbv beta. intros [] s1 Hac1.
  wseq (updates_spec me pr s1 _ (set_outstanding 1 l) d us Hac1); [done|done|]. cbv beta.
  intros [] s2 (l2&Hac2&Hst&Hsz). set (L := foldl logged [] us.*1) in *. set (V := updated (dread d) us) in *.
  cbn in Hst, Hsz. pose proof (active_log_empty _ _ _ _ _ _ _ Hac2) as (Hn&Hb&Hh).
  pose proof (ac_txn _ _ _ _ _ _ _ Hac2) as Htx2.
  eapply wp_mono; [apply (end_active me pr s2 V l2 d L Hac2)|].
  { unfold L. destruct us as [|u us]; [done|]. apply logged_not_nil. }
  cbv beta. intros [] s3 Hq3. exists (ended l2), (commit_writes l2 L V).
  split; [done|]. rewrite dread_dapp.
  split; [by apply (clean_log l2 l), (commit_done l2 L Htx2 (dread d) V Hb Hh (fun b _ => ac_clean _ _ _ _ _ _ _ Hac2 b))|].
  intros k s4 me2 pr2 l4 Hg Hst4 Hsz4 Hboot. apply durable_crash with (l := l4) (me := me2) (pr := pr2) (d := dapp d (take k (commit_writes l2 L V))); [done..|congruence|congruence|].
  rewrite dread_dapp.
  destruct (commit_prefix l2 L Htx2 (dread d) V Hn Hb Hh (fun b _ => ac_clean _ _ _ _ _ _ _ Hac2 b) k) as [Hd|Hd];
    [left|right]; (apply (durable_log l2); [congruence..|done]).
Qed.

(** * A machine to run on *)

(** The first process runs on the first CPU, after [binit] on zeroed data. *)
Module Machine.
Definition lk0 : spinlock := Spinlock 0 "bss" None.
Definition proc0 : proc :=
  Proc lk0 UNUSED None 0 0 1 None 0 0 0 0 (Context 0 0 []) (vreplicate NOFILE None) None []
    (vreplicate 16 (Vma 0 0 0 0 None 0 0 0)).
Definition ptab0 : ptab := Ptab (vreplicate NPROC proc0) None 1 lk0 lk0.
Definition cpu0 : cpu := Cpu 0 false (Some 0%fin) 0 false.
Definition buf0 : buf := Buf 0 0 0 0 (Sleeplock 0 lk0 "bss" 0) 0 bhead bhead [].
Definition disk0 : disk := Disk (fun _ => replicate 1024 0) [].
Definition bss (d : disk) : bst := Bst cpu0 ptab0 lk0 (vreplicate (S NBUF) buf0) d.
Definition log0 : log := Log lk0 2 30 0 0 ROOTDEV 0 (replicate 30 0).

Lemma procs_idle i : idle (p_lock (pt_proc ptab0 !!! i)).
Proof. unfold ptab0. cbn [pt_proc]. by rewrite vlookup_replicate. Qed.

Lemma boot d : exists s, booted (Lst s log0) 0%fin proc0 log0 d.
Proof.
  destruct (wp_run _ _ _ (binit_spec (bss d) ltac:(intros k; unfold bss; cbn [bs_buf]; by rewrite vlookup_replicate)))
    as ([]&s&_&Hd&Hlk&Hc).
  exists (Bst cpu0 ptab0 (bs_lock s) (bs_buf s) (bs_disk s)). split; [|reflexivity|exact Hd].
  apply (Hc cpu0 ptab0 0%fin proc0). split; [by split|reflexivity|apply vlookup_replicate|exact Hlk|exact procs_idle].
Qed.

Lemma log0_geom : geom log0.
Proof. by split; vm_compute. Qed.
Lemma log0_txn : txn log0 [].
Proof.
  split; [reflexivity|cbn; lia|reflexivity|reflexivity| |reflexivity|constructor|constructor].
  split; [cbn; lia|cbn; lia].
Qed.
Lemma disk0_head : hdr_n (dread disk0 (lg_start log0)) = 0 /\ blk (dread disk0 (lg_start log0)).
Proof. by vm_compute. Qed.
End Machine.

Lemma machine_quiescent d :
  empty_log Machine.log0 d -> exists s, quiescent s 0%fin Machine.proc0 Machine.log0 d.
Proof.
  intros Hd. destruct (Machine.boot d) as [s Hs]. exists (Lst s Machine.log0).
  split; [exact Hs|exact Machine.log0_txn|done|done|done|exact Hd].
Qed.

Definition sample_updates : list (Z * (list Z -> list Z)) := [(40, fun _ => replicate 1024 7); (41, fun d => d)].

Lemma transaction_atomic_witness : exists s,
  quiescent s 0%fin Machine.proc0 Machine.log0 Machine.disk0 /\
  wp (transaction sample_updates) (fun _ s' => exists l' ws,
    quiescent s' 0%fin Machine.proc0 l' (dapp Machine.disk0 ws) /\
    clean Machine.log0 (dread (dapp Machine.disk0 ws)) (updated (dread Machine.disk0) sample_updates) /\
    forall k s2 me2 pr2 l2, geom l2 -> lg_start l2 = lg_start Machine.log0 -> lg_size l2 = lg_size Machine.log0 ->
      booted s2 me2 pr2 l2 (dapp Machine.disk0 (take k ws)) ->
      wp recover_from_log (fun _ s3 =>
        clean Machine.log0 (dread (bs_disk (ls_b s3))) (dread Machine.disk0) \/
        clean Machine.log0 (dread (bs_disk (ls_b s3))) (updated (dread Machine.disk0) sample_updates)) s2) s.
Proof.
  destruct (machine_quiescent Machine.disk0 Machine.disk0_head) as [s Hs]. exists s. split; [exact Hs|].
  apply (transaction_atomic 0%fin Machine.proc0 s Machine.log0 Machine.disk0 sample_updates Hs).
  - discriminate.
  - repeat constructor; cbn; lia.
  - cbn. lia.
Defined.

(** C4: recovery completes and may itself be interrupted. On a disk that stands for
    the contents [F], [recover_from_log] returns with [F] at home and an empty
    log, the cache showing the disk; and the disk stands for [F] after every
    prefix of the writes it makes, so a crash during recovery loses nothing. *)
Theorem recovery_correct me pr s l d F :
  geom l -> booted s me pr l d -> durable l (dread d) F ->
  wp recover_from_log (fun _ s' => exists ws l',
    jr s' me pr ∅ (dread (dapp d ws)) (fun _ => 0) l' (dapp d ws) /\ txn l' [] /\
    clean l (dread (dapp d ws)) F /\
    forall k, durable l (dread (dapp d (take k ws))) F) s.
Proof.
  intros Hg Hb Hd. eapply wp_mono; [by apply (recover_spec me pr l s d F)|]. cbv beta.
  intros [] s' (ws&l'&?&?&_&_&_&_&?&?). by exists ws, l'.
Qed.

Lemma recovery_correct_witness : exists s,
  booted s 0%fin Machine.proc0 Machine.log0 Machine.disk0 /\
  wp recover_from_log (fun _ s' => exists ws l',
    jr s' 0%fin Machine.proc0 ∅ (dread (dapp Machine.disk0 ws)) (fun _ => 0) l' (dapp Machine.disk0 ws) /\ txn l' [] /\
    clean Machine.log0 (dread (dapp Machine.disk0 ws)) (dread Machine.disk0) /\
    forall k, durable Machine.log0 (dread (dapp Machine.disk0 (take k ws))) (dread Machine.disk0)) s.
Proof.
  destruct (Machine.boot Machine.disk0) as [s Hs]. exists (Lst s Machine.log0). split; [exact Hs|].
  apply (recovery_correct 0%fin Machine.proc0 _ Machine.log0 Machine.disk0 (dread Machine.disk0) Machine.log0_geom Hs).
  destruct Machine.disk0_head as [Hn Hb]. split; [exact Hb|]. left. by split.
Defined.

(** The header block round trips: [write_head] stores the transaction in it so that
    the reads of [read_head] give back the count and every block number. *)
Theorem log_header_roundtrip L data :
  (length L <= Z.to_nat LOGSIZE)%nat -> length data = Z.to_nat BSIZE -> Forall (fun b => 0 <= b < 2 ^ 31) L ->
  hdr_n (head L data) = Z.of_nat (length L) /\
  hdr_block (head L data) <$> seqZ 0 (hdr_n (head L data)) = L /\
  length (head L data) = Z.to_nat BSIZE.
Proof.
  intros HL Hd Hb. rewrite (head_n L data HL Hd). split_and!; [done| |by apply head_blk].
  apply list_eq. intros i. rewrite list_lookup_fmap. destruct (L !! i) as [b|] eqn:Hi.
  - rewrite (proj2 (lookup_seqZ _ _ i (Z.of_nat i))); [|apply lookup_lt_Some in Hi; lia]. cbn. f_equal.
    apply (head_block L data i b HL Hd Hi). by apply (Forall_lookup_1 _ _ _ _ Hb Hi).
  - rewrite lookup_seqZ_ge; [done|]. apply lookup_ge_None in Hi. lia.
Qed.

Lemma log_header_roundtrip_witness :
  hdr_n (head [7; 9; 11] (replicate 1024 0)) = 3 /\
  hdr_block (head [7; 9; 11] (replicate 1024 0)) <$> seqZ 0 (hdr_n (head [7; 9; 11] (replicate 1024 0))) = [7; 9; 11] /\
  length (head [7; 9; 11] (replicate 1024 0)) = 1024%nat.
Proof.
  apply (log_header_roundtrip [7; 9; 11] (replicate 1024 0)).
  - vm_compute. lia.
  - reflexivity.
  - repeat constructor; lia.
Defined.
