(* ===== verification/Fs.v ===== *)
(** The file system below file contents: [src/kernel/fs.c], blocks and inodes.

    The state has the log (and with it cache and disk), the superblock, and the
    inode table. A [struct inode *] is an index into the table; [struct dinode]
    and [struct superblock] on disk are read from and written to block data at
    their C offsets, little endian. *)

From S2P Require Import Prelude Params Spinlock Sched Sleeplock Bio Log.
Local Open Scope kernel_scope.

(** * Data *)

Abbreviation inodep := (fin NINODE).

(** [struct inode] *)
Record inode : Type := Inode {
  i_dev : Z;
  i_inum : Z;
  i_ref : Z;
  i_lock : sleeplock;
  i_valid : Z;
  i_type : Z;
  i_major : Z;
  i_minor : Z;
  i_nlink : Z;
  i_size : Z;
  i_addrs : list Z;
}.

Definition set_ikey (dev inum : Z) (i : inode) : inode :=
  Inode dev inum (i_ref i) (i_lock i) (i_valid i) (i_type i) (i_major i) (i_minor i) (i_nlink i) (i_size i) (i_addrs i).
Definition set_iref (x : Z) (i : inode) : inode :=
  Inode (i_dev i) (i_inum i) x (i_lock i) (i_valid i) (i_type i) (i_major i) (i_minor i) (i_nlink i) (i_size i) (i_addrs i).
Definition set_ilock (x : sleeplock) (i : inode) : inode :=
  Inode (i_dev i) (i_inum i) (i_ref i) x (i_valid i) (i_type i) (i_major i) (i_minor i) (i_nlink i) (i_size i) (i_addrs i).
Definition set_ivalid (x : Z) (i : inode) : inode :=
  Inode (i_dev i) (i_inum i) (i_ref i) (i_lock i) x (i_type i) (i_major i) (i_minor i) (i_nlink i) (i_size i) (i_addrs i).
Definition set_itype (x : Z) (i : inode) : inode :=
  Inode (i_dev i) (i_inum i) (i_ref i) (i_lock i) (i_valid i) x (i_major i) (i_minor i) (i_nlink i) (i_size i) (i_addrs i).
Definition set_imajor (x : Z) (i : inode) : inode :=
  Inode (i_dev i) (i_inum i) (i_ref i) (i_lock i) (i_valid i) (i_type i) x (i_minor i) (i_nlink i) (i_size i) (i_addrs i).
Definition set_iminor (x : Z) (i : inode) : inode :=
  Inode (i_dev i) (i_inum i) (i_ref i) (i_lock i) (i_valid i) (i_type i) (i_major i) x (i_nlink i) (i_size i) (i_addrs i).
Definition set_inlink (x : Z) (i : inode) : inode :=
  Inode (i_dev i) (i_inum i) (i_ref i) (i_lock i) (i_valid i) (i_type i) (i_major i) (i_minor i) x (i_size i) (i_addrs i).
Definition set_isize (x : Z) (i : inode) : inode :=
  Inode (i_dev i) (i_inum i) (i_ref i) (i_lock i) (i_valid i) (i_type i) (i_major i) (i_minor i) (i_nlink i) x (i_addrs i).
Definition set_iaddrs (x : list Z) (i : inode) : inode :=
  Inode (i_dev i) (i_inum i) (i_ref i) (i_lock i) (i_valid i) (i_type i) (i_major i) (i_minor i) (i_nlink i) (i_size i) x.

Record fss : Type := Fss {
  fs_l : lst;
  fs_sb : superblock;
  fs_itlock : spinlock;
  fs_inode : vec inode NINODE;
}.

Definition fs_lL : lens fss lst := Lens fs_l (fun l s => Fss l (fs_sb s) (fs_itlock s) (fs_inode s)).
Definition itable_lock : lens fss spinlock := Lens fs_itlock (fun k s => Fss (fs_l s) (fs_sb s) k (fs_inode s)).
Definition inodesL : lens fss (vec inode NINODE) := Lens fs_inode (fun v s => Fss (fs_l s) (fs_sb s) (fs_itlock s) v).
Definition set_sb (x : superblock) (s : fss) : fss := Fss (fs_l s) x (fs_itlock s) (fs_inode s).
Definition i_lockL : lens inode sleeplock := Lens i_lock set_ilock.
Definition ip_lock (ip : inodep) : lens fss sleeplock := lens_comp (arrL inodesL ip) i_lockL.
#[export] Instance fss_cpu : HasCpu fss := lens_comp fs_lL (cpuL (S:=lst)).
#[export] Instance fss_ptab : HasPtab fss := lens_comp fs_lL (ptabL (S:=lst)).
#[export] Instance fss_swtch : HasSwtch fss := swtch_stop.
#[export] Instance fs_lL_ok : LensOk fs_lL.
Proof. solve_lens. Qed.
#[export] Instance itable_lock_ok : LensOk itable_lock.
Proof. solve_lens. Qed.
#[export] Instance inodesL_ok : LensOk inodesL.
Proof. solve_lens. Qed.
#[export] Instance i_lockL_ok : LensOk i_lockL.
Proof. solve_lens. Qed.
#[export] Instance ip_lock_ok ip : LensOk (ip_lock ip).
Proof. unfold ip_lock. apply _. Qed.
#[export] Instance fss_cpu_ok : LensOk (cpuL (S:=fss)).
Proof. apply (lens_comp_ok fs_lL (cpuL (S:=lst))); apply _. Qed.
#[export] Instance fss_ptab_ok : LensOk (ptabL (S:=fss)).
Proof. apply (lens_comp_ok fs_lL (ptabL (S:=lst))); apply _. Qed.
#[export] Instance fss_cpu_ptab : LensDisj (cpuL (S:=fss)) ptabL.
Proof. solve_lens. Qed.
#[export] Instance fss_cpu_itable : LensDisj (cpuL (S:=fss)) itable_lock.
Proof. solve_lens. Qed.
#[export] Instance fss_cpu_inodes : LensDisj (cpuL (S:=fss)) inodesL.
Proof. solve_lens. Qed.
#[export] Instance fss_ptab_inodes : LensDisj (ptabL (S:=fss)) inodesL.
Proof. solve_lens. Qed.
#[export] Instance fss_cpu_ip ip : LensDisj (cpuL (S:=fss)) (ip_lock ip).
Proof. unfold ip_lock. apply _. Qed.
#[export] Instance fss_ptab_ip ip : LensDisj (ptabL (S:=fss)) (ip_lock ip).
Proof. unfold ip_lock. apply _. Qed.

Definition logop {A} (m : M lst A) : M fss A := zoom fs_lL m.
Definition bioop {A} (m : M bst A) : M fss A := logop (bio m).
Definition getsb : M fss superblock := gets fs_sb.
Definition geti (ip : inodep) : M fss inode := gets (fun s => fs_inode s !!! ip).
Definition updi (ip : inodep) (f : inode -> inode) : M fss unit := upd (arrL inodesL ip) f.
Definition inode_obj (ip : inodep) : kobj := KInodeLock (fin_to_nat ip).

(** [bread(dev, blockno)]: both parameters are [uint]. *)
Definition fbread (dev blockno : Z) : M fss bufp := bioop (bread (u32 dev) (u32 blockno)).
Definition fdata (b : bufp) : M fss (list Z) := x <- bioop (getb b) ;; ret (b_data x).
Definition set_fdata (b : bufp) (f : list Z -> list Z) : M fss unit :=
  bioop (updb b (fun x => set_bdata (f (b_data x)) x)).

(** [data[k]] *)
Definition byte (d : list Z) (k : Z) : Z := d !!! Z.to_nat k.
Definition set_byte (k v : Z) (d : list Z) : list Z := <[Z.to_nat k := u8 v]> d.
(** [((uint* )data)[k]] *)
Definition word (d : list Z) (k : Z) : Z := get_le 4 d (Z.to_nat (4 * k)).
Definition set_word (k v : Z) (d : list Z) : list Z := put_le 4 d (Z.to_nat (4 * k)) v.

Definition BBLOCK (b : Z) (sb : superblock) : Z := b / BPB + sb_bmapstart sb.
Definition IBLOCK (i : Z) (sb : superblock) : Z := i / IPB + sb_inodestart sb.

(** * The superblock *)

Definition sb_of_bytes (d : list Z) : superblock :=
  Superblock (word d 0) (word d 1) (word d 2) (word d 3) (word d 4) (word d 5) (word d 6) (word d 7).

Definition readsb (dev : Z) : M fss unit :=
  bp <- fbread dev 1 ;;
  d <- fdata bp ;;
  modify (set_sb (sb_of_bytes d)) ;;
  bioop (brelse bp).

Definition fsinit (dev : Z) : M fss unit :=
  readsb dev ;;
  sb <- getsb ;;
  if negb (sb_magic sb =? FSMAGIC) then panic "invalid file system" else
  logop (initlog dev sb).

(** * Blocks *)

Definition bzero (dev bno : Z) : M fss unit :=
  bp <- fbread dev bno ;;
  set_fdata bp (fun _ => replicate (Z.to_nat BSIZE) 0) ;;
  logop (log_write bp) ;;
  bioop (brelse bp).

(** [m = 1 << (bi % 8)] and the test of [data[bi/8] & m] *)
Definition bitmask (bi : Z) : Z := Z.shiftl 1 (bi mod 8).
Definition bit_free (d : list Z) (bi : Z) : bool := Z.land (byte d (bi / 8)) (bitmask bi) =? 0.

(** The inner loop of [balloc]: the first free bit of the bitmap block. *)
Definition balloc_scan (d : list Z) (b size : Z) (bi : Z) : M fss (Z + option Z) :=
  if negb ((bi <? BPB) && (b + bi <? size)) then ret (inr None) else
  if bit_free d bi then ret (inr (Some bi)) else ret (inl (bi + 1)).

(** One round of the outer loop. *)
Definition balloc_step (dev b : Z) : M fss (Z + Z) :=
  sb <- getsb ;;
  if negb (b <? sb_size sb) then panic "balloc: out of blocks" else
  bp <- fbread dev (BBLOCK b sb) ;;
  d <- fdata bp ;;
  r <- loop (balloc_scan d b (sb_size sb)) 0 ;;
  match r with
  | Some bi =>
      set_fdata bp (fun d => set_byte (bi / 8) (Z.lor (byte d (bi / 8)) (bitmask bi)) d) ;;
      logop (log_write bp) ;;
      bioop (brelse bp) ;;
      bzero dev (b + bi) ;;
      ret (inr (b + bi))
  | None =>
      bioop (brelse bp) ;;
      ret (inl (b + BPB))
  end.
Definition balloc (dev : Z) : M fss Z := loop (balloc_step dev) 0.

Definition bfree (dev b : Z) : M fss unit :=
  sb <- getsb ;;
  bp <- fbread dev (BBLOCK b sb) ;;
  let bi := b mod BPB in
  d <- fdata bp ;;
  if bit_free d bi then panic "freeing free block" else
  set_fdata bp (fun d => set_byte (bi / 8) (Z.land (byte d (bi / 8)) (Z.lnot (bitmask bi))) d) ;;
  logop (log_write bp) ;;
  bioop (brelse bp).

(** * Inodes *)

Definition iinit : M fss unit :=
  initlock itable_lock "itable" ;;
  forM (indices NINODE) (fun i => initsleeplock (ip_lock i) "inode").

(** [struct dinode] at the offset of inode [inum] in its block *)
Record dinode : Type := Dinode {
  di_type : Z;
  di_major : Z;
  di_minor : Z;
  di_nlink : Z;
  di_size : Z;
  di_addrs : list Z;
}.
Definition dinode_off (inum : Z) : nat := Z.to_nat (64 * (inum mod IPB)).
Definition get_dinode (d : list Z) (inum : Z) : dinode :=
  let o := dinode_off inum in
  Dinode (s16 (get_le 2 d o)) (s16 (get_le 2 d (o + 2))) (s16 (get_le 2 d (o + 4))) (s16 (get_le 2 d (o + 6)))
    (get_le 4 d (o + 8)) ((fun k => get_le 4 d (o + 12 + 4 * k)%nat) <$> seq 0 13).
Fixpoint put_words (d : list Z) (o : nat) (l : list Z) : list Z :=
  match l with
  | [] => d
  | a :: l' => put_words (put_le 4 d o a) (o + 4) l'
  end.
Definition put_dinode (x : dinode) (inum : Z) (d : list Z) : list Z :=
  let o := dinode_off inum in
  let d := put_le 2 d o (di_type x) in
  let d := put_le 2 d (o + 2) (di_major x) in
  let d := put_le 2 d (o + 4) (di_minor x) in
  let d := put_le 2 d (o + 6) (di_nlink x) in
  let d := put_le 4 d (o + 8) (di_size x) in
  put_words d (o + 12) (di_addrs x).

(** The search of [iget]: the entry for the inode, and the first empty one. *)
Fixpoint iget_scan (dev inum : Z) (l : list inodep) (empty : option inodep) : M fss (option inodep * option inodep) :=
  match l with
  | [] => ret (None, empty)
  | ip :: l' =>
      i <- geti ip ;;
      if (0 <? i_ref i) && (i_dev i =? dev) && (i_inum i =? inum) then ret (Some ip, empty)
      else iget_scan dev inum l'
             (match empty with None => if i_ref i =? 0 then Some ip else None | Some _ => empty end)
  end.

Definition iget (dev inum : Z) : M fss inodep :=
  acquire itable_lock ;;
  r <- iget_scan dev inum (indices NINODE) None ;;
  match r with
  | (Some ip, _) =>
      updi ip (fun i => set_iref (s32 (i_ref i + 1)) i) ;;
      release itable_lock ;;
      ret ip
  | (None, Some ip) =>
      updi ip (set_ikey dev inum) ;;
      updi ip (set_iref 1) ;;
      updi ip (set_ivalid 0) ;;
      release itable_lock ;;
      ret ip
  | (None, None) => panic "iget: no inodes"
  end.

Definition ialloc_step (dev type inum : Z) : M fss (Z + inodep) :=
  sb <- getsb ;;
  if negb (inum <? sb_ninodes sb) then panic "ialloc: no inodes" else
  bp <- fbread dev (IBLOCK inum sb) ;;
  d <- fdata bp ;;
  if di_type (get_dinode d inum) =? 0 then
    set_fdata bp (put_dinode (Dinode type 0 0 0 0 (replicate 13 0)) inum) ;;
    logop (log_write bp) ;;
    bioop (brelse bp) ;;
    ip <- iget dev inum ;;
    ret (inr ip)
  else
    bioop (brelse bp) ;;
    ret (inl (inum + 1)).
Definition ialloc (dev type : Z) : M fss inodep := loop (ialloc_step dev type) 1.

Definition iupdate (ip : inodep) : M fss unit :=
  i <- geti ip ;;
  sb <- getsb ;;
  bp <- fbread (i_dev i) (IBLOCK (i_inum i) sb) ;;
  set_fdata bp (put_dinode (Dinode (i_type i) (i_major i) (i_minor i) (i_nlink i) (i_size i) (i_addrs i)) (i_inum i)) ;;
  logop (log_write bp) ;;
  bioop (brelse bp).

Definition idup (ip : inodep) : M fss inodep :=
  acquire itable_lock ;;
  updi ip (fun i => set_iref (s32 (i_ref i + 1)) i) ;;
  release itable_lock ;;
  ret ip.

(** The disk inode goes to the table entry. *)
Definition ilock_read (ip : inodep) : M fss unit :=
  i <- geti ip ;;
  sb <- getsb ;;
  bp <- fbread (i_dev i) (IBLOCK (i_inum i) sb) ;;
  d <- fdata bp ;;
  let dip := get_dinode d (i_inum i) in
  updi ip (set_itype (di_type dip)) ;;
  updi ip (set_imajor (di_major dip)) ;;
  updi ip (set_iminor (di_minor dip)) ;;
  updi ip (set_inlink (di_nlink dip)) ;;
  updi ip (set_isize (di_size dip)) ;;
  updi ip (set_iaddrs (di_addrs dip)) ;;
  bioop (brelse bp) ;;
  updi ip (set_ivalid 1) ;;
  if di_type dip =? 0 then panic "ilock: no type" else ret tt.

Definition ilock (p : option inodep) : M fss unit :=
  match p with
  | None => panic "ilock"
  | Some ip =>
      i <- geti ip ;;
      if i_ref i <? 1 then panic "ilock" else
      acquiresleep (inode_obj ip) (ip_lock ip) ;;
      i <- geti ip ;;
      when (i_valid i =? 0) (ilock_read ip)
  end.

Definition iunlock (p : option inodep) : M fss unit :=
  match p with
  | None => panic "iunlock"
  | Some ip =>
      h <- holdingsleep (ip_lock ip) ;;
      i <- geti ip ;;
      if negb h || (i_ref i <? 1) then panic "iunlock" else
      releasesleep (inode_obj ip) (ip_lock ip)
  end.

(** * Block lists *)

Definition bmap (ip : inodep) (bn : Z) : M fss Z :=
  i <- geti ip ;;
  if bn <? NDIRECT then
    let addr := i_addrs i !!! Z.to_nat bn in
    if addr =? 0 then
      addr <- balloc (i_dev i) ;;
      updi ip (fun i => set_iaddrs (<[Z.to_nat bn := addr]> (i_addrs i)) i) ;;
      ret addr
    else ret addr
  else
  let bn := bn - NDIRECT in
  if bn <? NINDIRECT then
    let addr := i_addrs i !!! Z.to_nat NDIRECT in
    addr <- (if addr =? 0 then
               addr <- balloc (i_dev i) ;;
               updi ip (fun i => set_iaddrs (<[Z.to_nat NDIRECT := addr]> (i_addrs i)) i) ;;
               ret addr
             else ret addr) ;;
    bp <- fbread (i_dev i) addr ;;
    d <- fdata bp ;;
    let addr := word d bn in
    addr <- (if addr =? 0 then
               addr <- balloc (i_dev i) ;;
               set_fdata bp (set_word bn addr) ;;
               logop (log_write bp) ;;
               ret addr
             else ret addr) ;;
    bioop (brelse bp) ;;
    ret addr
  else panic "bmap: out of range".

Definition itrunc_direct (ip : inodep) (k : Z) : M fss unit :=
  i <- geti ip ;;
  let a := i_addrs i !!! Z.to_nat k in
  when (nz a)
    (bfree (i_dev i) a ;;
     updi ip (fun i => set_iaddrs (<[Z.to_nat k := 0]> (i_addrs i)) i)).

Definition itrunc_indirect (ip : inodep) : M fss unit :=
  i <- geti ip ;;
  bp <- fbread (i_dev i) (i_addrs i !!! Z.to_nat NDIRECT) ;;
  d <- fdata bp ;;
  forM (seqZ 0 NINDIRECT) (fun j => when (nz (word d j)) (bfree (i_dev i) (word d j))) ;;
  bioop (brelse bp) ;;
  bfree (i_dev i) (i_addrs i !!! Z.to_nat NDIRECT) ;;
  updi ip (fun i => set_iaddrs (<[Z.to_nat NDIRECT := 0]> (i_addrs i)) i).

Definition itrunc (ip : inodep) : M fss unit :=
  forM (seqZ 0 NDIRECT) (itrunc_direct ip) ;;
  i <- geti ip ;;
  when (nz (i_addrs i !!! Z.to_nat NDIRECT)) (itrunc_indirect ip) ;;
  updi ip (set_isize 0) ;;
  iupdate ip.

Definition iput (ip : inodep) : M fss unit :=
  acquire itable_lock ;;
  i <- geti ip ;;
  when ((i_ref i =? 1) && nz (i_valid i) && (i_nlink i =? 0))
    (acquiresleep (inode_obj ip) (ip_lock ip) ;;
     release itable_lock ;;
     itrunc ip ;;
     updi ip (set_itype 0) ;;
     iupdate ip ;;
     updi ip (set_ivalid 0) ;;
     releasesleep (inode_obj ip) (ip_lock ip) ;;
     acquire itable_lock) ;;
  updi ip (fun i => set_iref (s32 (i_ref i - 1)) i) ;;
  release itable_lock.

Definition iunlockput (ip : inodep) : M fss unit :=
  iunlock (Some ip) ;;
  iput ip.

(** [struct stat] *)
Record stat : Type := Stat { st_dev : Z; st_ino : Z; st_type : Z; st_nlink : Z; st_size : Z }.
Definition stati (ip : inodep) : M fss stat :=
  i <- geti ip ;;
  ret (Stat (s32 (i_dev i)) (i_inum i) (i_type i) (i_nlink i) (i_size i)).
