(* ===== verification/Blocks.v ===== *)
(** The block allocator of [src/kernel/fs.c]: what [balloc], [bfree] and [bzero]
    do to the blocks, as the running operation sees them.

    [op] is the file system's state inside an operation: the contents [V] of the
    blocks, the buffers [H] that the process has locked, the blocks [L] of the
    transaction. It carries the log's relation [jr] and is what the inode layer
    builds on. *)

From stdpp Require Import gmap.
From S2P Require Import Prelude Params Spinlock Sched Sleeplock Bio Cache Log Journal Crash Txn Fs.
Local Open Scope kernel_scope.

(** * Inside an operation *)

(** The process has a buffer of the block [b]. *)
Definition holds (H : gmap bufp Z) (b : Z) : Prop := map_Exists (fun _ c => c = b) H.
#[export] Instance holds_dec H b : Decision (holds H b).
Proof. unfold holds. apply _. Defined.

(** References: one of the log's for a block of the transaction, one of a holder. *)
Definition refs (H : gmap bufp Z) (L : list Z) : Z -> Z := fun b => pins L b + (if decide (holds H b) then 1 else 0).

Lemma holds_lookup H i b : H !! i = Some b -> holds H b.
Proof. intros Hi. exists i, b. done. Qed.
Lemma holds_insert H i b c : H !! i = None -> holds (<[i:=b]> H) c <-> c = b \/ holds H c.
Proof. intros Hi. unfold holds. rewrite map_Exists_insert by done. split; intros [->|?]; auto. Qed.
Lemma holds_empty b : ~ holds ∅ b.
Proof. intros (i & c & Hi & _). by rewrite lookup_empty in Hi. Qed.
Lemma refs_range H L b : 0 <= refs H L b < 2 ^ 31.
Proof. unfold refs, pins. repeat case_decide; lia. Qed.

Lemma refs_room H L : (length L + size H < NBUF)%nat -> room (refs H L).
Proof.
  intros Hn. exists (L ++ (map_to_list H).*2). rewrite length_app, length_fmap, length_map_to_list. split; [done|].
  intros b. unfold refs, pins. rewrite elem_of_app. repeat case_decide; auto; try lia. intros _. right.
  match goal with X : holds H b |- _ => destruct X as (i & c & Hi & ->) end.
  apply list_elem_of_fmap. exists (i, b). split; [done|]. by apply elem_of_map_to_list.
Qed.

(** What stays the same within an operation: the process and its entry, where the log is, the
    disk and the superblock. Between operations ([e_active] is false) the file
    system may be read, but there is no room in the log. *)
Record env : Type := Env {
  e_me : fin NPROC;
  e_proc : proc;
  e_start : Z;
  e_size : Z;
  e_disk : disk;
  e_sb : superblock;
  e_active : bool;
}.
Abbreviation e_pid e := (p_pid (e_proc e)).
Definition room (e : env) : Z := if e_active e then e_size e else 0.

(** Blocks outside of the log. *)
Definition ehome (e : env) (b : Z) : Prop := 0 <= b < 2 ^ 31 /\ (b < e_start e \/ e_start e + e_size e <= b).

Record op (e : env) (s : fss) (H : gmap bufp Z) (V : blocks) (L : list Z) (v : vec inode NINODE) : Prop := {
  op_jr : jr (fs_l s) (e_me e) (e_proc e) H V (refs H L) (ls_log (fs_l s)) (e_disk e);
  op_inj i j b : H !! i = Some b -> H !! j = Some b -> i = j;
  op_txn : txn (ls_log (fs_l s)) L;
  op_idle : idle (lg_lock (ls_log (fs_l s)));
  op_count : lg_committing (ls_log (fs_l s)) = 0 /\ lg_outstanding (ls_log (fs_l s)) = if e_active e then 1 else 0;
  op_log : lg_start (ls_log (fs_l s)) = e_start e /\ lg_size (ls_log (fs_l s)) = e_size e /\ e_size e <= LOGSIZE;
  op_empty : empty_log (ls_log (fs_l s)) (e_disk e);
  op_clean b : b ∉ L -> V b = dread (e_disk e) b;
  op_sb : fs_sb s = e_sb e;
  op_itlock : idle (fs_itlock s);
  op_inodes : fs_inode s = v;
}.

Section Op.
Context (e : env).
Implicit Types (s : fss) (H : gmap bufp Z) (V : blocks) (L : list Z) (v : vec inode NINODE).

(** An operation starts with [begin_op] and is over with [end_op]. *)
Lemma op_active s V l L :
  e_active e = true -> active (fs_l s) (e_me e) (e_proc e) V l (e_disk e) L -> lg_start l = e_start e -> lg_size l = e_size e ->
  fs_sb s = e_sb e -> idle (fs_itlock s) -> op e s ∅ V L (fs_inode s).
Proof.
  intros Ha [Hj Htx Hi Hc Hs He Hcl] Hst Hsz Hsb Hit. pose proof (jr_log _ _ _ _ _ _ _ _ Hj) as El.
  split; rewrite ?El, ?Ha; try done; [|by rewrite <- Hsz].
  eapply jr_ext; [exact Hj|done|]. intros b. unfold refs. rewrite decide_False by apply holds_empty. lia.
Qed.
Lemma op_quiescent s l :
  e_active e = false -> quiescent (fs_l s) (e_me e) (e_proc e) l (e_disk e) -> lg_start l = e_start e -> lg_size l = e_size e ->
  fs_sb s = e_sb e -> idle (fs_itlock s) -> op e s ∅ (dread (e_disk e)) [] (fs_inode s).
Proof.
  intros Ha [Hj Htx Hi Hc Hs He] Hst Hsz Hsb Hit. pose proof (jr_log _ _ _ _ _ _ _ _ Hj) as El.
  split; rewrite ?El, ?Ha; try done. by rewrite <- Hsz.
Qed.
Lemma active_op s V L v :
  e_active e = true -> op e s ∅ V L v -> active (fs_l s) (e_me e) (e_proc e) V (ls_log (fs_l s)) (e_disk e) L.
Proof.
  intros Ha [Hj _ Htx Hi Hc (_ & Hsz & Hl) He Hcl _ _ _]. rewrite Ha in Hc. split; try done; [|by rewrite Hsz].
  eapply jr_ext; [exact Hj|done|]. intros b. unfold refs. rewrite decide_False by apply holds_empty. lia.
Qed.

(** A step of the log. *)
Lemma op_step {A} s H V L v (m : M lst A) (Q : A -> lst -> Prop) :
  op e s H V L v -> wp m Q (fs_l s) ->
  wp (logop m) (fun a s' => Q a (fs_l s') /\ fs_sb s' = e_sb e /\ idle (fs_itlock s') /\ fs_inode s' = v) s.
Proof.
  intros Hop Hm. apply wp_zoom. eapply wp_mono; [exact Hm|]. intros a t HQ.
  split; [exact HQ|]. exact (conj (op_sb _ _ _ _ _ _ Hop) (conj (op_itlock _ _ _ _ _ _ Hop) (op_inodes _ _ _ _ _ _ Hop))).
Qed.

Lemma bump_refs_insert H L i b c :
  H !! i = None -> ~ holds H b -> bump (refs H L) b 1 c = refs (<[i:=b]> H) L c.
Proof.
  intros Hi Hb. unfold bump, refs. destruct (Z.eqb_spec c b) as [->|E].
  - rewrite decide_False by done. rewrite decide_True; [lia|]. apply holds_insert; auto.
  - f_equal. apply decide_ext. rewrite holds_insert by done. tauto.
Qed.
Lemma bump_refs_delete H L i b c :
  H !! i = Some b -> (forall j, H !! j = Some b -> j = i) -> bump (refs H L) b (-1) c = refs (delete i H) L c.
Proof.
  intros Hi Hinj. unfold bump, refs. destruct (Z.eqb_spec c b) as [->|E].
  - rewrite decide_True by (by eapply holds_lookup). rewrite decide_False; [lia|].
    intros (j & x & [Hne Hj]%lookup_delete_Some & ->). by apply Hne, eq_sym, Hinj.
  - f_equal. apply decide_ext. split; intros (j & x & Hj & ->).
    + exists j, c. split; [|done]. rewrite lookup_delete_ne; [done|]. intros ->. congruence.
    + apply lookup_delete_Some in Hj as [_ Hj]. by exists j, c.
Qed.

Lemma op_fbread s H V L v b :
  op e s H V L v -> 0 <= b < 2 ^ 32 -> ~ holds H b -> (length L + size H < NBUF)%nat ->
  wp (fbread ROOTDEV b) (fun i s' => H !! i = None /\ op e s' (<[i:=b]> H) V L v) s.
Proof.
  intros Hop Hb Hnh Hn. pose proof Hop as [Hj Hinj Htx Hi Hc Hl He Hcl Hsb Hit Hin]. pose proof (refs_range H L b).
  eapply wp_mono; [eapply (op_step s H V L v (breadi ROOTDEV b)); [exact Hop|]|].
  { apply (jr_bread _ _ _ _ _ _ _ _ _ _ Hj); [done|done| |right; by apply refs_room|lia].
    intros j Hj'. apply Hnh. by eapply holds_lookup. }
  cbv beta. intros i s' ([Hi' Hj'] & Hsb' & Hit' & Hin'). split; [done|].
  pose proof (jr_log _ _ _ _ _ _ _ _ Hj') as El. split; rewrite ?El; try done.
  - eapply jr_ext; [exact Hj'|done|]. intros c. symmetry. by apply bump_refs_insert.
  - intros j k c. rewrite !lookup_insert_Some. intros [[-> ->]|[Hne Hj1]] [[<- E]|[Hne' Hk1]]; try done.
    + destruct Hnh. by eapply holds_lookup.
    + destruct Hnh. rewrite E. by eapply holds_lookup.
    + by eapply Hinj.
Qed.

Lemma op_fdata s H V L v i b (Q : list Z -> fss -> Prop) :
  op e s H V L v -> H !! i = Some b -> Q (V b) s -> wp (fdata i) Q s.
Proof.
  intros Hop Hi HQ. destruct (cache_held _ _ _ _ _ _ _ _ (jr_cache _ _ _ _ _ _ _ _ (op_jr _ _ _ _ _ _ Hop)) Hi) as (_&_&_&HV&_).
  unfold fdata. apply wp_bind, wp_zoom, wp_zoom, wp_gets. rewrite (put_view (l:=bioL)), (put_view (l:=fs_lL)).
  apply wp_ret. change (bs_buf (ls_b (fs_l s)) !!! i) with (bs_buf (view bioL (view fs_lL s)) !!! i) in HV. by rewrite HV.
Qed.

Lemma op_getsb s H V L v (Q : superblock -> fss -> Prop) : op e s H V L v -> Q (e_sb e) s -> wp getsb Q s.
Proof. intros Hop HQ. apply wp_gets. by rewrite (op_sb _ _ _ _ _ _ Hop). Qed.
Lemma op_geti s H V L v ip (Q : inode -> fss -> Prop) : op e s H V L v -> Q (v !!! ip) s -> wp (geti ip) Q s.
Proof. intros Hop HQ. apply wp_gets. by rewrite (op_inodes _ _ _ _ _ _ Hop). Qed.
Lemma op_updi s H V L v ip f :
  op e s H V L v -> wp (updi ip f) (fun _ s' => op e s' H V L (vinsert ip (f (v !!! ip)) v)) s.
Proof. intros [Hj Hinj Htx Hi Hc Hl He Hcl Hsb Hit <-]. apply wp_modify. by split. Qed.

Lemma op_brelse s H V L v i b :
  op e s H V L v -> H !! i = Some b -> wp (bioop (brelse i)) (fun _ s' => op e s' (delete i H) V L v) s.
Proof.
  intros Hop Hi. pose proof Hop as [Hj Hinj Htx Hil Hc Hl He Hcl Hsb Hit Hin].
  eapply wp_mono; [eapply (op_step s H V L v (bio (brelse i))); [exact Hop|]|].
  { apply (jr_brelse _ _ _ _ _ _ _ _ _ _ Hj Hi). unfold refs, pins. rewrite (decide_True (P:=holds H b)) by (by eapply holds_lookup).
    case_decide; [left; lia|right; by apply Hcl]. }
  cbv beta. intros [] s' (Hj' & Hsb' & Hit' & Hin'). pose proof (jr_log _ _ _ _ _ _ _ _ Hj') as El. split; rewrite ?El; try done.
  - eapply jr_ext; [exact Hj'|done|]. intros c. symmetry. apply bump_refs_delete; [done|]. intros j Hj1. by eapply Hinj.
  - intros j k c [_ H1]%lookup_delete_Some [_ H2]%lookup_delete_Some. by eapply Hinj.
Qed.

(** A change of a locked buffer, recorded in the log. *)
Lemma op_write {A} s H V L v i b f (k : M fss A) Q :
  op e s H V L v -> H !! i = Some b -> ehome e b -> Z.of_nat (length L) + 1 < room e ->
  (forall s', op e s' H (setv V b (f (V b))) (logged L b) v -> wp k Q s') ->
  wp (set_fdata i f ;; logop (log_write i) ;; k) Q s.
Proof.
  intros Hop Hi Hb HL Hk. pose proof Hop as [Hj Hinj Htx Hil [Hc Ho] (Hst & Hsz & Hle) He Hcl Hsb Hit Hin].
  pose proof (tx_n _ _ Htx) as Hn. pose proof (refs_range H L b).
  unfold room in HL. destruct (e_active e) eqn:Ha; [|lia].
  apply wp_bind. eapply wp_mono; [eapply (op_step s H V L v (bio (updb i (fun x => set_bdata (f (b_data x)) x)))); [exact Hop|]|].
  { by eapply jr_data. }
  cbv beta. intros [] s1 (Hj1 & Hsb1 & Hit1 & Hin1). pose proof (jr_log _ _ _ _ _ _ _ _ Hj1) as El1.
  apply wp_bind. apply wp_zoom. eapply wp_mono.
  { apply (log_write_spec _ _ _ _ _ _ _ _ L i b Hj1 Htx Hil Hi); [unfold home; by rewrite Hst, Hsz|lia|lia|lia|lia]. }
  cbv beta. intros [] t (l' & Hj2 & Htx2 & Hlk & Hst2 & Hsz2 & Hou & Hco). apply Hk.
  pose proof (jr_log _ _ _ _ _ _ _ _ Hj2) as El2. split; cbn; rewrite ?El2; try done.
  - eapply jr_ext; [exact Hj2|done|]. intros c. unfold refs, pinned, pins, logged, bump.
    destruct (decide (b ∈ L)), (Z.eqb_spec c b) as [->|]; try done; [|f_equal]; repeat case_decide;
      rewrite ?elem_of_app, ?list_elem_of_singleton in *; try tauto; lia.
  - by rewrite Hlk.
  - by rewrite Hco, Hou, Ha.
  - by rewrite Hst2, Hsz2.
  - unfold empty_log. by rewrite Hst2.
  - intros c Hc'. assert (c <> b /\ c ∉ L) as [Hcb HcL].
    { unfold logged in Hc'. case_decide; [split; [by intros ->|done]|].
      rewrite elem_of_app, list_elem_of_singleton in Hc'. tauto. }
    rewrite setv_ne by done. by apply Hcl.
Qed.
End Op.

(** * Runs that may panic *)

(** The run returns with [Q], or stops for a reason that satisfies [E]. *)
Definition wpx {S A} (m : M S A) (Q : A -> S -> Prop) (E : stop -> Prop) (s : S) : Prop :=
  match m s with
  | Ok a s' => Q a s'
  | Stop w _ => E w
  end.

Section Wpx.
Context {S : Type}.
Lemma wpx_wp {A} (m : M S A) Q E s : wp m Q s -> wpx m Q E s.
Proof. unfold wp, wpx. by destruct (m s). Qed.
Lemma wpx_bind {A B} (m : M S A) (k : A -> M S B) Q E s :
  wpx m (fun a s' => wpx (k a) Q E s') E s -> wpx (bind m k) Q E s.
Proof. unfold wpx, bind. by destruct (m s). Qed.
Lemma wpx_mono {A} (m : M S A) (Q Q' : A -> S -> Prop) E s :
  wpx m Q E s -> (forall a s', Q a s' -> Q' a s') -> wpx m Q' E s.
Proof. unfold wpx. destruct (m s); auto. Qed.
Lemma wpx_weaken {A} (m : M S A) Q (E E' : stop -> Prop) s : wpx m Q E s -> (forall w, E w -> E' w) -> wpx m Q E' s.
Proof. unfold wpx. destruct (m s); auto. Qed.
Lemma wpx_run {A} (m : M S A) Q E s :
  wpx m Q E s -> (exists a s', m s = Ok a s' /\ Q a s') \/ (exists w s', m s = Stop w s' /\ E w).
Proof. unfold wpx. destruct (m s) as [a s'|w s']; eauto. Qed.
Lemma wpx_loop {A B} (f : A -> M S (A + B)) (I : nat -> A -> S -> Prop) (Q : B -> S -> Prop) E :
  (forall n a s, I n a s ->
     wpx (f a) (fun r s' => match r with
                            | inl a' => exists n', (n' < n)%nat /\ I n' a' s'
                            | inr b => Q b s'
                            end) E s) ->
  forall n a s, I n a s -> Z.of_nat n < 2 ^ 64 -> wpx (loop f a) Q E s.
Proof.
  intros Hf n a s HI Hn. unfold wpx.
  apply (loop_rule f I (fun o => match o with Ok b s' => Q b s' | Stop w _ => E w end)) with n; [|done|done].
  intros n' a' s' HI'. specialize (Hf n' a' s' HI'). unfold wpx in Hf. by destruct (f a' s') as [[]|].
Qed.
End Wpx.
Tactic Notation "xseq" uconstr(H) := apply wpx_bind, wpx_wp; eapply wp_mono; [eapply H|].

(** * The bitmap *)

Definition bit (d : list Z) (bi : Z) : bool := Z.testbit (byte d (bi / 8)) (bi mod 8).

Lemma land_pow2 x k : 0 <= k -> Z.land x (2 ^ k) = if Z.testbit x k then 2 ^ k else 0.
Proof.
  intros Hk. apply Z.bits_inj'. intros n Hn. rewrite Z.land_spec, Z.pow2_bits_eqb by done.
  destruct (Z.eqb_spec k n) as [->|E].
  - destruct (Z.testbit x n); [by rewrite Z.pow2_bits_true|by rewrite Z.bits_0].
  - rewrite andb_false_r. destruct (Z.testbit x k); [by rewrite Z.pow2_bits_false|by rewrite Z.bits_0].
Qed.
Lemma bitmask_eq bi : bitmask bi = 2 ^ (bi mod 8).
Proof. unfold bitmask. rewrite Z.shiftl_mul_pow2 by (apply Z.mod_pos_bound; lia). lia. Qed.
Lemma bit_free_eq d bi : bit_free d bi = negb (bit d bi).
Proof.
  unfold bit_free, bit. pose proof (Z.mod_pos_bound bi 8 ltac:(lia)). rewrite bitmask_eq, land_pow2 by lia.
  destruct (Z.testbit _ _); [|done]. apply Z.eqb_neq. pose proof (Z.pow_pos_nonneg 2 (bi mod 8)). lia.
Qed.

(** A byte of the bitmap is replaced. *)
Lemma bit_set_byte d bi x c :
  0 <= bi < BPB -> 0 <= c < BPB -> blk d ->
  bit (set_byte (bi / 8) x d) c = if c / 8 =? bi / 8 then Z.testbit x (c mod 8) else bit d c.
Proof.
  intros Hb Hc Hd. unfold blk, BPB, BSIZE in *. unfold bit, set_byte, byte.
  pose proof (Z.div_lt_upper_bound bi 8 1024 ltac:(lia) ltac:(lia)). pose proof (Z.div_pos bi 8 ltac:(lia) ltac:(lia)).
  pose proof (Z.div_pos c 8 ltac:(lia) ltac:(lia)).
  destruct (Z.eqb_spec (c / 8) (bi / 8)) as [->|E].
  - rewrite list_lookup_total_insert_eq by lia. unfold u8. apply Z.mod_pow2_bits_low.
    pose proof (Z.mod_pos_bound c 8 ltac:(lia)). lia.
  - rewrite list_lookup_total_insert_ne by lia. done.
Qed.

(** The bitmap block with the bit [bi] set or cleared. *)
Definition bit_on (bi : Z) (d : list Z) : list Z := set_byte (bi / 8) (Z.lor (byte d (bi / 8)) (bitmask bi)) d.
Definition bit_off (bi : Z) (d : list Z) : list Z := set_byte (bi / 8) (Z.land (byte d (bi / 8)) (Z.lnot (bitmask bi))) d.

Lemma same_bit bi c : c / 8 = bi / 8 -> bool_decide (bi mod 8 = c mod 8) = bool_decide (c = bi).
Proof.
  intros E. apply bool_decide_ext. pose proof (Z.div_mod c 8 ltac:(lia)). pose proof (Z.div_mod bi 8 ltac:(lia)).
  split; [lia|congruence].
Qed.
Lemma bit_on_spec d bi c : 0 <= bi < BPB -> 0 <= c < BPB -> blk d -> bit (bit_on bi d) c = bool_decide (c = bi) || bit d c.
Proof.
  intros Hb Hc Hd. pose proof (Z.mod_pos_bound bi 8 ltac:(lia)). pose proof (Z.mod_pos_bound c 8 ltac:(lia)).
  unfold bit_on. rewrite bit_set_byte by done. destruct (Z.eqb_spec (c / 8) (bi / 8)) as [E|E].
  - rewrite Z.lor_spec, bitmask_eq, Z.pow2_bits_eqb, orb_comm by lia. rewrite <- (same_bit bi c E). unfold bit. rewrite E.
    f_equal. destruct (Z.eqb_spec (bi mod 8) (c mod 8)); [by rewrite bool_decide_eq_true_2|by rewrite bool_decide_eq_false_2].
  - rewrite bool_decide_eq_false_2 by congruence. done.
Qed.
Lemma bit_off_spec d bi c : 0 <= bi < BPB -> 0 <= c < BPB -> blk d -> bit (bit_off bi d) c = negb (bool_decide (c = bi)) && bit d c.
Proof.
  intros Hb Hc Hd. pose proof (Z.mod_pos_bound bi 8 ltac:(lia)). pose proof (Z.mod_pos_bound c 8 ltac:(lia)).
  unfold bit_off. rewrite bit_set_byte by done. destruct (Z.eqb_spec (c / 8) (bi / 8)) as [E|E].
  - rewrite Z.land_spec, Z.lnot_spec, bitmask_eq, Z.pow2_bits_eqb, andb_comm by lia. rewrite <- (same_bit bi c E). unfold bit.
    rewrite E. do 2 f_equal.
    destruct (Z.eqb_spec (bi mod 8) (c mod 8)); [by rewrite bool_decide_eq_true_2|by rewrite bool_decide_eq_false_2].
  - rewrite bool_decide_eq_false_2 by congruence. done.
Qed.
Lemma blk_set_byte k x d : blk d -> blk (set_byte k x d).
Proof. unfold blk, set_byte. by rewrite length_insert. Qed.

(** The disk's layout: boot block, superblock, log, inodes, bitmap, data. *)
Definition datastart (sb : superblock) : Z := sb_bmapstart sb + (sb_size sb / BPB + 1).
Record layout (e : env) : Prop := {
  la_log : 2 <= e_start e /\ 0 <= e_size e /\ e_start e + e_size e <= sb_inodestart (e_sb e);
  la_inodes : 0 <= sb_ninodes (e_sb e) /\ sb_inodestart (e_sb e) + sb_ninodes (e_sb e) / IPB < sb_bmapstart (e_sb e);
  la_data : datastart (e_sb e) <= sb_size (e_sb e) < 2 ^ 31;
  la_pos : 0 <= sb_size (e_sb e);
}.

(** Is the block [b] in use? *)
Definition used (sb : superblock) (V : blocks) (b : Z) : bool := bit (V (BBLOCK b sb)) (b mod BPB).

(** Blocks have their length, and the bitmap covers all but data blocks. *)
Record bitmap_ok (e : env) (V : blocks) : Prop := {
  bm_blk b : blk (V b);
  bm_meta b : 0 <= b < datastart (e_sb e) -> used (e_sb e) V b = true;
}.

Section Geometry.
Context (e : env) (La : layout e).
Abbreviation sb := (e_sb e).
Lemma BBLOCK_range b : 0 <= b < sb_size sb -> e_start e + e_size e <= BBLOCK b sb < datastart sb.
Proof.
  intros Hb. destruct La as [(? & ? & ?) (? & ?) ? ?]. unfold BBLOCK, datastart in *.
  pose proof (Z.div_pos b BPB ltac:(lia) ltac:(done)). pose proof (Z.div_le_mono b (sb_size sb) BPB ltac:(done) ltac:(lia)).
  pose proof (Z.div_pos (sb_ninodes sb) IPB ltac:(lia) ltac:(done)). lia.
Qed.
Lemma datastart_pos : e_start e + e_size e < datastart sb.
Proof.
  destruct La as [(? & ? & ?) (? & ?) ? ?]. unfold datastart in *.
  pose proof (Z.div_pos (sb_ninodes sb) IPB ltac:(lia) ltac:(done)). pose proof (Z.div_pos (sb_size sb) BPB ltac:(lia) ltac:(done)). lia.
Qed.
Lemma ehome_meta b : e_start e + e_size e <= b < sb_size sb -> ehome e b.
Proof. intros Hb. destruct La as [(? & ? & ?) ? ? ?]. unfold ehome. lia. Qed.
Lemma BBLOCK_same b c : 0 <= b -> 0 <= c -> BBLOCK b sb = BBLOCK c sb -> b mod BPB = c mod BPB -> b = c.
Proof.
  unfold BBLOCK. intros Hb Hc E1 E2. pose proof (Z.div_mod b BPB ltac:(done)). pose proof (Z.div_mod c BPB ltac:(done)). lia.
Qed.
End Geometry.

(** * The allocator *)

Definition zero_block : list Z := replicate (Z.to_nat BSIZE) 0.
Definition allocated (sb : superblock) (V : blocks) (b : Z) : blocks :=
  setv (setv V (BBLOCK b sb) (bit_on (b mod BPB) (V (BBLOCK b sb)))) b zero_block.
Definition given_up (sb : superblock) (V : blocks) (b : Z) : blocks :=
  setv V (BBLOCK b sb) (bit_off (b mod BPB) (V (BBLOCK b sb))).

(** The first block that is not in use. *)
Definition first_free (sb : superblock) (V : blocks) (b : Z) : Prop :=
  0 <= b < sb_size sb /\ used sb V b = false /\ forall c, 0 <= c < b -> used sb V c = true.

Section Alloc.
Context (e : env) (La : layout e).
Abbreviation sb := (e_sb e).
Implicit Types (s : fss) (H : gmap bufp Z) (V : blocks) (L : list Z) (v : vec inode NINODE).

Lemma used_given_up V b c : bitmap_ok e V -> 0 <= b -> 0 <= c -> used sb (given_up sb V b) c = negb (bool_decide (c = b)) && used sb V c.
Proof.
  intros [Hk _] Hb Hc. unfold used, given_up. pose proof (Z.mod_pos_bound b BPB ltac:(done)). pose proof (Z.mod_pos_bound c BPB ltac:(done)).
  destruct (decide (BBLOCK c sb = BBLOCK b sb)) as [E|E].
  - rewrite E, setv_same, bit_off_spec by done. do 2 f_equal. apply bool_decide_ext.
    split; [by apply (BBLOCK_same e)|by intros ->].
  - rewrite setv_ne by done. rewrite bool_decide_eq_false_2 by congruence. done.
Qed.
Lemma used_allocated V b c :
  bitmap_ok e V -> datastart sb <= b -> 0 <= c < sb_size sb -> used sb (allocated sb V b) c = bool_decide (c = b) || used sb V c.
Proof.
  intros [Hk _] Hb Hc. unfold used, allocated. pose proof (Z.mod_pos_bound b BPB ltac:(done)).
  pose proof (Z.mod_pos_bound c BPB ltac:(done)). pose proof (BBLOCK_range e La c Hc). destruct La as [(? & ? & ?) _ _ _].
  rewrite setv_ne by lia.
  destruct (decide (BBLOCK c sb = BBLOCK b sb)) as [E|E].
  - rewrite E, setv_same, bit_on_spec by done. f_equal. apply bool_decide_ext.
    split; [apply (BBLOCK_same e); lia|by intros ->].
  - rewrite setv_ne by done. rewrite bool_decide_eq_false_2 by congruence. done.
Qed.
Lemma allocated_same V b : allocated sb V b b = zero_block.
Proof. apply setv_same. Qed.
Lemma allocated_other V b c : 0 <= b < sb_size sb -> datastart sb <= c -> c <> b -> allocated sb V b c = V c.
Proof. intros Hb Hc Hne. pose proof (BBLOCK_range e La b Hb). unfold allocated. rewrite !setv_ne by lia. done. Qed.
Lemma given_up_other V b c : 0 <= b < sb_size sb -> datastart sb <= c -> given_up sb V b c = V c.
Proof. intros Hb Hc. pose proof (BBLOCK_range e La b Hb). unfold given_up. rewrite setv_ne by lia. done. Qed.
Lemma blk_setv V b x : (forall c, blk (V c)) -> blk x -> forall c, blk (setv V b x c).
Proof. intros HV Hx c. destruct (decide (c = b)) as [->|]; [by rewrite setv_same|by rewrite setv_ne]. Qed.
Lemma allocated_ok V b : bitmap_ok e V -> datastart sb <= b < sb_size sb -> bitmap_ok e (allocated sb V b).
Proof.
  intros Hok Hb. pose proof Hok as [Hk Hm]. pose proof (la_data _ La). split.
  - apply blk_setv; [apply blk_setv; [done|by apply blk_set_byte]|done].
  - intros c Hc. rewrite used_allocated, Hm by (done || lia). apply orb_true_r.
Qed.
Lemma given_up_ok V b : bitmap_ok e V -> datastart sb <= b < sb_size sb -> bitmap_ok e (given_up sb V b).
Proof.
  intros Hok Hb. pose proof Hok as [Hk Hm]. destruct La as [(? & ? & ?) (? & ?) ? ?]. split.
  - apply blk_setv; [done|by apply blk_set_byte].
  - intros c Hc. rewrite used_given_up, Hm by (done || lia). rewrite bool_decide_eq_false_2 by lia. done.
Qed.

Lemma bzero_spec s H V L v b :
  op e s H V L v -> ehome e b -> ~ holds H b -> Z.of_nat (length L) + 1 < room e -> (length L + size H < NBUF)%nat ->
  wp (bzero ROOTDEV b) (fun _ s' => op e s' H (setv V b zero_block) (logged L b) v) s.
Proof.
  intros Hop Hb Hnh HL Hn. unfold bzero. wseq op_fbread; [exact Hop|unfold ehome in Hb; lia|done|done|].
  cbv beta. intros i s1 [Hi Hop1].
  apply (op_write e s1 _ V L v i b (fun _ => zero_block) _ _ Hop1); [apply lookup_insert_eq|done|done|]. intros s2 Hop2.
  eapply wp_mono; [eapply op_brelse; [exact Hop2|apply lookup_insert_eq]|]. cbv beta. intros [] s3 Hop3.
  by rewrite delete_insert_id in Hop3.
Qed.

Lemma balloc_scan_spec d b size s :
  wp (loop (balloc_scan d b size) 0) (fun r s' => s' = s /\
    match r with
    | Some bi => 0 <= bi < BPB /\ b + bi < size /\ bit d bi = false /\ (forall c, 0 <= c < bi -> bit d c = true)
    | None => forall c, 0 <= c < BPB -> b + c < size -> bit d c = true
    end) s.
Proof.
  apply (wp_loop _ (fun n bi s' => s' = s /\ 0 <= bi <= BPB /\ n = Z.to_nat (BPB - bi) /\ forall c, 0 <= c < bi -> bit d c = true))
    with (n := Z.to_nat BPB).
  - intros n bi s' (-> & Hbi & Hn & Hlow). unfold balloc_scan.
    destruct (Z.ltb_spec bi BPB) as [H1|H1], (Z.ltb_spec (b + bi) size) as [H2|H2]; cbn [andb negb];
      try (apply wp_ret; split; [done|]; intros c Hc Hs; apply Hlow; lia).
    rewrite bit_free_eq. destruct (bit d bi) eqn:E; cbn [negb]; apply wp_ret; [|by split_and!; try lia].
    exists (Z.to_nat (BPB - (bi + 1))). split; [lia|]. split_and!; [done|lia|lia|done|].
    intros c Hc. destruct (decide (c = bi)) as [->|]; [done|]. apply Hlow. lia.
  - split_and!; [done|lia|done|done|]. intros c Hc. lia.
  - done.
Qed.

(** Room in the log for [k] more blocks, and in the cache for one more buffer. *)
Definition fits (H : gmap bufp Z) (L : list Z) (k : nat) : Prop :=
  Z.of_nat (length L) + Z.of_nat k < room e /\ (length L + k + size H < NBUF)%nat.

(** The held buffers are of data blocks in use. *)
Definition data_held (H : gmap bufp Z) (V : blocks) : Prop :=
  forall b, holds H b -> datastart sb <= b < sb_size sb /\ used sb V b = true.

Lemma fits_logged H L k b : fits H L (S k) -> fits H (logged L b) k.
Proof. unfold fits. pose proof (logged_length L b). lia. Qed.

Lemma div_round b c : b mod BPB = 0 -> 0 <= c < BPB -> BBLOCK (b + c) sb = BBLOCK b sb /\ (b + c) mod BPB = c.
Proof.
  intros Hb Hc. unfold BBLOCK. assert (b = BPB * (b / BPB)) as E by (pose proof (Z.div_mod b BPB ltac:(done)); lia).
  split; [f_equal|]; symmetry; [apply (Z.div_unique _ _ _ c)|apply (Z.mod_unique _ _ (b / BPB))]; lia.
Qed.

Lemma data_held_allocated H V a :
  bitmap_ok e V -> datastart sb <= a -> data_held H V -> data_held H (allocated sb V a).
Proof.
  intros Hok Ha Hh b Hb. pose proof (datastart_pos e La). pose proof (la_log _ La). destruct (Hh b Hb) as [? Hu].
  split; [done|]. rewrite used_allocated, Hu by (done || lia). apply orb_true_r.
Qed.
Lemma first_free_data V a : bitmap_ok e V -> first_free sb V a -> datastart sb <= a.
Proof. intros Hok (Ha & Hu & _). destruct (decide (a < datastart sb)); [|lia]. rewrite (bm_meta _ _ Hok) in Hu; [done|lia]. Qed.

(** One block of the bitmap. *)
Lemma balloc_step_spec s H V L v b :
  op e s H V L v -> bitmap_ok e V -> data_held H V -> fits H L 2 -> 0 <= b < sb_size sb -> b mod BPB = 0 ->
  (forall c, 0 <= c < b -> used sb V c = true) ->
  wp (balloc_step ROOTDEV b) (fun r s' =>
    match r with
    | inl b' => b' = b + BPB /\ op e s' H V L v /\ forall c, 0 <= c < b' -> c < sb_size sb -> used sb V c = true
    | inr a => first_free sb V a /\ op e s' H (allocated sb V a) (logged (logged L (BBLOCK a sb)) a) v
    end) s.
Proof.
  intros Hop Hok Hheld [HL Hn] Hb Hal Hlow. pose proof (BBLOCK_range e La b Hb) as Hbb.
  assert (~ holds H (BBLOCK b sb)) as Hnh by (intros Hh; destruct (Hheld _ Hh); lia).
  pose proof (la_log _ La) as (Hl1 & Hl2 & _). pose proof (la_data _ La) as Hds.
  unfold balloc_step. apply wp_bind. eapply op_getsb; [exact Hop|]. destruct (Z.ltb_spec b (sb_size sb)); [|lia]. cbn [negb].
  wseq op_fbread; [exact Hop|lia|done|lia|]. cbv beta. intros i s1 [Hi Hop1].
  apply wp_bind. eapply op_fdata; [exact Hop1|apply lookup_insert_eq|].
  wseq balloc_scan_spec. cbv beta. intros r s2 [-> Hr]. destruct r as [bi|].
  - destruct Hr as (Hbi & Hlt & Hbit & Hbl). destruct (div_round b bi Hal Hbi) as [Ebb Emod].
    assert (first_free sb V (b + bi)) as Hff.
    { split_and!; [lia|lia|unfold used; by rewrite Ebb, Emod|]. intros c Hc. destruct (decide (c < b)); [apply Hlow; lia|].
      destruct (div_round b (c - b) Hal ltac:(lia)) as [E1 E2]. replace (b + (c - b)) with c in * by lia.
      unfold used. rewrite E1, E2. apply Hbl. lia. }
    pose proof (first_free_data V _ Hok Hff) as Hda. destruct Hff as (Ha & Hau & Hlt'). set (a := b + bi) in *.
    apply (op_write e s1 _ V L v i (BBLOCK b sb) (bit_on bi) _ _ Hop1); [apply lookup_insert_eq|apply (ehome_meta e La); lia|lia|].
    intros s2 Hop2. wseq op_brelse; [exact Hop2|apply lookup_insert_eq|]. cbv beta. intros [] s3 Hop3.
    rewrite delete_insert_id in Hop3 by done. pose proof (logged_length L (BBLOCK b sb)).
    wseq (bzero_spec s3 H _ _ v a Hop3); [apply (ehome_meta e La); lia| |lia|lia|].
    { intros Hh. destruct (Hheld _ Hh). congruence. }
    cbv beta. intros [] s4 Hop4. apply wp_ret. split; [done|]. unfold allocated. rewrite Ebb, Emod. exact Hop4.
  - wseq op_brelse; [exact Hop1|apply lookup_insert_eq|]. cbv beta. intros [] s3 Hop3.
    rewrite delete_insert_id in Hop3 by done. apply wp_ret. split_and!; [done|done|]. intros c Hc Hs.
    destruct (decide (c < b)); [apply Hlow; lia|]. destruct (div_round b (c - b) Hal ltac:(lia)) as [E1 E2].
    replace (b + (c - b)) with c in * by lia. unfold used. rewrite E1, E2. apply Hr; lia.
Qed.

Lemma balloc_spec s H V L v :
  op e s H V L v -> bitmap_ok e V -> data_held H V -> fits H L 2 ->
  wpx (balloc ROOTDEV) (fun a s' =>
      first_free sb V a /\ op e s' H (allocated sb V a) (logged (logged L (BBLOCK a sb)) a) v)
    (fun w => w = Panic "balloc: out of blocks" /\ forall c, 0 <= c < sb_size sb -> used sb V c = true) s.
Proof.
  intros Hop Hok Hheld Hf. pose proof (la_data _ La) as Hds. unfold balloc.
  apply (wpx_loop _ (fun n b s' => op e s' H V L v /\ 0 <= b /\ b mod BPB = 0 /\ n = Z.to_nat (sb_size sb - b) /\
    forall c, 0 <= c < b -> c < sb_size sb -> used sb V c = true)) with (n := Z.to_nat (sb_size sb)); [|split_and!; try done; [f_equal; lia|lia]|lia].
  intros n b s' (Hop' & Hb & Hal & Hn & Hlow). destruct (decide (b < sb_size sb)) as [Hlt|Hge].
  - apply wpx_wp. eapply wp_mono; [apply (balloc_step_spec s' H V L v b); try done; intros c Hc; apply Hlow; lia|].
    cbv beta. intros [b'|a] s2; [|done]. intros (-> & Hop2 & Hlow2). exists (Z.to_nat (sb_size sb - (b + BPB))).
    split; [unfold BPB, BSIZE; lia|]. split_and!; [done|unfold BPB, BSIZE; lia| |done|done].
    by rewrite Z.add_mod, Z.mod_same, Hal by done.
  - unfold balloc_step, wpx, bind, getsb, gets. rewrite (op_sb _ _ _ _ _ _ Hop').
    destruct (Z.ltb_spec b (sb_size sb)); [lia|]. cbn. split; [done|]. intros c Hc. apply Hlow; lia.
Qed.

Lemma bfree_spec s H V L v b :
  op e s H V L v -> bitmap_ok e V -> data_held H V -> fits H L 1 -> datastart sb <= b < sb_size sb ->
  wpx (bfree ROOTDEV b) (fun _ s' =>
      used sb V b = true /\ op e s' H (given_up sb V b) (logged L (BBLOCK b sb)) v)
    (fun w => w = Panic "freeing free block" /\ used sb V b = false) s.
Proof.
  intros Hop Hok Hheld [HL Hn] Hb. pose proof (la_log _ La) as (Hl1 & Hl2 & _). pose proof (la_data _ La) as Hds.
  pose proof (datastart_pos e La) as Hdp. assert (0 <= b < sb_size sb) as Hb0 by lia.
  pose proof (BBLOCK_range e La b Hb0) as Hbb.
  assert (~ holds H (BBLOCK b sb)) as Hnh by (intros Hh; destruct (Hheld _ Hh); lia).
  unfold bfree. apply wpx_bind, wpx_wp. eapply op_getsb; [exact Hop|].
  xseq op_fbread; [exact Hop|lia|done|lia|]. cbv beta. intros i s1 [Hi Hop1].
  apply wpx_bind, wpx_wp. eapply op_fdata; [exact Hop1|apply lookup_insert_eq|]. rewrite bit_free_eq.
  fold (used sb V b). destruct (used sb V b) eqn:Eu; cbn [negb]; [|done]. apply wpx_wp.
  apply (op_write e s1 _ V L v i (BBLOCK b sb) (bit_off (b mod BPB)) _ _ Hop1); [apply lookup_insert_eq|apply (ehome_meta e La); lia|lia|].
  intros s2 Hop2. eapply wp_mono; [eapply op_brelse; [exact Hop2|apply lookup_insert_eq]|]. cbv beta. intros [] s3 Hop3.
  by rewrite delete_insert_id in Hop3.
Qed.
End Alloc.

(** C20: the block allocator. Inside an operation, [balloc] returns the first block
    that the bitmap shows free, marked in use and zeroed; no other bit and no other
    data block changes; it panics only when no block is free. [bfree] of the block
    restores the bitmap. [bfree] clears the bit of a block in use and changes
    nothing else, and panics on a free block. *)
Theorem balloc_bfree_correct e s H V L v :
  layout e -> op e s H V L v -> bitmap_ok e V -> data_held e H V -> fits e H L 3 ->
  let sb := e_sb e in
  wpx (balloc ROOTDEV) (fun a s' =>
      first_free sb V a /\
      (exists V' L', op e s' H V' L' v /\ bitmap_ok e V' /\ V' a = zero_block /\
        (forall c, 0 <= c < sb_size sb -> used sb V' c = bool_decide (c = a) || used sb V c) /\
        (forall c, datastart sb <= c -> c <> a -> V' c = V c)) /\
      wp (bfree ROOTDEV a) (fun _ s2 => exists V2 L2, op e s2 H V2 L2 v /\ bitmap_ok e V2 /\
        forall c, 0 <= c < sb_size sb -> used sb V2 c = used sb V c) s')
    (fun w => w = Panic "balloc: out of blocks" /\ forall c, 0 <= c < sb_size sb -> used sb V c = true) s /\
  forall b, datastart sb <= b < sb_size sb ->
    wpx (bfree ROOTDEV b) (fun _ s' => used sb V b = true /\
        exists V' L', op e s' H V' L' v /\ bitmap_ok e V' /\
          (forall c, 0 <= c -> used sb V' c = negb (bool_decide (c = b)) && used sb V c) /\
          (forall c, datastart sb <= c -> V' c = V c))
      (fun w => w = Panic "freeing free block" /\ used sb V b = false) s.
Proof.
  intros La Hop Hok Hheld Hf. cbv zeta. assert (fits e H L 2 /\ fits e H L 1) as [Hf2 Hf1] by (unfold fits in *; lia).
  pose proof (datastart_pos e La) as Hdp. pose proof (la_log _ La) as (Hl1 & Hl2 & _). split.
  - eapply wpx_mono; [by apply (balloc_spec e La s H V L v)|]. cbv beta. intros a s' [Hff Hop']. split; [done|].
    pose proof (first_free_data e V a Hok Hff) as Hda. destruct Hff as (Ha & Hau & _).
    pose proof (allocated_ok e La V a Hok ltac:(lia)) as Hok'.
    pose proof (data_held_allocated e La H V a Hok Hda Hheld) as Hheld'.
    assert (forall c, 0 <= c < sb_size (e_sb e) -> used (e_sb e) (allocated (e_sb e) V a) c = bool_decide (c = a) || used (e_sb e) V c) as Hu.
    { intros c Hc. by apply used_allocated. }
    split.
    + eexists _, _. split_and!; [exact Hop'|done|apply allocated_same|done|]. intros c Hc Hne. by apply allocated_other.
    + pose proof (bfree_spec e La s' H _ _ v a Hop' Hok' Hheld' ltac:(by do 2 apply fits_logged) ltac:(lia)) as Hfr.
      unfold wp. unfold wpx in Hfr. destruct (bfree ROOTDEV a s') as [[] s2|w s2].
      * destruct Hfr as [_ Hop2]. eexists _, _. split; [exact Hop2|]. split; [apply given_up_ok; [done..|lia]|].
        intros c Hc. rewrite used_given_up, Hu by (done || lia). case_bool_decide as E; [by subst|done].
      * destruct Hfr as [_ Hfr]. rewrite Hu in Hfr by lia. by rewrite bool_decide_eq_true_2 in Hfr.
  - intros b Hb. eapply wpx_mono; [by apply (bfree_spec e La s H V L v b)|]. cbv beta. intros [] s' [Hu Hop']. split; [done|].
    eexists _, _. split; [exact Hop'|]. split; [by apply given_up_ok|].
    split; [intros c Hc; apply used_given_up; [done|lia..]|]. intros c Hc. apply given_up_other; [done|lia|done].
Qed.

(** A file system as [mkfs] lays it out, with all data blocks free. *)
Module Volume.
Definition super : superblock := Superblock FSMAGIC 1000 954 200 30 2 32 45.
Definition dsk : disk := Disk (fun b => if b =? 45 then replicate 5 255 ++ 63 :: replicate 1018 0 else replicate 1024 0) [].
Definition volume : env := Env 0%fin Machine.proc0 2 30 dsk super true.
Definition lk : spinlock := Spinlock 0 "itable" None.
Definition inode0 : inode := Inode 0 0 0 (Sleeplock 0 lk "inode" 0) 0 0 0 0 0 0 (replicate 13 0).

Lemma volume_layout : layout volume.
Proof. split; vm_compute; intuition congruence. Qed.
Lemma volume_blk b : blk (dread dsk b).
Proof. unfold dread. cbn. destruct (b =? 45); by vm_compute. Qed.
Lemma volume_bitmap : bitmap_ok volume (dread dsk).
Proof.
  split; [apply volume_blk|]. intros b Hb. change (datastart (e_sb volume)) with 46 in Hb.
  assert (forallb (used super (dread dsk)) (seqZ 0 46) = true) as HF by (by vm_compute).
  rewrite List.forallb_forall in HF. apply HF, list_elem_of_In, elem_of_seqZ. lia.
Qed.
Lemma volume_open : exists s, op volume s ∅ (dread dsk) [] (vreplicate NINODE inode0).
Proof.
  destruct (machine_quiescent dsk ltac:(by vm_compute)) as [s Hs].
  destruct (wp_run _ _ _ (begin_active _ _ _ _ _ Hs)) as ([] & t & _ & Ht). exists (Fss t super lk (vreplicate NINODE inode0)).
  by apply (op_active volume (Fss t super lk (vreplicate NINODE inode0)) (dread dsk) (set_outstanding 1 Machine.log0) []).
Qed.
Lemma volume_46 : used super (dread dsk) 46 = false.
Proof. by vm_compute. Qed.
Lemma volume_first a : first_free super (dread dsk) a -> a = 46.
Proof.
  intros (Ha & Hau & Hlow). destruct (Z.lt_trichotomy a 46) as [E|[->|E]]; [|done|].
  - rewrite (bm_meta _ _ volume_bitmap) in Hau; [done|]. change (datastart (e_sb volume)) with 46. lia.
  - pose proof volume_46 as Hu. rewrite Hlow in Hu; [done|lia].
Qed.
Lemma volume_fits k : (k < 29)%nat -> fits volume ∅ [] k.
Proof. intros Hk. split; [cbn; lia|]. rewrite map_size_empty. unfold NBUF. cbn. lia. Qed.
Lemma volume_held : data_held volume ∅ (dread dsk).
Proof. intros b Hb. by destruct (holds_empty b). Qed.
Lemma volume_not_full : ~ (forall c, 0 <= c < sb_size super -> used super (dread dsk) c = true).
Proof. intros Hb. specialize (Hb 46 ltac:(cbn; lia)). rewrite volume_46 in Hb. done. Qed.
End Volume.

Lemma balloc_bfree_correct_witness : exists s s', balloc ROOTDEV s = Ok 46 s'.
Proof.
  destruct Volume.volume_open as [s Hs]. exists s.
  destruct (balloc_bfree_correct Volume.volume s ∅ _ [] _ Volume.volume_layout Hs Volume.volume_bitmap Volume.volume_held
    (Volume.volume_fits 3 ltac:(lia))) as [Hb _].
  apply wpx_run in Hb as [(a & s' & E & Hf & _)|(w & s' & _ & _ & Hb)].
  - exists s'. by rewrite E, (Volume.volume_first a Hf).
  - by destruct Volume.volume_not_full.
Defined.
