(* ===== verification/Inodes.v ===== *)
(** The inode layer of [src/kernel/fs.c]: inodes on disk and in the table.

    [get_dinode] and [put_dinode] are inverse, so that [iupdate] and [ilock] are;
    the table has one entry per inode in use ([itable_ok]). *)

From stdpp Require Import gmap.
From S2P Require Import Prelude Params Spinlock Sched Sleeplock Bio Cache Log Journal Crash Txn Fs Blocks.
Local Open Scope kernel_scope.

(** * Inodes on disk *)

Record dinode_ok (x : dinode) : Prop := {
  dk_type : - 2 ^ 15 <= di_type x < 2 ^ 15;
  dk_major : - 2 ^ 15 <= di_major x < 2 ^ 15;
  dk_minor : - 2 ^ 15 <= di_minor x < 2 ^ 15;
  dk_nlink : - 2 ^ 15 <= di_nlink x < 2 ^ 15;
  dk_size : 0 <= di_size x < 2 ^ 32;
  dk_len : length (di_addrs x) = 13%nat;
  dk_addrs : Forall (fun a => 0 <= a < 2 ^ 32) (di_addrs x);
}.

Lemma length_put_words l : forall d o, (o + 4 * length l <= length d)%nat -> length (put_words d o l) = length d.
Proof.
  induction l as [|a l IH]; intros d o Ho; [done|]. cbn [put_words length] in *.
  rewrite IH; rewrite length_put_le; lia.
Qed.
Lemma get_put_words_out n l : forall d o k,
  (o + 4 * length l <= length d)%nat -> (k + n <= o \/ o + 4 * length l <= k)%nat ->
  get_le n (put_words d o l) k = get_le n d k.
Proof.
  induction l as [|a l IH]; intros d o k Ho Hk; [done|]. cbn [put_words length] in *.
  rewrite IH, get_put_le_other by (rewrite ?length_put_le; lia). done.
Qed.
Lemma get_put_words_in l : forall d o k a,
  (o + 4 * length l <= length d)%nat -> l !! k = Some a -> get_le 4 (put_words d o l) (o + 4 * k) = a mod 2 ^ 32.
Proof.
  induction l as [|x l IH]; intros d o k a Ho Hk; [done|]. cbn [put_words length] in *. destruct k as [|k]; cbn in Hk.
  - simplify_eq. rewrite Nat.mul_0_r, Nat.add_0_r, get_put_words_out by (rewrite ?length_put_le; lia).
    rewrite get_put_le by lia. done.
  - replace (o + 4 * S k)%nat with (o + 4 + 4 * k)%nat by lia. apply IH; [rewrite length_put_le; lia|done].
Qed.

Lemma dinode_off_range inum : (dinode_off inum + 64 <= Z.to_nat BSIZE)%nat.
Proof.
  unfold dinode_off. pose proof (Z.mod_pos_bound inum IPB ltac:(done)). change IPB with 16 in *. unfold BSIZE. lia.
Qed.
Lemma dinode_off_apart i j :
  i mod IPB <> j mod IPB -> (dinode_off i + 64 <= dinode_off j \/ dinode_off j + 64 <= dinode_off i)%nat.
Proof.
  unfold dinode_off. pose proof (Z.mod_pos_bound i IPB ltac:(done)). pose proof (Z.mod_pos_bound j IPB ltac:(done)). lia.
Qed.

Lemma s16_mod x : - 2 ^ 15 <= x < 2 ^ 15 -> s16 (x mod 256 ^ Z.of_nat 2) = x.
Proof.
  intros Hx. rewrite <- (swrap_small 16 x) at 2 by (cbn; lia). unfold s16, swrap. change (256 ^ Z.of_nat 2) with (2 ^ 16).
  by rewrite Z.mod_mod.
Qed.

Lemma blk_put_dinode x inum d : length (di_addrs x) = 13%nat -> blk d -> blk (put_dinode x inum d).
Proof.
  unfold blk, put_dinode. pose proof (dinode_off_range inum). intros Hx Hd.
  rewrite length_put_words; rewrite ?Hx; repeat rewrite length_put_le; lia.
Qed.

(** A field of the block outside of what [put_dinode] writes. *)
Lemma get_put_dinode_out n x inum d k :
  length (di_addrs x) = 13%nat -> blk d -> (k + n <= dinode_off inum \/ dinode_off inum + 64 <= k)%nat ->
  get_le n (put_dinode x inum d) k = get_le n d k.
Proof.
  unfold blk, put_dinode. pose proof (dinode_off_range inum). intros Hx Hd Hk.
  rewrite get_put_words_out by (rewrite ?Hx; repeat rewrite length_put_le; lia).
  rewrite !get_put_le_other by (repeat rewrite length_put_le; lia). done.
Qed.

Lemma get_put_dinode x inum d : dinode_ok x -> blk d -> get_dinode (put_dinode x inum d) inum = x.
Proof.
  intros [Ht Hma Hmi Hnl Hsz Hlen Ha] Hd. unfold blk in Hd. pose proof (dinode_off_range inum) as Hr. unfold get_dinode, put_dinode.
  set (o := dinode_off inum) in *. destruct x as [t ma mi nl sz ad]. cbn [di_type di_major di_minor di_nlink di_size di_addrs] in *.
  set (d5 := put_le 4 _ (o + 8) sz). assert (length d5 = length d) as H5.
  { unfold d5. repeat rewrite length_put_le; lia. }
  rewrite !(get_put_words_out _ ad d5 (o + 12)) by (rewrite Hlen; lia). unfold d5 at 1 2 3 4 5.
  f_equal.
  - rewrite !get_put_le_other, get_put_le by (repeat rewrite length_put_le; lia). by apply s16_mod.
  - rewrite !get_put_le_other, get_put_le by (repeat rewrite length_put_le; lia). by apply s16_mod.
  - rewrite !get_put_le_other, get_put_le by (repeat rewrite length_put_le; lia). by apply s16_mod.
  - rewrite !get_put_le_other, get_put_le by (repeat rewrite length_put_le; lia). by apply s16_mod.
  - rewrite get_put_le by (repeat rewrite length_put_le; lia). change (256 ^ Z.of_nat 4) with (2 ^ 32). by apply Z.mod_small.
  - apply list_eq. intros k. rewrite list_lookup_fmap. destruct (decide (k < 13)%nat) as [Hk|Hk].
    + rewrite lookup_seq_lt by lia. change (Some (get_le 4 (put_words d5 (o + 12) ad) (o + 12 + 4 * k)) = ad !! k).
      destruct (lookup_lt_is_Some_2 ad k ltac:(lia)) as [a E].
      rewrite (get_put_words_in ad d5 (o + 12) k a) by (done || lia). rewrite E. f_equal. apply Z.mod_small.
      by eapply Forall_lookup_1 in Ha.
    + rewrite lookup_seq_ge by lia. cbn. symmetry. apply lookup_ge_None. lia.
Qed.

Lemma get_put_dinode_other x inum j d :
  length (di_addrs x) = 13%nat -> blk d -> j mod IPB <> inum mod IPB ->
  get_dinode (put_dinode x inum d) j = get_dinode d j.
Proof.
  intros Hx Hd Hj. pose proof (dinode_off_apart j inum Hj). unfold get_dinode.
  rewrite !get_put_dinode_out by (done || lia). f_equal. apply list_fmap_ext. intros i k Hk. apply lookup_seq in Hk as [-> Hk].
  cbn. apply get_put_dinode_out; [done..|lia].
Qed.

(** * Inodes in an operation *)

Definition disk_inode (sb : superblock) (V : blocks) (inum : Z) : dinode := get_dinode (V (IBLOCK inum sb)) inum.
Definition dinode_of (i : inode) : dinode :=
  Dinode (i_type i) (i_major i) (i_minor i) (i_nlink i) (i_size i) (i_addrs i).
(** The blocks after [iupdate]. *)
Definition stored (sb : superblock) (V : blocks) (i : inode) : blocks :=
  setv V (IBLOCK (i_inum i) sb) (put_dinode (dinode_of i) (i_inum i) (V (IBLOCK (i_inum i) sb))).
(** The entry after [ilock] has read the disk. *)
Definition loaded (x : dinode) (i : inode) : inode :=
  Inode (i_dev i) (i_inum i) (i_ref i) (i_lock i) 1 (di_type x) (di_major x) (di_minor x) (di_nlink x) (di_size x) (di_addrs x).

(** An entry of the table that names an inode of the disk. *)
Definition named (e : env) (i : inode) : Prop := i_dev i = ROOTDEV /\ 0 <= i_inum i < sb_ninodes (e_sb e).

Section Disk.
Context (e : env) (La : layout e).
Abbreviation sb := (e_sb e).
Implicit Types (s : fss) (H : gmap bufp Z) (V : blocks) (L : list Z) (v : vec inode NINODE).

Lemma IBLOCK_range n : 0 <= n < sb_ninodes sb -> e_start e + e_size e <= IBLOCK n sb < sb_bmapstart sb.
Proof.
  intros Hn. destruct La as [(? & ? & ?) (? & ?) ? ?]. unfold IBLOCK.
  pose proof (Z.div_pos n IPB ltac:(lia) ltac:(done)). pose proof (Z.div_le_mono n (sb_ninodes sb) IPB ltac:(done) ltac:(lia)). lia.
Qed.
Lemma bmap_data : sb_bmapstart sb < datastart sb.
Proof. pose proof (la_pos _ La). pose proof (Z.div_pos (sb_size sb) BPB ltac:(lia) ltac:(done)). unfold datastart. lia. Qed.

Lemma stored_other V i c : 0 <= i_inum i < sb_ninodes sb -> sb_bmapstart sb <= c -> stored sb V i c = V c.
Proof. intros Hi Hc. pose proof (IBLOCK_range _ Hi). unfold stored. by rewrite setv_ne by lia. Qed.
Lemma used_stored V i c : 0 <= i_inum i < sb_ninodes sb -> 0 <= c -> used sb (stored sb V i) c = used sb V c.
Proof.
  intros Hi Hc. unfold used. rewrite stored_other; [done..|]. unfold BBLOCK. pose proof (Z.div_pos c BPB ltac:(lia) ltac:(done)). lia.
Qed.
Lemma stored_ok V i :
  bitmap_ok e V -> 0 <= i_inum i < sb_ninodes sb -> length (i_addrs i) = 13%nat -> bitmap_ok e (stored sb V i).
Proof.
  intros [Hk Hm] Hi Hl. split; [apply blk_setv; [done|by apply blk_put_dinode]|].
  intros c Hc. rewrite used_stored by (done || lia). by apply Hm.
Qed.
Lemma stored_same V i :
  (forall c, blk (V c)) -> dinode_ok (dinode_of i) -> disk_inode sb (stored sb V i) (i_inum i) = dinode_of i.
Proof. intros Hk Hd. unfold disk_inode, stored. rewrite setv_same. by apply get_put_dinode. Qed.
Lemma stored_inode_other V i n :
  (forall c, blk (V c)) -> length (i_addrs i) = 13%nat -> 0 <= n -> 0 <= i_inum i -> n <> i_inum i ->
  disk_inode sb (stored sb V i) n = disk_inode sb V n.
Proof.
  intros Hk Hl Hn Hi Hne. unfold disk_inode, stored. destruct (decide (IBLOCK n sb = IBLOCK (i_inum i) sb)) as [E|E].
  - rewrite E, setv_same. apply get_put_dinode_other; [done..|]. intros Em. apply Hne. unfold IBLOCK in E.
    pose proof (Z.div_mod n IPB ltac:(done)). pose proof (Z.div_mod (i_inum i) IPB ltac:(done)).
    assert (n / IPB = i_inum i / IPB) as Ed by lia. rewrite Ed in *. lia.
  - by rewrite setv_ne.
Qed.

Lemma iblock_not_held H V n : data_held e H V -> 0 <= n < sb_ninodes sb -> ~ holds H (IBLOCK n sb).
Proof. intros Hh Hn Hb. pose proof (IBLOCK_range n Hn). pose proof bmap_data. destruct (Hh _ Hb). lia. Qed.

Lemma iupdate_spec s H V L v ip :
  op e s H V L v -> data_held e H V -> fits e H L 1 -> named e (v !!! ip) ->
  wp (iupdate ip) (fun _ s' => op e s' H (stored sb V (v !!! ip)) (logged L (IBLOCK (i_inum (v !!! ip)) sb)) v) s.
Proof.
  intros Hop Hh [HL Hn] [Hdev Hi]. pose proof (IBLOCK_range _ Hi). pose proof bmap_data. pose proof (la_data _ La).
  pose proof (la_log _ La). unfold iupdate. apply wp_bind. eapply op_geti; [exact Hop|].
  apply wp_bind. eapply op_getsb; [exact Hop|]. rewrite Hdev.
  wseq op_fbread; [exact Hop|lia|by apply (iblock_not_held H V)|lia|]. cbv beta. intros i s1 [Hi1 Hop1].
  eapply op_write; [exact Hop1|apply lookup_insert_eq|apply (ehome_meta e La); lia|lia|]. intros s2 Hop2.
  eapply wp_mono; [eapply op_brelse; [exact Hop2|apply lookup_insert_eq]|]. cbv beta. intros [] s3 Hop3.
  by rewrite delete_insert_id in Hop3.
Qed.

Lemma ilock_read_spec s H V L v ip :
  op e s H V L v -> data_held e H V -> (length L + size H < NBUF)%nat -> named e (v !!! ip) ->
  wpx (ilock_read ip) (fun _ s' => di_type (disk_inode sb V (i_inum (v !!! ip))) <> 0 /\
      op e s' H V L (vinsert ip (loaded (disk_inode sb V (i_inum (v !!! ip))) (v !!! ip)) v))
    (fun w => w = Panic "ilock: no type" /\ di_type (disk_inode sb V (i_inum (v !!! ip))) = 0) s.
Proof.
  intros Hop Hh Hn [Hdev Hi]. pose proof (IBLOCK_range _ Hi). pose proof bmap_data. pose proof (la_data _ La).
  pose proof (la_log _ La). unfold ilock_read. apply wpx_bind, wpx_wp. eapply op_geti; [exact Hop|].
  apply wpx_bind, wpx_wp. eapply op_getsb; [exact Hop|]. rewrite Hdev.
  xseq op_fbread; [exact Hop|lia|by apply (iblock_not_held H V)|lia|]. cbv beta. intros i s1 [Hi1 Hop1].
  apply wpx_bind, wpx_wp. eapply op_fdata; [exact Hop1|apply lookup_insert_eq|].
  change (get_dinode (V (IBLOCK (i_inum (v !!! ip)) sb)) (i_inum (v !!! ip))) with (disk_inode sb V (i_inum (v !!! ip))).
  set (x := disk_inode sb V (i_inum (v !!! ip))).
  xseq op_updi; [exact Hop1|]. cbv beta. intros [] s2 Hop2.
  xseq op_updi; [exact Hop2|]. cbv beta. intros [] s3 Hop3. xseq op_updi; [exact Hop3|]. cbv beta. intros [] s4 Hop4.
  xseq op_updi; [exact Hop4|]. cbv beta. intros [] s5 Hop5. xseq op_updi; [exact Hop5|]. cbv beta. intros [] s6 Hop6.
  xseq op_updi; [exact Hop6|]. cbv beta. intros [] s7 Hop7.
  xseq op_brelse; [exact Hop7|apply lookup_insert_eq|]. cbv beta. intros [] s8 Hop8. rewrite delete_insert_id in Hop8 by done.
  xseq op_updi; [exact Hop8|]. cbv beta. intros [] s9 Hop9. rewrite !vlookup_insert, !vinsert_twice in Hop9.
  destruct (Z.eqb_spec (di_type x) 0) as [E|E]; [by split|]. apply wpx_wp, wp_ret. by split.
Qed.
End Disk.

(** * Locks *)

(** The state with other CPU, processes, table lock and table. *)
Definition fenv (c : cpu) (pt : ptab) (k : spinlock) (v : vec inode NINODE) (s : fss) : fss :=
  Fss (Lst (Bst c pt (bs_lock (ls_b (fs_l s))) (bs_buf (ls_b (fs_l s))) (bs_disk (ls_b (fs_l s)))) (ls_log (fs_l s)))
    (fs_sb s) k v.
Abbreviation fcpu s := (bs_cpu (ls_b (fs_l s))).
Abbreviation fptab s := (bs_ptab (ls_b (fs_l s))).

Lemma fenv_self s : fenv (fcpu s) (fptab s) (fs_itlock s) (fs_inode s) s = s.
Proof. by destruct s as [[[] ?] ? ? ?]. Qed.

Section Locks.
Context (e : env).
Implicit Types (s : fss) (H : gmap bufp Z) (V : blocks) (L : list Z) (v : vec inode NINODE).

Lemma op_quiet s H V L v :
  op e s H V L v -> quiet (fcpu s) (bs_lock (ls_b (fs_l s))) (pt_proc (fptab s)) (e_me e) (e_proc e).
Proof. intros Hop. exact (ca_quiet _ _ _ _ _ _ (jr_cache _ _ _ _ _ _ _ _ (op_jr _ _ _ _ _ _ Hop))). Qed.

Lemma op_fenv s H V L v c pt k v' :
  op e s H V L v -> quiet c (bs_lock (ls_b (fs_l s))) (pt_proc pt) (e_me e) (e_proc e) -> idle k ->
  op e (fenv c pt k v' s) H V L v'.
Proof.
  intros [[Hj1 Hj2 Hj3] Hinj Htx Hi Hc Hl He Hcl Hsb Hit Hin] Hq Hk. split; try done. split; [by eapply cache_env|done..].
Qed.

(** Inside of the table's lock. *)
Definition inside (s : fss) H V L v : Prop := exists s0 v0, op e s0 H V L v0 /\
  s = fenv (push (fcpu s0)) (fptab s0) (taken (c_id (fcpu s0)) (fs_itlock s0)) v s0.

Lemma itable_enter s H V L v : op e s H V L v -> wp (acquire itable_lock) (fun _ s' => inside s' H V L v) s.
Proof.
  intros Hop. pose proof (op_itlock _ _ _ _ _ _ Hop) as Hk. eapply wp_ok; [apply (acquire_run itable_lock), Hk|].
  exists s, v. split; [done|]. rewrite <- (op_inodes _ _ _ _ _ _ Hop). by destruct s as [[[] ?] ? ? ?].
Qed.
Lemma itable_leave s H V L v : inside s H V L v -> wp (release itable_lock) (fun _ s' => op e s' H V L v) s.
Proof.
  intros (s0 & v0 & Hop & ->). pose proof (op_quiet _ _ _ _ _ Hop) as Hq. pose proof Hq as [Hc _ _ _ _].
  pose proof (op_itlock _ _ _ _ _ _ Hop) as Hk.
  eapply wp_ok; [apply (release_run itable_lock); [apply holding_taken|done|by eapply push_noff]|].
  cbn. rewrite pop_push, freed_taken by done.
  exact (op_fenv s0 H V L v0 (settle (fcpu s0)) (fptab s0) (fs_itlock s0) v Hop (settle_quiet _ _ _ _ _ Hq) Hk).
Qed.
Lemma inside_geti s H V L v ip (Q : inode -> fss -> Prop) : inside s H V L v -> Q (v !!! ip) s -> wp (geti ip) Q s.
Proof. intros (s0 & v0 & _ & ->) HQ. by apply wp_gets. Qed.
Lemma inside_updi s H V L v ip f :
  inside s H V L v -> wp (updi ip f) (fun _ s' => inside s' H V L (vinsert ip (f (v !!! ip)) v)) s.
Proof. intros (s0 & v0 & Hop & ->). apply wp_modify. by exists s0, v0. Qed.
End Locks.

(** * The table *)

(** One entry per inode in use. *)
Record itable_ok (v : vec inode NINODE) : Prop := {
  it_ref ip : 0 <= i_ref (v !!! ip) < 2 ^ 31;
  it_uniq ip jp : 0 < i_ref (v !!! ip) -> 0 < i_ref (v !!! jp) ->
    i_dev (v !!! ip) = i_dev (v !!! jp) -> i_inum (v !!! ip) = i_inum (v !!! jp) -> ip = jp;
}.

(** [n] more references to any entry are within an [int]. *)
Definition ref_room (n : Z) (v : vec inode NINODE) : Prop := forall ip, i_ref (v !!! ip) + n < 2 ^ 31.

(** The entry is in use for the inode. *)
Definition is_for (dev inum : Z) (i : inode) : Prop := 0 < i_ref i /\ i_dev i = dev /\ i_inum i = inum.

Section Table.
Context (e : env).
Implicit Types (s : fss) (H : gmap bufp Z) (V : blocks) (L : list Z) (v : vec inode NINODE).

Lemma iget_scan_spec dev inum s H V L v l : forall empty,
  inside e s H V L v ->
  wp (iget_scan dev inum l empty) (fun r s' => s' = s /\
    match r with
    | (Some ip, _) => is_for dev inum (v !!! ip)
    | (None, o) => (forall ip, ip ∈ l -> ~ is_for dev inum (v !!! ip)) /\
        match empty with
        | Some ip => o = Some ip
        | None => match o with
                  | Some ip => i_ref (v !!! ip) = 0
                  | None => forall ip, ip ∈ l -> i_ref (v !!! ip) <> 0
                  end
        end
    end) s.
Proof.
  induction l as [|jp l IH]; intros empty Hin; cbn [iget_scan].
  - apply wp_ret. split; [done|]. split; [by intros ip ?%elem_of_nil|]. destruct empty; [done|]. by intros ip ?%elem_of_nil.
  - apply wp_bind. eapply inside_geti; [exact Hin|]. set (i := v !!! jp).
    destruct ((0 <? i_ref i) && (i_dev i =? dev) && (i_inum i =? inum)) eqn:E.
    + apply andb_true_iff in E as [[E1 E2]%andb_true_iff E3]. apply wp_ret. split; [done|]. unfold is_for. fold i. lia.
    + assert (~ is_for dev inum i) as Hno.
      { intros (? & ? & ?). destruct (Z.ltb_spec 0 (i_ref i)), (Z.eqb_spec (i_dev i) dev), (Z.eqb_spec (i_inum i) inum); try lia; done. }
      eapply wp_mono; [by apply IH|]. cbv beta. intros [[ip|] o] s' [-> Hr]; (split; [done|]); [done|].
      destruct Hr as [Hr1 Hr2]. split; [intros ip [->|Hip]%elem_of_cons; [done|by apply Hr1]|].
      destruct empty as [ip|]; [done|]. fold i in Hr2. destruct (Z.eqb_spec (i_ref i) 0) as [Ez|Ez]; [by subst o|].
      destruct o as [ip|]; [done|]. intros ip [->|Hip]%elem_of_cons; [done|by apply Hr2].
Qed.

(** What [iget] does to the entry it returns. *)
Definition got (dev inum : Z) (i : inode) : inode :=
  if decide (0 < i_ref i) then set_iref (s32 (i_ref i + 1)) i else set_ivalid 0 (set_iref 1 (set_ikey dev inum i)).

Lemma got_ref dev inum i : 0 <= i_ref i -> i_ref i + 1 < 2 ^ 31 -> i_ref (got dev inum i) = i_ref i + 1.
Proof. intros Hr Hb. unfold got. case_decide; cbn; [by rewrite s32_small by lia|lia]. Qed.
Lemma got_is_for dev inum i : i_ref i + 1 < 2 ^ 31 -> is_for dev inum i \/ i_ref i = 0 -> is_for dev inum (got dev inum i).
Proof.
  intros Hb Hi. assert (0 <= i_ref i) by (destruct Hi as [(? & ? & ?)|Hz]; lia). unfold is_for. rewrite got_ref by done.
  unfold got. destruct Hi as [(? & ? & ?)|Hz]; case_decide; try lia; cbn; lia.
Qed.
Lemma itable_got v dev inum ip :
  itable_ok v -> i_ref (v !!! ip) + 1 < 2 ^ 31 ->
  is_for dev inum (v !!! ip) \/ i_ref (v !!! ip) = 0 /\ (forall jp, ~ is_for dev inum (v !!! jp)) ->
  itable_ok (vinsert ip (got dev inum (v !!! ip)) v).
Proof.
  intros [Hr Hu] Hb Hip.
  assert (is_for dev inum (got dev inum (v !!! ip))) as (G1 & G2 & G3).
  { apply got_is_for; [done|tauto]. }
  assert (i_ref (got dev inum (v !!! ip)) < 2 ^ 31) by (rewrite got_ref; [done|apply Hr|done]).
  assert (forall jp, jp <> ip -> ~ is_for dev inum (v !!! jp)) as Hno.
  { intros jp Hne (J1 & J2 & J3). destruct Hip as [(? & ? & ?)|[_ Hno]]; [|by apply (Hno jp)]. apply Hne, Hu; congruence. }
  split.
  - intros jp. rewrite vlookup_vinsert. case_decide; [lia|apply Hr].
  - intros jp kp. rewrite !vlookup_vinsert. repeat case_decide; subst; try done; [| |by apply Hu].
    + intros _ Hk E1 E2. destruct (Hno kp); [congruence|]. unfold is_for. lia.
    + intros Hk _ E1 E2. destruct (Hno jp); [congruence|]. unfold is_for. lia.
Qed.

Lemma iget_spec s H V L v dev inum :
  op e s H V L v -> itable_ok v ->
  wpx (iget dev inum) (fun ip s' =>
      op e s' H V L (vinsert ip (got dev inum (v !!! ip)) v) /\
      (is_for dev inum (v !!! ip) \/ i_ref (v !!! ip) = 0 /\ forall jp, ~ is_for dev inum (v !!! jp)))
    (fun w => w = Panic "iget: no inodes" /\ forall jp, 0 < i_ref (v !!! jp) /\ ~ is_for dev inum (v !!! jp)) s.
Proof.
  intros Hop Hok. unfold iget. xseq itable_enter; [exact Hop|]. cbv beta. intros [] s1 Hin.
  xseq iget_scan_spec; [exact Hin|]. cbv beta. intros [[ip|] o] s2 [-> Hr].
  - xseq inside_updi; [exact Hin|]. cbv beta. intros [] s2 Hin2. xseq itable_leave; [exact Hin2|]. cbv beta. intros [] s3 Hop3.
    apply wpx_wp, wp_ret. split; [|by left]. unfold got. rewrite decide_True by apply Hr. done.
  - destruct Hr as [Hno Ho]. assert (forall jp, ~ is_for dev inum (v !!! jp)) as Hno'.
    { intros jp. apply Hno, elem_of_indices. }
    destruct o as [ip|].
    + xseq inside_updi; [exact Hin|]. cbv beta. intros [] s2 Hin2. xseq inside_updi; [exact Hin2|]. cbv beta. intros [] s3 Hin3.
      xseq inside_updi; [exact Hin3|]. cbv beta. intros [] s4 Hin4. xseq itable_leave; [exact Hin4|]. cbv beta. intros [] s5 Hop5.
      rewrite !vlookup_insert, !vinsert_twice in Hop5. apply wpx_wp, wp_ret. split; [|by right].
      unfold got. rewrite decide_False by lia. done.
    + split; [done|]. intros jp. split; [|done]. pose proof (it_ref _ Hok jp). pose proof (Ho jp (elem_of_indices jp)). lia.
Qed.

Lemma idup_spec s H V L v ip :
  op e s H V L v -> wp (idup ip) (fun r s' => r = ip /\ op e s' H V L (vinsert ip (set_iref (s32 (i_ref (v !!! ip) + 1)) (v !!! ip)) v)) s.
Proof.
  intros Hop. unfold idup. wseq itable_enter; [exact Hop|]. cbv beta. intros [] s1 Hin.
  wseq inside_updi; [exact Hin|]. cbv beta. intros [] s2 Hin2. wseq itable_leave; [exact Hin2|]. cbv beta. intros [] s3 Hop3.
  by apply wp_ret.
Qed.

(** The last reference to an inode without links: [iput] frees it. *)
Definition goes (i : inode) : bool := (i_ref i =? 1) && nz (i_valid i) && (i_nlink i =? 0).

Lemma iput_keeps_spec s H V L v ip :
  op e s H V L v -> goes (v !!! ip) = false ->
  wp (iput ip) (fun _ s' => op e s' H V L (vinsert ip (set_iref (s32 (i_ref (v !!! ip) - 1)) (v !!! ip)) v)) s.
Proof.
  intros Hop Hg. unfold iput. wseq itable_enter; [exact Hop|]. cbv beta. intros [] s1 Hin.
  apply wp_bind. eapply inside_geti; [exact Hin|]. unfold goes in Hg. rewrite Hg. cbn [when]. apply wp_bind, wp_ret.
  wseq inside_updi; [exact Hin|]. cbv beta. intros [] s2 Hin2. by apply itable_leave.
Qed.
End Table.

(** * [ilock] *)

(** The entry with its sleep lock held by the process [pid]; read from the disk when it was not valid. *)
Definition held_by (pid : Z) (i : inode) : inode := set_ilock (set_slpid pid (set_sllocked 1 (i_lock i))) i.
Definition locked_inode (sb : superblock) (V : blocks) (pid : Z) (i : inode) : inode :=
  if i_valid i =? 0 then loaded (disk_inode sb V (i_inum i)) (held_by pid i) else held_by pid i.

Section Ilock.
Context (e : env) (La : layout e).
Abbreviation sb := (e_sb e).
Implicit Types (s : fss) (H : gmap bufp Z) (V : blocks) (L : list Z) (v : vec inode NINODE).

Lemma acquire_inode_spec s H V L v ip :
  op e s H V L v -> idle (sl_lk (i_lock (v !!! ip))) -> sl_locked (i_lock (v !!! ip)) = 0 ->
  wp (acquiresleep (inode_obj ip) (ip_lock ip)) (fun _ s' => op e s' H V L (vinsert ip (held_by (e_pid e) (v !!! ip)) v)) s.
Proof.
  intros Hop Hi Hl. pose proof (op_quiet _ _ _ _ _ _ Hop) as Hq. pose proof Hq as [Hc Hr Hpid _ _].
  rewrite <- (op_inodes _ _ _ _ _ _ Hop) in *.
  eapply wp_ok; [eapply (acquiresleep_run (ip_lock ip) (inode_obj ip) s (e_me e)); [exact Hc|exact Hr|exact Hi|exact Hl]|].
  change (view procsL s) with (pt_proc (fptab s)). rewrite Hpid.
  pose proof (op_fenv e s H V L _ (settle (fcpu s)) (fptab s) (fs_itlock s) (vinsert ip (held_by (e_pid e) (fs_inode s !!! ip)) (fs_inode s)) Hop
    (settle_quiet _ _ _ _ _ Hq) (op_itlock _ _ _ _ _ _ Hop)) as Hop'.
  exact Hop'.
Qed.

Lemma ilock_spec s H V L v ip :
  op e s H V L v -> data_held e H V -> (length L + size H < NBUF)%nat -> named e (v !!! ip) -> 1 <= i_ref (v !!! ip) ->
  idle (sl_lk (i_lock (v !!! ip))) -> sl_locked (i_lock (v !!! ip)) = 0 ->
  wpx (ilock (Some ip)) (fun _ s' => op e s' H V L (vinsert ip (locked_inode sb V (e_pid e) (v !!! ip)) v))
    (fun w => w = Panic "ilock: no type" /\ i_valid (v !!! ip) = 0 /\ di_type (disk_inode sb V (i_inum (v !!! ip))) = 0) s.
Proof.
  intros Hop Hh Hn Hnm Href Hi Hl. unfold ilock. apply wpx_bind, wpx_wp. eapply op_geti; [exact Hop|].
  destruct (Z.ltb_spec (i_ref (v !!! ip)) 1); [lia|].
  xseq acquire_inode_spec; [exact Hop|done|done|]. cbv beta. intros [] s1 Hop1.
  apply wpx_bind, wpx_wp. eapply op_geti; [exact Hop1|]. rewrite vlookup_insert. unfold locked_inode.
  change (i_valid (held_by (e_pid e) (v !!! ip))) with (i_valid (v !!! ip)).
  destruct (Z.eqb_spec (i_valid (v !!! ip)) 0) as [Ev|Ev]; cbn [when]; [|by apply wpx_wp, wp_ret].
  pose proof (ilock_read_spec e La s1 H V L _ ip Hop1 Hh Hn) as Hrd. rewrite vlookup_insert, vinsert_twice in Hrd.
  specialize (Hrd Hnm). unfold wpx in Hrd |- *. destruct (ilock_read ip s1); [apply Hrd|]. destruct Hrd as [-> Ht].
  split_and!; done.
Qed.

(** The entry with its sleep lock free. *)
Definition unheld (i : inode) : inode := set_ilock (set_slpid 0 (set_sllocked 0 (i_lock i))) i.

Lemma iunlock_spec s H V L v ip :
  op e s H V L v -> idle (sl_lk (i_lock (v !!! ip))) -> sl_locked (i_lock (v !!! ip)) = 1 ->
  sl_pid (i_lock (v !!! ip)) = e_pid e -> 1 <= i_ref (v !!! ip) ->
  wp (iunlock (Some ip)) (fun _ s' => op e s' H V L (vinsert ip (unheld (v !!! ip)) v)) s.
Proof.
  intros Hop Hi Hl Hp Href. pose proof (op_quiet _ _ _ _ _ _ Hop) as Hq. pose proof Hq as [Hc Hr Hpid _ Hpr].
  rewrite <- (op_inodes _ _ _ _ _ _ Hop) in *. unfold iunlock. apply wp_bind.
  eapply wp_ok; [eapply (holdingsleep_run (ip_lock ip) s (e_me e)); [exact Hc|exact Hr|exact Hi]|].
  change (view (ip_lock ip) s) with (i_lock (fs_inode s !!! ip)). change (view procsL s) with (pt_proc (fptab s)).
  rewrite Hl, Hp, Hpid, Z.eqb_refl. cbn [nz negb andb orb].
  assert (op e (fenv (settle (fcpu s)) (fptab s) (fs_itlock s) (fs_inode s) s) H V L (fs_inode s)) as Hop1.
  { exact (op_fenv e s H V L _ _ _ _ _ Hop (settle_quiet _ _ _ _ _ Hq) (op_itlock _ _ _ _ _ _ Hop)). }
  apply wp_bind. eapply op_geti; [exact Hop1|]. destruct (Z.ltb_spec (i_ref (fs_inode s !!! ip)) 1); [lia|]. cbn.
  eapply wp_ok; [eapply (releasesleep_run (ip_lock ip) (inode_obj ip) _ (e_me e)); cbn|].
  - by apply settle_ok.
  - unfold running. cbn. by rewrite settle_proc.
  - done.
  - intros j _. apply Hpr.
  - cbn. rewrite settle_idem.
    exact (op_fenv e s H V L _ (settle (fcpu s)) (put pt_procL (wake_all (inode_obj ip) (Some (e_me e)) (pt_proc (fptab s))) (fptab s)) (fs_itlock s)
      (vinsert ip (unheld (fs_inode s !!! ip)) (fs_inode s)) Hop (quiet_wake _ _ _ _ _ _ (settle_quiet _ _ _ _ _ Hq)) (op_itlock _ _ _ _ _ _ Hop)).
Qed.
End Ilock.

(** C22: inodes survive the way to the disk and back. [iupdate] writes the table's
    entry to the inode's place on disk, and changes no other inode, no bitmap and
    no data block; in any later state with these contents, whatever has become of
    the table, [ilock] of an entry for that inode that is not valid gets back every
    field. *)
Theorem iupdate_ilock_roundtrip e s H V L v ip :
  layout e -> op e s H V L v -> bitmap_ok e V -> data_held e H V -> fits e H L 1 -> named e (v !!! ip) ->
  dinode_ok (dinode_of (v !!! ip)) -> i_type (v !!! ip) <> 0 ->
  let sb := e_sb e in
  wp (iupdate ip) (fun _ s' => exists V' L', op e s' H V' L' v /\ bitmap_ok e V' /\
    (forall n, 0 <= n < sb_ninodes sb -> n <> i_inum (v !!! ip) -> disk_inode sb V' n = disk_inode sb V n) /\
    (forall c, sb_bmapstart sb <= c -> V' c = V c) /\
    forall s1 H1 L1 v1 jp, op e s1 H1 V' L1 v1 -> data_held e H1 V' -> (length L1 + size H1 < NBUF)%nat ->
      i_dev (v1 !!! jp) = ROOTDEV -> i_inum (v1 !!! jp) = i_inum (v !!! ip) -> 1 <= i_ref (v1 !!! jp) ->
      i_valid (v1 !!! jp) = 0 -> idle (sl_lk (i_lock (v1 !!! jp))) -> sl_locked (i_lock (v1 !!! jp)) = 0 ->
      wp (ilock (Some jp)) (fun _ s2 => exists v2, op e s2 H1 V' L1 v2 /\ dinode_of (v2 !!! jp) = dinode_of (v !!! ip) /\
        i_valid (v2 !!! jp) = 1 /\ sl_locked (i_lock (v2 !!! jp)) = 1 /\ forall kp, kp <> jp -> v2 !!! kp = v1 !!! kp) s1) s.
Proof.
  intros La Hop Hok Hh Hf Hnm Hd Ht. cbv zeta. pose proof Hnm as [Hdev Hi]. pose proof Hok as [Hk _].
  eapply wp_mono; [by apply (iupdate_spec e La s H V L v ip)|]. cbv beta. intros [] s' Hop'.
  pose proof (stored_same e V (v !!! ip) Hk Hd) as Hsame.
  eexists _, _. split_and!; [exact Hop'|apply stored_ok; [done..|apply Hd]| |intros; by apply stored_other|].
  { intros n Hn Hne. apply stored_inode_other; [done|apply Hd|lia..|done]. }
  intros s1 H1 L1 v1 jp Hop1 Hh1 Hn1 Jd Ji Jr Jv Jl Jk.
  pose proof (ilock_spec e La s1 H1 _ L1 v1 jp Hop1 Hh1 Hn1 ltac:(split; [done|by rewrite Ji]) Jr Jl Jk) as Hil.
  rewrite Ji, Hsame in Hil. apply wpx_run in Hil as [([] & s2 & E & Hop2)|(w & s2 & _ & _ & _ & Hz)]; [|done].
  eapply wp_ok; [exact E|]. eexists. split; [exact Hop2|]. rewrite vlookup_insert. unfold locked_inode. rewrite Jv, Ji, Hsame.
  split_and!; [done..|]. intros kp Hkp. by rewrite vlookup_insert_ne.
Qed.

(** A table whose first entry is a file. *)
Module Entry.
Definition entry : inode := Inode ROOTDEV 7 1 (Sleeplock 0 Volume.lk "inode" 0) 1 2 0 0 1 2000 (46 :: 47 :: replicate 11 0).
Definition table : vec inode NINODE := vinsert 0%fin entry (vreplicate NINODE Volume.inode0).
Lemma entry_op : exists s, op Volume.volume s ∅ (dread Volume.dsk) [] table.
Proof.
  destruct Volume.volume_open as [s Hs].
  destruct (wp_run _ _ _ (op_updi Volume.volume s _ _ _ _ 0%fin (fun _ => entry) Hs)) as ([] & s' & _ & Hs'). by exists s'.
Qed.
Lemma entry_at : table !!! (0%fin : inodep) = entry.
Proof. apply vlookup_insert. Qed.
Lemma entry_ok : dinode_ok (dinode_of entry).
Proof. split; cbn; try lia. repeat (constructor; [lia|]). constructor. Qed.
Lemma entry_named : named Volume.volume entry.
Proof. split; [done|cbn; lia]. Qed.
End Entry.

Lemma iupdate_ilock_roundtrip_witness : exists s s' V' L',
  iupdate 0%fin s = Ok tt s' /\ op Volume.volume s' ∅ V' L' Entry.table.
Proof.
  destruct Entry.entry_op as [s Hs].
  pose proof (iupdate_ilock_roundtrip Volume.volume s ∅ _ [] _ 0%fin Volume.volume_layout Hs Volume.volume_bitmap
    Volume.volume_held (Volume.volume_fits 1 ltac:(lia))) as Hw. rewrite Entry.entry_at in Hw.
  destruct (wp_run _ _ _ (Hw Entry.entry_named Entry.entry_ok ltac:(done))) as ([] & s' & E & V' & L' & Hop & _).
  by exists s, s', V', L'.
Defined.
