(* ===== verification/Itrunc.v ===== *)
(** Freeing inodes: [itrunc] and the [iput] that drops the last reference to an
    inode without links, of [src/kernel/fs.c].

    [file_blocks] are the blocks a file owns: the direct ones, those its indirect
    block names and the indirect block. [itrunc] gives all of them back to the
    bitmap; [iput] then marks the inode free on the disk. *)

From stdpp Require Import gmap.
From S2P Require Import Prelude Params Spinlock Sched Sleeplock Bio Cache Log Journal Crash Txn Fs Blocks Inodes.
Local Open Scope kernel_scope.

(** * The blocks of a file *)

Definition nonzero (l : list Z) : list Z := filter (fun a => a <> 0) l.
Definition ind_blocks (V : blocks) (a : Z) : list Z :=
  if decide (a = 0) then [] else nonzero (word (V a) <$> seqZ 0 NINDIRECT) ++ [a].
Definition file_blocks (V : blocks) (i : inode) : list Z :=
  nonzero (take (Z.to_nat NDIRECT) (i_addrs i)) ++ ind_blocks V (i_addrs i !!! Z.to_nat NDIRECT).

Lemma nonzero_snoc l a : nonzero (l ++ [a]) = if decide (a = 0) then nonzero l else nonzero l ++ [a].
Proof.
  unfold nonzero. rewrite filter_app, filter_cons, filter_nil. repeat case_decide; try done. by rewrite app_nil_r.
Qed.

(** The blocks [bs] are given back to the bitmap, one after the other. *)
Definition all_given (sb : superblock) (V : blocks) (bs : list Z) : blocks := foldl (given_up sb) V bs.
Definition freelog (sb : superblock) (L : list Z) (bs : list Z) : list Z := foldl (fun L b => logged L (BBLOCK b sb)) L bs.

Section Freeing.
Context (e : env) (La : layout e).
Abbreviation sb := (e_sb e).
Implicit Types (s : fss) (H : gmap bufp Z) (V : blocks) (L bs : list Z) (v : vec inode NINODE).

(** Blocks that can be given back: different data blocks in use that nobody holds,
    with room in the log for their bitmap blocks and [k] more. *)
Record freeable H V L (k : nat) bs : Prop := {
  fr_nodup : NoDup bs;
  fr_own b : b ∈ bs -> datastart sb <= b < sb_size sb /\ used sb V b = true /\ ~ holds H b;
  fr_fits : fits e H (freelog sb L bs) k;
}.

Lemma freelog_app L bs bs' : freelog sb L (bs ++ bs') = freelog sb (freelog sb L bs) bs'.
Proof. apply foldl_app. Qed.
Lemma freelog_length bs : forall L, (length L <= length (freelog sb L bs))%nat.
Proof.
  induction bs as [|b bs IH]; intros L; [done|]. cbn. etransitivity; [|apply IH]. unfold logged. case_decide; [done|].
  rewrite length_app. lia.
Qed.
Lemma freeable_app H V L k bs bs' : freeable H V L k (bs ++ bs') -> freeable H V L k bs.
Proof.
  intros [Hn Ho Hf]. apply NoDup_app in Hn as (Hn & _). split; [done| |].
  - intros b Hb. apply Ho, elem_of_app. by left.
  - rewrite freelog_app in Hf. pose proof (freelog_length bs' (freelog sb L bs)). unfold fits in *. lia.
Qed.
Lemma freeable_le H V L k k' bs : (k' <= k)%nat -> freeable H V L k bs -> freeable H V L k' bs.
Proof. intros Hk [Hn Ho Hf]. split; [done..|]. unfold fits in *. lia. Qed.
(** One more buffer is held. *)
Lemma freeable_hold H V L k bs i a :
  freeable H V L (S k) bs -> H !! i = None -> a ∉ bs -> freeable (<[i:=a]> H) V L k bs.
Proof.
  intros [Hn Ho [Hf1 Hf2]] Hi Ha. split; [done| |].
  - intros b Hb. destruct (Ho b Hb) as (? & ? & Hh). split_and!; [lia..|done|]. rewrite holds_insert by done. intros [->|]; done.
  - split; [lia|]. rewrite map_size_insert_None by done. lia.
Qed.

Lemma all_given_ok V bs : bitmap_ok e V -> (forall b, b ∈ bs -> datastart sb <= b < sb_size sb) ->
  bitmap_ok e (all_given sb V bs) /\
  (forall c, 0 <= c -> used sb (all_given sb V bs) c = negb (bool_decide (c ∈ bs)) && used sb V c) /\
  (forall c, datastart sb <= c -> all_given sb V bs c = V c).
Proof.
  intros Hok. pose proof (datastart_pos e La). pose proof (la_log _ La).
  induction bs as [|b bs IH] using rev_ind; intros Hbs.
  - split_and!; [done| |done]. intros c _. rewrite bool_decide_eq_false_2; [done|by intros ?%elem_of_nil].
  - destruct IH as (H1 & H2 & H3); [intros b' Hb'; apply Hbs, elem_of_app; by left|].
    assert (datastart sb <= b < sb_size sb) as Hb by (apply Hbs, elem_of_app; right; by left).
    unfold all_given in *. rewrite foldl_app. cbn. split_and!.
    + by apply given_up_ok.
    + intros c Hc. rewrite used_given_up, H2 by (done || lia). rewrite andb_assoc. f_equal. rewrite <- negb_orb. f_equal.
      rewrite orb_comm, <- bool_decide_or. apply bool_decide_ext. by rewrite elem_of_app, list_elem_of_singleton.
    + intros c Hc. rewrite (given_up_other e La) by lia. by apply H3.
Qed.
Lemma held_given H V L k bs : bitmap_ok e V -> data_held e H V -> freeable H V L k bs -> data_held e H (all_given sb V bs).
Proof.
  intros Hok Hh [_ Ho _] b Hb. destruct (Hh b Hb) as [Hr Hu]. pose proof (datastart_pos e La). pose proof (la_log _ La).
  destruct (all_given_ok V bs Hok ltac:(intros b' Hb'; by apply Ho)) as (_ & E & _). split; [done|]. rewrite E, Hu by lia.
  rewrite bool_decide_eq_false_2; [done|]. intros Hbs. by destruct (Ho b Hbs) as (_ & _ & []).
Qed.

(** [bfree] of the next block of a list. *)
Lemma bfree_next s H V L v k bs b :
  bitmap_ok e V -> data_held e H V -> freeable H V L (S k) (bs ++ [b]) -> op e s H (all_given sb V bs) (freelog sb L bs) v ->
  wp (bfree ROOTDEV b) (fun _ s' => op e s' H (all_given sb V (bs ++ [b])) (freelog sb L (bs ++ [b])) v) s.
Proof.
  intros Hok Hh Hf Hop. pose proof (freeable_app _ _ _ _ _ _ Hf) as Hf1. pose proof (datastart_pos e La). pose proof (la_log _ La).
  destruct (fr_own _ _ _ _ _ Hf b ltac:(apply elem_of_app; right; by left)) as (Hr & Hu & _).
  destruct (all_given_ok V bs Hok ltac:(intros b' Hb'; by apply (fr_own _ _ _ _ _ Hf1))) as (Hok' & Eu & _).
  pose proof (bfree_spec e La s H _ _ v b Hop Hok' (held_given _ _ _ _ _ Hok Hh Hf1)) as Hw.
  pose proof (fr_fits _ _ _ _ _ Hf1) as Hfit. specialize (Hw ltac:(unfold fits in *; lia) Hr).
  unfold wp. unfold wpx in Hw. destruct (bfree ROOTDEV b s) as [[] s'|w s'].
  - destruct Hw as [_ Hop']. unfold all_given, freelog. by rewrite !foldl_app.
  - destruct Hw as [_ Hn]. rewrite Eu, Hu in Hn by lia. rewrite bool_decide_eq_false_2 in Hn; [done|].
    pose proof (fr_nodup _ _ _ _ _ Hf) as Hnd. apply NoDup_app in Hnd as (_ & Hnd & _). intros Hb. apply (Hnd b Hb). by left.
Qed.

(** The loop over an indirect block. *)
Lemma bfree_words H V L v k (g : Z -> Z) l : forall bs s,
  bitmap_ok e V -> data_held e H V -> freeable H V L (S k) (bs ++ nonzero (g <$> l)) ->
  op e s H (all_given sb V bs) (freelog sb L bs) v ->
  wp (forM l (fun j => when (nz (g j)) (bfree ROOTDEV (g j))))
    (fun _ s' => op e s' H (all_given sb V (bs ++ nonzero (g <$> l))) (freelog sb L (bs ++ nonzero (g <$> l))) v) s.
Proof.
  induction l as [|j l IH]; intros bs s Hok Hh Hf Hop; cbn [forM].
  { apply wp_ret. cbn. by rewrite app_nil_r. }
  unfold nonzero in *. rewrite fmap_cons, filter_cons in *. unfold nz. destruct (Z.eqb_spec (g j) 0) as [E|E].
  - rewrite decide_False in * by lia. cbn. apply wp_bind, wp_ret. by apply IH.
  - rewrite decide_True in * by done. cbn [negb when]. rewrite (cons_middle (g j) bs), app_assoc in *.
    wseq (bfree_next s H V L v k bs (g j) Hok Hh); [by eapply freeable_app|done|]. cbv beta. intros [] s1 Hop1. by apply IH.
Qed.
End Freeing.

(** * [itrunc] *)

(** The entry of a file whose first [k] direct blocks are gone. *)
Definition cut (k : nat) (i : inode) : inode := set_iaddrs (replicate k 0 ++ drop k (i_addrs i)) i.
(** The entry of a file without blocks. *)
Definition truncated (i : inode) : inode := set_isize 0 (set_iaddrs (replicate 13 0) i).

Section Itrunc.
Context (e : env) (La : layout e).
Abbreviation sb := (e_sb e).
Implicit Types (s : fss) (H : gmap bufp Z) (V : blocks) (L bs : list Z) (v : vec inode NINODE).

Lemma cut_addr k i : i_addrs (cut k i) !!! k = i_addrs i !!! k.
Proof.
  cbn. rewrite lookup_total_app_r by (by rewrite length_replicate). rewrite length_replicate, Nat.sub_diag, lookup_total_drop.
  f_equal. lia.
Qed.
Lemma cut_next k i : (k < length (i_addrs i))%nat -> <[k:=0]> (i_addrs (cut k i)) = i_addrs (cut (S k) i).
Proof.
  intros Hk. cbn. rewrite insert_app_r_alt by (by rewrite length_replicate). rewrite length_replicate, Nat.sub_diag.
  rewrite (drop_S (i_addrs i) (i_addrs i !!! k) k) by (by apply list_lookup_lookup_total_lt).
  change (<[0%nat:=0]> (i_addrs i !!! k :: drop (S k) (i_addrs i))) with (0 :: drop (S k) (i_addrs i)).
  by rewrite cons_middle, app_assoc, <- replicate_S_end.
Qed.
Lemma cut_skip k i : (k < length (i_addrs i))%nat -> i_addrs i !!! k = 0 -> cut k i = cut (S k) i.
Proof.
  intros Hk E. unfold cut. f_equal. change (i_addrs (cut k i) = i_addrs (cut (S k) i)). rewrite <- cut_next by done.
  symmetry. apply list_insert_id. rewrite <- E, <- (cut_addr k i). apply list_lookup_lookup_total_lt. cbn.
  rewrite length_app, length_replicate, length_drop. lia.
Qed.

Lemma itrunc_direct_spec s H V L v ip i k n :
  bitmap_ok e V -> data_held e H V -> i_dev i = ROOTDEV -> length (i_addrs i) = 13%nat -> (k < 13)%nat ->
  freeable e H V L (S n) (nonzero (take (S k) (i_addrs i))) ->
  op e s H (all_given sb V (nonzero (take k (i_addrs i)))) (freelog sb L (nonzero (take k (i_addrs i)))) (vinsert ip (cut k i) v) ->
  wp (itrunc_direct ip (Z.of_nat k)) (fun _ s' =>
    op e s' H (all_given sb V (nonzero (take (S k) (i_addrs i)))) (freelog sb L (nonzero (take (S k) (i_addrs i))))
      (vinsert ip (cut (S k) i) v)) s.
Proof.
  intros Hok Hh Hdev Hlen Hk Hf Hop. unfold itrunc_direct. apply wp_bind. eapply op_geti; [exact Hop|].
  rewrite vlookup_insert, Nat2Z.id, cut_addr. change (i_dev (cut k i)) with (i_dev i). rewrite Hdev.
  assert (i_addrs i !! k = Some (i_addrs i !!! k)) as Ek by (apply list_lookup_lookup_total_lt; lia).
  rewrite (take_S_r _ _ _ Ek), nonzero_snoc in Hf |- *. unfold nz.
  destruct (Z.eqb_spec (i_addrs i !!! k) 0) as [E|E]; cbn [negb when].
  - rewrite decide_True in Hf |- * by done. apply wp_ret. by rewrite <- cut_skip by (done || lia).
  - rewrite decide_False in Hf |- * by done.
    wseq bfree_next; [done..|exact Hf|exact Hop|]. cbv beta. intros [] s1 Hop1.
    eapply wp_mono; [eapply op_updi; exact Hop1|]. cbv beta. intros [] s2. rewrite vlookup_insert, vinsert_twice, cut_next by lia. done.
Qed.

Lemma itrunc_indirect_spec s H V L v ip i n bs :
  bitmap_ok e V -> data_held e H V -> i_dev i = ROOTDEV -> length (i_addrs i) = 13%nat -> i_addrs i !!! 12%nat <> 0 ->
  freeable e H V L (S (S n)) (bs ++ ind_blocks V (i_addrs i !!! 12%nat)) ->
  op e s H (all_given sb V bs) (freelog sb L bs) (vinsert ip (cut 12 i) v) ->
  wp (itrunc_indirect ip) (fun _ s' =>
    op e s' H (all_given sb V (bs ++ ind_blocks V (i_addrs i !!! 12%nat))) (freelog sb L (bs ++ ind_blocks V (i_addrs i !!! 12%nat)))
      (vinsert ip (cut 13 i) v)) s.
Proof.
  intros Hok Hh Hdev Hlen Ha. unfold ind_blocks. rewrite decide_False by done. set (a := i_addrs i !!! 12%nat) in *.
  rewrite app_assoc. intros Hf Hop. pose proof (freeable_app _ _ _ _ _ _ _ Hf) as Hf1. pose proof (freeable_app _ _ _ _ _ _ _ Hf1) as Hf0.
  destruct (fr_own _ _ _ _ _ _ Hf a) as (Har & Hau & Hnh); [apply elem_of_app; right; by left|].
  pose proof (la_data _ La). pose proof (datastart_pos e La). pose proof (la_log _ La).
  destruct (all_given_ok e La V bs Hok) as (_ & _ & Ed); [intros b Hb; by apply (fr_own _ _ _ _ _ _ Hf0)|].
  assert (a ∉ bs ++ nonzero (word (V a) <$> seqZ 0 NINDIRECT)) as Hnin.
  { pose proof (fr_nodup _ _ _ _ _ _ Hf) as Hnd. apply NoDup_app in Hnd as (_ & Hnd & _). intros Hin. apply (Hnd a Hin). by left. }
  unfold itrunc_indirect. apply wp_bind. eapply op_geti; [exact Hop|]. rewrite vlookup_insert.
  change (Z.to_nat NDIRECT) with 12%nat. rewrite cut_addr. fold a. change (i_dev (cut 12 i)) with (i_dev i). rewrite Hdev.
  pose proof (fr_fits _ _ _ _ _ _ Hf0) as [_ Hsz].
  wseq op_fbread; [exact Hop|lia|done|lia|]. cbv beta. intros j s1 [Hj Hop1].
  apply wp_bind. eapply op_fdata; [exact Hop1|apply lookup_insert_eq|]. rewrite Ed by lia.
  wseq (bfree_words e La (<[j:=a]> H) V L (vinsert ip (cut 12 i) v) n (word (V a)) (seqZ 0 NINDIRECT) bs s1 Hok); [| |exact Hop1|].
  { intros b [->|Hb]%holds_insert; [done|by apply Hh|done]. }
  { apply freeable_hold; [by eapply freeable_le; [|exact Hf1]; lia|done|done]. }
  cbv beta. intros [] s2 Hop2. wseq op_brelse; [exact Hop2|apply lookup_insert_eq|]. cbv beta. intros [] s3 Hop3.
  rewrite delete_insert_id in Hop3 by done.
  wseq bfree_next; [done..|exact Hf|exact Hop3|]. cbv beta. intros [] s4 Hop4.
  eapply wp_mono; [eapply op_updi; exact Hop4|]. cbv beta. intros [] s5. rewrite vlookup_insert, vinsert_twice, cut_next by lia. done.
Qed.

Lemma itrunc_spec s H V L v ip :
  op e s H V L v -> bitmap_ok e V -> data_held e H V -> named e (v !!! ip) -> length (i_addrs (v !!! ip)) = 13%nat ->
  freeable e H V L 2 (file_blocks V (v !!! ip)) ->
  wp (itrunc ip) (fun _ s' =>
    op e s' H (stored sb (all_given sb V (file_blocks V (v !!! ip))) (truncated (v !!! ip)))
      (logged (freelog sb L (file_blocks V (v !!! ip))) (IBLOCK (i_inum (v !!! ip)) sb))
      (vinsert ip (truncated (v !!! ip)) v)) s.
Proof.
  intros Hop Hok Hh [Hdev Hnum] Hlen Hf. unfold file_blocks in *. change (Z.to_nat NDIRECT) with 12%nat in *. set (i := v !!! ip) in *.
  unfold itrunc. apply wp_bind. eapply wp_mono.
  { apply (wp_forZ 12 (itrunc_direct ip) (fun k s' => op e s' H (all_given sb V (nonzero (take k (i_addrs i))))
      (freelog sb L (nonzero (take k (i_addrs i)))) (vinsert ip (cut k i) v))).
    - replace (cut 0 i) with i by (unfold cut; by destruct i). unfold i. by rewrite vlookup_insert_self.
    - intros k s' Hk Hop'. apply (itrunc_direct_spec s' H V L v ip i k 1); try done; [lia|].
      apply (freeable_app _ _ _ _ _ _ (nonzero (drop (S k) (take 12 (i_addrs i))))).
      assert (take (S k) (i_addrs i) = take (S k) (take 12 (i_addrs i))) as -> by (rewrite take_take; f_equal; lia).
      unfold nonzero. rewrite <- filter_app, take_drop. by eapply freeable_app. }
  cbv beta. intros [] s1 Hop1. apply wp_bind. eapply op_geti; [exact Hop1|]. rewrite vlookup_insert.
  change (Z.to_nat NDIRECT) with 12%nat. rewrite cut_addr. apply wp_bind. eapply wp_mono.
  { instantiate (1 := fun _ s' => op e s' H (all_given sb V (nonzero (take 12 (i_addrs i)) ++ ind_blocks V (i_addrs i !!! 12%nat)))
      (freelog sb L (nonzero (take 12 (i_addrs i)) ++ ind_blocks V (i_addrs i !!! 12%nat))) (vinsert ip (cut 13 i) v)).
    unfold nz. destruct (Z.eqb_spec (i_addrs i !!! 12%nat) 0) as [E|E]; cbn [negb when].
    - apply wp_ret. unfold ind_blocks. rewrite decide_True by done. rewrite app_nil_r. by rewrite <- (cut_skip 12) by (done || lia).
    - by apply (itrunc_indirect_spec s1 H V L v ip i 0). }
  cbv beta. intros [] s2 Hop2. wseq op_updi; [exact Hop2|]. cbv beta. intros [] s3. rewrite vlookup_insert, vinsert_twice.
  replace (set_isize 0 (cut 13 i)) with (truncated i).
  2:{ unfold truncated, cut. cbn [set_iaddrs set_isize]. rewrite drop_ge by lia. by rewrite app_nil_r. }
  intros Hop3. pose proof (iupdate_spec e La s3 H _ _ _ ip Hop3) as Hw. rewrite vlookup_insert in Hw. apply Hw.
  - by eapply held_given.
  - pose proof (fr_fits _ _ _ _ _ _ Hf) as Hfit. unfold fits in *. lia.
  - done.
Qed.
End Itrunc.

(** * The last [iput] of an inode without links *)

(** The disk once the inode of the entry [i] is free. *)
Record freed_inode (e : env) (V : blocks) (i : inode) (V' : blocks) : Prop := {
  fi_bitmap : bitmap_ok e V';
  fi_used c : 0 <= c -> used (e_sb e) V' c = negb (bool_decide (c ∈ file_blocks V i)) && used (e_sb e) V c;
  fi_data c : datastart (e_sb e) <= c -> V' c = V c;
  fi_inode : disk_inode (e_sb e) V' (i_inum i) = Dinode 0 (i_major i) (i_minor i) (i_nlink i) 0 (replicate 13 0);
  fi_others n : 0 <= n < sb_ninodes (e_sb e) -> n <> i_inum i -> disk_inode (e_sb e) V' n = disk_inode (e_sb e) V n;
}.

(** What [iput] needs to free the inode of an entry: it has the fields of an inode of
    the disk, its sleep lock is free and its blocks can be given back. *)
Record can_free (e : env) (H : gmap bufp Z) (V : blocks) (L : list Z) (i : inode) : Prop := {
  cf_bitmap : bitmap_ok e V;
  cf_held : data_held e H V;
  cf_named : named e i;
  cf_ok : dinode_ok (dinode_of i);
  cf_idle : idle (sl_lk (i_lock i));
  cf_free : sl_locked (i_lock i) = 0;
  cf_blocks : freeable e H V L 3 (file_blocks V i);
}.

Section Iput.
Context (e : env) (La : layout e).
Abbreviation sb := (e_sb e).
Implicit Types (s : fss) (H : gmap bufp Z) (V : blocks) (L bs : list Z) (v : vec inode NINODE).

(** [acquiresleep] with the lock of the table held. *)
Lemma acquire_inside s H V L v ip :
  inside e s H V L v -> idle (sl_lk (i_lock (v !!! ip))) -> sl_locked (i_lock (v !!! ip)) = 0 ->
  wp (acquiresleep (inode_obj ip) (ip_lock ip)) (fun _ s' => inside e s' H V L (vinsert ip (held_by (e_pid e) (v !!! ip)) v)) s.
Proof.
  intros (s0 & v0 & Hop & ->) Hi Hl. pose proof (op_quiet _ _ _ _ _ _ Hop) as Hq. pose proof Hq as [Hc Hr Hpid _ _].
  eapply wp_ok; [eapply (acquiresleep_run (ip_lock ip) (inode_obj ip) _ (e_me e) (k:=14)); [apply push_ok, Hc|exact Hr|exact Hi|exact Hl]|].
  exists s0, v0. split; [exact Hop|]. cbn. rewrite (settle_push (k:=16)) by exact Hc. rewrite Hpid. done.
Qed.

Lemma release_inode_spec s H V L v ip :
  op e s H V L v -> idle (sl_lk (i_lock (v !!! ip))) ->
  wp (releasesleep (inode_obj ip) (ip_lock ip)) (fun _ s' => op e s' H V L (vinsert ip (unheld (v !!! ip)) v)) s.
Proof.
  intros Hop Hi. pose proof (op_quiet _ _ _ _ _ _ Hop) as Hq. pose proof Hq as [Hc Hr Hpid _ Hpr].
  rewrite <- (op_inodes _ _ _ _ _ _ Hop) in *.
  eapply wp_ok; [eapply (releasesleep_run (ip_lock ip) (inode_obj ip) s (e_me e)); [exact Hc|exact Hr|exact Hi|intros j _; apply Hpr]|].
  exact (op_fenv e s H V L _ (settle (fcpu s)) (put pt_procL (wake_all (inode_obj ip) (Some (e_me e)) (pt_proc (fptab s))) (fptab s)) (fs_itlock s)
    (vinsert ip (unheld (fs_inode s !!! ip)) (fs_inode s)) Hop (quiet_wake _ _ _ _ _ _ (settle_quiet _ _ _ _ _ Hq)) (op_itlock _ _ _ _ _ _ Hop)).
Qed.

Lemma all_given_meta V bs c : (forall b, b ∈ bs -> 0 <= b) -> c < sb_bmapstart sb -> all_given sb V bs c = V c.
Proof.
  induction bs as [|b bs IH] using rev_ind; intros Hbs Hc; [done|]. unfold all_given in *. rewrite foldl_app. cbn.
  unfold given_up. rewrite setv_ne.
  - apply IH; [|done]. intros b' Hb'. apply Hbs, elem_of_app. by left.
  - unfold BBLOCK. pose proof (Z.div_pos b BPB (Hbs b ltac:(apply elem_of_app; right; by left)) ltac:(done)). lia.
Qed.

(** What [itrunc], the type 0 and [iupdate] make of the disk. *)
Lemma freed_inode_ok H V L i :
  can_free e H V L i ->
  freed_inode e V i (stored sb (stored sb (all_given sb V (file_blocks V i)) (truncated i)) (set_itype 0 (truncated i))) /\
  data_held e H (stored sb (all_given sb V (file_blocks V i)) (truncated i)).
Proof.
  intros [Hok Hh [Hdev Hi] Hd _ _ Hf]. pose proof (datastart_pos e La). pose proof (la_log _ La).
  assert (forall b, b ∈ file_blocks V i -> datastart sb <= b < sb_size sb) as Hr by (intros b Hb; by apply (fr_own _ _ _ _ _ _ Hf)).
  destruct (all_given_ok e La V _ Hok Hr) as (Hok1 & Hu1 & Hd1). set (V1 := all_given sb V (file_blocks V i)) in *.
  pose proof (stored_ok e La V1 (truncated i) Hok1 Hi eq_refl) as Hok2. set (V2 := stored sb V1 (truncated i)) in *.
  pose proof (stored_ok e La V2 (set_itype 0 (truncated i)) Hok2 Hi eq_refl) as Hok3. pose proof (bmap_data e La). split; [split|].
  - done.
  - intros c Hc. rewrite (used_stored e La) by done. unfold V2. rewrite (used_stored e La) by done. by apply Hu1.
  - intros c Hc. rewrite (stored_other e La) by (done || lia). unfold V2. rewrite (stored_other e La) by (done || lia). by apply Hd1.
  - change (i_inum i) with (i_inum (set_itype 0 (truncated i))). rewrite stored_same; [done|apply Hok2|].
    destruct Hd. split; cbn in *; try done. repeat (constructor; [lia|]). constructor.
  - intros n Hn Hne. rewrite stored_inode_other; try done; [|apply Hok2|lia|cbn; lia]. unfold V2.
    rewrite stored_inode_other; try done; [|apply Hok1|lia|cbn; lia].
    unfold disk_inode. f_equal. apply all_given_meta; [intros b Hb; specialize (Hr b Hb); lia|]. apply (IBLOCK_range e La n Hn).
  - intros b Hb. destruct (held_given e La H V L 3 _ Hok Hh Hf b Hb) as [Hbr Hbu]. split; [done|]. unfold V2.
    rewrite (used_stored e La) by (done || lia). done.
Qed.

(** The entry that [iput] leaves. *)
Definition put_away (pid : Z) (i : inode) : inode :=
  set_iref 0 (unheld (set_ivalid 0 (set_itype 0 (truncated (held_by pid i))))).

Lemma iput_frees_spec s H V L v ip :
  op e s H V L v -> goes (v !!! ip) = true -> can_free e H V L (v !!! ip) ->
  wp (iput ip) (fun _ s' => exists V' L', freed_inode e V (v !!! ip) V' /\
    op e s' H V' L' (vinsert ip (put_away (e_pid e) (v !!! ip)) v)) s.
Proof.
  intros Hop Hg Hcf. destruct (freed_inode_ok H V L _ Hcf) as [Hfi Hh2]. destruct Hcf as [Hok Hh Hnm Hd Hi Hl Hf].
  set (i := v !!! ip) in *. pose proof Hg as [[Er Ev]%andb_true_iff En]%andb_true_iff. apply Z.eqb_eq in Er.
  unfold iput. wseq itable_enter; [exact Hop|]. cbv beta. intros [] s1 Hin.
  apply wp_bind. eapply inside_geti; [exact Hin|]. fold i. unfold goes in Hg. rewrite Hg. cbn [when]. apply wp_bind.
  wseq acquire_inside; [exact Hin|done|done|]. cbv beta. intros [] s2 Hin2.
  wseq itable_leave; [exact Hin2|]. cbv beta. intros [] s3 Hop3. fold i in Hop3.
  pose proof (itrunc_spec e La s3 H V L _ ip Hop3 Hok Hh) as Hw. rewrite vlookup_insert, vinsert_twice in Hw.
  apply wp_bind. eapply wp_mono; [apply Hw; [exact Hnm|apply Hd|eapply freeable_le; [|exact Hf]; lia]|]. clear Hw.
  cbv beta. intros [] s4 Hop4. wseq op_updi; [exact Hop4|]. cbv beta. intros [] s5 Hop5. rewrite vlookup_insert, vinsert_twice in Hop5.
  pose proof (iupdate_spec e La s5 H _ _ _ ip Hop5) as Hw. rewrite vlookup_insert in Hw.
  assert (fits e H (logged (freelog sb L (file_blocks V i)) (IBLOCK (i_inum i) sb)) 1) as Hfit.
  { apply fits_logged. pose proof (fr_fits _ _ _ _ _ _ Hf) as Hfit. unfold fits in *. lia. }
  apply wp_bind. eapply wp_mono; [exact (Hw Hh2 Hfit Hnm)|]. clear Hw. cbv beta. intros [] s6 Hop6. wseq op_updi; [exact Hop6|]. cbv beta. intros [] s7 Hop7. rewrite vlookup_insert, vinsert_twice in Hop7.
  wseq release_inode_spec; [exact Hop7|by rewrite vlookup_insert|]. cbv beta. intros [] s8 Hop8. rewrite vlookup_insert, vinsert_twice in Hop8.
  eapply wp_mono; [apply itable_enter; exact Hop8|]. cbv beta. intros [] s9 Hin9.
  wseq inside_updi; [exact Hin9|]. cbv beta. intros [] s10 Hin10. rewrite vlookup_insert, vinsert_twice in Hin10.
  eapply wp_mono; [apply itable_leave; exact Hin10|]. cbv beta. intros [] s11 Hop11.
  eexists _, _. split; [exact Hfi|]. unfold put_away. replace (set_iref 0) with (set_iref (s32 (i_ref i - 1))); [exact Hop11|].
  by rewrite Er.
Qed.
End Iput.
