(* ===== verification/Refs.v ===== *)
(** The reference counts of the inode table of [src/kernel/fs.c]: [iget], [idup] and
    [iput] as steps over the list of the references that are handed out, the
    [iput] that frees an inode included. *)

From stdpp Require Import gmap.
From S2P Require Import Prelude Params Spinlock Sched Sleeplock Bio Cache Log Journal Crash Txn Fs Blocks Inodes Itrunc.
Local Open Scope kernel_scope.

(** The references handed out: the entry and the inode it was asked for. *)
Abbreviation iref := (inodep * (Z * Z))%type.
Definition refcount (rs : list iref) (ip : inodep) : Z := Z.of_nat (length (filter (fun r => fst r = ip) rs)).

(** The references of the table, none of them changed. *)
Definition refs_kept (v v' : vec inode NINODE) : Prop :=
  forall ip, i_ref (v' !!! ip) = i_ref (v !!! ip) /\ i_dev (v' !!! ip) = i_dev (v !!! ip) /\ i_inum (v' !!! ip) = i_inum (v !!! ip).

(** Callers take references, duplicate theirs and give theirs back, fewer than 2^31
    at a time; between these calls they lock, read and change inodes. The last
    reference to an inode without links is given back when the inode can be
    freed. *)
Inductive refstep (e : env) (H : gmap bufp Z) : list iref * fss -> list iref * fss -> Prop :=
| ref_get rs s dev inum ip s' : Z.of_nat (length rs) + 1 < 2 ^ 31 -> iget dev inum s = Ok ip s' ->
    refstep e H (rs, s) ((ip, (dev, inum)) :: rs, s')
| ref_dup rs s ip k jp s' : Z.of_nat (length rs) + 1 < 2 ^ 31 -> (ip, k) ∈ rs -> idup ip s = Ok jp s' ->
    refstep e H (rs, s) ((jp, k) :: rs, s')
| ref_put rs1 rs2 s ip k s' :
    (goes (fs_inode s !!! ip) = true -> exists V L, op e s H V L (fs_inode s) /\ can_free e H V L (fs_inode s !!! ip)) ->
    iput ip s = Ok tt s' -> refstep e H (rs1 ++ (ip, k) :: rs2, s) (rs1 ++ rs2, s')
| ref_work rs s s' : (exists V L, op e s' H V L (fs_inode s')) -> refs_kept (fs_inode s) (fs_inode s') ->
    refstep e H (rs, s) (rs, s').

Section Refs.
Context (e : env) (La : layout e) (H : gmap bufp Z).
Implicit Types (s : fss) (V : blocks) (L : list Z) (v : vec inode NINODE) (rs : list iref).

Record refs_ok rs s : Prop := {
  ro_op : exists V L, op e s H V L (fs_inode s);
  ro_count ip : i_ref (fs_inode s !!! ip) = refcount rs ip;
  ro_key ip k : (ip, k) ∈ rs -> (i_dev (fs_inode s !!! ip), i_inum (fs_inode s !!! ip)) = k;
  ro_table : itable_ok (fs_inode s);
}.

Lemma refcount_cons rs r ip : refcount (r :: rs) ip = refcount rs ip + (if decide (fst r = ip) then 1 else 0).
Proof. unfold refcount. rewrite filter_cons. case_decide; cbn [length]; lia. Qed.
Lemma refcount_app rs1 rs2 ip : refcount (rs1 ++ rs2) ip = refcount rs1 ip + refcount rs2 ip.
Proof. unfold refcount. rewrite filter_app, length_app. lia. Qed.
Lemma refcount_pos rs ip k : (ip, k) ∈ rs -> 0 < refcount rs ip.
Proof. intros (l1 & l2 & ->)%list_elem_of_split. rewrite refcount_app, refcount_cons. cbn. rewrite decide_True by done. unfold refcount. lia. Qed.
Lemma refcount_le rs ip : refcount rs ip <= Z.of_nat (length rs).
Proof. unfold refcount. pose proof (length_filter (fun r : iref => fst r = ip) rs). lia. Qed.
Lemma refcount_in rs ip : 0 < refcount rs ip -> exists k, (ip, k) ∈ rs.
Proof.
  unfold refcount. intros Hp. destruct (filter _ rs) as [|[jp k] l] eqn:E; [done|].
  assert ((jp, k) ∈ filter (fun r : iref => fst r = ip) rs) as Hin by (rewrite E; by left).
  apply list_elem_of_filter in Hin as [<- Hin]. by exists k.
Qed.

(** One entry changes its count by [n] and the references follow. *)
Lemma refs_ok_change rs rs' s s' ip i n V L :
  refs_ok rs s -> op e s' H V L (vinsert ip i (fs_inode s)) ->
  i_ref i = i_ref (fs_inode s !!! ip) + n ->
  (forall jp, refcount rs' jp = refcount rs jp + (if decide (ip = jp) then n else 0)) ->
  (forall jp k, (jp, k) ∈ rs' -> (jp, k) ∈ rs \/ jp = ip /\ (i_dev i, i_inum i) = k) ->
  (0 < i_ref (fs_inode s !!! ip) -> i_dev i = i_dev (fs_inode s !!! ip) /\ i_inum i = i_inum (fs_inode s !!! ip)) ->
  itable_ok (vinsert ip i (fs_inode s)) -> refs_ok rs' s'.
Proof.
  intros [_ Hc Hk Ht] Hop' Hi Hn Hr Hkey Ht'. pose proof (op_inodes _ _ _ _ _ _ Hop') as E.
  split; rewrite E; [by eauto| | |done].
  - intros jp. rewrite Hn, vlookup_vinsert, <- Hc. repeat case_decide; subst; try done; lia.
  - intros jp k Hjk. rewrite vlookup_vinsert. destruct (Hr _ _ Hjk) as [Hin|[-> Hik]]; [|by rewrite decide_True].
    case_decide as E1; [subst jp|by apply Hk]. pose proof (refcount_pos _ _ _ Hin) as Hp. rewrite <- Hc in Hp.
    destruct (Hkey Hp) as [-> ->]. by apply Hk.
Qed.

(** An entry in use changes, and stays the entry of its inode. *)
Lemma itable_change v ip i :
  itable_ok v -> 0 < i_ref (v !!! ip) -> 0 <= i_ref i < 2 ^ 31 -> i_dev i = i_dev (v !!! ip) -> i_inum i = i_inum (v !!! ip) ->
  itable_ok (vinsert ip i v).
Proof.
  intros [Hr Hu] Hp Hn Hd Hi. split.
  - intros jp. rewrite vlookup_vinsert. case_decide; [done|apply Hr].
  - intros jp kp. rewrite !vlookup_vinsert. repeat case_decide; subst; try done; rewrite ?Hd, ?Hi; [| |by apply Hu].
    + intros _ ? ? ?. by apply Hu.
    + intros ? _ ? ?. by apply Hu.
Qed.

Lemma ref_get_ok rs s dev inum ip s' :
  refs_ok rs s -> Z.of_nat (length rs) + 1 < 2 ^ 31 -> iget dev inum s = Ok ip s' -> refs_ok ((ip, (dev, inum)) :: rs) s'.
Proof.
  intros Hro Hb E. pose proof Hro as [(V & L & Hop) Hc Hk Ht].
  pose proof (iget_spec e s H V L _ dev inum Hop Ht) as Hw. unfold wpx in Hw. rewrite E in Hw. destruct Hw as [Hop' Hip].
  assert (i_ref (fs_inode s !!! ip) + 1 < 2 ^ 31) as Hb1 by (rewrite Hc; pose proof (refcount_le rs ip); lia).
  pose proof (got_ref dev inum _ (proj1 (it_ref _ Ht ip)) Hb1) as G1.
  destruct (got_is_for dev inum _ Hb1 ltac:(tauto)) as (_ & G2 & G3).
  eapply (refs_ok_change rs _ s s' ip _ 1 V L Hro Hop' G1).
  - intros jp. apply refcount_cons.
  - intros jp k [[= -> ->]|Hjk]%elem_of_cons; [right; by rewrite G2, G3|by left].
  - intros Hp. rewrite G2, G3. destruct Hip as [(_ & ? & ?)|[Hz _]]; [done|lia].
  - by apply itable_got.
Qed.

Lemma ref_dup_ok rs s ip k jp s' :
  refs_ok rs s -> Z.of_nat (length rs) + 1 < 2 ^ 31 -> (ip, k) ∈ rs -> idup ip s = Ok jp s' -> refs_ok ((jp, k) :: rs) s'.
Proof.
  intros Hro Hb Hin E. pose proof Hro as [(V & L & Hop) Hc Hk Ht].
  pose proof (idup_spec e s H V L _ ip Hop) as Hw. unfold wp in Hw. rewrite E in Hw. destruct Hw as [-> Hop'].
  pose proof (refcount_pos _ _ _ Hin) as Hp. rewrite <- Hc in Hp.
  assert (i_ref (fs_inode s !!! ip) + 1 < 2 ^ 31) as Hb1 by (rewrite Hc; pose proof (refcount_le rs ip); lia).
  rewrite s32_small in Hop' by lia.
  eapply (refs_ok_change rs _ s s' ip _ 1 V L Hro Hop'); [done| | |done|apply itable_change; [done..|cbn; lia|done|done]].
  - intros i. apply refcount_cons.
  - intros i k' [[= -> ->]|Hjk]%elem_of_cons; [left; done|by left].
Qed.

(** [iput] of an entry in use: one reference less, whether or not the inode goes. *)
Lemma iput_cases s V L ip s' :
  op e s H V L (fs_inode s) -> 0 < i_ref (fs_inode s !!! ip) < 2 ^ 31 ->
  (goes (fs_inode s !!! ip) = true -> can_free e H V L (fs_inode s !!! ip)) -> iput ip s = Ok tt s' ->
  exists V' L' i, op e s' H V' L' (vinsert ip i (fs_inode s)) /\ i_ref i = i_ref (fs_inode s !!! ip) + -1 /\
    i_dev i = i_dev (fs_inode s !!! ip) /\ i_inum i = i_inum (fs_inode s !!! ip).
Proof.
  intros Hop Hr Hcf E. destruct (goes (fs_inode s !!! ip)) eqn:Hg.
  - pose proof (iput_frees_spec e La s H V L _ ip Hop Hg (Hcf eq_refl)) as Hw. unfold wp in Hw. rewrite E in Hw.
    destruct Hw as (V' & L' & _ & Hop'). exists V', L'. eexists. split; [exact Hop'|].
    apply andb_true_iff in Hg as [[Er _]%andb_true_iff _]. apply Z.eqb_eq in Er. cbn. split_and!; [lia|done|done].
  - pose proof (iput_keeps_spec e s H V L _ ip Hop Hg) as Hw. unfold wp in Hw. rewrite E, s32_small in Hw by lia.
    exists V, L. eexists. split; [exact Hw|]. done.
Qed.

Lemma ref_put_ok rs1 rs2 s ip k s' :
  refs_ok (rs1 ++ (ip, k) :: rs2) s ->
  (goes (fs_inode s !!! ip) = true -> exists V L, op e s H V L (fs_inode s) /\ can_free e H V L (fs_inode s !!! ip)) ->
  iput ip s = Ok tt s' -> refs_ok (rs1 ++ rs2) s'.
Proof.
  intros Hro Hcf E. pose proof Hro as [(V0 & L0 & Hop0) Hc Hk Ht].
  assert (Hp : 0 < refcount (rs1 ++ (ip, k) :: rs2) ip) by (eapply refcount_pos; apply elem_of_app; right; by left).
  rewrite <- Hc in Hp. pose proof (it_ref _ Ht ip) as Hlt.
  assert (exists V L, op e s H V L (fs_inode s) /\ (goes (fs_inode s !!! ip) = true -> can_free e H V L (fs_inode s !!! ip))) as (V & L & Hop & Hf).
  { destruct (goes (fs_inode s !!! ip)); [destruct (Hcf eq_refl) as (V & L & ? & ?); by exists V, L|by exists V0, L0]. }
  destruct (iput_cases s V L ip s' Hop ltac:(lia) Hf E) as (V' & L' & i & Hop' & Er & Ed & Ei).
  eapply (refs_ok_change _ _ s s' ip _ (-1) V' L' Hro Hop' Er); [| |done|apply itable_change; [done..|lia|done|done]].
  - intros jp. rewrite !refcount_app, refcount_cons. cbn. case_decide; lia.
  - intros jp k' Hjk. left. rewrite elem_of_app, elem_of_cons in *. tauto.
Qed.

Lemma ref_work_ok rs s s' :
  refs_ok rs s -> (exists V L, op e s' H V L (fs_inode s')) -> refs_kept (fs_inode s) (fs_inode s') -> refs_ok rs s'.
Proof.
  intros [_ Hc Hk [Hr Hu]] Hop Hs. split; [done| | |split].
  - intros ip. destruct (Hs ip) as (-> & _). apply Hc.
  - intros ip k Hin. destruct (Hs ip) as (_ & -> & ->). by apply Hk.
  - intros ip. destruct (Hs ip) as (-> & _). apply Hr.
  - intros ip jp. destruct (Hs ip) as (-> & -> & ->), (Hs jp) as (-> & -> & ->). apply Hu.
Qed.

Lemma refstep_ok x y : refstep e H x y -> refs_ok (fst x) (snd x) -> refs_ok (fst y) (snd y).
Proof.
  intros [rs s dev inum ip s' Hb E|rs s ip k jp s' Hb Hin E|rs1 rs2 s ip k s' Hcf E|rs s s' Hop Hs] Hro; cbn [fst snd] in *.
  - by eapply ref_get_ok.
  - by eapply ref_dup_ok.
  - by eapply ref_put_ok.
  - by eapply ref_work_ok.
Qed.
Lemma refsteps_ok x y : rtc (refstep e H) x y -> refs_ok (fst x) (snd x) -> refs_ok (fst y) (snd y).
Proof. induction 1 as [|x y z Hxy _ IH]; [done|]. intros Hx. by eapply IH, refstep_ok. Qed.
End Refs.

(** C21: the reference counts of the inode table are right. However callers take
    references with [iget], duplicate them with [idup], give them back with
    [iput], the last one of an inode without links included, and work on the
    inodes in between, every entry's count is the number of references to it; a
    reference denotes the inode it was asked for as long as it is held; there is
    one entry per inode, so that [iget] of an inode in use returns that entry;
    and [iget] panics only when each of the NINODE entries is referenced. When
    the inode of a reference has no links and no other reference, [iput] frees
    it: its blocks are free in the bitmap, its type on the disk is 0, its entry
    can be used again, and no other block's bit, no data block and no other inode
    has changed. *)
Theorem inode_refs_invariant e H rs s rs' s' :
  layout e -> refs_ok e H rs s -> rtc (refstep e H) (rs, s) (rs', s') ->
  refs_ok e H rs' s' /\
  (forall ip jp k, (ip, k) ∈ rs' -> (jp, k) ∈ rs' -> ip = jp) /\
  (forall dev inum, wpx (iget dev inum) (fun ip _ => forall jp, (jp, (dev, inum)) ∈ rs' -> ip = jp)
    (fun w => w = Panic "iget: no inodes" /\ forall jp, exists k, (jp, k) ∈ rs') s') /\
  (forall ip k V L, (ip, k) ∈ rs' -> op e s' H V L (fs_inode s') -> goes (fs_inode s' !!! ip) = true ->
    can_free e H V L (fs_inode s' !!! ip) ->
    refcount rs' ip = 1 /\
    wp (iput ip) (fun _ s2 => i_ref (fs_inode s2 !!! ip) = 0 /\
      exists V' L', freed_inode e V (fs_inode s' !!! ip) V' /\ op e s2 H V' L' (fs_inode s2)) s').
Proof.
  intros La Hro Hsteps. pose proof (refsteps_ok e La H _ _ Hsteps Hro) as Hro'. cbn [fst snd] in Hro'.
  pose proof Hro' as [(V & L & Hop) Hc Hk Ht].
  assert (forall ip jp k, (ip, k) ∈ rs' -> (jp, k) ∈ rs' -> ip = jp) as Hone.
  { intros ip jp k Hi Hj. pose proof (Hk _ _ Hi) as Ei. pose proof (Hk _ _ Hj) as Ej.
    apply (it_uniq _ Ht); [rewrite Hc; by eapply refcount_pos..|congruence|congruence]. }
  split_and!; [done..| |].
  - intros dev inum. pose proof (iget_spec e s' H V L _ dev inum Hop Ht) as Hw.
    unfold wpx in *. destruct (iget dev inum s') as [ip s2|w s2].
    + destruct Hw as [_ [Hf|[_ Hno]]]; intros jp Hj; pose proof (Hk _ _ Hj) as Ej; pose proof (refcount_pos _ _ _ Hj) as Hp; rewrite <- Hc in Hp.
      * destruct Hf as (? & ? & ?). apply (it_uniq _ Ht); [done..|congruence|congruence].
      * destruct (Hno jp). unfold is_for. split_and!; [done|congruence..].
    + destruct Hw as [-> Hall]. split; [done|]. intros jp. destruct (Hall jp) as [Hp _]. rewrite Hc in Hp. by apply refcount_in.
  - intros ip k V1 L1 Hin Hop1 Hg Hcf. split.
    { apply andb_true_iff in Hg as [[Er _]%andb_true_iff _]. apply Z.eqb_eq in Er. by rewrite <- Hc. }
    eapply wp_mono; [by apply (iput_frees_spec e La s' H V1 L1 _ ip Hop1 Hg)|]. cbv beta. intros [] s2 (V' & L' & Hfi & Hop2).
    pose proof (op_inodes _ _ _ _ _ _ Hop2) as E. rewrite E, vlookup_insert. split; [done|]. exists V', L'. by split.
Qed.

(** A volume with a file of four blocks, its indirect block included, that has no
    name any more; one process has it open. *)
Module Orphan.
Definition dsk : disk := Disk (fun b => if b =? 45 then replicate 6 255 ++ 3 :: replicate 1017 0
                                        else if b =? 48 then 49 :: replicate 1023 0 else replicate 1024 0) [].
Definition volume : env := Env 0%fin Machine.proc0 2 30 dsk Volume.super true.
Definition entry : inode := Inode ROOTDEV 7 1 (Sleeplock 0 Volume.lk "inode" 0) 1 2 0 0 0 14000 (46 :: 47 :: replicate 10 0 ++ [48]).
Definition table : vec inode NINODE := vinsert 0%fin entry (vreplicate NINODE Volume.inode0).

Lemma orphan_layout : layout volume.
Proof. split; vm_compute; intuition congruence. Qed.
Lemma orphan_open : exists s, op volume s ∅ (dread dsk) [] table.
Proof.
  destruct (machine_quiescent dsk ltac:(by vm_compute)) as [s Hs].
  destruct (wp_run _ _ _ (begin_active _ _ _ _ _ Hs)) as ([] & t & _ & Ht). exists (Fss t Volume.super Volume.lk table).
  by apply (op_active volume (Fss t Volume.super Volume.lk table) (dread dsk) (set_outstanding 1 Machine.log0) []).
Qed.
Lemma orphan_bitmap : bitmap_ok volume (dread dsk).
Proof.
  split.
  - intros b. unfold dread. cbn. destruct (b =? 45); [by vm_compute|]. destruct (b =? 48); by vm_compute.
  - intros b Hb. change (datastart (e_sb volume)) with 46 in Hb.
    assert (forallb (used Volume.super (dread dsk)) (seqZ 0 46) = true) as HF by (by vm_compute).
    rewrite List.forallb_forall in HF. apply HF, list_elem_of_In, elem_of_seqZ. lia.
Qed.
Lemma orphan_blocks : file_blocks (dread dsk) entry = [46; 47; 49; 48].
Proof. by vm_compute. Qed.
Lemma orphan_free : can_free volume ∅ (dread dsk) [] entry.
Proof.
  split.
  - exact orphan_bitmap.
  - intros b Hb. by destruct (holds_empty b).
  - split; [done|cbn; lia].
  - split; cbn; try lia. repeat (constructor; [lia|]). constructor.
  - done.
  - done.
  - rewrite orphan_blocks. split.
    + by apply (bool_decide_unpack (NoDup [46; 47; 49; 48])).
    + intros b Hb. assert (b = 46 \/ b = 47 \/ b = 49 \/ b = 48) as Hb'.
      { rewrite !elem_of_cons, elem_of_nil in Hb. tauto. }
      change (datastart (e_sb volume)) with 46. cbn [e_sb volume Volume.super sb_size].
      split_and!; [lia|lia| |apply holds_empty]. by destruct Hb' as [->|[->|[->| ->]]]; vm_compute.
    + split; [by vm_compute|]. rewrite map_size_empty. apply Nat.ltb_lt. by vm_compute.
Qed.
Lemma orphan_refs s : op volume s ∅ (dread dsk) [] table -> refs_ok volume ∅ [(0%fin, (1, 7))] s.
Proof.
  intros Hs. pose proof (op_inodes _ _ _ _ _ _ Hs) as E.
  assert (forall ip, table !!! ip = if decide (0%fin = ip) then entry else Volume.inode0) as Et.
  { intros ip. unfold table. rewrite vlookup_vinsert, vlookup_replicate. repeat case_decide; congruence. }
  split; rewrite ?E.
  - by exists (dread dsk), [].
  - intros ip. rewrite Et, refcount_cons. cbn [fst]. by repeat case_decide.
  - intros ip k [[= -> ->]|?%elem_of_nil]%elem_of_cons; [|done]. by rewrite Et, decide_True.
  - split; intros ip; rewrite Et; [case_decide; cbn; lia|]. intros jp. rewrite Et. repeat case_decide; cbn; try lia. congruence.
Qed.
End Orphan.

(** The process duplicates its reference and gives both back: the file goes with the
    second. *)
Lemma inode_refs_invariant_witness : exists s s1 s2 s3,
  idup 0%fin s = Ok 0%fin s1 /\ iput 0%fin s1 = Ok tt s2 /\ iput 0%fin s2 = Ok tt s3 /\
  i_ref (fs_inode s1 !!! (0%fin : inodep)) = 2 /\ i_ref (fs_inode s3 !!! (0%fin : inodep)) = 0 /\
  exists V' L', op Orphan.volume s3 ∅ V' L' (fs_inode s3) /\ di_type (disk_inode Volume.super V' 7) = 0 /\
    forall b, b ∈ [46; 47; 48; 49] -> used Volume.super (dread Orphan.dsk) b = true /\ used Volume.super V' b = false.
Proof.
  destruct Orphan.orphan_open as [s Hs]. pose proof (Orphan.orphan_refs s Hs) as Hro.
  destruct (wp_run _ _ _ (idup_spec _ s _ _ _ _ 0%fin Hs)) as (jp & s1 & E1 & -> & Hop1).
  pose proof (op_inodes _ _ _ _ _ _ Hop1) as Ev1.
  assert (goes (Orphan.table !!! (0%fin : inodep)) = true /\ Orphan.table !!! (0%fin : inodep) = Orphan.entry) as [_ Et] by (split; reflexivity).
  rewrite Et in Hop1, Ev1.
  destruct (wp_run _ _ _ (iput_keeps_spec _ s1 _ _ _ _ 0%fin Hop1 ltac:(by rewrite vlookup_insert))) as ([] & s2 & E2 & Hop2).
  rewrite vlookup_insert, vinsert_twice in Hop2.
  rewrite (vinsert_same _ _ Orphan.table) in Hop2 by reflexivity. pose proof (op_inodes _ _ _ _ _ _ Hop2) as Ev2.
  pose proof (inode_refs_invariant Orphan.volume ∅ [(0%fin, (1, 7))] s [(0%fin, (1, 7))] s2 Orphan.orphan_layout Hro) as Hw.
  destruct Hw as (_ & _ & _ & Hfree).
  { apply rtc_l with ([(0%fin, (1, 7)); (0%fin, (1, 7))], s1).
    { apply (ref_dup _ _ _ _ 0%fin); [cbn; lia|by left|exact E1]. }
    apply rtc_once. apply (ref_put _ _ [] [(0%fin, (1, 7))] s1 0%fin (1, 7)); [|exact E2].
    intros Hg. rewrite Ev1, vlookup_insert in Hg. discriminate Hg. }
  rewrite Ev2 in Hfree. destruct (Hfree 0%fin (1, 7) (dread Orphan.dsk) []) as [_ Hput]; [by left|exact Hop2|by rewrite Et|rewrite Et; exact Orphan.orphan_free|].
  destruct (wp_run _ _ _ Hput) as ([] & s3 & E3 & Hz & V' & L' & Hfi & Hop3). rewrite Et in Hfi.
  exists s, s1, s2, s3. split_and!; [exact E1|exact E2|exact E3|by rewrite Ev1, vlookup_insert|exact Hz|].
  exists V', L'. split; [exact Hop3|]. pose proof (fi_inode _ _ _ _ Hfi) as Hin. cbn in Hin. rewrite Hin. split; [done|].
  intros b Hb. split.
  - apply (fr_own _ _ _ _ _ _ (cf_blocks _ _ _ _ _ Orphan.orphan_free)). rewrite Orphan.orphan_blocks.
    rewrite !elem_of_cons, elem_of_nil in *. tauto.
  - assert (b ∈ file_blocks (dread Orphan.dsk) Orphan.entry) as Hin'.
    { rewrite Orphan.orphan_blocks. rewrite !elem_of_cons, elem_of_nil in *. tauto. }
    pose proof (fi_used _ _ _ _ Hfi b) as Hu. rewrite bool_decide_eq_true_2 in Hu by exact Hin'. apply Hu.
    destruct (fr_own _ _ _ _ _ _ (cf_blocks _ _ _ _ _ Orphan.orphan_free) b Hin') as [Hr _]. change (datastart (e_sb Orphan.volume)) with 46 in Hr. lia.
Defined.
