(* ===== verification/Umem.v ===== *)
(** User memory and system call arguments: [either_copyout] and
    [either_copyin] of [src/kernel/proc.c] and the argument functions of
    [src/kernel/syscall.c].

    The state is physical memory with the page allocator, and the process
    table: what code needs that copies to and from the memory of the running
    process. A [struct trapframe] is in the physical page its pointer names,
    each register at its C offset. *)

From S2P Require Import Prelude Params Spinlock Cstring Kalloc Vm Sched.
Local Open Scope kernel_scope.

Record ust : Type := Ust { us_km : kmst; us_ptab : ptab }.

Definition us_kmL : lens ust kmst := Lens us_km (fun k s => Ust k (us_ptab s)).
#[export] Instance ust_cpu : HasCpu ust := lens_comp us_kmL (cpuL (S:=kmst)).
#[export] Instance ust_ptab : HasPtab ust := Lens us_ptab (fun t s => Ust (us_km s) t).
#[export] Instance ust_swtch : HasSwtch ust := swtch_stop.
#[export] Instance us_kmL_ok : LensOk us_kmL.
Proof. solve_lens. Qed.
#[export] Instance ust_cpu_ok : LensOk (cpuL (S:=ust)).
Proof. apply (lens_comp_ok us_kmL (cpuL (S:=kmst))); apply _. Qed.
#[export] Instance ust_ptab_ok : LensOk (ptabL (S:=ust)).
Proof. solve_lens. Qed.
#[export] Instance ust_cpu_ptab : LensDisj (cpuL (S:=ust)) ptabL.
Proof. solve_lens. Qed.

Definition vm {A} (m : M kmst A) : M ust A := zoom us_kmL m.

(** [*myproc()] *)
Definition curproc : M ust proc := p <- myprocp ;; getp p.

(** ** Trapframe registers by offset *)
Definition TF_KERNEL_SATP : Z := 0.
Definition TF_KERNEL_SP : Z := 8.
Definition TF_KERNEL_TRAP : Z := 16.
Definition TF_EPC : Z := 24.
Definition TF_KERNEL_HARTID : Z := 32.
Definition TF_SP : Z := 48.
Definition TF_A0 : Z := 112.
Definition TF_A1 : Z := 120.
Definition TF_A7 : Z := 168.
(** [sizeof(struct trapframe)] *)
Definition TF_SIZE : Z := 288.
Definition tf_get (tf off : Z) : M ust Z := vm (read64 (tf + off)).
Definition tf_set (tf off v : Z) : M ust unit := vm (write64 (tf + off) v).

(** * Copying to and from the caller *)

(** Where [either_copyout] and [either_copyin] copy to and from: a user virtual
    address, a physical page the kernel has mapped at its address, or a variable
    of the kernel, whose bytes are passed by value. *)
Inductive place : Type :=
| UserVA (va : Z)
| Phys (pa : Z)
| Local.

(** The place [m] bytes further on. *)
Definition advance (p : place) (m : Z) : place :=
  match p with
  | UserVA va => UserVA (u64 (va + m))
  | Phys pa => Phys (u64 (pa + m))
  | Local => Local
  end.


(** The first [len] bytes of [src]; what a local variable receives is the second
    component. *)
Definition either_copyout (dst : place) (src : list Z) (len : Z) : M ust (Z * list Z) :=
  p <- curproc ;;
  match dst with
  | UserVA va => r <- vm (copyout (p_pagetable p) va src len) ;; ret (r, [])
  | Phys pa => vm (upd_mem (fun m => store_bytes m pa (take (Z.to_nat len) src))) ;; ret (0, [])
  | Local => ret (0, take (Z.to_nat len) src)
  end.

(** [local] is the content of the kernel variable when the source is one. *)
Definition either_copyin (src : place) (local : list Z) (len : Z) : M ust (Z * list Z) :=
  p <- curproc ;;
  match src with
  | UserVA va => vm (copyin (p_pagetable p) va len)
  | Phys pa => d <- vm (gets (fun s => load_bytes (km_mem s) pa (Z.to_nat len))) ;; ret (0, d)
  | Local => ret (0, take (Z.to_nat len) local)
  end.

(** * System call arguments *)

(** The result and [*ip]. *)
Definition fetchaddr (addr : Z) : M ust (Z * Z) :=
  p <- curproc ;;
  if (p_sz p <=? addr) || (p_sz p <? u64 (addr + 8)) then ret (-1, 0) else
  r <- vm (copyin (p_pagetable p) addr 8) ;;
  if nz (fst r) then ret (-1, 0) else
  ret (0, le_val (snd r)).

(** The result and the string, without its null, that [buf] holds. *)
Definition fetchstr (addr max : Z) : M ust (Z * list Z) :=
  p <- curproc ;;
  r <- vm (copyinstr (p_pagetable p) addr max) ;;
  let '(err, s) := r in
  if err <? 0 then ret (err, s) else
  match strlen (S (length s)) (at_list s) with
  | Some n => ret (n, take (Z.to_nat n) s)
  | None => fault "strlen"
  end.

Definition argraw (n : Z) : M ust Z :=
  p <- curproc ;;
  if (0 <=? n) && (n <=? 5) then tf_get (p_trapframe p) (TF_A0 + 8 * n)
  else panic "argraw".

(** [argint], [argaddr]: they always return 0; the value is [*ip]. *)
Definition argint (n : Z) : M ust Z := v <- argraw n ;; ret (s32 v).
Definition argaddr (n : Z) : M ust Z := argraw n.

Definition argstr (n max : Z) : M ust (Z * list Z) :=
  addr <- argaddr n ;;
  fetchstr addr max.
