(* ===== verification/Console.v ===== *)
(** The console: the UART driver of [src/kernel/uart.c], the kernel's
    [printf] and [panic] of [src/kernel/printf.c], and line input and output
    of [src/kernel/console.c].

    The UART is outside of the program. Its model has the input bytes it has
    received, the values of the transmitter-idle bit that successive reads of
    the line status register will give, and the list of all register writes it
    has seen. Code that waits for the bit when no further value is true waits
    for ever ([Spin]). *)

From S2P Require Import Prelude Params Spinlock Kalloc Sched Sleeplock Umem.
Local Open Scope kernel_scope.

(** * Data *)

(** Registers of the 16550 *)
Definition RHR : Z := 0.
Definition THR : Z := 0.
Definition IER : Z := 1.
Definition IER_RX_ENABLE : Z := 1.
Definition IER_TX_ENABLE : Z := 2.
Definition FCR : Z := 2.
Definition FCR_FIFO_ENABLE : Z := 1.
Definition FCR_FIFO_CLEAR : Z := 6.
Definition LCR : Z := 3.
Definition LCR_EIGHT_BITS : Z := 3.
Definition LCR_BAUD_LATCH : Z := 128.
Definition LSR : Z := 5.
Definition LSR_RX_READY : Z := 1.
Definition LSR_TX_IDLE : Z := 32.
Definition UART_TX_BUF_SIZE : Z := 32.
Definition INPUT_BUF : Z := 128.
Definition BACKSPACE : Z := 256.

(** The driver's variables and the device. *)
Record uart : Type := Uart {
  u_lock : spinlock;
  u_buf : list Z;
  u_w : Z;
  u_r : Z;
  ud_rx : list Z;
  ud_idle : list bool;
  ud_out : list (Z * Z);
}.
Definition set_ulock (x : spinlock) (u : uart) : uart := Uart x (u_buf u) (u_w u) (u_r u) (ud_rx u) (ud_idle u) (ud_out u).
Definition set_ubuf (x : list Z) (u : uart) : uart := Uart (u_lock u) x (u_w u) (u_r u) (ud_rx u) (ud_idle u) (ud_out u).
Definition set_uw (x : Z) (u : uart) : uart := Uart (u_lock u) (u_buf u) x (u_r u) (ud_rx u) (ud_idle u) (ud_out u).
Definition set_ur (x : Z) (u : uart) : uart := Uart (u_lock u) (u_buf u) (u_w u) x (ud_rx u) (ud_idle u) (ud_out u).
Definition set_rx (x : list Z) (u : uart) : uart := Uart (u_lock u) (u_buf u) (u_w u) (u_r u) x (ud_idle u) (ud_out u).
Definition set_idle (x : list bool) (u : uart) : uart := Uart (u_lock u) (u_buf u) (u_w u) (u_r u) (ud_rx u) x (ud_out u).
Definition set_out (x : list (Z * Z)) (u : uart) : uart := Uart (u_lock u) (u_buf u) (u_w u) (u_r u) (ud_rx u) (ud_idle u) x.

(** [struct cons] *)
Record cons : Type := Cons {
  cn_lock : spinlock;
  cn_buf : list Z;
  cn_r : Z;
  cn_w : Z;
  cn_e : Z;
}.
Definition set_cnlock (x : spinlock) (c : cons) : cons := Cons x (cn_buf c) (cn_r c) (cn_w c) (cn_e c).
Definition set_cnbuf (x : list Z) (c : cons) : cons := Cons (cn_lock c) x (cn_r c) (cn_w c) (cn_e c).
Definition set_cnr (x : Z) (c : cons) : cons := Cons (cn_lock c) (cn_buf c) x (cn_w c) (cn_e c).
Definition set_cnw (x : Z) (c : cons) : cons := Cons (cn_lock c) (cn_buf c) (cn_r c) x (cn_e c).
Definition set_cne (x : Z) (c : cons) : cons := Cons (cn_lock c) (cn_buf c) (cn_r c) (cn_w c) x.

Record tst : Type := Tst {
  ts_u : ust;
  ts_uart : uart;
  ts_cons : cons;
  ts_prlock : spinlock;
  ts_prlocking : Z;
  ts_panicked : Z;
}.

Definition ts_uL : lens tst ust :=
  Lens ts_u (fun x s => Tst x (ts_uart s) (ts_cons s) (ts_prlock s) (ts_prlocking s) (ts_panicked s)).
Definition uartL : lens tst uart :=
  Lens ts_uart (fun x s => Tst (ts_u s) x (ts_cons s) (ts_prlock s) (ts_prlocking s) (ts_panicked s)).
Definition consL : lens tst cons :=
  Lens ts_cons (fun x s => Tst (ts_u s) (ts_uart s) x (ts_prlock s) (ts_prlocking s) (ts_panicked s)).
Definition pr_lock : lens tst spinlock :=
  Lens ts_prlock (fun x s => Tst (ts_u s) (ts_uart s) (ts_cons s) x (ts_prlocking s) (ts_panicked s)).
Definition set_prlocking (x : Z) (s : tst) : tst :=
  Tst (ts_u s) (ts_uart s) (ts_cons s) (ts_prlock s) x (ts_panicked s).
Definition set_panicked (x : Z) (s : tst) : tst :=
  Tst (ts_u s) (ts_uart s) (ts_cons s) (ts_prlock s) (ts_prlocking s) x.
Definition u_lockL : lens uart spinlock := Lens u_lock set_ulock.
Definition cn_lockL : lens cons spinlock := Lens cn_lock set_cnlock.
Definition uart_tx_lock : lens tst spinlock := lens_comp uartL u_lockL.
Definition cons_lock : lens tst spinlock := lens_comp consL cn_lockL.
#[export] Instance tst_cpu : HasCpu tst := lens_comp ts_uL (cpuL (S:=ust)).
#[export] Instance tst_ptab : HasPtab tst := lens_comp ts_uL (ptabL (S:=ust)).
#[export] Instance tst_swtch : HasSwtch tst := swtch_stop.
#[export] Instance ts_uL_ok : LensOk ts_uL.
Proof. solve_lens. Qed.
#[export] Instance uartL_ok : LensOk uartL.
Proof. solve_lens. Qed.
#[export] Instance consL_ok : LensOk consL.
Proof. solve_lens. Qed.
#[export] Instance pr_lock_ok : LensOk pr_lock.
Proof. solve_lens. Qed.
#[export] Instance u_lockL_ok : LensOk u_lockL.
Proof. solve_lens. Qed.
#[export] Instance cn_lockL_ok : LensOk cn_lockL.
Proof. solve_lens. Qed.
#[export] Instance uart_tx_lock_ok : LensOk uart_tx_lock.
Proof. unfold uart_tx_lock. apply _. Qed.
#[export] Instance cons_lock_ok : LensOk cons_lock.
Proof. unfold cons_lock. apply _. Qed.
#[export] Instance tst_cpu_ok : LensOk (cpuL (S:=tst)).
Proof. apply (lens_comp_ok ts_uL (cpuL (S:=ust))); apply _. Qed.
#[export] Instance tst_ptab_ok : LensOk (ptabL (S:=tst)).
Proof. apply (lens_comp_ok ts_uL (ptabL (S:=ust))); apply _. Qed.
#[export] Instance tst_cpu_ptab : LensDisj (cpuL (S:=tst)) ptabL.
Proof. solve_lens. Qed.
#[export] Instance tst_cpu_uart : LensDisj (cpuL (S:=tst)) uart_tx_lock.
Proof. solve_lens. Qed.
#[export] Instance tst_cpu_cons : LensDisj (cpuL (S:=tst)) cons_lock.
Proof. solve_lens. Qed.
#[export] Instance tst_cpu_pr : LensDisj (cpuL (S:=tst)) pr_lock.
Proof. solve_lens. Qed.

Definition getu : M tst uart := gets ts_uart.
Definition updu (f : uart -> uart) : M tst unit := upd uartL f.
Definition getc : M tst cons := gets ts_cons.
Definition updc (f : cons -> cons) : M tst unit := upd consL f.

(** * The UART *)

Definition WriteReg (reg v : Z) : M tst unit := updu (fun u => set_out (ud_out u ++ [(reg, u8 v)]) u).

(** [ReadReg(LSR)]: a byte to receive sets bit 0, the idle transmitter bit 5. *)
Definition ReadReg_LSR : M tst Z :=
  u <- getu ;;
  updu (fun u => set_idle (tail (ud_idle u)) u) ;;
  ret (Z.lor (if bool_decide (ud_rx u = []) then 0 else LSR_RX_READY)
             (if default false (head (ud_idle u)) then LSR_TX_IDLE else 0)).
(** [ReadReg(RHR)] takes the byte out of the device. *)
Definition ReadReg_RHR : M tst Z :=
  u <- getu ;;
  updu (fun u => set_rx (tail (ud_rx u)) u) ;;
  ret (default 0 (head (ud_rx u))).

Definition uartinit : M tst unit :=
  WriteReg IER 0 ;;
  WriteReg LCR LCR_BAUD_LATCH ;;
  WriteReg 0 3 ;;
  WriteReg 1 0 ;;
  WriteReg LCR LCR_EIGHT_BITS ;;
  WriteReg FCR (Z.lor FCR_FIFO_ENABLE FCR_FIFO_CLEAR) ;;
  WriteReg IER (Z.lor IER_TX_ENABLE IER_RX_ENABLE) ;;
  initlock uart_tx_lock "uart".

(** One round of [uartstart]. *)
Definition uartstart_step (_ : unit) : M tst (unit + unit) :=
  u <- getu ;;
  if u_w u =? u_r u then ret (inr tt) else
  lsr <- ReadReg_LSR ;;
  if Z.land lsr LSR_TX_IDLE =? 0 then ret (inr tt) else
  let c := u_buf u !!! Z.to_nat (u_r u mod UART_TX_BUF_SIZE) in
  updu (fun u => set_ur (u64 (u_r u + 1)) u) ;;
  wakeup KUartTx ;;
  WriteReg THR c ;;
  ret (inl tt).
Definition uartstart : M tst unit := loop uartstart_step tt.

Definition uartputc_step (c : Z) (_ : unit) : M tst (unit + unit) :=
  u <- getu ;;
  if u_w u =? u64 (u_r u + UART_TX_BUF_SIZE) then
    sleep KUartTx uart_tx_lock ;;
    ret (inl tt)
  else
    updu (fun u => set_ubuf (<[Z.to_nat (u_w u mod UART_TX_BUF_SIZE) := u8 c]> (u_buf u)) u) ;;
    updu (fun u => set_uw (u64 (u_w u + 1)) u) ;;
    uartstart ;;
    release uart_tx_lock ;;
    ret (inr tt).
Definition uartputc (c : Z) : M tst unit :=
  acquire uart_tx_lock ;;
  p <- gets ts_panicked ;;
  if nz p then halt Spin else
  loop (uartputc_step c) tt.

(** The wait of [uartputc_sync] for the transmitter. *)
Definition uart_wait (_ : unit) : M tst (unit + unit) :=
  u <- getu ;;
  match ud_idle u with
  | [] => halt Spin
  | _ =>
      lsr <- ReadReg_LSR ;;
      if Z.land lsr LSR_TX_IDLE =? 0 then ret (inl tt) else ret (inr tt)
  end.
Definition uartputc_sync (c : Z) : M tst unit :=
  push_off ;;
  p <- gets ts_panicked ;;
  if nz p then halt Spin else
  loop uart_wait tt ;;
  WriteReg THR c ;;
  pop_off.

Definition uartgetc : M tst Z :=
  lsr <- ReadReg_LSR ;;
  if nz (Z.land lsr 1) then ReadReg_RHR else ret (-1).

Definition consputc (c : Z) : M tst unit :=
  if c =? BACKSPACE then
    uartputc_sync 8 ;;
    uartputc_sync 32 ;;
    uartputc_sync 8
  else uartputc_sync c.

(** * printf *)

(** [digits[d]] *)
Definition digit (d : Z) : Z := if d <? 10 then 48 + d else 87 + d.

(** The [do] loop of [printint]: the digits of [x], the last one first. *)
Fixpoint int_digits (fuel : nat) (x base : Z) : list Z :=
  match fuel with
  | O => []
  | S fuel' => digit (x mod base) :: (if x / base =? 0 then [] else int_digits fuel' (x / base) base)
  end.

(** What [printint] prints. *)
Definition int_chars (xx base : Z) (sign : bool) : list Z :=
  let neg := sign && (xx <? 0) in
  let x := if neg then u32 (- xx) else u32 xx in
  let buf := int_digits 32 x base in
  rev (if neg then buf ++ [45] else buf).
Definition printint (xx base : Z) (sign : bool) : M tst unit := forM (int_chars xx base sign) consputc.

(** The digits of [printptr]: 16 times the top four bits. *)
Fixpoint ptr_chars (n : nat) (x : Z) : list Z :=
  match n with
  | O => []
  | S n' => digit (Z.shiftr x 60) :: ptr_chars n' (u64 (Z.shiftl x 4))
  end.
Definition printptr (x : Z) : M tst unit :=
  consputc 48 ;;
  consputc 120 ;;
  forM (ptr_chars 16 x) consputc.

(** The arguments of a [printf] call. *)
Inductive arg : Type :=
| AInt (v : Z)
| APtr (v : Z)
| AStr (s : option (list Z)).

(** [s = "(null)"] *)
Definition null_str : list Z := [40; 110; 117; 108; 108; 41].

(** The loop over the format; a call with too few arguments, or of another type,
    has no defined meaning. *)
Fixpoint vprintf (fmt : list Z) (ap : list arg) : M tst unit :=
  match fmt with
  | [] => ret tt
  | c :: fmt' =>
      if negb (c =? 37) then consputc c ;; vprintf fmt' ap else
      match fmt' with
      | [] => ret tt
      | c :: fmt' =>
          if c =? 100 then
            match ap with AInt v :: ap' => printint v 10 true ;; vprintf fmt' ap' | _ => fault "va_arg" end
          else if c =? 120 then
            match ap with AInt v :: ap' => printint v 16 true ;; vprintf fmt' ap' | _ => fault "va_arg" end
          else if c =? 112 then
            match ap with APtr v :: ap' => printptr v ;; vprintf fmt' ap' | _ => fault "va_arg" end
          else if c =? 115 then
            match ap with
            | AStr s :: ap' => forM (default null_str s) consputc ;; vprintf fmt' ap'
            | _ => fault "va_arg"
            end
          else if c =? 37 then consputc 37 ;; vprintf fmt' ap
          else consputc 37 ;; consputc c ;; vprintf fmt' ap
      end
  end.

Definition printf (fmt : list Z) (ap : list arg) : M tst unit :=
  locking <- gets ts_prlocking ;;
  when (nz locking) (acquire pr_lock) ;;
  vprintf fmt ap ;;
  when (nz locking) (release pr_lock).

Definition printfinit : M tst unit :=
  initlock pr_lock "pr" ;;
  modify (set_prlocking 1).

(** The characters of a string constant. *)
Definition chars (s : string) : list Z := (fun c => Z.of_nat (Ascii.nat_of_ascii c)) <$> String.list_ascii_of_string s.

(** [panic] itself; elsewhere in the development a panic ends the run. *)
Definition panic_print (s : list Z) : M tst unit :=
  modify (set_prlocking 0) ;;
  printf (chars "panic: ") [] ;;
  printf s [] ;;
  printf [10] [] ;;
  modify (set_panicked 1) ;;
  halt Spin.

(** ** [procdump] *)

Definition state_name (s : procstate) : list Z :=
  match s with
  | UNUSED => chars "unused"
  | SLEEPING => chars "sleep "
  | RUNNABLE => chars "runble"
  | RUNNING => chars "run   "
  | ZOMBIE => chars "zombie"
  | USED => chars "???"
  end.

Definition procdump_one (i : fin NPROC) : M tst unit :=
  p <- getp i ;;
  if bool_decide (p_state p = UNUSED) then ret tt else
  printf (chars "%d %s %s") [AInt (p_pid p); AStr (Some (state_name (p_state p))); AStr (Some (p_name p))] ;;
  printf [10] [].
Definition procdump : M tst unit :=
  printf [10] [] ;;
  forM (indices NPROC) procdump_one.

(** * Reading and writing the console *)

Definition consolewrite_step (src : place) (n i : Z) : M tst (Z + Z) :=
  if negb (i <? n) then ret (inr i) else
  r <- zoom ts_uL (either_copyin (advance src i) [] 1) ;;
  let '(e, c) := r in
  if e =? -1 then ret (inr i) else
  uartputc (c !!! 0%nat) ;;
  ret (inl (i + 1)).
Definition consolewrite (src : place) (n : Z) : M tst Z := loop (consolewrite_step src n) 0.

(** The wait of [consoleread] for input: whether there is some, or the process
    has been killed. *)
Definition cons_wait (_ : unit) : M tst (unit + bool) :=
  c <- getc ;;
  if negb (cn_r c =? cn_w c) then ret (inr true) else
  p <- zoom ts_uL curproc ;;
  if nz (p_killed p) then ret (inr false) else
  sleep KConsR cons_lock ;;
  ret (inl tt).

(** One byte of [consoleread]; the result [None] stands for [return -1] inside of
    the loop, after the release of the lock. *)
Definition consoleread_step (target : Z) (v : place * Z) : M tst (place * Z + option Z) :=
  let '(dst, n) := v in
  if negb (0 <? n) then ret (inr (Some n)) else
  ok <- loop cons_wait tt ;;
  if negb ok then release cons_lock ;; ret (inr None) else
  k <- getc ;;
  let c := cn_buf k !!! Z.to_nat (cn_r k mod INPUT_BUF) in
  updc (fun k => set_cnr (u32 (cn_r k + 1)) k) ;;
  if c =? 4 then
    when (n <? target) (updc (fun k => set_cnr (u32 (cn_r k - 1)) k)) ;;
    ret (inr (Some n))
  else
  r <- zoom ts_uL (either_copyout dst [c] 1) ;;
  if fst r =? -1 then ret (inr (Some n)) else
  if c =? 10 then ret (inr (Some (n - 1))) else
  ret (inl (advance dst 1, n - 1)).
Definition consoleread (dst : place) (n : Z) : M tst Z :=
  acquire cons_lock ;;
  r <- loop (consoleread_step (u32 n)) (dst, n) ;;
  match r with
  | None => ret (-1)
  | Some n' => release cons_lock ;; ret (s32 (u32 n - n'))
  end.

(** Control-U: back to the start of the line. *)
Definition kill_line (_ : unit) : M tst (unit + unit) :=
  k <- getc ;;
  if negb (cn_e k =? cn_w k) && negb (cn_buf k !!! Z.to_nat (u32 (cn_e k - 1) mod INPUT_BUF) =? 10) then
    updc (fun k => set_cne (u32 (cn_e k - 1)) k) ;;
    consputc BACKSPACE ;;
    ret (inl tt)
  else ret (inr tt).

Definition consoleintr_char (c : Z) : M tst unit :=
  k <- getc ;;
  when (nz c && (u32 (cn_e k - cn_r k) <? INPUT_BUF))
    (let c := if c =? 13 then 10 else c in
     consputc c ;;
     updc (fun k => set_cnbuf (<[Z.to_nat (cn_e k mod INPUT_BUF) := u8 c]> (cn_buf k)) k) ;;
     updc (fun k => set_cne (u32 (cn_e k + 1)) k) ;;
     k <- getc ;;
     when ((c =? 10) || (c =? 4) || (cn_e k =? u32 (cn_r k + INPUT_BUF)))
       (updc (fun k => set_cnw (cn_e k) k) ;;
        wakeup KConsR)).

Definition consoleintr (c : Z) : M tst unit :=
  acquire cons_lock ;;
  (if c =? 16 then procdump
   else if c =? 21 then loop kill_line tt
   else if (c =? 8) || (c =? 127) then
     k <- getc ;;
     when (negb (cn_e k =? cn_w k))
       (updc (fun k => set_cne (u32 (cn_e k - 1)) k) ;;
        consputc BACKSPACE)
   else consoleintr_char c) ;;
  release cons_lock.

(** [devsw[CONSOLE]] is set to the two functions above once and for all. *)
Definition consoleinit : M tst unit :=
  initlock cons_lock "cons" ;;
  uartinit.

Definition uartintr_step (_ : unit) : M tst (unit + unit) :=
  c <- uartgetc ;;
  if c =? -1 then ret (inr tt) else
  consoleintr c ;;
  ret (inl tt).
Definition uartintr : M tst unit :=
  loop uartintr_step tt ;;
  acquire uart_tx_lock ;;
  uartstart ;;
  release uart_tx_lock.
