(* ===== verification/Term.v ===== *)
(** The terminal as its users see it: what [printf] sends, and the line that
    [consoleintr] edits.

    A state is taken apart into the CPU, the process table, the UART, the
    console buffer and the rest [s]. *)

From S2P Require Import Prelude Params Spinlock Kalloc Sched Ring Sleeplock Umem Console.
Local Open Scope kernel_scope.

Definition at4 (c : cpu) (v : vec proc NPROC) (a : uart) (k : cons) (s : tst) : tst :=
  Tst (put procsL v (put cpuL c (ts_u s))) a k (ts_prlock s) (ts_prlocking s) (ts_panicked s).

Lemma at4_self s : at4 (view cpuL s) (view procsL s) (ts_uart s) (ts_cons s) s = s.
Proof. by destruct s as [[[] []] ? ? ? ? ?]. Qed.

(** * The transmitter *)

(** What is left of the answers of the line status register when the transmitter
    has become idle once, and [n] times. *)
Fixpoint wait1 (l : list bool) : option (list bool) :=
  match l with
  | [] => None
  | true :: r => Some r
  | false :: r => wait1 r
  end.
Fixpoint waits (n : nat) (l : list bool) : option (list bool) :=
  match n with
  | O => Some l
  | S n' => wait1 l ≫= waits n'
  end.

(** The transmitter takes [n] more bytes, and the answers [r] are left. *)
Definition tx_ready (n : nat) (a : uart) (r : list bool) : Prop :=
  waits n (ud_idle a) = Some r /\ Z.of_nat (length (ud_idle a)) < 2 ^ 64.

(** The UART after the bytes [l]. *)
Definition sent (l : list Z) (r : list bool) (a : uart) : uart :=
  set_idle r (set_out (ud_out a ++ ((fun x => (THR, u8 x)) <$> l)) a).

Lemma waits_add n k l : waits (n + k) l = waits n l ≫= waits k.
Proof.
  revert l. induction n as [|n IH]; intros l; [done|]. cbn. destruct (wait1 l); cbn; [apply IH|done].
Qed.
Lemma wait1_length l r : wait1 l = Some r -> (length r < length l)%nat.
Proof. induction l as [|[] l IH]; cbn; [done|intros [= ->]; lia|]. intros H. specialize (IH H). lia. Qed.
Lemma waits_length n : forall l r, waits n l = Some r -> (length r <= length l)%nat.
Proof.
  induction n as [|n IH]; intros l r; cbn; [by intros [= ->]|]. destruct (wait1 l) as [l'|] eqn:E; cbn; [|done].
  intros H%IH. apply wait1_length in E. lia.
Qed.

Lemma tx_ready_app n k a r :
  tx_ready (n + k) a r -> exists r1, tx_ready n a r1 /\ forall l, tx_ready k (sent l r1 a) r.
Proof.
  intros [H Hl]. rewrite waits_add in H. destruct (waits n (ud_idle a)) as [r1|] eqn:E; [|done].
  exists r1. split; [done|]. intros l. split; [done|]. cbn. apply waits_length in E. lia.
Qed.
Lemma sent_sent l1 l2 r1 r2 a : sent l2 r2 (sent l1 r1 a) = sent (l1 ++ l2) r2 a.
Proof. unfold sent, set_idle, set_out. cbn. by rewrite fmap_app, <- app_assoc. Qed.
Lemma tx_ready_0 a r : tx_ready 0 a r -> sent [] r a = a.
Proof. intros [[= <-] _]. unfold sent, set_idle, set_out. cbn. rewrite app_nil_r. by destruct a. Qed.

Section Out.
Implicit Types (c : cpu) (v : vec proc NPROC) (a : uart) (k : cons) (s : tst).

Lemma uart_wait_run c v a k s r :
  wait1 (ud_idle a) = Some r -> Z.of_nat (length (ud_idle a)) < 2 ^ 64 ->
  loop uart_wait tt (at4 c v a k s) = Ok tt (at4 c v (set_idle r a) k s).
Proof.
  intros Hw Hl.
  apply (loop_rule uart_wait (fun n _ s' => exists l, s' = at4 c v (set_idle l a) k s /\ wait1 l = Some r /\ n = length l)
    (fun o => o = Ok tt (at4 c v (set_idle r a) k s))) with (n := length (ud_idle a)); [|by exists (ud_idle a); destruct a|done].
  intros n [] s' (l & -> & Hr & ->). unfold uart_wait. erewrite bind_ok by done.
  cbn [ts_uart at4 set_idle ud_idle]. destruct l as [|[] l]; [done|..].
  - injection Hr as ->. erewrite bind_ok by done. cbn [head ud_idle ts_uart at4 set_idle ud_rx default].
    by destruct (bool_decide _).
  - erewrite bind_ok by done. cbn [head ud_idle ts_uart at4 set_idle ud_rx default].
    assert (exists n', (n' < length (false :: l))%nat /\ exists l0,
      at4 c v (set_idle l a) k s = at4 c v (set_idle l0 a) k s /\ wait1 l0 = Some r /\ n' = length l0) as Hnext.
    { exists (length l). split; [cbn; lia|]. by exists l. }
    by destruct (bool_decide _).
Qed.

Lemma uartputc_sync_run {j} c v a k s x r :
  cpu_room j c -> ts_panicked s = 0 -> tx_ready 1 a r ->
  uartputc_sync x (at4 c v a k s) = Ok tt (at4 (settle c) v (sent [x] r a) k s).
Proof.
  intros Hc Hp [Hw Hl]. unfold uartputc_sync. erewrite bind_ok by apply push_off_run.
  change (put cpuL _ _) with (at4 (push c) v a k s). erewrite bind_ok by done.
  change (ts_panicked (at4 _ _ _ _ s)) with (ts_panicked s). rewrite Hp. cbn [nz negb Z.eqb].
  cbn in Hw. destruct (wait1 (ud_idle a)) as [r'|] eqn:E; [|done]. injection Hw as ->.
  erewrite bind_ok by (by apply uart_wait_run). erewrite bind_ok by done.
  pose proof (push_noff c Hc). rewrite pop_off_run by done.
  change (pop _) with (pop (push c)). rewrite pop_push by done. done.
Qed.

(** What [consputc] sends. *)
Definition echo (x : Z) : list Z := if x =? BACKSPACE then [8; 32; 8] else [x].

Lemma consputc_run {j} c v a k s x r :
  cpu_room j c -> ts_panicked s = 0 -> tx_ready (length (echo x)) a r ->
  consputc x (at4 c v a k s) = Ok tt (at4 (settle c) v (sent (echo x) r a) k s).
Proof.
  intros Hc Hp Hr. unfold consputc, echo in *. destruct (x =? BACKSPACE); [|by eapply uartputc_sync_run].
  apply (tx_ready_app 1 2) in Hr as (r1 & H1 & H2). specialize (H2 [8]). apply (tx_ready_app 1 1) in H2 as (r2 & H2 & H3).
  specialize (H3 [32]).
  erewrite bind_ok by (by eapply uartputc_sync_run). erewrite bind_ok by (eapply uartputc_sync_run; [eauto with kernel|done|exact H2]).
  rewrite (uartputc_sync_run (j:=j) _ _ _ _ _ _ r); [|auto with kernel|done|exact H3]. by rewrite !sent_sent, !settle_idem.
Qed.

(** The CPU after printing [l]. *)
Definition ran (l : list Z) (c : cpu) : cpu := match l with [] => c | _ => settle c end.
Lemma ran_ok {j} l c : cpu_room j c -> cpu_room j (ran l c).
Proof. destruct l; [done|]. apply settle_ok. Qed.
Lemma ran_app l1 l2 c : ran l2 (ran l1 c) = ran (l1 ++ l2) c.
Proof. destruct l1; [done|]. destruct l2; [done|]. apply settle_idem. Qed.
Lemma settle_ran l c : settle (ran l c) = settle c.
Proof. destruct l; [done|]. apply settle_idem. Qed.

(** A computation that prints [l] and does nothing else. *)
Definition prints {A} (m : M tst A) (l : list Z) (b : A) : Prop :=
  forall j c v a k s r, cpu_room j c -> ts_panicked s = 0 -> tx_ready (length l) a r ->
    m (at4 c v a k s) = Ok b (at4 (ran l c) v (sent l r a) k s).

Lemma prints_bind {A B} (m : M tst A) (f : A -> M tst B) l1 l2 x b :
  prints m l1 x -> prints (f x) l2 b -> prints (bind m f) (l1 ++ l2) b.
Proof.
  intros H1 H2 j c v u k s r Hc Hp Hr. rewrite length_app in Hr. apply tx_ready_app in Hr as (r1 & Hr1 & Hr2).
  erewrite bind_ok by (by eapply H1). erewrite (H2 j); [|by apply ran_ok|done|apply Hr2]. by rewrite sent_sent, ran_app.
Qed.
Lemma prints_ret {A} (b : A) : prints (ret b) [] b.
Proof. intros j c v u k s r Hc Hp Hr. by rewrite (tx_ready_0 u r Hr). Qed.
Lemma prints_consputc x : prints (consputc x) (echo x) tt.
Proof.
  intros j c v u k s r Hc Hp Hr. rewrite (consputc_run (j:=j) c v u k s x r) by done. unfold echo. by destruct (_ =? _).
Qed.
Lemma prints_byte x : is_byte x -> prints (consputc x) [x] tt.
Proof.
  intros Hx. replace [x] with (echo x); [apply prints_consputc|]. unfold echo, BACKSPACE.
  destruct (Z.eqb_spec x 256); [unfold is_byte in Hx; lia|done].
Qed.
Lemma prints_list l : Forall is_byte l -> prints (forM l consputc) l tt.
Proof.
  induction l as [|x l IH]; intros Hl; [apply prints_ret|]. apply Forall_cons in Hl as [Hx Hl].
  change (x :: l) with ([x] ++ l). apply (prints_bind _ _ [x] l tt tt); [by apply prints_byte|]. by apply IH.
Qed.
End Out.

(** * Numbers *)

(** The value of a digit, and of digits with the most significant first. *)
Definition undigit (x : Z) : Z := if x <? 58 then x - 48 else x - 87.
Definition parse (base : Z) (l : list Z) : Z := foldl (fun n x => n * base + undigit x) 0 l.
Definition parse_int (base : Z) (l : list Z) : Z :=
  match l with
  | [] => 0
  | x :: l' => if x =? 45 then - parse base l' else parse base l
  end.

Lemma undigit_digit d : 0 <= d < 16 -> undigit (digit d) = d.
Proof. intros Hd. unfold undigit, digit. destruct (Z.ltb_spec d 10); [destruct (Z.ltb_spec (48 + d) 58)|destruct (Z.ltb_spec (87 + d) 58)]; lia. Qed.
Lemma digit_range d : 0 <= d < 16 -> 48 <= digit d < 103.
Proof. intros Hd. unfold digit. destruct (Z.ltb_spec d 10); lia. Qed.

Lemma parse_snoc base l x : parse base (l ++ [x]) = parse base l * base + undigit x.
Proof. unfold parse. by rewrite foldl_snoc. Qed.

Lemma int_digits_S n x base :
  int_digits (S n) x base = digit (x mod base) :: (if x / base =? 0 then [] else int_digits n (x / base) base).
Proof. done. Qed.

(** The digits of [x < base ^ n]: there are at most [n], they read back, and the
    last of them, printed first, is not zero unless [x] is. *)
Lemma int_digits_spec base n : forall x,
  2 <= base <= 16 -> 0 <= x < base ^ Z.of_nat (S n) ->
  parse base (rev (int_digits (S n) x base)) = x /\
  (1 <= length (int_digits (S n) x base) <= S n)%nat /\
  Forall (fun y => 48 <= y < 103) (int_digits (S n) x base).
Proof.
  induction n as [|n IH]; intros x Hb Hx; pose proof (Z.mod_pos_bound x base ltac:(lia)) as Hm;
    pose proof (Z.div_mod x base ltac:(lia)) as Hd; pose proof (Z.div_pos x base ltac:(lia) ltac:(lia)) as Hp;
    rewrite int_digits_S; cbn [rev]; rewrite parse_snoc, undigit_digit by lia.
  - change (Z.of_nat 1) with 1 in Hx. rewrite Z.pow_1_r in Hx. rewrite Z.div_small by lia. cbn.
    split_and!; [rewrite Z.mod_small; lia|lia|lia|]. repeat constructor; apply digit_range; lia.
  - assert (x / base < base ^ Z.of_nat (S n)).
    { apply Z.div_lt_upper_bound; [lia|]. rewrite <- Z.pow_succ_r by lia. rewrite <- Nat2Z.inj_succ. lia. }
    destruct (Z.eqb_spec (x / base) 0) as [E|E].
    + cbn. split_and!; [lia|lia|lia|]. repeat constructor; apply digit_range; lia.
    + destruct (IH (x / base)) as (H1 & H2 & H3); [done|lia|]. split_and!.
      * rewrite H1. lia.
      * cbn. lia.
      * cbn [length]. lia.
      * constructor; [apply digit_range; lia|done].
Qed.

Lemma ptr_chars_spec n : forall x acc,
  0 <= x < 2 ^ 64 -> (n <= 16)%nat ->
  foldl (fun m y => m * 16 + undigit y) acc (ptr_chars n x) = acc * 16 ^ Z.of_nat n + x / 2 ^ (64 - 4 * Z.of_nat n) /\
  length (ptr_chars n x) = n /\ Forall (fun y => 48 <= y < 103) (ptr_chars n x).
Proof.
  induction n as [|n IH]; intros x acc Hx Hn.
  - cbn. change (64 - 4 * Z.of_nat 0) with 64. rewrite Z.div_small by lia. split_and!; [lia|done|done].
  - cbn [ptr_chars foldl]. rewrite Z.shiftr_div_pow2, Z.shiftl_mul_pow2 by lia.
    assert (0 <= x / 2 ^ 60 < 16).
    { split; [apply Z.div_pos; lia|]. apply Z.div_lt_upper_bound; lia. }
    rewrite undigit_digit by done. destruct (IH (u64 (x * 2 ^ 4)) (acc * 16 + x / 2 ^ 60)) as (H1 & H2 & H3);
      [apply u64_range|lia|].
    split_and!; [|cbn; lia|constructor; [by apply digit_range|done]].
    rewrite H1. unfold u64. replace (2 ^ 64) with (2 ^ 60 * 2 ^ 4) by done.
    rewrite Z.mul_mod_distr_r by lia.
    replace (64 - 4 * Z.of_nat n) with (4 + (60 - 4 * Z.of_nat n)) by lia.
    rewrite (Z.pow_add_r 2 4) by lia. rewrite (Z.mul_comm (x mod _)), Z.div_mul_cancel_l by lia.
    replace (64 - 4 * Z.of_nat (S n)) with (60 - 4 * Z.of_nat n) by lia.
    set (e := 60 - 4 * Z.of_nat n). pose proof (Z.pow_pos_nonneg 2 e ltac:(lia) ltac:(lia)).
    assert (x / 2 ^ e = x / 2 ^ 60 * 16 ^ Z.of_nat n + x mod 2 ^ 60 / 2 ^ e) as ->.
    { rewrite (Z.div_mod x (2 ^ 60)) at 1 by lia.
      replace (2 ^ 60) with (16 ^ Z.of_nat n * 2 ^ e) at 1.
      2:{ replace 16 with (2 ^ 4) by done. rewrite <- Z.pow_mul_r, <- Z.pow_add_r by lia. f_equal. unfold e. lia. }
      replace (16 ^ Z.of_nat n * 2 ^ e * (x / 2 ^ 60)) with (16 ^ Z.of_nat n * (x / 2 ^ 60) * 2 ^ e) by lia.
      rewrite Z.div_add_l by lia. lia. }
    rewrite Nat2Z.inj_succ, Z.pow_succ_r by lia. lia.
Qed.

Lemma int_digits_more base n : forall m y,
  2 <= base -> 0 <= y < base ^ Z.of_nat n -> (0 < n <= m)%nat -> int_digits m y base = int_digits n y base.
Proof.
  induction n as [|n IH]; intros m y Hb Hy Hm; [lia|]. destruct m as [|m]; [lia|]. rewrite !int_digits_S. f_equal.
  destruct (Z.eqb_spec (y / base) 0) as [|E]; [done|].
  pose proof (Z.div_pos y base ltac:(lia) ltac:(lia)) as Hp.
  assert (y / base < base ^ Z.of_nat n).
  { apply Z.div_lt_upper_bound; [lia|]. rewrite <- Z.pow_succ_r by lia. rewrite <- Nat2Z.inj_succ. lia. }
  apply IH; [lia|lia|]. destruct n; [cbn in *; lia|lia].
Qed.

Lemma int_chars_body x base :
  0 <= x < 2 ^ 32 -> base = 10 \/ base = 16 ->
  parse base (rev (int_digits 32 x base)) = x /\ (1 <= length (int_digits 32 x base) <= 10)%nat /\
  Forall (fun y => 48 <= y < 103) (int_digits 32 x base).
Proof.
  intros Hx Hb. assert (x < base ^ Z.of_nat 10) by (destruct Hb as [-> | ->]; cbn; lia).
  rewrite (int_digits_more base 10) by lia. apply (int_digits_spec base 9); lia.
Qed.

(** The numbers [printf] prints can be read back. [%d] and [%x] print every
    [int] so that reading the digits in the base, after a minus sign for a
    negative one, gives it; an unsigned print gives the number modulo 2^32;
    [printint]'s 16-byte buffer is never overrun. [%p] prints 64-bit pointers as
    16 hexadecimal digits that read back. *)
Theorem printint_roundtrip (xx base ptr : Z) :
  - 2 ^ 31 <= xx < 2 ^ 31 -> base = 10 \/ base = 16 -> 0 <= ptr < 2 ^ 64 ->
  parse_int base (int_chars xx base true) = xx /\
  parse_int base (int_chars xx base false) = u32 xx /\
  (length (int_chars xx base true) <= 16)%nat /\ (length (int_chars xx base false) <= 16)%nat /\
  parse 16 (ptr_chars 16 ptr) = ptr /\ length (ptr_chars 16 ptr) = 16%nat.
Proof.
  intros Hx Hb Hp.
  assert (forall x, 0 <= x < 2 ^ 32 -> parse_int base (rev (int_digits 32 x base)) = x /\
    (length (rev (int_digits 32 x base)) <= 10)%nat) as Hpos.
  { intros x Hx'. destruct (int_chars_body x base Hx' Hb) as (H1 & H2 & H3). rewrite length_rev. split; [|lia].
    apply Forall_rev in H3.
    destruct (rev (int_digits 32 x base)) as [|y l] eqn:E; [by rewrite <- H1|]. cbn.
    apply Forall_cons in H3 as [H3 _]. by destruct (Z.eqb_spec y 45); [lia|]. }
  unfold int_chars. cbn [andb]. destruct (Hpos (u32 xx) (u32_range xx)) as [Hu Hul].
  destruct (ptr_chars_spec 16 ptr 0 Hp) as (Hq & Hql & _); [lia|].
  split_and!; [| done| |lia|rewrite <- Z.div_1_r; exact Hq|done].
  - destruct (Z.ltb_spec xx 0).
    + rewrite u32_small by lia. destruct (int_chars_body (- xx) base ltac:(lia) Hb) as (H1 & _).
      rewrite rev_app_distr. change (- parse base (rev (int_digits 32 (- xx) base)) = xx). rewrite H1. lia.
    + by rewrite u32_small in * by lia.
  - destruct (Z.ltb_spec xx 0); [|lia]. rewrite u32_small by lia.
    destruct (int_chars_body (- xx) base ltac:(lia) Hb) as (_ & H2 & _). rewrite length_rev, length_app. change (length [45]) with 1%nat. lia.
Qed.

Lemma printint_roundtrip_witness : parse_int 10 (int_chars (- 2 ^ 31) 10 true) = - 2 ^ 31.
Proof.
  refine (proj1 (printint_roundtrip (- 2 ^ 31) 10 0 _ _ _)); [lia|by left|lia].
Defined.

(** * [printf] *)

(** The bytes of a number in a base: digits 0-9 and a-f of the base with the most
    significant first, and no leading zero. *)
Definition is_digit (base y : Z) : Prop := (48 <= y < 58 \/ 97 <= y < 103) /\ undigit y < base.
Record numeral (base n : Z) (t : list Z) : Prop := {
  nu_digits : Forall (is_digit base) t;
  nu_value : parse base t = n;
  nu_some : t <> [];
  nu_lead : head t = Some 48 -> t = [48];
}.
(** A number with its sign. *)
Definition signed (base n : Z) (t : list Z) : Prop :=
  if n <? 0 then exists t', t = 45 :: t' /\ numeral base (- n) t' else numeral base n t.
(** A pointer: sixteen hexadecimal digits. *)
Definition pointer (n : Z) (t : list Z) : Prop :=
  Forall (is_digit 16) t /\ parse 16 t = n /\ length t = 16%nat.

(** The text of a format with its arguments: a number in decimal ([%d]) or
    hexadecimal ([%x]), a pointer ([%p]), a string or a null pointer ([%s]), a
    percent sign ([%%]), and a conversion [printf] does not know as it stands. A
    percent sign at the end stands for nothing. *)
Inductive expands : list Z -> list arg -> list Z -> Prop :=
| ex_end ap : expands [] ap []
| ex_lone ap : expands [37] ap []
| ex_char x fmt ap t : x <> 37 -> expands fmt ap t -> expands (x :: fmt) ap (x :: t)
| ex_d n l fmt ap t : signed 10 n l -> expands fmt ap t -> expands (37 :: 100 :: fmt) (AInt n :: ap) (l ++ t)
| ex_x n l fmt ap t : signed 16 n l -> expands fmt ap t -> expands (37 :: 120 :: fmt) (AInt n :: ap) (l ++ t)
| ex_p n l fmt ap t : pointer n l -> expands fmt ap t -> expands (37 :: 112 :: fmt) (APtr n :: ap) (chars "0x" ++ l ++ t)
| ex_s l fmt ap t : expands fmt ap t -> expands (37 :: 115 :: fmt) (AStr (Some l) :: ap) (l ++ t)
| ex_null fmt ap t : expands fmt ap t -> expands (37 :: 115 :: fmt) (AStr None :: ap) (chars "(null)" ++ t)
| ex_percent fmt ap t : expands fmt ap t -> expands (37 :: 37 :: fmt) ap (37 :: t)
| ex_other d fmt ap t : d ∉ chars "dxps%" -> expands fmt ap t -> expands (37 :: d :: fmt) ap (37 :: d :: t).

Definition arg_ok (x : arg) : Prop :=
  match x with
  | AInt v => - 2 ^ 31 <= v < 2 ^ 31
  | APtr v => 0 <= v < 2 ^ 64
  | AStr s => Forall is_byte (default [] s)
  end.

(** ** A number has one text *)

Lemma is_digit_range base y : is_digit base y -> 0 <= undigit y < base.
Proof. intros [Hy Hb]. split; [|done]. unfold undigit. destruct (Z.ltb_spec y 58); lia. Qed.

Lemma is_digit_inj base x y : is_digit base x -> is_digit base y -> undigit x = undigit y -> x = y.
Proof. intros [Hx _] [Hy _]. unfold undigit. destruct (Z.ltb_spec x 58), (Z.ltb_spec y 58); lia. Qed.

Lemma parse_nonneg base l : 2 <= base -> Forall (is_digit base) l -> 0 <= parse base l.
Proof.
  intros Hb. induction l as [|x l IH] using rev_ind; [done|]. rewrite Forall_app, Forall_singleton.
  intros [Hl Hx%is_digit_range]. rewrite parse_snoc. specialize (IH Hl). nia.
Qed.

Lemma parse_pos base l : 2 <= base -> Forall (is_digit base) l -> l <> [] -> head l <> Some 48 -> 0 < parse base l.
Proof.
  intros Hb. induction l as [|x l IH] using rev_ind; [done|]. rewrite Forall_app, Forall_singleton.
  intros [Hl Hx] _ Hh. rewrite parse_snoc. destruct l as [|y l].
  - cbn in *. destruct (is_digit_range _ _ Hx). destruct (decide (undigit x = 0)) as [E|]; [|lia].
    destruct Hh. f_equal. destruct Hx as [Hx _]. unfold undigit in E. destruct (Z.ltb_spec x 58); lia.
  - apply is_digit_range in Hx. specialize (IH Hl ltac:(done) Hh). nia.
Qed.

(** Digits of equal value, both without a leading zero or of equal length. *)
Lemma parse_inj base l : forall l',
  2 <= base -> Forall (is_digit base) l -> Forall (is_digit base) l' -> parse base l = parse base l' ->
  length l = length l' \/ head l <> Some 48 /\ head l' <> Some 48 -> l = l'.
Proof.
  induction l as [|x l IH] using rev_ind; intros l' Hb Hl Hl' E Hh.
  - destruct l' as [|y l']; [done|]. destruct Hh as [|[_ Hh]]; [done|].
    pose proof (parse_pos base (y :: l') Hb Hl' ltac:(done) Hh). rewrite <- E in *. cbn in *. lia.
  - destruct l' as [|y l' _] using rev_ind.
    { destruct Hh as [Hh|[Hh _]]; [rewrite length_app in Hh; cbn in Hh; lia|].
      pose proof (parse_pos base _ Hb Hl ltac:(by destruct l) Hh). rewrite E in *. cbn in *. lia. }
    rewrite Forall_app, Forall_singleton in Hl, Hl'. destruct Hl as [Hl Hx], Hl' as [Hl' Hy].
    rewrite !parse_snoc in E. pose proof (is_digit_range _ _ Hx). pose proof (is_digit_range _ _ Hy).
    assert (parse base l = parse base l') as E1 by nia.
    assert (undigit x = undigit y) as E2 by nia.
    rewrite (is_digit_inj base x y) by done. f_equal. apply IH; [done..|].
    destruct Hh as [Hh|[Hh Hh']]; [left; rewrite !length_app in Hh; cbn in Hh; lia|].
    destruct l as [|z l], l' as [|z' l']; [by left|..|by right].
    + cbn in E1. pose proof (parse_pos base _ Hb Hl' ltac:(done) Hh'). cbn in *. lia.
    + cbn in E1. pose proof (parse_pos base _ Hb Hl ltac:(done) Hh). cbn in *. lia.
Qed.

Lemma numeral_unique base n t t' : 2 <= base -> numeral base n t -> numeral base n t' -> t = t'.
Proof.
  intros Hb [H1 H2 H3 H4] [K1 K2 K3 K4]. apply (parse_inj base); [done..|congruence|].
  destruct (decide (head t = Some 48)) as [E|E], (decide (head t' = Some 48)) as [E'|E']; [left; by rewrite H4, K4|..|by right].
  - rewrite (H4 E) in H2. cbn in H2. pose proof (parse_pos base t' Hb K1 K3 E'). lia.
  - rewrite (K4 E') in K2. cbn in K2. pose proof (parse_pos base t Hb H1 H3 E). lia.
Qed.

(** ** The code computes it *)

Lemma digit_is_digit base d : base <= 16 -> 0 <= d < base -> is_digit base (digit d).
Proof.
  intros Hb Hd. split; [|rewrite undigit_digit; lia]. unfold digit. destruct (Z.ltb_spec d 10); lia.
Qed.

Lemma int_digits_numeral base n : forall x,
  2 <= base <= 16 -> 0 <= x < base ^ Z.of_nat (S n) -> numeral base x (rev (int_digits (S n) x base)).
Proof.
  induction n as [|n IH]; intros x Hb Hx; pose proof (Z.mod_pos_bound x base ltac:(lia)) as Hm;
    pose proof (Z.div_mod x base ltac:(lia)) as Hd; pose proof (Z.div_pos x base ltac:(lia) ltac:(lia)) as Hp;
    rewrite int_digits_S; cbn [rev].
  - change (Z.of_nat 1) with 1 in Hx. rewrite Z.pow_1_r in Hx. rewrite Z.div_small by lia. cbn [Z.eqb rev app].
    split; [apply Forall_singleton, digit_is_digit; lia|cbn; rewrite undigit_digit, Z.mod_small; lia|done|by intros [= ->]].
  - assert (x / base < base ^ Z.of_nat (S n)).
    { apply Z.div_lt_upper_bound; [lia|]. rewrite <- Z.pow_succ_r by lia. rewrite <- Nat2Z.inj_succ. lia. }
    destruct (Z.eqb_spec (x / base) 0) as [E|E].
    + cbn [rev app]. split; [apply Forall_singleton, digit_is_digit; lia|cbn; rewrite undigit_digit; lia|done|by intros [= ->]].
    + destruct (IH (x / base)) as [H1 H2 H3 H4]; [done|lia|]. split.
      * apply Forall_app. split; [done|]. apply Forall_singleton, digit_is_digit; lia.
      * rewrite parse_snoc, H2, undigit_digit by lia. lia.
      * by intros []%app_eq_nil.
      * destruct (rev _) as [|y l]; [done|]. intros [= ->]. specialize (H4 eq_refl). injection H4 as ->. cbn in H2. lia.
Qed.

Lemma int_chars_signed x base : base = 10 \/ base = 16 -> - 2 ^ 31 <= x < 2 ^ 31 -> signed base x (int_chars x base true).
Proof.
  intros Hb Hx.
  assert (forall y, 0 <= y < 2 ^ 32 -> numeral base y (rev (int_digits 32 y base))) as Hn.
  { intros y Hy. assert (y < base ^ Z.of_nat 10) by (destruct Hb as [-> | ->]; cbn; lia).
    rewrite (int_digits_more base 10) by lia. apply int_digits_numeral; lia. }
  unfold signed, int_chars. cbn [andb]. destruct (Z.ltb_spec x 0); rewrite u32_small by lia; [|by apply Hn; lia].
  rewrite rev_app_distr. eexists. split; [done|]. apply Hn. lia.
Qed.

Lemma signed_unique base n t t' : 2 <= base -> signed base n t -> signed base n t' -> t = t'.
Proof.
  intros Hb. unfold signed. destruct (n <? 0); [|by apply numeral_unique].
  intros (u & -> & Hu) (u' & -> & Hu'). f_equal. by eapply numeral_unique.
Qed.

Lemma ptr_chars_pointer x : 0 <= x < 2 ^ 64 -> pointer x (ptr_chars 16 x).
Proof.
  intros Hx. destruct (ptr_chars_spec 16 x 0 Hx) as (H1 & H2 & _); [lia|]. split_and!; [|rewrite <- (Z.div_1_r x) at 2; exact H1|done].
  clear H1 H2. generalize 16%nat as n. intros n. revert x Hx. induction n as [|n IH]; intros x Hx; cbn [ptr_chars]; constructor; [|apply IH, u64_range].
  rewrite Z.shiftr_div_pow2 by lia. apply digit_is_digit; [lia|].
  split; [apply Z.div_pos; lia|]. apply Z.div_lt_upper_bound; lia.
Qed.

Lemma pointer_unique n t t' : pointer n t -> pointer n t' -> t = t'.
Proof. intros (H1 & H2 & H3) (K1 & K2 & K3). apply (parse_inj 16); [lia|done|done|congruence|left; congruence]. Qed.

Lemma is_digit_bytes base t : Forall (is_digit base) t -> Forall is_byte t.
Proof. intros Ht. eapply Forall_impl; [exact Ht|]. intros y [Hy _]. unfold is_byte. lia. Qed.

Lemma signed_bytes base n t : signed base n t -> Forall is_byte t.
Proof.
  unfold signed. destruct (n <? 0); [|by intros []; eapply is_digit_bytes].
  intros (u & -> & []). constructor; [done|]. by eapply is_digit_bytes.
Qed.

(** ** The loop over the format *)

Ltac bytes := by repeat (apply Forall_cons_2; [done|]).

(** A conversion that prints [l]. *)
Lemma prints_then l t (m : M tst unit) : Forall is_byte l -> prints m t tt -> prints (forM l consputc ;; m) (l ++ t) tt.
Proof. intros Hl Hm. by apply (prints_bind _ _ _ _ tt); [apply prints_list|]. Qed.

Lemma vprintf_int base d n l fmt ap t :
  (base = 10 /\ d = 100) \/ (base = 16 /\ d = 120) -> - 2 ^ 31 <= n < 2 ^ 31 -> signed base n l ->
  prints (vprintf fmt ap) t tt -> prints (vprintf (37 :: d :: fmt) (AInt n :: ap)) (l ++ t) tt.
Proof.
  intros Hb Hn Hl Ht. assert (l = int_chars n base true) as ->
    by (eapply (signed_unique base); [|exact Hl|apply int_chars_signed]; lia).
  destruct Hb as [[-> ->]|[-> ->]]; cbn [vprintf Z.eqb Pos.eqb negb]; unfold printint;
    (apply prints_then; [by eapply signed_bytes|done]).
Qed.

Lemma vprintf_prints fmt ap t :
  expands fmt ap t -> Forall is_byte fmt -> Forall arg_ok ap -> prints (vprintf fmt ap) t tt.
Proof.
  induction 1 as [ap|ap|x fmt ap t Hx _ IH|n l fmt ap t Hl _ IH|n l fmt ap t Hl _ IH|n l fmt ap t Hl _ IH|l fmt ap t _ IH
    |fmt ap t _ IH|fmt ap t _ IH|d fmt ap t Hd _ IH]; intros Hf Hap.
  - apply prints_ret.
  - apply prints_ret.
  - apply Forall_cons in Hf as [Hb Hf]. cbn [vprintf]. destruct (Z.eqb_spec x 37); [done|]. cbn [negb].
    apply (prints_bind _ _ [x] t tt); [by apply prints_byte|auto].
  - apply Forall_cons in Hap as [Hn Hap]. do 2 apply Forall_cons in Hf as [_ Hf].
    apply (vprintf_int 10); [by left|done..|auto].
  - apply Forall_cons in Hap as [Hn Hap]. do 2 apply Forall_cons in Hf as [_ Hf].
    apply (vprintf_int 16); [by right|done..|auto].
  - apply Forall_cons in Hap as [Hn Hap]. do 2 apply Forall_cons in Hf as [_ Hf].
    assert (l = ptr_chars 16 n) as -> by (eapply pointer_unique; [exact Hl|by apply ptr_chars_pointer]).
    apply (prints_bind (printptr n) _ (chars "0x" ++ ptr_chars 16 n) t tt); [|auto].
    apply (prints_list (48 :: 120 :: ptr_chars 16 n)). do 2 (constructor; [done|]). eapply is_digit_bytes, Hl.
  - apply Forall_cons in Hap as [Hn Hap]. do 2 apply Forall_cons in Hf as [_ Hf].
    apply (prints_then l t (vprintf fmt ap)); [done|auto].
  - apply Forall_cons in Hap as [Hn Hap]. do 2 apply Forall_cons in Hf as [_ Hf].
    apply (prints_then null_str t (vprintf fmt ap)); [bytes|auto].
  - do 2 apply Forall_cons in Hf as [_ Hf]. apply (prints_bind (consputc 37) _ [37] t tt); [by apply prints_byte|auto].
  - apply Forall_cons in Hf as [_ Hf]. apply Forall_cons in Hf as [Hb Hf].
    change (chars "dxps%") with [100; 120; 112; 115; 37] in Hd. rewrite !not_elem_of_cons in Hd. destruct Hd as (H1 & H2 & H3 & H4 & H5 & _). cbn [vprintf].
    change (37 =? 37) with true. cbn [negb]. rewrite !(proj2 (Z.eqb_neq d _)) by done.
    apply (prints_bind (consputc 37) _ [37] (d :: t) tt); [by apply prints_byte|].
    apply (prints_bind (consputc d) _ [d] t tt); [by apply prints_byte|auto].
Qed.

Lemma printf_run {j} c v a k s r fmt ap l :
  Forall is_byte fmt -> Forall arg_ok ap -> expands fmt ap l ->
  cpu_room (S j) c -> ts_panicked s = 0 -> idle (ts_prlock s) -> tx_ready (length l) a r ->
  printf fmt ap (at4 c v a k s) = Ok tt (at4 (if nz (ts_prlocking s) then settle c else ran l c) v (sent l r a) k s).
Proof.
  intros Hf Hap E Hc Hp [Hi1 Hi2] Hr. pose proof (vprintf_prints fmt ap l E Hf Hap) as Hv.
  unfold printf. erewrite bind_ok by done. change (ts_prlocking (at4 _ _ _ _ s)) with (ts_prlocking s).
  destruct (nz (ts_prlocking s)); cbn [when].
  - erewrite bind_ok by (apply (acquire_run pr_lock); exact Hi1).
    change (put pr_lock _ _) with (at4 (push c) v a k (put pr_lock (taken (c_id c) (ts_prlock s)) s)).
    erewrite bind_ok by (apply (Hv j); [auto with kernel|done|done]).
    replace (ran l (push c)) with (push c) by (destruct l; [done|]; cbn [ran]; by rewrite settle_push by done).
    rewrite (release_run pr_lock); [|apply holding_taken|done|by eapply push_noff].
    change (view cpuL (at4 ?c _ _ _ _)) with c. rewrite pop_push by done.
    change (view pr_lock _) with (taken (c_id c) (ts_prlock s)). rewrite freed_taken by done.
    by destruct s.
  - erewrite bind_ok by done. erewrite bind_ok by (by eapply Hv). done.
Qed.

(** C40: [printf] sends the text of its format. When the arguments match the
    format ([expands]: numbers in decimal or hexadecimal with the most
    significant digit first, a minus sign for negative ones and no leading
    zeros, pointers as [0x] and sixteen digits, strings as they are) and the
    transmitter becomes idle for every byte, [printf] writes to the transmit
    register exactly the bytes of the text, in order, changes nothing else, and
    returns with its lock released when it takes it. *)
Theorem printf_correct (s : tst) (fmt : list Z) (ap : list arg) (text : list Z) (r : list bool) :
  Forall is_byte fmt -> Forall arg_ok ap -> expands fmt ap text ->
  cpu_ok (view cpuL s) -> ts_panicked s = 0 -> idle (ts_prlock s) -> tx_ready (length text) (ts_uart s) r ->
  exists s', printf fmt ap s = Ok tt s' /\ settle (view cpuL s') = settle (view cpuL s) /\
    s' = put cpuL (view cpuL s') (put uartL (sent text r (ts_uart s)) s).
Proof.
  intros Hf Hap E Hc Hp Hi Hr.
  eexists. split; [rewrite <- (at4_self s) at 1; by eapply (printf_run _ _ _ _ _ r fmt ap text)|].
  split; [|by destruct s as [[[] []] ? ? ? ? ?]]. change (view cpuL (at4 ?c _ _ _ _)) with c.
  destruct (nz _); [apply settle_idem|apply settle_ran].
Qed.

Module Screen.
Definition lk : spinlock := Spinlock 0 "x" None.
Definition pr (i : fin NPROC) : proc :=
  Proc lk (if decide (i = 0%fin) then RUNNING else UNUSED) None 0 0 (Z.of_nat (fin_to_nat i)) None 0 0 0 0
    (Context 0 0 []) (vreplicate NOFILE None) None (chars "init") (vreplicate 16 (Vma 0 0 0 0 None 0 0 0)).
Definition dev : uart := Uart lk (replicate 32 0) 0 0 [] (replicate 64 true) [].
Definition st : tst :=
  Tst (Ust (Km (Cpu 0 true (Some 0%fin) 0 true) (fun _ => 0) lk 0) (Ptab (fun_to_vec pr) None 1 lk lk))
    dev (Cons lk (replicate 128 0) 0 0 0) lk 1 0.

Lemma minus_seven : signed 10 (-7) (chars "-7").
Proof. exists [55]. split; [done|]. split; [by repeat constructor|done..]. Qed.
Lemma beef : signed 16 48879 (chars "beef").
Proof. change (signed 16 48879 [98; 101; 101; 102]). split; [repeat (apply Forall_cons_2; [unfold is_digit, undigit; cbn; lia|]); apply Forall_nil_2|done..]. Qed.
Lemma text : expands (chars "%d:%s %x%%") [AInt (-7); AStr (Some (chars "ok")); AInt 48879] (chars "-7:ok beef%").
Proof.
  apply (ex_d (-7) (chars "-7")); [exact minus_seven|]. apply ex_char; [done|].
  apply (ex_s (chars "ok")). apply ex_char; [done|]. apply (ex_x 48879 (chars "beef")); [exact beef|].
  apply ex_percent, ex_end.
Qed.
End Screen.

Lemma printf_correct_witness :
  exists s', printf (chars "%d:%s %x%%") [AInt (-7); AStr (Some (chars "ok")); AInt 48879] Screen.st = Ok tt s' /\
    ud_out (ts_uart s') = (fun y => (THR, y)) <$> chars "-7:ok beef%".
Proof.
  destruct (printf_correct Screen.st (chars "%d:%s %x%%") [AInt (-7); AStr (Some (chars "ok")); AInt 48879]
    (chars "-7:ok beef%") (replicate 53 true)) as (s' & H1 & _ & H2).
  - bytes.
  - apply Forall_cons_2; [split; lia|]. apply Forall_cons_2; [bytes|]. apply Forall_cons_2; [split; lia|done].
  - exact Screen.text.
  - by apply room_zero.
  - reflexivity.
  - by split.
  - split; reflexivity.
  - exists s'. split; [exact H1|]. rewrite H2. reflexivity.
Defined.

(** * The line editor *)

(** What [consoleread] may take, and the line being edited. *)
Definition unread (k : cons) : list Z := ring INPUT_BUF (2 ^ 32) (cn_buf k) (cn_r k) (cn_w k).
Definition line (k : cons) : list Z := ring INPUT_BUF (2 ^ 32) (cn_buf k) (cn_w k) (cn_e k).

Record cons_ok (k : cons) : Prop := {
  co_len : Z.of_nat (length (cn_buf k)) = INPUT_BUF;
  co_r : 0 <= cn_r k < 2 ^ 32;
  co_w : 0 <= cn_w k < 2 ^ 32;
  co_e : 0 <= cn_e k < 2 ^ 32;
  co_used : used (2 ^ 32) (cn_r k) (cn_w k) + used (2 ^ 32) (cn_w k) (cn_e k) <= INPUT_BUF;
  co_line : 10 ∉ line k;
}.

(** A character typed at a line, and whether it ends it. *)
Definition typed (x : Z) : Z := if x =? 13 then 10 else x.
Definition ends (x : Z) (n : nat) : bool := (x =? 10) || (x =? 4) || (Z.of_nat n =? INPUT_BUF).

Definition accepts (x : Z) (t : list Z * list Z) : bool :=
  negb (x =? 16) && negb (x =? 21) && negb ((x =? 8) || (x =? 127)) && nz x &&
  (Z.of_nat (length t.1 + length t.2) <? INPUT_BUF).
Definition commits (x : Z) (t : list Z * list Z) : bool :=
  accepts x t && ends (typed x) (length t.1 + length t.2 + 1).

(** The effect of a key on the committed text and the line: control-U empties
    the line, backspace and delete take its last character, control-P (which
    prints the processes) and keys that do not fit leave it, other keys append,
    and newline, control-D and a full buffer commit the line. *)
Definition edit (x : Z) (t : list Z * list Z) : list Z * list Z :=
  if x =? 16 then t
  else if x =? 21 then (t.1, [])
  else if (x =? 8) || (x =? 127) then (t.1, removelast t.2)
  else if negb (accepts x t) then t
  else if commits x t then (t.1 ++ t.2 ++ [typed x], []) else (t.1, t.2 ++ [typed x]).

(** The list of processes that control-P prints. *)
Definition dump_one (p : proc) : list Z :=
  if bool_decide (p_state p = UNUSED) then [] else
  int_chars (p_pid p) 10 true ++ [32] ++ state_name (p_state p) ++ [32] ++ p_name p ++ [10].
Definition dump (v : vec proc NPROC) : list Z := 10 :: concat ((fun i => dump_one (v !!! i)) <$> indices NPROC).

(** What the user sees on the screen. *)
Definition shown (x : Z) (v : vec proc NPROC) (t : list Z * list Z) : list Z :=
  if x =? 16 then dump v
  else if x =? 21 then concat (replicate (length t.2) [8; 32; 8])
  else if (x =? 8) || (x =? 127) then (if bool_decide (t.2 = []) then [] else [8; 32; 8])
  else if accepts x t then [typed x] else [].

Lemma input_divides : (INPUT_BUF | 2 ^ 32).
Proof. by exists 33554432. Qed.

Section Edit.
Implicit Types (k : cons).

Lemma text_length k :
  cons_ok k -> used (2 ^ 32) (cn_r k) (cn_e k) = Z.of_nat (length (unread k) + length (line k)) /\
  Z.of_nat (length (unread k) + length (line k)) <= INPUT_BUF.
Proof.
  intros Hk. pose proof (co_used k Hk). unfold INPUT_BUF in *.
  pose proof (used_range (2 ^ 32) ltac:(lia) (cn_r k) (cn_w k)). pose proof (used_range (2 ^ 32) ltac:(lia) (cn_w k) (cn_e k)).
  unfold unread, line. rewrite !length_ring, (used_split (2 ^ 32) ltac:(lia) _ (cn_w k)) by lia. lia.
Qed.

(** Storing a character. *)
Definition typed_at (x : Z) (k : cons) : cons :=
  set_cne (u32 (cn_e k + 1)) (set_cnbuf (<[Z.to_nat (cn_e k mod INPUT_BUF) := x]> (cn_buf k)) k).

Lemma typed_at_spec x k :
  cons_ok k -> Z.of_nat (length (unread k) + length (line k)) < INPUT_BUF ->
  unread (typed_at x k) = unread k /\ line (typed_at x k) = line k ++ [x] /\
  used (2 ^ 32) (cn_w k) (cn_e (typed_at x k)) = used (2 ^ 32) (cn_w k) (cn_e k) + 1.
Proof.
  intros Hk Hroom. destruct (text_length k Hk) as [Hu _]. pose proof (co_used k Hk) as Hco. unfold INPUT_BUF in *.
  pose proof (used_range (2 ^ 32) ltac:(lia) (cn_r k) (cn_w k)). pose proof (used_range (2 ^ 32) ltac:(lia) (cn_w k) (cn_e k)).
  assert (used (2 ^ 32) (cn_w k) (u32 (cn_e k + 1)) = used (2 ^ 32) (cn_w k) (cn_e k) + 1) as Hw1.
  { apply used_push; lia. }
  assert (ring 128 (2 ^ 32) (cn_buf (typed_at x k)) (cn_r k) (u32 (cn_e k + 1)) = ring 128 (2 ^ 32) (cn_buf k) (cn_r k) (cn_e k) ++ [x]) as Hr.
  { apply (ring_push 128 (2 ^ 32) ltac:(lia) input_divides ltac:(lia)); [apply Hk|lia|lia]. }
  rewrite (ring_split 128 (2 ^ 32) input_divides ltac:(lia) _ (cn_r k) (cn_w k) (u32 (cn_e k + 1))) in Hr by lia.
  rewrite (ring_split 128 (2 ^ 32) input_divides ltac:(lia) _ (cn_r k) (cn_w k) (cn_e k)) in Hr by lia.
  rewrite <- app_assoc in Hr. apply app_inj_1 in Hr as [H1 H2]; [done|]. by rewrite !length_ring.
Qed.

(** Taking the last character of the line back. *)
Definition erase (k : cons) : cons := set_cne (u32 (cn_e k - 1)) k.
Lemma erase_spec k :
  cons_ok k -> line k <> [] ->
  cons_ok (erase k) /\ unread (erase k) = unread k /\
  line k = line (erase k) ++ [cn_buf k !!! Z.to_nat (u32 (cn_e k - 1) mod INPUT_BUF)].
Proof.
  intros Hk Hne. assert (0 < used (2 ^ 32) (cn_w k) (cn_e k)) as Hpos.
  { assert (0 < length (line k))%nat by (destruct (line k); [done|cbn; lia]). unfold line in *. rewrite length_ring in *. lia. }
  assert (line k = line (erase k) ++ [cn_buf k !!! Z.to_nat (u32 (cn_e k - 1) mod INPUT_BUF)]) as Hl.
  { unfold line. rewrite (ring_unpush INPUT_BUF (2 ^ 32) input_divides ltac:(lia)) by done. cbn. unfold u32.
    by rewrite (ring_wrap INPUT_BUF (2 ^ 32) input_divides). }
  split; [|done]. destruct Hk as [H1 H2 H3 H4 H5 H6]. split; cbn; try done; [apply u32_range| |].
  - unfold u32. rewrite (used_unpush (2 ^ 32)) by (lia || done). lia.
  - intros Hin. apply H6. rewrite Hl. apply elem_of_app. by left.
Qed.

(** Committing the line. *)
Lemma line_commit_spec k :
  Z.of_nat (length (cn_buf k)) = INPUT_BUF -> 0 <= cn_r k < 2 ^ 32 -> 0 <= cn_e k < 2 ^ 32 ->
  used (2 ^ 32) (cn_r k) (cn_w k) + used (2 ^ 32) (cn_w k) (cn_e k) <= INPUT_BUF ->
  let k' := set_cnw (cn_e k) k in
  cons_ok k' /\ unread k' = unread k ++ line k /\ line k' = [].
Proof.
  intros Hl Hr He Hu k'. unfold INPUT_BUF in *.
  assert (used (2 ^ 32) (cn_e k) (cn_e k) = 0) as Hz by (unfold used; by rewrite Z.sub_diag).
  assert (line k' = []) as Hn by (unfold line, ring; cbn [k' set_cnw cn_w cn_e cn_buf]; by rewrite Hz).
  split_and!; [|exact (ring_split 128 (2 ^ 32) input_divides ltac:(lia) (cn_buf k) (cn_r k) (cn_w k) (cn_e k) ltac:(lia))|done].
  split; cbn; try done; [rewrite Hz, (used_split (2 ^ 32) ltac:(lia) _ (cn_w k)) by lia; unfold INPUT_BUF; lia|].
  rewrite Hn. apply not_elem_of_nil.
Qed.
End Edit.

Definition names_ok (v : vec proc NPROC) : Prop :=
  forall i, Forall is_byte (p_name (v !!! i)) /\ - 2 ^ 31 <= p_pid (v !!! i) < 2 ^ 31.

Section Keys.
Variables (c : cpu) (v : vec proc NPROC) (s : tst).
Hypothesis cpu_fine : cpu_room 15 c.
Hypothesis settled : settle c = c.
Hypothesis no_panic : ts_panicked s = 0.
Hypothesis pr_idle : idle (ts_prlock s).
Hypothesis p_idle : forall i, Some i <> c_proc c -> idle (p_lock (v !!! i)).
Hypothesis names : names_ok v.
Implicit Types (k : cons) (a : uart).

Lemma ran_settled l : ran l c = c.
Proof. by destruct l. Qed.

Lemma printf_settled a k r fmt ap l :
  Forall is_byte fmt -> Forall arg_ok ap -> expands fmt ap l -> tx_ready (length l) a r ->
  printf fmt ap (at4 c v a k s) = Ok tt (at4 c v (sent l r a) k s).
Proof.
  intros H1 H2 H3 H4. rewrite (printf_run (j:=14) _ _ _ _ _ r fmt ap l) by done. rewrite ran_settled, settled.
  by destruct (nz _).
Qed.

Lemma state_name_bytes t : Forall is_byte (state_name t).
Proof. destruct t; cbn; bytes. Qed.

Lemma procdump_one_run a k r i :
  tx_ready (length (dump_one (v !!! i))) a r ->
  procdump_one i (at4 c v a k s) = Ok tt (at4 c v (sent (dump_one (v !!! i)) r a) k s).
Proof.
  destruct (names i) as [Hn Hpid]. unfold procdump_one, dump_one. erewrite bind_ok by done.
  change (view (procL i) (at4 _ _ _ _ _)) with (v !!! i). destruct (bool_decide (p_state (v !!! i) = UNUSED)).
  { intros Hr. by rewrite (tx_ready_0 a r Hr). }
  intros Hr. set (l := int_chars _ 10 true ++ _). assert (exists l1, l = l1 ++ [10] /\
    expands (chars "%d %s %s") [AInt (p_pid (v !!! i)); AStr (Some (state_name (p_state (v !!! i)))); AStr (Some (p_name (v !!! i)))] l1)
    as (l1 & El & Ef).
  { eexists. split.
    2:{ apply ex_d; [apply int_chars_signed; [by left|exact Hpid]|]. apply ex_char; [done|]. apply ex_s.
        apply ex_char; [done|]. apply ex_s, ex_end. }
    unfold l. rewrite app_nil_r. repeat (rewrite <- ?app_assoc; cbn [app]). done. }
  fold l in Hr. rewrite El in *. rewrite length_app in Hr. apply tx_ready_app in Hr as (r1 & Hr1 & Hr2).
  erewrite bind_ok.
  2:{ apply (printf_settled a k r1 _ _ l1); [|by repeat apply Forall_cons_2; try apply state_name_bytes|done|done].
      bytes. }
  rewrite (printf_settled _ k r [10] [] [10]); [by rewrite sent_sent|bytes|done|by apply ex_char, ex_end|apply Hr2].
Qed.

Lemma procdump_run a k r :
  tx_ready (length (dump v)) a r -> procdump (at4 c v a k s) = Ok tt (at4 c v (sent (dump v) r a) k s).
Proof.
  unfold procdump, dump. change (10 :: ?l) with ([10] ++ l). rewrite length_app. intros (r1 & Hr1 & Hr2)%tx_ready_app.
  erewrite bind_ok by (apply (printf_settled a k r1 [10] [] [10]); [bytes|done|by apply ex_char, ex_end|done]).
  specialize (Hr2 [10]). revert Hr2. rewrite <- (sent_sent [10] _ r1). generalize (sent [10] r1 a). clear a r1 Hr1.
  induction (indices NPROC) as [|i l IH]; intros a Hr; cbn [forM fmap list_fmap concat] in *; [by rewrite (tx_ready_0 a r Hr)|].
  rewrite length_app in Hr. apply tx_ready_app in Hr as (r1 & Hr1 & Hr2).
  erewrite bind_ok by (by apply procdump_one_run). rewrite IH by apply Hr2. by rewrite sent_sent.
Qed.

Lemma line_empty k : cons_ok k -> (cn_e k =? cn_w k) = bool_decide (line k = []).
Proof.
  intros Hk. rewrite Z.eqb_sym, (used_zero (2 ^ 32)) by (lia || apply Hk).
  pose proof (used_range (2 ^ 32) ltac:(lia) (cn_w k) (cn_e k)). unfold line.
  destruct (Z.eqb_spec (used (2 ^ 32) (cn_w k) (cn_e k)) 0) as [E|E]; symmetry.
  - apply bool_decide_eq_true. unfold ring. by rewrite E.
  - apply bool_decide_eq_false. intros F%(f_equal length). rewrite length_ring in F. cbn in F. lia.
Qed.

(** Backspace. *)
Lemma erase_run a k r :
  cons_ok k -> line k <> [] -> tx_ready 3 a r ->
  (updc (fun k => set_cne (u32 (cn_e k - 1)) k) ;; consputc BACKSPACE) (at4 c v a k s) =
    Ok tt (at4 c v (sent [8; 32; 8] r a) (erase k) s).
Proof.
  intros Hk Hne Hr. erewrite bind_ok by done. change (put consL _ _) with (at4 c v a (erase k) s).
  rewrite (consputc_run (j:=15) c v a (erase k) s BACKSPACE r) by done. by rewrite settled.
Qed.

(** Control-U. *)
Lemma kill_line_run a k r :
  cons_ok k -> tx_ready (3 * length (line k)) a r ->
  exists k', loop kill_line tt (at4 c v a k s) = Ok tt (at4 c v (sent (concat (replicate (length (line k)) [8; 32; 8])) r a) k' s) /\
    cons_ok k' /\ unread k' = unread k /\ line k' = [] /\ cn_lock k' = cn_lock k.
Proof.
  intros Hk Hr. set (u := sent _ r a).
  apply (loop_rule kill_line (fun n _ s' => exists k' a', s' = at4 c v a' k' s /\ cons_ok k' /\ unread k' = unread k /\
      cn_lock k' = cn_lock k /\ n = length (line k') /\ tx_ready (3 * n) a' r /\ sent (concat (replicate n [8; 32; 8])) r a' = u)
    (fun o => exists k', o = Ok tt (at4 c v u k' s) /\ cons_ok k' /\ unread k' = unread k /\ line k' = [] /\ cn_lock k' = cn_lock k))
    with (n := length (line k)).
  2:{ exists k, a. done. }
  2:{ destruct (text_length k Hk). unfold INPUT_BUF in *. lia. }
  intros n [] s' (k' & a' & -> & Hk' & Hun & Hlk & -> & Hr' & Hs). unfold kill_line. erewrite bind_ok by done.
  change (ts_cons (at4 _ _ _ ?k _)) with k. rewrite line_empty by done. destruct (decide (line k' = [])) as [E|E].
  { rewrite bool_decide_true by done. cbn [negb andb ret]. exists k'. rewrite E in Hs, Hr'. cbn in Hs, Hr'.
    rewrite <- Hs, (tx_ready_0 a' r Hr'). done. }
  rewrite bool_decide_false by done. destruct (erase_spec k' Hk' E) as (Hk2 & Hun2 & Hl2).
  set (y := cn_buf k' !!! _) in *. destruct (Z.eqb_spec y 10) as [Hy|Hy].
  { destruct (co_line k' Hk'). rewrite Hl2, Hy. apply elem_of_app. right. by left. }
  cbn [negb andb]. rewrite Hl2, length_app in Hr', Hs |- *. cbn [length] in *.
  replace (3 * (length (line (erase k')) + 1))%nat with (3 + 3 * length (line (erase k')))%nat in Hr' by lia.
  apply tx_ready_app in Hr' as (r1 & Hr1 & Hr2). rewrite <- bind_assoc.
  erewrite bind_ok by (by apply erase_run). cbn [ret].
  exists (length (line (erase k'))). split; [lia|]. exists (erase k'), (sent [8; 32; 8] r1 a').
  split_and!; [done|done|congruence|done|done|apply Hr2|]. rewrite sent_sent, <- Hs, Nat.add_1_r. done.
Qed.

Lemma char_run x a k r :
  let t := (unread k, line k) in
  is_byte x -> cons_ok k -> tx_ready (if nz x && (Z.of_nat (length t.1 + length t.2) <? INPUT_BUF) then 1 else 0) a r ->
  exists k', consoleintr_char x (at4 c v a k s) =
      Ok tt (at4 c (if nz x && (Z.of_nat (length t.1 + length t.2) <? INPUT_BUF) && ends (typed x) (length t.1 + length t.2 + 1)
                    then wake_all KConsR (c_proc c) v else v)
                 (sent (if nz x && (Z.of_nat (length t.1 + length t.2) <? INPUT_BUF) then [typed x] else []) r a) k' s) /\
    cons_ok k' /\ cn_lock k' = cn_lock k /\
    (unread k', line k') =
      if negb (nz x && (Z.of_nat (length t.1 + length t.2) <? INPUT_BUF)) then t
      else if ends (typed x) (length t.1 + length t.2 + 1) then (t.1 ++ t.2 ++ [typed x], []) else (t.1, t.2 ++ [typed x]).
Proof.
  intros t Hx Hk. destruct (text_length k Hk) as [Hu Hmax]. cbn [t fst snd]. unfold consoleintr_char.
  set (n := (length (unread k) + length (line k))%nat) in *. erewrite bind_ok by done.
  change (ts_cons (at4 _ _ _ ?k _)) with k. change (u32 (cn_e k - cn_r k)) with (used (2 ^ 32) (cn_r k) (cn_e k)). rewrite Hu.
  destruct (nz x && (Z.of_nat n <? INPUT_BUF)) eqn:E; cbn [when negb andb].
  2:{ intros Hr. exists k. by rewrite (tx_ready_0 a r Hr). }
  apply andb_true_iff in E as [Ex En%Z.ltb_lt]. intros Hr.
  change (if x =? 13 then 10 else x) with (typed x). set (y := typed x).
  assert (is_byte y) as Hy by (unfold y, typed; destruct (x =? 13); done).
  erewrite bind_ok by (by apply (prints_byte y Hy 15%nat c v a k s r)). rewrite ran_settled.
  erewrite bind_ok by done. erewrite bind_ok by done. erewrite bind_ok by done.
  replace (u8 y) with y by (symmetry; by apply u8_small).
  change (put consL _ (put consL _ _)) with (at4 c v (sent [y] r a) (typed_at y k) s).
  change (ts_cons (at4 _ _ _ ?k _)) with k. destruct (typed_at_spec y k Hk En) as (Ht1 & Ht2 & Ht3).
  pose proof (co_used k Hk) as Hco. pose proof (used_range (2 ^ 32) ltac:(lia) (cn_r k) (cn_w k)) as Hrw.
  pose proof (used_range (2 ^ 32) ltac:(lia) (cn_w k) (cn_e k)) as Hwe.
  rewrite (used_split (2 ^ 32) ltac:(lia) _ (cn_w k)) in Hu by (unfold INPUT_BUF in *; lia).
  assert (Z.of_nat (length (cn_buf (typed_at y k))) = INPUT_BUF) as Hlen.
  { cbn. rewrite length_insert. apply Hk. }
  assert (used (2 ^ 32) (cn_r (typed_at y k)) (cn_w (typed_at y k)) + used (2 ^ 32) (cn_w (typed_at y k)) (cn_e (typed_at y k)) <= INPUT_BUF) as Hus.
  { change (cn_r (typed_at y k)) with (cn_r k). change (cn_w (typed_at y k)) with (cn_w k). lia. }
  replace (cn_e (typed_at y k) =? u32 (cn_r (typed_at y k) + INPUT_BUF)) with (Z.of_nat (n + 1) =? INPUT_BUF).
  2:{ symmetry. etransitivity; [apply (used_eq (2 ^ 32)); [apply u32_range|unfold INPUT_BUF; lia]|].
      change (cn_r (typed_at y k)) with (cn_r k).
      rewrite (used_split (2 ^ 32) ltac:(lia) _ (cn_w k)); [f_equal; lia|unfold INPUT_BUF in *; lia]. }
  fold (ends y (n + 1)). destruct (ends y (n + 1)) eqn:Eend; cbn [when].
  - erewrite bind_ok by done. change (put consL _ _) with (at4 c v (sent [y] r a) (set_cnw (cn_e (typed_at y k)) (typed_at y k)) s).
    destruct (line_commit_spec (typed_at y k) Hlen) as (Hk2 & Hun2 & Hl2); [apply Hk|apply u32_range|done|].
    exists (set_cnw (cn_e (typed_at y k)) (typed_at y k)). split; [rewrite (wakeup_run (k:=15)) by done; change (view cpuL (at4 ?c _ _ _ _)) with c; rewrite settled; reflexivity|].
    split_and!; [done|done|]. by rewrite Hun2, Hl2, Ht1, Ht2.
  - exists (typed_at y k). split_and!; [done| |done|by rewrite Ht1, Ht2].
    split; [done|apply Hk|apply Hk|apply u32_range|done|]. rewrite Ht2. intros [Hin|Hin]%elem_of_app; [by apply (co_line k Hk)|].
    apply list_elem_of_singleton in Hin. unfold ends in Eend. by rewrite <- Hin in Eend.
Qed.
End Keys.

Lemma erased_length n : length (concat (replicate n [8; 32; 8])) = (3 * n)%nat.
Proof. induction n as [|n IH]; [done|]. cbn [replicate concat]. rewrite length_app, IH. cbn. lia. Qed.

(** One key, with the console's lock held. *)
Definition key (x : Z) : M tst unit :=
  if x =? 16 then procdump
  else if x =? 21 then loop kill_line tt
  else if (x =? 8) || (x =? 127) then
    k <- getc ;;
    when (negb (cn_e k =? cn_w k))
      (updc (fun k => set_cne (u32 (cn_e k - 1)) k) ;;
       consputc BACKSPACE)
  else consoleintr_char x.

Lemma key_run x c v a k s r :
  let t := (unread k, line k) in
  cpu_room 15 c -> settle c = c -> ts_panicked s = 0 -> idle (ts_prlock s) ->
  (forall i, Some i <> c_proc c -> idle (p_lock (v !!! i))) -> names_ok v ->
  is_byte x -> cons_ok k -> tx_ready (length (shown x v t)) a r ->
  exists k', key x (at4 c v a k s) =
      Ok tt (at4 c (if commits x t then wake_all KConsR (c_proc c) v else v) (sent (shown x v t) r a) k' s) /\
    cons_ok k' /\ cn_lock k' = cn_lock k /\ (unread k', line k') = edit x t.
Proof.
  intros t Hc Hs Hp Hpr Hpi Hn Hx Hk. unfold key, shown, edit, commits, accepts.
  destruct (x =? 16).
  { intros Hr. exists k. split_and!; [by apply procdump_run|done..]. }
  destruct (x =? 21).
  { rewrite erased_length. intros Hr. destruct (kill_line_run c v s Hc Hs Hp a k r Hk Hr) as (k' & H1 & H2 & H3 & H4 & H5).
    exists k'. split_and!; [done|done|done|]. by rewrite H3, H4. }
  destruct ((x =? 8) || (x =? 127)).
  { cbn [negb andb snd t]. intros Hr.
    erewrite bind_ok by done. change (ts_cons (at4 _ _ _ ?k _)) with k. rewrite line_empty by done.
    destruct (decide (line k = [])) as [E|E].
    - rewrite bool_decide_true in Hr |- * by done. cbn [negb when]. exists k.
      rewrite (tx_ready_0 a r Hr). rewrite E. done.
    - rewrite bool_decide_false in Hr |- * by done. cbn [negb when]. exists (erase k).
      destruct (erase_spec k Hk E) as (H1 & H2 & H3). split_and!; [by apply erase_run|done|done|].
      cbn [fst]. rewrite H2. f_equal. rewrite H3. symmetry. apply removelast_last. }
  cbn [negb andb fst snd t]. intros Hr.
  destruct (char_run c v s Hc Hs Hp Hpi x a k r Hx Hk) as (k' & H1 & H2 & H3 & H4).
  { revert Hr. cbn [fst snd]. by destruct (nz x && _). }
  exists k'. split_and!; [exact H1|done|done|]. rewrite H4. cbn [fst snd]. by destruct (nz x && _).
Qed.

(** C33: [consoleintr] is a line editor. Every key has the effect [edit]
    describes on the text readers may take and the line being typed, which stay
    within the 128-byte circular buffer (whose indices wrap at 2^32); the UART is
    sent what [shown] describes: the echo, a backspace-space-backspace for every
    character erased, or the process list; readers are woken exactly when text is
    committed, and the lock is free again. *)
Theorem consoleintr_correct (s : tst) (x : Z) (r : list bool) :
  let t := (unread (ts_cons s), line (ts_cons s)) in
  is_byte x -> cons_ok (ts_cons s) -> idle (cn_lock (ts_cons s)) -> idle (ts_prlock s) -> ts_panicked s = 0 ->
  cpu_ok (view cpuL s) -> names_ok (view procsL s) ->
  (forall i, Some i <> c_proc (view cpuL s) -> idle (p_lock (view procsL s !!! i))) ->
  tx_ready (length (shown x (view procsL s) t)) (ts_uart s) r ->
  exists k', consoleintr x s =
      Ok tt (at4 (settle (view cpuL s))
               (if commits x t then wake_all KConsR (c_proc (view cpuL s)) (view procsL s) else view procsL s)
               (sent (shown x (view procsL s) t) r (ts_uart s)) k' s) /\
    cons_ok k' /\ cn_lock k' = cn_lock (ts_cons s) /\ (unread k', line k') = edit x t.
Proof.
  intros t Hx Hk Hl Hpr Hp Hc Hn Hpi Hr.
  set (c := view cpuL s) in *. set (v := view procsL s) in *. set (a := ts_uart s) in *. set (k := ts_cons s) in *.
  set (k1 := set_cnlock (taken (c_id c) (cn_lock k)) k).
  assert (cons_ok k1) as Hk1 by (destruct Hk; by split).
  destruct (key_run x (push c) v a k1 s r) as (k' & H1 & H2 & H3 & H4); try done; [auto with kernel|by rewrite settle_push by done|].
  exists (set_cnlock (cn_lock k) k'). split; [|split_and!; [destruct H2; by split|done|exact H4]].
  rewrite <- (at4_self s) at 1. fold c v a k. unfold consoleintr. erewrite bind_ok.
  2:{ apply (acquire_run cons_lock). apply Hl. }
  change (put cons_lock _ _) with (at4 (push c) v a k1 s).
  erewrite bind_ok by exact H1.
  rewrite (release_run cons_lock); [| |done|by eapply push_noff].
  2:{ change (view cons_lock _) with (cn_lock k'). rewrite H3. apply holding_taken. }
  change (view cpuL (at4 ?c _ _ _ _)) with c. rewrite pop_push by done.
  change (view cons_lock _) with (cn_lock k'). rewrite H3. change (cn_lock k1) with (taken (c_id c) (cn_lock k)).
  by rewrite freed_taken.
Qed.

Lemma screen_names : names_ok (view procsL Screen.st).
Proof.
  intros i. change (view procsL Screen.st) with (fun_to_vec Screen.pr). rewrite lookup_fun_to_vec. split.
  - bytes.
  - change (p_pid (Screen.pr i)) with (Z.of_nat (fin_to_nat i)). pose proof (fin_to_nat_lt i). unfold NPROC in *. lia.
Qed.

Lemma consoleintr_correct_witness :
  exists k', (exists s', consoleintr 13 Screen.st = Ok tt s' /\ ts_cons s' = k') /\ unread k' = [10] /\ line k' = [].
Proof.
  assert (cons_ok (ts_cons Screen.st)) as Hk.
  { split; [reflexivity|cbn; lia..|by vm_compute|by apply not_elem_of_nil]. }
  destruct (consoleintr_correct Screen.st 13 (replicate 63 true)) as (k' & H1 & _ & _ & H4).
  - by split.
  - exact Hk.
  - by split.
  - by split.
  - reflexivity.
  - by apply room_zero.
  - exact screen_names.
  - intros i _. change (view procsL Screen.st) with (fun_to_vec Screen.pr). rewrite lookup_fun_to_vec. by split.
  - split; reflexivity.
  - exists k'. split; [eexists; split; [exact H1|reflexivity]|].
    change (edit 13 _) with ([10], @nil Z) in H4. injection H4 as H4 H5. by split.
Defined.
