(* ===== verification/Pipe.v ===== *)
(** Pipes: [src/kernel/pipe.c], the operations on one pipe.

    The state is the memory of the machine, the process table and the
    [struct pipe]. Allocation of a pipe, which also allocates its two files, is
    with the file table. *)

From S2P Require Import Prelude Params Spinlock Kalloc Vm Sched Sleeplock Umem.
Local Open Scope kernel_scope.

Definition PIPESIZE : Z := 512.

(** [struct pipe] *)
Record pipe : Type := Pipe {
  pi_lock : spinlock;
  pi_data : list Z;
  pi_nread : Z;
  pi_nwrite : Z;
  pi_readopen : Z;
  pi_writeopen : Z;
}.
Definition set_pilock (x : spinlock) (p : pipe) : pipe :=
  Pipe x (pi_data p) (pi_nread p) (pi_nwrite p) (pi_readopen p) (pi_writeopen p).
Definition set_pidata (x : list Z) (p : pipe) : pipe :=
  Pipe (pi_lock p) x (pi_nread p) (pi_nwrite p) (pi_readopen p) (pi_writeopen p).
Definition set_nread (x : Z) (p : pipe) : pipe :=
  Pipe (pi_lock p) (pi_data p) x (pi_nwrite p) (pi_readopen p) (pi_writeopen p).
Definition set_nwrite (x : Z) (p : pipe) : pipe :=
  Pipe (pi_lock p) (pi_data p) (pi_nread p) x (pi_readopen p) (pi_writeopen p).
Definition set_readopen (x : Z) (p : pipe) : pipe :=
  Pipe (pi_lock p) (pi_data p) (pi_nread p) (pi_nwrite p) x (pi_writeopen p).
Definition set_writeopen (x : Z) (p : pipe) : pipe :=
  Pipe (pi_lock p) (pi_data p) (pi_nread p) (pi_nwrite p) (pi_readopen p) x.

Record pst : Type := Pst { ps_u : ust; ps_pipe : pipe }.
Definition ps_uL : lens pst ust := Lens ps_u (fun u s => Pst u (ps_pipe s)).
Definition pipeL : lens pst pipe := Lens ps_pipe (fun p s => Pst (ps_u s) p).
Definition pi_lockL : lens pipe spinlock := Lens pi_lock set_pilock.
Definition pipe_lock : lens pst spinlock := lens_comp pipeL pi_lockL.
#[export] Instance pst_cpu : HasCpu pst := lens_comp ps_uL (cpuL (S:=ust)).
#[export] Instance pst_ptab : HasPtab pst := lens_comp ps_uL (ptabL (S:=ust)).
#[export] Instance pst_swtch : HasSwtch pst := swtch_stop.
#[export] Instance ps_uL_ok : LensOk ps_uL.
Proof. solve_lens. Qed.
#[export] Instance pipeL_ok : LensOk pipeL.
Proof. solve_lens. Qed.
#[export] Instance pi_lockL_ok : LensOk pi_lockL.
Proof. solve_lens. Qed.
#[export] Instance pipe_lock_ok : LensOk pipe_lock.
Proof. unfold pipe_lock. apply _. Qed.
#[export] Instance pst_cpu_ok : LensOk (cpuL (S:=pst)).
Proof. apply (lens_comp_ok ps_uL (cpuL (S:=ust))); apply _. Qed.
#[export] Instance pst_ptab_ok : LensOk (ptabL (S:=pst)).
Proof. apply (lens_comp_ok ps_uL (ptabL (S:=ust))); apply _. Qed.
#[export] Instance pst_cpu_ptab : LensDisj (cpuL (S:=pst)) ptabL.
Proof. solve_lens. Qed.
#[export] Instance pst_cpu_pipe : LensDisj (cpuL (S:=pst)) pipe_lock.
Proof. solve_lens. Qed.

Definition getpi : M pst pipe := gets ps_pipe.
Definition updpi (f : pipe -> pipe) : M pst unit := upd pipeL f.

(** The channels of the pipe at the address [pi]. *)
Section Pipe.
Variable pi : Z.

Definition pipewrite_step (pr : fin NPROC) (addr n i : Z) : M pst (Z + option Z) :=
  if negb (i <? n) then ret (inr (Some i)) else
  p <- getpi ;;
  q <- getp pr ;;
  if (pi_readopen p =? 0) || nz (p_killed q) then
    release pipe_lock ;;
    ret (inr None)
  else if pi_nwrite p =? u32 (pi_nread p + PIPESIZE) then
    wakeup (KPipeRead pi) ;;
    sleep (KPipeWrite pi) pipe_lock ;;
    ret (inl i)
  else
    r <- zoom ps_uL (vm (copyin (p_pagetable q) (u64 (addr + i)) 1)) ;;
    let '(e, ch) := r in
    if e =? -1 then ret (inr (Some i)) else
    updpi (fun p => set_pidata (<[Z.to_nat (pi_nwrite p mod PIPESIZE) := ch !!! 0%nat]> (pi_data p)) p) ;;
    updpi (fun p => set_nwrite (u32 (pi_nwrite p + 1)) p) ;;
    ret (inl (i + 1)).

Definition pipewrite (addr n : Z) : M pst Z :=
  pr <- myprocp ;;
  acquire pipe_lock ;;
  r <- loop (pipewrite_step pr addr n) 0 ;;
  match r with
  | None => ret (-1)
  | Some i =>
      wakeup (KPipeRead pi) ;;
      release pipe_lock ;;
      ret i
  end.

(** The wait of [piperead] for data; [false] when the process has been killed. *)
Definition piperead_wait (pr : fin NPROC) (_ : unit) : M pst (unit + bool) :=
  p <- getpi ;;
  if (pi_nread p =? pi_nwrite p) && nz (pi_writeopen p) then
    q <- getp pr ;;
    if nz (p_killed q) then release pipe_lock ;; ret (inr false) else
    sleep (KPipeRead pi) pipe_lock ;;
    ret (inl tt)
  else ret (inr true).

Definition piperead_step (pr : fin NPROC) (addr n i : Z) : M pst (Z + Z) :=
  if negb (i <? n) then ret (inr i) else
  p <- getpi ;;
  if pi_nread p =? pi_nwrite p then ret (inr i) else
  let ch := pi_data p !!! Z.to_nat (pi_nread p mod PIPESIZE) in
  updpi (fun p => set_nread (u32 (pi_nread p + 1)) p) ;;
  q <- getp pr ;;
  r <- zoom ps_uL (vm (copyout (p_pagetable q) (u64 (addr + i)) [ch] 1)) ;;
  if r =? -1 then ret (inr i) else ret (inl (i + 1)).

Definition piperead (addr n : Z) : M pst Z :=
  pr <- myprocp ;;
  acquire pipe_lock ;;
  ok <- loop (piperead_wait pr) tt ;;
  if negb ok then ret (-1) else
  i <- loop (piperead_step pr addr n) 0 ;;
  wakeup (KPipeWrite pi) ;;
  release pipe_lock ;;
  ret i.

Definition pipeclose (kend : Z) (writable : Z) : M pst unit :=
  acquire pipe_lock ;;
  (if nz writable then
     updpi (set_writeopen 0) ;;
     wakeup (KPipeRead pi)
   else
     updpi (set_readopen 0) ;;
     wakeup (KPipeWrite pi)) ;;
  p <- getpi ;;
  if (pi_readopen p =? 0) && (pi_writeopen p =? 0) then
    release pipe_lock ;;
    zoom ps_uL (vm (kfree kend pi))
  else release pipe_lock.
End Pipe.

(** [pipealloc]'s initialisation of a new pipe. *)
Definition pipe_init : M pst unit :=
  updpi (set_readopen 1) ;;
  updpi (set_writeopen 1) ;;
  updpi (set_nwrite 0) ;;
  updpi (set_nread 0) ;;
  initlock pipe_lock "pipe".
