(* ===== verification/Fifo.v ===== *)
(** Pipes are queues: [pipewrite] appends the bytes of the writer's memory and
    [piperead] takes them from the front, into the reader's memory.

    A state is taken apart into the rest of user memory [u], the CPU, the
    process table and the pipe. *)

From stdpp Require Import gmap.
From S2P Require Import Prelude Params Spinlock Kalloc Vm PageTable Uvm AddressSpace Sched Ring Umem Pipe.
Local Open Scope kernel_scope.

(** * The queue in a [struct pipe] *)

Definition pq (p : pipe) : list Z := ring PIPESIZE (2 ^ 32) (pi_data p) (pi_nread p) (pi_nwrite p).

Record pipe_ok (p : pipe) : Prop := {
  po_len : Z.of_nat (length (pi_data p)) = PIPESIZE;
  po_bytes : Forall is_byte (pi_data p);
  po_read : 0 <= pi_nread p < 2 ^ 32;
  po_write : 0 <= pi_nwrite p < 2 ^ 32;
  po_used : used (2 ^ 32) (pi_nread p) (pi_nwrite p) <= PIPESIZE;
}.

(** One byte more, one byte less. *)
Definition push1 (p : pipe) (x : Z) : pipe :=
  set_nwrite (u32 (pi_nwrite p + 1)) (set_pidata (<[Z.to_nat (pi_nwrite p mod PIPESIZE) := x]> (pi_data p)) p).
Definition pop1 (p : pipe) : pipe := set_nread (u32 (pi_nread p + 1)) p.
Definition pushes (p : pipe) (l : list Z) : pipe := foldl push1 p l.
Definition pops (p : pipe) (k : nat) : pipe := Nat.iter k pop1 p.

Lemma size_divides : (PIPESIZE | 2 ^ 32).
Proof. by exists 8388608. Qed.

Lemma pq_length p : pipe_ok p -> Z.of_nat (length (pq p)) = used (2 ^ 32) (pi_nread p) (pi_nwrite p).
Proof. intros Hp. unfold pq. rewrite length_ring. pose proof (used_range (2 ^ 32) ltac:(lia) (pi_nread p) (pi_nwrite p)). lia. Qed.

Lemma push1_spec p x :
  pipe_ok p -> is_byte x -> Z.of_nat (length (pq p)) < PIPESIZE -> pipe_ok (push1 p x) /\ pq (push1 p x) = pq p ++ [x].
Proof.
  intros Hp Hx Hl. rewrite pq_length in Hl by done. pose proof Hp as [H1 H2 H3 H4 H5]. unfold PIPESIZE in *.
  pose proof (used_push (2 ^ 32) ltac:(lia) (pi_nread p) (pi_nwrite p) ltac:(lia)) as Hu.
  split; [split; cbn; unfold u32|].
  - by rewrite length_insert.
  - by apply Forall_insert.
  - done.
  - apply Z.mod_pos_bound. lia.
  - rewrite Hu. unfold PIPESIZE. lia.
  - unfold pq. cbn. unfold u32. apply ring_push; unfold PIPESIZE; first [apply size_divides|done|lia].
Qed.

Lemma pop1_spec p :
  pipe_ok p -> pq p <> [] ->
  pipe_ok (pop1 p) /\ pq p = (pi_data p !!! Z.to_nat (pi_nread p mod PIPESIZE)) :: pq (pop1 p).
Proof.
  intros Hp Hq. assert (0 < Z.of_nat (length (pq p))) as Hl by (destruct (pq p); [done|cbn; lia]).
  rewrite pq_length in Hl by done. pose proof Hp as [H1 H2 H3 H4 H5].
  pose proof (used_pop (2 ^ 32) ltac:(lia) (pi_nread p) (pi_nwrite p) ltac:(lia)) as Hu.
  split; [split; cbn; unfold u32; try done|].
  - apply Z.mod_pos_bound. lia.
  - rewrite Hu. unfold PIPESIZE in *. lia.
  - unfold pq. cbn. unfold u32. apply ring_pop; first [apply size_divides|done|lia].
Qed.

Lemma full_test p : pipe_ok p -> (pi_nwrite p =? u32 (pi_nread p + PIPESIZE)) = (Z.of_nat (length (pq p)) =? PIPESIZE).
Proof. intros Hp. rewrite pq_length by done. apply used_eq; first [done|apply Hp]. Qed.
Lemma empty_test p : pipe_ok p -> (pi_nread p =? pi_nwrite p) = bool_decide (pq p = []).
Proof.
  intros Hp. rewrite (used_zero (2 ^ 32)) by (lia || apply Hp). rewrite <- pq_length by done.
  by destruct (pq p).
Qed.

Lemma pushes_spec l : forall p,
  pipe_ok p -> Forall is_byte l -> Z.of_nat (length (pq p) + length l) <= PIPESIZE ->
  pipe_ok (pushes p l) /\ pq (pushes p l) = pq p ++ l.
Proof.
  induction l as [|x l IH]; intros p Hp Hl Hlen; cbn [pushes foldl]; [by rewrite app_nil_r|].
  apply Forall_cons in Hl as [Hx Hl]. cbn [length] in Hlen.
  destruct (push1_spec p x) as [Hp1 Hq1]; [done|done|lia|].
  destruct (IH (push1 p x)) as [Hp2 Hq2]; [done|done|rewrite Hq1, length_app; cbn; lia|].
  split; [done|]. fold (pushes (push1 p x) l). rewrite Hq2, Hq1, <- app_assoc. done.
Qed.

Lemma pushes_snoc p l x : pushes p (l ++ [x]) = push1 (pushes p l) x.
Proof. apply foldl_snoc. Qed.

Lemma pops_spec k : forall p, pipe_ok p -> (k <= length (pq p))%nat -> pipe_ok (pops p k) /\ pq (pops p k) = drop k (pq p).
Proof.
  induction k as [|k IH]; intros p Hp Hk; [done|]. change (pops p (S k)) with (pop1 (pops p k)).
  destruct (IH p Hp ltac:(lia)) as [H1 H2].
  destruct (pop1_spec (pops p k) H1) as [H3 H4].
  { rewrite H2. intros E%(f_equal length). rewrite length_drop in E. cbn in E. lia. }
  split; [done|]. rewrite H2 in H4. replace (drop (S k) (pq p)) with (drop 1 (drop k (pq p))).
  - by rewrite H4.
  - rewrite drop_drop. f_equal. lia.
Qed.

(** * States *)

Definition st (u : ust) (c : cpu) (v : vec proc NPROC) (p : pipe) : pst := Pst (put procsL v (put cpuL c u)) p.
Definition umem (u : ust) : memory := km_mem (us_km u).

Lemma st_self s : st (ps_u s) (view cpuL s) (view procsL s) (ps_pipe s) = s.
Proof. by destruct s as [[[] []] ?]. Qed.

Section Ops.
Implicit Types (u : ust) (c : cpu) (v : vec proc NPROC) (p : pipe).

Lemma acquire_st u c v p :
  lk_locked (pi_lock p) = 0 ->
  acquire pipe_lock (st u c v p) = Ok tt (st u (push c) v (set_pilock (taken (c_id c) (pi_lock p)) p)).
Proof. intros H. by rewrite (acquire_run pipe_lock). Qed.
Lemma release_st u c v p :
  holding_b (pi_lock p) (c_id c) = true -> c_sie c = false -> 1 <= c_noff c ->
  release pipe_lock (st u c v p) = Ok tt (st u (pop c) v (set_pilock (freed (pi_lock p)) p)).
Proof. intros H1 H2 H3. by rewrite (release_run pipe_lock). Qed.
Lemma myprocp_st {j} u c v p me :
  cpu_room j c -> c_proc c = Some me -> myprocp (st u c v p) = Ok me (st u (settle c) v p).
Proof. intros Hc Hp. unfold myprocp. erewrite bind_ok by (by eapply myproc_run). change (view cpuL _) with c. by rewrite Hp. Qed.
Lemma wakeup_st {j} u c v p chan :
  cpu_room j c -> (forall i, Some i <> c_proc c -> idle (p_lock (v !!! i))) ->
  wakeup chan (st u c v p) = Ok tt (st u (settle c) (wake_all chan (c_proc c) v) p).
Proof. intros Hc Hl. by rewrite (wakeup_run (k:=j)). Qed.
Lemma getp_st u c v p i : getp i (st u c v p) = Ok (v !!! i) (st u c v p).
Proof. done. Qed.
Lemma copyin_st kend u c v p root T va n :
  KERNBASE <= kend -> pt_inv kend (umem u) root T -> 0 <= va -> 0 <= n < 2 ^ 64 ->
  zoom ps_uL (vm (copyin root va n)) (st u c v p) =
    Ok (let r := uread T (umem u) va (Z.to_nat n) in (if fst r then 0 else -1, snd r)) (st u c v p).
Proof.
  intros Hk Hi Hva Hn. unfold zoom, vm, zoom. rewrite (copyin_eq kend Hk _ root T) by done. done.
Qed.
End Ops.

(** * Reading user memory a byte at a time *)

Lemma uread_lookup T m n : forall va i,
  (i < n)%nat -> (i <= length (snd (uread T m va n)))%nat -> ubyte T m (va + Z.of_nat i) = snd (uread T m va n) !! i.
Proof.
  induction n as [|n IH]; intros va i Hi Hl; [lia|]. cbn [uread] in *.
  destruct (ubyte T m va) as [b|] eqn:E.
  - destruct i as [|i]; [by rewrite Z.add_0_r, E|]. cbn in Hl |- *. rewrite <- IH by lia. f_equal. lia.
  - cbn in Hl. replace i with 0%nat by lia. by rewrite Z.add_0_r, E.
Qed.

Lemma uread_length T m n : forall va, (length (snd (uread T m va n)) <= n)%nat.
Proof. induction n as [|n IH]; intros va; cbn; [lia|]. destruct (ubyte T m va); cbn; [|lia]. specialize (IH (va + 1)). lia. Qed.

Lemma uread_bytes T m n : forall va, Forall is_byte (snd (uread T m va n)).
Proof.
  induction n as [|n IH]; intros va; cbn; [done|]. destruct (ubyte T m va) as [b|] eqn:E; cbn; [|done].
  constructor; [|apply IH]. unfold ubyte in E. destruct (uaddr T m va =? 0); [done|]. injection E as <-. apply u8_range.
Qed.

Lemma ubyte_max T m va b : ubyte T m va = Some b -> va < MAXVA.
Proof. unfold ubyte, uaddr. destruct (Z.ltb_spec va MAXVA); [done|]. cbn. done. Qed.

(** The address of the next byte does not wrap. *)
Lemma next_small T m va n i :
  0 <= va < 2 ^ 64 -> (i < n)%nat -> (i <= length (snd (uread T m va n)))%nat -> u64 (va + Z.of_nat i) = va + Z.of_nat i.
Proof.
  intros Hva Hi Hl. apply u64_small. destruct i as [|i]; [lia|].
  destruct (lookup_lt_is_Some_2 (snd (uread T m va n)) i) as [b Hb]; [lia|].
  rewrite <- uread_lookup in Hb by lia. apply ubyte_max in Hb. unfold MAXVA in Hb. lia.
Qed.

(** * Writing *)

Section Write.
Variables (kend pi : Z) (u : ust) (root : Z) (T : ptree) (c : cpu) (v : vec proc NPROC) (me : fin NPROC).
Hypothesis kend_pos : KERNBASE <= kend.
Hypothesis space : pt_inv kend (umem u) root T.
Hypothesis mine : p_pagetable (v !!! me) = root.
Hypothesis alive : p_killed (v !!! me) = 0.

Lemma pushes_open p l : pi_readopen (pushes p l) = pi_readopen p /\ pi_lock (pushes p l) = pi_lock p.
Proof. revert p. induction l as [|x l IH]; intros p; [done|]. exact (IH (push1 p x)). Qed.

(** A round with room in the pipe. *)
Lemma pipewrite_step_run p addr n i :
  pipe_ok p -> pi_readopen p <> 0 -> Z.of_nat (length (pq p)) < PIPESIZE ->
  0 <= i < n -> 0 <= addr -> u64 (addr + i) = addr + i ->
  pipewrite_step pi me addr n i (st u c v p) =
    match ubyte T (umem u) (addr + i) with
    | Some b => Ok (inl (i + 1)) (st u c v (push1 p b))
    | None => Ok (inr (Some i)) (st u c v p)
    end.
Proof.
  intros Hp Hopen Hroom Hi Ha Hu. unfold pipewrite_step.
  destruct (Z.ltb_spec i n); [|lia]. cbn [negb]. erewrite bind_ok by done. erewrite bind_ok by apply getp_st.
  change (ps_pipe _) with p. rewrite alive. destruct (Z.eqb_spec (pi_readopen p) 0); [done|]. cbn [orb nz negb Z.eqb].
  rewrite full_test by done. destruct (Z.eqb_spec (Z.of_nat (length (pq p))) PIPESIZE); [lia|].
  rewrite mine, Hu. erewrite bind_ok by (apply (copyin_st kend); [done|exact space|lia|lia]).
  change (Z.to_nat 1) with 1%nat. cbn [uread]. by destruct (ubyte T (umem u) (addr + i)).
Qed.

Lemma pipewrite_loop p addr n :
  let bytes := snd (uread T (umem u) addr n) in
  pipe_ok p -> pi_readopen p <> 0 -> 0 <= addr < 2 ^ 64 -> Z.of_nat (length (pq p) + n) <= PIPESIZE ->
  loop (pipewrite_step pi me addr (Z.of_nat n)) 0 (st u c v p) =
    Ok (Some (Z.of_nat (length bytes))) (st u c v (pushes p bytes)).
Proof.
  intros bytes Hp Hopen Ha Hroom. pose proof (uread_length T (umem u) n addr) as Hbl. fold bytes in Hbl.
  apply (loop_rule _ (fun k i s => exists j, i = Z.of_nat j /\ (j + k = n)%nat /\ (j <= length bytes)%nat /\
                         s = st u c v (pushes p (take j bytes)))
    (fun o => o = Ok (Some (Z.of_nat (length bytes))) (st u c v (pushes p bytes)))) with (n := n).
  2:{ exists 0%nat. split_and!; [done|lia|lia|done]. }
  2:{ unfold PIPESIZE in Hroom. lia. }
  intros k i s (j & -> & Hk & Hj & ->).
  destruct (pushes_spec (take j bytes) p) as [Hpj Hqj]; [done|apply Forall_take, uread_bytes|rewrite length_take; lia|].
  destruct (pushes_open p (take j bytes)) as [Ho _].
  assert (Z.of_nat (length (pq (pushes p (take j bytes)))) = Z.of_nat (length (pq p) + j)) as Hlen.
  { rewrite Hqj, length_app, length_take. lia. }
  destruct (decide (j < n)%nat) as [Hjn|Hjn].
  - pose proof (next_small T (umem u) addr n j Ha Hjn Hj) as Hu.
    pose proof (uread_lookup T (umem u) n addr j Hjn Hj) as Hb. fold bytes in Hb.
    rewrite pipewrite_step_run by (done || congruence || lia). rewrite Hb. destruct (bytes !! j) as [b|] eqn:E.
    + apply lookup_lt_Some in E as Hlt. exists (k - 1)%nat. split; [lia|]. exists (S j). split_and!; [lia..|].
      rewrite (take_S_r bytes j b E), pushes_snoc. done.
    + apply lookup_ge_None in E. replace j with (length bytes) by lia. by rewrite take_ge by lia.
  - unfold pipewrite_step. destruct (Z.ltb_spec (Z.of_nat j) (Z.of_nat n)); [lia|]. cbn [negb].
    unfold ret. replace (length bytes) with j by lia. by rewrite take_ge by lia.
Qed.
End Write.

(** A process in the kernel, and a pipe nobody is using. *)
Record pready (s : pst) (me : fin NPROC) : Prop := {
  pr_cpu : cpu_room 20 (view cpuL s);
  pr_me : c_proc (view cpuL s) = Some me;
  pr_alive : p_killed (view procsL s !!! me) = 0;
  pr_idle i : i <> me -> idle (p_lock (view procsL s !!! i));
  pr_lock : idle (pi_lock (ps_pipe s));
  pr_pipe : pipe_ok (ps_pipe s);
}.

Lemma pushes_lock k l : forall p, pushes (set_pilock k p) l = set_pilock k (pushes p l).
Proof. induction l as [|x l IH]; intros p; [done|]. exact (IH (push1 p x)). Qed.
Lemma pops_lock k j p : pops (set_pilock k p) j = set_pilock k (pops p j).
Proof. induction j as [|j IH]; [done|]. change (pop1 (pops (set_pilock k p) j) = set_pilock k (pop1 (pops p j))). by rewrite IH. Qed.
Lemma set_pilock_twice k k' p : set_pilock k (set_pilock k' p) = set_pilock k p.
Proof. done. Qed.
Lemma set_pilock_same p : set_pilock (pi_lock p) p = p.
Proof. by destruct p. Qed.

(** The end of [pipewrite] and [piperead]. *)
Lemma finish_st (chan : kobj) (i : Z) u c v p k me :
  cpu_room 20 c -> c_proc c = Some me -> (forall i, i <> me -> idle (p_lock (v !!! i))) -> idle k -> pi_lock p = k ->
  (wakeup chan ;; release pipe_lock ;; ret i) (st u (push (settle c)) v (set_pilock (taken (c_id (settle c)) k) p)) =
    Ok i (st u (settle c) (wake_all chan (Some me) v) p).
Proof.
  intros H1 H2 H4 [Hw Ho] <-. erewrite bind_ok.
  2:{ eapply wakeup_st; [by eauto with kernel|]. cbn [c_proc push]. rewrite settle_proc, H2. intros j Hne. apply H4. congruence. }
  rewrite settle_push by eauto with kernel. cbn [c_proc push]. rewrite settle_proc, H2.
  erewrite bind_ok.
  2:{ apply release_st; [apply holding_taken|done|]. eapply push_noff; eauto with kernel. }
  rewrite pop_push by eauto with kernel. rewrite settle_idem, set_pilock_twice. cbn [pi_lock set_pilock].
  rewrite freed_taken by done. by rewrite set_pilock_same.
Qed.

Lemma pready_after s me u v p chan :
  pready s me -> v = wake_all chan (Some me) (view procsL s) -> pi_lock p = pi_lock (ps_pipe s) -> pipe_ok p ->
  pready (st u (settle (view cpuL s)) v p) me.
Proof.
  intros [H1 H2 H3 H4 H5 H6] -> Hl Hp.
  assert (forall i, woken chan (Some me) i (view procsL s !!! i) = view procsL s !!! i \/
    woken chan (Some me) i (view procsL s !!! i) = set_pstate RUNNABLE (view procsL s !!! i)) as Hw.
  { intros i. unfold woken. destruct (_ && _); auto. }
  split; change (view cpuL (st _ ?c _ _)) with c; change (view procsL (st _ _ ?v _)) with v; change (ps_pipe (st _ _ _ ?p)) with p;
    unfold wake_all.
  - by apply settle_ok.
  - by rewrite settle_proc.
  - rewrite lookup_fun_to_vec. by destruct (Hw me) as [-> | ->].
  - intros i Hi. rewrite lookup_fun_to_vec. destruct (Hw i) as [-> | ->]; by apply H4.
  - by rewrite Hl.
  - done.
Qed.

(** C34: [pipewrite] appends to the pipe's queue. With the read end open, the
    process not killed and room for [n] bytes, it returns, without sleeping, the
    number of bytes it could read from the user's memory at [addr] — all [n], or
    those before the first address the user may not read — and appends exactly
    these to the queue; user memory is unchanged, readers waiting for data are
    runnable, and no lock is held. *)
Theorem pipewrite_correct (kend pi : Z) (s : pst) (me : fin NPROC) (T : ptree) (addr : Z) (n : nat) :
  KERNBASE <= kend -> pready s me ->
  pt_inv kend (umem (ps_u s)) (p_pagetable (view procsL s !!! me)) T ->
  pi_readopen (ps_pipe s) <> 0 -> 0 <= addr < 2 ^ 64 ->
  Z.of_nat (length (pq (ps_pipe s)) + n) <= PIPESIZE ->
  let bytes := snd (uread T (umem (ps_u s)) addr n) in
  exists s', pipewrite pi addr (Z.of_nat n) s = Ok (Z.of_nat (length bytes)) s' /\
    pq (ps_pipe s') = pq (ps_pipe s) ++ bytes /\
    umem (ps_u s') = umem (ps_u s) /\
    view procsL s' = wake_all (KPipeRead pi) (Some me) (view procsL s) /\ pready s' me.
Proof.
  intros Hk Hr Hi Hopen Ha Hroom bytes. pose proof Hr as [H1 H2 H3 H4 [Hw Ho] H6].
  assert (s = st (ps_u s) (view cpuL s) (view procsL s) (ps_pipe s)) as Es by (symmetry; apply st_self).
  set (c := view cpuL s) in *. set (v := view procsL s) in *. set (p := ps_pipe s) in *. set (u := ps_u s) in *.
  set (p1 := set_pilock (taken (c_id (settle c)) (pi_lock p)) p).
  assert (pipe_ok p1) as Hp1 by (destruct H6; by split).
  destruct (pushes_spec bytes p) as [Hpok Hpq]; [done|apply uread_bytes| |].
  { pose proof (uread_length T (umem u) n addr) as Hbl. fold bytes in Hbl. lia. }
  exists (st u (settle c) (wake_all (KPipeRead pi) (Some me) v) (pushes p bytes)). split_and!.
  - rewrite Es at 1. unfold pipewrite. erewrite bind_ok by (by eapply myprocp_st).
    erewrite bind_ok by (by apply acquire_st). fold p1.
    erewrite bind_ok by (by apply (pipewrite_loop kend pi u (p_pagetable (v !!! me)))). fold bytes.
    cbv beta iota. unfold p1. rewrite pushes_lock.
    apply finish_st; [done|done|done|split; [done..|]|apply pushes_open]. done.
  - exact Hpq.
  - done.
  - done.
  - apply (pready_after s me u _ _ (KPipeRead pi)); [done|done|apply pushes_open|done].
Qed.

(** * Reading *)

Definition with_mem (m : memory) (u : ust) : ust := Ust (set_mem m (us_km u)) (us_ptab u).
Definition kmc (c : cpu) (u : ust) : kmst := put cpuL c (us_km u).

Lemma uaddr_out kend s root T l D m va :
  uspace kend s root T l D -> (forall x, ~ in_frames D x -> m x = km_mem s x) -> uaddr T m va = uaddr T (km_mem s) va.
Proof. intros Hu Hm. unfold uaddr. by rewrite (proj2 (uspace_write kend s root T l D m Hu Hm)). Qed.

(** [copyout] of one byte. *)
Lemma copyout_one kend u c v p root T l D va b :
  KERNBASE <= kend -> uspace kend (kmc c u) root T l D -> 0 <= va ->
  let ok := bool_decide (is_Some (ubyte T (umem u) va)) in
  exists m, zoom ps_uL (vm (copyout root va [b] 1)) (st u c v p) = Ok (if ok then 0 else -1) (st (with_mem m u) c v p) /\
    written kend (kmc c u) root T l D va [b] (if ok then 1 else 0) (set_mem m (kmc c u)).
Proof.
  intros Hk Hu Hva ok.
  destruct (wp_run _ _ _ (copyout_spec kend Hk (kmc c u) root T l D va [b] 1 Hu Hva ltac:(lia) ltac:(cbn; lia)))
    as (r & s' & E & k & Hw & Hr). pose proof Hw as (_ & [m ->] & Hm & Hb).
  assert (r = (if ok then 0 else -1) /\ k = (if ok then 1 else 0)) as [-> ->].
  { unfold ok. destruct Hr as [[-> ->]|(-> & Hk0 & Hn)].
    - rewrite bool_decide_true; [done|]. specialize (Hb va Hva). revert Hb.
      destruct (Z.leb_spec va va), (Z.ltb_spec va (va + 1)); try lia. cbn [andb]. unfold ubyte.
      rewrite (uaddr_out kend (kmc c u) root T l D) by done. change (km_mem (kmc c u)) with (umem u).
      destruct (_ =? 0); [done|]. by eexists.
    - replace k with 0 in * by lia. rewrite Z.add_0_r in Hn. change (km_mem (kmc c u)) with (umem u) in Hn. rewrite Hn. done. }
  exists m. split; [|done]. unfold zoom, vm, zoom. change (view us_kmL (view ps_uL (st u c v p))) with (kmc c u).
  by rewrite E.
Qed.

Section Read.
Variables (kend pi : Z) (u : ust) (root : Z) (T : ptree) (l : list Z) (D : gmap Z Z)
  (c : cpu) (v : vec proc NPROC) (me : fin NPROC).
Hypothesis kend_pos : KERNBASE <= kend.
Hypothesis space : uspace kend (kmc c u) root T l D.
Hypothesis mine : p_pagetable (v !!! me) = root.
Hypothesis alive : p_killed (v !!! me) = 0.

(** After [j] bytes of the queue [q] have been copied to [addr]. *)
Definition copied (addr : Z) (q : list Z) (j : nat) (u' : ust) : Prop :=
  exists m, u' = with_mem m u /\ written kend (kmc c u) root T l D addr q (Z.of_nat j) (set_mem m (kmc c u)).

Lemma copied_other addr q j u' va :
  copied addr q j u' -> 0 <= va -> addr + Z.of_nat j <= va -> ubyte T (umem u') va = ubyte T (umem u) va.
Proof.
  intros (m & -> & _ & _ & _ & H) Hva Hge. specialize (H va Hva). cbn in H |- *. rewrite H.
  destruct (Z.ltb_spec va (addr + Z.of_nat j)); [lia|]. by rewrite andb_false_r.
Qed.

(** A round with data in the pipe: the byte is taken, and stored if the user may
    write there. *)
Lemma piperead_step_run p addr n q j u' :
  pipe_ok p -> 0 <= addr -> Z.of_nat j < n -> u64 (addr + Z.of_nat j) = addr + Z.of_nat j ->
  pq p <> [] -> pq p = drop j q -> copied addr q j u' ->
  exists u2, piperead_step me addr n (Z.of_nat j) (st u' c v p) =
    (if bool_decide (is_Some (ubyte T (umem u) (addr + Z.of_nat j)))
     then Ok (inl (Z.of_nat (S j))) (st u2 c v (pop1 p))
     else Ok (inr (Z.of_nat j)) (st u2 c v (pop1 p))) /\
    copied addr q (if bool_decide (is_Some (ubyte T (umem u) (addr + Z.of_nat j))) then S j else j) u2.
Proof.
  intros Hp Ha Hj Hu64 Hne Hq Hc. pose proof Hc as (m & -> & Hw). pose proof Hw as (Hu1 & _).
  destruct (pop1_spec p Hp Hne) as [_ Hhd]. set (ch := pi_data p !!! _) in *.
  destruct (copyout_one kend (with_mem m u) c v (pop1 p) root T l D (addr + Z.of_nat j) ch kend_pos Hu1 ltac:(lia))
    as (m2 & E & Hw2). rewrite (copied_other addr q j _ _ Hc) in E, Hw2 by lia.
  set (ok := bool_decide _) in *.
  exists (with_mem m2 u). split.
  - unfold piperead_step. destruct (Z.ltb_spec (Z.of_nat j) n); [|lia]. cbn [negb]. erewrite bind_ok by done.
    change (ps_pipe (st _ _ _ ?p)) with p. rewrite empty_test by done. rewrite bool_decide_false by done. fold ch.
    erewrite bind_ok by done. erewrite bind_ok by apply getp_st. rewrite mine, Hu64.
    erewrite bind_ok by exact E. destruct ok; [|done]. cbn. unfold ret. repeat f_equal. lia.
  - exists m2. split; [done|]. destruct Hw2 as (_ & _ & Hout & Hb).
    set (bytes := if ok then [ch] else []).
    replace (Z.of_nat (if ok then S j else j)) with (Z.of_nat j + Z.of_nat (length bytes)) by (unfold bytes; destruct ok; cbn; lia).
    apply (written_more kend (kmc c u) root T l D addr q (Z.of_nat j) (set_mem m (kmc c u)) bytes m2); [done|lia|done| |exact Hout|].
    + rewrite Nat2Z.id, <- Hq, Hhd. unfold bytes. by destruct ok.
    + intros va Hva. cbn in Hb |- *. rewrite Hb by done. unfold bytes. destruct ok; [done|]. change (Z.of_nat (length [])) with 0.
      destruct (Z.leb_spec (addr + Z.of_nat j) va), (Z.ltb_spec va (addr + Z.of_nat j + 0)); try lia; done.
Qed.

Lemma pops_open p j : pi_lock (pops p j) = pi_lock p.
Proof. induction j as [|j IH]; [done|]. exact IH. Qed.

(** What has been taken from the queue when [k] of [m] bytes could be stored. *)
Definition gone (k m : nat) : nat := Nat.min m (k + 1).

Lemma piperead_loop p addr n :
  let q := pq p in
  let m := Nat.min n (length q) in
  let k := length (snd (uread T (umem u) addr m)) in
  pipe_ok p -> 0 <= addr < 2 ^ 64 ->
  wp (loop (piperead_step me addr (Z.of_nat n)) 0)
    (fun r s' => r = Z.of_nat k /\ exists u', s' = st u' c v (pops p (gone k m)) /\ copied addr q k u') (st u c v p).
Proof.
  intros q m k Hp Ha. pose proof (uread_length T (umem u) m addr) as Hkm. fold k in Hkm.
  assert (m <= length q /\ (m = n \/ m = length q))%nat as [Hmq Hmn] by lia.
  apply (wp_loop _ (fun f i s => exists j u', i = Z.of_nat j /\ (j + f = m)%nat /\ (j <= k)%nat /\
                      s = st u' c v (pops p j) /\ copied addr q j u')) with (n := m).
  2:{ exists 0%nat, u. split_and!; [done|lia|lia|done|].
      exists (umem u). split; [by destruct u as [[] ?]|]. split_and!; [done|by exists (umem u)|done|].
      intros va Hva. destruct (Z.leb_spec addr va), (Z.ltb_spec va (addr + Z.of_nat 0)); cbn; lia || done. }
  2:{ pose proof (po_used p Hp) as Hus. rewrite <- pq_length in Hus by done. fold q in Hus. unfold PIPESIZE in Hus. lia. }
  intros f i s (j & u' & -> & Hf & Hj & -> & Hc).
  destruct (pops_spec j p Hp ltac:(fold q; lia)) as [Hpj Hqj]. fold q in Hqj.
  destruct (decide (j < m)%nat) as [Hjm|Hjm].
  - assert (pq (pops p j) <> []) as Hne.
    { rewrite Hqj. intros E%(f_equal length). rewrite length_drop in E. cbn in E. lia. }
    destruct (piperead_step_run (pops p j) addr (Z.of_nat n) q j u') as (u2 & E & Hc2); try done; try lia.
    { by apply (next_small T (umem u) addr m j). }
    rewrite (uread_lookup T (umem u) m addr j) in E, Hc2 by (done || lia).
    unfold wp. rewrite E. destruct (decide (j < k)%nat) as [Hjk|Hjk].
    + rewrite bool_decide_true in Hc2 |- * by (apply lookup_lt_is_Some_2; lia).
      exists (f - 1)%nat. split; [lia|]. exists (S j), u2. split_and!; [done|lia|lia|done|done].
    + rewrite bool_decide_false in Hc2 |- * by (rewrite lookup_lt_is_Some; lia).
      replace j with k in * by lia. split; [done|]. exists u2. split; [|done].
      f_equal. change (pop1 (pops p k)) with (pops p (S k)). f_equal. unfold gone. lia.
  - unfold wp, piperead_step. assert (j = k /\ j = m) as [-> Ekm] by lia.
    assert (gone k m = k) as Hg by (unfold gone; lia). rewrite Hg.
    assert (forall X : Z, X = Z.of_nat k -> X = Z.of_nat k /\ exists u0, st u' c v (pops p k) = st u0 c v (pops p k) /\ copied addr q k u0)
      as Hend by (intros X ->; split; [done|by exists u']).
    destruct (Z.ltb_spec (Z.of_nat k) (Z.of_nat n)) as [Hlt|]; cbn [negb]; [|by apply Hend].
    erewrite bind_ok by done. change (ps_pipe (st _ _ _ ?p)) with p. rewrite empty_test, Hqj by done.
    rewrite bool_decide_true; [by apply Hend|]. apply drop_ge. lia.
Qed.
End Read.

(** C35: [piperead] takes from the front of the pipe's queue. With data in the
    pipe, or its write end closed, it returns without sleeping the number [k] of
    bytes stored at [addr] in the reader's memory: as many as were asked for and
    are there, or those before the first address the user may not access. The
    [k] bytes are the first of the queue in order, no other byte that the user
    sees and none outside the user's frames changes, they leave the queue (with,
    when the copy failed, the byte that could not be stored), writers waiting for
    room are runnable, and no lock is held. *)
Theorem piperead_correct (kend pi : Z) (s : pst) (me : fin NPROC) (T : ptree) (l : list Z) (D : gmap Z Z) (addr : Z) (n : nat) :
  KERNBASE <= kend -> pready s me ->
  uspace kend (us_km (ps_u s)) (p_pagetable (view procsL s !!! me)) T l D ->
  pq (ps_pipe s) <> [] \/ pi_writeopen (ps_pipe s) = 0 -> 0 <= addr < 2 ^ 64 ->
  let q := pq (ps_pipe s) in
  let m := Nat.min n (length q) in
  let k := length (snd (uread T (umem (ps_u s)) addr m)) in
  wp (piperead pi addr (Z.of_nat n)) (fun r s' =>
    r = Z.of_nat k /\ pq (ps_pipe s') = drop (gone k m) q /\
    (forall va, 0 <= va -> ubyte T (umem (ps_u s')) va =
       if (addr <=? va) && (va <? addr + Z.of_nat k) then Some (u8 (q !!! Z.to_nat (va - addr)))
       else ubyte T (umem (ps_u s)) va) /\
    (forall x, ~ in_frames D x -> umem (ps_u s') x = umem (ps_u s) x) /\
    view procsL s' = wake_all (KPipeWrite pi) (Some me) (view procsL s) /\ pready s' me) s.
Proof.
  intros Hk Hr Hu Hdata Ha q m k. pose proof Hr as [H1 H2 H3 H4 H5 H6].
  assert (s = st (ps_u s) (view cpuL s) (view procsL s) (ps_pipe s)) as Es by (symmetry; apply st_self).
  set (c := view cpuL s) in *. set (v := view procsL s) in *. set (p := ps_pipe s) in *. set (u := ps_u s) in *.
  set (p1 := set_pilock (taken (c_id (settle c)) (pi_lock p)) p).
  assert (pipe_ok p1) as Hp1 by (destruct H6; by split).
  rewrite Es. unfold piperead. apply wp_bind. eapply wp_ok; [by eapply myprocp_st|].
  apply wp_bind. eapply wp_ok; [apply acquire_st, H5|]. fold p1.
  apply wp_bind. eapply wp_ok.
  { apply loop_once with (b := true). unfold piperead_wait. erewrite bind_ok by done. change (ps_pipe _) with p1.
    rewrite empty_test by done. destruct Hdata as [Hne|Hcl].
    - rewrite bool_decide_false by done. done.
    - change (pi_writeopen p1) with (pi_writeopen p). rewrite Hcl. by rewrite andb_false_r. }
  cbn [negb]. apply wp_bind. eapply wp_mono.
  { apply (piperead_loop kend u (p_pagetable (v !!! me)) T l D (push (settle c)) v me); try done.
    apply uspace_cpu; [done|]. apply (room_le 16 19); [lia|]. auto with kernel. }
  intros r s' (-> & u' & -> & Hc). change (pq p1) with q. fold m k. unfold p1. rewrite pops_lock.
  eapply wp_ok; [by apply (finish_st (KPipeWrite pi) _ u' c v (pops p (gone k m)) (pi_lock p) me); [..|apply pops_open]|].
  destruct (pops_spec (gone k m) p H6) as [Hpok Hpq]; [fold q; unfold gone; lia|].
  destruct Hc as (mm & -> & Hw). destruct Hw as (_ & _ & Hout & Hb). split_and!; [done|exact Hpq|exact Hb|exact Hout|done|].
  apply (pready_after s me _ _ _ (KPipeWrite pi)); [done|done|apply pops_open|done].
Qed.

(** * A pipe with three bytes, and the process 0 *)

Module Demo.
Definition lk : spinlock := Spinlock 0 "pipe" None.
Definition pr : proc :=
  Proc lk RUNNING None 0 0 1 None 0 0 Boot.root 0 (Context 0 0 []) (vreplicate NOFILE None) None []
    (vreplicate 16 (Vma 0 0 0 0 None 0 0 0)).
Definition pp : pipe := Pipe lk ([5; 6; 7] ++ replicate 509 0) 0 3 1 1.
Definition sys (k : kmst) : pst :=
  Pst (Ust (put cpuL (Cpu 0 true (Some 0%fin) 0 true) k) (Ptab (vreplicate NPROC pr) None 1 lk lk)) pp.

Lemma procs k i : view procsL (sys k) !!! i = pr.
Proof. apply vlookup_replicate. Qed.
Lemma pp_ok : pipe_ok pp.
Proof.
  split; [reflexivity| |unfold pp; cbn; lia..|unfold PIPESIZE; vm_compute; done].
  unfold pp. cbn [pi_data]. apply Forall_app. split; [repeat constructor; done|]. by apply Forall_replicate.
Qed.
Lemma ready k : pready (sys k) 0%fin.
Proof.
  split; [unfold cpu_room; cbn; lia|reflexivity|exact (f_equal p_killed (procs k 0%fin))| |by split|apply pp_ok].
  intros i _. rewrite procs. by split.
Qed.
Lemma pp_q : pq pp = [5; 6; 7].
Proof. reflexivity. Qed.
End Demo.

Lemma pipewrite_correct_witness : exists s s', pipewrite 0 10 2 s = Ok 2 s' /\ pq (ps_pipe s') = [5; 6; 7; 0; 0].
Proof.
  destruct boot_user as (k & T & l & D & Hu & Hb). exists (Demo.sys k).
  pose proof (vmi_pt _ _ _ _ _ (us_vm _ _ _ _ _ _ Hu)) as Hp.
  destruct (pipewrite_correct Boot.kend 0 (Demo.sys k) 0%fin T 10 2 Boot.boot_kend_pos (Demo.ready k)) as (s' & E & Hq & _).
  - rewrite Demo.procs. exact Hp.
  - discriminate.
  - lia.
  - change (ps_pipe (Demo.sys k)) with Demo.pp. rewrite Demo.pp_q. unfold PIPESIZE. cbn. lia.
  - change (umem (ps_u (Demo.sys k))) with (km_mem k) in E, Hq. change (ps_pipe (Demo.sys k)) with Demo.pp in Hq.
    rewrite Demo.pp_q in Hq. cbn [uread] in E, Hq. rewrite Hb in E, Hq by lia. rewrite Hb in E, Hq by lia.
    exists s'. exact (conj E Hq).
Defined.

Lemma piperead_correct_witness :
  exists s, wp (piperead 0 10 2) (fun r s' => r = 2 /\ pq (ps_pipe s') = [7]) s.
Proof.
  destruct boot_user as (k & T & l & D & Hu & Hb). exists (Demo.sys k).
  eapply wp_mono.
  - apply (piperead_correct Boot.kend 0 (Demo.sys k) 0%fin T l D 10 2 Boot.boot_kend_pos (Demo.ready k)).
    + rewrite Demo.procs. apply uspace_cpu; [exact Hu|]. by apply room_zero.
    + left. change (ps_pipe (Demo.sys k)) with Demo.pp. rewrite Demo.pp_q. discriminate.
    + lia.
  - intros r s' (-> & Hq & _). change (umem (ps_u (Demo.sys k))) with (km_mem k) in *.
    change (ps_pipe (Demo.sys k)) with Demo.pp in *. rewrite Demo.pp_q in *. cbn [uread length Nat.min] in *.
    rewrite Hb in Hq |- * by lia. rewrite Hb in Hq |- * by lia. exact (conj eq_refl Hq).
Defined.
