(* ===== verification/Virtio.v ===== *)
(** The disk driver: [src/kernel/virtio_disk.c].

    The rings and descriptors in [disk.pages] that driver and device share are
    typed here: a descriptor's [addr] is one of the objects the driver points it
    at. The device is outside of the program: [vd_regs] gives what its registers
    read as, [vd_mmio] lists the writes to them, each with the value of
    [disk.avail->idx] at that moment (the fences of the driver order the two),
    and the entries of the used ring are what it puts there. Descriptor numbers are indices of the [NUM]
    descriptors; a number from memory outside of them is a fault. *)

From S2P Require Import Prelude Params Spinlock Sched Sleeplock Bio.
Local Open Scope kernel_scope.

(** * Data *)

Definition NUM : nat := 8.
Abbreviation descp := (fin NUM).

Definition VIRTIO_MMIO_MAGIC_VALUE : Z := 0.
Definition VIRTIO_MMIO_VERSION : Z := 4.
Definition VIRTIO_MMIO_DEVICE_ID : Z := 8.
Definition VIRTIO_MMIO_VENDOR_ID : Z := 12.
Definition VIRTIO_MMIO_DEVICE_FEATURES : Z := 16.
Definition VIRTIO_MMIO_DRIVER_FEATURES : Z := 32.
Definition VIRTIO_MMIO_GUEST_PAGE_SIZE : Z := 40.
Definition VIRTIO_MMIO_QUEUE_SEL : Z := 48.
Definition VIRTIO_MMIO_QUEUE_NUM_MAX : Z := 52.
Definition VIRTIO_MMIO_QUEUE_NUM : Z := 56.
Definition VIRTIO_MMIO_QUEUE_PFN : Z := 64.
Definition VIRTIO_MMIO_QUEUE_NOTIFY : Z := 80.
Definition VIRTIO_MMIO_INTERRUPT_STATUS : Z := 96.
Definition VIRTIO_MMIO_INTERRUPT_ACK : Z := 100.
Definition VIRTIO_MMIO_STATUS : Z := 112.
Definition VIRTIO_CONFIG_S_ACKNOWLEDGE : Z := 1.
Definition VIRTIO_CONFIG_S_DRIVER : Z := 2.
Definition VIRTIO_CONFIG_S_DRIVER_OK : Z := 4.
Definition VIRTIO_CONFIG_S_FEATURES_OK : Z := 8.
Definition VIRTIO_BLK_F_RO : Z := 5.
Definition VIRTIO_BLK_F_SCSI : Z := 7.
Definition VIRTIO_BLK_F_CONFIG_WCE : Z := 11.
Definition VIRTIO_BLK_F_MQ : Z := 12.
Definition VIRTIO_F_ANY_LAYOUT : Z := 27.
Definition VIRTIO_RING_F_INDIRECT_DESC : Z := 28.
Definition VIRTIO_RING_F_EVENT_IDX : Z := 29.
Definition VRING_DESC_F_NEXT : Z := 1.
Definition VRING_DESC_F_WRITE : Z := 2.
Definition VIRTIO_BLK_T_IN : Z := 0.
Definition VIRTIO_BLK_T_OUT : Z := 1.

(** What a descriptor points at. *)
Inductive daddr : Type :=
| DNull
| DOp (i : descp)          (* disk.ops[i] *)
| DData (b : bufp)         (* b->data *)
| DStatus (i : descp).     (* disk.info[i].status *)

(** [struct virtq_desc] *)
Record vdesc : Type := Vdesc { vd_addr : daddr; vd_len : Z; vd_flags : Z; vd_next : Z }.
(** [struct virtio_blk_req] *)
Record blk_req : Type := BlkReq { br_type : Z; br_reserved : Z; br_sector : Z }.

(** [struct disk], with the rings, and the device. *)
Record vdisk : Type := Vdisk {
  v_desc : vec vdesc NUM;
  v_avail_idx : Z;
  v_avail_ring : vec Z NUM;
  v_used_idx_dev : Z;               (* disk.used->idx *)
  v_used_ring : vec Z NUM;          (* disk.used->ring[].id *)
  v_free : vec Z NUM;
  v_used_idx : Z;                   (* disk.used_idx *)
  v_info_b : vec (option bufp) NUM;
  v_info_status : vec Z NUM;
  v_ops : vec blk_req NUM;
  v_lock : spinlock;
  vd_regs : Z -> Z;
  vd_mmio : list (Z * Z * Z);
}.
Definition set_desc x (v : vdisk) : vdisk :=
  Vdisk x (v_avail_idx v) (v_avail_ring v) (v_used_idx_dev v) (v_used_ring v) (v_free v) (v_used_idx v) (v_info_b v)
    (v_info_status v) (v_ops v) (v_lock v) (vd_regs v) (vd_mmio v).
Definition set_avail_idx x (v : vdisk) : vdisk :=
  Vdisk (v_desc v) x (v_avail_ring v) (v_used_idx_dev v) (v_used_ring v) (v_free v) (v_used_idx v) (v_info_b v)
    (v_info_status v) (v_ops v) (v_lock v) (vd_regs v) (vd_mmio v).
Definition set_avail_ring x (v : vdisk) : vdisk :=
  Vdisk (v_desc v) (v_avail_idx v) x (v_used_idx_dev v) (v_used_ring v) (v_free v) (v_used_idx v) (v_info_b v)
    (v_info_status v) (v_ops v) (v_lock v) (vd_regs v) (vd_mmio v).
Definition set_free x (v : vdisk) : vdisk :=
  Vdisk (v_desc v) (v_avail_idx v) (v_avail_ring v) (v_used_idx_dev v) (v_used_ring v) x (v_used_idx v) (v_info_b v)
    (v_info_status v) (v_ops v) (v_lock v) (vd_regs v) (vd_mmio v).
Definition set_used_idx x (v : vdisk) : vdisk :=
  Vdisk (v_desc v) (v_avail_idx v) (v_avail_ring v) (v_used_idx_dev v) (v_used_ring v) (v_free v) x (v_info_b v)
    (v_info_status v) (v_ops v) (v_lock v) (vd_regs v) (vd_mmio v).
Definition set_info_b x (v : vdisk) : vdisk :=
  Vdisk (v_desc v) (v_avail_idx v) (v_avail_ring v) (v_used_idx_dev v) (v_used_ring v) (v_free v) (v_used_idx v) x
    (v_info_status v) (v_ops v) (v_lock v) (vd_regs v) (vd_mmio v).
Definition set_info_status x (v : vdisk) : vdisk :=
  Vdisk (v_desc v) (v_avail_idx v) (v_avail_ring v) (v_used_idx_dev v) (v_used_ring v) (v_free v) (v_used_idx v) (v_info_b v)
    x (v_ops v) (v_lock v) (vd_regs v) (vd_mmio v).
Definition set_ops x (v : vdisk) : vdisk :=
  Vdisk (v_desc v) (v_avail_idx v) (v_avail_ring v) (v_used_idx_dev v) (v_used_ring v) (v_free v) (v_used_idx v) (v_info_b v)
    (v_info_status v) x (v_lock v) (vd_regs v) (vd_mmio v).
Definition set_vlock x (v : vdisk) : vdisk :=
  Vdisk (v_desc v) (v_avail_idx v) (v_avail_ring v) (v_used_idx_dev v) (v_used_ring v) (v_free v) (v_used_idx v) (v_info_b v)
    (v_info_status v) (v_ops v) x (vd_regs v) (vd_mmio v).
Definition set_mmio x (v : vdisk) : vdisk :=
  Vdisk (v_desc v) (v_avail_idx v) (v_avail_ring v) (v_used_idx_dev v) (v_used_ring v) (v_free v) (v_used_idx v) (v_info_b v)
    (v_info_status v) (v_ops v) (v_lock v) (vd_regs v) x.

Record vst : Type := Vst { vs_b : bst; vs_v : vdisk }.
Definition vs_bL : lens vst bst := Lens vs_b (fun b s => Vst b (vs_v s)).
Definition vdiskL : lens vst vdisk := Lens vs_v (fun v s => Vst (vs_b s) v).
Definition v_lockL : lens vdisk spinlock := Lens v_lock set_vlock.
Definition vdisk_lock : lens vst spinlock := lens_comp vdiskL v_lockL.
#[export] Instance vst_cpu : HasCpu vst := lens_comp vs_bL (cpuL (S:=bst)).
#[export] Instance vst_ptab : HasPtab vst := lens_comp vs_bL (ptabL (S:=bst)).
#[export] Instance vs_bL_ok : LensOk vs_bL.
Proof. solve_lens. Qed.
#[export] Instance vdiskL_ok : LensOk vdiskL.
Proof. solve_lens. Qed.
#[export] Instance v_lockL_ok : LensOk v_lockL.
Proof. solve_lens. Qed.
#[export] Instance vdisk_lock_ok : LensOk vdisk_lock.
Proof. unfold vdisk_lock. apply _. Qed.
#[export] Instance vst_cpu_ok : LensOk (cpuL (S:=vst)).
Proof. apply (lens_comp_ok vs_bL (cpuL (S:=bst))); apply _. Qed.
#[export] Instance vst_ptab_ok : LensOk (ptabL (S:=vst)).
Proof. apply (lens_comp_ok vs_bL (ptabL (S:=bst))); apply _. Qed.
#[export] Instance vst_cpu_ptab : LensDisj (cpuL (S:=vst)) ptabL.
Proof. solve_lens. Qed.
#[export] Instance vst_cpu_vdisk : LensDisj (cpuL (S:=vst)) vdisk_lock.
Proof. solve_lens. Qed.

Definition getv : M vst vdisk := gets vs_v.
Definition updv (f : vdisk -> vdisk) : M vst unit := upd vdiskL f.
Definition updd (i : descp) (d : vdesc -> vdesc) : M vst unit :=
  updv (fun v => set_desc (vinsert i (d (v_desc v !!! i)) (v_desc v)) v).

(** [*R(r)] *)
Definition rd (r : Z) : M vst Z := v <- getv ;; ret (vd_regs v r).
Definition wr (r x : Z) : M vst unit := updv (fun v => set_mmio (vd_mmio v ++ [(r, u32 x, v_avail_idx v)]) v).

(** A descriptor number found in memory. *)
Definition descp_of (i : Z) : option descp := if i <? 0 then None else indices NUM !! Z.to_nat i.

(** * Initialisation *)

Definition clear_bit (n x : Z) : Z := Z.land x (Z.lnot (Z.shiftl 1 n)).

(** The features the driver declines. *)
Definition negotiate (features : Z) : Z :=
  clear_bit VIRTIO_RING_F_INDIRECT_DESC (clear_bit VIRTIO_RING_F_EVENT_IDX (clear_bit VIRTIO_F_ANY_LAYOUT
    (clear_bit VIRTIO_BLK_F_MQ (clear_bit VIRTIO_BLK_F_CONFIG_WCE (clear_bit VIRTIO_BLK_F_SCSI
      (clear_bit VIRTIO_BLK_F_RO features)))))).

Definition desc0 : vdesc := Vdesc DNull 0 0 0.

(** [pages] is the address of [disk.pages]; zeroing it clears the rings. *)
Definition virtio_disk_init (pages : Z) : M vst unit :=
  initlock vdisk_lock "virtio_disk" ;;
  magic <- rd VIRTIO_MMIO_MAGIC_VALUE ;;
  version <- rd VIRTIO_MMIO_VERSION ;;
  device <- rd VIRTIO_MMIO_DEVICE_ID ;;
  vendor <- rd VIRTIO_MMIO_VENDOR_ID ;;
  if negb (magic =? 1953655158) || negb (version =? 1) || negb (device =? 2) || negb (vendor =? 1431127377)
  then panic "could not find virtio disk" else
  let status := VIRTIO_CONFIG_S_ACKNOWLEDGE in
  wr VIRTIO_MMIO_STATUS status ;;
  let status := Z.lor status VIRTIO_CONFIG_S_DRIVER in
  wr VIRTIO_MMIO_STATUS status ;;
  features <- rd VIRTIO_MMIO_DEVICE_FEATURES ;;
  wr VIRTIO_MMIO_DRIVER_FEATURES (negotiate features) ;;
  let status := Z.lor status VIRTIO_CONFIG_S_FEATURES_OK in
  wr VIRTIO_MMIO_STATUS status ;;
  let status := Z.lor status VIRTIO_CONFIG_S_DRIVER_OK in
  wr VIRTIO_MMIO_STATUS status ;;
  wr VIRTIO_MMIO_GUEST_PAGE_SIZE PGSIZE ;;
  wr VIRTIO_MMIO_QUEUE_SEL 0 ;;
  max <- rd VIRTIO_MMIO_QUEUE_NUM_MAX ;;
  if max =? 0 then panic "virtio disk has no queue 0" else
  if max <? Z.of_nat NUM then panic "virtio disk max queue too short" else
  wr VIRTIO_MMIO_QUEUE_NUM (Z.of_nat NUM) ;;
  updv (set_desc (vreplicate NUM desc0)) ;;
  updv (set_avail_idx 0) ;;
  updv (set_avail_ring (vreplicate NUM 0)) ;;
  updv (fun v => Vdisk (v_desc v) (v_avail_idx v) (v_avail_ring v) 0 (vreplicate NUM 0) (v_free v) (v_used_idx v)
    (v_info_b v) (v_info_status v) (v_ops v) (v_lock v) (vd_regs v) (vd_mmio v)) ;;
  wr VIRTIO_MMIO_QUEUE_PFN (Z.shiftr pages PGSHIFT) ;;
  forM (indices NUM) (fun i => updv (fun v => set_free (vinsert i 1 (v_free v)) v)).

(** * Descriptors *)

Definition alloc_desc : M vst (option descp) :=
  forM_find (indices NUM) (fun i =>
    v <- getv ;;
    if nz (v_free v !!! i) then
      updv (fun v => set_free (vinsert i 0 (v_free v)) v) ;;
      ret (Some i)
    else ret None).

Definition free_desc (i : Z) : M vst unit :=
  if Z.of_nat NUM <=? i then panic "free_desc 1" else
  match descp_of i with
  | None => fault "disk.free"
  | Some i =>
      v <- getv ;;
      if nz (v_free v !!! i) then panic "free_desc 2" else
      updd i (fun d => Vdesc DNull (vd_len d) (vd_flags d) (vd_next d)) ;;
      updd i (fun d => Vdesc (vd_addr d) 0 (vd_flags d) (vd_next d)) ;;
      updd i (fun d => Vdesc (vd_addr d) (vd_len d) 0 (vd_next d)) ;;
      updd i (fun d => Vdesc (vd_addr d) (vd_len d) (vd_flags d) 0) ;;
      updv (fun v => set_free (vinsert i 1 (v_free v)) v) ;;
      wakeup KDiskFree
  end.

Definition free_chain_step (i : Z) : M vst (Z + unit) :=
  match descp_of i with
  | None => fault "disk.desc"
  | Some k =>
      v <- getv ;;
      let flag := vd_flags (v_desc v !!! k) in
      let nxt := vd_next (v_desc v !!! k) in
      free_desc i ;;
      if nz (Z.land flag VRING_DESC_F_NEXT) then ret (inl nxt) else ret (inr tt)
  end.
Definition free_chain (i : Z) : M vst unit := loop free_chain_step i.

Definition idx_of (i : descp) : Z := Z.of_nat (fin_to_nat i).

(** Three descriptors, or none. *)
Definition alloc3_desc : M vst (option (descp * descp * descp)) :=
  i0 <- alloc_desc ;;
  match i0 with
  | None => ret None
  | Some i0 =>
      i1 <- alloc_desc ;;
      match i1 with
      | None => free_desc (idx_of i0) ;; ret None
      | Some i1 =>
          i2 <- alloc_desc ;;
          match i2 with
          | None => free_desc (idx_of i0) ;; free_desc (idx_of i1) ;; ret None
          | Some i2 => ret (Some (i0, i1, i2))
          end
      end
  end.

(** * Requests *)

Section Rw.
Context `{HasSwtch vst}.

Definition alloc3_try (_ : unit) : M vst (unit + descp * descp * descp) :=
  r <- alloc3_desc ;;
  match r with
  | Some idx => ret (inr idx)
  | None => sleep KDiskFree vdisk_lock ;; ret (inl tt)
  end.

(** The descriptors of a request for [b], and its entry in the available ring. *)
Definition virtio_submit (b : bufp) (write : bool) (idx : descp * descp * descp) : M vst unit :=
  let '(i0, i1, i2) := idx in
  x <- zoom vs_bL (getb b) ;;
  let sector := u32 (b_blockno x * (BSIZE / 512)) in
  updv (fun v => set_ops (vinsert i0 (BlkReq (if write then VIRTIO_BLK_T_OUT else VIRTIO_BLK_T_IN) 0 sector) (v_ops v)) v) ;;
  updd i0 (fun _ => Vdesc (DOp i0) 16 VRING_DESC_F_NEXT (idx_of i1)) ;;
  updd i1 (fun _ => Vdesc (DData b) BSIZE
    (Z.lor (if write then 0 else VRING_DESC_F_WRITE) VRING_DESC_F_NEXT) (idx_of i2)) ;;
  updv (fun v => set_info_status (vinsert i0 255 (v_info_status v)) v) ;;
  updd i2 (fun _ => Vdesc (DStatus i0) 1 VRING_DESC_F_WRITE 0) ;;
  zoom vs_bL (updb b (fun x =>
    Buf (b_valid x) 1 (b_dev x) (b_blockno x) (b_lock x) (b_refcnt x) (b_prev x) (b_next x) (b_data x))) ;;
  updv (fun v => set_info_b (vinsert i0 (Some b) (v_info_b v)) v) ;;
  v <- getv ;;
  match descp_of (v_avail_idx v mod Z.of_nat NUM) with
  | None => fault "avail->ring"
  | Some k => updv (fun v => set_avail_ring (vinsert k (idx_of i0) (v_avail_ring v)) v)
  end ;;
  updv (fun v => set_avail_idx (u16 (v_avail_idx v + 1)) v) ;;
  wr VIRTIO_MMIO_QUEUE_NOTIFY 0.

Definition virtio_wait (b : bufp) (_ : unit) : M vst (unit + unit) :=
  x <- zoom vs_bL (getb b) ;;
  if b_disk x =? 1 then
    sleep (KBuf (fin_to_nat b)) vdisk_lock ;;
    ret (inl tt)
  else ret (inr tt).

Definition virtio_disk_rw (b : bufp) (write : bool) : M vst unit :=
  acquire vdisk_lock ;;
  idx <- loop alloc3_try tt ;;
  virtio_submit b write idx ;;
  loop (virtio_wait b) tt ;;
  let '(i0, _, _) := idx in
  updv (fun v => set_info_b (vinsert i0 None (v_info_b v)) v) ;;
  free_chain (idx_of i0) ;;
  release vdisk_lock.

(** One completed request. *)
Definition virtio_intr_step (_ : unit) : M vst (unit + unit) :=
  v <- getv ;;
  if v_used_idx v =? v_used_idx_dev v then ret (inr tt) else
  match descp_of (v_used_idx v mod Z.of_nat NUM) with
  | None => fault "used->ring"
  | Some k =>
      match descp_of (v_used_ring v !!! k) with
      | None => fault "disk.info"
      | Some id =>
          if nz (v_info_status v !!! id) then panic "virtio_disk_intr status" else
          match v_info_b v !!! id with
          | None => fault "disk.info.b"
          | Some b =>
              zoom vs_bL (updb b (fun x =>
                Buf (b_valid x) 0 (b_dev x) (b_blockno x) (b_lock x) (b_refcnt x) (b_prev x) (b_next x) (b_data x))) ;;
              wakeup (KBuf (fin_to_nat b)) ;;
              updv (fun v => set_used_idx (u16 (v_used_idx v + 1)) v) ;;
              ret (inl tt)
          end
      end
  end.
Definition virtio_disk_intr : M vst unit :=
  acquire vdisk_lock ;;
  st <- rd VIRTIO_MMIO_INTERRUPT_STATUS ;;
  wr VIRTIO_MMIO_INTERRUPT_ACK (Z.land st 3) ;;
  loop virtio_intr_step tt ;;
  release vdisk_lock.
End Rw.
