(* ===== verification/Device.v ===== *)
(** The driver and the device together: a call of [virtio_disk_rw] of
    [src/kernel/virtio_disk.c] transfers one block, as the cache of
    [src/kernel/bio.c] takes it to do.

    The device is a parameter; [serves] is what the virtio specification says
    about it for a request of the form the driver makes: notified of a new entry
    of the available ring, it carries the request out, or fails to, and reports
    which in the status byte. While the process that asked sleeps, the device
    does this, raises its interrupt, and [virtio_disk_intr] runs. *)

From S2P Require Import Prelude Params Spinlock Sched Blocking Sleeplock Bio Virtio.
Local Open Scope kernel_scope.

#[export] Instance vst_ptab_vdisk : LensDisj (ptabL (S:=vst)) vdisk_lock.
Proof. solve_lens. Qed.

(** A state with the CPU, the processes, the buffers, the disk and the driver. *)
Definition vs (c : cpu) (v : vec proc NPROC) (B : vec buf (S NBUF)) (d : disk) (w : vdisk) (s : vst) : vst :=
  Vst (Bst c (put pt_procL v (bs_ptab (vs_b s))) (bs_lock (vs_b s)) B d) w.

Lemma vs_self s : vs (view cpuL s) (view procsL s) (bs_buf (vs_b s)) (bs_disk (vs_b s)) (vs_v s) s = s.
Proof. by destruct s as [[? [] ? ? ?] ?]. Qed.

(** * The device *)

Definition set_bdisk (x : Z) (b : buf) : buf :=
  Buf (b_valid b) x (b_dev b) (b_blockno b) (b_lock b) (b_refcnt b) (b_prev b) (b_next b) (b_data b).

(** The slot of a 16-bit ring index. *)
Definition slot (x : Z) : descp := default 0%fin (descp_of (x mod Z.of_nat NUM)).

(** The chain of descriptors headed by [i0]: the request, the data of the buffer
    [b], the status byte. *)
Record chain (w : vdisk) (i0 i1 i2 : descp) (b : bufp) : Prop := {
  ch_type : br_type (v_ops w !!! i0) = VIRTIO_BLK_T_IN \/ br_type (v_ops w !!! i0) = VIRTIO_BLK_T_OUT;
  ch_op : v_desc w !!! i0 = Vdesc (DOp i0) 16 VRING_DESC_F_NEXT (idx_of i1);
  ch_data : v_desc w !!! i1 =
    Vdesc (DData b) BSIZE
      (Z.lor (if br_type (v_ops w !!! i0) =? VIRTIO_BLK_T_OUT then 0 else VRING_DESC_F_WRITE) VRING_DESC_F_NEXT) (idx_of i2);
  ch_status : v_desc w !!! i2 = Vdesc (DStatus i0) 1 VRING_DESC_F_WRITE 0;
}.

(** The used ring with the entry [i] more, and the status [st] of the request. *)
Definition completed (st : Z) (i : descp) (w : vdisk) : vdisk :=
  Vdisk (v_desc w) (v_avail_idx w) (v_avail_ring w) (u16 (v_used_idx_dev w + 1))
    (vinsert (slot (v_used_idx_dev w)) (idx_of i) (v_used_ring w)) (v_free w) (v_used_idx w) (v_info_b w)
    (vinsert i st (v_info_status w)) (v_ops w) (v_lock w) (vd_regs w) (vd_mmio w).

(** The transfer: of 1024 bytes from the sector on, two sectors to a block. *)
Definition transfer (op : blk_req) (b : bufp) (B : vec buf (S NBUF)) (d : disk) : vec buf (S NBUF) * disk :=
  if br_type op =? VIRTIO_BLK_T_OUT then (B, dwrite d (br_sector op / 2) (b_data (B !!! b)))
  else (vinsert b (set_bdata (dread d (br_sector op / 2)) (B !!! b)) B, d).

(** The device has served all requests and the driver has taken all it has put in
    the used ring. *)
Definition drained (w : vdisk) : Prop :=
  0 <= v_used_idx w < 2 ^ 16 /\ v_used_idx_dev w = v_used_idx w /\ v_avail_idx w = v_used_idx w.

(** The last access to a register told the device to look at queue 0, when the
    available ring's index was what it is now. *)
Definition notified (w : vdisk) : Prop :=
  last (vd_mmio w) = Some (VIRTIO_MMIO_QUEUE_NOTIFY, 0, v_avail_idx w).

(** One entry of the available ring, the request [i0], is to be served. *)
Record pending (w : vdisk) (i0 : descp) : Prop := {
  pe_idx : v_avail_idx w = u16 (v_used_idx_dev w + 1);
  pe_ring : v_avail_ring w !!! slot (v_used_idx_dev w) = idx_of i0;
  pe_notified : notified w;
}.

(** The status of a request: done, an error of the device, or not supported. *)
Definition VIRTIO_BLK_S_OK : Z := 0.
Definition VIRTIO_BLK_S_IOERR : Z := 1.
Definition VIRTIO_BLK_S_UNSUPP : Z := 2.

(** What the device does when it is notified of a request: it reports the status
    [status] gives; it has made the transfer if this is OK, and may have left
    anything in the buffer and on the disk otherwise. *)
Definition serves (dev : M vst unit) (status : blk_req -> Z) : Prop :=
  forall c v B d w s i0 i1 i2 b,
    pending w i0 -> chain w i0 i1 i2 b ->
    let st := status (v_ops w !!! i0) in
    (st = VIRTIO_BLK_S_OK \/ st = VIRTIO_BLK_S_IOERR \/ st = VIRTIO_BLK_S_UNSUPP) /\
    exists B' d', dev (vs c v B d w s) = Ok tt (vs c v B' d' (completed st i0 w) s) /\
      (st = VIRTIO_BLK_S_OK -> (B', d') = transfer (v_ops w !!! i0) b B d).

(** The switch of a process that waits for the disk: the rest of its round of the
    scheduler, the device, its interrupt, and the next round. *)
Definition while_served (dev : M vst unit) (me : fin NPROC) : HasSwtch vst :=
  sched_tail me true ;;
  dev ;;
  virtio_disk_intr ;;
  ran <- sched_head me ;;
  if ran : bool then ret tt else halt Swtch.

(** * The operations *)

Section Ops.
Implicit Types (c : cpu) (v : vec proc NPROC) (B : vec buf (S NBUF)) (d : disk) (w : vdisk) (s : vst).

Lemma acquire_vs c v B d w s :
  lk_locked (v_lock w) = 0 ->
  acquire vdisk_lock (vs c v B d w s) = Ok tt (vs (push c) v B d (set_vlock (taken (c_id c) (v_lock w)) w) s).
Proof. intros H. by rewrite (acquire_run vdisk_lock). Qed.
Lemma release_vs c v B d w s :
  holding_b (v_lock w) (c_id c) = true -> c_sie c = false -> 1 <= c_noff c ->
  release vdisk_lock (vs c v B d w s) = Ok tt (vs (pop c) v B d (set_vlock (freed (v_lock w)) w) s).
Proof. intros H1 H2 H3. by rewrite (release_run vdisk_lock). Qed.
Lemma wakeup_vs chan c v B d w s :
  cpu_ok c -> (forall i, Some i <> c_proc c -> idle (p_lock (v !!! i))) ->
  wakeup chan (vs c v B d w s) = Ok tt (vs (settle c) (wake_all chan (c_proc c) v) B d w s).
Proof. intros Hc Hl. by rewrite (wakeup_run (k:=16)). Qed.

(** ** Numbers of descriptors *)

Lemma descp_of_idx i : descp_of (idx_of i) = Some i.
Proof.
  unfold descp_of, idx_of. destruct (Z.ltb_spec (Z.of_nat (fin_to_nat i)) 0); [lia|]. rewrite Nat2Z.id. apply lookup_indices.
Qed.
Lemma descp_of_mod x : descp_of (x mod Z.of_nat NUM) = Some (slot x).
Proof.
  unfold slot. pose proof (Z.mod_pos_bound x (Z.of_nat NUM) ltac:(done)) as Hx. set (y := x mod _) in *.
  destruct (descp_of y) as [k|] eqn:E; [done|]. unfold descp_of in E. destruct (Z.ltb_spec y 0); [lia|].
  apply lookup_ge_None in E. change (length (indices NUM)) with 8%nat in E. unfold NUM in *. lia.
Qed.
Lemma idx_range i : 0 <= idx_of i < Z.of_nat NUM.
Proof. unfold idx_of. pose proof (fin_to_nat_lt i). lia. Qed.
(** ** Allocation *)

Definition is_free (w : vdisk) (i : descp) : Prop := nz (v_free w !!! i) = true.
#[export] Instance is_free_dec w i : Decision (is_free w i).
Proof. unfold is_free. apply _. Defined.
Definition free_descs (w : vdisk) : list descp := filter (is_free w) (indices NUM).
Definition take_desc (i : descp) (w : vdisk) : vdisk := set_free (vinsert i 0 (v_free w)) w.
Definition give_desc (i : descp) (w : vdisk) : vdisk :=
  set_free (vinsert i 1 (v_free w)) (set_desc (vinsert i desc0 (v_desc w)) w).

Lemma take_desc_filter i r l w :
  NoDup l -> filter (is_free w) l = i :: r -> filter (is_free (take_desc i w)) l = r.
Proof.
  intros Hd. assert (forall l' : list descp, i ∉ l' -> filter (is_free (take_desc i w)) l' = filter (is_free w) l') as Hout.
  { induction l' as [|j l' IH]; [done|]. intros [Hj Hi]%not_elem_of_cons. rewrite !filter_cons, IH by done.
    apply decide_ext. unfold is_free, take_desc. cbn. by rewrite vlookup_insert_ne. }
  induction l as [|x l IH]; [done|]. apply NoDup_cons in Hd as [Hx Hd]. rewrite !filter_cons.
  destruct (decide (is_free w x)) as [Hf|Hf].
  - intros [= -> E]. rewrite decide_False; [by rewrite Hout|]. unfold is_free, take_desc. cbn. by rewrite vlookup_insert.
  - intros E. rewrite decide_False; [by apply IH|]. unfold is_free, take_desc in Hf |- *. cbn.
    rewrite vlookup_insert_ne; [done|]. intros ->. apply Hf.
    assert (x ∈ filter (is_free w) l) as Hin by (rewrite E; by left). by apply list_elem_of_filter in Hin as [? _].
Qed.

Lemma alloc_desc_run c v B d w s i r :
  free_descs w = i :: r -> alloc_desc (vs c v B d w s) = Ok (Some i) (vs c v B d (take_desc i w) s).
Proof.
  unfold alloc_desc, free_descs. induction (indices NUM) as [|x l IH]; [done|]. rewrite filter_cons. cbn [forM_find].
  destruct (decide (is_free w x)) as [Hf|Hf].
  - intros [= -> _]. unfold is_free in Hf. unfold bind at 1. erewrite bind_ok by done. cbn [vs_v vs]. by rewrite Hf.
  - intros E. unfold is_free in Hf. apply not_true_is_false in Hf. erewrite bind_ok.
    2:{ erewrite bind_ok by done. cbn [vs_v vs]. rewrite Hf. reflexivity. }
    by apply IH.
Qed.

Lemma alloc3_desc_run c v B d w s i0 i1 i2 r :
  free_descs w = i0 :: i1 :: i2 :: r ->
  alloc3_desc (vs c v B d w s) =
    Ok (Some (i0, i1, i2)) (vs c v B d (take_desc i2 (take_desc i1 (take_desc i0 w))) s).
Proof.
  intros E. pose proof (take_desc_filter _ _ _ _ (NoDup_indices NUM) E) as E1.
  pose proof (take_desc_filter _ _ _ _ (NoDup_indices NUM) E1) as E2.
  unfold alloc3_desc. do 3 (erewrite bind_ok by (by eapply alloc_desc_run); cbv beta iota). done.
Qed.

Lemma free_desc_run c v B d w s i :
  ~ is_free w i -> cpu_ok c -> (forall i, Some i <> c_proc c -> idle (p_lock (v !!! i))) ->
  free_desc (idx_of i) (vs c v B d w s) =
    Ok tt (vs (settle c) (wake_all KDiskFree (c_proc c) v) B d (give_desc i w) s).
Proof.
  intros Hf Hc Hl. unfold is_free in Hf. apply not_true_is_false in Hf. unfold free_desc. pose proof (idx_range i).
  destruct (Z.leb_spec (Z.of_nat NUM) (idx_of i)); [lia|]. rewrite descp_of_idx. erewrite bind_ok by done.
  cbn [vs_v vs]. rewrite Hf. do 5 (erewrite bind_ok by done).
  rewrite <- (wakeup_vs KDiskFree c v B d (give_desc i w) s) by done. f_equal. unfold vs, give_desc, put, vdiskL. cbn.
  unfold set_desc, set_free. cbn. rewrite !vlookup_insert, !vinsert_twice. done.
Qed.
End Ops.

(** * A request *)

Section Request.
Implicit Types (c : cpu) (v : vec proc NPROC) (B : vec buf (S NBUF)) (d : disk) (w : vdisk) (s : vst).

Lemma getv_vs c v B d w s : getv (vs c v B d w s) = Ok w (vs c v B d w s).
Proof. done. Qed.
Lemma updv_vs f c v B d w s : updv f (vs c v B d w s) = Ok tt (vs c v B d (f w) s).
Proof. done. Qed.
Lemma updd_vs i f c v B d w s :
  updd i f (vs c v B d w s) = Ok tt (vs c v B d (set_desc (vinsert i (f (v_desc w !!! i)) (v_desc w)) w) s).
Proof. done. Qed.
Lemma getb_vs b c v B d w s : zoom vs_bL (getb b) (vs c v B d w s) = Ok (B !!! b) (vs c v B d w s).
Proof. done. Qed.
Lemma updb_vs b f c v B d w s :
  zoom vs_bL (updb b f) (vs c v B d w s) = Ok tt (vs c v (vinsert b (f (B !!! b)) B) d w s).
Proof. done. Qed.

(** The driver's state after [virtio_submit]. *)
Record submitted (w w' : vdisk) (i0 i1 i2 : descp) (b : bufp) (write : bool) (sector : Z) : Prop := {
  sm_chain : chain w' i0 i1 i2 b;
  sm_op : v_ops w' !!! i0 = BlkReq (if write then VIRTIO_BLK_T_OUT else VIRTIO_BLK_T_IN) 0 sector;
  sm_ring : v_avail_ring w' !!! slot (v_avail_idx w) = idx_of i0;
  sm_idx : v_avail_idx w' = u16 (v_avail_idx w + 1);
  sm_notify : notified w';
  sm_free : v_free w' = v_free w;
  sm_info : v_info_b w' = vinsert i0 (Some b) (v_info_b w);
  sm_used : v_used_idx w' = v_used_idx w /\ v_used_idx_dev w' = v_used_idx_dev w;
  sm_lock : v_lock w' = v_lock w;
}.

Ltac vstep H := erewrite bind_ok by apply H; cbn [set_desc set_ops set_info_status set_info_b set_avail_ring set_avail_idx
  set_mmio v_desc v_avail_idx v_avail_ring v_used_idx_dev v_used_ring v_free v_used_idx v_info_b v_info_status v_ops v_lock
  vd_regs vd_mmio].

Lemma virtio_submit_run c v B d w s b write i0 i1 i2 :
  i0 <> i1 -> i0 <> i2 -> i1 <> i2 ->
  exists w', virtio_submit b write (i0, i1, i2) (vs c v B d w s) =
      Ok tt (vs c v (vinsert b (set_bdisk 1 (B !!! b)) B) d w' s) /\
    submitted w w' i0 i1 i2 b write (u32 (b_blockno (B !!! b) * 2)).
Proof.
  intros H01 H02 H12. destruct w as [ds ai ar ui ur fr uu ib st op lk rg mm]. unfold virtio_submit.
  vstep getb_vs. vstep updv_vs. vstep updd_vs. vstep updd_vs. vstep updv_vs. vstep updd_vs. vstep updb_vs. vstep updv_vs.
  vstep getv_vs. rewrite descp_of_mod. vstep updv_vs. vstep updv_vs.
  eexists. split; [unfold wr; rewrite updv_vs; reflexivity|].
  split; cbn -[slot]; try done; [split; cbn -[slot]|..]; rewrite ?vlookup_insert; cbn -[slot]; try (by destruct write; auto).
  - rewrite !vlookup_insert_ne by done. by rewrite vlookup_insert.
  - rewrite vlookup_insert_ne, vlookup_insert by done. by destruct write.
  - unfold notified. cbn. by rewrite last_snoc.
Qed.

Lemma rd_vs r c v B d w s : rd r (vs c v B d w s) = Ok (vd_regs w r) (vs c v B d w s).
Proof. done. Qed.
Lemma wr_vs r x c v B d w s :
  wr r x (vs c v B d w s) = Ok tt (vs c v B d (set_mmio (vd_mmio w ++ [(r, u32 x, v_avail_idx w)]) w) s).
Proof. done. Qed.

(** One completion. *)
Lemma virtio_intr_step_run c v B d w s i0 b :
  cpu_ok c -> (forall i, Some i <> c_proc c -> idle (p_lock (v !!! i))) -> v_used_idx w <> v_used_idx_dev w ->
  v_used_ring w !!! slot (v_used_idx w) = idx_of i0 -> v_info_status w !!! i0 = 0 -> v_info_b w !!! i0 = Some b ->
  virtio_intr_step tt (vs c v B d w s) =
    Ok (inl tt) (vs (settle c) (wake_all (KBuf (fin_to_nat b)) (c_proc c) v) (vinsert b (set_bdisk 0 (B !!! b)) B) d
      (set_used_idx (u16 (v_used_idx w + 1)) w) s).
Proof.
  intros Hc Hp Hne Hr Hst Hb. unfold virtio_intr_step. erewrite bind_ok by apply getv_vs.
  apply Z.eqb_neq in Hne. rewrite Hne, descp_of_mod, Hr, descp_of_idx, Hst. cbn [nz negb Z.eqb]. rewrite Hb.
  erewrite bind_ok by apply updb_vs. erewrite bind_ok by (by apply wakeup_vs). erewrite bind_ok by apply updv_vs. done.
Qed.

(** The interrupt after the device has completed the request [i0] for [b]. *)
Lemma virtio_disk_intr_run id ie v B d w s i0 b :
  idle (v_lock w) -> (forall i, idle (p_lock (v !!! i))) ->
  v_used_idx w <> v_used_idx_dev w -> v_used_idx_dev w = u16 (v_used_idx w + 1) ->
  v_used_ring w !!! slot (v_used_idx w) = idx_of i0 -> v_info_status w !!! i0 = 0 -> v_info_b w !!! i0 = Some b ->
  let c := Cpu id ie None 0 ie in
  exists w', virtio_disk_intr (vs c v B d w s) =
      Ok tt (vs c (wake_all (KBuf (fin_to_nat b)) None v) (vinsert b (set_bdisk 0 (B !!! b)) B) d w' s) /\
    v_desc w' = v_desc w /\ v_free w' = v_free w /\ v_info_b w' = v_info_b w /\ v_lock w' = v_lock w /\
    v_used_idx w' = v_used_idx_dev w /\ v_used_idx_dev w' = v_used_idx_dev w /\ v_avail_idx w' = v_avail_idx w.
Proof.
  intros Hlk Hp Hne Hud Hr Hst Hb c. pose proof Hlk as [Hl Ho]. unfold virtio_disk_intr.
  erewrite bind_ok by (by apply acquire_vs). erewrite bind_ok by apply rd_vs. erewrite bind_ok by apply wr_vs.
  set (w1 := set_mmio _ _). set (w2 := set_used_idx (u16 (v_used_idx w1 + 1)) w1).
  erewrite bind_ok.
  2:{ apply (loop_rounds _ 2 _ _ tt (vs (push c) (wake_all (KBuf (fin_to_nat b)) None v) (vinsert b (set_bdisk 0 (B !!! b)) B) d w2 s)); [|lia].
      cbn [rounds]. erewrite bind_ok.
      2:{ apply (virtio_intr_step_run _ _ _ _ w1 _ i0 b); [by apply room_one|intros i _; apply Hp|done..]. }
      change (settle (push c)) with (push c). change (c_proc (push c)) with (@None (fin NPROC)). fold w2.
      cbv beta iota. rewrite (bind_ok _ _ _ (inr tt) (vs (push c) (wake_all (KBuf (fin_to_nat b)) None v) (vinsert b (set_bdisk 0 (B !!! b)) B) d w2 s)); [reflexivity|].
      unfold virtio_intr_step. erewrite bind_ok by apply getv_vs.
      assert (v_used_idx w2 = v_used_idx_dev w2) as -> by exact (eq_sym Hud). rewrite Z.eqb_refl. reflexivity. }
  exists (set_vlock (freed (v_lock w2)) w2). split.
  - rewrite release_vs; [rewrite (pop_push (k:=16)) by (by apply room_zero); reflexivity|apply holding_taken|done|done].
  - change (v_lock w2) with (taken (c_id c) (v_lock w)). rewrite freed_taken by done.
    split_and!; try reflexivity. exact (eq_sym Hud).
Qed.

(** The interrupt after the device has reported that the request failed. *)
Lemma virtio_disk_intr_bad id ie v B d w s i0 :
  idle (v_lock w) -> v_used_idx w <> v_used_idx_dev w ->
  v_used_ring w !!! slot (v_used_idx w) = idx_of i0 -> v_info_status w !!! i0 <> 0 ->
  exists s', virtio_disk_intr (vs (Cpu id ie None 0 ie) v B d w s) = Stop (Panic "virtio_disk_intr status") s'.
Proof.
  intros [Hl Ho] Hne Hr Hst. unfold virtio_disk_intr.
  erewrite bind_ok by (by apply acquire_vs). erewrite bind_ok by apply rd_vs. erewrite bind_ok by apply wr_vs.
  eexists. apply bind_stop, loop_stop. unfold virtio_intr_step. erewrite bind_ok by apply getv_vs.
  cbn [v_used_idx v_used_idx_dev v_used_ring v_info_status set_mmio set_vlock].
  apply Z.eqb_neq in Hne. apply nz_true in Hst. rewrite Hne, descp_of_mod, Hr, descp_of_idx, Hst. reflexivity.
Qed.
End Request.

(** * [virtio_disk_rw] *)

Section Whole.
Variables (dev : M vst unit) (status : blk_req -> Z).
Hypothesis dev_serves : serves dev status.
Variable me : fin NPROC.
#[local] Instance sw : HasSwtch vst := while_served dev me.
Implicit Types (B : vec buf (S NBUF)) (d : disk) (w : vdisk) (s : vst).

Lemma at3_vs c v k c0 v0 B d w s :
  at3 vdisk_lock c v k (vs c0 v0 B d w s) = vs c v B d (set_vlock k w) s.
Proof. done. Qed.

(** The driver waits for the request [i0] for the buffer [b]. *)
Record waiting (w : vdisk) (i0 i1 i2 : descp) (b : bufp) : Prop := {
  wt_chain : chain w i0 i1 i2 b;
  wt_pending : pending w i0;
  wt_info : v_info_b w !!! i0 = Some b;
  wt_used : 0 <= v_used_idx w < 2 ^ 16 /\ v_used_idx_dev w = v_used_idx w;
}.

Lemma waiting_lock k w i0 i1 i2 b : waiting w i0 i1 i2 b -> waiting (set_vlock k w) i0 i1 i2 b.
Proof. intros [[] [] ? ?]. by split; [split|split|..]. Qed.

(** The process as it went to sleep, and the others. *)
Record asleep_on (id : Z) (v : vec proc NPROC) (b : bufp) (p : proc) : Prop := {
  ao_others i : i <> me -> idle (p_lock (v !!! i));
  ao_idle : idle (p_lock p);
  ao_me : v !!! me = set_plock (taken id (p_lock p)) p;
  ao_state : p_state p = SLEEPING;
  ao_chan : p_chan p = Some (KBuf (fin_to_nat b));
}.

(** The switch up to the interrupt. *)
Lemma while_served_dev id ie v B d w s i0 i1 i2 b p :
  asleep_on id v b p -> waiting w i0 i1 i2 b ->
  exists B' d', sw (vs (in_section id (Some me) ie) v B d w s) =
      (virtio_disk_intr ;; ran <- sched_head me ;; if ran : bool then ret tt else halt Swtch)
        (vs (Cpu id ie None 0 ie) (vinsert me p v) B' d' (completed (status (v_ops w !!! i0)) i0 w) s) /\
    (status (v_ops w !!! i0) = VIRTIO_BLK_S_OK -> (B', d') = transfer (v_ops w !!! i0) b B d).
Proof.
  intros [Hv Hp Hme Hst Hch] [Hchain Hpe Hib Hu].
  destruct (dev_serves (Cpu id ie None 0 ie) (vinsert me p v) B d w s i0 i1 i2 b Hpe Hchain) as (_ & B' & d' & Hdev & Htr).
  exists B', d'. split; [|exact Htr].
  unfold sw, while_served. rewrite <- (at3_self vdisk_lock (vs _ _ _ _ _ _)) at 1.
  erewrite bind_ok by (by apply (sched_tail_run vdisk_lock id ie v _ _ me p)). rewrite at3_vs.
  change (set_vlock _ w) with (set_vlock (v_lock w) w). replace (set_vlock (v_lock w) w) with w by (by destruct w).
  by erewrite bind_ok by exact Hdev.
Qed.

(** The entry the device has put in the used ring. *)
Lemma completed_entry st w i0 i1 i2 b :
  waiting w i0 i1 i2 b ->
  let w1 := completed st i0 w in
  v_used_idx w1 <> v_used_idx_dev w1 /\ v_used_idx_dev w1 = u16 (v_used_idx w1 + 1) /\
  v_used_ring w1 !!! slot (v_used_idx w1) = idx_of i0 /\ v_info_status w1 !!! i0 = st /\ v_avail_idx w1 = v_used_idx_dev w1.
Proof.
  intros [_ [Hi _ _] _ [Hu Hud]] w1.
  change (v_used_idx_dev w1) with (u16 (v_used_idx_dev w + 1)). change (v_used_idx w1) with (v_used_idx w).
  change (v_avail_idx w1) with (v_avail_idx w). rewrite Hi, Hud. split_and!; [|done| |apply vlookup_insert|done].
  - unfold u16. intros E. destruct (decide (v_used_idx w + 1 = 2 ^ 16)) as [E1|E1].
    + rewrite E1 in E. change (2 ^ 16 mod 2 ^ 16) with 0 in E. lia.
    + rewrite Z.mod_small in E; lia.
  - change (vinsert (slot (v_used_idx_dev w)) (idx_of i0) (v_used_ring w) !!! slot (v_used_idx w) = idx_of i0).
    rewrite Hud. apply vlookup_insert.
Qed.

(** The switch: the request is served and its buffer marked done. *)
Lemma while_served_run id ie v B d w s i0 i1 i2 b p :
  idle (v_lock w) -> asleep_on id v b p -> waiting w i0 i1 i2 b -> status (v_ops w !!! i0) = VIRTIO_BLK_S_OK ->
  let '(B', d') := transfer (v_ops w !!! i0) b B d in
  exists w', sw (vs (in_section id (Some me) ie) v B d w s) =
      Ok tt (vs (in_section id (Some me) ie)
        (vinsert me (set_pstate RUNNING (set_plock (taken id (p_lock p)) p)) (wake_all (KBuf (fin_to_nat b)) None (vinsert me p v)))
        (vinsert b (set_bdisk 0 (B' !!! b)) B') d' w' s) /\
    v_desc w' = v_desc w /\ v_free w' = v_free w /\ drained w' /\ v_lock w' = v_lock w.
Proof.
  intros Hlk Ha Hw Hok. destruct (while_served_dev id ie v B d w s i0 i1 i2 b p Ha Hw) as (B' & d' & Hrun & Htr).
  rewrite <- Htr by exact Hok. rewrite Hrun, Hok. destruct Ha as [Hv Hp Hme Hst Hch].
  destruct (completed_entry VIRTIO_BLK_S_OK w i0 i1 i2 b Hw) as (E1 & E2 & E3 & E4 & E5). set (w1 := completed VIRTIO_BLK_S_OK i0 w) in *.
  destruct (virtio_disk_intr_run id ie (vinsert me p v) B' d' w1 s i0 b) as (w' & Hi & H1 & H2 & H3 & H4 & H5 & H6 & H7);
    [exact Hlk| |exact E1|exact E2|exact E3|exact E4|exact (wt_info _ _ _ _ _ Hw)|].
  { intros i. rewrite vlookup_vinsert. case_decide; [done|]. apply Hv. congruence. }
  assert (drained w') as Hdr.
  { unfold drained. rewrite H5, H6, H7, E5. split; [|done]. rewrite E2. apply Z.mod_pos_bound. lia. }
  exists w'. split; [|rewrite H1, H2, H4; exact (conj eq_refl (conj eq_refl (conj Hdr eq_refl)))].
  erewrite bind_ok by exact Hi.
  set (v1 := wake_all _ None _). assert (v1 !!! me = set_pstate RUNNABLE p) as Hv1.
  { unfold v1, wake_all. rewrite lookup_fun_to_vec, vlookup_insert. unfold woken. rewrite Hst, Hch.
    rewrite (bool_decide_eq_false_2 (Some me = None)), (bool_decide_eq_true_2 (SLEEPING = SLEEPING)) by done.
    by rewrite bool_decide_eq_true_2. }
  rewrite <- (at3_self vdisk_lock (vs _ v1 _ _ _ _)). erewrite bind_ok.
  2:{ rewrite (sched_head_run vdisk_lock id ie v1); [|rewrite Hv1; done]. rewrite Hv1, bool_decide_eq_true_2 by done. reflexivity. }
  rewrite at3_vs. change (set_vlock _ w') with (set_vlock (v_lock w') w').
  replace (set_vlock (v_lock w') w') with w' by (by destruct w'). by destruct p.
Qed.

Lemma while_served_bad id ie v B d w s i0 i1 i2 b p :
  idle (v_lock w) -> asleep_on id v b p -> waiting w i0 i1 i2 b -> status (v_ops w !!! i0) <> VIRTIO_BLK_S_OK ->
  exists s', sw (vs (in_section id (Some me) ie) v B d w s) = Stop (Panic "virtio_disk_intr status") s'.
Proof.
  intros Hlk Ha Hw Hbad. destruct (while_served_dev id ie v B d w s i0 i1 i2 b p Ha Hw) as (B' & d' & Hrun & _).
  destruct (completed_entry (status (v_ops w !!! i0)) w i0 i1 i2 b Hw) as (E1 & _ & E3 & E4 & _).
  destruct (virtio_disk_intr_bad id ie (vinsert me p v) B' d' (completed (status (v_ops w !!! i0)) i0 w) s i0) as (s' & Hi);
    [exact Hlk|exact E1|exact E3|by rewrite E4|].
  exists s'. rewrite Hrun. by apply bind_stop.
Qed.

(** The wait of the request, up to the switch. *)
Definition dozed (b : bufp) (v : vec proc NPROC) : proc :=
  set_pstate SLEEPING (set_pchan (Some (KBuf (fin_to_nat b))) (v !!! me)).

Lemma virtio_wait_down id ie v B d w s b k :
  v_lock w = taken id k -> idle k -> (forall i, idle (p_lock (v !!! i))) -> b_disk (B !!! b) = 1 ->
  let v1 := vinsert me (asleep id (KBuf (fin_to_nat b)) (v !!! me)) v in
  asleep_on id v1 b (dozed b v) /\
  virtio_wait b tt (vs (in_section id (Some me) ie) v B d w s) =
    ((sw ;; c <- mycpu ;; set_mycpu (set_intena ie c) ;;
      updp me (set_pchan None) ;; release (plockL me) ;; acquire vdisk_lock) ;; ret (inl tt))
      (vs (in_section id (Some me) ie) v1 B d (set_vlock k w) s).
Proof.
  intros Hlk Hk Hp Hb v1. split.
  - split; [|apply Hp|by unfold v1; rewrite vlookup_insert|done..].
    intros i Hi. unfold v1. rewrite vlookup_insert_ne by congruence. apply Hp.
  - unfold virtio_wait. erewrite bind_ok by apply getb_vs. rewrite Hb. change (1 =? 1) with true. cbv iota.
    rewrite <- (at3_self vdisk_lock (vs _ v _ _ _ _)). change (view vdisk_lock (vs _ _ _ _ _ _)) with (v_lock w). rewrite Hlk.
    unfold bind at 1 2. rewrite (sleep_down vdisk_lock sw _ id ie v k _ me) by (done || apply Hp).
    rewrite at3_vs. reflexivity.
Qed.

Lemma wake_all_me c v p p' :
  v !!! me = p' -> woken c (Some me) me p' = p' ->
  vinsert me p' (wake_all c None (vinsert me p v)) = wake_all c (Some me) v.
Proof.
  intros Hv Hp. apply vec_eq. intros j. rewrite vlookup_vinsert. unfold wake_all. rewrite !lookup_fun_to_vec, vlookup_vinsert.
  case_decide as E; [subst j; by rewrite Hv|]. unfold woken.
  rewrite (bool_decide_eq_false_2 (Some j = None)), (bool_decide_eq_false_2 (Some j = Some me)) by congruence. done.
Qed.

Lemma virtio_wait_run id ie v B d w s i0 i1 i2 b k :
  v_lock w = taken id k -> idle k -> (forall i, idle (p_lock (v !!! i))) ->
  p_state (v !!! me) = RUNNING -> p_chan (v !!! me) = None -> b_disk (B !!! b) = 1 ->
  waiting w i0 i1 i2 b -> status (v_ops w !!! i0) = VIRTIO_BLK_S_OK ->
  let '(B', d') := transfer (v_ops w !!! i0) b B d in
  exists w', loop (virtio_wait b) tt (vs (in_section id (Some me) ie) v B d w s) =
      Ok tt (vs (in_section id (Some me) ie) (wake_all (KBuf (fin_to_nat b)) (Some me) v)
        (vinsert b (set_bdisk 0 (B' !!! b)) B') d' w' s) /\
    v_desc w' = v_desc w /\ v_free w' = v_free w /\ drained w' /\ v_lock w' = taken id k.
Proof.
  intros Hlk Hk Hp Hst Hch Hb Hw Hok. destruct (virtio_wait_down id ie v B d w s b k Hlk Hk Hp Hb) as [Ha Hdown].
  pose proof (while_served_run id ie _ B d (set_vlock k w) s i0 i1 i2 b _ Hk Ha (waiting_lock k _ _ _ _ _ Hw) Hok) as Hsw.
  change (v_ops (set_vlock k w)) with (v_ops w) in Hsw. destruct (transfer _ b B d) as [B' d'].
  destruct Hsw as (w1 & Hsw & H1 & H2 & H3 & H4).
  exists (set_vlock (taken id k) w1). split; [|exact (conj H1 (conj H2 (conj H3 eq_refl)))].
  apply (loop_rounds _ 2); [|lia]. cbn [rounds]. erewrite bind_ok.
  2:{ rewrite Hdown. erewrite bind_ok; [reflexivity|]. erewrite bind_ok by exact Hsw.
      rewrite <- (at3_self vdisk_lock (vs _ _ _ _ _ _)). change (view vdisk_lock (vs _ _ _ _ _ _)) with (v_lock w1). rewrite H4.
      apply (sleep_up vdisk_lock id ie _ k _ me (set_pstate RUNNING (dozed b v))); [apply vlookup_insert|apply Hp|done]. }
  cbv beta iota. rewrite at3_vs. change (view procsL (vs _ ?x _ _ _ _)) with x. rewrite !vinsert_twice.
  replace (set_pchan None (set_pstate RUNNING (dozed b v))) with (v !!! me) by (unfold dozed; destruct (v !!! me); cbn in *; by subst).
  rewrite wake_all_me; [|done|by unfold woken; rewrite bool_decide_eq_true_2 by done].
  erewrite bind_ok.
  2:{ unfold virtio_wait. erewrite bind_ok by apply getb_vs. rewrite vlookup_insert. reflexivity. }
  done.
Qed.

Lemma virtio_wait_bad id ie v B d w s i0 i1 i2 b k :
  v_lock w = taken id k -> idle k -> (forall i, idle (p_lock (v !!! i))) -> b_disk (B !!! b) = 1 ->
  waiting w i0 i1 i2 b -> status (v_ops w !!! i0) <> VIRTIO_BLK_S_OK ->
  exists s', loop (virtio_wait b) tt (vs (in_section id (Some me) ie) v B d w s) = Stop (Panic "virtio_disk_intr status") s'.
Proof.
  intros Hlk Hk Hp Hb Hw Hbad. destruct (virtio_wait_down id ie v B d w s b k Hlk Hk Hp Hb) as [Ha Hdown].
  destruct (while_served_bad id ie _ B d (set_vlock k w) s i0 i1 i2 b _ Hk Ha (waiting_lock k _ _ _ _ _ Hw) Hbad) as (s' & Hsw).
  exists s'. apply loop_stop. rewrite Hdown. by do 2 apply bind_stop.
Qed.

Lemma wake_all_idem chan o v : wake_all chan o (wake_all chan o v) = wake_all chan o v.
Proof.
  apply vec_eq. intros i. unfold wake_all. rewrite !lookup_fun_to_vec. unfold woken at 2 3.
  destruct (negb (bool_decide (Some i = o)) && _ && _) eqn:E; unfold woken; [|by rewrite E].
  cbn [p_state set_pstate]. rewrite (bool_decide_eq_false_2 (RUNNABLE = SLEEPING)) by done. by rewrite andb_false_r.
Qed.

(** One descriptor of [free_chain]. *)
Lemma free_chain_step_run id ie v B d w s i :
  ~ is_free w i -> (forall i, idle (p_lock (v !!! i))) ->
  free_chain_step (idx_of i) (vs (in_section id (Some me) ie) v B d w s) =
    Ok (if nz (Z.land (vd_flags (v_desc w !!! i)) VRING_DESC_F_NEXT) then inl (vd_next (v_desc w !!! i)) else inr tt)
       (vs (in_section id (Some me) ie) (wake_all KDiskFree (Some me) v) B d (give_desc i w) s).
Proof.
  intros Hf Hp. unfold free_chain_step. rewrite descp_of_idx. erewrite bind_ok by apply getv_vs.
  erewrite bind_ok by (apply free_desc_run; [done|by apply room_one|intros; apply Hp]). by destruct (nz _).
Qed.

Lemma give_desc_free i j w : i <> j -> ~ is_free w j -> ~ is_free (give_desc i w) j.
Proof. intros Hij. unfold is_free, give_desc. cbn. by rewrite vlookup_insert_ne. Qed.
Lemma give_desc_desc i j w : i <> j -> v_desc (give_desc i w) !!! j = v_desc w !!! j.
Proof. intros Hij. unfold give_desc. cbn. by rewrite vlookup_insert_ne. Qed.

Lemma free_chain_run id ie v B d w w0 s i0 i1 i2 b :
  i0 <> i1 -> i0 <> i2 -> i1 <> i2 -> ~ is_free w i0 -> ~ is_free w i1 -> ~ is_free w i2 ->
  (forall i, idle (p_lock (v !!! i))) -> chain w0 i0 i1 i2 b -> v_desc w = v_desc w0 ->
  free_chain (idx_of i0) (vs (in_section id (Some me) ie) v B d w s) =
    Ok tt (vs (in_section id (Some me) ie) (wake_all KDiskFree (Some me) v) B d (give_desc i2 (give_desc i1 (give_desc i0 w))) s).
Proof.
  intros H01 H02 H12 F0 F1 F2 Hp [_ Ho Hd Hs] Ew. rewrite <- Ew in Ho, Hd, Hs.
  assert (forall v, (forall i, idle (p_lock (v !!! i))) -> forall i, idle (p_lock (wake_all KDiskFree (Some me) v !!! i))) as Hw.
  { intros v' Hp' i. unfold wake_all. rewrite lookup_fun_to_vec. unfold woken. destruct (_ && _); apply Hp'. }
  apply (loop_rounds _ 3); [|lia]. cbn [rounds].
  erewrite bind_ok by (by apply free_chain_step_run). rewrite Ho. change (nz _) with true. cbv iota. cbn [vd_next].
  erewrite bind_ok by (apply free_chain_step_run; [by apply give_desc_free|by apply Hw]).
  rewrite give_desc_desc, Hd by done. cbn [vd_flags vd_next].
  replace (nz _) with true by (by destruct (_ =? _)). cbv iota.
  erewrite bind_ok by (apply free_chain_step_run; [apply give_desc_free; [done|by apply give_desc_free]|by do 2 apply Hw]).
  rewrite !give_desc_desc, Hs by done. cbn. by rewrite !wake_all_idem.
Qed.


Lemma free_descs_ext w w' : (forall i, nz (v_free w' !!! i) = nz (v_free w !!! i)) -> free_descs w' = free_descs w.
Proof. intros H. apply list_filter_iff. intros i. unfold is_free. by rewrite H. Qed.

(** Descriptors taken and given back. *)
Lemma free_descs_back w w3 w' i0 i1 i2 :
  i0 <> i1 -> i0 <> i2 -> i1 <> i2 -> is_free w i0 -> is_free w i1 -> is_free w i2 ->
  v_free w3 = vinsert i2 0 (vinsert i1 0 (vinsert i0 0 (v_free w))) ->
  v_free w' = vinsert i2 1 (vinsert i1 1 (vinsert i0 1 (v_free w3))) -> free_descs w' = free_descs w.
Proof.
  unfold is_free. intros H01 H02 H12 F0 F1 F2 E3 E. apply free_descs_ext. intros i. rewrite E, E3.
  rewrite !vlookup_vinsert. repeat case_decide; subst; try done; by rewrite ?F0, ?F1, ?F2.
Qed.

(** The fields of the request on the disk. *)
Definition request (write : bool) (blockno : Z) : blk_req :=
  BlkReq (if write then VIRTIO_BLK_T_OUT else VIRTIO_BLK_T_IN) 0 (u32 (blockno * 2)).

Definition unclaimed (i0 : descp) (w : vdisk) : vdisk := set_info_b (vinsert i0 None (v_info_b w)) w.
Definition given_back (k : spinlock) (i0 i1 i2 : descp) (w : vdisk) : vdisk :=
  set_vlock k (give_desc i2 (give_desc i1 (give_desc i0 (unclaimed i0 w)))).

Lemma release_section id ie v B d w s k :
  idle k -> v_lock w = taken id k ->
  release vdisk_lock (vs (in_section id (Some me) ie) v B d w s) = Ok tt (vs (Cpu id ie (Some me) 0 ie) v B d (set_vlock k w) s).
Proof.
  intros Hk E. rewrite release_vs; [|rewrite E; apply holding_taken|done|done]. rewrite E, freed_taken by done.
  by destruct ie.
Qed.

(** The parts of the call in sequence. *)
Lemma virtio_disk_rw_seq id ie it v v1 B B1 B2 d d' w w4 w5 s i0 i1 i2 r b write :
  free_descs (set_vlock (taken id (v_lock w)) w) = i0 :: i1 :: i2 :: r -> idle (v_lock w) ->
  virtio_submit b write (i0, i1, i2) (vs (in_section id (Some me) ie) v B d
    (take_desc i2 (take_desc i1 (take_desc i0 (set_vlock (taken id (v_lock w)) w)))) s) =
    Ok tt (vs (in_section id (Some me) ie) v B1 d w4 s) ->
  loop (virtio_wait b) tt (vs (in_section id (Some me) ie) v B1 d w4 s) =
    Ok tt (vs (in_section id (Some me) ie) v1 B2 d' w5 s) ->
  i0 <> i1 -> i0 <> i2 -> i1 <> i2 -> ~ is_free w5 i0 -> ~ is_free w5 i1 -> ~ is_free w5 i2 ->
  (forall i, idle (p_lock (v1 !!! i))) -> chain w4 i0 i1 i2 b -> v_desc w5 = v_desc w4 -> v_lock w5 = taken id (v_lock w) ->
  virtio_disk_rw b write (vs (Cpu id ie (Some me) 0 it) v B d w s) =
    Ok tt (vs (Cpu id ie (Some me) 0 ie) (wake_all KDiskFree (Some me) v1) B2 d' (given_back (v_lock w) i0 i1 i2 w5) s).
Proof.
  intros Ef Hlk Hsub Hwait H01 H02 H12 F0 F1 F2 Hp1 Hc4 E1 E4. pose proof Hlk as [Hl _].
  unfold virtio_disk_rw. erewrite bind_ok by (by apply acquire_vs).
  change (push (Cpu id ie (Some me) 0 it)) with (in_section id (Some me) ie).
  erewrite bind_ok.
  2:{ apply loop_once. unfold alloc3_try. erewrite bind_ok by exact (alloc3_desc_run _ _ _ _ _ _ i0 i1 i2 r Ef).
      cbv beta iota. reflexivity. }
  erewrite bind_ok by exact Hsub. erewrite bind_ok by exact Hwait. cbv beta iota.
  erewrite bind_ok by apply updv_vs. fold (unclaimed i0 w5).
  erewrite bind_ok by exact (free_chain_run id ie v1 B2 d' (unclaimed i0 w5) w4 s i0 i1 i2 b H01 H02 H12 F0 F1 F2 Hp1 Hc4 E1).
  exact (release_section id ie _ _ _ (give_desc i2 (give_desc i1 (give_desc i0 (unclaimed i0 w5)))) s _ Hlk E4).
Qed.

(** The call when the request fails. *)
Lemma virtio_disk_rw_stop id ie it v B B1 d w w4 s why s' i0 i1 i2 r b write :
  free_descs (set_vlock (taken id (v_lock w)) w) = i0 :: i1 :: i2 :: r -> idle (v_lock w) ->
  virtio_submit b write (i0, i1, i2) (vs (in_section id (Some me) ie) v B d
    (take_desc i2 (take_desc i1 (take_desc i0 (set_vlock (taken id (v_lock w)) w)))) s) =
    Ok tt (vs (in_section id (Some me) ie) v B1 d w4 s) ->
  loop (virtio_wait b) tt (vs (in_section id (Some me) ie) v B1 d w4 s) = Stop why s' ->
  virtio_disk_rw b write (vs (Cpu id ie (Some me) 0 it) v B d w s) = Stop why s'.
Proof.
  intros Ef [Hl _] Hsub Hwait. unfold virtio_disk_rw. erewrite bind_ok by (by apply acquire_vs).
  change (push (Cpu id ie (Some me) 0 it)) with (in_section id (Some me) ie).
  erewrite bind_ok.
  2:{ apply loop_once. unfold alloc3_try. erewrite bind_ok by exact (alloc3_desc_run _ _ _ _ _ _ i0 i1 i2 r Ef).
      cbv beta iota. reflexivity. }
  erewrite bind_ok by exact Hsub. by apply bind_stop.
Qed.

(** The three descriptors of a request. *)
Lemma free_three w i0 i1 i2 r :
  free_descs w = i0 :: i1 :: i2 :: r ->
  (i0 <> i1 /\ i0 <> i2 /\ i1 <> i2) /\ is_free w i0 /\ is_free w i1 /\ is_free w i2.
Proof.
  intros Ef. assert (NoDup (i0 :: i1 :: i2 :: r)) as Hnd by (rewrite <- Ef; apply NoDup_filter, NoDup_indices).
  assert (forall i, i ∈ i0 :: i1 :: i2 :: r -> is_free w i) as Hwas.
  { intros i Hi. rewrite <- Ef in Hi. by apply list_elem_of_filter in Hi as [? _]. }
  split; [|split_and!; apply Hwas; rewrite !elem_of_cons; auto].
  apply NoDup_cons in Hnd as [N0 Hnd]. apply NoDup_cons in Hnd as [N1 _].
  apply not_elem_of_cons in N0 as [? [? _]%not_elem_of_cons]. by apply not_elem_of_cons in N1 as [? _].
Qed.

(** The request as the driver leaves it to the device. *)
Lemma submitted_waiting w w' i0 i1 i2 b write sector :
  submitted w w' i0 i1 i2 b write sector -> drained w -> waiting w' i0 i1 i2 b.
Proof.
  intros [Hc Hop Hr Hi Hn Hf Hib [Hu Hud] Hl] (Ha & Hb & Hv). rewrite Hv, <- Hb in Hr, Hi.
  split; [done|split|by rewrite Hib, vlookup_insert|by rewrite Hu, Hud]; [by rewrite Hi, Hud|by rewrite Hud|done].
Qed.

Lemma virtio_disk_rw_run id ie it v B d w s i0 i1 i2 r b write :
  free_descs w = i0 :: i1 :: i2 :: r -> idle (v_lock w) -> (forall i, idle (p_lock (v !!! i))) ->
  p_state (v !!! me) = RUNNING -> p_chan (v !!! me) = None -> drained w ->
  status (request write (b_blockno (B !!! b))) = VIRTIO_BLK_S_OK ->
  let '(B', d') := transfer (request write (b_blockno (B !!! b))) b (vinsert b (set_bdisk 1 (B !!! b)) B) d in
  exists w', virtio_disk_rw b write (vs (Cpu id ie (Some me) 0 it) v B d w s) =
      Ok tt (vs (Cpu id ie (Some me) 0 ie) (wake_all KDiskFree (Some me) (wake_all (KBuf (fin_to_nat b)) (Some me) v))
        (vinsert b (set_bdisk 0 (B' !!! b)) B') d' w' s) /\
    free_descs w' = free_descs w /\ v_lock w' = v_lock w /\ drained w'.
Proof.
  intros Ef Hlk Hp Hst Hch Hdr Hok.
  destruct (free_three w i0 i1 i2 r Ef) as ((H01 & H02 & H12) & M0 & M1 & M2).
  set (w3 := take_desc i2 (take_desc i1 (take_desc i0 (set_vlock (taken id (v_lock w)) w)))).
  destruct (virtio_submit_run (in_section id (Some me) ie) v B d w3 s b write i0 i1 i2 H01 H02 H12) as (w4 & Hsub & Hsm).
  pose proof (submitted_waiting w3 w4 i0 i1 i2 b write _ Hsm Hdr) as Hw4.
  destruct Hsm as [Hc4 Hop _ _ _ Hfr _ _ Hl4]. set (B1 := vinsert b (set_bdisk 1 (B !!! b)) B) in *.
  pose proof (virtio_wait_run id ie v B1 d w4 s i0 i1 i2 b (v_lock w)) as Hwait.
  rewrite Hop in Hwait. fold (request write (b_blockno (B !!! b))) in Hwait. destruct (transfer _ b B1 d) as [B' d'].
  destruct Hwait as (w5 & Hwait & E1 & E2 & E3 & E4); [exact Hl4|exact Hlk|exact Hp|exact Hst|exact Hch| |exact Hw4|exact Hok|].
  { unfold B1. by rewrite vlookup_insert. }
  assert (v_free w5 = vinsert i2 0 (vinsert i1 0 (vinsert i0 0 (v_free w)))) as Hf5 by (rewrite E2, Hfr; reflexivity).
  assert (forall i, i = i0 \/ i = i1 \/ i = i2 -> ~ is_free w5 i) as Htaken.
  { intros i Hi. unfold is_free. rewrite Hf5, !vlookup_vinsert. repeat case_decide; try done. destruct Hi as [?|[?|?]]; congruence. }
  exists (given_back (v_lock w) i0 i1 i2 w5). split; [|split; [|split; [reflexivity|exact E3]]].
  - eapply (virtio_disk_rw_seq _ _ _ _ _ _ _ _ _ _ _ w4 w5 _ i0 i1 i2 r);
      [exact Ef|exact Hlk|exact Hsub|exact Hwait|exact H01|exact H02|exact H12|..|exact Hc4|exact E1|exact E4];
      [apply Htaken; auto..|].
    intros i. unfold wake_all. rewrite lookup_fun_to_vec. unfold woken. destruct (_ && _); apply Hp.
  - refine (free_descs_back w w5 _ i0 i1 i2 H01 H02 H12 M0 M1 M2 Hf5 _). reflexivity.
Qed.

Lemma virtio_disk_rw_bad id ie it v B d w s i0 i1 i2 r b write :
  free_descs w = i0 :: i1 :: i2 :: r -> idle (v_lock w) -> (forall i, idle (p_lock (v !!! i))) -> drained w ->
  status (request write (b_blockno (B !!! b))) <> VIRTIO_BLK_S_OK ->
  exists s', virtio_disk_rw b write (vs (Cpu id ie (Some me) 0 it) v B d w s) = Stop (Panic "virtio_disk_intr status") s'.
Proof.
  intros Ef Hlk Hp Hdr Hbad. destruct (free_three w i0 i1 i2 r Ef) as ((H01 & H02 & H12) & _).
  set (w3 := take_desc i2 (take_desc i1 (take_desc i0 (set_vlock (taken id (v_lock w)) w)))).
  destruct (virtio_submit_run (in_section id (Some me) ie) v B d w3 s b write i0 i1 i2 H01 H02 H12) as (w4 & Hsub & Hsm).
  pose proof (submitted_waiting w3 w4 i0 i1 i2 b write _ Hsm Hdr) as Hw4. destruct Hsm as [_ Hop _ _ _ _ _ _ Hl4].
  destruct (virtio_wait_bad id ie v (vinsert b (set_bdisk 1 (B !!! b)) B) d w4 s i0 i1 i2 b (v_lock w)) as (s' & Hs);
    [exact Hl4|exact Hlk|exact Hp|by rewrite vlookup_insert|exact Hw4|by rewrite Hop|].
  exists s'. exact (virtio_disk_rw_stop id ie it v B _ d w w4 s _ s' i0 i1 i2 r b write Ef Hlk Hsub Hs).
Qed.
End Whole.

(** * The driver refines the cache's disk *)

(** No request is under way; the process [me] is running and may ask. *)
Record ready (me : fin NPROC) (s : vst) : Prop := {
  rd_cpu : exists id ie it, view cpuL s = Cpu id ie (Some me) 0 it;
  rd_lock : idle (v_lock (vs_v s));
  rd_procs : forall i, idle (p_lock (view procsL s !!! i));
  rd_state : p_state (view procsL s !!! me) = RUNNING;
  rd_chan : p_chan (view procsL s !!! me) = None;
  rd_descs : (3 <= length (free_descs (vs_v s)))%nat;
  rd_used : drained (vs_v s);
  rd_bufs : forall b, b_disk (bs_buf (vs_b s) !!! b) = 0;
}.

(** The processes when the request for [b] is done. *)
Definition woken_by (b : bufp) (me : fin NPROC) (v : vec proc NPROC) : vec proc NPROC :=
  wake_all KDiskFree (Some me) (wake_all (KBuf (fin_to_nat b)) (Some me) v).

Lemma wake_all_idle chan o v : (forall i, idle (p_lock (v !!! i))) -> forall i, idle (p_lock (wake_all chan o v !!! i)).
Proof. intros H i. unfold wake_all. rewrite lookup_fun_to_vec. unfold woken. destruct (_ && _); apply H. Qed.
Lemma wake_all_self chan me v : wake_all chan (Some me) v !!! me = v !!! me.
Proof. unfold wake_all. rewrite lookup_fun_to_vec. unfold woken. by rewrite bool_decide_eq_true_2 by done. Qed.

(** The transfer the device makes is that of [disk_rw]. *)
Lemma transfer_disk_rw b write (s : bst) :
  0 <= b_blockno (bs_buf s !!! b) < 2 ^ 31 -> (forall i, b_disk (bs_buf s !!! i) = 0) ->
  let '(B', d') := transfer (request write (b_blockno (bs_buf s !!! b))) b
    (vinsert b (set_bdisk 1 (bs_buf s !!! b)) (bs_buf s)) (bs_disk s) in
  disk_rw b write s = Ok tt (Bst (bs_cpu s) (bs_ptab s) (bs_lock s) (vinsert b (set_bdisk 0 (B' !!! b)) B') d') /\
  (forall i, b_disk (vinsert b (set_bdisk 0 (B' !!! b)) B' !!! i) = 0).
Proof.
  intros Hn H0. assert (u32 (b_blockno (bs_buf s !!! b) * 2) / 2 = b_blockno (bs_buf s !!! b)) as Es.
  { unfold u32. rewrite Z.mod_small by lia. apply Z.div_mul. lia. }
  assert (set_bdisk 0 (bs_buf s !!! b) = bs_buf s !!! b) as E0 by (rewrite <- (H0 b); by destruct (bs_buf s !!! b)).
  set (x := bs_buf s !!! b) in *. unfold transfer, request. cbn [br_type br_sector]. rewrite Es. unfold disk_rw.
  assert (forall x', b_disk x' = 0 -> forall i, b_disk (vinsert b x' (bs_buf s) !!! i) = 0) as Hins.
  { intros x' Hx i. rewrite vlookup_vinsert. case_decide; auto. }
  destruct write; erewrite bind_ok by done; fold x; cbv beta iota.
  - change (VIRTIO_BLK_T_OUT =? VIRTIO_BLK_T_OUT) with true. cbv iota. rewrite vlookup_insert, vinsert_twice.
    change (set_bdisk 0 (set_bdisk 1 x)) with (set_bdisk 0 x). rewrite E0. split; [|apply Hins, (H0 b)].
    rewrite vinsert_same by done. by destruct s.
  - change (VIRTIO_BLK_T_IN =? VIRTIO_BLK_T_OUT) with false. cbv iota. rewrite !vlookup_insert, !vinsert_twice.
    split; [|by apply Hins]. erewrite bind_ok by done. replace (set_bdisk 0 _) with (set_bdata (dread (bs_disk s) (b_blockno x)) x).
    + by destruct s.
    + trans (set_bdata (dread (bs_disk s) (b_blockno x)) (set_bdisk 0 x)); [by rewrite E0|done].
Qed.

(** C6: The driver refines the cache's view of the disk. Take a device that, once
    notified of a request, carries it out or fails to, and reports which, as the
    virtio specification says, and let no other request be under way. If the
    request succeeds, [virtio_disk_rw] returns, has moved exactly the data
    [disk_rw] moves between the buffer and the block, has given its three
    descriptors back, has woken the processes that wait for the buffer or for
    descriptors, and leaves the driver ready for the next request. If the device
    reports an error, the driver panics. *)
Theorem virtio_disk_rw_correct dev status me b write s t :
  serves dev status -> ready me s -> 0 <= b_blockno (bs_buf (vs_b s) !!! b) < 2 ^ 31 ->
  disk_rw b write (vs_b s) = Ok tt t ->
  if status (request write (b_blockno (bs_buf (vs_b s) !!! b))) =? VIRTIO_BLK_S_OK then
    exists s', virtio_disk_rw (H:=while_served dev me) b write s = Ok tt s' /\ ready me s' /\
      bs_buf (vs_b s') = bs_buf t /\ bs_disk (vs_b s') = bs_disk t /\ bs_lock (vs_b s') = bs_lock t /\
      view procsL s' = woken_by b me (view procsL s) /\ free_descs (vs_v s') = free_descs (vs_v s)
  else exists s', virtio_disk_rw (H:=while_served dev me) b write s = Stop (Panic "virtio_disk_intr status") s'.
Proof.
  intros Hdev [(id & ie & it & Hc) Hlk Hp Hst Hch Hn Hdr Hb] Hbn Ht.
  destruct (free_descs (vs_v s)) as [|i0 [|i1 [|i2 r]]] eqn:Ef; cbn in Hn; try lia.
  destruct (Z.eqb_spec (status (request write (b_blockno (bs_buf (vs_b s) !!! b)))) VIRTIO_BLK_S_OK) as [Hok|Hbad].
  2:{ destruct (virtio_disk_rw_bad dev status Hdev me id ie it (view procsL s) (bs_buf (vs_b s)) (bs_disk (vs_b s)) (vs_v s) s
        i0 i1 i2 r b write Ef Hlk Hp Hdr Hbad) as [s' Hs]. rewrite <- Hc, vs_self in Hs. by exists s'. }
  pose proof (transfer_disk_rw b write (vs_b s) Hbn Hb) as Htr.
  pose proof (virtio_disk_rw_run dev status Hdev me id ie it (view procsL s) (bs_buf (vs_b s)) (bs_disk (vs_b s)) (vs_v s) s
    i0 i1 i2 r b write Ef Hlk Hp Hst Hch Hdr Hok) as Hrun.
  destruct (transfer _ b _ _) as [B' d']. rewrite <- Hc, vs_self in Hrun. destruct Htr as [Ht' Hb']. rewrite Ht' in Ht.
  injection Ht as <-. destruct Hrun as (w' & Hrun & Hf & Hl & Hd).
  eexists. split; [exact Hrun|]. split.
  - split; cbn [vs vs_v vs_b bs_buf].
    + by exists id, ie, ie.
    + by rewrite Hl.
    + by do 2 apply wake_all_idle.
    + change (view procsL (vs _ ?x _ _ _ _)) with x. by rewrite !wake_all_self.
    + change (view procsL (vs _ ?x _ _ _ _)) with x. by rewrite !wake_all_self.
    + rewrite Hf, Ef. cbn. lia.
    + exact Hd.
    + exact Hb'.
  - cbn [vs vs_v vs_b bs_buf bs_disk bs_lock]. by rewrite Hf, Ef.
Qed.

(** A device that works for the first sectors of the disk, and a machine with a
    buffer for block 5. *)
Module Bench.
Definition status (op : blk_req) : Z := if br_sector op <? 100 then VIRTIO_BLK_S_OK else VIRTIO_BLK_S_IOERR.
Definition device : M vst unit := fun s =>
  let w := vs_v s in
  if negb (bool_decide (notified w)) then Ok tt s else
  let i0 : descp := default 0%fin (descp_of (v_avail_ring w !!! slot (v_used_idx_dev w))) in
  let i1 : descp := default 0%fin (descp_of (vd_next (v_desc w !!! i0))) in
  let st := status (v_ops w !!! i0) in
  match vd_addr (v_desc w !!! i1) with
  | DData b =>
      let '(B', d') := if st =? VIRTIO_BLK_S_OK then transfer (v_ops w !!! i0) b (bs_buf (vs_b s)) (bs_disk (vs_b s))
                       else (bs_buf (vs_b s), bs_disk (vs_b s)) in
      Ok tt (vs (view cpuL s) (view procsL s) B' d' (completed st i0 w) s)
  | _ => Ok tt s
  end.
Lemma device_serves : serves device status.
Proof.
  intros c v B d w s i0 i1 i2 b [Hi Hav Hn] [_ Ho Hd _] st. split.
  { unfold st, status. destruct (_ <? _); auto. }
  eexists _, _. unfold device. cbv zeta. change (vs_v (vs c v B d w s)) with w.
  rewrite bool_decide_true by done. cbn [negb]. rewrite Hav, descp_of_idx. change (default _ (Some i0)) with i0.
  rewrite Ho. cbn [vd_next]. rewrite descp_of_idx. change (default _ (Some i1)) with i1. rewrite Hd. cbn [vd_addr].
  change (bs_buf (vs_b (vs c v B d w s))) with B. change (bs_disk (vs_b (vs c v B d w s))) with d. fold st.
  rewrite (surjective_pairing (if st =? VIRTIO_BLK_S_OK then _ else _)). split; [reflexivity|].
  intros ->. symmetry. apply surjective_pairing.
Qed.

Definition lk : spinlock := Spinlock 0 "virtio_disk" None.
Definition pr : proc :=
  Proc lk RUNNING None 0 0 1 None 0 0 0 0 (Context 0 0 []) (vreplicate NOFILE None) None [] (vreplicate 16 (Vma 0 0 0 0 None 0 0 0)).
Definition bf (n : Z) : buf := Buf 0 0 1 n (Sleeplock 0 lk "buffer" 0) 1 bhead bhead (replicate 1024 0).
Definition dsk : disk := Disk (fun n => replicate 1024 (n mod 256)) [].
Definition drv : vdisk :=
  Vdisk (vreplicate NUM desc0) 0 (vreplicate NUM 0) 0 (vreplicate NUM 0) (vreplicate NUM 1) 0 (vreplicate NUM None)
    (vreplicate NUM 0) (vreplicate NUM (BlkReq 0 0 0)) lk (fun _ => 0) [].
(** All buffers are for the block [n]. *)
Definition sys (n : Z) : vst :=
  Vst (Bst (Cpu 0 true (Some 0%fin) 0 true) (Ptab (vreplicate NPROC pr) None 1 lk lk) lk (vreplicate (S NBUF) (bf n)) dsk) drv.

Lemma sys_procs n i : view procsL (sys n) !!! i = pr.
Proof. apply vlookup_replicate. Qed.
Lemma bufs n b : bs_buf (vs_b (sys n)) !!! b = bf n.
Proof. apply vlookup_replicate. Qed.
Lemma sys_ready n : ready 0%fin (sys n).
Proof.
  split; try (intros; rewrite ?sys_procs, ?bufs; done).
  - by exists 0, true, true.
  - vm_compute. lia.
Qed.
End Bench.

(** Block 5 is read, and reading block 500 fails. *)
Lemma virtio_disk_rw_correct_witness :
  (exists s', virtio_disk_rw (H:=while_served Bench.device 0%fin) 1%fin false (Bench.sys 5) = Ok tt s' /\
    b_data (bs_buf (vs_b s') !!! (1%fin : bufp)) = replicate 1024 5) /\
  (exists s', virtio_disk_rw (H:=while_served Bench.device 0%fin) 1%fin false (Bench.sys 500) = Stop (Panic "virtio_disk_intr status") s').
Proof.
  split.
  - pose proof (virtio_disk_rw_correct Bench.device Bench.status 0%fin 1%fin false (Bench.sys 5)
      (Bst (bs_cpu (vs_b (Bench.sys 5))) (bs_ptab (vs_b (Bench.sys 5))) Bench.lk
        (vinsert (1%fin : bufp) (set_bdata (replicate 1024 5) (Bench.bf 5)) (bs_buf (vs_b (Bench.sys 5)))) Bench.dsk)
      Bench.device_serves (Bench.sys_ready 5)) as H.
    rewrite Bench.bufs in H. destruct H as (s' & E & _ & Hb & _); [cbn; lia|reflexivity|].
    exists s'. split; [exact E|]. rewrite Hb. cbn [bs_buf]. by rewrite vlookup_insert.
  - pose proof (virtio_disk_rw_correct Bench.device Bench.status 0%fin 1%fin false (Bench.sys 500)
      (Bst (bs_cpu (vs_b (Bench.sys 500))) (bs_ptab (vs_b (Bench.sys 500))) Bench.lk
        (vinsert (1%fin : bufp) (set_bdata (replicate 1024 244) (Bench.bf 500)) (bs_buf (vs_b (Bench.sys 500)))) Bench.dsk)
      Bench.device_serves (Bench.sys_ready 500)) as H.
    rewrite Bench.bufs in H. apply H; [cbn; lia|reflexivity].
Defined.
