(* ===== verification/Kern.v ===== *)
(** The kernel's state: the components together, with the file table of
    [src/kernel/file.c] and [file.h], the clock of [src/kernel/trap.c] and the
    trap registers of the CPU.

    CPU and process table are in the file system's part; the lenses [kmL],
    [ustL], [tstL] and [vstL] assemble the states of the page allocator, of user
    memory, of the console and of the disk driver from the fields they share. *)

From stdpp Require Import gmap.
From S2P Require Import Prelude Params Spinlock Kalloc Sched Sleeplock Bio Log Fs Umem Console Pipe Virtio.
Local Open Scope kernel_scope.

Inductive ftype : Type := FD_NONE | FD_PIPE | FD_INODE | FD_DEVICE.
#[export] Instance ftype_eq_dec : EqDecision ftype.
Proof. solve_decision. Defined.

(** [struct file]: [f_pipe] is the address of the pipe's page. *)
Record file : Type := File {
  f_type : ftype;
  f_ref : Z;
  f_readable : Z;
  f_writable : Z;
  f_pipe : Z;
  f_ip : option inodep;
  f_off : Z;
  f_major : Z;
}.
Abbreviation filep := (fin NFILE).
Definition set_ftype x (f : file) : file := File x (f_ref f) (f_readable f) (f_writable f) (f_pipe f) (f_ip f) (f_off f) (f_major f).
Definition set_fref x (f : file) : file := File (f_type f) x (f_readable f) (f_writable f) (f_pipe f) (f_ip f) (f_off f) (f_major f).
Definition set_freadable x (f : file) : file := File (f_type f) (f_ref f) x (f_writable f) (f_pipe f) (f_ip f) (f_off f) (f_major f).
Definition set_fwritable x (f : file) : file := File (f_type f) (f_ref f) (f_readable f) x (f_pipe f) (f_ip f) (f_off f) (f_major f).
Definition set_fpipe x (f : file) : file := File (f_type f) (f_ref f) (f_readable f) (f_writable f) x (f_ip f) (f_off f) (f_major f).
Definition set_fip x (f : file) : file := File (f_type f) (f_ref f) (f_readable f) (f_writable f) (f_pipe f) x (f_off f) (f_major f).
Definition set_foff x (f : file) : file := File (f_type f) (f_ref f) (f_readable f) (f_writable f) (f_pipe f) (f_ip f) x (f_major f).
Definition set_fmajor x (f : file) : file := File (f_type f) (f_ref f) (f_readable f) (f_writable f) (f_pipe f) (f_ip f) (f_off f) x.

(** Supervisor registers the trap code uses and [kernel_pagetable]; [cs_irq] is
    what the claims of the interrupt controller will return and [cs_plic] what
    has been written to its registers. The [SIE] bit of [sstatus] is [c_sie]. *)
Record csrs : Type := Csrs {
  cs_sstatus : Z;
  cs_sepc : Z;
  cs_scause : Z;
  cs_stval : Z;
  cs_stvec : Z;
  cs_satp : Z;
  cs_sip : Z;
  cs_irq : list Z;
  cs_plic : list (Z * Z);
  cs_kpgtbl : Z;
}.
Definition set_csstatus x (c : csrs) : csrs :=
  Csrs x (cs_sepc c) (cs_scause c) (cs_stval c) (cs_stvec c) (cs_satp c) (cs_sip c) (cs_irq c) (cs_plic c) (cs_kpgtbl c).
Definition set_csepc x (c : csrs) : csrs :=
  Csrs (cs_sstatus c) x (cs_scause c) (cs_stval c) (cs_stvec c) (cs_satp c) (cs_sip c) (cs_irq c) (cs_plic c) (cs_kpgtbl c).
Definition set_cstvec x (c : csrs) : csrs :=
  Csrs (cs_sstatus c) (cs_sepc c) (cs_scause c) (cs_stval c) x (cs_satp c) (cs_sip c) (cs_irq c) (cs_plic c) (cs_kpgtbl c).
Definition set_csatp x (c : csrs) : csrs :=
  Csrs (cs_sstatus c) (cs_sepc c) (cs_scause c) (cs_stval c) (cs_stvec c) x (cs_sip c) (cs_irq c) (cs_plic c) (cs_kpgtbl c).
Definition set_csip x (c : csrs) : csrs :=
  Csrs (cs_sstatus c) (cs_sepc c) (cs_scause c) (cs_stval c) (cs_stvec c) (cs_satp c) x (cs_irq c) (cs_plic c) (cs_kpgtbl c).
Definition set_cirq x (c : csrs) : csrs :=
  Csrs (cs_sstatus c) (cs_sepc c) (cs_scause c) (cs_stval c) (cs_stvec c) (cs_satp c) (cs_sip c) x (cs_plic c) (cs_kpgtbl c).
Definition set_cplic x (c : csrs) : csrs :=
  Csrs (cs_sstatus c) (cs_sepc c) (cs_scause c) (cs_stval c) (cs_stvec c) (cs_satp c) (cs_sip c) (cs_irq c) x (cs_kpgtbl c).
Definition set_ckpgtbl x (c : csrs) : csrs :=
  Csrs (cs_sstatus c) (cs_sepc c) (cs_scause c) (cs_stval c) (cs_stvec c) (cs_satp c) (cs_sip c) (cs_irq c) (cs_plic c) x.

Record kern : Type := Kern {
  k_fs : fss;
  k_mem : memory;
  k_kmlock : spinlock;
  k_freelist : Z;
  k_uart : uart;
  k_cons : cons;
  k_prlock : spinlock;
  k_prlocking : Z;
  k_panicked : Z;
  k_vd : vdisk;
  k_ftlock : spinlock;
  k_file : vec file NFILE;
  k_pipes : gmap Z pipe;
  k_tickslock : spinlock;
  k_ticks : Z;
  k_first : Z;                  (* static int first of forkret *)
  k_csr : csrs;
}.

Definition set_kfs x (k : kern) : kern :=
  Kern x (k_mem k) (k_kmlock k) (k_freelist k) (k_uart k) (k_cons k) (k_prlock k) (k_prlocking k) (k_panicked k) (k_vd k)
    (k_ftlock k) (k_file k) (k_pipes k) (k_tickslock k) (k_ticks k) (k_first k) (k_csr k).
Definition set_kmem m l f (k : kern) : kern :=
  Kern (k_fs k) m l f (k_uart k) (k_cons k) (k_prlock k) (k_prlocking k) (k_panicked k) (k_vd k)
    (k_ftlock k) (k_file k) (k_pipes k) (k_tickslock k) (k_ticks k) (k_first k) (k_csr k).
Definition set_kterm u c p pl pa (k : kern) : kern :=
  Kern (k_fs k) (k_mem k) (k_kmlock k) (k_freelist k) u c p pl pa (k_vd k)
    (k_ftlock k) (k_file k) (k_pipes k) (k_tickslock k) (k_ticks k) (k_first k) (k_csr k).
Definition set_kvd x (k : kern) : kern :=
  Kern (k_fs k) (k_mem k) (k_kmlock k) (k_freelist k) (k_uart k) (k_cons k) (k_prlock k) (k_prlocking k) (k_panicked k) x
    (k_ftlock k) (k_file k) (k_pipes k) (k_tickslock k) (k_ticks k) (k_first k) (k_csr k).
Definition set_kftlock x (k : kern) : kern :=
  Kern (k_fs k) (k_mem k) (k_kmlock k) (k_freelist k) (k_uart k) (k_cons k) (k_prlock k) (k_prlocking k) (k_panicked k) (k_vd k)
    x (k_file k) (k_pipes k) (k_tickslock k) (k_ticks k) (k_first k) (k_csr k).
Definition set_kfile x (k : kern) : kern :=
  Kern (k_fs k) (k_mem k) (k_kmlock k) (k_freelist k) (k_uart k) (k_cons k) (k_prlock k) (k_prlocking k) (k_panicked k) (k_vd k)
    (k_ftlock k) x (k_pipes k) (k_tickslock k) (k_ticks k) (k_first k) (k_csr k).
Definition set_kpipes x (k : kern) : kern :=
  Kern (k_fs k) (k_mem k) (k_kmlock k) (k_freelist k) (k_uart k) (k_cons k) (k_prlock k) (k_prlocking k) (k_panicked k) (k_vd k)
    (k_ftlock k) (k_file k) x (k_tickslock k) (k_ticks k) (k_first k) (k_csr k).
Definition set_ktickslock x (k : kern) : kern :=
  Kern (k_fs k) (k_mem k) (k_kmlock k) (k_freelist k) (k_uart k) (k_cons k) (k_prlock k) (k_prlocking k) (k_panicked k) (k_vd k)
    (k_ftlock k) (k_file k) (k_pipes k) x (k_ticks k) (k_first k) (k_csr k).
Definition set_kticks x (k : kern) : kern :=
  Kern (k_fs k) (k_mem k) (k_kmlock k) (k_freelist k) (k_uart k) (k_cons k) (k_prlock k) (k_prlocking k) (k_panicked k) (k_vd k)
    (k_ftlock k) (k_file k) (k_pipes k) (k_tickslock k) x (k_first k) (k_csr k).
Definition set_kfirst x (k : kern) : kern :=
  Kern (k_fs k) (k_mem k) (k_kmlock k) (k_freelist k) (k_uart k) (k_cons k) (k_prlock k) (k_prlocking k) (k_panicked k) (k_vd k)
    (k_ftlock k) (k_file k) (k_pipes k) (k_tickslock k) (k_ticks k) x (k_csr k).
Definition set_kcsr x (k : kern) : kern :=
  Kern (k_fs k) (k_mem k) (k_kmlock k) (k_freelist k) (k_uart k) (k_cons k) (k_prlock k) (k_prlocking k) (k_panicked k) (k_vd k)
    (k_ftlock k) (k_file k) (k_pipes k) (k_tickslock k) (k_ticks k) (k_first k) x.

(** ** Lenses *)

Definition fsL : lens kern fss := Lens k_fs set_kfs.
#[export] Instance fsL_ok : LensOk fsL.
Proof. solve_lens. Qed.
#[export] Instance kern_cpu : HasCpu kern := lens_comp fsL (cpuL (S:=fss)).
#[export] Instance kern_ptab : HasPtab kern := lens_comp fsL (ptabL (S:=fss)).
#[export] Instance kern_swtch : HasSwtch kern := swtch_stop.
#[export] Instance kern_cpu_ok : LensOk (cpuL (S:=kern)).
Proof. apply (lens_comp_ok fsL (cpuL (S:=fss))); apply _. Qed.
#[export] Instance kern_ptab_ok : LensOk (ptabL (S:=kern)).
Proof. apply (lens_comp_ok fsL (ptabL (S:=fss))); apply _. Qed.
#[export] Instance kern_cpu_ptab : LensDisj (cpuL (S:=kern)) ptabL.
Proof. solve_lens. Qed.

(** Lenses that gather fields from different places: take the whole state apart. *)
Ltac solve_gather :=
  split; intros;
  repeat match goal with
    | s : kern |- _ => destruct s
    | s : fss |- _ => destruct s
    | s : lst |- _ => destruct s
    | s : bst |- _ => destruct s
    | s : kmst |- _ => destruct s
    | s : ust |- _ => destruct s
    | s : tst |- _ => destruct s
    | s : vst |- _ => destruct s
    end; reflexivity.

Definition kmL : lens kern kmst :=
  Lens (fun k => Km (view cpuL k) (k_mem k) (k_kmlock k) (k_freelist k))
       (fun m k => set_kmem (km_mem m) (km_lock m) (km_freelist m) (put cpuL (km_cpu m) k)).
Definition ustL : lens kern ust :=
  Lens (fun k => Ust (view kmL k) (view ptabL k)) (fun u k => put ptabL (us_ptab u) (put kmL (us_km u) k)).
Definition tstL : lens kern tst :=
  Lens (fun k => Tst (view ustL k) (k_uart k) (k_cons k) (k_prlock k) (k_prlocking k) (k_panicked k))
       (fun t k => set_kterm (ts_uart t) (ts_cons t) (ts_prlock t) (ts_prlocking t) (ts_panicked t) (put ustL (ts_u t) k)).
Definition bstL : lens kern bst := lens_comp fsL (lens_comp fs_lL bioL).
Definition vstL : lens kern vst :=
  Lens (fun k => Vst (view bstL k) (k_vd k)) (fun v k => set_kvd (vs_v v) (put bstL (vs_b v) k)).
#[export] Instance kmL_ok : LensOk kmL.
Proof. solve_gather. Qed.
#[export] Instance ustL_ok : LensOk ustL.
Proof. solve_gather. Qed.
#[export] Instance tstL_ok : LensOk tstL.
Proof. solve_gather. Qed.
#[export] Instance vstL_ok : LensOk vstL.
Proof. solve_gather. Qed.

(** The [struct pipe] in the page [pa]. *)
Definition pipe0 : pipe := Pipe (Spinlock 0 "page" None) (replicate 512 0) 0 0 0 0.
Definition pstL (pa : Z) : lens kern pst :=
  Lens (fun k => Pst (view ustL k) (default pipe0 (k_pipes k !! pa)))
       (fun p k => set_kpipes (<[pa := ps_pipe p]> (k_pipes k)) (put ustL (ps_u p) k)).

Definition ftable_lock : lens kern spinlock := Lens k_ftlock set_kftlock.
Definition filesL : lens kern (vec file NFILE) := Lens k_file set_kfile.
Definition tickslock : lens kern spinlock := Lens k_tickslock set_ktickslock.
#[export] Instance ftable_lock_ok : LensOk ftable_lock.
Proof. solve_lens. Qed.
#[export] Instance filesL_ok : LensOk filesL.
Proof. solve_lens. Qed.
#[export] Instance tickslock_ok : LensOk tickslock.
Proof. solve_lens. Qed.
#[export] Instance kern_cpu_ftable : LensDisj (cpuL (S:=kern)) ftable_lock.
Proof. solve_lens. Qed.
#[export] Instance kern_cpu_files : LensDisj (cpuL (S:=kern)) filesL.
Proof. solve_lens. Qed.
#[export] Instance kern_ftable_files : LensDisj ftable_lock filesL.
Proof. solve_lens. Qed.
#[export] Instance kern_cpu_ticks : LensDisj (cpuL (S:=kern)) tickslock.
Proof. solve_lens. Qed.

(** ** Components' operations in the kernel *)

Definition fs {A} (m : M fss A) : M kern A := zoom fsL m.
Definition um {A} (m : M ust A) : M kern A := zoom ustL m.
Definition kvm {A} (m : M kmst A) : M kern A := zoom kmL m.
Definition term {A} (m : M tst A) : M kern A := zoom tstL m.
Definition kpipe {A} (pa : Z) (m : M pst A) : M kern A := zoom (pstL pa) m.
Definition kbegin_op : M kern unit := fs (logop begin_op).
Definition kend_op : M kern unit := fs (logop end_op).
Definition kprintf (fmt : string) (ap : list arg) : M kern unit := term (printf (chars fmt) ap).
Definition getf (f : filep) : M kern file := gets (fun k => k_file k !!! f).
Definition updf (f : filep) (g : file -> file) : M kern unit := upd (arrL filesL f) g.
Definition getcsr : M kern csrs := gets k_csr.
Definition updcsr (f : csrs -> csrs) : M kern unit := modify (fun k => set_kcsr (f (k_csr k)) k).
Definition kcurproc : M kern proc := p <- myprocp ;; getp p.
Definition updcur (f : proc -> proc) : M kern unit := p <- myprocp ;; updp p f.
