(* ===== verification/Path.v ===== *)
(** File contents, directories and paths: [src/kernel/fs.c], from [readi] on.

    A [char name[DIRSIZ]] is the list of its 14 bytes; a path is the list of the
    bytes before its null. [readi] and [writei] get a place to copy to or from
    (a user address, a physical page, or a variable of the caller) and give back
    the bytes a variable received. *)

From S2P Require Import Prelude Params Spinlock Cstring Sched Sleeplock Bio Log Fs Umem Console Kern.
Local Open Scope kernel_scope.

(** * Contents *)

(** The loop of [readi]: [tot], [off], [dst] and what a variable has received. *)
Definition readi_step (ip : inodep) (n : Z) (v : Z * Z * place * list Z) : M kern (Z * Z * place * list Z + Z * list Z) :=
  let '(tot, off, dst, acc) := v in
  if negb (tot <? n) then ret (inr (tot, acc)) else
  i <- fs (geti ip) ;;
  addr <- fs (bmap ip (off / BSIZE)) ;;
  bp <- fs (fbread (i_dev i) addr) ;;
  let m := Z.min (n - tot) (BSIZE - off mod BSIZE) in
  d <- fs (fdata bp) ;;
  r <- um (either_copyout dst (drop (Z.to_nat (off mod BSIZE)) d) m) ;;
  if fst r =? -1 then
    fs (bioop (brelse bp)) ;;
    ret (inr (-1, acc))
  else
    fs (bioop (brelse bp)) ;;
    ret (inl (tot + m, off + m, advance dst m, acc ++ snd r)).

Definition readi (ip : inodep) (dst : place) (off n : Z) : M kern (Z * list Z) :=
  i <- fs (geti ip) ;;
  if (i_size i <? off) || (u32 (off + n) <? off) then ret (0, []) else
  let n := if i_size i <? u32 (off + n) then u32 (i_size i - off) else n in
  r <- loop (readi_step ip n) (0, off, dst, []) ;;
  ret (s32 (fst r), snd r).

(** The loop of [writei]; [local] is what is left of a variable of the caller. *)
Definition writei_step (ip : inodep) (n : Z) (v : Z * Z * place * list Z) : M kern (Z * Z * place * list Z + Z * Z) :=
  let '(tot, off, src, local) := v in
  if negb (tot <? n) then ret (inr (tot, off)) else
  i <- fs (geti ip) ;;
  addr <- fs (bmap ip (off / BSIZE)) ;;
  bp <- fs (fbread (i_dev i) addr) ;;
  let m := Z.min (n - tot) (BSIZE - off mod BSIZE) in
  r <- um (either_copyin src local m) ;;
  fs (set_fdata bp (fun d => splice d (Z.to_nat (off mod BSIZE)) (snd r))) ;;
  if fst r =? -1 then
    fs (bioop (brelse bp)) ;;
    ret (inr (tot, off))
  else
    fs (logop (log_write bp)) ;;
    fs (bioop (brelse bp)) ;;
    ret (inl (tot + m, off + m, advance src m, drop (Z.to_nat m) local)).

Definition writei (ip : inodep) (src : place) (local : list Z) (off n : Z) : M kern Z :=
  i <- fs (geti ip) ;;
  if (i_size i <? off) || (u32 (off + n) <? off) then ret (-1) else
  if MAXFILE * BSIZE <? u32 (off + n) then ret (-1) else
  r <- loop (writei_step ip n) (0, off, src, local) ;;
  let '(tot, off) := r in
  i <- fs (geti ip) ;;
  when (i_size i <? off) (fs (updi ip (set_isize off))) ;;
  fs (iupdate ip) ;;
  ret (s32 tot).

(** * Directories *)

Definition namecmp (s t : list Z) : Z := strncmp (at_list s) (at_list t) DIRSIZ.

(** [struct dirent] *)
Definition DIRENT : Z := 16.
Definition de_inum (d : list Z) : Z := get_le 2 d 0.
Definition de_name (d : list Z) : list Z := slice d 2 DIRSIZ.

(** [strncpy] into an array of [n] bytes. *)
Fixpoint strncpy_array (n : nat) (s : list Z) : list Z :=
  match n with
  | O => []
  | S n' =>
      match s with
      | [] => 0 :: strncpy_array n' []
      | c :: s' => if c =? 0 then 0 :: strncpy_array n' [] else c :: strncpy_array n' s'
      end
  end.
Definition dirent (inum : Z) (name : list Z) : list Z := le_bytes 2 (u16 inum) ++ strncpy_array DIRSIZ name.

(** The entry at [off], which must be complete. *)
Definition read_dirent (dp : inodep) (off : Z) (msg : string) : M kern (list Z) :=
  r <- readi dp Local off DIRENT ;;
  if negb (fst r =? DIRENT) then panic msg else ret (snd r).

Definition dirlookup_step (dp : inodep) (name : list Z) (off : Z) : M kern (Z + option (inodep * Z)) :=
  d <- fs (geti dp) ;;
  if negb (off <? i_size d) then ret (inr None) else
  de <- read_dirent dp off "dirlookup read" ;;
  if de_inum de =? 0 then ret (inl (off + DIRENT)) else
  if namecmp name (de_name de) =? 0 then
    ip <- fs (iget (i_dev d) (de_inum de)) ;;
    ret (inr (Some (ip, off)))
  else ret (inl (off + DIRENT)).

(** The inode and [*poff]. *)
Definition dirlookup (dp : inodep) (name : list Z) : M kern (option (inodep * Z)) :=
  d <- fs (geti dp) ;;
  if negb (i_type d =? T_DIR) then panic "dirlookup not DIR" else
  loop (dirlookup_step dp name) 0.

(** The offset of an empty entry, or the end. *)
Definition dirlink_scan (dp : inodep) (off : Z) : M kern (Z + Z) :=
  d <- fs (geti dp) ;;
  if negb (off <? i_size d) then ret (inr off) else
  de <- read_dirent dp off "dirlink read" ;;
  if de_inum de =? 0 then ret (inr off) else ret (inl (off + DIRENT)).

Definition dirlink (dp : inodep) (name : list Z) (inum : Z) : M kern Z :=
  r <- dirlookup dp name ;;
  match r with
  | Some (ip, _) => fs (iput ip) ;; ret (-1)
  | None =>
      off <- loop (dirlink_scan dp) 0 ;;
      n <- writei dp Local (dirent inum name) off DIRENT ;;
      if negb (n =? DIRENT) then panic "dirlink" else ret 0
  end.

(** * Paths *)

Fixpoint skip_slashes (path : list Z) : list Z :=
  match path with
  | c :: path' => if c =? 47 then skip_slashes path' else path
  | [] => []
  end.
(** The element before the next slash, and what follows it. *)
Fixpoint take_elem (path : list Z) : list Z * list Z :=
  match path with
  | c :: path' => if c =? 47 then ([], path) else let '(s, r) := take_elem path' in (c :: s, r)
  | [] => ([], [])
  end.

(** The rest of the path and the new content of [name]. *)
Definition skipelem (path name : list Z) : option (list Z * list Z) :=
  let path := skip_slashes path in
  match path with
  | [] => None
  | _ =>
      let '(s, path) := take_elem path in
      let name := if (DIRSIZ <=? length s)%nat then splice name 0 (take DIRSIZ s) else splice name 0 (s ++ [0]) in
      Some (skip_slashes path, name)
  end.

(** The loop of [namex]: the inode, the path left and [name]. *)
Definition namex_step (nameiparent : bool) (v : inodep * list Z * list Z)
    : M kern (inodep * list Z * list Z + option inodep * list Z) :=
  let '(ip, path, name) := v in
  match skipelem path name with
  | None =>
      if nameiparent then fs (iput ip) ;; ret (inr (None, name))
      else ret (inr (Some ip, name))
  | Some (path, name) =>
      fs (ilock (Some ip)) ;;
      i <- fs (geti ip) ;;
      if negb (i_type i =? T_DIR) then
        fs (iunlockput ip) ;;
        ret (inr (None, name))
      else if nameiparent && bool_decide (path = []) then
        fs (iunlock (Some ip)) ;;
        ret (inr (Some ip, name))
      else
        next <- dirlookup ip name ;;
        match next with
        | None =>
            fs (iunlockput ip) ;;
            ret (inr (None, name))
        | Some (next, _) =>
            fs (iunlockput ip) ;;
            ret (inl (next, path, name))
        end
  end.

Definition namex (path : list Z) (nameiparent : bool) (name : list Z) : M kern (option inodep * list Z) :=
  ip <- (if bool_decide (head path = Some 47) then fs (iget ROOTDEV ROOTINO)
         else
           p <- kcurproc ;;
           match p_cwd p with
           | None => fault "cwd"
           | Some cwd => fs (idup cwd)
           end) ;;
  loop (namex_step nameiparent) (ip, path, name).

(** [char name[DIRSIZ]] before anything is stored in it. *)
Definition name0 : list Z := replicate DIRSIZ 0.
Definition namei (path : list Z) : M kern (option inodep) :=
  r <- namex path false name0 ;; ret (fst r).
Definition nameiparent (path : list Z) : M kern (option inodep * list Z) := namex path true name0.
