(* ===== verification/Contents.v ===== *)
(** File contents: [bmap], [readi] and [writei] of [src/kernel/fs.c].

    The content of a file is the function [fbyte] from offsets to bytes that the
    block addresses of the inode and the blocks [V] of the operation define. *)

From stdpp Require Import gmap.
From S2P Require Import Prelude Params Spinlock Cstring Kalloc Vm Sched Sleeplock Bio Cache Log Journal Crash Txn Fs.
From S2P Require Import Blocks Inodes Umem Console Virtio Kern Path.
Local Open Scope kernel_scope.

(** * The blocks of a file *)

(** The address of the [bn]th block, 0 when there is none. *)
Definition addr_at (V : blocks) (i : inode) (bn : Z) : Z :=
  if bn <? NDIRECT then i_addrs i !!! Z.to_nat bn
  else if i_addrs i !!! Z.to_nat NDIRECT =? 0 then 0
  else word (V (i_addrs i !!! Z.to_nat NDIRECT)) (bn - NDIRECT).
Definition fbyte (V : blocks) (i : inode) (k : Z) : Z := byte (V (addr_at V i (k / BSIZE))) (k mod BSIZE).
Definition content (V : blocks) (i : inode) (off n : Z) : list Z := fbyte V i <$> seqZ off n.

Definition data_block (sb : superblock) (a : Z) : Prop := datastart sb <= a < sb_size sb.

(** A file without holes. *)
Record file_ok (e : env) (V : blocks) (i : inode) : Prop := {
  fo_dev : i_dev i = ROOTDEV;
  fo_len : length (i_addrs i) = 13%nat;
  fo_size : 0 <= i_size i <= MAXFILE * BSIZE;
  fo_blocks bn : 0 <= bn -> bn * BSIZE < i_size i -> data_block (e_sb e) (addr_at V i bn);
  fo_indirect : NDIRECT * BSIZE < i_size i -> data_block (e_sb e) (i_addrs i !!! Z.to_nat NDIRECT);
}.

Section Bmap.
Context (e : env) (La : layout e).
Abbreviation sb := (e_sb e).
Implicit Types (s : fss) (H : gmap bufp Z) (V : blocks) (L : list Z) (v : vec inode NINODE).

Lemma data_block_pos a : data_block sb a -> 2 < a < 2 ^ 31.
Proof. intros Ha. pose proof (datastart_pos e La). pose proof (la_log _ La). pose proof (la_data _ La). unfold data_block in Ha. lia. Qed.

(** [bmap] of a block that exists. *)
Lemma bmap_hit s H V L v ip bn :
  op e s H V L v -> (length L + size H < NBUF)%nat -> i_dev (v !!! ip) = ROOTDEV -> 0 <= bn < MAXFILE ->
  addr_at V (v !!! ip) bn <> 0 ->
  (NDIRECT <= bn -> let a := i_addrs (v !!! ip) !!! Z.to_nat NDIRECT in data_block sb a /\ ~ holds H a) ->
  wp (bmap ip bn) (fun a s' => a = addr_at V (v !!! ip) bn /\ op e s' H V L v) s.
Proof.
  intros Hop Hn Hdev Hbn Ha Hind. unfold bmap, addr_at in *. apply wp_bind. eapply op_geti; [exact Hop|]. set (i := v !!! ip) in *.
  destruct (Z.ltb_spec bn NDIRECT) as [Hd|Hd].
  - apply Z.eqb_neq in Ha as Ha'. rewrite Ha'. by apply wp_ret.
  - destruct (Z.ltb_spec (bn - NDIRECT) NINDIRECT) as [Hi|Hi]; [|unfold MAXFILE in Hbn; lia].
    destruct (Hind Hd) as [Hdb Hnh]. pose proof (data_block_pos _ Hdb). destruct (Z.eqb_spec (i_addrs i !!! Z.to_nat NDIRECT) 0); [done|].
    apply wp_bind, wp_ret. rewrite Hdev. wseq op_fbread; [exact Hop|lia|done|done|]. cbv beta. intros b s1 [Hb Hop1].
    apply wp_bind. eapply op_fdata; [exact Hop1|apply lookup_insert_eq|]. apply Z.eqb_neq in Ha as Ha'. rewrite Ha'.
    apply wp_bind, wp_ret. wseq op_brelse; [exact Hop1|apply lookup_insert_eq|]. cbv beta. intros [] s2 Hop2.
    rewrite delete_insert_id in Hop2 by done. by apply wp_ret.
Qed.
End Bmap.

(** * The kernel during an operation *)

(** The kernel with another file system part and another memory. *)
Definition kk (s : fss) (m : memory) (k : kern) : kern := set_kfs s (set_kmem m (k_kmlock k) (k_freelist k) k).
(** After the interrupts were off. *)
Definition fsettle (s : fss) : fss := fenv (settle (fcpu s)) (fptab s) (fs_itlock s) (fs_inode s) s.

Lemma kk_self k : kk (k_fs k) (k_mem k) k = k.
Proof. by destruct k. Qed.
Lemma wp_fs {A} (m : M fss A) Q s mem k : wp m (fun a s' => Q a (kk s' mem k)) s -> wp (fs m) Q (kk s mem k).
Proof. intros Hm. apply wp_zoom. exact Hm. Qed.

Lemma wpx_fs {A} (m : M fss A) Q E s mem k : wpx m (fun a s' => Q a (kk s' mem k)) E s -> wpx (fs m) Q E (kk s mem k).
Proof. unfold wpx, fs, zoom. change (view fsL (kk s mem k)) with s. by destruct (m s). Qed.

(** What a place receives. *)
Definition stores (dst : place) (m : memory) (l : list Z) : memory :=
  match dst with Phys pa => store_bytes m pa l | _ => m end.
Definition receives (dst : place) (l : list Z) : list Z := match dst with Local => l | _ => [] end.
(** Places in the kernel's memory. *)
Definition in_kernel (dst : place) (n : Z) : Prop :=
  match dst with UserVA _ => False | Phys pa => 0 <= pa /\ pa + n < 2 ^ 64 | Local => True end.

Lemma store_bytes_app l1 : forall m a l2, store_bytes m a (l1 ++ l2) = store_bytes (store_bytes m a l1) (a + Z.of_nat (length l1)) l2.
Proof.
  induction l1 as [|x l1 IH]; intros m a l2; cbn [app store_bytes length]; [by rewrite Z.add_0_r|].
  rewrite IH. f_equal. lia.
Qed.
Lemma stores_app dst m l1 l2 n :
  in_kernel dst n -> Z.of_nat (length l1) <= n ->
  stores (advance dst (Z.of_nat (length l1))) (stores dst m l1) l2 = stores dst m (l1 ++ l2).
Proof.
  destruct dst as [|pa|]; [done| |done]. cbn [in_kernel advance stores]. intros Hpa Hn.
  rewrite u64_small by lia. by rewrite store_bytes_app.
Qed.

Section Run.
Context (e : env).
Implicit Types (s : fss) (H : gmap bufp Z) (V : blocks) (L : list Z) (v : vec inode NINODE).

Lemma op_settle s H V L v : op e s H V L v -> op e (fsettle s) H V L v.
Proof.
  intros Hop. rewrite <- (op_inodes _ _ _ _ _ _ Hop) in *.
  apply (op_fenv e s H V L _ (settle (fcpu s)) (fptab s) (fs_itlock s) (fs_inode s) Hop); [|apply Hop].
  apply settle_quiet. by eapply op_quiet.
Qed.

Lemma curproc_run s H V L v m k :
  op e s H V L v ->
  curproc (view ustL (kk s m k)) = Ok (pt_proc (fptab s) !!! e_me e) (view ustL (kk (fsettle s) m k)).
Proof.
  intros Hop. destruct (op_quiet _ _ _ _ _ _ Hop) as [Hc Hr _ _ _]. unfold curproc, myprocp. rewrite bind_assoc.
  erewrite bind_ok by (by eapply myproc_run).
  assert (c_proc (view cpuL (view ustL (kk s m k))) = Some (e_me e)) as -> by exact Hr.
  by destruct s as [[[] ?] ? ? ?].
Qed.

Lemma either_copyout_run dst src n s H V L v m k :
  op e s H V L v -> in_kernel dst n ->
  um (either_copyout dst src n) (kk s m k) =
    Ok (0, receives dst (take (Z.to_nat n) src)) (kk (fsettle s) (stores dst m (take (Z.to_nat n) src)) k).
Proof.
  intros Hop Hd. unfold um, zoom, either_copyout. erewrite bind_ok by (by eapply curproc_run).
  destruct dst as [|pa|]; [done|by destruct s as [[[] ?] ? ? ?]..].
Qed.
End Run.

(** * [readi] *)

Section Readi.
Context (e : env) (La : layout e).
Abbreviation sb := (e_sb e).
Implicit Types (s : fss) (H : gmap bufp Z) (V : blocks) (L : list Z) (v : vec inode NINODE).

Lemma length_content V i off n : 0 <= n -> Z.of_nat (length (content V i off n)) = n.
Proof. intros Hn. unfold content. rewrite length_fmap, length_seqZ. lia. Qed.
Lemma content_app V i off a b : 0 <= a -> 0 <= b -> content V i off (a + b) = content V i off a ++ content V i (off + a) b.
Proof. intros Ha Hb. unfold content. by rewrite seqZ_app, fmap_app. Qed.
Lemma content_block V i off m :
  0 <= off -> 0 <= m -> off mod BSIZE + m <= BSIZE -> blk (V (addr_at V i (off / BSIZE))) ->
  take (Z.to_nat m) (drop (Z.to_nat (off mod BSIZE)) (V (addr_at V i (off / BSIZE)))) = content V i off m.
Proof.
  intros Ho Hm Hb Hk. unfold blk, BSIZE in *. pose proof (Z.mod_pos_bound off 1024 ltac:(lia)) as Hmod. apply list_eq. intros j. unfold content.
  rewrite list_lookup_fmap. destruct (decide (Z.of_nat j < m)) as [Hj|Hj].
  - rewrite lookup_take_lt, lookup_drop, lookup_seqZ_lt by lia. cbn [fmap option_fmap option_map]. unfold fbyte, byte, BSIZE.
    assert ((off + Z.of_nat j) / 1024 = off / 1024) as ->.
    { symmetry. apply (Z.div_unique _ _ _ (off mod 1024 + Z.of_nat j)); [lia|]. pose proof (Z.div_mod off 1024). lia. }
    assert ((off + Z.of_nat j) mod 1024 = off mod 1024 + Z.of_nat j) as ->.
    { symmetry. apply (Z.mod_unique _ _ (off / 1024)); [lia|]. pose proof (Z.div_mod off 1024). lia. }
    rewrite Z2Nat.inj_add, Nat2Z.id by lia. apply list_lookup_lookup_total_lt. lia.
  - rewrite lookup_take_ge, lookup_seqZ_ge by lia. done.
Qed.
Lemma receives_app dst l1 l2 : receives dst l1 ++ receives dst l2 = receives dst (l1 ++ l2).
Proof. by destruct dst. Qed.
Lemma advance_advance dst a b : advance (advance dst a) b = advance dst (a + b).
Proof. destruct dst; cbn; try done; unfold u64; rewrite Zplus_mod_idemp_l; do 2 f_equal; lia. Qed.
Lemma in_kernel_advance dst n a b : in_kernel dst n -> 0 <= a -> 0 <= b -> a + b <= n -> in_kernel (advance dst a) b.
Proof. destruct dst; cbn; try done. intros ? ? ? ?. rewrite u64_small by lia. lia. Qed.

(** The state of the loop: [tot] bytes from [off] have been copied. *)
Record reading (k : kern) V L v ip (dst : place) (off tot : Z) (off' : Z) (dst' : place) (acc : list Z) (k' : kern) : Prop := {
  ri_op : op e (k_fs k') ∅ V L v;
  ri_off : off' = off + tot;
  ri_dst : dst' = advance dst tot;
  ri_acc : acc = receives dst (content V (v !!! ip) off tot);
  ri_rest : exists s', k' = kk s' (stores dst (k_mem k) (content V (v !!! ip) off tot)) k;
}.

Lemma readi_step_spec k V L v ip dst off n tot off' dst' acc k' :
  reading k V L v ip dst off tot off' dst' acc k' -> (forall b, blk (V b)) -> file_ok e V (v !!! ip) -> (length L < NBUF)%nat ->
  in_kernel dst n -> 0 <= off -> 0 <= tot < n -> off + n <= i_size (v !!! ip) ->
  wp (readi_step ip n (tot, off', dst', acc)) (fun r k2 => exists tot2 off2 dst2 acc2, r = inl (tot2, off2, dst2, acc2) /\
    tot < tot2 <= n /\ reading k V L v ip dst off tot2 off2 dst2 acc2 k2) k'.
Proof.
  intros [Hop -> -> -> [s' ->]] Hk Hf HL Hd Hoff Htot Hsz. pose proof Hf as [Hdev _ Hfsz Hbl Hind].
  set (i := v !!! ip) in *. set (o := off + tot) in *. pose proof (Z.mod_pos_bound o BSIZE ltac:(done)) as Hmod.
  pose proof (Z.div_mod o BSIZE ltac:(done)) as Hdm. pose proof (Z.div_pos o BSIZE ltac:(lia) ltac:(done)) as Hq.
  assert (data_block sb (addr_at V i (o / BSIZE))) as Hdb by (apply Hbl; lia). pose proof (data_block_pos e La _ Hdb) as Hpos.
  unfold readi_step. destruct (Z.ltb_spec tot n); [|lia]. cbn [negb].
  apply wp_bind, wp_fs. eapply op_geti; [exact Hop|]. fold i.
  apply wp_bind, wp_fs. eapply wp_mono; [apply (bmap_hit e La _ ∅ V L v ip (o / BSIZE) Hop)|].
  { rewrite map_size_empty. lia. }
  { exact Hdev. }
  { split; [done|]. unfold MAXFILE in *. apply Z.div_lt_upper_bound; [done|]. lia. }
  { fold i. lia. }
  { intros Hnd. fold i. split; [|apply holds_empty]. apply Hind.
    pose proof (Z.mul_le_mono_nonneg_r NDIRECT (o / BSIZE) BSIZE ltac:(done) Hnd). lia. }
  cbv beta. intros a s1 [-> Hop1]. fold i. rewrite Hdev.
  apply wp_bind, wp_fs. eapply wp_mono; [apply (op_fbread e s1 ∅ V L v _ Hop1)|].
  { lia. } { apply holds_empty. } { rewrite map_size_empty. lia. }
  cbv beta. intros b s2 [_ Hop2]. apply wp_bind, wp_fs. eapply op_fdata; [exact Hop2|apply lookup_insert_eq|].
  set (m := Z.min (n - tot) (BSIZE - o mod BSIZE)).
  apply wp_bind. eapply wp_ok; [eapply either_copyout_run; [exact Hop2|]|].
  { apply (in_kernel_advance dst n); [done|lia..]. }
  cbv beta. cbn [fst snd]. change (0 =? -1) with false. cbv iota.
  rewrite content_block by (done || lia). apply op_settle in Hop2.
  apply wp_bind, wp_fs. eapply wp_mono; [eapply op_brelse; [exact Hop2|apply lookup_insert_eq]|]. cbv beta. intros [] s3 Hop3.
  rewrite delete_insert_id in Hop3 by apply lookup_empty. apply wp_ret. eexists (tot + m), _, _, _. split; [reflexivity|].
  split; [lia|]. split.
  - exact Hop3.
  - lia.
  - by rewrite advance_advance.
  - rewrite content_app by lia. destruct dst; [done|done|]. done.
  - exists s3. rewrite content_app by lia. rewrite <- (stores_app dst _ _ _ n) by (done || rewrite length_content; lia).
    rewrite length_content by lia. done.
Qed.

Lemma reading_start k V L v ip dst off : op e (k_fs k) ∅ V L v -> reading k V L v ip dst off 0 off (advance dst 0) [] k.
Proof.
  intros Hop. split; [done|lia|done| |]; change (content V (v !!! ip) off 0) with (@nil Z); [by destruct dst|].
  exists (k_fs k). destruct dst; symmetry; apply kk_self.
Qed.

(** The number of bytes there are to read. *)
Definition read_len (i : inode) (off n : Z) : Z := if i_size i <? off then 0 else Z.min n (i_size i - off).

Lemma readi_loop k V L v ip dst off n :
  op e (k_fs k) ∅ V L v -> (forall b, blk (V b)) -> file_ok e V (v !!! ip) -> (length L < NBUF)%nat ->
  in_kernel dst n -> 0 <= off -> 0 <= n -> off + n <= i_size (v !!! ip) ->
  wp (loop (readi_step ip n) (0, off, dst, [])) (fun r k' => exists off' dst' acc,
    r = (n, acc) /\ reading k V L v ip dst off n off' dst' acc k') k.
Proof.
  intros Hop Hk Hf HL Hd Hoff Hn Hsz. pose proof (fo_size _ _ _ Hf) as Hfsz. assert (MAXFILE * BSIZE < 2 ^ 31) as HM by done.
  apply (wp_loop _ (fun j a k' => let '(tot, off', dst', acc) := a in
    0 <= tot <= n /\ j = Z.to_nat (n - tot) /\ reading k V L v ip dst off tot off' dst' acc k')) with (n := Z.to_nat n).
  - intros j [[[tot off'] dst'] acc] k' (Htot & -> & Hr). destruct (decide (tot < n)) as [Hlt|Hge].
    + eapply wp_mono; [apply (readi_step_spec k V L v ip dst off n tot off' dst' acc k' Hr); try done; lia|].
      cbv beta. intros r k2 (tot2 & off2 & dst2 & acc2 & -> & Ht2 & Hr2). exists (Z.to_nat (n - tot2)). split; [lia|]. by split_and!; try lia.
    + unfold readi_step. destruct (Z.ltb_spec tot n); [lia|]. cbn [negb]. apply wp_ret.
      assert (tot = n) as -> by lia. by exists off', dst', acc.
  - split_and!; [lia|lia|f_equal; lia|].
    destruct (reading_start k V L v ip dst off Hop) as [H1 H2 _ H4 H5]. split; [done..| |done|done].
    destruct dst as [|pa|]; cbn; [done| |done]. cbn in Hd. f_equal. rewrite u64_small; lia.
  - lia.
Qed.
End Readi.

Lemma readi_spec e k V L v ip dst off n :
  layout e -> op e (k_fs k) ∅ V L v -> (forall b, blk (V b)) -> file_ok e V (v !!! ip) -> (length L < NBUF)%nat ->
  in_kernel dst n -> 0 <= off < 2 ^ 32 -> 0 <= n < 2 ^ 32 ->
  let m := if off + n <? 2 ^ 32 then read_len (v !!! ip) off n else 0 in
  wp (readi ip dst off n) (fun r k' =>
    r = (m, receives dst (content V (v !!! ip) off m)) /\
    op e (k_fs k') ∅ V L v /\ exists s', k' = kk s' (stores dst (k_mem k) (content V (v !!! ip) off m)) k) k.
Proof.
  intros La Hop Hk Hf HL Hd Hoff Hn. cbv zeta. unfold read_len, readi. pose proof (fo_size _ _ _ Hf) as Hfsz.
  assert (MAXFILE * BSIZE < 2 ^ 31) as HM by done.
  apply wp_bind, wp_zoom. eapply op_geti; [exact Hop|]. rewrite (put_view (l:=fsL)).
  set (i := v !!! ip) in *.
  destruct (Z.ltb_spec (off + n) (2 ^ 32)) as [Hsmall|Hbig].
  - rewrite (u32_small (off + n)) by lia. destruct (Z.ltb_spec (off + n) off); [lia|].
    destruct (Z.ltb_spec (i_size i) off) as [Hpast|Hin]; cbn [orb].
    { apply wp_ret. split_and!; [by destruct dst|done|]. exists (k_fs k). destruct dst; symmetry; apply kk_self. }
    replace (if i_size i <? off + n then u32 (i_size i - off) else n) with (Z.min n (i_size i - off)).
    2:{ destruct (Z.ltb_spec (i_size i) (off + n)); [rewrite u32_small|]; lia. }
    wseq (readi_loop e La k V L v ip dst off (Z.min n (i_size i - off)) Hop Hk Hf HL); [|lia|lia|fold i; lia|].
    { destruct dst; cbn in *; [done|lia|done]. }
    cbv beta. intros r k' (off' & dst' & acc & -> & [Hop' _ _ -> Hrest]). apply wp_ret. cbn [fst snd].
    rewrite s32_small by lia. by split_and!.
  - assert ((u32 (off + n) <? off) = true) as ->.
    { apply Z.ltb_lt. unfold u32. rewrite <- (Z.mod_add _ (-1)) by lia. rewrite Z.mod_small; lia. }
    rewrite orb_true_r. apply wp_ret. split_and!; [by destruct dst|done|]. exists (k_fs k). destruct dst; symmetry; apply kk_self.
Qed.

(** C15: [readi] reads the file. Into a variable or a page of the kernel, within an
    operation, it copies exactly the bytes of the file from the offset on: as many
    as were asked for or are left, none past the end, and none when offset and count
    overflow. It returns their number, changes no block, inode or other memory. *)
Theorem readi_correct e k V L v ip dst off n :
  layout e -> op e (k_fs k) ∅ V L v -> (forall b, blk (V b)) -> file_ok e V (v !!! ip) -> (length L < NBUF)%nat ->
  in_kernel dst n -> 0 <= off < 2 ^ 32 -> 0 <= n < 2 ^ 32 ->
  let m := if off + n <? 2 ^ 32 then read_len (v !!! ip) off n else 0 in
  wp (readi ip dst off n) (fun r k' =>
    r = (m, receives dst (content V (v !!! ip) off m)) /\
    op e (k_fs k') ∅ V L v /\ exists s', k' = kk s' (stores dst (k_mem k) (content V (v !!! ip) off m)) k) k.
Proof. exact (readi_spec e k V L v ip dst off n). Qed.

(** A kernel around a file system. *)
Module Around.
Definition lk : spinlock := Spinlock 0 "lock" None.
Definition drv : vdisk :=
  Vdisk (vreplicate NUM desc0) 0 (vreplicate NUM 0) 0 (vreplicate NUM 0) (vreplicate NUM 1) 0 (vreplicate NUM None)
    (vreplicate NUM 0) (vreplicate NUM (BlkReq 0 0 0)) lk (fun _ => 0) [].
Definition kernel (s : fss) : kern :=
  Kern s (fun _ => 0) lk 0 (Uart lk (replicate 32 0) 0 0 [] [] []) (Cons lk (replicate 128 0) 0 0 0) lk 1 0 drv lk
    (vreplicate NFILE (File FD_NONE 0 0 0 0 None 0 0)) ∅ lk 0 0 (Csrs 0 0 0 0 0 0 0 [] [] 0).
Lemma file : file_ok Volume.volume (dread Volume.dsk) Entry.entry.
Proof.
  split; [done|done|by vm_compute| |by vm_compute].
  intros bn H0 H1. cbn in H1. unfold BSIZE in H1. assert (bn = 0 \/ bn = 1) as [-> | ->] by lia; by vm_compute.
Qed.
End Around.

Lemma readi_correct_witness : exists k k', readi 0%fin Local 1990 20 k = Ok (10, replicate 10 0) k'.
Proof.
  destruct Entry.entry_op as [s Hs]. exists (Around.kernel s).
  pose proof (readi_correct Volume.volume (Around.kernel s) _ [] _ 0%fin Local 1990 20 Volume.volume_layout Hs Volume.volume_blk) as Hr.
  rewrite Entry.entry_at in Hr.
  destruct (wp_run _ _ _ (Hr Around.file ltac:(unfold NBUF; cbn; lia) I ltac:(lia) ltac:(lia))) as (r & k' & E & -> & _).
  exists k'. exact E.
Defined.
