(* ===== verification/Growth.v ===== *)
(** Growing a file: [bmap] of [src/kernel/fs.c] when it allocates.

    [inode_ok] says that an inode owns its blocks: they are data blocks in use and
    no two slots name the same block. [grown] is what a call of [bmap] may change:
    one slot, and the indirect block if there was none. *)

From stdpp Require Import gmap.
From S2P Require Import Prelude Params Spinlock Sched Sleeplock Bio Cache Log Journal Crash Txn Fs Blocks Inodes Kern Path Contents.
Local Open Scope kernel_scope.

(** The slots of an inode: the blocks of the file, and [-1] for the indirect block. *)
Definition ind (i : inode) : Z := i_addrs i !!! Z.to_nat NDIRECT.
Definition slot_at (V : blocks) (i : inode) (c : Z) : Z := if c =? -1 then ind i else addr_at V i c.

Record inode_ok (e : env) (V : blocks) (i : inode) : Prop := {
  io_dev : i_dev i = ROOTDEV;
  io_len : length (i_addrs i) = 13%nat;
  io_addrs : Forall (fun a => 0 <= a < 2 ^ 32) (i_addrs i);
  io_data c : -1 <= c < MAXFILE -> slot_at V i c <> 0 ->
    data_block (e_sb e) (slot_at V i c) /\ used (e_sb e) V (slot_at V i c) = true;
  io_inj c d : -1 <= c < MAXFILE -> -1 <= d < MAXFILE -> slot_at V i c <> 0 -> slot_at V i c = slot_at V i d -> c = d;
}.

Definition set_slot (j : Z) (a : Z) (i : inode) : inode := set_iaddrs (<[Z.to_nat j := a]> (i_addrs i)) i.

Record grown (e : env) (bn : Z) (V : blocks) (i : inode) (V' : blocks) (i' : inode) : Prop := {
  gr_bitmap : bitmap_ok e V';
  gr_ok : inode_ok e V' i';
  gr_same : i' = set_iaddrs (i_addrs i') i;
  gr_addr c : 0 <= c < MAXFILE -> c <> bn -> addr_at V' i' c = addr_at V i c;
  gr_old : addr_at V i bn <> 0 -> addr_at V' i' bn = addr_at V i bn;
  gr_new : addr_at V i bn = 0 -> addr_at V' i' bn <> 0 -> V' (addr_at V' i' bn) = zero_block;
  gr_free : addr_at V i bn = 0 -> addr_at V' i' bn <> 0 -> used (e_sb e) V (addr_at V' i' bn) = false;
  gr_ind : ind i <> 0 -> ind i' = ind i;
  gr_fresh : ind i = 0 -> ind i' <> 0 -> used (e_sb e) V (ind i') = false;
  gr_keep x : data_block (e_sb e) x -> used (e_sb e) V x = true -> x <> ind i -> V' x = V x;
  gr_used x : 0 <= x < sb_size (e_sb e) -> used (e_sb e) V x = true -> used (e_sb e) V' x = true;
  gr_meta x : x < sb_bmapstart (e_sb e) -> V' x = V x;
}.

Section Growth.
Context (e : env) (La : layout e).
Abbreviation sb := (e_sb e).
Implicit Types (V : blocks) (i : inode).

Lemma file_grown_refl bn V i : bitmap_ok e V -> inode_ok e V i -> grown e bn V i V i.
Proof. intros Hb Hi. split; try done. by destruct i. Qed.

Lemma le_val_zeros n : le_val (replicate n 0) = 0.
Proof. induction n as [|n IH]; [done|]. unfold le_val in *. cbn [replicate foldr]. by rewrite IH. Qed.
Lemma word_zero k : word zero_block k = 0.
Proof. unfold word, get_le, slice, zero_block. rewrite drop_replicate, take_replicate. apply le_val_zeros. Qed.
Lemma word_set_word k x d j :
  0 <= k < NINDIRECT -> 0 <= j < NINDIRECT -> blk d -> word (set_word k x d) j = if decide (j = k) then x mod 2 ^ 32 else word d j.
Proof.
  intros Hk Hj Hd. unfold blk in Hd. change NINDIRECT with 256 in *. unfold BSIZE in Hd. unfold word, set_word. case_decide as E.
  - subst j. rewrite get_put_le by lia. done.
  - rewrite get_put_le_other by lia. done.
Qed.
Lemma blk_set_word k x d : 0 <= k < NINDIRECT -> blk d -> blk (set_word k x d).
Proof. intros Hk Hd. unfold blk, set_word in *. change NINDIRECT with 256 in *. unfold BSIZE in *. rewrite length_put_le; lia. Qed.

Lemma set_slot_lookup j a i c :
  length (i_addrs i) = 13%nat -> 0 <= j <= NDIRECT -> 0 <= c ->
  i_addrs (set_slot j a i) !!! Z.to_nat c = if decide (c = j) then a else i_addrs i !!! Z.to_nat c.
Proof.
  intros Hl Hj Hc. unfold NDIRECT in Hj. unfold set_slot. cbn. case_decide as E.
  - subst c. apply list_lookup_total_insert_eq. lia.
  - apply list_lookup_total_insert_ne. lia.
Qed.
Lemma set_slot_len j a i : length (i_addrs (set_slot j a i)) = length (i_addrs i).
Proof. apply length_insert. Qed.
Lemma set_slot_addrs j a i :
  Forall (fun a => 0 <= a < 2 ^ 32) (i_addrs i) -> 0 <= a < 2 ^ 32 -> Forall (fun a => 0 <= a < 2 ^ 32) (i_addrs (set_slot j a i)).
Proof. intros Hi Ha. by apply Forall_insert. Qed.

(** Another slot gets a free block. *)
Lemma inode_ok_grow V i V' i' t a :
  inode_ok e V i -> -1 <= t < MAXFILE -> slot_at V i t = 0 -> data_block sb a -> used sb V a = false ->
  (forall c, -1 <= c < MAXFILE -> slot_at V' i' c = if decide (c = t) then a else slot_at V i c) ->
  (forall x, 0 <= x < sb_size sb -> used sb V' x = bool_decide (x = a) || used sb V x) ->
  i_dev i' = ROOTDEV -> length (i_addrs i') = 13%nat -> Forall (fun a => 0 <= a < 2 ^ 32) (i_addrs i') -> inode_ok e V' i'.
Proof.
  intros [Hdev Hlen Hads Hd Hinj] Ht Hz Ha Hua Hs Hu Hdev' Hlen' Hads'.
  assert (forall x, data_block sb x -> 0 <= x < sb_size sb) as Hpos.
  { intros x Hx. pose proof (data_block_pos e La x Hx). unfold data_block in Hx. lia. }
  split; [done..| |].
  - intros c Hc. rewrite Hs by done. case_decide as E; intros Hne.
    + split; [done|]. rewrite Hu by auto. by rewrite bool_decide_eq_true_2.
    + destruct (Hd c Hc Hne) as [H1 H2]. split; [done|]. rewrite Hu by auto. by rewrite H2, orb_true_r.
  - intros c d Hc Hd'. rewrite !Hs by done. repeat case_decide; subst; try done; intros Hne E.
    + destruct (Hd d Hd') as [_ Hx]; [by rewrite <- E|]. rewrite <- E in Hx. congruence.
    + destruct (Hd c Hc Hne) as [_ Hx]. rewrite E in Hx. congruence.
    + by apply Hinj.
Qed.

Lemma addr_slot V i c : 0 <= c -> slot_at V i c = addr_at V i c.
Proof. intros Hc. unfold slot_at. by destruct (Z.eqb_spec c (-1)); [lia|]. Qed.

Lemma file_grown_trans bn V i V1 i1 V2 i2 :
  0 <= bn < MAXFILE -> grown e bn V i V1 i1 -> grown e bn V1 i1 V2 i2 -> grown e bn V i V2 i2.
Proof.
  intros Hbn G1 G2. pose proof G1 as [_ Hok1 Hs1 Ha1 Ho1 Hn1 Hr1 Hi1 Hf1 Hk1 Hu1 Hm1].
  destruct G2 as [Hb2 Hok2 Hs2 Ha2 Ho2 Hn2 Hr2 Hi2 Hf2 Hk2 Hu2 Hm2].
  split; [done|done| | | | | | | | | |].
  - rewrite Hs2, Hs1. by destruct i.
  - intros c Hc Hne. by rewrite Ha2, Ha1.
  - intros Hne. rewrite Ho2; [by apply Ho1|]. by rewrite Ho1.
  - intros Hz Hne. destruct (decide (addr_at V1 i1 bn = 0)) as [E|E]; [by apply Hn2|].
    rewrite Ho2 by done. assert (slot_at V1 i1 bn = addr_at V1 i1 bn) as Es by (unfold slot_at; destruct (Z.eqb_spec bn (-1)); [lia|done]).
    destruct (io_data _ _ _ Hok1 bn ltac:(lia)) as [Hd Hu]; [by rewrite Es|]. rewrite Es in *.
    rewrite Hk2; [by apply Hn1|done|done|]. intros Ei.
    assert (bn = -1); [|lia]. apply (io_inj _ _ _ Hok1); [lia|unfold MAXFILE in *; lia|by rewrite Es|by rewrite Es].
  - intros Hz Hne. destruct (decide (addr_at V1 i1 bn = 0)) as [E|E]; [|rewrite Ho2 by done; by apply Hr1].
    specialize (Hr2 E Hne). rewrite <- (addr_slot V2 i2) in * by lia.
    destruct (io_data _ _ _ Hok2 bn ltac:(lia) Hne) as [Hd _]. pose proof (data_block_pos e La _ Hd). unfold data_block in Hd.
    destruct (used sb V (slot_at V2 i2 bn)) eqn:Eu; [|done]. rewrite Hu1 in Hr2; [done|lia|done].
  - intros Hne. rewrite Hi2; [by apply Hi1|]. by rewrite Hi1.
  - intros Hz Hne. destruct (decide (ind i1 = 0)) as [E|E]; [|rewrite Hi2 by done; by apply Hf1].
    specialize (Hf2 E Hne). destruct (io_data _ _ _ Hok2 (-1)) as [Hd _]; [done|done|].
    change (slot_at V2 i2 (-1)) with (ind i2) in Hd. pose proof (data_block_pos e La _ Hd). unfold data_block in Hd.
    destruct (used sb V (ind i2)) eqn:Eu; [|done]. rewrite Hu1 in Hf2; [done|lia|done].
  - intros x Hx Hu Hne. pose proof (data_block_pos e La x Hx). unfold data_block in Hx. rewrite Hk2; [by apply Hk1|done|apply Hu1; [lia|done]|].
    intros ->. destruct (decide (ind i = 0)) as [Ez|Ez]; [|by rewrite Hi1 in Hne].
    rewrite Hf1 in Hu; [done|done|]. lia.
  - intros x Hx Hu. apply Hu2; [done|]. by apply Hu1.
  - intros x Hx. by rewrite Hm2, Hm1.
Qed.

(** ** Allocations *)

Lemma allocated_meta V a x : 0 <= a < sb_size sb -> datastart sb <= a -> x < sb_bmapstart sb -> allocated sb V a x = V x.
Proof.
  intros Ha Hda Hx. pose proof (bmap_data e La). unfold allocated, BBLOCK.
  pose proof (Z.div_pos a BPB ltac:(lia) ltac:(done)). rewrite !setv_ne by lia. done.
Qed.
Lemma first_free_block V a : bitmap_ok e V -> first_free sb V a -> data_block sb a /\ used sb V a = false.
Proof. intros Hb Hf. pose proof (first_free_data e V a Hb Hf). destruct Hf as (? & ? & _). split; [split; [done|lia]|done]. Qed.
Lemma used_other V x a : used sb V x = true -> used sb V a = false -> x <> a.
Proof. congruence. Qed.

(** What all three allocations have in common. *)
Lemma grown_alloc bn t V i V' i' a :
  bitmap_ok e V -> inode_ok e V i -> bitmap_ok e V' -> 0 <= bn < MAXFILE -> -1 <= t < MAXFILE -> slot_at V i t = 0 ->
  first_free sb V a -> (t = bn \/ t = -1) -> i' = set_iaddrs (i_addrs i') i ->
  length (i_addrs i') = 13%nat -> Forall (fun a => 0 <= a < 2 ^ 32) (i_addrs i') ->
  (forall c, -1 <= c < MAXFILE -> slot_at V' i' c = if decide (c = t) then a else slot_at V i c) ->
  (forall x, 0 <= x < sb_size sb -> used sb V' x = bool_decide (x = a) || used sb V x) ->
  V' a = zero_block -> (forall x, data_block sb x -> x <> a -> x <> ind i -> V' x = V x) ->
  (forall x, x < sb_bmapstart sb -> V' x = V x) -> grown e bn V i V' i'.
Proof.
  intros Hb Hok Hb' Hbn Ht Hz Hf Htc Hi' Hlen Hads Hs Hu Ha Hk Hm. destruct (first_free_block V a Hb Hf) as [Hda Hua].
  pose proof (data_block_pos e La a Hda) as Hap.
  assert (forall c, 0 <= c < MAXFILE -> addr_at V' i' c = if decide (c = t) then a else addr_at V i c) as Hadr.
  { intros c Hc. rewrite <- !addr_slot by lia. apply Hs. lia. }
  assert (ind i' = if decide (-1 = t) then a else ind i) as Hind by (apply (Hs (-1)); done).
  split; [done| |done| | | | | | | | |done].
  - eapply (inode_ok_grow V i V' i' t a); try done. rewrite Hi'. apply Hok.
  - intros c Hc Hne. rewrite Hadr by done. rewrite decide_False; [done|]. lia.
  - intros Hne. rewrite Hadr by done. destruct (decide (bn = t)) as [E|]; [|done]. subst t. rewrite addr_slot in Hz by lia. congruence.
  - intros Hz' Hne. rewrite Hadr in Hne |- * by done. destruct (decide (bn = t)); [done|]. congruence.
  - intros Hz' Hne. rewrite Hadr in Hne |- * by done. destruct (decide (bn = t)); [done|]. congruence.
  - intros Hne. rewrite Hind. destruct (decide (-1 = t)) as [E|]; [|done]. subst t. done.
  - intros Hiz Hne. rewrite Hind in Hne |- *. destruct (decide (-1 = t)); [done|]. congruence.
  - intros x Hx Hux Hne. apply Hk; [done| |done]. by apply (used_other V).
  - intros x Hx Hux. rewrite Hu by done. rewrite Hux. apply orb_true_r.
Qed.

Lemma grow_direct V i bn a :
  bitmap_ok e V -> inode_ok e V i -> 0 <= bn < NDIRECT -> addr_at V i bn = 0 -> first_free sb V a ->
  grown e bn V i (allocated sb V a) (set_slot bn a i) /\ addr_at (allocated sb V a) (set_slot bn a i) bn = a.
Proof.
  intros Hb Hok Hbn Hz Hf. destruct (first_free_block V a Hb Hf) as [Hda Hua]. pose proof (data_block_pos e La a Hda) as Hap.
  unfold data_block in Hda. pose proof (io_len _ _ _ Hok) as Hlen. assert (NDIRECT < MAXFILE) as HM by done.
  assert (ind (set_slot bn a i) = ind i) as Hind.
  { unfold ind. rewrite set_slot_lookup by (done || lia). by rewrite decide_False by lia. }
  assert (forall c, 0 <= c < MAXFILE -> addr_at (allocated sb V a) (set_slot bn a i) c = if decide (c = bn) then a else addr_at V i c) as Hadr.
  { intros c Hc. unfold addr_at. fold (ind (set_slot bn a i)) (ind i). rewrite Hind. destruct (Z.ltb_spec c NDIRECT).
    - rewrite set_slot_lookup by lia. done.
    - rewrite decide_False by lia. destruct (Z.eqb_spec (ind i) 0) as [|Hne]; [done|].
      destruct (io_data _ _ _ Hok (-1) ltac:(done) Hne) as [Hid Hiu]. change (slot_at V i (-1)) with (ind i) in *.
      rewrite (allocated_other e La) by (apply Hid || lia || by apply (used_other V)). done. }
  split; [|rewrite Hadr by lia; by rewrite decide_True].
  apply (grown_alloc bn bn V i _ _ a); try done; try lia.
  - apply allocated_ok; [done..|lia].
  - rewrite addr_slot by lia. done.
  - by rewrite set_slot_len.
  - apply set_slot_addrs; [apply Hok|lia].
  - intros c Hc. destruct (decide (c = -1)) as [->|Hne].
    + rewrite decide_False by lia. exact Hind.
    + rewrite !addr_slot by lia. apply Hadr. lia.
  - intros x Hx. apply used_allocated; [done..|lia|done].
  - apply allocated_same.
  - intros x Hx Hxa _. apply allocated_other; [done|lia|apply Hx|done].
  - intros x Hx. apply allocated_meta; lia.
Qed.

Lemma grow_ind V i bn a :
  bitmap_ok e V -> inode_ok e V i -> NDIRECT <= bn < MAXFILE -> ind i = 0 -> first_free sb V a ->
  grown e bn V i (allocated sb V a) (set_slot NDIRECT a i) /\ ind (set_slot NDIRECT a i) = a.
Proof.
  intros Hb Hok Hbn Hz Hf. destruct (first_free_block V a Hb Hf) as [Hda Hua]. pose proof (data_block_pos e La a Hda) as Hap.
  unfold data_block in Hda. pose proof (io_len _ _ _ Hok) as Hlen. assert (0 < NDIRECT) as HN by done.
  assert (ind (set_slot NDIRECT a i) = a) as Hind.
  { unfold ind. rewrite set_slot_lookup by (done || lia). by rewrite decide_True. }
  split; [|done]. apply (grown_alloc bn (-1) V i _ _ a); try done; try lia.
  - apply allocated_ok; [done..|lia].
  - by rewrite set_slot_len.
  - apply set_slot_addrs; [apply Hok|lia].
  - intros c Hc. destruct (decide (c = -1)) as [->|Hne]; [exact Hind|]. rewrite !addr_slot by lia. unfold addr_at.
    fold (ind (set_slot NDIRECT a i)) (ind i). rewrite Hind, Hz. destruct (Z.ltb_spec c NDIRECT).
    + rewrite set_slot_lookup by lia. by rewrite decide_False by lia.
    + change (0 =? 0) with true. cbv iota. destruct (Z.eqb_spec a 0); [done|]. rewrite allocated_same. apply word_zero.
  - intros x Hx. apply used_allocated; [done..|lia|done].
  - apply allocated_same.
  - intros x Hx Hxa _. apply allocated_other; [done|lia|apply Hx|done].
  - intros x Hx. apply allocated_meta; lia.
Qed.

(** The indirect block with a new entry. *)
Definition entered_in (V : blocks) (i : inode) (bn a : Z) : blocks :=
  setv V (ind i) (set_word (bn - NDIRECT) a (V (ind i))).

Lemma grow_entry V i bn a :
  bitmap_ok e V -> inode_ok e V i -> NDIRECT <= bn < MAXFILE -> ind i <> 0 -> addr_at V i bn = 0 -> first_free sb V a ->
  let V' := entered_in (allocated sb V a) i bn a in
  grown e bn V i V' i /\ addr_at V' i bn = a.
Proof.
  intros Hb Hok Hbn Hiz Hz Hf V'. destruct (first_free_block V a Hb Hf) as [Hda Hua]. pose proof (data_block_pos e La a Hda) as Hap.
  unfold data_block in Hda. pose proof (io_len _ _ _ Hok) as Hlen. assert (0 < NDIRECT /\ MAXFILE = NDIRECT + NINDIRECT) as [HN HM] by done.
  destruct (io_data _ _ _ Hok (-1) ltac:(done) Hiz) as [Hid Hiu]. change (slot_at V i (-1)) with (ind i) in *.
  pose proof (data_block_pos e La _ Hid) as Hip. unfold data_block in Hid.
  assert (ind i <> a) as Hia by (by apply (used_other V)).
  assert (allocated sb V a (ind i) = V (ind i)) as Hsame by (apply allocated_other; [done|lia|lia|done]).
  assert (forall c, 0 <= c < MAXFILE -> addr_at V' i c = if decide (c = bn) then a else addr_at V i c) as Hadr.
  { intros c Hc. unfold addr_at. fold (ind i). destruct (Z.ltb_spec c NDIRECT); [by rewrite decide_False by lia|].
    destruct (Z.eqb_spec (ind i) 0); [done|]. unfold V', entered_in. rewrite setv_same, Hsame.
    rewrite word_set_word by (apply Hb || lia). destruct (decide (c = bn)) as [->|].
    - rewrite decide_True by done. apply Z.mod_small. lia.
    - rewrite decide_False by lia. done. }
  assert (forall x, 0 <= x < sb_size sb -> used sb V' x = used sb (allocated sb V a) x) as Hus.
  { intros x Hx. pose proof (BBLOCK_range e La x Hx). unfold used, V', entered_in. by rewrite setv_ne by lia. }
  split; [|rewrite Hadr by lia; by rewrite decide_True].
  pose proof (datastart_pos e La). pose proof (la_log _ La). pose proof (la_data _ La).
  pose proof (allocated_ok e La V a Hb ltac:(lia)) as [Hbk Hbm]. pose proof (bmap_data e La).
  apply (grown_alloc bn bn V i _ _ a); try done; try lia.
  - split.
    + apply blk_setv; [done|]. apply blk_set_word; [lia|apply Hbk].
    + intros x Hx. rewrite Hus by lia. by apply Hbm.
  - rewrite addr_slot by lia. done.
  - by destruct i.
  - apply Hok.
  - intros c Hc. destruct (decide (c = -1)) as [->|Hne]; [by rewrite decide_False by lia|].
    rewrite !addr_slot by lia. apply Hadr. lia.
  - intros x Hx. rewrite Hus by done. apply used_allocated; [done..|lia|done].
  - unfold V', entered_in. rewrite setv_ne by done. apply allocated_same.
  - intros x Hx Hxa Hxi. unfold V', entered_in. rewrite setv_ne by done. apply allocated_other; [done|lia|apply Hx|done].
  - intros x Hx. unfold V', entered_in. rewrite setv_ne by lia. apply allocated_meta; lia.
Qed.
End Growth.

(** * [bmap] *)

Section Bmap.
Context (e : env) (La : layout e).
Abbreviation sb := (e_sb e).
Implicit Types (s : fss) (H : gmap bufp Z) (V : blocks) (L : list Z) (v : vec inode NINODE).

Definition no_blocks (w : stop) : Prop := w = Panic "balloc: out of blocks".

(** [balloc] for a slot of the inode's entry. *)
Lemma balloc_slot_spec s V L v ip j k :
  op e s ∅ V L v -> bitmap_ok e V -> i_dev (v !!! ip) = ROOTDEV -> fits e ∅ L (2 + k) ->
  wpx (a <- balloc (i_dev (v !!! ip)) ;; updi ip (fun i => set_iaddrs (<[Z.to_nat j := a]> (i_addrs i)) i) ;; ret a)
    (fun a s' => first_free sb V a /\ exists L', op e s' ∅ (allocated sb V a) L' (vinsert ip (set_slot j a (v !!! ip)) v) /\ fits e ∅ L' k)
    no_blocks s.
Proof.
  intros Hop Hb Hdev Hf. rewrite Hdev. apply wpx_bind.
  eapply wpx_weaken; [eapply wpx_mono; [apply (balloc_spec e La s ∅ V L v Hop Hb)|]|].
  - intros b Hb'. by destruct (holds_empty b).
  - unfold fits in *. lia.
  - cbv beta. intros a s1 [Hff Hop1]. xseq op_updi; [exact Hop1|]. cbv beta. intros [] s2 Hop2. apply wpx_wp, wp_ret.
    split; [done|]. eexists. split; [exact Hop2|]. by do 2 apply fits_logged.
  - by intros w [-> _].
Qed.

(** The entry of the indirect block. *)
Lemma bmap_entry_spec s V L v ip bn k :
  op e s ∅ V L v -> bitmap_ok e V -> inode_ok e V (v !!! ip) -> NDIRECT <= bn < MAXFILE -> ind (v !!! ip) <> 0 ->
  fits e ∅ L (3 + k) ->
  wpx (bp <- fbread (i_dev (v !!! ip)) (ind (v !!! ip)) ;;
       d <- fdata bp ;;
       let addr := word d (bn - NDIRECT) in
       addr <- (if addr =? 0 then
                  addr <- balloc (i_dev (v !!! ip)) ;;
                  set_fdata bp (set_word (bn - NDIRECT) addr) ;;
                  logop (log_write bp) ;;
                  ret addr
                else ret addr) ;;
       bioop (brelse bp) ;;
       ret addr)
    (fun a s' => exists V' L', op e s' ∅ V' L' v /\ grown e bn V (v !!! ip) V' (v !!! ip) /\
      a = addr_at V' (v !!! ip) bn /\ a <> 0 /\ fits e ∅ L' k)
    no_blocks s.
Proof.
  intros Hop Hb Hok Hbn Hiz Hf. set (i := v !!! ip) in *. rewrite (io_dev _ _ _ Hok).
  destruct (io_data _ _ _ Hok (-1) ltac:(done) Hiz) as [Hid Hiu]. change (slot_at V i (-1)) with (ind i) in *.
  pose proof (data_block_pos e La _ Hid) as Hip. assert (0 < NDIRECT) as HN by done.
  assert (addr_at V i bn = word (V (ind i)) (bn - NDIRECT)) as Ea.
  { unfold addr_at. fold (ind i). destruct (Z.ltb_spec bn NDIRECT); [lia|]. by destruct (Z.eqb_spec (ind i) 0). }
  xseq op_fbread; [exact Hop|lia|apply holds_empty|unfold fits in Hf; rewrite map_size_empty in *; lia|].
  cbv beta. intros b s1 [Hbe Hop1]. apply wpx_bind, wpx_wp. eapply op_fdata; [exact Hop1|apply lookup_insert_eq|].
  cbv zeta. rewrite <- Ea. destruct (Z.eqb_spec (addr_at V i bn) 0) as [Ez|Enz].
  - apply wpx_bind, wpx_bind. eapply wpx_weaken; [eapply wpx_mono; [apply (balloc_spec e La s1 _ V L v Hop1 Hb)|]|].
    + intros c [->|Hc]%holds_insert; [done|by destruct (holds_empty c)|done].
    + unfold fits in *. rewrite map_size_insert_None, map_size_empty in * by done. lia.
    + cbv beta. intros a s2 [Hff Hop2]. destruct (first_free_block e V a Hb Hff) as [Hda Hua].
      apply wpx_wp. eapply op_write; [exact Hop2|apply lookup_insert_eq|apply (ehome_meta e La)| |].
      { pose proof (datastart_pos e La). unfold data_block in Hid. lia. }
      { unfold fits in Hf. rewrite map_size_empty in Hf. pose proof (logged_length L (BBLOCK a sb)).
        pose proof (logged_length (logged L (BBLOCK a sb)) a). lia. }
      intros s3 Hop3. apply wp_ret. apply wpx_wp. wseq op_brelse; [exact Hop3|apply lookup_insert_eq|]. cbv beta. intros [] s4 Hop4.
      rewrite delete_insert_id in Hop4 by done. apply wp_ret.
      destruct (grow_entry e La V i bn a Hb Hok Hbn Hiz Ez Hff) as [Hg Hga].
      eexists _, _. split; [exact Hop4|]. split; [exact Hg|]. split; [done|].
      split; [pose proof (data_block_pos e La a Hda); lia|]. by do 3 apply fits_logged.
    + by intros w [-> _].
  - apply wpx_bind, wpx_wp, wp_ret. apply wpx_wp. wseq op_brelse; [exact Hop1|apply lookup_insert_eq|]. cbv beta. intros [] s2 Hop2.
    rewrite delete_insert_id in Hop2 by done. apply wp_ret. exists V, L. split; [done|]. split; [by apply file_grown_refl|].
    split_and!; [done..|]. unfold fits in *. lia.
Qed.

Lemma bmap_spec s V L v ip bn k :
  op e s ∅ V L v -> bitmap_ok e V -> inode_ok e V (v !!! ip) -> 0 <= bn < MAXFILE -> fits e ∅ L (5 + k) ->
  wpx (bmap ip bn) (fun a s' => exists V' L' i', op e s' ∅ V' L' (vinsert ip i' v) /\
      grown e bn V (v !!! ip) V' i' /\ a = addr_at V' i' bn /\ a <> 0 /\ fits e ∅ L' k)
    no_blocks s.
Proof.
  intros Hop Hb Hok Hbn Hf. unfold bmap. apply wpx_bind, wpx_wp. eapply op_geti; [exact Hop|].
  assert (MAXFILE = NDIRECT + NINDIRECT) as HM by done. pose proof (io_dev _ _ _ Hok) as Hdev.
  destruct (Z.ltb_spec bn NDIRECT) as [Hd|Hd].
  - assert (addr_at V (v !!! ip) bn = i_addrs (v !!! ip) !!! Z.to_nat bn) as Ea.
    { unfold addr_at. by destruct (Z.ltb_spec bn NDIRECT); [|lia]. }
    rewrite <- Ea. cbv zeta. destruct (Z.eqb_spec (addr_at V (v !!! ip) bn) 0) as [Ez|Enz].
    + eapply wpx_mono; [apply (balloc_slot_spec s V L v ip bn (3 + k)); try done; unfold fits in *; lia|].
      cbv beta. intros a s1 (Hff & L' & Hop1 & Hf1). destruct (grow_direct e La V (v !!! ip) bn a Hb Hok ltac:(lia) Ez Hff) as [Hg Ha].
      destruct (first_free_block e V a Hb Hff) as [Hda _]. pose proof (data_block_pos e La a Hda).
      eexists _, _, _. split; [exact Hop1|]. split; [exact Hg|]. split_and!; [done|lia|unfold fits in *; lia].
    + apply wpx_wp, wp_ret. exists V, L, (v !!! ip). rewrite vinsert_same by done. split; [done|]. split; [by apply file_grown_refl|].
      split_and!; [done..|unfold fits in *; lia].
  - destruct (Z.ltb_spec (bn - NDIRECT) NINDIRECT); [|lia]. fold (ind (v !!! ip)). apply wpx_bind.
    eapply wpx_mono with (Q := fun a s1 => exists V1 L1 i1, op e s1 ∅ V1 L1 (vinsert ip i1 v) /\
      grown e bn V (v !!! ip) V1 i1 /\ ind i1 = a /\ a <> 0 /\ fits e ∅ L1 (3 + k)).
    + destruct (Z.eqb_spec (ind (v !!! ip)) 0) as [Ez|Enz].
      * eapply wpx_mono; [apply (balloc_slot_spec s V L v ip NDIRECT (3 + k)); try done; unfold fits in *; lia|].
        cbv beta. intros a s1 (Hff & L' & Hop1 & Hf1). destruct (grow_ind e La V (v !!! ip) bn a Hb Hok ltac:(lia) Ez Hff) as [Hg Ha].
        destruct (first_free_block e V a Hb Hff) as [Hda _]. pose proof (data_block_pos e La a Hda).
        eexists _, _, _. split; [exact Hop1|]. split; [exact Hg|]. split_and!; [done|lia|done].
      * apply wpx_wp, wp_ret. exists V, L, (v !!! ip). rewrite vinsert_same by done. split; [done|]. split; [by apply file_grown_refl|].
        split_and!; [done..|unfold fits in *; lia].
    + cbv beta. intros a s1 (V1 & L1 & i1 & Hop1 & Hg1 & <- & Hnz & Hf1).
      pose proof (bmap_entry_spec s1 V1 L1 (vinsert ip i1 v) ip bn k Hop1 (gr_bitmap _ _ _ _ _ _ Hg1)) as Hent.
      rewrite vlookup_insert in Hent. specialize (Hent (gr_ok _ _ _ _ _ _ Hg1) ltac:(lia) Hnz Hf1).
      rewrite (io_dev _ _ _ (gr_ok _ _ _ _ _ _ Hg1)) in Hent. rewrite Hdev.
      eapply wpx_mono; [exact Hent|]. cbv beta. intros a s2 (V2 & L2 & Hop2 & Hg2 & -> & Hnz2 & Hf2).
      exists V2, L2, i1. split; [exact Hop2|]. split; [|done]. by eapply file_grown_trans.
Qed.
End Bmap.
