(* ===== verification/Writing.v ===== *)
(** Writing files: [writei] of [src/kernel/fs.c]. *)

From stdpp Require Import gmap.
From S2P Require Import Prelude Params Spinlock Cstring Kalloc Vm Sched Sleeplock Bio Cache Log Journal Crash Txn Fs.
From S2P Require Import Blocks Inodes Umem Console Kern Path Contents Growth.
Local Open Scope kernel_scope.

(** * One block of a file is changed *)

Section Change.
Context (e : env) (La : layout e).
Abbreviation sb := (e_sb e).
Implicit Types (V : blocks) (i : inode).

Lemma slots_apart V i c d :
  inode_ok e V i -> -1 <= c < MAXFILE -> -1 <= d < MAXFILE -> c <> d -> slot_at V i c <> 0 -> slot_at V i c <> slot_at V i d.
Proof. intros Hok Hc Hd Hne Hz E. apply Hne. by apply (io_inj _ _ _ Hok). Qed.

(** A data block of the file gets the content [x]. *)
Lemma change_slot V i bn x :
  inode_ok e V i -> 0 <= bn < MAXFILE -> addr_at V i bn <> 0 ->
  forall c, -1 <= c < MAXFILE -> slot_at (setv V (addr_at V i bn) x) i c = slot_at V i c.
Proof.
  intros Hok Hbn Hnz c Hc. unfold slot_at. destruct (c =? -1); [done|]. unfold addr_at at 1 3. fold (ind i).
  destruct (c <? NDIRECT); [done|]. destruct (Z.eqb_spec (ind i) 0) as [|Hi]; [done|].
  rewrite setv_ne; [done|]. rewrite <- (addr_slot V i bn) by lia. change (ind i) with (slot_at V i (-1)).
  apply not_eq_sym, slots_apart; [done|lia|done|lia|]. by rewrite addr_slot by lia.
Qed.
Lemma change_used V a x c : data_block sb a -> 0 <= c < sb_size sb -> used sb (setv V a x) c = used sb V c.
Proof. intros Ha Hc. pose proof (BBLOCK_range e La c Hc). unfold data_block in Ha. unfold used. by rewrite setv_ne by lia. Qed.
Lemma change_ok V i bn x :
  bitmap_ok e V -> inode_ok e V i -> 0 <= bn < MAXFILE -> addr_at V i bn <> 0 -> blk x ->
  bitmap_ok e (setv V (addr_at V i bn) x) /\ inode_ok e (setv V (addr_at V i bn) x) i.
Proof.
  intros [Hk Hm] Hok Hbn Hnz Hx. pose proof (change_slot V i bn x Hok Hbn Hnz) as Hs. pose proof Hok as [Hdev Hlen Hads Hd Hinj].
  destruct (Hd bn ltac:(lia)) as [Hdb _]; [by rewrite addr_slot by lia|]. rewrite addr_slot in Hdb by lia.
  pose proof (la_data _ La). split; split; try done.
  - by apply blk_setv.
  - intros c Hc. rewrite change_used by (done || lia). by apply Hm.
  - intros c Hc. rewrite Hs by done. intros Hne. destruct (Hd c Hc Hne) as [H1 H2]. split; [done|].
    pose proof (data_block_pos e La _ H1). unfold data_block in H1. rewrite change_used by (done || lia). done.
  - intros c d Hc Hd'. rewrite !Hs by done. by apply Hinj.
Qed.
Lemma change_fbyte V i bn x k :
  inode_ok e V i -> 0 <= bn < MAXFILE -> addr_at V i bn <> 0 -> 0 <= k < MAXFILE * BSIZE ->
  fbyte (setv V (addr_at V i bn) x) i k = if decide (k / BSIZE = bn) then byte x (k mod BSIZE) else fbyte V i k.
Proof.
  intros Hok Hbn Hnz Hk. pose proof (Z.div_pos k BSIZE ltac:(lia) ltac:(done)).
  assert (k / BSIZE < MAXFILE) by (apply Z.div_lt_upper_bound; [done|lia]).
  pose proof (change_slot V i bn x Hok Hbn Hnz (k / BSIZE) ltac:(lia)) as Es. rewrite !addr_slot in Es by lia.
  unfold fbyte. rewrite Es. case_decide as E; [by rewrite E, setv_same|]. rewrite setv_ne; [done|].
  rewrite <- !(addr_slot V i) by lia. apply not_eq_sym, slots_apart; [done|lia|lia|congruence|]. by rewrite addr_slot by lia.
Qed.

Lemma byte_splice d o l j :
  0 <= j -> (o + length l <= length d)%nat ->
  byte (splice d o l) j = if decide (Z.of_nat o <= j < Z.of_nat o + Z.of_nat (length l)) then l !!! (Z.to_nat j - o)%nat else byte d j.
Proof.
  intros Hj Hl. unfold byte. case_decide as E.
  - rewrite !list_lookup_total_alt. f_equal. apply lookup_splice_in; lia.
  - rewrite !list_lookup_total_alt. f_equal. apply lookup_splice_out; lia.
Qed.
End Change.

(** * The effect of [writei] *)

(** [tot] of the bytes [data] have been written from [off] on. *)
Record wrote (e : env) (V : blocks) (i : inode) (off : Z) (data : list Z) (tot : Z) (V' : blocks) (i' : inode) : Prop := {
  wr_bitmap : bitmap_ok e V';
  wr_ok : inode_ok e V' i';
  wr_same : i' = set_iaddrs (i_addrs i') i;
  wr_slot c : -1 <= c < MAXFILE -> slot_at V i c <> 0 -> slot_at V' i' c = slot_at V i c;
  wr_fresh c : -1 <= c < MAXFILE -> slot_at V i c = 0 -> slot_at V' i' c <> 0 -> used (e_sb e) V (slot_at V' i' c) = false;
  wr_in k : off <= k < off + tot -> addr_at V' i' (k / BSIZE) <> 0;
  wr_bytes k : 0 <= k < MAXFILE * BSIZE -> addr_at V' i' (k / BSIZE) <> 0 ->
    fbyte V' i' k = if decide (off <= k < off + tot) then data !!! Z.to_nat (k - off)
                    else if decide (addr_at V i (k / BSIZE) = 0) then 0 else fbyte V i k;
  wr_keep x : data_block (e_sb e) x -> used (e_sb e) V x = true -> (forall c, -1 <= c < MAXFILE -> slot_at V i c <> x) -> V' x = V x;
  wr_used x : 0 <= x < sb_size (e_sb e) -> used (e_sb e) V x = true -> used (e_sb e) V' x = true;
  wr_meta x : x < sb_bmapstart (e_sb e) -> V' x = V x;
}.

Section Wrote.
Context (e : env) (La : layout e).
Abbreviation sb := (e_sb e).
Implicit Types (V : blocks) (i : inode).

Lemma div_block k : 0 <= k < MAXFILE * BSIZE -> 0 <= k / BSIZE < MAXFILE.
Proof. intros Hk. split; [apply Z.div_pos; [lia|done]|apply Z.div_lt_upper_bound; [done|lia]]. Qed.

Lemma slot_range V i c : inode_ok e V i -> -1 <= c < MAXFILE -> slot_at V i c <> 0 -> 0 <= slot_at V i c < sb_size sb.
Proof.
  intros Hok Hc Hne. destruct (io_data _ _ _ Hok c Hc Hne) as [Hd _]. pose proof (data_block_pos e La _ Hd).
  unfold data_block in Hd. lia.
Qed.

Lemma grown_slot bn V i V' i' c :
  grown e bn V i V' i' -> 0 <= bn < MAXFILE -> -1 <= c < MAXFILE -> slot_at V i c <> 0 -> slot_at V' i' c = slot_at V i c.
Proof.
  intros Hg Hbn Hc. destruct (decide (c = -1)) as [->|Hne]; [exact (gr_ind _ _ _ _ _ _ Hg)|]. rewrite !addr_slot by lia.
  destruct (decide (c = bn)) as [->|Hcb]; [exact (gr_old _ _ _ _ _ _ Hg)|]. intros _. apply (gr_addr _ _ _ _ _ _ Hg); [lia|done].
Qed.
Lemma grown_slot_new bn V i V' i' c :
  grown e bn V i V' i' -> 0 <= bn < MAXFILE -> -1 <= c < MAXFILE -> slot_at V i c = 0 -> slot_at V' i' c <> 0 ->
  used sb V (slot_at V' i' c) = false.
Proof.
  intros Hg Hbn Hc. destruct (decide (c = -1)) as [->|Hne]; [exact (gr_fresh _ _ _ _ _ _ Hg)|]. rewrite !addr_slot by lia.
  destruct (decide (c = bn)) as [->|Hcb]; [exact (gr_free _ _ _ _ _ _ Hg)|]. rewrite (gr_addr _ _ _ _ _ _ Hg) by (done || lia). done.
Qed.
Lemma grown_fbyte bn V i V' i' k :
  grown e bn V i V' i' -> inode_ok e V i -> 0 <= bn < MAXFILE -> 0 <= k < MAXFILE * BSIZE -> addr_at V' i' (k / BSIZE) <> 0 ->
  fbyte V' i' k = if decide (addr_at V i (k / BSIZE) = 0) then 0 else fbyte V i k.
Proof.
  intros Hg Hok Hbn Hk Hnz. pose proof (div_block k Hk) as Hq. set (c := k / BSIZE) in *. unfold fbyte. fold c.
  pose proof (Z.mod_pos_bound k BSIZE ltac:(done)) as Hm. case_decide as E.
  - destruct (decide (c = bn)) as [Ec|Ec]; [|rewrite (gr_addr _ _ _ _ _ _ Hg) in Hnz; done].
    rewrite Ec in *. rewrite (gr_new _ _ _ _ _ _ Hg) by done. unfold byte, zero_block. rewrite list_lookup_total_alt.
    rewrite lookup_replicate_2; [done|]. unfold BSIZE in *. lia.
  - rewrite <- (addr_slot V i) in E by lia. destruct (io_data _ _ _ Hok c ltac:(lia) E) as [Hd Hu].
    rewrite <- (addr_slot V' i'), (grown_slot bn V i V' i' c Hg), addr_slot in * by (done || lia).
    rewrite (gr_keep _ _ _ _ _ _ Hg); [done..|]. change (ind i) with (slot_at V i (-1)). rewrite <- (addr_slot V i) by lia.
    apply (slots_apart e); [done|lia|done|lia|by rewrite addr_slot by lia].
Qed.

Lemma wrote_start V i off data : bitmap_ok e V -> inode_ok e V i -> wrote e V i off data 0 V i.
Proof.
  intros Hb Hok. split; try done; [by destruct i|intros k Hk; lia|].
  intros k Hk Hnz. rewrite decide_False by lia. by rewrite decide_False.
Qed.

(** The block changed in one round. *)
Definition patched (V1 : blocks) (i1 : inode) (o : Z) (l : list Z) : blocks :=
  let a := addr_at V1 i1 (o / BSIZE) in setv V1 a (splice (V1 a) (Z.to_nat (o mod BSIZE)) l).

Lemma patched_byte V i o l k :
  bitmap_ok e V -> inode_ok e V i -> 0 <= o < MAXFILE * BSIZE -> addr_at V i (o / BSIZE) <> 0 ->
  o mod BSIZE + Z.of_nat (length l) <= BSIZE -> 0 <= k < MAXFILE * BSIZE ->
  fbyte (patched V i o l) i k = if decide (o <= k < o + Z.of_nat (length l)) then l !!! Z.to_nat (k - o) else fbyte V i k.
Proof.
  intros [Hbk _] Hok Ho Hnz Hl Hk. pose proof (div_block o Ho) as Hq. unfold patched. cbv zeta. rewrite (change_fbyte e) by done.
  pose proof (Z.div_mod k BSIZE ltac:(done)) as Dk. pose proof (Z.div_mod o BSIZE ltac:(done)) as Do.
  pose proof (Z.mod_pos_bound k BSIZE ltac:(done)) as Mk. pose proof (Z.mod_pos_bound o BSIZE ltac:(done)) as Mo.
  specialize (Hbk (addr_at V i (o / BSIZE))). unfold blk in Hbk. unfold BSIZE in *.
  destruct (decide (k / 1024 = o / 1024)) as [E|E].
  - rewrite byte_splice by lia. rewrite E in Dk. destruct (decide (o <= k < o + Z.of_nat (length l))).
    + rewrite decide_True by lia. f_equal. lia.
    + rewrite decide_False by lia. unfold fbyte, BSIZE. by rewrite E.
  - rewrite decide_False; [done|]. intros [H1 H2]. apply E. symmetry. apply (Z.div_unique_pos _ _ _ (k - 1024 * (o / 1024))); lia.
Qed.

(** A round: [bmap] of the block at [off + tot], and the next bytes into it. *)
Section Round.
Context (V : blocks) (i : inode) (off : Z) (data : list Z) (tot : Z) (V' : blocks) (i' : inode) (V1 : blocks) (i1 : inode) (l : list Z).
Let o := off + tot.
Hypothesis HW : wrote e V i off data tot V' i'.
Hypothesis HG : grown e (o / BSIZE) V' i' V1 i1.
Hypothesis Hoff : 0 <= off /\ 0 <= tot /\ o < MAXFILE * BSIZE.
Hypothesis Hnz : addr_at V1 i1 (o / BSIZE) <> 0.
Hypothesis Hl : o mod BSIZE + Z.of_nat (length l) <= BSIZE.
Hypothesis Hdata : l = take (length l) (drop (Z.to_nat tot) data).
Hypothesis Hfit : (Z.to_nat tot + length l <= length data)%nat.

Lemma round_block : 0 <= o / BSIZE < MAXFILE.
Proof. apply div_block. unfold o. lia. Qed.
Lemma round_end : o + Z.of_nat (length l) <= MAXFILE * BSIZE.
Proof. pose proof round_block. pose proof (Z.div_mod o BSIZE ltac:(done)). unfold BSIZE in *. lia. Qed.
Lemma round_slot c : -1 <= c < MAXFILE -> slot_at (patched V1 i1 o l) i1 c = slot_at V1 i1 c.
Proof. intros Hc. apply (change_slot e); [apply HG|apply round_block|done|done]. Qed.
Lemma round_keeps c : -1 <= c < MAXFILE -> slot_at V' i' c <> 0 -> slot_at V1 i1 c = slot_at V' i' c.
Proof. apply (grown_slot _ _ _ _ _ _ HG round_block). Qed.
Lemma round_free c : -1 <= c < MAXFILE -> slot_at V i c = 0 -> slot_at V1 i1 c <> 0 -> used sb V (slot_at V1 i1 c) = false.
Proof.
  intros Hc Hz Hne. destruct (decide (slot_at V' i' c = 0)) as [E|E].
  - pose proof (grown_slot_new _ _ _ _ _ _ HG round_block Hc E Hne) as Hu.
    pose proof (slot_range V1 i1 c (gr_ok _ _ _ _ _ _ HG) Hc Hne) as Hr.
    destruct (used sb V (slot_at V1 i1 c)) eqn:Eu; [|done]. rewrite (wr_used _ _ _ _ _ _ _ _ HW) in Hu; done.
  - rewrite round_keeps in * by done. by apply HW.
Qed.
(** Blocks in use that are not the inode's are not touched. *)
Lemma round_apart x c : used sb V x = true -> (forall c, -1 <= c < MAXFILE -> slot_at V i c <> x) ->
  -1 <= c < MAXFILE -> slot_at V1 i1 c <> 0 -> x <> slot_at V1 i1 c.
Proof.
  intros Hu Hno Hc Hne ->. destruct (decide (slot_at V i c = 0)) as [E|E].
  - rewrite round_free in Hu; done.
  - apply (Hno c Hc). pose proof (wr_slot _ _ _ _ _ _ _ _ HW c Hc E) as Es. rewrite round_keeps; [done..|congruence].
Qed.
Lemma round_data k : o <= k < o + Z.of_nat (length l) -> l !!! Z.to_nat (k - o) = data !!! Z.to_nat (k - off).
Proof.
  intros Hk. rewrite Hdata. rewrite !list_lookup_total_alt. f_equal. rewrite lookup_take_lt, lookup_drop by (unfold o in *; lia).
  f_equal. unfold o in *. lia.
Qed.

Lemma round_bytes k : 0 <= k < MAXFILE * BSIZE -> addr_at V1 i1 (k / BSIZE) <> 0 ->
  fbyte (patched V1 i1 o l) i1 k =
    if decide (off <= k < off + (tot + Z.of_nat (length l))) then data !!! Z.to_nat (k - off)
    else if decide (addr_at V i (k / BSIZE) = 0) then 0 else fbyte V i k.
Proof.
  intros Hk Hkz. pose proof (div_block k Hk) as Hq.
  rewrite patched_byte by (apply HG || done || unfold o in *; lia).
  destruct (decide (o <= k < o + Z.of_nat (length l))) as [Hin|Hout].
  { rewrite decide_True by (unfold o in *; lia). by apply round_data. }
  rewrite (grown_fbyte _ _ _ _ _ _ HG) by (apply HW || apply round_block || done).
  destruct (decide (addr_at V' i' (k / BSIZE) = 0)) as [E|E].
  - rewrite decide_False. 2:{ intros Hk'. apply (wr_in _ _ _ _ _ _ _ _ HW k); [unfold o in *; lia|done]. }
    rewrite decide_True; [done|]. destruct (decide (addr_at V i (k / BSIZE) = 0)) as [|En]; [done|].
    rewrite <- (addr_slot V i) in En by lia. rewrite <- (addr_slot V'), (wr_slot _ _ _ _ _ _ _ _ HW) in E by (done || lia). done.
  - rewrite (wr_bytes _ _ _ _ _ _ _ _ HW) by done. destruct (decide (off <= k < off + tot)).
    + by rewrite decide_True by (unfold o in *; lia).
    + by rewrite (decide_False (P:=off <= k < off + (tot + _))) by (unfold o in *; lia).
Qed.

Lemma wrote_round : wrote e V i off data (tot + Z.of_nat (length l)) (patched V1 i1 o l) i1.
Proof.
  pose proof HW as [_ _ Hs Hsl Hfr Hin Hby Hkp Hus Hmt]. pose proof HG as [Hb1 Hok1 Hs1 _ _ _ _ _ _ Hk1 Hu1 Hm1].
  destruct (io_data _ _ _ Hok1 (o / BSIZE)) as [Hdb _]; [pose proof round_block; lia|by rewrite addr_slot by (pose proof round_block; lia)|].
  rewrite addr_slot in Hdb by (pose proof round_block; lia). pose proof (bmap_data e La) as Hbd. unfold data_block in Hdb.
  assert (blk (splice (V1 (addr_at V1 i1 (o / BSIZE))) (Z.to_nat (o mod BSIZE)) l)) as Hblk.
  { pose proof (bm_blk _ _ Hb1 (addr_at V1 i1 (o / BSIZE))) as Hx. unfold blk in *. rewrite length_splice; [done|].
    pose proof (Z.mod_pos_bound o BSIZE ltac:(done)). unfold BSIZE in *. lia. }
  destruct (change_ok e La V1 i1 (o / BSIZE) _ Hb1 Hok1 round_block Hnz Hblk) as [Hb2 Hok2].
  split; [exact Hb2|exact Hok2| | | | | | | |].
  - rewrite Hs1, Hs. by destruct i.
  - intros c Hc Hne. rewrite round_slot, round_keeps by (done || rewrite Hsl; done). by apply Hsl.
  - intros c Hc Hz. rewrite round_slot by done. by apply round_free.
  - intros k Hk. pose proof round_end. pose proof (div_block k ltac:(unfold o in *; lia)) as Hq.
    rewrite <- addr_slot, round_slot, addr_slot by lia. destruct (decide (k < o)) as [Hlt|Hge].
    + pose proof (Hin k ltac:(unfold o in *; lia)) as Hkz. rewrite <- !addr_slot in * by lia. by rewrite round_keeps by (done || lia).
    + assert (k / BSIZE = o / BSIZE) as ->; [|done]. symmetry. pose proof (Z.div_mod o BSIZE ltac:(done)).
      pose proof (Z.mod_pos_bound o BSIZE ltac:(done)).
      unfold BSIZE in *. apply (Z.div_unique_pos _ _ _ (k - 1024 * (o / 1024))); unfold o in *; lia.
  - intros k Hk Hkz. rewrite <- addr_slot, round_slot, addr_slot in Hkz by (pose proof (div_block k Hk); lia). by apply round_bytes.
  - intros x Hx Hu Hno. unfold patched. cbv zeta.
    rewrite setv_ne.
    2:{ rewrite <- addr_slot by (pose proof round_block; lia). apply round_apart; try done; [pose proof round_block; lia|].
        by rewrite addr_slot by (pose proof round_block; lia). }
    rewrite Hk1; [by apply Hkp|done|apply Hus; [|done]|].
    { pose proof (data_block_pos e La x Hx). unfold data_block in Hx. lia. }
    intros ->. destruct (decide (slot_at V' i' (-1) = 0)) as [E|E].
    { pose proof (data_block_pos e La _ Hx). change (ind i') with (slot_at V' i' (-1)) in *. lia. }
    apply (round_apart (ind i') (-1) Hu Hno); [done|..]; rewrite round_keeps; done.
  - intros x Hx Hu. unfold patched. cbv zeta. rewrite (change_used e La) by done. by apply Hu1, Hus.
  - intros x Hx. unfold patched. cbv zeta. rewrite setv_ne by lia. by rewrite Hm1, Hmt.
Qed.
End Round.
End Wrote.

(** * [writei] *)

(** The bytes a place in the kernel supplies. *)
Definition supplies (src : place) (local : list Z) (m : memory) (n : Z) : list Z :=
  match src with
  | Local => take (Z.to_nat n) local
  | Phys pa => load_bytes m pa (Z.to_nat n)
  | UserVA _ => []
  end.
Definition supplier (src : place) (local : list Z) (n : Z) : Prop :=
  in_kernel src n /\ match src with Local => n <= Z.of_nat (length local) | _ => True end.

Lemma supplies_length src local m n : supplier src local n -> 0 <= n -> length (supplies src local m n) = Z.to_nat n.
Proof.
  intros [H1 H2] Hn. destruct src; [done| |]; cbn; [apply length_load_bytes|]. rewrite length_take. lia.
Qed.
Lemma load_bytes_piece m pa n tot j :
  (tot + j <= n)%nat -> load_bytes m (pa + Z.of_nat tot) j = take j (drop tot (load_bytes m pa n)).
Proof.
  intros Hj. apply list_eq. intros x. destruct (decide (x < j)%nat).
  - rewrite lookup_take_lt, lookup_drop, !lookup_load_bytes by lia. do 2 f_equal. lia.
  - rewrite lookup_take_ge by lia. apply lookup_ge_None. rewrite length_load_bytes. lia.
Qed.
Lemma supplies_piece src local m n tot j :
  supplier src local n -> 0 <= tot -> 0 <= j -> tot + j <= n ->
  supplies (advance src tot) (drop (Z.to_nat tot) local) m j = take (Z.to_nat j) (drop (Z.to_nat tot) (supplies src local m n)).
Proof.
  intros [H1 H2] Ht Hj Hn. destruct src as [|pa|]; [done| |]; cbn in *.
  - rewrite u64_small by lia. rewrite <- load_bytes_piece by lia. f_equal. lia.
  - rewrite skipn_firstn_comm, take_take. f_equal. lia.
Qed.
Lemma supplier_advance src local n tot j :
  supplier src local n -> 0 <= tot -> 0 <= j -> tot + j <= n -> in_kernel (advance src tot) j.
Proof. intros [H1 _] Ht Hj Hn. by apply (in_kernel_advance src n). Qed.

Section Writei.
Context (e : env) (La : layout e).
Abbreviation sb := (e_sb e).
Implicit Types (s : fss) (V : blocks) (L : list Z) (v : vec inode NINODE) (k : kern).

Lemma either_copyin_run src local n s H V L v m k :
  op e s H V L v -> in_kernel src n ->
  um (either_copyin src local n) (kk s m k) = Ok (0, supplies src local m n) (kk (fsettle s) m k).
Proof.
  intros Hop Hd. unfold um, zoom, either_copyin. erewrite bind_ok by (by eapply curproc_run).
  destruct src as [|pa|]; [done|by destruct s as [[[] ?] ? ? ?]..].
Qed.

(** A recorded change, in the kernel. *)
Lemma kop_write {A} s H V L v i b f m k (p : M kern A) Q :
  op e s H V L v -> H !! i = Some b -> ehome e b -> Z.of_nat (length L) + 1 < room e ->
  (forall s', op e s' H (setv V b (f (V b))) (logged L b) v -> wp p Q (kk s' m k)) ->
  wp (fs (set_fdata i f) ;; fs (logop (log_write i)) ;; p) Q (kk s m k).
Proof.
  intros Hop Hi Hb HL Hp.
  pose proof (op_write e s H V L v i b f (ret tt) (fun _ s' => op e s' H (setv V b (f (V b))) (logged L b) v) Hop Hi Hb HL
    (fun s' Hs' => Hs')) as Hw.
  apply wp_run in Hw as ([] & s' & E & Hs'). apply bind_inv in E as ([] & s1 & E1 & E).
  apply bind_inv in E as ([] & s2 & E2 & E). injection E as ->.
  apply wp_bind, wp_fs. eapply wp_ok; [exact E1|]. apply wp_bind, wp_fs. eapply wp_ok; [exact E2|]. by apply Hp.
Qed.

(** The state of the loop. *)
Record writing (k : kern) V L v ip src local off data tot (off' : Z) (src' : place) (local' : list Z) V' L' i' (k' : kern) : Prop := {
  wi_op : op e (k_fs k') ∅ V' L' (vinsert ip i' v);
  wi_off : off' = off + tot;
  wi_src : src' = advance src tot;
  wi_local : local' = drop (Z.to_nat tot) local;
  wi_wrote : wrote e V (v !!! ip) off data tot V' i';
  wi_rest : exists s', k' = kk s' (k_mem k) k;
}.

Lemma writei_step_spec k V L v ip src local off n tot off' src' local' V' L' i' k' j :
  let data := supplies src local (k_mem k) n in
  writing k V L v ip src local off data tot off' src' local' V' L' i' k' ->
  supplier src local n -> 0 <= off -> 0 <= tot < n -> off + n <= MAXFILE * BSIZE -> fits e ∅ L' (6 + j) ->
  let m := Z.min (n - tot) (BSIZE - (off + tot) mod BSIZE) in
  wpx (writei_step ip n (tot, off', src', local')) (fun r k2 => exists off2 src2 local2 V2 L2 i2,
      r = inl (tot + m, off2, src2, local2) /\ writing k V L v ip src local off data (tot + m) off2 src2 local2 V2 L2 i2 k2 /\
      fits e ∅ L2 j)
    no_blocks k'.
Proof.
  intros data [Hop -> -> -> HW [s' ->]] Hs Hoff Htot Hmax Hf m. set (o := off + tot) in *.
  pose proof (Z.mod_pos_bound o BSIZE ltac:(done)) as Hmod. pose proof (div_block o ltac:(lia)) as Hbn.
  unfold writei_step. destruct (Z.ltb_spec tot n); [|lia]. cbn [negb].
  apply wpx_bind, wpx_wp, wp_fs. eapply op_geti; [exact Hop|]. rewrite vlookup_insert.
  pose proof (bmap_spec e La s' V' L' (vinsert ip i' v) ip (o / BSIZE) (1 + j) Hop (wr_bitmap _ _ _ _ _ _ _ _ HW)) as Hbm.
  rewrite vlookup_insert in Hbm. specialize (Hbm (wr_ok _ _ _ _ _ _ _ _ HW) Hbn ltac:(unfold fits in *; lia)).
  apply wpx_bind, wpx_fs. eapply wpx_mono; [exact Hbm|]. cbv beta. intros a s1 (V1 & L1 & i1 & Hop1 & Hg & -> & Hnz & Hf1).
  rewrite vinsert_twice in Hop1. apply wpx_wp.
  pose proof (gr_ok _ _ _ _ _ _ Hg) as Hok1. rewrite <- (addr_slot V1 i1) in Hnz by lia.
  destruct (io_data _ _ _ Hok1 (o / BSIZE) ltac:(lia) Hnz) as [Hdb _]. rewrite addr_slot in Hnz, Hdb by lia.
  pose proof (data_block_pos e La _ Hdb) as Hpos. pose proof (datastart_pos e La).
  rewrite (io_dev _ _ _ (wr_ok _ _ _ _ _ _ _ _ HW)). unfold fits in Hf1. rewrite map_size_empty in Hf1.
  apply wp_bind, wp_fs. eapply wp_mono; [apply (op_fbread e s1 ∅ V1 L1 _ _ Hop1)|].
  { lia. } { apply holds_empty. } { rewrite map_size_empty. lia. }
  cbv beta. intros b s2 [_ Hop2]. fold m.
  apply wp_bind. eapply wp_ok; [eapply either_copyin_run; [exact Hop2|apply (supplier_advance src local n); [done|lia..]]|].
  cbn [fst snd]. change (0 =? -1) with false. cbv iota. rewrite (supplies_piece src local _ n) by (done || lia). fold data.
  apply op_settle in Hop2. set (l := take (Z.to_nat m) (drop (Z.to_nat tot) data)).
  assert (length data = Z.to_nat n) as Hdl by (apply supplies_length; [done|lia]).
  assert (length l = Z.to_nat m) as Hll by (unfold l; rewrite length_take, length_drop; lia).
  eapply kop_write; [exact Hop2|apply lookup_insert_eq|apply (ehome_meta e La); unfold data_block in Hdb; lia|lia|].
  intros s3 Hop3. apply wp_bind, wp_fs. eapply wp_mono; [eapply op_brelse; [exact Hop3|apply lookup_insert_eq]|]. cbv beta. intros [] s4 Hop4.
  rewrite delete_insert_id in Hop4 by apply lookup_empty. apply wp_ret. eexists _, _, _, _, _, i1. split; [reflexivity|]. split.
  - split; [exact Hop4|lia|by rewrite advance_advance| | |by exists s4].
    + rewrite drop_drop. f_equal. lia.
    + replace (tot + m) with (tot + Z.of_nat (length l)) by lia.
      apply (wrote_round e La V (v !!! ip) off data tot V' i' V1 i1 l HW Hg); try done; [fold o; lia|fold o; lia|by rewrite Hll|lia].
  - apply fits_logged. unfold fits. rewrite map_size_empty. lia.
Qed.

(** The number of blocks that the bytes from [off + tot] to [off + n] touch. *)
Definition blocks_left (off tot n : Z) : nat :=
  if tot <? n then Z.to_nat ((off + n - 1) / BSIZE - (off + tot) / BSIZE + 1) else 0.

Lemma blocks_left_step off tot n :
  0 <= off -> 0 <= tot < n ->
  let m := Z.min (n - tot) (BSIZE - (off + tot) mod BSIZE) in
  0 < m /\ tot + m <= n /\ (blocks_left off (tot + m) n + 1 <= blocks_left off tot n)%nat.
Proof.
  intros Hoff Htot m. pose proof (Z.mod_pos_bound (off + tot) BSIZE ltac:(done)) as Hm. split; [lia|]. split; [lia|].
  unfold blocks_left. destruct (Z.ltb_spec tot n); [|lia].
  pose proof (Z.div_le_mono (off + tot) (off + n - 1) BSIZE ltac:(done) ltac:(lia)).
  destruct (Z.ltb_spec (tot + m) n); [|lia].
  assert ((off + (tot + m)) / BSIZE = (off + tot) / BSIZE + 1) as ->; [|lia].
  pose proof (Z.div_mod (off + tot) BSIZE ltac:(done)). unfold BSIZE in *.
  symmetry. apply (Z.div_unique_pos _ _ _ 0); lia.
Qed.

Lemma writing_start k V L v ip src local off data :
  op e (k_fs k) ∅ V L v -> bitmap_ok e V -> inode_ok e V (v !!! ip) -> in_kernel src 0 ->
  writing k V L v ip src local off data 0 off src local V L (v !!! ip) k.
Proof.
  intros Hop Hb Hok Hs. split; [by rewrite vinsert_same|lia| |done|by apply wrote_start|exists (k_fs k); symmetry; apply kk_self].
  destruct src as [|pa|]; cbn in *; [done| |done]. f_equal. rewrite u64_small; lia.
Qed.

Lemma writei_loop k V L v ip src local off n j :
  let data := supplies src local (k_mem k) n in
  op e (k_fs k) ∅ V L v -> bitmap_ok e V -> inode_ok e V (v !!! ip) -> supplier src local n ->
  0 <= off -> 0 <= n -> off + n <= MAXFILE * BSIZE -> fits e ∅ L (6 * blocks_left off 0 n + j) ->
  wpx (loop (writei_step ip n) (0, off, src, local)) (fun r k' => exists V' L' i',
      r = (n, off + n) /\ op e (k_fs k') ∅ V' L' (vinsert ip i' v) /\ wrote e V (v !!! ip) off data n V' i' /\
      (exists s', k' = kk s' (k_mem k) k) /\ fits e ∅ L' j)
    no_blocks k.
Proof.
  intros data Hop Hb Hok Hs Hoff Hn Hmax Hf.
  apply (wpx_loop _ (fun c a k' => let '(tot, off', src', local') := a in exists V' L' i', 0 <= tot <= n /\ c = Z.to_nat (n - tot) /\
    writing k V L v ip src local off data tot off' src' local' V' L' i' k' /\
    fits e ∅ L' (6 * blocks_left off tot n + j))) with (n := Z.to_nat n).
  - intros c [[[tot off'] src'] local'] k' (V' & L' & i' & Htot & -> & Hw & Hf').
    destruct (decide (tot < n)) as [Hlt|Hge].
    + destruct (blocks_left_step off tot n Hoff ltac:(lia)) as (Hm & Hmn & Hbl).
      eapply wpx_mono; [eapply (writei_step_spec k V L v ip src local off n tot off' src' local' V' L' i' k'
        (6 * blocks_left off (tot + Z.min (n - tot) (BSIZE - (off + tot) mod BSIZE)) n + j)); try done; [lia|unfold fits in *; lia]|].
      cbv beta. intros r k2 (off2 & src2 & local2 & V2 & L2 & i2 & -> & Hw2 & Hf2). eexists. split; [|eexists _, _, _; split; [|split; [reflexivity|split; [exact Hw2|done]]]]; lia.
    + unfold writei_step. destruct (Z.ltb_spec tot n); [lia|]. cbn [negb]. apply wpx_wp, wp_ret. assert (tot = n) as -> by lia.
      destruct Hw as [Hop' -> _ _ HW Hrest]. exists V', L', i'. split_and!; try done. unfold fits in *. lia.
  - exists V, L, (v !!! ip). split; [lia|]. split; [f_equal; lia|]. split; [|done]. apply writing_start; try done.
    destruct Hs as [Hs _]. destruct src; cbn in *; [done|lia|done].
  - assert (MAXFILE * BSIZE < 2 ^ 64) by done. lia.
Qed.
End Writei.

(** * The whole call *)

Section Whole.
Context (e : env) (La : layout e).
Abbreviation sb := (e_sb e).
Implicit Types (s : fss) (V : blocks) (L : list Z) (v : vec inode NINODE) (k : kern).

(** Writing the inode does not change the file. *)
Lemma stored_slot V i j :
  inode_ok e V i -> i_addrs j = i_addrs i -> 0 <= i_inum j < sb_ninodes sb ->
  forall c, -1 <= c < MAXFILE -> slot_at (stored sb V j) j c = slot_at V i c.
Proof.
  intros Hok Ea Hi c Hc. unfold slot_at, addr_at, ind. rewrite Ea. fold (ind i). destruct (c =? -1); [done|].
  destruct (c <? NDIRECT); [done|]. destruct (Z.eqb_spec (ind i) 0) as [|Hne]; [done|].
  destruct (io_data _ _ _ Hok (-1) ltac:(done) Hne) as [Hd _]. change (slot_at V i (-1)) with (ind i) in Hd.
  rewrite (stored_other e La); [done..|]. pose proof (bmap_data e La). unfold data_block in Hd. lia.
Qed.
Lemma stored_file V i j :
  bitmap_ok e V -> inode_ok e V i -> i_addrs j = i_addrs i -> i_dev j = ROOTDEV -> 0 <= i_inum j < sb_ninodes sb ->
  bitmap_ok e (stored sb V j) /\ inode_ok e (stored sb V j) j /\
  (forall c, 0 <= c < MAXFILE -> addr_at (stored sb V j) j c = addr_at V i c) /\
  (forall x, 0 <= x < MAXFILE * BSIZE -> addr_at V i (x / BSIZE) <> 0 -> fbyte (stored sb V j) j x = fbyte V i x).
Proof.
  intros Hb Hok Ea Hdev Hi. pose proof (stored_slot V i j Hok Ea Hi) as Hs. pose proof Hok as [_ Hlen Hads Hd Hinj].
  pose proof (bmap_data e La) as Hbd.
  assert (forall c, 0 <= c < MAXFILE -> addr_at (stored sb V j) j c = addr_at V i c) as Hadr.
  { intros c Hc. rewrite <- !addr_slot by lia. apply Hs. lia. }
  split; [apply stored_ok; [done..|by rewrite Ea]|]. split; [split; [done|by rewrite Ea|by rewrite Ea| |]|split; [done|]].
  - intros c Hc. rewrite Hs by done. intros Hne. destruct (Hd c Hc Hne) as [Hdb Hu]. split; [done|].
    pose proof (data_block_pos e La _ Hdb). rewrite used_stored by (done || lia). done.
  - intros c d Hc Hd'. rewrite !Hs by done. by apply Hinj.
  - intros x Hx Hne. pose proof (div_block x Hx). unfold fbyte. rewrite Hadr by done.
    rewrite <- (addr_slot V i) in * by lia. destruct (Hd (x / BSIZE) ltac:(lia) Hne) as [Hdb _].
    rewrite (stored_other e La); [done..|]. unfold data_block in Hdb. lia.
Qed.

(** The entry after [writei]. *)
Definition resized (n : Z) (i : inode) : inode := if i_size i <? n then set_isize n i else i.
Lemma resized_fields n i :
  i_addrs (resized n i) = i_addrs i /\ i_dev (resized n i) = i_dev i /\ i_inum (resized n i) = i_inum i /\
  i_size (resized n i) = Z.max (i_size i) n /\ dinode_of (resized n i) = Dinode (i_type i) (i_major i) (i_minor i) (i_nlink i) (Z.max (i_size i) n) (i_addrs i).
Proof. unfold resized, dinode_of. destruct (Z.ltb_spec (i_size i) n); cbn; split_and!; try done; try lia; f_equal; lia. Qed.

(** What [writei] of [data] at [off] does to the file and to the disk. *)
Record written V (i : inode) (off : Z) (data : list Z) V' (i' : inode) : Prop := {
  wn_bitmap : bitmap_ok e V';
  wn_ok : inode_ok e V' i';
  wn_file : file_ok e V' i';
  wn_entry : i' = set_isize (Z.max (i_size i) (off + Z.of_nat (length data))) (set_iaddrs (i_addrs i') i);
  wn_bytes x : 0 <= x < i_size i' ->
    fbyte V' i' x = if decide (off <= x < off + Z.of_nat (length data)) then data !!! Z.to_nat (x - off) else fbyte V i x;
  wn_disk : disk_inode sb V' (i_inum i) = dinode_of i';
  wn_inodes n : 0 <= n < sb_ninodes sb -> n <> i_inum i -> disk_inode sb V' n = disk_inode sb V n;
  wn_keep x : data_block sb x -> used sb V x = true -> (forall c, -1 <= c < MAXFILE -> slot_at V i c <> x) ->
    V' x = V x /\ used sb V' x = true;
}.

Lemma wrote_written V i off data V' i' :
  wrote e V i off data (Z.of_nat (length data)) V' i' -> file_ok e V i -> named e i -> dinode_ok (dinode_of i) ->
  0 <= off <= i_size i -> off + Z.of_nat (length data) <= MAXFILE * BSIZE ->
  let j := resized (off + Z.of_nat (length data)) i' in written V i off data (stored sb V' j) j.
Proof.
  intros HW Hf [Hdev Hinum] Hdk Hoff Hmax j. pose proof HW as [Hb Hok Hsame Hslot _ Hin Hby Hkeep Hused Hmeta].
  destruct (resized_fields (off + Z.of_nat (length data)) i') as (Ea & Ed & Ei & Es & Edi). fold j in Ea, Ed, Ei, Es, Edi.
  assert (i_dev i' = i_dev i /\ i_inum i' = i_inum i /\ i_size i' = i_size i) as (Fd & Fi & Fs) by (by rewrite Hsame).
  assert (0 <= i_inum j < sb_ninodes sb) as Hj by (by rewrite Ei, Fi).
  destruct (stored_file V' i' j Hb Hok Ea ltac:(congruence) Hj) as (Hb2 & Hok2 & Hadr2 & Hby2).
  pose proof (fo_size _ _ _ Hf) as Hsz. pose proof (io_len _ _ _ Hok) as Hlen. pose proof (io_addrs _ _ _ Hok) as Hads.
  assert (forall x, 0 <= x < i_size j -> addr_at V' i' (x / BSIZE) <> 0 /\
    (off <= x < off + Z.of_nat (length data) \/ addr_at V i (x / BSIZE) <> 0)) as Hall.
  { intros x Hx. pose proof (div_block x ltac:(lia)) as Hq. destruct (decide (x < i_size i)) as [Hlt|Hge].
    - pose proof (Z.mul_div_le x BSIZE ltac:(done)).
      pose proof (data_block_pos e La _ (fo_blocks _ _ _ Hf (x / BSIZE) ltac:(lia) ltac:(lia))).
      rewrite <- !addr_slot by lia. rewrite Hslot by (rewrite ?addr_slot by lia; lia). rewrite addr_slot by lia. split; [lia|right; lia].
    - split; [apply Hin; lia|left; lia]. }
  split; [done|done| | | | | |].
  - split; [by rewrite Ed, Fd|by rewrite Ea|lia| |].
    + intros bn Hbn Hlt. pose proof (Hall (bn * BSIZE) ltac:(unfold BSIZE in *; lia)) as [Hne _]. rewrite Z.div_mul in Hne by done.
      assert (bn < MAXFILE) by (unfold BSIZE in *; lia). rewrite <- Hadr2 in Hne by lia. rewrite <- addr_slot in * by lia. apply Hok2; [lia|done].
    + intros Hnd. pose proof (Hall (NDIRECT * BSIZE) ltac:(unfold NDIRECT, BSIZE in *; lia)) as [Hne _]. rewrite Z.div_mul in Hne by done.
      rewrite Ea. fold (ind i'). change (ind i') with (slot_at V' i' (-1)). apply Hok; [done|]. unfold addr_at in Hne. cbn in Hne. unfold slot_at. cbn.
      unfold ind. intros Ez. rewrite Ez in Hne. done.
  - rewrite Ea. unfold j, resized. rewrite Fs. destruct (Z.ltb_spec (i_size i) (off + Z.of_nat (length data))).
    + rewrite Hsame. rewrite Z.max_r by lia. by destruct i.
    + rewrite Z.max_l by lia. rewrite Hsame. by destruct i.
  - intros x Hx. destruct (Hall x Hx) as [Hne Hor]. pose proof (Es) as Es'. rewrite Hby2, Hby by (done || lia).
    case_decide; [done|]. rewrite decide_False by tauto. done.
  - rewrite <- Fi, <- Ei. apply stored_same; [apply Hb|]. rewrite Edi. destruct Hdk as [D1 D2 D3 D4 D5 D6 D7]. rewrite Hsame.
    assert (MAXFILE * BSIZE < 2 ^ 31) by done. cbn in D5. split; cbn; try done; try lia.
  - intros n Hn Hne. assert (disk_inode sb V' n = disk_inode sb V n) as <-.
    { unfold disk_inode. rewrite Hmeta; [done|]. apply IBLOCK_range; done. }
    apply stored_inode_other; [apply Hb|by rewrite Ea|lia|lia|congruence].
  - intros x Hx Hu Hno. pose proof (data_block_pos e La x Hx). pose proof (bmap_data e La). unfold data_block in *.
    rewrite (stored_other e La) by (done || lia). rewrite (used_stored e La) by (done || lia). split; [by apply Hkeep|]. apply Hused; [lia|done].
Qed.
End Whole.

Lemma written_content e V i off data V' i' :
  written e V i off data V' i' -> 0 <= off -> off <= i_size i -> content V' i' off (Z.of_nat (length data)) = data.
Proof.
  intros HW Hoff Hsz. apply list_eq. intros k. unfold content. rewrite list_lookup_fmap.
  assert (i_size i' = Z.max (i_size i) (off + Z.of_nat (length data))) as Es by (by rewrite (wn_entry _ _ _ _ _ _ _ HW)).
  destruct (decide (k < length data)%nat) as [Hk|Hk].
  - rewrite lookup_seqZ_lt by lia. cbn [fmap option_fmap option_map]. rewrite (wn_bytes _ _ _ _ _ _ _ HW) by lia.
    rewrite decide_True by lia. replace (Z.to_nat (off + Z.of_nat k - off)) with k by lia.
    symmetry. by apply list_lookup_lookup_total_lt.
  - rewrite lookup_seqZ_ge by lia. symmetry. apply lookup_ge_None. lia.
Qed.

(** Offsets and counts that [writei] refuses. *)
Lemma writei_refuses e k V L v ip src local off n :
  op e (k_fs k) ∅ V L v -> 0 <= off < 2 ^ 32 -> 0 <= n < 2 ^ 32 ->
  ~ (off <= i_size (v !!! ip) /\ off + n <= MAXFILE * BSIZE) ->
  wp (writei ip src local off n) (fun r k' => r = -1 /\ k' = k) k.
Proof.
  intros Hop Hoff Hn Hbad. unfold writei. apply wp_bind, wp_zoom. eapply op_geti; [exact Hop|]. rewrite (put_view (l:=fsL)).
  destruct (Z.ltb_spec (i_size (v !!! ip)) off); cbn [orb]; [by apply wp_ret|].
  destruct (Z.ltb_spec (u32 (off + n)) off) as [|Hno]; [by apply wp_ret|].
  destruct (decide (off + n < 2 ^ 32)).
  - rewrite u32_small by lia. destruct (Z.ltb_spec (MAXFILE * BSIZE) (off + n)); [by apply wp_ret|]. tauto.
  - unfold u32 in Hno. rewrite <- (Z.mod_add _ (-1)) in Hno by lia. rewrite Z.mod_small in Hno; lia.
Qed.

(** [readi] of what was written. *)
Lemma written_readi e k V i off data V' L' v' ip :
  layout e -> op e (k_fs k) ∅ V' L' v' -> written e V i off data V' (v' !!! ip) -> (length L' < NBUF)%nat ->
  0 <= off <= i_size i -> off + Z.of_nat (length data) < 2 ^ 31 ->
  wp (readi ip Local off (Z.of_nat (length data))) (fun r _ => r = (Z.of_nat (length data), data)) k.
Proof.
  intros La Hop Hwn HL Hoff Hn. eapply wp_mono; [apply (readi_spec e k _ _ _ ip Local off (Z.of_nat (length data)) La Hop); try done; try lia; apply Hwn|].
  cbv beta. destruct (Z.ltb_spec (off + Z.of_nat (length data)) (2 ^ 32)); [|lia].
  assert (i_size (v' !!! ip) = Z.max (i_size i) (off + Z.of_nat (length data))) as Es by (by rewrite (wn_entry _ _ _ _ _ _ _ Hwn)).
  unfold read_len. destruct (Z.ltb_spec (i_size (v' !!! ip)) off); [lia|]. rewrite Z.min_l by lia. intros r k3 [-> _]. f_equal. cbn [receives].
  apply (written_content e V i off data _ _ Hwn); lia.
Qed.

Lemma writei_spec e k V L v ip src local off n m :
  layout e -> op e (k_fs k) ∅ V L v -> bitmap_ok e V -> inode_ok e V (v !!! ip) -> file_ok e V (v !!! ip) ->
  named e (v !!! ip) -> dinode_ok (dinode_of (v !!! ip)) -> supplier src local n -> 0 <= off < 2 ^ 32 -> 0 <= n < 2 ^ 32 ->
  fits e ∅ L (6 * blocks_left off 0 n + (1 + m)) ->
  let data := supplies src local (k_mem k) n in
  if decide (off <= i_size (v !!! ip) /\ off + n <= MAXFILE * BSIZE) then
    wpx (writei ip src local off n) (fun r k' => r = n /\ exists V' L' i',
        op e (k_fs k') ∅ V' L' (vinsert ip i' v) /\ written e V (v !!! ip) off data V' i' /\
        (exists s', k' = kk s' (k_mem k) k) /\ fits e ∅ L' m /\
        wp (readi ip Local off n) (fun r _ => r = (n, data)) k')
      no_blocks k
  else wp (writei ip src local off n) (fun r k' => r = -1 /\ k' = k) k.
Proof.
  intros La Hop Hb Hok Hf Hnm Hdk Hs Hoff Hn Hfit data. assert (MAXFILE * BSIZE < 2 ^ 31) as HM by done.
  destruct (decide _) as [[Hle Hmax]|Hbad].
  - unfold writei. apply wpx_bind, wpx_wp, wp_zoom. eapply op_geti; [exact Hop|]. rewrite (put_view (l:=fsL)).
    rewrite (u32_small (off + n)) by lia. destruct (Z.ltb_spec (i_size (v !!! ip)) off), (Z.ltb_spec (off + n) off); try lia.
    destruct (Z.ltb_spec (MAXFILE * BSIZE) (off + n)); [lia|]. cbn [orb].
    apply wpx_bind. eapply wpx_mono; [apply (writei_loop e La k V L v ip src local off n (1 + m)); done || lia|].
    cbv beta. intros r k1 (V1 & L1 & i1 & -> & Hop1 & HW & [s1 ->] & Hf1). fold data in HW.
    assert (Z.of_nat (length data) = n) as Hdl by (unfold data; rewrite supplies_length; [lia|done|lia]).
    assert (i_size i1 = i_size (v !!! ip)) as Fs by (by rewrite (wr_same _ _ _ _ _ _ _ _ HW)).
    apply wpx_wp, wp_bind, wp_fs. eapply op_geti; [exact Hop1|]. rewrite vlookup_insert.
    set (j := resized (off + n) i1). apply wp_bind.
    eapply wp_mono with (Q := fun _ k2 => exists s2, k2 = kk s2 (k_mem k) k /\ op e s2 ∅ V1 L1 (vinsert ip j v)).
    { unfold j, resized. destruct (Z.ltb_spec (i_size i1) (off + n)); cbn [when].
      - apply wp_fs. eapply wp_mono; [eapply op_updi; exact Hop1|]. cbv beta. intros [] s2 Hop2.
        rewrite vlookup_insert, vinsert_twice in Hop2. by exists s2.
      - apply wp_ret. by exists s1. }
    intros [] k2 (s2 & -> & Hop2).
    rewrite <- Hdl in HW. pose proof (wrote_written e La V (v !!! ip) off data V1 i1 HW Hf Hnm Hdk ltac:(lia) ltac:(lia)) as Hwn.
    cbv zeta in Hwn. rewrite Hdl in Hwn. fold j in Hwn. destruct Hnm as [Hdev Hinum].
    assert (i_dev j = ROOTDEV /\ i_inum j = i_inum (v !!! ip)) as [Jd Ji] by (rewrite (wn_entry _ _ _ _ _ _ _ Hwn); by split).
    apply wp_bind, wp_fs. eapply wp_mono; [apply (iupdate_spec e La s2 ∅ V1 L1 (vinsert ip j v) ip Hop2)|].
    { intros b Hb'. by destruct (holds_empty b). } { destruct Hf1. split; lia. } { rewrite vlookup_insert. split; [done|by rewrite Ji]. }
    cbv beta. rewrite vlookup_insert. intros [] s3 Hop3. apply wp_ret. split; [rewrite s32_small; lia|].
    eexists _, _, j. split; [exact Hop3|]. split; [exact Hwn|]. split; [by exists s3|].
    apply fits_logged with (b := IBLOCK (i_inum j) (e_sb e)) in Hf1. split; [exact Hf1|]. destruct Hf1 as [_ HL3]. rewrite map_size_empty in HL3.
    rewrite <- Hdl. apply (written_readi e (kk s3 (k_mem k) k) V (v !!! ip) off data (stored (e_sb e) V1 j) _ (vinsert ip j v) ip La Hop3);
      rewrite ?vlookup_insert; done || lia.
  - by apply (writei_refuses e k V L v).
Qed.

(** C7: writing and reading back. Within an operation with room for it in the log,
    [writei] of [n] bytes of the kernel's at an offset up to the end of the file
    returns [n]: the file has the bytes from the offset on and is as it was
    elsewhere, it is as long as needed, the inode on disk is the one in the table,
    and no other file or inode has changed; [readi] then reads the bytes back. The
    only way not to return is that the disk is full. An offset past the end, and
    an end past the largest file or the 32-bit range, give -1 and no change. *)
Theorem writei_readi_roundtrip e k V L v ip src local off n :
  layout e -> op e (k_fs k) ∅ V L v -> bitmap_ok e V -> inode_ok e V (v !!! ip) -> file_ok e V (v !!! ip) ->
  named e (v !!! ip) -> dinode_ok (dinode_of (v !!! ip)) -> supplier src local n -> 0 <= off < 2 ^ 32 -> 0 <= n < 2 ^ 32 ->
  fits e ∅ L (6 * blocks_left off 0 n + 1) ->
  let data := supplies src local (k_mem k) n in
  if decide (off <= i_size (v !!! ip) /\ off + n <= MAXFILE * BSIZE) then
    wpx (writei ip src local off n) (fun r k' => r = n /\ exists V' L' i',
        op e (k_fs k') ∅ V' L' (vinsert ip i' v) /\ written e V (v !!! ip) off data V' i' /\
        (exists s', k' = kk s' (k_mem k) k) /\
        wp (readi ip Local off n) (fun r _ => r = (n, data)) k')
      no_blocks k
  else wp (writei ip src local off n) (fun r k' => r = -1 /\ k' = k) k.
Proof.
  intros La Hop Hb Hok Hf Hnm Hdk Hs Hoff Hn Hfit data.
  pose proof (writei_spec e k V L v ip src local off n 0 La Hop Hb Hok Hf Hnm Hdk Hs Hoff Hn Hfit) as Hw. cbv zeta in Hw.
  destruct (decide _); [|exact Hw]. eapply wpx_mono; [exact Hw|]. cbv beta. intros r k' (-> & V' & L' & i' & ? & ? & ? & _ & ?).
  split; [done|]. by exists V', L', i'.
Qed.

(** A new file. *)
Module Fresh.
Definition entry : inode := Inode ROOTDEV 8 1 (Sleeplock 0 Volume.lk "inode" 0) 1 2 0 0 1 0 (replicate 13 0).
Definition table : vec inode NINODE := vinsert 0%fin entry (vreplicate NINODE Volume.inode0).
Lemma fresh_op : exists s, op Volume.volume s ∅ (dread Volume.dsk) [] table.
Proof.
  destruct Volume.volume_open as [s Hs].
  destruct (wp_run _ _ _ (op_updi Volume.volume s _ _ _ _ 0%fin (fun _ => entry) Hs)) as ([] & s' & _ & Hs'). by exists s'.
Qed.
Lemma fresh_at : table !!! (0%fin : inodep) = entry.
Proof. apply vlookup_insert. Qed.
Lemma fresh_slot c : -1 <= c -> slot_at (dread Volume.dsk) entry c = 0.
Proof.
  intros Hc. unfold slot_at, ind, addr_at. destruct (Z.eqb_spec c (-1)); [done|]. destruct (Z.ltb_spec c NDIRECT) as [Hd|]; [|done].
  unfold NDIRECT in Hd. rewrite list_lookup_total_alt. cbn [i_addrs entry]. rewrite lookup_replicate_2 by lia. done.
Qed.
Lemma fresh_ok : inode_ok Volume.volume (dread Volume.dsk) entry.
Proof.
  split; [done|done|by apply Forall_replicate| |]; intros c.
  - intros Hc. by rewrite fresh_slot by lia.
  - intros d Hc _ Hne. by rewrite fresh_slot in Hne by lia.
Qed.
Lemma fresh_file : file_ok Volume.volume (dread Volume.dsk) entry.
Proof. split; [done|done|by vm_compute| |by vm_compute]. intros bn H0 H1. cbn in H1. unfold BSIZE in H1. lia. Qed.
Lemma fresh_dinode : dinode_ok (dinode_of entry).
Proof. split; try (cbn; lia). by apply Forall_replicate. Qed.
End Fresh.

Lemma writei_readi_roundtrip_witness : exists k o, writei 0%fin Local [104; 105] 0 2 k = o /\
  match o with
  | Ok r k' => r = 2 /\ wp (readi 0%fin Local 0 2) (fun r _ => r = (2, [104; 105])) k'
  | Stop w _ => no_blocks w
  end.
Proof.
  destruct Fresh.fresh_op as [s Hs]. exists (Around.kernel s).
  pose proof (writei_readi_roundtrip Volume.volume (Around.kernel s) _ [] _ 0%fin Local [104; 105] 0 2 Volume.volume_layout Hs
    Volume.volume_bitmap) as Hw. rewrite Fresh.fresh_at in Hw.
  specialize (Hw Fresh.fresh_ok Fresh.fresh_file ltac:(split; [done|cbn; lia]) Fresh.fresh_dinode ltac:(split; [done|cbn; lia]) ltac:(lia)
    ltac:(lia) (Volume.volume_fits 7 ltac:(lia))).
  destruct (wpx_run _ _ _ _ Hw) as [(r & k' & E & -> & V' & L' & i' & _ & _ & _ & Hr)|(w & k' & E & Ew)].
  - exists (Ok 2 k'). exact (conj E (conj eq_refl Hr)).
  - exists (Stop w k'). exact (conj E Ew).
Defined.
