(* ===== verification/Names.v ===== *)
(** Paths and directories: [skipelem] and [dirlookup] of [src/kernel/fs.c].

    The elements of a path are what is left between its slashes; a directory is
    the sequence of its 16-byte entries. *)

From stdpp Require Import gmap.
From S2P Require Import Prelude Params Spinlock Cstring Kalloc Vm Sched Sleeplock Bio Cache Log Journal Crash Txn Fs.
From S2P Require Import Blocks Inodes Umem Console Kern Path Contents.
Local Open Scope kernel_scope.

(** * Paths *)

(** The pieces of a path at its slashes: the reference for [skipelem]. *)
Fixpoint pieces (path : list Z) : list (list Z) :=
  match path with
  | [] => [[]]
  | c :: p =>
      if c =? 47 then [] :: pieces p
      else match pieces p with
           | w :: ws => (c :: w) :: ws
           | [] => [[c]]
           end
  end.
Definition elements (path : list Z) : list (list Z) := filter (fun w => w <> []) (pieces path).

(** The string in a [char name[DIRSIZ]]: up to a null, or all of it. *)
Fixpoint cname (name : list Z) : list Z :=
  match name with
  | [] => []
  | c :: n => if c =? 0 then [] else c :: cname n
  end.

Lemma pieces_cons path : exists w ws, pieces path = w :: ws.
Proof. destruct path as [|c p]; cbn; [eauto|]. destruct (c =? 47); [eauto|]. destruct (pieces p); eauto. Qed.

Lemma elements_slash p : elements (47 :: p) = elements p.
Proof. unfold elements. cbn [pieces]. change (47 =? 47) with true. cbv iota. by rewrite filter_cons_False by auto. Qed.
Lemma elements_skip p : elements (skip_slashes p) = elements p.
Proof.
  induction p as [|c p IH]; [done|]. cbn [skip_slashes]. destruct (Z.eqb_spec c 47) as [->|]; [|done]. by rewrite IH, elements_slash.
Qed.
Lemma skip_slashes_length p : (length (skip_slashes p) <= length p)%nat.
Proof. induction p as [|c p IH]; [done|]. cbn. destruct (c =? 47); cbn; lia. Qed.
Lemma skip_slashes_head p c q : skip_slashes p = c :: q -> c <> 47.
Proof. induction p as [|x p IH]; [done|]. cbn. destruct (Z.eqb_spec x 47); [done|]. by intros [= -> ->]. Qed.

Lemma take_elem_spec p : forall s r, take_elem p = (s, r) ->
  p = s ++ r /\ Forall (fun c => c <> 47) s /\ (r = [] \/ exists q, r = 47 :: q).
Proof.
  induction p as [|c p IH]; intros s r; cbn; [by intros [= <- <-]; auto|].
  destruct (Z.eqb_spec c 47) as [->|Hc]; [intros [= <- <-]; eauto|]. destruct (take_elem p) as [s' r'] eqn:E.
  intros [= <- <-]. destruct (IH s' r' eq_refl) as (-> & Hs & Hr). split_and!; [done|by constructor|done].
Qed.

Lemma pieces_elem s r :
  Forall (fun c => c <> 47) s -> (r = [] \/ exists q, r = 47 :: q) -> pieces (s ++ r) = s :: match r with [] => [] | _ :: q => pieces q end.
Proof.
  intros Hs Hr. induction Hs as [|c s Hc Hs IH]; cbn [app].
  - destruct Hr as [->|[q ->]]; done.
  - cbn [pieces]. apply Z.eqb_neq in Hc. by rewrite Hc, IH.
Qed.

(** One call of [skipelem]. *)
Lemma skipelem_spec path name :
  match skipelem path name with
  | None => elements path = []
  | Some (path', name') => exists s,
      elements path = s :: elements path' /\ (length path' < length path)%nat /\ s <> [] /\ Forall (fun c => c <> 47) s /\
      (path' = [] \/ elements path' <> []) /\ Forall (fun c => c ∈ path) s /\ (forall c, c ∈ path' -> c ∈ path) /\
      name' = splice name 0 (if (DIRSIZ <=? length s)%nat then take DIRSIZ s else s ++ [0])
  end.
Proof.
  unfold skipelem. rewrite <- elements_skip. pose proof (skip_slashes_length path) as Hlen.
  assert (forall p c, c ∈ skip_slashes p -> c ∈ p) as Hsub.
  { induction p as [|x p IH]; [done|]. cbn. destruct (x =? 47); [|done]. intros c Hc. right. by apply IH. }
  pose proof (Hsub path) as Hsubp. destruct (skip_slashes path) as [|c q] eqn:E; [done|]. apply skip_slashes_head in E as Hc.
  destruct (take_elem (c :: q)) as [s r] eqn:Et. destruct (take_elem_spec _ _ _ Et) as (Ep & Hs & Hr).
  assert (s <> []) as Hne by (intros ->; destruct Hr as [->|[? ->]]; cbn in Ep; [done|congruence]).
  assert (elements (s ++ r) = s :: elements (skip_slashes r)) as Ee.
  { unfold elements at 1. rewrite (pieces_elem s r Hs Hr), filter_cons_True by done. f_equal. rewrite elements_skip.
    destruct Hr as [->|[q' ->]]; [done|]. by rewrite elements_slash. }
  pose proof (skip_slashes_length r) as Hr'. exists s. rewrite Ep. split_and!; try done.
  - rewrite Ep, length_app in Hlen. destruct s; [done|]. cbn in Hlen. lia.
  - destruct (skip_slashes r) as [|x y] eqn:Er; [by left|right]. apply skip_slashes_head in Er as Hx.
    destruct (pieces_cons y) as (w & ws & Ew). unfold elements. cbn [pieces]. apply Z.eqb_neq in Hx. rewrite Hx, Ew. by rewrite filter_cons_True.
  - apply Forall_forall. intros x Hx. apply Hsubp. rewrite Ep. apply elem_of_app. by left.
  - intros x Hx. apply Hsubp. rewrite Ep. apply elem_of_app. right. by apply Hsub.
  - by destruct (DIRSIZ <=? length s)%nat.
Qed.

Lemma cname_app s r : Forall (fun c => c <> 0) s -> cname (s ++ r) = s ++ cname r.
Proof. intros Hs. induction Hs as [|c s Hc _ IH]; [done|]. cbn. apply Z.eqb_neq in Hc. by rewrite Hc, IH. Qed.
Lemma cname_elem s name :
  length name = DIRSIZ -> Forall (fun c => c <> 0) s ->
  let name' := splice name 0 (if (DIRSIZ <=? length s)%nat then take DIRSIZ s else s ++ [0]) in
  cname name' = take DIRSIZ s /\ length name' = DIRSIZ.
Proof.
  intros Hn Hs. cbv zeta. destruct (Nat.leb_spec DIRSIZ (length s)) as [Hl|Hl].
  - assert (length (take DIRSIZ s) = DIRSIZ) as Ht by (rewrite length_take; lia). split; [|rewrite length_splice; lia].
    unfold splice. rewrite take_0, app_nil_l. rewrite cname_app by (by apply Forall_take). rewrite drop_ge by lia. by rewrite app_nil_r.
  - split; [|rewrite length_splice; rewrite ?length_app; cbn [length]; lia]. unfold splice. rewrite take_0, app_nil_l.
    rewrite <- app_assoc, cname_app by done. cbn. by rewrite app_nil_r, take_ge by (unfold DIRSIZ in *; lia).
Qed.

(** * Directories *)

(** The [j]th entry, and whether it is a use of the name. *)
Definition dir_entry (V : blocks) (d : inode) (j : Z) : list Z := content V d (DIRENT * j) DIRENT.
Definition entry_matches (name de : list Z) : Prop := de_inum de <> 0 /\ namecmp name (de_name de) = 0.
#[export] Instance entry_matches_dec name de : Decision (entry_matches name de).
Proof. unfold entry_matches. apply _. Defined.

Record dir_ok (e : env) (V : blocks) (d : inode) : Prop := {
  dr_type : i_type d = T_DIR;
  dr_file : file_ok e V d;
  dr_size : i_size d mod DIRENT = 0;
}.

Section Lookup.
Context (e : env) (La : layout e).
Implicit Types (s : fss) (V : blocks) (L : list Z) (v : vec inode NINODE) (k : kern).

Lemma read_dirent_spec k V L v dp j msg :
  op e (k_fs k) ∅ V L v -> (forall b, blk (V b)) -> dir_ok e V (v !!! dp) -> (length L < NBUF)%nat ->
  0 <= j -> DIRENT * j < i_size (v !!! dp) ->
  wp (read_dirent dp (DIRENT * j) msg) (fun de k' => de = dir_entry V (v !!! dp) j /\
    op e (k_fs k') ∅ V L v /\ exists s', k' = kk s' (k_mem k) k) k.
Proof.
  intros Hop Hk [_ Hf Hm] HL Hj Hlt. pose proof (fo_size _ _ _ Hf) as Hsz. assert (MAXFILE * BSIZE < 2 ^ 31) by done.
  assert (DIRENT * j + DIRENT <= i_size (v !!! dp)) as Hend.
  { pose proof (Z.div_mod (i_size (v !!! dp)) DIRENT ltac:(done)). unfold DIRENT in *. lia. }
  unfold read_dirent. wseq (readi_spec e k V L v dp Local (DIRENT * j) DIRENT La Hop Hk Hf HL I); [unfold DIRENT in *; lia..|].
  cbv beta. destruct (Z.ltb_spec (DIRENT * j + DIRENT) (2 ^ 32)); [|lia]. unfold read_len.
  destruct (Z.ltb_spec (i_size (v !!! dp)) (DIRENT * j)); [lia|]. rewrite Z.min_l by lia.
  intros r k' (-> & Hop' & Hrest). cbn [fst snd]. rewrite Z.eqb_refl. cbn [negb]. by apply wp_ret.
Qed.

(** What a lookup has found when it is at entry [j]. *)
Definition passed (V : blocks) (d : inode) (name : list Z) (j : Z) : Prop :=
  forall i, 0 <= i < j -> ~ entry_matches name (dir_entry V d i).

Lemma dirlookup_spec k V L v dp name :
  op e (k_fs k) ∅ V L v -> (forall b, blk (V b)) -> dir_ok e V (v !!! dp) -> (length L < NBUF)%nat -> itable_ok v ->
  wpx (dirlookup dp name) (fun r k' => (exists s', k' = kk s' (k_mem k) k) /\
      match r with
      | None => passed V (v !!! dp) name (i_size (v !!! dp) / DIRENT) /\ op e (k_fs k') ∅ V L v
      | Some (ip, off) => exists j, off = DIRENT * j /\ 0 <= j < i_size (v !!! dp) / DIRENT /\
          passed V (v !!! dp) name j /\ entry_matches name (dir_entry V (v !!! dp) j) /\
          let inum := de_inum (dir_entry V (v !!! dp) j) in
          op e (k_fs k') ∅ V L (vinsert ip (got ROOTDEV inum (v !!! ip)) v) /\
          (is_for ROOTDEV inum (v !!! ip) \/ i_ref (v !!! ip) = 0 /\ forall jp, ~ is_for ROOTDEV inum (v !!! jp))
      end)
    (fun w => w = Panic "iget: no inodes" /\ forall jp, 0 < i_ref (v !!! jp)) k.
Proof.
  intros Hop Hk Hd HL Ht. pose proof Hd as [Hty Hf Hm]. pose proof (fo_size _ _ _ Hf) as Hsz. assert (MAXFILE * BSIZE < 2 ^ 31) by done.
  pose proof (Z.div_mod (i_size (v !!! dp)) DIRENT ltac:(done)) as Hdm. rewrite Hm in Hdm.
  unfold dirlookup. apply wpx_bind, wpx_wp, wp_zoom. eapply op_geti; [exact Hop|]. rewrite (put_view (l:=fsL)), Hty.
  change (T_DIR =? T_DIR) with true. cbn [negb].
  apply (wpx_loop _ (fun n off k' => exists j, off = DIRENT * j /\ 0 <= j <= i_size (v !!! dp) / DIRENT /\
    n = Z.to_nat (i_size (v !!! dp) / DIRENT - j) /\ passed V (v !!! dp) name j /\ op e (k_fs k') ∅ V L v /\
    exists s', k' = kk s' (k_mem k) k)) with (n := Z.to_nat (i_size (v !!! dp) / DIRENT)).
  - intros n off k' (j & -> & Hj & -> & Hpass & Hop' & s' & ->). unfold dirlookup_step.
    apply wpx_bind, wpx_wp, wp_fs. eapply op_geti; [exact Hop'|].
    destruct (Z.ltb_spec (DIRENT * j) (i_size (v !!! dp))) as [Hlt|Hge]; cbn [negb].
    2:{ apply wpx_wp, wp_ret. split; [by exists s'|]. split; [|done]. unfold DIRENT in *. assert (j = i_size (v !!! dp) / 16) as <- by lia. done. }
    assert (j < i_size (v !!! dp) / DIRENT) as Hj' by (unfold DIRENT in *; lia).
    xseq (read_dirent_spec (kk s' (k_mem k) k) V L v dp j "dirlookup read" Hop' Hk Hd HL); [lia|done|].
    cbv beta. intros de k2 (-> & Hop2 & s2 & ->). set (de := dir_entry V (v !!! dp) j).
    assert (~ entry_matches name de -> exists n', (n' < Z.to_nat (i_size (v !!! dp) / DIRENT - j))%nat /\ exists j', DIRENT * j + DIRENT = DIRENT * j' /\
      0 <= j' <= i_size (v !!! dp) / DIRENT /\ n' = Z.to_nat (i_size (v !!! dp) / DIRENT - j') /\ passed V (v !!! dp) name j' /\
      op e s2 ∅ V L v /\ exists s', kk s2 (k_mem k) k = kk s' (k_mem k) k) as Hnext.
    { intros Hno. exists (Z.to_nat (i_size (v !!! dp) / DIRENT - (j + 1))). split; [lia|]. exists (j + 1).
      split_and!; [lia|lia|lia|done| |done|by exists s2].
      intros i Hi. destruct (decide (i = j)) as [->|]; [done|]. apply Hpass. lia. }
    destruct (Z.eqb_spec (de_inum de) 0) as [Ez|Enz].
    { apply wpx_wp, wp_ret. apply Hnext. by intros [? _]. }
    destruct (Z.eqb_spec (namecmp name (de_name de)) 0) as [En|Enn].
    2:{ apply wpx_wp, wp_ret. apply Hnext. by intros [_ ?]. }
    rewrite (fo_dev _ _ _ Hf). apply wpx_bind, wpx_fs.
    eapply wpx_weaken; [eapply wpx_mono; [apply (iget_spec e s2 ∅ V L v ROOTDEV (de_inum de) Hop2 Ht)|]|].
    + cbv beta. intros ip s3 [Hop3 Hip]. apply wpx_wp, wp_ret. split; [by exists s3|]. exists j. by split_and!; try lia.
    + intros w [-> Hall]. split; [done|]. intros jp. apply Hall.
  - exists 0. split_and!; try done; [apply Z.div_pos; [lia|done]|f_equal; lia|intros i Hi; lia|]. exists (k_fs k). symmetry. apply kk_self.
  - pose proof (Z.div_le_upper_bound (i_size (v !!! dp)) DIRENT (MAXFILE * BSIZE) ltac:(done)). unfold DIRENT in *. lia.
Qed.
End Lookup.
