(* ===== verification/Links.v ===== *)
(** Adding names to directories: [dirlink] of [src/kernel/fs.c]. *)

From stdpp Require Import gmap.
From S2P Require Import Prelude Params Spinlock Cstring Kalloc Vm Sched Sleeplock Bio Cache Log Journal Crash Txn Fs.
From S2P Require Import Blocks Inodes Umem Console Kern Path Contents Growth Writing Names.
Local Open Scope kernel_scope.

(** * Entries *)

(** A C string of which [DIRSIZ] bytes may be read. *)
Definition name_ok (name : list Z) : Prop := Forall is_byte name /\ (0 ∈ name \/ (DIRSIZ <= length name)%nat).

Lemma length_strncpy_array n : forall s, length (strncpy_array n s) = n.
Proof. induction n as [|n IH]; intros s; [done|]. cbn. destruct s as [|c s]; [|destruct (c =? 0)]; cbn; by rewrite IH. Qed.

(** [strncmp] of strings that agree up to the first null. *)
Lemma strncmp_agree n : forall p q : cptr,
  (forall i, 0 <= i < Z.of_nat n -> (forall j, 0 <= j < i -> p j <> 0) -> p i = q i) -> strncmp p q n = 0.
Proof.
  induction n as [|n IH]; intros p q H; [done|]. cbn [strncmp]. rewrite <- (H 0) by (done || lia). rewrite Z.eqb_refl, andb_true_r.
  destruct (nz (p 0)) eqn:E; [|lia]. apply IH. intros i Hi Hj. unfold shift. apply H; [lia|]. intros j Hj'.
  destruct (decide (j = 0)) as [->|]; [unfold nz in E; apply negb_true_iff, Z.eqb_neq in E; done|].
  replace j with (j - 1 + 1) by lia. apply (Hj (j - 1)). lia.
Qed.

Lemma strncpy_array_lookup n : forall s i,
  (i < n)%nat -> (i < length s)%nat -> (forall j, (j < i)%nat -> s !! j <> Some 0) -> strncpy_array n s !! i = s !! i.
Proof.
  induction n as [|n IH]; intros s i Hi Hl Hj; [lia|]. destruct s as [|c s]; [cbn in Hl; lia|]. cbn.
  destruct i as [|i]; [by destruct (Z.eqb_spec c 0) as [->|]|].
  destruct (Z.eqb_spec c 0) as [->|]; [by destruct (Hj 0%nat ltac:(lia))|]. cbn in *.
  apply IH; [lia|lia|]. intros j Hlt. apply (Hj (S j)). lia.
Qed.

Lemma namecmp_strncpy name : name_ok name -> namecmp name (strncpy_array DIRSIZ name) = 0.
Proof.
  intros [Hb Hn]. unfold namecmp. apply strncmp_agree. intros i Hi Hj. unfold at_list. f_equal.
  assert (Hno : forall j, (j < Z.to_nat i)%nat -> (j < length name)%nat -> name !! j <> Some 0).
  { intros j Hlt Hl E. apply (Hj (Z.of_nat j)); [lia|]. unfold at_list. rewrite Nat2Z.id, list_lookup_total_alt, E. done. }
  assert (Z.to_nat i < length name)%nat as Hl.
  { destruct Hn as [[j Hz]%list_elem_of_lookup|Hn]; [|lia]. pose proof (lookup_lt_Some _ _ _ Hz) as Hlt.
    destruct (decide (j < Z.to_nat i)%nat) as [H1|]; [|lia]. by destruct (Hno j H1 Hlt). }
  rewrite !list_lookup_total_alt. f_equal. symmetry. apply strncpy_array_lookup; [lia|done|]. intros j Hlt. apply Hno; lia.
Qed.

Lemma length_dirent inum name : length (dirent inum name) = Z.to_nat DIRENT.
Proof. unfold dirent. rewrite length_app, length_le_bytes, length_strncpy_array. done. Qed.
Lemma de_inum_dirent inum name : 0 <= inum < 2 ^ 16 -> de_inum (dirent inum name) = inum.
Proof.
  intros Hi. unfold de_inum, get_le, slice, dirent. rewrite drop_0, take_app_le by (rewrite length_le_bytes; lia).
  rewrite take_ge by (rewrite length_le_bytes; lia). rewrite le_val_bytes, u16_small by lia. change (256 ^ Z.of_nat 2) with (2 ^ 16). by rewrite Z.mod_small by lia.
Qed.
Lemma de_name_dirent inum name : de_name (dirent inum name) = strncpy_array DIRSIZ name.
Proof.
  unfold de_name, slice, dirent. rewrite drop_app_length' by (by rewrite length_le_bytes).
  apply take_ge. rewrite length_strncpy_array. done.
Qed.
Lemma dirent_matches inum name : 0 < inum < 2 ^ 16 -> name_ok name -> entry_matches name (dirent inum name).
Proof.
  intros Hi Hn. unfold entry_matches. rewrite de_inum_dirent, de_name_dirent by lia. split; [lia|by apply namecmp_strncpy].
Qed.

(** * [dirlink] *)

Section Dirlink.
Context (e : env) (La : layout e).
Implicit Types (s : fss) (V : blocks) (L : list Z) (v : vec inode NINODE) (k : kern).

(** The first unused entry, or the end. *)
Definition first_unused V (d : inode) (j : Z) : Prop :=
  0 <= j <= i_size d / DIRENT /\ (forall i, 0 <= i < j -> de_inum (dir_entry V d i) <> 0) /\
  (j < i_size d / DIRENT -> de_inum (dir_entry V d j) = 0).

Lemma dirlink_scan_spec k V L v dp :
  op e (k_fs k) ∅ V L v -> (forall b, blk (V b)) -> dir_ok e V (v !!! dp) -> (length L < NBUF)%nat ->
  wp (loop (dirlink_scan dp) 0) (fun off k' => exists j, off = DIRENT * j /\ first_unused V (v !!! dp) j /\
    op e (k_fs k') ∅ V L v /\ exists s', k' = kk s' (k_mem k) k) k.
Proof.
  intros Hop Hk Hd HL. pose proof Hd as [_ Hf Hm]. pose proof (fo_size _ _ _ Hf) as Hsz. assert (MAXFILE * BSIZE < 2 ^ 31) by done.
  pose proof (Z.div_mod (i_size (v !!! dp)) DIRENT ltac:(done)) as Hdm. rewrite Hm in Hdm.
  apply (wp_loop _ (fun n off k' => exists j, off = DIRENT * j /\ 0 <= j <= i_size (v !!! dp) / DIRENT /\
    n = Z.to_nat (i_size (v !!! dp) / DIRENT - j) /\ (forall i, 0 <= i < j -> de_inum (dir_entry V (v !!! dp) i) <> 0) /\
    op e (k_fs k') ∅ V L v /\ exists s', k' = kk s' (k_mem k) k))
    with (n := Z.to_nat (i_size (v !!! dp) / DIRENT)).
  - intros n off k' (j & -> & Hj & -> & Hall & Hop' & s' & ->). unfold dirlink_scan.
    apply wp_bind, wp_fs. eapply op_geti; [exact Hop'|].
    destruct (Z.ltb_spec (DIRENT * j) (i_size (v !!! dp))) as [Hlt|Hge]; cbn [negb].
    2:{ apply wp_ret. exists j. unfold first_unused. split_and!; try done; [lia|lia|intros; unfold DIRENT in *; lia|by exists s']. }
    wseq (read_dirent_spec e La (kk s' (k_mem k) k) V L v dp j "dirlink read" Hop' Hk Hd HL); [lia|done|].
    cbv beta. intros de k2 (-> & Hop2 & s2 & ->). destruct (Z.eqb_spec (de_inum (dir_entry V (v !!! dp) j)) 0) as [Ez|Enz]; apply wp_ret.
    + exists j. unfold first_unused. split_and!; try done; [lia|lia|by exists s2].
    + exists (Z.to_nat (i_size (v !!! dp) / DIRENT - (j + 1))). unfold DIRENT in *. split; [lia|]. exists (j + 1).
      split_and!; [lia..| |done|by exists s2].
      intros i Hi. destruct (decide (i = j)) as [->|]; [done|]. apply Hall. lia.
  - exists 0. split_and!; try done; [apply Z.div_pos; [lia|done]|f_equal; lia|intros; lia|]. exists (k_fs k). symmetry. apply kk_self.
  - unfold DIRENT in *. lia.
Qed.

(** The entries after an entry has been written. *)
Lemma written_entry V d j name inum V' d' j' :
  written e V d (DIRENT * j) (dirent inum name) V' d' -> 0 <= j' -> DIRENT * j' + DIRENT <= i_size d' ->
  dir_entry V' d' j' = if decide (j' = j) then dirent inum name else dir_entry V d j'.
Proof.
  intros HW Hj' Hsz. assert (length (dirent inum name) = Z.to_nat DIRENT) as Hlen by apply length_dirent.
  apply list_eq. intros x. unfold dir_entry, content. unfold DIRENT in *. rewrite list_lookup_fmap.
  destruct (decide (x < 16)%nat) as [Hx|Hx].
  - rewrite lookup_seqZ_lt by lia. cbn [fmap option_fmap option_map]. rewrite (wn_bytes _ _ _ _ _ _ _ HW) by lia. rewrite Hlen.
    destruct (decide (j' = j)) as [->|Hne].
    + rewrite decide_True by lia. replace (Z.to_nat (16 * j + Z.of_nat x - 16 * j)) with x by lia.
      symmetry. apply list_lookup_lookup_total_lt. lia.
    + rewrite decide_False by lia. rewrite list_lookup_fmap, lookup_seqZ_lt by lia. done.
  - rewrite lookup_seqZ_ge by lia. symmetry. destruct (decide (j' = j)); [apply lookup_ge_None; lia|].
    rewrite list_lookup_fmap, lookup_seqZ_ge by lia. done.
Qed.

Lemma blocks_left_dirent j : 0 <= j -> blocks_left (DIRENT * j) 0 DIRENT = 1%nat.
Proof.
  intros Hj. unfold blocks_left, DIRENT. cbn [Z.ltb Z.compare]. rewrite Z.add_0_r.
  assert ((16 * j + 16 - 1) / BSIZE = 16 * j / BSIZE) as ->; [|lia]. symmetry. unfold BSIZE.
  pose proof (Z.div_mod (16 * j) 1024 ltac:(lia)). pose proof (Z.mod_pos_bound (16 * j) 1024 ltac:(lia)).
  apply (Z.div_unique_pos _ _ _ ((16 * j) mod 1024 + 15)); lia.
Qed.

(** The entry that a lookup has got and [iput] gives back. *)
Lemma got_goes i dev inum : 0 <= i_ref i < 2 ^ 31 -> goes (got dev inum i) = false.
Proof.
  intros Hr. unfold goes, got. case_decide; cbn; [|done].
  destruct (decide (i_ref i = 2 ^ 31 - 1)) as [->|Hne]; [done|]. rewrite s32_small by lia. destruct (Z.eqb_spec (i_ref i + 1) 1); [lia|done].
Qed.
Lemma s32_back x : - 2 ^ 31 <= x < 2 ^ 31 -> s32 (s32 (x + 1) - 1) = x.
Proof.
  intros Hx. destruct (decide (x = 2 ^ 31 - 1)) as [->|Hne]; [done|]. rewrite (s32_small (x + 1)), s32_small by lia. lia.
Qed.

(** The directory [d] with an entry [j] for the name. *)
Record linked V (d : inode) (name : list Z) (inum j : Z) V' (d' : inode) : Prop := {
  lk_slot : first_unused V d j;
  lk_dir : dir_ok e V' d';
  lk_size : i_size d' = Z.max (i_size d) (DIRENT * j + DIRENT);
  lk_entry i : 0 <= i < i_size d' / DIRENT -> dir_entry V' d' i = if decide (i = j) then dirent inum name else dir_entry V d i;
  lk_written : written e V d (DIRENT * j) (dirent inum name) V' d';
}.

Lemma written_linked V d name inum j V' d' :
  dir_ok e V d -> first_unused V d j -> written e V d (DIRENT * j) (dirent inum name) V' d' -> linked V d name inum j V' d'.
Proof.
  intros Hd Hj HW. assert (length (dirent inum name) = Z.to_nat DIRENT) as Hlen by apply length_dirent.
  pose proof (wn_entry _ _ _ _ _ _ _ HW) as He. rewrite Hlen in He. change (Z.of_nat (Z.to_nat DIRENT)) with DIRENT in He.
  assert (i_size d' = Z.max (i_size d) (DIRENT * j + DIRENT)) as Hs by (by rewrite He).
  assert (i_type d' = i_type d) as Ht by (by rewrite He). pose proof (dr_size _ _ _ Hd) as Hm.
  assert (i_size d' mod DIRENT = 0) as Hm'.
  { rewrite Hs. destruct (Z.max_spec (i_size d) (DIRENT * j + DIRENT)) as [[_ ->]|[_ ->]]; [|done].
    replace (DIRENT * j + DIRENT) with ((j + 1) * DIRENT) by lia. by apply Z.mod_mul. }
  split; try done.
  - split; [rewrite Ht; apply Hd|apply HW|done].
  - intros i Hi. apply (written_entry V d j name inum); [done|lia|].
    pose proof (Z.div_mod (i_size d') DIRENT ltac:(done)). unfold DIRENT in *. lia.
Qed.

(** A lookup of the name finds the entry. *)
Lemma linked_dirlookup k V d name inum j V' d' L v dp :
  linked V d name inum j V' d' -> dir_ok e V d -> passed V d name (i_size d / DIRENT) -> v !!! dp = d' ->
  op e (k_fs k) ∅ V' L v -> itable_ok v -> ref_room 1 v -> (length L < NBUF)%nat -> 0 < inum < 2 ^ 16 -> name_ok name ->
  wpx (dirlookup dp name) (fun r k' => exists ip v', r = Some (ip, DIRENT * j) /\ op e (k_fs k') ∅ V' L v' /\
      is_for ROOTDEV inum (v' !!! ip)) (fun w => w = Panic "iget: no inodes") k.
Proof.
  intros [Hj Hd' Hs He HW] Hd Hno Hdp Hop Ht Hroom HL Hi Hn. pose proof (bm_blk _ _ (wn_bitmap _ _ _ _ _ _ _ HW)) as Hk.
  pose proof (Z.div_mod (i_size d) DIRENT ltac:(done)) as Hdm. rewrite (dr_size _ _ _ Hd) in Hdm.
  pose proof (Z.div_mod (i_size d') DIRENT ltac:(done)) as Hdm'. rewrite (dr_size _ _ _ Hd') in Hdm'.
  assert (0 <= j < i_size d' / DIRENT) as Hj'. { destruct Hj. unfold DIRENT in *. lia. }
  rewrite <- Hdp in Hd'. eapply wpx_weaken; [eapply wpx_mono; [apply (dirlookup_spec e La k V' L v dp name Hop Hk Hd' HL Ht)|]|by intros w [-> _]].
  rewrite Hdp. cbv beta. intros [[ip off]|] k' [_ Hr].
  - destruct Hr as (i & -> & Hlt & Hpass & Hmatch & Hop' & Hip). assert (i = j) as ->.
    { destruct (Z.lt_trichotomy i j) as [Hij|[->|Hij]]; [|done|].
      - rewrite He in Hmatch by lia. rewrite decide_False in Hmatch by lia. destruct Hj. by destruct (Hno i ltac:(lia)).
      - destruct (Hpass j ltac:(lia)). rewrite He, decide_True by (done || lia). by apply dirent_matches. }
    eexists ip, _. split; [done|]. split; [exact Hop'|]. rewrite vlookup_insert, He, decide_True by done.
    rewrite de_inum_dirent by lia. apply got_is_for; [apply Hroom|].
    rewrite He, decide_True, de_inum_dirent in Hip by (done || lia). tauto.
  - destruct Hr as [Hpass _]. destruct (Hpass j Hj'). rewrite He, decide_True by done. by apply dirent_matches.
Qed.

(** The table with the directory's entry changed. *)
Lemma itable_same v dp d' :
  itable_ok v -> i_ref d' = i_ref (v !!! dp) -> i_dev d' = i_dev (v !!! dp) -> i_inum d' = i_inum (v !!! dp) ->
  itable_ok (vinsert dp d' v).
Proof.
  intros [Hr Hu] E1 E2 E3. split.
  - intros ip. rewrite vlookup_vinsert. case_decide; [rewrite E1|]; apply Hr.
  - intros ip jp. rewrite !vlookup_vinsert. repeat case_decide; subst; rewrite ?E1, ?E2, ?E3; auto.
Qed.

(** A name that is there: what was got is put back. *)
Lemma dirlink_present s V L v ip dev inum :
  op e s ∅ V L (vinsert ip (got dev inum (v !!! ip)) v) -> itable_ok v ->
  wp (iput ip) (fun _ s' => exists i', op e s' ∅ V L (vinsert ip i' v) /\ i_ref i' = i_ref (v !!! ip) /\
    (0 < i_ref (v !!! ip) -> i' = v !!! ip)) s.
Proof.
  intros Hop [Hr _]. eapply wp_mono; [apply (iput_keeps_spec e _ _ _ _ _ ip Hop); rewrite vlookup_insert; by apply got_goes|].
  cbv beta. rewrite vlookup_insert, vinsert_twice. intros [] s' Hop'. eexists. split; [exact Hop'|]. specialize (Hr ip).
  unfold got. case_decide; cbn; [|change (s32 (1 - 1)) with 0; lia]. rewrite s32_back by lia. split; [done|]. intros _. by destruct (v !!! ip).
Qed.

(** A name that is not there: the entry is written. *)
Lemma dirlink_absent k V L v dp name inum :
  op e (k_fs k) ∅ V L v -> bitmap_ok e V -> inode_ok e V (v !!! dp) -> dir_ok e V (v !!! dp) -> named e (v !!! dp) ->
  dinode_ok (dinode_of (v !!! dp)) -> fits e ∅ L 7 -> i_size (v !!! dp) + DIRENT <= MAXFILE * BSIZE ->
  wpx (off <- loop (dirlink_scan dp) 0 ;; n <- writei dp Local (dirent inum name) off DIRENT ;;
       if negb (n =? DIRENT) then panic "dirlink" else ret 0)
    (fun r k' => r = 0 /\ exists j V' L' d', op e (k_fs k') ∅ V' L' (vinsert dp d' v) /\
      linked V (v !!! dp) name inum j V' d' /\ fits e ∅ L' 0 /\ exists s', k' = kk s' (k_mem k) k) no_blocks k.
Proof.
  intros Hop Hb Hok Hd Hnm Hdk Hfit Hsz. assert (MAXFILE * BSIZE < 2 ^ 31) as HM by done. pose proof (fo_size _ _ _ (dr_file _ _ _ Hd)) as H0.
  assert (length L < NBUF)%nat as HL. { destruct Hfit as [_ Hn]. lia. }
  xseq (dirlink_scan_spec k V L v dp Hop (bm_blk _ _ Hb) Hd HL). cbv beta. intros off k1 (j & -> & Hj & Hop1 & s1 & ->).
  pose proof (Z.div_mod (i_size (v !!! dp)) DIRENT ltac:(done)) as Hdm. rewrite (dr_size _ _ _ Hd) in Hdm.
  assert (0 <= DIRENT * j <= i_size (v !!! dp)) as Hoff. { destruct Hj as [? _]. unfold DIRENT in *. lia. }
  pose proof (writei_spec e (kk s1 (k_mem k) k) V L v dp Local (dirent inum name) (DIRENT * j) DIRENT 0 La Hop1 Hb Hok (dr_file _ _ _ Hd) Hnm Hdk) as Hw.
  cbv zeta in Hw. rewrite blocks_left_dirent, decide_True in Hw by (destruct Hj; lia).
  assert (supplies Local (dirent inum name) (k_mem (kk s1 (k_mem k) k)) DIRENT = dirent inum name) as Hsup.
  { cbn [supplies]. apply take_ge. by rewrite length_dirent. }
  rewrite Hsup in Hw. apply wpx_bind. eapply wpx_mono; [apply Hw; [split; [done|by rewrite length_dirent]|unfold DIRENT in *; lia|done|exact Hfit]|].
  cbv beta. intros r k2 (-> & V' & L' & d' & Hop2 & HW & [s2 ->] & Hf & _). rewrite Z.eqb_refl. apply wpx_wp, wp_ret. split; [done|].
  exists j, V', L', d'. split; [done|]. split; [by apply written_linked|]. split; [done|]. by exists s2.
Qed.
End Dirlink.

(** C11: adding a name to a directory and looking it up. Within an operation with
    room for it in the log, [dirlink] of a name that an entry has already gives -1:
    no block has changed, nor any inode entry that is in use. Of a name that no
    entry has, it gives 0: the first unused entry of the directory, or a new one at
    its end, has the name and the inode number, every other entry is as it was, as
    are the other files and inodes, and [dirlookup] of the name gives a reference to the
    inode and that entry's offset. The only ways not to return are a full disk and a full inode table. *)
Theorem dirlink_dirlookup_roundtrip e k V L v dp name inum :
  layout e -> op e (k_fs k) ∅ V L v -> bitmap_ok e V -> inode_ok e V (v !!! dp) -> dir_ok e V (v !!! dp) ->
  named e (v !!! dp) -> dinode_ok (dinode_of (v !!! dp)) -> itable_ok v -> ref_room 1 v -> fits e ∅ L 7 ->
  i_size (v !!! dp) + DIRENT <= MAXFILE * BSIZE -> 0 < inum < 2 ^ 16 -> name_ok name ->
  let present := exists i, 0 <= i < i_size (v !!! dp) / DIRENT /\ entry_matches name (dir_entry V (v !!! dp) i) in
  wpx (dirlink dp name inum) (fun r k' =>
      r = -1 /\ present /\ (exists ip i', op e (k_fs k') ∅ V L (vinsert ip i' v) /\
        i_ref i' = i_ref (v !!! ip) /\ (0 < i_ref (v !!! ip) -> i' = v !!! ip)) \/
      r = 0 /\ ~ present /\ exists j V' L' d', op e (k_fs k') ∅ V' L' (vinsert dp d' v) /\
        linked e V (v !!! dp) name inum j V' d' /\
        wpx (dirlookup dp name) (fun r k2 => exists ip v', r = Some (ip, DIRENT * j) /\ op e (k_fs k2) ∅ V' L' v' /\
          is_for ROOTDEV inum (v' !!! ip)) (fun w => w = Panic "iget: no inodes") k')
    (fun w => no_blocks w \/ w = Panic "iget: no inodes") k.
Proof.
  intros La Hop Hb Hok Hd Hnm Hdk Ht Hroom Hfit Hsz Hi Hn present. assert (length L < NBUF)%nat as HL. { destruct Hfit as [_ ?]. lia. }
  unfold dirlink. apply wpx_bind.
  eapply wpx_mono; [eapply wpx_weaken; [apply (dirlookup_spec e La k V L v dp name Hop (bm_blk _ _ Hb) Hd HL Ht)|intros w [-> _]; by right]|].
  cbv beta. intros [[ip off]|] k1 [[s1 ->] Hr].
  - destruct Hr as (i & -> & Hlt & _ & Hm & Hop1 & _). apply wpx_wp, wp_bind, wp_fs.
    eapply wp_mono; [by eapply (dirlink_present e)|]. cbv beta. intros [] s2 (i' & Hop2 & Hrest). apply wp_ret. left.
    split; [done|]. split; [by exists i|]. by exists ip, i'.
  - destruct Hr as [Hno Hop1].
    eapply wpx_weaken; [eapply wpx_mono; [apply (dirlink_absent e La (kk s1 (k_mem k) k) V L v dp name inum); done|]|intros w ?; by left].
    cbv beta. intros r k2 (-> & j & V' & L' & d' & Hop2 & Hl & [_ Hf] & _). right. split; [done|].
    split; [intros (i & Hi' & Hm); by apply (Hno i Hi')|]. exists j, V', L', d'. split; [done|]. split; [done|].
    pose proof (wn_entry _ _ _ _ _ _ _ (lk_written _ _ _ _ _ _ _ _ Hl)) as He.
    apply (linked_dirlookup e La k2 V (v !!! dp) name inum j V' d' L' (vinsert dp d' v) dp); try done.
    + apply vlookup_insert.
    + apply itable_same; [done|by rewrite He..].
    + intros jp. rewrite vlookup_vinsert. case_decide; [subst; rewrite He|]; apply Hroom.
    + lia.
Qed.

(** An empty directory. *)
Module Empty.
Definition dir : inode := set_itype T_DIR Fresh.entry.
Definition table : vec inode NINODE := vinsert 0%fin dir (vreplicate NINODE Volume.inode0).
Lemma dir_op : exists s, op Volume.volume s ∅ (dread Volume.dsk) [] table.
Proof.
  destruct Volume.volume_open as [s Hs].
  destruct (wp_run _ _ _ (op_updi Volume.volume s _ _ _ _ 0%fin (fun _ => dir) Hs)) as ([] & s' & _ & Hs'). by exists s'.
Qed.
Lemma dir_at : table !!! (0%fin : inodep) = dir.
Proof. apply vlookup_insert. Qed.
Lemma dir_inode : inode_ok Volume.volume (dread Volume.dsk) dir.
Proof. destruct Fresh.fresh_ok. by split. Qed.
Lemma dir_dir : dir_ok Volume.volume (dread Volume.dsk) dir.
Proof. split; [done| |done]. destruct Fresh.fresh_file. by split. Qed.
Lemma dir_dinode : dinode_ok (dinode_of dir).
Proof. split; try (cbn; unfold T_DIR; lia). by apply Forall_replicate. Qed.
Lemma dir_table : itable_ok table.
Proof.
  split; intros ip; [|intros jp]; unfold table; rewrite !vlookup_vinsert; repeat case_decide; subst; rewrite ?vlookup_replicate; done.
Qed.
Lemma dir_room : ref_room 1 table.
Proof. intros ip. unfold table. rewrite vlookup_vinsert. case_decide; [done|]. by rewrite vlookup_replicate. Qed.
End Empty.

Lemma dirlink_dirlookup_roundtrip_witness : exists k o, dirlink 0%fin (chars "a" ++ [0]) 5 k = o /\
  match o with
  | Ok r k' => r = 0 /\ exists j V' d', linked Volume.volume (dread Volume.dsk) Empty.dir (chars "a" ++ [0]) 5 j V' d'
  | Stop w _ => no_blocks w \/ w = Panic "iget: no inodes"
  end.
Proof.
  destruct Empty.dir_op as [s Hs]. exists (Around.kernel s).
  pose proof (dirlink_dirlookup_roundtrip Volume.volume (Around.kernel s) _ [] _ 0%fin (chars "a" ++ [0]) 5 Volume.volume_layout Hs
    Volume.volume_bitmap) as Hw. rewrite Empty.dir_at in Hw.
  specialize (Hw Empty.dir_inode Empty.dir_dir ltac:(split; [done|cbn; lia]) Empty.dir_dinode Empty.dir_table Empty.dir_room (Volume.volume_fits 7 ltac:(lia))
    ltac:(by vm_compute) ltac:(lia) ltac:(split; [by vm_compute; repeat constructor|left; right; left])). cbv zeta in Hw.
  destruct (wpx_run _ _ _ _ Hw) as [(r & k' & E & [(_ & (i & Hi & _) & _)|(-> & _ & j & V' & L' & d' & _ & Hl & _)])|(w & k' & E & Ew)].
  - exfalso. vm_compute in Hi. destruct Hi as [H1 H2]. by destruct i.
  - exists (Ok 0 k'). split; [exact E|]. split; [reflexivity|]. exists j, V', d'. exact Hl.
  - exists (Stop w k'). exact (conj E Ew).
Defined.
