(* ===== verification/Namei.v ===== *)
(** Walking paths: [namex] of [src/kernel/fs.c] against the tree of directories on
    the disk. *)

From stdpp Require Import gmap.
From S2P Require Import Prelude Params Spinlock Cstring Kalloc Vm Sched Sleeplock Bio Cache Log Journal Crash Txn Fs.
From S2P Require Import Blocks Inodes Umem Console Kern Path Contents Names.
Local Open Scope kernel_scope.

(** * The tree on the disk *)

(** An inode of the disk as a table's entry has it. *)
Definition node (e : env) (V : blocks) (n : Z) : inode :=
  loaded (disk_inode (e_sb e) V n) (Inode ROOTDEV n 0 (Sleeplock 0 (Spinlock 0 "sleep lock" None) "inode" 0) 0 0 0 0 0 0 []).

(** The inode number that a directory has for a name: that of the first entry in
    use with the name. *)
Definition dname (de : list Z) : list Z := cstr (at_list (de_name de)) DIRSIZ.
Definition entries (V : blocks) (d : inode) : list (list Z) := dir_entry V d <$> seqZ 0 (i_size d / DIRENT).
Definition dir_find (V : blocks) (d : inode) (w : list Z) : option Z :=
  de_inum <$> hd_error (filter (fun de => de_inum de <> 0 /\ dname de = w) (entries V d)).

(** The inode that a list of names leads to from [n]; or the directory that has
    the last of the names, and that name. *)
Fixpoint walk (e : env) (V : blocks) (parent : bool) (n : Z) (ws : list (list Z)) : option (Z * option (list Z)) :=
  match ws with
  | [] => if parent then None else Some (n, None)
  | w :: ws' =>
      if negb (i_type (node e V n) =? T_DIR) then None
      else if parent && bool_decide (ws' = []) then Some (n, Some w)
      else match dir_find V (node e V n) w with
           | Some m => walk e V parent m ws'
           | None => None
           end
  end.

(** An inode with links, and the tree of those. *)
Definition live (e : env) (V : blocks) (n : Z) : Prop :=
  0 <= n < sb_ninodes (e_sb e) /\ i_type (node e V n) <> 0 /\ i_nlink (node e V n) <> 0.
Record tree_ok (e : env) (V : blocks) : Prop := {
  tr_blk b : blk (V b);
  tr_root : live e V ROOTINO;
  tr_dir n : live e V n -> i_type (node e V n) = T_DIR -> dir_ok e V (node e V n);
  tr_entry n w m : live e V n -> i_type (node e V n) = T_DIR -> dir_find V (node e V n) w = Some m -> live e V m;
}.

(** * The inode table *)

(** The entries in use are inodes of the disk, as they are there when they are
    valid; the process has the lock of [h], and nobody any other. *)
Record coherent (e : env) (V : blocks) (h : option inodep) (v : vec inode NINODE) : Prop := {
  co_table : itable_ok v;
  co_idle ip : idle (sl_lk (i_lock (v !!! ip)));
  co_free ip : h <> Some ip -> sl_locked (i_lock (v !!! ip)) = 0;
  co_held ip : h = Some ip -> sl_locked (i_lock (v !!! ip)) = 1 /\ sl_pid (i_lock (v !!! ip)) = e_pid e;
  co_named ip : 0 < i_ref (v !!! ip) -> named e (v !!! ip);
  co_valid ip : 0 < i_ref (v !!! ip) -> i_valid (v !!! ip) <> 0 -> dinode_of (v !!! ip) = disk_inode (e_sb e) V (i_inum (v !!! ip));
}.

(** The same entries but for [ip], in use for the same inode. *)
Lemma coherent_set e V h h' v ip i' :
  coherent e V h v -> is_for (i_dev (v !!! ip)) (i_inum (v !!! ip)) i' \/ i_ref i' = 0 -> idle (sl_lk (i_lock i')) -> 0 < i_ref (v !!! ip) ->
  (h' <> Some ip -> sl_locked (i_lock i') = 0) ->
  (h' = Some ip -> sl_locked (i_lock i') = 1 /\ sl_pid (i_lock i') = e_pid e) ->
  (forall jp, jp <> ip -> h' = Some jp <-> h = Some jp) ->
  (0 < i_ref i' -> i_valid i' <> 0 -> dinode_of i' = disk_inode (e_sb e) V (i_inum i')) -> i_ref i' < 2 ^ 31 ->
  coherent e V h' (vinsert ip i' v).
Proof.
  intros [[Hr Hu] Hi Hf Hh Hn Hv] Hk Hil Hpos Hf' Hh' Heq Hval Hlt. split.
  - split.
    + intros jp. rewrite vlookup_vinsert. case_decide; [|done]. destruct Hk as [[? _]|]; lia.
    + intros jp kp. rewrite !vlookup_vinsert. repeat case_decide; subst; try done; [| |by apply Hu]; intros ? ? E1 E2;
        (destruct Hk as [(_ & ? & ?)|]; [|lia]); apply Hu; congruence.
  - intros jp. rewrite vlookup_vinsert. by case_decide.
  - intros jp Hne. rewrite vlookup_vinsert. case_decide; subst; [auto|]. apply Hf. intros E. apply Hne, Heq; congruence.
  - intros jp E. rewrite vlookup_vinsert. case_decide; subst; [auto|]. apply Hh. apply Heq; congruence.
  - intros jp. rewrite vlookup_vinsert. case_decide; subst; [|by apply Hn]. intros Hp. destruct Hk as [(_ & E1 & E2)|]; [|lia].
    destruct (Hn jp Hpos). split; congruence.
  - intros jp. rewrite vlookup_vinsert. case_decide; subst; [done|apply Hv].
Qed.

Lemma coherent_got e V h v ip m :
  coherent e V h v -> 0 <= m < sb_ninodes (e_sb e) -> i_ref (v !!! ip) + 1 < 2 ^ 31 ->
  is_for ROOTDEV m (v !!! ip) \/ i_ref (v !!! ip) = 0 /\ (forall jp, ~ is_for ROOTDEV m (v !!! jp)) ->
  coherent e V h (vinsert ip (got ROOTDEV m (v !!! ip)) v).
Proof.
  intros [Ht Hi Hf Hh Hn Hv] Hm Hb Hip.
  assert (i_lock (got ROOTDEV m (v !!! ip)) = i_lock (v !!! ip)) as El by (unfold got; by case_decide).
  destruct (got_is_for ROOTDEV m (v !!! ip) Hb ltac:(tauto)) as (G1 & G2 & G3).
  split; [by apply itable_got|..]; intros jp; rewrite ?vlookup_vinsert; case_decide; subst; rewrite ?El; auto.
  - intros _. by split; [|rewrite G3].
  - intros _. unfold got. case_decide; cbn; [by apply Hv|done].
Qed.

(** An entry with the fields of the inode on disk. *)
Lemma node_dinode e V n : dinode_of (node e V n) = disk_inode (e_sb e) V n.
Proof. unfold node. by destruct (disk_inode (e_sb e) V n). Qed.
Lemma same_entry V i d j : dinode_of i = dinode_of d -> dir_entry V i j = dir_entry V d j.
Proof.
  intros [= _ _ _ _ _ E]. unfold dir_entry, content. apply list_fmap_ext. intros _ x _. unfold fbyte, addr_at. by rewrite E.
Qed.
Lemma same_file e V i d : dinode_of i = dinode_of d -> i_dev i = i_dev d -> file_ok e V d -> file_ok e V i.
Proof.
  intros [= E1 E2 E3 E4 E5 E6] Ed [Hd Hl Hs Hb Hi].
  split; [congruence|congruence|by rewrite E5| |by rewrite E5, E6]. intros bn. unfold addr_at. rewrite E5, E6. apply Hb.
Qed.
Lemma same_dir e V i d : dinode_of i = dinode_of d -> i_dev i = i_dev d -> dir_ok e V d -> dir_ok e V i.
Proof.
  intros E Ed [Ht Hf Hm]. pose proof E as [= E1 E2 E3 E4 E5 E6]. split; [congruence|by apply (same_file e V i d)|congruence].
Qed.
Lemma same_find V i d w : dinode_of i = dinode_of d -> dir_find V i w = dir_find V d w.
Proof.
  intros E. unfold dir_find, entries. pose proof (f_equal di_size E) as Es. cbn in Es. rewrite Es.
  assert (dir_entry V i <$> seqZ 0 (i_size d / DIRENT) = dir_entry V d <$> seqZ 0 (i_size d / DIRENT)) as ->; [|done].
  apply list_fmap_ext. intros. by apply same_entry.
Qed.

(** * The operations on the table *)

Section Ops.
Context (e : env) (La : layout e).
Implicit Types (s : fss) (V : blocks) (L : list Z) (v : vec inode NINODE).

Lemma ilock_live s V L v ip n :
  op e s ∅ V L v -> coherent e V None v -> (length L < NBUF)%nat -> is_for ROOTDEV n (v !!! ip) -> i_type (node e V n) <> 0 ->
  wp (ilock (Some ip)) (fun _ s' => exists i', op e s' ∅ V L (vinsert ip i' v) /\ coherent e V (Some ip) (vinsert ip i' v) /\
    i_ref i' = i_ref (v !!! ip) /\ is_for ROOTDEV n i' /\ dinode_of i' = dinode_of (node e V n)) s.
Proof.
  intros Hop Hco HL (Hr & Hd & Hn) Hty. pose proof (co_named _ _ _ _ Hco ip Hr) as Hnm.
  pose proof (ilock_spec e La s ∅ V L v ip Hop) as Hw. rewrite map_size_empty in Hw.
  specialize (Hw ltac:(intros b Hb; by destruct (holds_empty b)) ltac:(lia) Hnm ltac:(lia) (co_idle _ _ _ _ Hco ip) (co_free _ _ _ _ Hco ip ltac:(done))).
  rewrite Hn in Hw. destruct (wpx_run _ _ _ _ Hw) as [([] & s' & E & Hop')|(w & s' & _ & _ & _ & Hz)]; [|done].
  eapply wp_ok; [exact E|]. eexists. split; [exact Hop'|]. set (i' := locked_inode _ _ _ _).
  assert (i_ref i' = i_ref (v !!! ip) /\ i_dev i' = ROOTDEV /\ i_inum i' = n /\ i_lock i' = i_lock (held_by (e_pid e) (v !!! ip)) /\
    dinode_of i' = disk_inode (e_sb e) V n) as (E1 & E2 & E3 & E4 & E5).
  { unfold i', locked_inode. destruct (Z.eqb_spec (i_valid (v !!! ip)) 0) as [Ev|Ev].
    - rewrite Hn. split_and!; done || by destruct (disk_inode (e_sb e) V n).
    - split_and!; try done. rewrite <- Hn. by apply (co_valid _ _ _ _ Hco ip). }
  assert (is_for ROOTDEV n i') as Hfor by (unfold is_for; lia).
  split; [|split_and!; [done|done|by rewrite node_dinode]].
  eapply coherent_set; [exact Hco|left; by rewrite Hd, Hn|rewrite E4; apply Hco|done|done|by rewrite E4| |by rewrite E3|rewrite E1; apply Hco].
  intros jp Hne. split; congruence.
Qed.

Lemma iunlock_live s V L v ip :
  op e s ∅ V L v -> coherent e V (Some ip) v -> 0 < i_ref (v !!! ip) ->
  wp (iunlock (Some ip)) (fun _ s' => op e s' ∅ V L (vinsert ip (unheld (v !!! ip)) v) /\ coherent e V None (vinsert ip (unheld (v !!! ip)) v)) s.
Proof.
  intros Hop Hco Hr. destruct (co_held _ _ _ _ Hco ip eq_refl) as [Hl Hp].
  eapply wp_mono; [apply (iunlock_spec e s ∅ V L v ip Hop (co_idle _ _ _ _ Hco ip) Hl Hp); lia|]. cbv beta. intros [] s' Hop'.
  split; [done|]. eapply coherent_set; [exact Hco|by left|apply Hco|done|done|done| |apply (co_valid _ _ _ _ Hco ip)|apply Hco].
  intros jp Hne. split; congruence.
Qed.

(** What giving a reference back leaves. *)
Record given_back V (ip : inodep) v v' : Prop := {
  gb_coherent : coherent e V None v';
  gb_ref jp : i_ref (v' !!! jp) = i_ref (v !!! jp) - (if decide (jp = ip) then 1 else 0);
  gb_key jp : i_dev (v' !!! jp) = i_dev (v !!! jp) /\ i_inum (v' !!! jp) = i_inum (v !!! jp);
}.

Lemma iput_live s V L v ip :
  op e s ∅ V L v -> coherent e V None v -> 0 < i_ref (v !!! ip) -> live e V (i_inum (v !!! ip)) ->
  wp (iput ip) (fun _ s' => exists v', op e s' ∅ V L v' /\ given_back V ip v v') s.
Proof.
  intros Hop Hco Hr (_ & _ & Hlink). pose proof (it_ref _ (co_table _ _ _ _ Hco) ip). eapply wp_mono; [apply (iput_keeps_spec e s ∅ V L v ip Hop)|].
  - unfold goes. destruct (nz (i_valid (v !!! ip))) eqn:Ev; [|by rewrite andb_false_r].
    apply nz_true in Ev. pose proof (f_equal di_nlink (co_valid _ _ _ _ Hco ip Hr Ev)) as E.
    change (i_nlink (v !!! ip) = i_nlink (node e V (i_inum (v !!! ip)))) in E. rewrite E.
    apply Z.eqb_neq in Hlink. rewrite Hlink. by rewrite andb_false_r.
  - cbv beta. intros [] s' Hop'. eexists. split; [exact Hop'|]. split.
    + eapply coherent_set; [exact Hco| |apply Hco|done|intros _; by apply Hco|done|done| |].
      * cbn. rewrite s32_small by lia. destruct (decide (i_ref (v !!! ip) = 1)) as [E|]; [right; cbn; lia|left; split; [cbn; lia|done]].
      * intros _. by apply (co_valid _ _ _ _ Hco ip).
      * cbn. rewrite s32_small by lia. lia.
    + intros jp. rewrite vlookup_vinsert. destruct (decide (ip = jp)) as [->|]; [rewrite decide_True by done; cbn; by rewrite s32_small by lia|]. rewrite decide_False by done. lia.
    + intros jp. rewrite vlookup_vinsert. by case_decide; subst.
Qed.

Lemma iunlockput_live s V L v ip :
  op e s ∅ V L v -> coherent e V (Some ip) v -> 0 < i_ref (v !!! ip) -> live e V (i_inum (v !!! ip)) ->
  wp (iunlockput ip) (fun _ s' => exists v', op e s' ∅ V L v' /\ given_back V ip v v') s.
Proof.
  intros Hop Hco Hr Hlive. unfold iunlockput. wseq iunlock_live; [done..|]. cbv beta. intros [] s1 [Hop1 Hco1].
  eapply wp_mono; [apply (iput_live s1 V L _ ip Hop1 Hco1); by rewrite vlookup_insert|]. cbv beta. intros [] s2 (v' & Hop2 & [Hc2 Hr2 Hk2]).
  exists v'. split; [done|]. split; [done|intros jp; rewrite Hr2|intros jp; destruct (Hk2 jp) as [-> ->]]; rewrite vlookup_vinsert; by case_decide; subst.
Qed.
End Ops.

(** * Names *)

Lemma hd_filter_first {A} (P : A -> Prop) `{forall x, Decision (P x)} (l : list A) : forall i x,
  l !! i = Some x -> P x -> (forall j y, (j < i)%nat -> l !! j = Some y -> ~ P y) -> hd_error (filter P l) = Some x.
Proof.
  induction l as [|y l IH]; intros i x Hi HP Hno; [done|]. destruct i as [|i].
  - injection Hi as ->. by rewrite filter_cons_True.
  - rewrite filter_cons_False by (apply (Hno 0%nat); [lia|done]). apply (IH i); [done|done|]. intros j z Hj. apply (Hno (S j)). lia.
Qed.
Lemma filter_none {A} (P : A -> Prop) `{forall x, Decision (P x)} (l : list A) :
  (forall j y, l !! j = Some y -> ~ P y) -> filter P l = [].
Proof.
  induction l as [|y l IH]; intros Hno; [done|]. rewrite filter_cons_False by (by apply (Hno 0%nat)). apply IH. intros j. apply (Hno (S j)).
Qed.

Lemma dir_find_in V d w m : dir_find V d w = Some m -> m ∈ de_inum <$> entries V d.
Proof.
  unfold dir_find. destruct (filter _ (entries V d)) as [|de l] eqn:E; cbn; [done|]. intros [= <-].
  assert (de ∈ filter (fun de => de_inum de <> 0 /\ dname de = w) (entries V d)) as [_ Hin]%list_elem_of_filter by (rewrite E; left).
  by apply list_elem_of_fmap_2.
Qed.

Lemma cname_cstr name : Forall is_byte (cname name) -> cstr (at_list name) (length name) = cname name.
Proof.
  induction name as [|c name IH]; intros Hb; [done|]. cbn [length cstr cname] in *.
  change (at_list (c :: name) 0) with (u8 c). destruct (Z.eqb_spec c 0) as [->|Hc]; [done|].
  inversion Hb as [|? ? Hb1 Hb2]; subst. rewrite u8_small by done. apply Z.eqb_neq in Hc. rewrite Hc. f_equal. rewrite <- IH by done.
  apply cstr_ext. intros i Hi. unfold shift, at_list. by replace (Z.to_nat (i + 1)) with (S (Z.to_nat i)) by lia.
Qed.

(** The entries of the lookup, by their names. *)
Lemma entry_matches_name name de : entry_matches name de <-> de_inum de <> 0 /\ dname de = cstr (at_list name) DIRSIZ.
Proof. unfold entry_matches, namecmp, dname. rewrite strncmp_zero_iff. intuition congruence. Qed.
Lemma entries_lookup V d i de :
  entries V d !! i = Some de -> de = dir_entry V d (Z.of_nat i) /\ Z.of_nat i < i_size d / DIRENT.
Proof.
  unfold entries. rewrite list_lookup_fmap_Some. intros (x & -> & Hx). apply lookup_seqZ in Hx as [-> Hx]. by rewrite Z.add_0_l.
Qed.
Lemma passed_none V d name : passed V d name (i_size d / DIRENT) -> dir_find V d (cstr (at_list name) DIRSIZ) = None.
Proof.
  intros Hp. unfold dir_find. rewrite filter_none; [done|]. intros j de [-> Hj]%entries_lookup Hm.
  apply (Hp (Z.of_nat j)); [lia|]. by apply entry_matches_name.
Qed.
Lemma passed_first V d name j :
  passed V d name j -> 0 <= j < i_size d / DIRENT -> entry_matches name (dir_entry V d j) ->
  dir_find V d (cstr (at_list name) DIRSIZ) = Some (de_inum (dir_entry V d j)).
Proof.
  intros Hp Hj Hm. unfold dir_find. rewrite (hd_filter_first _ _ (Z.to_nat j) (dir_entry V d j)); [done| |by apply entry_matches_name|].
  - unfold entries. rewrite list_lookup_fmap, lookup_seqZ_lt by lia. cbn. do 2 f_equal. lia.
  - intros i de Hi [-> _]%entries_lookup Hm'. apply (Hp (Z.of_nat i)); [lia|]. by apply entry_matches_name.
Qed.

(** * [namex] *)

Section Walk.
Context (e : env) (La : layout e) (V : blocks) (Ht : tree_ok e V) (L : list Z) (HL : (length L < NBUF)%nat).
Implicit Types (s : fss) (v : vec inode NINODE) (k : kern).

(** The table is full but for one entry at most. *)
Definition no_inodes v (w : stop) : Prop := w = Panic "iget: no inodes" /\ exists ip, forall jp, jp <> ip -> 0 < i_ref (v !!! jp).
Definition one {A} `{EqDecision A} (x : A) (y : option A) : Z := if decide (y = Some x) then 1 else 0.
(** The references, the process's own to [a] turned into one to [b]. *)
Definition moved v (a b : option inodep) v' : Prop := forall jp, i_ref (v' !!! jp) = i_ref (v !!! jp) - one jp a + one jp b.

Lemma moved_got v ip m : itable_ok v -> i_ref (v !!! ip) + 1 < 2 ^ 31 -> moved v None (Some ip) (vinsert ip (got ROOTDEV m (v !!! ip)) v).
Proof.
  intros [Hr _] Hb jp. unfold one. rewrite vlookup_vinsert. destruct (decide (ip = jp)) as [->|].
  - rewrite decide_False, decide_True by done. specialize (Hr jp). rewrite got_ref; lia.
  - rewrite !decide_False by congruence. lia.
Qed.
Lemma moved_trans v a b c v1 v2 : moved v a b v1 -> moved v1 b c v2 -> moved v a c v2.
Proof. intros H1 H2 jp. rewrite H2, H1. lia. Qed.
Lemma given_moved ip v v' : given_back e V ip v v' -> moved v (Some ip) None v'.
Proof.
  intros Hg jp. rewrite (gb_ref _ _ _ _ _ Hg). unfold one. rewrite (decide_False (P := None = Some jp)) by done.
  destruct (decide (jp = ip)) as [->|]; [rewrite decide_True by done|rewrite decide_False by congruence]; lia.
Qed.

Lemma dirlookup_live k v ip n name :
  op e (k_fs k) ∅ V L v -> coherent e V (Some ip) v -> is_for ROOTDEV n (v !!! ip) -> dinode_of (v !!! ip) = dinode_of (node e V n) ->
  live e V n -> i_type (node e V n) = T_DIR -> ref_room 1 v ->
  wpx (dirlookup ip name) (fun r k' => (exists s', k' = kk s' (k_mem k) k) /\ exists v', op e (k_fs k') ∅ V L v' /\
      coherent e V (Some ip) v' /\ is_for ROOTDEV n (v' !!! ip) /\ moved v None (fst <$> r) v' /\
      match r with
      | None => dir_find V (node e V n) (cstr (at_list name) DIRSIZ) = None
      | Some (ip', _) => exists m, dir_find V (node e V n) (cstr (at_list name) DIRSIZ) = Some m /\ live e V m /\
          is_for ROOTDEV m (v' !!! ip')
      end) (fun w => w = Panic "iget: no inodes" /\ forall jp, 0 < i_ref (v !!! jp)) k.
Proof.
  intros Hop Hco Hfor Hdi Hlive Hty Hroom. assert (dir_ok e V (v !!! ip)) as Hd.
  { destruct Hfor as (_ & ? & _). apply (same_dir e V _ (node e V n)); [done|done|by apply (tr_dir _ _ Ht)]. }
  eapply wpx_weaken; [eapply wpx_mono; [apply (dirlookup_spec e La k V L v ip name Hop (tr_blk _ _ Ht) Hd HL (co_table _ _ _ _ Hco))|]|done].
  cbv beta. intros [[ip' off]|] k' [Hk Hr]; (split; [done|]).
  - destruct Hr as (j & _ & Hj & Hp & Hm & Hop' & Hip). set (m := de_inum _) in *.
    pose proof (passed_first _ _ _ _ Hp Hj Hm) as Hfind. rewrite (same_find V _ (node e V n)) in Hfind by done. fold m in Hfind.
    pose proof (tr_entry _ _ Ht n _ m Hlive Hty Hfind) as Hm'. eexists. split; [exact Hop'|].
    split; [apply coherent_got; [done|apply Hm'|apply Hroom|done]|]. split_and!.
    + rewrite vlookup_vinsert. case_decide as E; [|done]. subst. destruct Hip as [Hm1|[Hz _]]; [|destruct Hfor; lia].
      replace n with m by (destruct Hm1 as (_ & _ & <-), Hfor as (_ & _ & <-); done). apply got_is_for; [apply Hroom|by left].
    + apply moved_got; [apply Hco|apply Hroom].
    + exists m. split_and!; [done..|]. rewrite vlookup_insert. apply got_is_for; [apply Hroom|]. tauto.
  - destruct Hr as [Hp Hop']. exists v. split_and!; [done..| |].
    + intros jp. unfold one. cbn. lia.
    + apply passed_none in Hp. by rewrite (same_find V _ (node e V n)) in Hp.
Qed.

(** The table before the walk, which holds two references at a time. *)
Definition roomy v : Prop := itable_ok v /\ ref_room 2 v.
Lemma roomy_moved v0 ip v : roomy v0 -> moved v0 None (Some ip) v -> ref_room 1 v.
Proof. intros [_ Hr] Hm jp. rewrite Hm. unfold one. specialize (Hr jp). repeat case_decide; lia. Qed.

Definition els (path : list Z) : list (list Z) := take DIRSIZ <$> elements path.

(** What is kept from one round of the loop to the next. *)
Record walking v0 (ip : inodep) (n : Z) v : Prop := {
  wk_coherent : coherent e V None v;
  wk_for : is_for ROOTDEV n (v !!! ip);
  wk_live : live e V n;
  wk_refs : moved v0 None (Some ip) v;
}.

Lemma back_for ip ip' m v v' : is_for ROOTDEV m (v !!! ip') -> given_back e V ip v v' -> 0 < i_ref (v' !!! ip') -> is_for ROOTDEV m (v' !!! ip').
Proof. intros (_ & E1 & E2) Hg Hr. destruct (gb_key _ _ _ _ _ Hg ip'). split; [done|]. by split; congruence. Qed.

(** The lookup of a name and the step to the inode it leads to. *)
Lemma namex_next k v v0 ip n (path name : list Z) :
  op e (k_fs k) ∅ V L v -> coherent e V (Some ip) v -> is_for ROOTDEV n (v !!! ip) -> dinode_of (v !!! ip) = dinode_of (node e V n) ->
  live e V n -> i_type (node e V n) = T_DIR -> moved v0 None (Some ip) v -> roomy v0 ->
  let w := cstr (at_list name) DIRSIZ in
  wpx (next <- dirlookup ip name ;;
       match next with
       | None => fs (iunlockput ip) ;; ret (inr (None, name))
       | Some (next, _) => fs (iunlockput ip) ;; ret (inl (next, path, name))
       end)
    (fun r k' => (exists s', k' = kk s' (k_mem k) k) /\ exists v', op e (k_fs k') ∅ V L v' /\
      match r with
      | inl (ip', path', name') => path' = path /\ name' = name /\ exists m,
          dir_find V (node e V n) w = Some m /\ walking v0 ip' m v'
      | inr (r, _) => r = None (A := inodep) /\ dir_find V (node e V n) w = None /\ coherent e V None v' /\ moved v0 None None v'
      end) (no_inodes v0) k.
Proof.
  intros Hop Hco Hfor Hdi Hlive Hty Hmv Ht0 w. apply wpx_bind. eapply wpx_mono; [eapply wpx_weaken; [apply (dirlookup_live k v ip n name); try done; by eapply roomy_moved|]|].
  { intros x [-> Hall]. split; [done|]. exists ip. intros jp Hne. specialize (Hall jp). rewrite Hmv in Hall. unfold one in Hall.
    rewrite !decide_False in Hall by congruence. lia. }
  cbv beta. intros r k1 ([s1 ->] & v1 & Hop1 & Hco1 & Hfor1 & Hmv1 & Hr). pose proof Hfor1 as (Hr1 & _ & Hn1).
  pose proof (iunlockput_live e s1 V L v1 ip Hop1 Hco1 Hr1 ltac:(by rewrite Hn1)) as Hput.
  destruct r as [[ip' off]|]; cbn [fmap option_fmap option_map fst] in Hmv1; apply wpx_wp, wp_bind, wp_fs; (eapply wp_mono; [exact Hput|]);
    cbv beta; intros [] s2 (v2 & Hop2 & Hg); apply wp_ret; (split; [by exists s2|]); exists v2; (split; [done|]);
    pose proof (given_moved _ _ _ Hg) as Hmv2.
  - split_and!; [done..|]. destruct Hr as (m & Hfind & Hm & Hfor'). exists m. split; [done|].
    assert (moved v0 None (Some ip') v2) as Hmv'. { intros jp. rewrite Hmv2, Hmv1, Hmv. lia. }
    split; [apply Hg| |done|done]. eapply back_for; [done..|]. rewrite Hmv'. unfold one. rewrite decide_False, decide_True by done.
    pose proof (it_ref _ (proj1 Ht0) ip'). lia.
  - split_and!; [done..|apply Hg|]. intros jp. rewrite Hmv2, Hmv1, Hmv. lia.
Qed.

(** The state of the loop, and what it leaves. *)
Definition at_round k0 v0 par target (n : nat) (a : inodep * list Z * list Z) k : Prop :=
  let '(ip, path, name) := a in
  (exists s', k = kk s' (k_mem k0) k0) /\ n = length path /\ length name = DIRSIZ /\ Forall (fun c => 0 < c < 256) path /\
  exists v i, op e (k_fs k) ∅ V L v /\ walking v0 ip i v /\ walk e V par i (els path) = target.
Definition walked k0 v0 (target : option (Z * option (list Z))) (r : option inodep * list Z) k : Prop :=
  (exists s', k = kk s' (k_mem k0) k0) /\ exists v, op e (k_fs k) ∅ V L v /\ coherent e V None v /\ moved v0 None (fst r) v /\
  match target with
  | None => fst r = None
  | Some (m, w) => exists ip, fst r = Some ip /\ is_for ROOTDEV m (v !!! ip) /\ forall w', w = Some w' -> cname (snd r) = w'
  end.

Lemma namex_end k0 v0 par target n ip path name k :
  roomy v0 -> at_round k0 v0 par target n (ip, path, name) k -> elements path = [] ->
  wp (if par then fs (iput ip) ;; ret (inr (None, name)) else ret (inr (Some ip, name)))
    (fun (r : inodep * list Z * list Z + option inodep * list Z) k' =>
       match r with inl _ => False | inr b => walked k0 v0 target b k' end) k.
Proof.
  intros Ht0 ([s ->] & -> & Hlen & Hb & v & i & Hop & Hw & Htar) He. unfold els in Htar. rewrite He in Htar. cbn in Htar.
  destruct Hw as [Hco Hfor Hlive Hmv]. pose proof Hfor as (Hr & _ & Hn). destruct par; subst target.
  - apply wp_bind, wp_fs. eapply wp_mono; [apply (iput_live e s V L v ip Hop Hco Hr); by rewrite Hn|]. cbv beta. intros [] s' (v' & Hop' & Hg).
    apply wp_ret. split; [by exists s'|]. exists v'. split_and!; [done|apply Hg| |done]. intros jp. rewrite (given_moved _ _ _ Hg), Hmv. cbn [fst]. lia.
  - apply wp_ret. split; [by exists s|]. exists v. split_and!; [done..|]. by exists ip.
Qed.

(** A round with the inode locked. *)
Lemma namex_element k0 v0 par n s ip i v path' name' w ws' :
  op e s ∅ V L v -> coherent e V (Some ip) v -> is_for ROOTDEV i (v !!! ip) -> dinode_of (v !!! ip) = dinode_of (node e V i) ->
  live e V i -> moved v0 None (Some ip) v -> roomy v0 -> (length path' < n)%nat -> length name' = DIRSIZ -> Forall (fun c => 0 < c < 256) path' ->
  cname name' = w -> cstr (at_list name') DIRSIZ = w -> ws' = els path' -> (path' = [] <-> ws' = []) ->
  wpx (i <- fs (geti ip) ;;
       if negb (i_type i =? T_DIR) then fs (iunlockput ip) ;; ret (inr (None, name'))
       else if par && bool_decide (path' = []) then fs (iunlock (Some ip)) ;; ret (inr (Some ip, name'))
       else
         next <- dirlookup ip name' ;;
         match next with
         | None => fs (iunlockput ip) ;; ret (inr (None, name'))
         | Some (next, _) => fs (iunlockput ip) ;; ret (inl (next, path', name'))
         end)
    (fun r k' => match r with
                 | inl a' => exists n', (n' < n)%nat /\ at_round k0 v0 par (walk e V par i (w :: ws')) n' a' k'
                 | inr b => walked k0 v0 (walk e V par i (w :: ws')) b k'
                 end) (no_inodes v0) (kk s (k_mem k0) k0).
Proof.
  intros Hop Hco Hfor Hdi Hlive Hmv Ht0 Hlt Hlen Hb Hc Hcs Hws Hnil. cbn [walk]. pose proof Hfor as (Hr & _ & Hn).
  apply wpx_bind, wpx_wp, wp_fs. eapply op_geti; [exact Hop|].
  assert (i_type (v !!! ip) = i_type (node e V i)) as -> by exact (f_equal di_type Hdi).
  destruct (Z.eqb_spec (i_type (node e V i)) T_DIR) as [Hty|Hty]; cbn [negb].
  2:{ apply wpx_wp, wp_bind, wp_fs. eapply wp_mono; [apply (iunlockput_live e s V L v ip Hop Hco Hr); by rewrite Hn|].
      cbv beta. intros [] s' (v' & Hop' & Hg). apply wp_ret. split; [by exists s'|]. exists v'. split_and!; [done|apply Hg| |done].
      intros jp. rewrite (given_moved _ _ _ Hg), Hmv. cbn [fst]. lia. }
  rewrite (bool_decide_ext _ _ Hnil). destruct (par && bool_decide (ws' = [])) eqn:Ep.
  - apply wpx_wp, wp_bind, wp_fs. eapply wp_mono; [by apply (iunlock_live e s V L v ip)|]. cbv beta. intros [] s' [Hop' Hco'].
    apply wp_ret. split; [by exists s'|]. eexists. split; [exact Hop'|]. split; [done|]. split.
    + intros jp. rewrite <- Hmv, vlookup_vinsert. by case_decide; subst.
    + exists ip. split; [done|]. rewrite vlookup_insert. split; [done|]. intros w' [= <-]. done.
  - eapply wpx_mono; [apply (namex_next (kk s (k_mem k0) k0) v v0 ip i path' name'); done|]. cbv beta.
    rewrite Hcs. intros [[[ip' p2] n2]|[r nm]] k' ([s' ->] & v' & Hop' & Hrest).
    + destruct Hrest as (-> & -> & m & -> & Hwk). exists (length path'). split; [done|]. split; [by exists s'|]. split_and!; [done..|].
      exists v', m. by rewrite Hws.
    + destruct Hrest as (-> & -> & Hco' & Hmv'). split; [by exists s'|]. by exists v'.
Qed.

Lemma namex_round k0 v0 par target n a k :
  roomy v0 -> at_round k0 v0 par target n a k ->
  wpx (namex_step par a) (fun r k' => match r with
                                      | inl a' => exists n', (n' < n)%nat /\ at_round k0 v0 par target n' a' k'
                                      | inr b => walked k0 v0 target b k'
                                      end) (no_inodes v0) k.
Proof.
  intros Ht0 Hat. destruct a as [[ip path] name]. unfold namex_step. pose proof (skipelem_spec path name) as Hs.
  destruct (skipelem path name) as [[path' name']|] eqn:E.
  2:{ apply wpx_wp. eapply wp_mono; [by eapply namex_end|]. by intros [|b] k'. }
  destruct Hat as ([s ->] & -> & Hlen & Hb & v & i & Hop & [Hco Hfor Hlive Hmv] & Htar).
  destruct Hs as (w & He & Hlt & _ & _ & Hlast & Hw & Hsub & ->). rewrite Forall_forall in Hb.
  assert (Forall is_byte w) as Hwb. { eapply Forall_impl; [exact Hw|]. intros c Hc. apply Hb in Hc. unfold is_byte. lia. }
  destruct (cname_elem w name Hlen) as [Ec Elen]. { eapply Forall_impl; [exact Hw|]. intros c Hc. apply Hb in Hc. lia. }
  set (name' := splice _ _ _) in *. assert (cstr (at_list name') DIRSIZ = take DIRSIZ w) as Hcs.
  { rewrite <- Elen, cname_cstr, Ec by (rewrite Ec; by apply Forall_take). by rewrite Elen. }
  unfold els in Htar. rewrite He in Htar. cbn [fmap list_fmap] in Htar. subst target.
  apply wpx_bind, wpx_wp, wp_fs. eapply wp_mono; [apply (ilock_live e La s V L v ip i); done || apply Hlive|]. cbv beta.
  intros [] s1 (i' & Hop1 & Hco1 & Hr1 & Hfor1 & Hdi).
  assert (moved v0 None (Some ip) (vinsert ip i' v)) as Hmv1.
  { intros jp. rewrite <- Hmv, vlookup_vinsert. by case_decide; subst. }
  rewrite <- (vlookup_insert ip i' v) in Hfor1, Hdi.
  eapply (namex_element k0 v0 par _ s1 ip i (vinsert ip i' v) path' name'); try done.
  - apply Forall_forall. auto.
  - split; [by intros ->|]. intros Hn%fmap_nil_inv. by destruct Hlast.
Qed.

(** Where the walk starts: at the root, or at the current directory. *)
Definition starts k v (path : list Z) (n : Z) : Prop :=
  if bool_decide (hd_error path = Some 47) then n = ROOTINO
  else exists cwd, p_cwd (pt_proc (fptab (k_fs k)) !!! e_me e) = Some cwd /\ is_for ROOTDEV n (v !!! cwd) /\ live e V n.

Lemma kcurproc_run s v m k : op e s ∅ V L v -> kcurproc (kk s m k) = Ok (pt_proc (fptab s) !!! e_me e) (kk (fsettle s) m k).
Proof.
  intros Hop. destruct (op_quiet _ _ _ _ _ _ Hop) as [Hc Hr _ _ _]. unfold kcurproc, myprocp. rewrite bind_assoc.
  erewrite bind_ok by (by eapply myproc_run).
  assert (c_proc (view cpuL (kk s m k)) = Some (e_me e)) as -> by exact Hr. by destruct s as [[[] ?] ? ? ?].
Qed.

Lemma namex_start k v path n :
  op e (k_fs k) ∅ V L v -> coherent e V None v -> ref_room 2 v -> starts k v path n ->
  wpx (if bool_decide (hd_error path = Some 47) then fs (iget ROOTDEV ROOTINO)
       else p <- kcurproc ;; match p_cwd p with None => fault "cwd" | Some cwd => fs (idup cwd) end)
    (fun ip k' => (exists s', k' = kk s' (k_mem k) k) /\ exists v', op e (k_fs k') ∅ V L v' /\ walking v ip n v') (no_inodes v) k.
Proof.
  intros Hop Hco Hroom Hst. assert (forall ip, i_ref (v !!! ip) + 1 < 2 ^ 31) as Hb by (intros ip; specialize (Hroom ip); lia).
  match goal with |- wpx ?m ?Q ?E k => cut (wpx m Q E (kk (k_fs k) (k_mem k) k)); [by rewrite kk_self|] end. unfold starts in Hst. destruct (bool_decide _).
  - subst n. pose proof (tr_root _ _ Ht) as Hroot. apply wpx_fs.
    eapply wpx_weaken; [eapply wpx_mono; [apply (iget_spec e (k_fs k) ∅ V L v ROOTDEV ROOTINO Hop), Hco|]|].
    2:{ intros w [-> Hall]. split; [done|]. exists 0%fin. intros jp _. apply Hall. }
    cbv beta. intros ip s' [Hop' Hip]. split; [by exists s'|]. eexists. split; [exact Hop'|].
    split; [apply coherent_got; [done|apply Hroot|done|done]|rewrite vlookup_insert; apply got_is_for; [done|tauto]|done|by apply moved_got, Hb; apply Hco].
  - destruct Hst as (cwd & Hcwd & (Hr & Hd & Hn) & Hlive). unfold wpx. erewrite bind_ok by (by eapply kcurproc_run). rewrite Hcwd.
    apply (wpx_wp (fs (idup cwd))). apply wp_fs. eapply wp_mono; [eapply (idup_spec e (fsettle (k_fs k)) ∅ V L v cwd), op_settle, Hop|].
    cbv beta. specialize (Hb cwd). rewrite s32_small by lia. intros ip s' [-> Hop']. split; [by exists s'|]. eexists. split; [exact Hop'|]. split; [|rewrite vlookup_insert; split; [cbn; lia|done]|done|].
    + eapply coherent_set; [exact Hco|left; split; [cbn; lia|done]|apply Hco|done|intros _; by apply Hco|done|done|intros _; apply (co_valid _ _ _ _ Hco cwd Hr)|done].
    + intros jp. unfold one. rewrite vlookup_vinsert. destruct (decide (cwd = jp)) as [->|]; [rewrite decide_False, decide_True by done; cbn; lia|].
      rewrite !decide_False by congruence. lia.
Qed.
End Walk.

(** C8: paths lead where the tree on the disk says. From the root, or from the
    current directory for a path without a slash at its start, [namex] returns, and
    it returns the inode (for [nameiparent] the directory of the last element, and
    that element in [name]) that [walk] finds in the directories on the disk, or 0
    when that finds none: with one new reference to it, every other reference count as it
    was, no lock held and nothing written. It stops only when the inode table is
    full, the entry of the directory it is at apart. *)
Theorem namex_correct e k V L v path par name n :
  layout e -> op e (k_fs k) ∅ V L v -> tree_ok e V -> coherent e V None v -> ref_room 2 v -> (length L < NBUF)%nat ->
  Forall (fun c => 0 < c < 256) path -> Z.of_nat (length path) < MAXPATH -> length name = DIRSIZ -> starts e V k v path n ->
  wpx (namex path par name) (fun r k' => (exists s', k' = kk s' (k_mem k) k) /\
      exists v', op e (k_fs k') ∅ V L v' /\ coherent e V None v' /\ moved v None (fst r) v' /\
      match walk e V par n (take DIRSIZ <$> elements path) with
      | None => fst r = None
      | Some (m, w) => exists ip, fst r = Some ip /\ is_for ROOTDEV m (v' !!! ip) /\ forall w', w = Some w' -> cname (snd r) = w'
      end) (fun w => w = Panic "iget: no inodes" /\ exists ip, forall jp, jp <> ip -> 0 < i_ref (v !!! jp)) k.
Proof.
  intros La Hop Ht Hco Hroom HL Hb Hmax Hlen Hst. unfold namex.
  apply wpx_bind. eapply wpx_mono; [by apply (namex_start e V Ht L HL k v path n)|]. cbv beta. intros ip k1 (Hk & v1 & Hop1 & Hw).
  apply (wpx_loop _ (at_round e V L k v par (walk e V par n (els path)))) with (n := length path).
  - intros m a k2. apply (namex_round e La V Ht L HL). exact (conj (co_table _ _ _ _ Hco) Hroom).
  - split; [done|]. split_and!; [done..|]. by exists v1, n.
  - unfold MAXPATH in Hmax. lia.
Qed.

(** A disk with a directory and a file in it. *)
Module Tree.
Definition root : dinode := Dinode T_DIR 0 0 1 32 (46 :: replicate 12 0).
Definition leaf : dinode := Dinode 2 0 0 1 0 (replicate 13 0).
Definition inodes : list Z := put_dinode leaf 2 (put_dinode root 1 (replicate 1024 0)).
Definition dirs : list Z := dirent 1 (chars "." ++ [0]) ++ dirent 2 (chars "a" ++ [0]) ++ replicate 992 0.
Definition dsk : disk :=
  Disk (fun b => if b =? 32 then inodes else if b =? 45 then replicate 5 255 ++ 127 :: replicate 1018 0
                 else if b =? 46 then dirs else replicate 1024 0) [].
Definition tree : env := Env 0%fin Machine.proc0 2 30 dsk Volume.super true.
Definition table : vec inode NINODE := vreplicate NINODE Volume.inode0.

Lemma tree_layout : layout tree.
Proof. split; vm_compute; intuition congruence. Qed.
Lemma tree_blk b : blk (dread dsk b).
Proof. unfold dread. cbn. destruct (b =? 32); [by vm_compute|]. destruct (b =? 45); [by vm_compute|]. destruct (b =? 46); by vm_compute. Qed.
Lemma tree_open : exists s, op tree s ∅ (dread dsk) [] table.
Proof.
  destruct (machine_quiescent dsk ltac:(by vm_compute)) as [s Hs].
  destruct (wp_run _ _ _ (begin_active _ _ _ _ _ Hs)) as ([] & t & _ & Ht). exists (Fss t Volume.super Volume.lk table).
  by apply (op_active tree (Fss t Volume.super Volume.lk table) (dread dsk) (set_outstanding 1 Machine.log0) []).
Qed.

Lemma tree_live n : live tree (dread dsk) n -> n = 1 \/ n = 2.
Proof.
  intros (Hn & Ht & _). assert (forallb (fun n => (i_type (node tree (dread dsk) n) =? 0) || (n =? 1) || (n =? 2)) (seqZ 0 200) = true) as HF by (by vm_compute).
  rewrite List.forallb_forall in HF. specialize (HF n ltac:(apply list_elem_of_In, elem_of_seqZ; cbn in Hn; lia)). apply Z.eqb_neq in Ht. rewrite Ht in HF. lia.
Qed.
Lemma tree_tree : tree_ok tree (dread dsk).
Proof.
  assert (live tree (dread dsk) 1) as H1 by (vm_compute; intuition congruence).
  assert (live tree (dread dsk) 2) as H2 by (vm_compute; intuition congruence).
  split; [apply tree_blk|done| |].
  - intros n [-> | ->]%tree_live Ht; [|by vm_compute in Ht]. split; [done| |by vm_compute].
    split; [done|by vm_compute|by vm_compute| |by vm_compute]. intros bn Hb Hs.
    assert (i_size (node tree (dread dsk) 1) = 32) as E by (by vm_compute). rewrite E in Hs. unfold BSIZE in Hs. assert (bn = 0) as -> by lia. by vm_compute.
  - intros n w m [-> | ->]%tree_live Ht; [|by vm_compute in Ht].
    assert (de_inum <$> entries (dread dsk) (node tree (dread dsk) 1) = [1; 2]) as E by (by vm_compute).
    intros Hin%dir_find_in. rewrite E in Hin.
    apply elem_of_cons in Hin as [-> |[-> |[]%elem_of_nil]%elem_of_cons]; done.
Qed.
Lemma tree_coherent : coherent tree (dread dsk) None table.
Proof.
  assert (forall ip, table !!! ip = Volume.inode0) as E by (intros ip; apply vlookup_replicate).
  split; [split|..]; intros ip *; rewrite ?E; try done.
Qed.
Lemma tree_room : ref_room 2 table.
Proof. intros ip. unfold table. by rewrite vlookup_replicate. Qed.
End Tree.

Lemma namex_correct_witness : exists k r k', namex (chars "/a") false name0 k = Ok r k' /\
  exists v ip, op Tree.tree (k_fs k') ∅ (dread Tree.dsk) [] v /\ fst r = Some ip /\ is_for ROOTDEV 2 (v !!! ip).
Proof.
  destruct Tree.tree_open as [s Hs].
  pose proof (namex_correct Tree.tree (Around.kernel s) _ [] _ (chars "/a") false name0 1 Tree.tree_layout Hs Tree.tree_tree Tree.tree_coherent Tree.tree_room
    ltac:(unfold NBUF; cbn; lia) ltac:(by repeat constructor) ltac:(by vm_compute) ltac:(done) ltac:(done)) as Hw.
  destruct (wpx_run _ _ _ _ Hw) as [(r & k' & E & _ & v & Hop & _ & _ & Hr)|(w & k' & _ & _ & ip & Hall)].
  - assert (walk Tree.tree (dread Tree.dsk) false 1 (take DIRSIZ <$> elements (chars "/a")) = Some (2, None)) as Ew by (by vm_compute).
    rewrite Ew in Hr. destruct Hr as (ip & Hip & Hfor & _). exists (Around.kernel s), r, k'. split; [exact E|].
    exists v, ip. exact (conj Hop (conj Hip Hfor)).
  - exfalso. specialize (Hall (if decide (ip = 0%fin) then 1%fin else 0%fin)). case_decide; subst;
      specialize (Hall ltac:(done)); unfold Tree.table in Hall; rewrite vlookup_replicate in Hall; done.
Defined.
