(* ===== verification/File.v ===== *)
(** Open files: [src/kernel/file.c], and [pipealloc] of [src/kernel/pipe.c]. *)

From S2P Require Import Prelude Params Spinlock Kalloc Vm Sched Sleeplock Bio Log Fs Umem Console Pipe Kern Path.
Local Open Scope kernel_scope.

Definition CONSOLE : Z := 1.

Definition fileinit : M kern unit := initlock ftable_lock "ftable".

Definition filealloc : M kern (option filep) :=
  acquire ftable_lock ;;
  r <- forM_find (indices NFILE) (fun f =>
    x <- getf f ;;
    if f_ref x =? 0 then
      updf f (set_fref 1) ;;
      release ftable_lock ;;
      ret (Some f)
    else ret None) ;;
  match r with
  | Some f => ret (Some f)
  | None => release ftable_lock ;; ret None
  end.

Definition filedup (f : filep) : M kern filep :=
  acquire ftable_lock ;;
  x <- getf f ;;
  if f_ref x <? 1 then panic "filedup" else
  updf f (fun x => set_fref (s32 (f_ref x + 1)) x) ;;
  release ftable_lock ;;
  ret f.

Section File.
Variable kend : Z.

Definition fileclose (f : filep) : M kern unit :=
  acquire ftable_lock ;;
  x <- getf f ;;
  if f_ref x <? 1 then panic "fileclose" else
  updf f (fun x => set_fref (s32 (f_ref x - 1)) x) ;;
  x <- getf f ;;
  if 0 <? f_ref x then release ftable_lock else
  let ff := x in
  updf f (set_fref 0) ;;
  updf f (set_ftype FD_NONE) ;;
  release ftable_lock ;;
  match f_type ff with
  | FD_PIPE => kpipe (f_pipe ff) (pipeclose (f_pipe ff) kend (f_writable ff))
  | FD_INODE | FD_DEVICE =>
      kbegin_op ;;
      match f_ip ff with
      | None => fault "fileclose: ip"
      | Some ip => fs (iput ip)
      end ;;
      kend_op
  | FD_NONE => ret tt
  end.
End File.

(** [struct stat] as it is copied out; the padding before [size] is 0. *)
Definition stat_bytes (st : stat) : list Z :=
  le_bytes 4 (st_dev st) ++ le_bytes 4 (st_ino st) ++ le_bytes 2 (st_type st) ++ le_bytes 2 (st_nlink st) ++
  [0; 0; 0; 0] ++ le_bytes 8 (st_size st).

Definition filestat (f : filep) (addr : Z) : M kern Z :=
  p <- kcurproc ;;
  x <- getf f ;;
  match f_type x with
  | FD_INODE | FD_DEVICE =>
      fs (ilock (f_ip x)) ;;
      match f_ip x with
      | None => fault "filestat"
      | Some ip =>
          st <- fs (stati ip) ;;
          fs (iunlock (Some ip)) ;;
          r <- kvm (copyout (p_pagetable p) addr (stat_bytes st) 24) ;;
          if r <? 0 then ret (-1) else ret 0
      end
  | _ => ret (-1)
  end.

(** [devsw[major].read] and [.write]: [consoleinit] is the only code that sets
    any. *)
Definition dev_ok (major : Z) : bool := (0 <=? major) && (major <? NDEV) && (major =? CONSOLE).

Definition fileread (f : filep) (addr n : Z) : M kern Z :=
  x <- getf f ;;
  if f_readable x =? 0 then ret (-1) else
  match f_type x with
  | FD_PIPE => kpipe (f_pipe x) (piperead (f_pipe x) addr n)
  | FD_DEVICE => if dev_ok (f_major x) then term (consoleread (UserVA addr) n) else ret (-1)
  | FD_INODE =>
      fs (ilock (f_ip x)) ;;
      match f_ip x with
      | None => fault "fileread"
      | Some ip =>
          x <- getf f ;;
          r <- readi ip (UserVA addr) (f_off x) (u32 n) ;;
          let r := fst r in
          when (0 <? r) (updf f (fun x => set_foff (u32 (f_off x + r)) x)) ;;
          fs (iunlock (Some ip)) ;;
          ret r
      end
  | FD_NONE => panic "fileread"
  end.

(** The most a transaction may write. *)
Definition write_max : Z := (MAXOPBLOCKS - 1 - 1 - 2) / 2 * BSIZE.

Definition filewrite_step (f : filep) (addr n i : Z) : M kern (Z + Z) :=
  if negb (i <? n) then ret (inr i) else
  let n1 := Z.min (n - i) write_max in
  kbegin_op ;;
  x <- getf f ;;
  fs (ilock (f_ip x)) ;;
  match f_ip x with
  | None => fault "filewrite"
  | Some ip =>
      x <- getf f ;;
      r <- writei ip (UserVA (u64 (addr + i))) [] (f_off x) n1 ;;
      when (0 <? r) (updf f (fun x => set_foff (u32 (f_off x + r)) x)) ;;
      fs (iunlock (Some ip)) ;;
      kend_op ;;
      if negb (r =? n1) then ret (inr i) else ret (inl (i + r))
  end.

Definition filewrite (f : filep) (addr n : Z) : M kern Z :=
  x <- getf f ;;
  if f_writable x =? 0 then ret (-1) else
  match f_type x with
  | FD_PIPE => kpipe (f_pipe x) (pipewrite (f_pipe x) addr n)
  | FD_DEVICE => if dev_ok (f_major x) then term (consolewrite (UserVA addr) n) else ret (-1)
  | FD_INODE =>
      i <- loop (filewrite_step f addr n) 0 ;;
      ret (if i =? n then n else -1)
  | FD_NONE => panic "filewrite"
  end.

(** * Pipes *)

Section Pipealloc.
Variable kend : Z.

(** [bad:] with the files that have been allocated. *)
Definition pipealloc_bad (f0 f1 : option filep) : M kern (option (filep * filep)) :=
  match f0 with Some f => fileclose kend f | None => ret tt end ;;
  match f1 with Some f => fileclose kend f | None => ret tt end ;;
  ret None.

(** The two files, or nothing for the result -1. *)
Definition pipealloc : M kern (option (filep * filep)) :=
  f0 <- filealloc ;;
  match f0 with
  | None => pipealloc_bad None None
  | Some f0 =>
      f1 <- filealloc ;;
      match f1 with
      | None => pipealloc_bad (Some f0) None
      | Some f1 =>
          pi <- kvm kalloc ;;
          if pi =? 0 then pipealloc_bad (Some f0) (Some f1) else
          kpipe pi pipe_init ;;
          updf f0 (set_ftype FD_PIPE) ;;
          updf f0 (set_freadable 1) ;;
          updf f0 (set_fwritable 0) ;;
          updf f0 (set_fpipe pi) ;;
          updf f1 (set_ftype FD_PIPE) ;;
          updf f1 (set_freadable 0) ;;
          updf f1 (set_fwritable 1) ;;
          updf f1 (set_fpipe pi) ;;
          ret (Some (f0, f1))
      end
  end.
End Pipealloc.
