(* ===== verification/Proc.v ===== *)
(** The life of a process: the parts of [src/kernel/proc.c] that create,
    grow, duplicate, end and reap processes.

    [kend] is the end of the kernel's image and [trampoline] the address of the
    code of [trampoline.S], both from the linker; [forkret_addr] is the address
    of [forkret]. *)

From S2P Require Import Prelude Params Spinlock Cstring Kalloc Vm Sched Sleeplock Bio Log Fs Umem Console Pipe Kern Path File.
Local Open Scope kernel_scope.

(** * Fields *)

Definition set_pxstate x (p : proc) : proc :=
  Proc (p_lock p) (p_state p) (p_chan p) (p_killed p) x (p_pid p) (p_parent p) (p_kstack p) (p_sz p)
    (p_pagetable p) (p_trapframe p) (p_context p) (p_ofile p) (p_cwd p) (p_name p) (p_vma p).
Definition set_ppid x (p : proc) : proc :=
  Proc (p_lock p) (p_state p) (p_chan p) (p_killed p) (p_xstate p) x (p_parent p) (p_kstack p) (p_sz p)
    (p_pagetable p) (p_trapframe p) (p_context p) (p_ofile p) (p_cwd p) (p_name p) (p_vma p).
Definition set_pparent x (p : proc) : proc :=
  Proc (p_lock p) (p_state p) (p_chan p) (p_killed p) (p_xstate p) (p_pid p) x (p_kstack p) (p_sz p)
    (p_pagetable p) (p_trapframe p) (p_context p) (p_ofile p) (p_cwd p) (p_name p) (p_vma p).
Definition set_psz x (p : proc) : proc :=
  Proc (p_lock p) (p_state p) (p_chan p) (p_killed p) (p_xstate p) (p_pid p) (p_parent p) (p_kstack p) x
    (p_pagetable p) (p_trapframe p) (p_context p) (p_ofile p) (p_cwd p) (p_name p) (p_vma p).
Definition set_ppagetable x (p : proc) : proc :=
  Proc (p_lock p) (p_state p) (p_chan p) (p_killed p) (p_xstate p) (p_pid p) (p_parent p) (p_kstack p) (p_sz p)
    x (p_trapframe p) (p_context p) (p_ofile p) (p_cwd p) (p_name p) (p_vma p).
Definition set_ptrapframe x (p : proc) : proc :=
  Proc (p_lock p) (p_state p) (p_chan p) (p_killed p) (p_xstate p) (p_pid p) (p_parent p) (p_kstack p) (p_sz p)
    (p_pagetable p) x (p_context p) (p_ofile p) (p_cwd p) (p_name p) (p_vma p).
Definition set_pcontext x (p : proc) : proc :=
  Proc (p_lock p) (p_state p) (p_chan p) (p_killed p) (p_xstate p) (p_pid p) (p_parent p) (p_kstack p) (p_sz p)
    (p_pagetable p) (p_trapframe p) x (p_ofile p) (p_cwd p) (p_name p) (p_vma p).
Definition set_pofile x (p : proc) : proc :=
  Proc (p_lock p) (p_state p) (p_chan p) (p_killed p) (p_xstate p) (p_pid p) (p_parent p) (p_kstack p) (p_sz p)
    (p_pagetable p) (p_trapframe p) (p_context p) x (p_cwd p) (p_name p) (p_vma p).
Definition set_pcwd x (p : proc) : proc :=
  Proc (p_lock p) (p_state p) (p_chan p) (p_killed p) (p_xstate p) (p_pid p) (p_parent p) (p_kstack p) (p_sz p)
    (p_pagetable p) (p_trapframe p) (p_context p) (p_ofile p) x (p_name p) (p_vma p).
Definition set_pname x (p : proc) : proc :=
  Proc (p_lock p) (p_state p) (p_chan p) (p_killed p) (p_xstate p) (p_pid p) (p_parent p) (p_kstack p) (p_sz p)
    (p_pagetable p) (p_trapframe p) (p_context p) (p_ofile p) (p_cwd p) x (p_vma p).
Definition set_pvma x (p : proc) : proc :=
  Proc (p_lock p) (p_state p) (p_chan p) (p_killed p) (p_xstate p) (p_pid p) (p_parent p) (p_kstack p) (p_sz p)
    (p_pagetable p) (p_trapframe p) (p_context p) (p_ofile p) (p_cwd p) (p_name p) x.

Abbreviation vmap := (fin 16).
Abbreviation fdp := (fin NOFILE).
Definition set_vvalid x (v : vma) : vma :=
  Vma (vm_addr v) (vm_len v) (vm_prot v) (vm_flag v) (vm_f v) (vm_offset v) (vm_fd v) x.
Definition set_vaddr x (v : vma) : vma :=
  Vma x (vm_len v) (vm_prot v) (vm_flag v) (vm_f v) (vm_offset v) (vm_fd v) (vm_valid v).
Definition set_vlen x (v : vma) : vma :=
  Vma (vm_addr v) x (vm_prot v) (vm_flag v) (vm_f v) (vm_offset v) (vm_fd v) (vm_valid v).
Definition upd_vma (i : vmap) (f : vma -> vma) (p : proc) : proc := set_pvma (vinsert i (f (p_vma p !!! i)) (p_vma p)) p.
Definition upd_ofile (fd : fdp) (f : option filep) (p : proc) : proc := set_pofile (vinsert fd f (p_ofile p)) p.

Definition pt_initprocL : lens ptab (option (fin NPROC)) :=
  Lens pt_initproc (fun v t => Ptab (pt_proc t) v (pt_nextpid t) (pt_pid_lock t) (pt_wait_lock t)).
Definition initprocL : lens kern (option (fin NPROC)) := lens_comp ptabL pt_initprocL.
Definition wait_lock : lens kern spinlock := wait_lockL.

(** [safestrcpy] of a string into an array of [n] bytes: the string it holds. *)
Definition safestr (n : nat) (s : list Z) : list Z := take (n - 1) s.

(** * Page tables *)

Section Proc.
Variables kend trampoline forkret_addr : Z.

Definition proc_pagetable (p : fin NPROC) : M kern Z :=
  pagetable <- kvm uvmcreate ;;
  if pagetable =? 0 then ret 0 else
  r <- kvm (mappages pagetable TRAMPOLINE PGSIZE trampoline (Z.lor PTE_R PTE_X)) ;;
  if r <? 0 then
    kvm (uvmfree kend pagetable 0) ;;
    ret 0
  else
  pr <- getp p ;;
  r <- kvm (mappages pagetable TRAPFRAME PGSIZE (p_trapframe pr) (Z.lor PTE_R PTE_W)) ;;
  if r <? 0 then
    kvm (uvmunmap kend pagetable TRAMPOLINE 1 false) ;;
    kvm (uvmfree kend pagetable 0) ;;
    ret 0
  else ret pagetable.

Definition proc_freepagetable (pagetable sz : Z) : M kern unit :=
  kvm (uvmunmap kend pagetable TRAMPOLINE 1 false) ;;
  kvm (uvmunmap kend pagetable TRAPFRAME 1 false) ;;
  kvm (uvmfree kend pagetable sz).

(** * Allocation *)

Definition freeproc (p : fin NPROC) : M kern unit :=
  pr <- getp p ;;
  when (nz (p_trapframe pr)) (kvm (kfree kend (p_trapframe pr))) ;;
  updp p (set_ptrapframe 0) ;;
  when (nz (p_pagetable pr)) (proc_freepagetable (p_pagetable pr) (p_sz pr)) ;;
  updp p (set_ppagetable 0) ;;
  updp p (set_psz 0) ;;
  updp p (set_ppid 0) ;;
  updp p (set_pparent None) ;;
  updp p (set_pname []) ;;
  updp p (set_pchan None) ;;
  updp p (set_pkilled 0) ;;
  updp p (set_pxstate 0) ;;
  updp p (set_pstate UNUSED).

(** The search of [allocproc]: it returns with the lock held. *)
Definition allocproc_find : M kern (option (fin NPROC)) :=
  forM_find (indices NPROC) (fun p =>
    acquire (plockL p) ;;
    pr <- getp p ;;
    if bool_decide (p_state pr = UNUSED) then ret (Some p)
    else release (plockL p) ;; ret None).

Definition allocproc_fail (p : fin NPROC) : M kern (option (fin NPROC)) :=
  freeproc p ;;
  release (plockL p) ;;
  ret None.

Definition allocproc : M kern (option (fin NPROC)) :=
  r <- allocproc_find ;;
  match r with
  | None => ret None
  | Some p =>
      pid <- allocpid ;;
      updp p (set_ppid pid) ;;
      updp p (set_pstate USED) ;;
      tf <- kvm kalloc ;;
      updp p (set_ptrapframe tf) ;;
      if tf =? 0 then allocproc_fail p else
      pt <- proc_pagetable p ;;
      updp p (set_ppagetable pt) ;;
      if pt =? 0 then allocproc_fail p else
      forM (indices 16) (fun i => updp p (upd_vma i (set_vvalid 0))) ;;
      updp p (fun pr => set_pcontext (Context forkret_addr (u64 (p_kstack pr + PGSIZE)) (replicate 12 0)) pr) ;;
      ret (Some p)
  end.

Definition initcode : list Z :=
  [23; 5; 0; 0; 19; 5; 69; 2; 151; 5; 0; 0; 147; 133; 53; 2; 147; 8; 112; 0; 115; 0; 0; 0;
   147; 8; 32; 0; 115; 0; 0; 0; 239; 240; 159; 255; 47; 105; 110; 105; 116; 0; 0; 36; 0; 0; 0; 0;
   0; 0; 0; 0].

Definition userinit : M kern unit :=
  r <- allocproc ;;
  modify (put initprocL r) ;;
  match r with
  | None => fault "userinit: null process"
  | Some p =>
      pr <- getp p ;;
      kvm (uvminit (p_pagetable pr) initcode (Z.of_nat (length initcode))) ;;
      updp p (set_psz PGSIZE) ;;
      um (tf_set (p_trapframe pr) TF_EPC 0) ;;
      um (tf_set (p_trapframe pr) TF_SP PGSIZE) ;;
      updp p (set_pname (safestr 16 (chars "initcode"))) ;;
      cwd <- namei (chars "/") ;;
      updp p (set_pcwd cwd) ;;
      updp p (set_pstate RUNNABLE) ;;
      release (plockL p)
  end.

(** * Growing and duplicating *)

(** [uint sz]: the size is cut to 32 bits. *)
Definition growproc (n : Z) : M kern Z :=
  p <- myprocp ;;
  pr <- getp p ;;
  let sz := u32 (p_sz pr) in
  if 0 <? n then
    r <- kvm (uvmalloc kend (p_pagetable pr) sz (u32 (sz + n))) ;;
    let sz := u32 r in
    if sz =? 0 then ret (-1) else
    updp p (set_psz sz) ;;
    ret 0
  else if n <? 0 then
    r <- kvm (uvmdealloc kend (p_pagetable pr) sz (u32 (sz + n))) ;;
    updp p (set_psz (u32 r)) ;;
    ret 0
  else
    updp p (set_psz sz) ;;
    ret 0.

(** [np->vma[i] = p->vma[i]], a mapped file gaining a reference. *)
Definition fork_vma (p np : fin NPROC) (i : vmap) : M kern unit :=
  pr <- getp p ;;
  let v := p_vma pr !!! i in
  if vm_valid v =? 1 then
    updp np (upd_vma i (fun _ => v)) ;;
    match vm_f v with
    | None => fault "filedup: null"
    | Some f => filedup f ;; ret tt
    end
  else ret tt.

Definition fork_ofile (p np : fin NPROC) (i : fdp) : M kern unit :=
  pr <- getp p ;;
  match p_ofile pr !!! i with
  | None => ret tt
  | Some f => f <- filedup f ;; updp np (upd_ofile i (Some f))
  end.

Definition fork : M kern Z :=
  p <- myprocp ;;
  r <- allocproc ;;
  match r with
  | None => ret (-1)
  | Some np =>
      pr <- getp p ;;
      npr <- getp np ;;
      r <- kvm (uvmcopy kend (p_pagetable pr) (p_pagetable npr) (p_sz pr)) ;;
      if r <? 0 then
        freeproc np ;;
        release (plockL np) ;;
        ret (-1)
      else
      updp np (set_psz (p_sz pr)) ;;
      forM (indices 16) (fork_vma p np) ;;
      kvm (upd_mem (fun m => memmove m (p_trapframe npr) (p_trapframe pr) TF_SIZE)) ;;
      um (tf_set (p_trapframe npr) TF_A0 0) ;;
      forM (indices NOFILE) (fork_ofile p np) ;;
      match p_cwd pr with
      | None => fault "idup: null"
      | Some cwd => ip <- fs (idup cwd) ;; updp np (set_pcwd (Some ip))
      end ;;
      updp np (set_pname (safestr 16 (p_name pr))) ;;
      npr <- getp np ;;
      let pid := p_pid npr in
      release (plockL np) ;;
      acquire wait_lock ;;
      updp np (set_pparent (Some p)) ;;
      release wait_lock ;;
      acquire (plockL np) ;;
      updp np (set_pstate RUNNABLE) ;;
      release (plockL np) ;;
      ret pid
  end.

(** * Ending *)

(** [wakeup] with a [struct proc *] for channel; the null pointer is the channel
    of no sleeping process. *)
Definition wakeup_proc (p : option (fin NPROC)) : M kern unit :=
  match p with
  | Some i => wakeup (KProc (fin_to_nat i))
  | None =>
      forM (indices NPROC) (fun i =>
        me <- myproc ;;
        if bool_decide (Some i = me) then ret tt else
        acquire (plockL i) ;;
        p <- getp i ;;
        when (bool_decide (p_state p = SLEEPING) && bool_decide (p_chan p = None)) (updp i (set_pstate RUNNABLE)) ;;
        release (plockL i))
  end.

Definition reparent (p : fin NPROC) : M kern unit :=
  forM (indices NPROC) (fun pp =>
    pr <- getp pp ;;
    if bool_decide (p_parent pr = Some p) then
      initproc <- gets (view initprocL) ;;
      updp pp (set_pparent initproc) ;;
      wakeup_proc initproc
    else ret tt).

Definition exit_fd (p : fin NPROC) (fd : fdp) : M kern unit :=
  pr <- getp p ;;
  match p_ofile pr !!! fd with
  | None => ret tt
  | Some f =>
      fileclose kend f ;;
      updp p (upd_ofile fd None)
  end.

(** One mapped region: [len/PGSIZE] is a division of [int]s, converted to the
    64-bit page count. *)
Definition exit_vma (p : fin NPROC) (i : vmap) : M kern unit :=
  pr <- getp p ;;
  let v := p_vma pr !!! i in
  if vm_valid v =? 1 then
    match vm_f v with
    | None => fault "exit: null file"
    | Some f =>
        when (nz (Z.land (vm_flag v) MAP_SHARED)) (filewrite f (vm_addr v) (vm_len v) ;; ret tt) ;;
        fileclose kend f ;;
        updp p (upd_vma i (set_vvalid 0)) ;;
        kvm (uvmunmap kend (p_pagetable pr) (vm_addr v) (u64 (Z.quot (vm_len v) PGSIZE)) false)
    end
  else ret tt.

Definition exit (status : Z) : M kern unit :=
  p <- myprocp ;;
  initproc <- gets (view initprocL) ;;
  if bool_decide (Some p = initproc) then panic "init exiting" else
  forM (indices NOFILE) (exit_fd p) ;;
  forM (indices 16) (exit_vma p) ;;
  kbegin_op ;;
  pr <- getp p ;;
  match p_cwd pr with None => fault "iput: null" | Some cwd => fs (iput cwd) end ;;
  kend_op ;;
  updp p (set_pcwd None) ;;
  acquire wait_lock ;;
  reparent p ;;
  pr <- getp p ;;
  wakeup_proc (p_parent pr) ;;
  acquire (plockL p) ;;
  updp p (set_pxstate status) ;;
  updp p (set_pstate ZOMBIE) ;;
  release wait_lock ;;
  sched ;;
  panic "zombie exit".

(** A child, in the scan of [wait]: [inr] is the result of [wait], [inl] tells
    whether a child has been seen. *)
Definition wait_one (p : fin NPROC) (addr : Z) (np : fin NPROC) : M kern (bool + Z) :=
  npr <- getp np ;;
  if negb (bool_decide (p_parent npr = Some p)) then ret (inl false) else
  acquire (plockL np) ;;
  npr <- getp np ;;
  if bool_decide (p_state npr = ZOMBIE) then
    let pid := p_pid npr in
    pr <- getp p ;;
    r <- (if nz addr then kvm (copyout (p_pagetable pr) addr (le_bytes 4 (p_xstate npr)) 4) else ret 0) ;;
    if r <? 0 then
      release (plockL np) ;;
      release wait_lock ;;
      ret (inr (-1))
    else
      freeproc np ;;
      release (plockL np) ;;
      release wait_lock ;;
      ret (inr pid)
  else
    release (plockL np) ;;
    ret (inl true).

Fixpoint wait_scan (p : fin NPROC) (addr : Z) (l : list (fin NPROC)) (havekids : bool) : M kern (bool + Z) :=
  match l with
  | [] => ret (inl havekids)
  | np :: l' =>
      r <- wait_one p addr np ;;
      match r with
      | inr v => ret (inr v)
      | inl k => wait_scan p addr l' (k || havekids)
      end
  end.

(** One round of the loop of [wait]. *)
Definition wait_step (p : fin NPROC) (addr : Z) (_ : unit) : M kern (unit + Z) :=
  r <- wait_scan p addr (indices NPROC) false ;;
  match r with
  | inr v => ret (inr v)
  | inl havekids =>
      pr <- getp p ;;
      if negb havekids || nz (p_killed pr) then
        release wait_lock ;;
        ret (inr (-1))
      else
        sleep (KProc (fin_to_nat p)) wait_lock ;;
        ret (inl tt)
  end.

Definition wait (addr : Z) : M kern Z :=
  p <- myprocp ;;
  acquire wait_lock ;;
  loop (wait_step p addr) tt.
End Proc.
