(* ===== verification/Exec.v ===== *)
(** Loading programs: [src/kernel/exec.c], with the headers of
    [src/kernel/elf.h]. *)

From S2P Require Import Prelude Params Spinlock Cstring Kalloc Vm Sched Sleeplock Bio Log Fs Umem Console Pipe Kern Path File Proc.
Local Open Scope kernel_scope.

Definition ELF_MAGIC : Z := 1179403647.     (* 0x464C457F *)
Definition ELF_PROG_LOAD : Z := 1.

(** [struct elfhdr], the fields that are used, by their C offsets. *)
Definition ELFHDR : Z := 64.
Definition elf_magic (d : list Z) : Z := get_le 4 d 0.
Definition elf_entry (d : list Z) : Z := get_le 8 d 24.
Definition elf_phoff (d : list Z) : Z := get_le 8 d 32.
Definition elf_phnum (d : list Z) : Z := get_le 2 d 56.

(** [struct proghdr] *)
Definition PROGHDR : Z := 56.
Definition ph_type (d : list Z) : Z := get_le 4 d 0.
Definition ph_off (d : list Z) : Z := get_le 8 d 8.
Definition ph_vaddr (d : list Z) : Z := get_le 8 d 16.
Definition ph_filesz (d : list Z) : Z := get_le 8 d 32.
Definition ph_memsz (d : list Z) : Z := get_le 8 d 40.

Definition loadseg_step (pagetable va : Z) (ip : inodep) (offset sz i : Z) : M kern (Z + Z) :=
  if negb (i <? sz) then ret (inr 0) else
  pa <- kvm (walkaddr pagetable (u64 (va + i))) ;;
  if pa =? 0 then panic "loadseg: address should exist" else
  let n := if sz - i <? PGSIZE then sz - i else PGSIZE in
  r <- readi ip (Phys pa) (u32 (offset + i)) n ;;
  if negb (fst r =? n) then ret (inr (-1)) else
  ret (inl (u32 (i + PGSIZE))).

Definition loadseg (pagetable va : Z) (ip : inodep) (offset sz : Z) : M kern Z :=
  loop (loadseg_step pagetable va ip offset sz) 0.

(** The part of the path after the last slash. *)
Fixpoint last_elem (last s : list Z) : list Z :=
  match s with
  | [] => last
  | c :: s' => last_elem (if c =? 47 then s' else last) s'
  end.

Section Exec.
Variables kend trampoline : Z.

(** [bad:] *)
Definition exec_bad (pagetable sz : Z) (ip : option inodep) : M kern Z :=
  when (nz pagetable) (proc_freepagetable kend pagetable sz) ;;
  match ip with
  | None => ret tt
  | Some ip => fs (iunlockput ip) ;; kend_op
  end ;;
  ret (-1).

(** One program header: the loop has [i], [off] and [sz]; it ends with [sz] and
    whether all went well. *)
Definition exec_seg (pagetable : Z) (ip : inodep) (elf : list Z) (v : Z * Z * Z) : M kern (Z * Z * Z + Z * bool) :=
  let '(i, off, sz) := v in
  if negb (i <? elf_phnum elf) then ret (inr (sz, true)) else
  r <- readi ip Local (u32 off) PROGHDR ;;
  if negb (fst r =? PROGHDR) then ret (inr (sz, false)) else
  let ph := snd r in
  if negb (ph_type ph =? ELF_PROG_LOAD) then ret (inl (i + 1, s32 (off + PROGHDR), sz)) else
  if ph_memsz ph <? ph_filesz ph then ret (inr (sz, false)) else
  if u64 (ph_vaddr ph + ph_memsz ph) <? ph_vaddr ph then ret (inr (sz, false)) else
  sz1 <- kvm (uvmalloc kend pagetable sz (u64 (ph_vaddr ph + ph_memsz ph))) ;;
  if sz1 =? 0 then ret (inr (sz, false)) else
  if nz (ph_vaddr ph mod PGSIZE) then ret (inr (sz1, false)) else
  r <- loadseg pagetable (ph_vaddr ph) ip (u32 (ph_off ph)) (u32 (ph_filesz ph)) ;;
  if r <? 0 then ret (inr (sz1, false)) else
  ret (inl (i + 1, s32 (off + PROGHDR), sz1)).

(** [strlen] of a string in a page. *)
Definition page_strlen (a : Z) : M kern Z :=
  m <- gets k_mem ;;
  match strlen (Z.to_nat PGSIZE) (at_mem m a) with
  | Some n => ret n
  | None => halt NoFuel
  end.

(** The argument strings: [sp] and [ustack] at the end, nothing for [goto bad]. *)
Fixpoint exec_args (pagetable stackbase : Z) (argv : list Z) (sp : Z) (ustack : list Z) : M kern (option (Z * list Z)) :=
  match argv with
  | [] => ret (Some (sp, ustack))
  | a :: argv' =>
      if (MAXARG <=? length ustack)%nat then ret None else
      n <- page_strlen a ;;
      let sp := u64 (sp - (n + 1)) in
      let sp := sp - sp mod 16 in
      if sp <? stackbase then ret None else
      m <- gets k_mem ;;
      r <- kvm (copyout pagetable sp (load_bytes m a (Z.to_nat (n + 1))) (n + 1)) ;;
      if r <? 0 then ret None else
      exec_args pagetable stackbase argv' sp (ustack ++ [sp])
  end.

(** The user stack and the switch to the new image. *)
Definition exec_stack (path argv elf : list Z) (pagetable sz : Z) : M kern Z :=
  p <- myprocp ;;
  pr <- getp p ;;
  let oldsz := p_sz pr in
  let sz := PGROUNDUP sz in
  sz1 <- kvm (uvmalloc kend pagetable sz (u64 (sz + 2 * PGSIZE))) ;;
  if sz1 =? 0 then exec_bad pagetable sz None else
  let sz := sz1 in
  kvm (uvmclear pagetable (u64 (sz - 2 * PGSIZE))) ;;
  let sp := sz in
  let stackbase := u64 (sp - PGSIZE) in
  r <- exec_args pagetable stackbase argv sp [] ;;
  match r with
  | None => exec_bad pagetable sz None
  | Some (sp, ustack) =>
      let argc := Z.of_nat (length ustack) in
      if (MAXARG <=? length ustack)%nat then fault "exec: ustack" else
      let ustack := ustack ++ [0] in
      let sp := u64 (sp - (argc + 1) * 8) in
      let sp := sp - sp mod 16 in
      if sp <? stackbase then exec_bad pagetable sz None else
      r <- kvm (copyout pagetable sp (ustack ≫= le_bytes 8) ((argc + 1) * 8)) ;;
      if r <? 0 then exec_bad pagetable sz None else
      um (tf_set (p_trapframe pr) TF_A1 sp) ;;
      updp p (set_pname (safestr 16 (last_elem path path))) ;;
      let oldpagetable := p_pagetable pr in
      updp p (set_ppagetable pagetable) ;;
      updp p (set_psz sz) ;;
      um (tf_set (p_trapframe pr) TF_EPC (elf_entry elf)) ;;
      um (tf_set (p_trapframe pr) TF_SP sp) ;;
      proc_freepagetable kend oldpagetable oldsz ;;
      ret argc
  end.

Definition exec (path argv : list Z) : M kern Z :=
  p <- myprocp ;;
  kbegin_op ;;
  r <- namei path ;;
  match r with
  | None => kend_op ;; ret (-1)
  | Some ip =>
      fs (ilock (Some ip)) ;;
      r <- readi ip Local 0 ELFHDR ;;
      if negb (fst r =? ELFHDR) then exec_bad 0 0 (Some ip) else
      let elf := snd r in
      if negb (elf_magic elf =? ELF_MAGIC) then exec_bad 0 0 (Some ip) else
      pagetable <- proc_pagetable kend trampoline p ;;
      if pagetable =? 0 then exec_bad 0 0 (Some ip) else
      r <- loop (exec_seg pagetable ip elf) (0, s32 (elf_phoff elf), 0) ;;
      let '(sz, good) := r in
      if negb good then exec_bad pagetable sz (Some ip) else
      fs (iunlockput ip) ;;
      kend_op ;;
      exec_stack path argv elf pagetable sz
  end.
End Exec.
