(* ===== verification/Sysfile.v ===== *)
(** The file system calls: [src/kernel/sysfile.c], with [mmap] and [munmap].
    A result of -1 stands for the [uint64] all of whose bits are set. *)

From S2P Require Import Prelude Params Spinlock Cstring Kalloc Vm Sched Sleeplock Bio Log Fs Umem Console Pipe Kern Path File Proc Exec.
Local Open Scope kernel_scope.

(** [&p->ofile[fd]] for a descriptor in range. *)
Definition fdp_of (fd : Z) : option fdp := if fd <? 0 then None else indices NOFILE !! Z.to_nat fd.

(** The descriptor and the file, or nothing for the result -1. *)
Definition argfd (n : Z) : M kern (option (fdp * filep)) :=
  fd <- um (argint n) ;;
  match fdp_of fd with
  | None => ret None
  | Some fd =>
      p <- kcurproc ;;
      match p_ofile p !!! fd with
      | None => ret None
      | Some f => ret (Some (fd, f))
      end
  end.

Definition fdalloc (f : filep) : M kern (option fdp) :=
  p <- myprocp ;;
  forM_find (indices NOFILE) (fun fd =>
    pr <- getp p ;;
    if bool_decide (p_ofile pr !!! fd = None) then
      updp p (upd_ofile fd (Some f)) ;;
      ret (Some fd)
    else ret None).

Definition fd_val (fd : fdp) : Z := Z.of_nat (fin_to_nat fd).

Definition sys_dup : M kern Z :=
  r <- argfd 0 ;;
  match r with
  | None => ret (-1)
  | Some (_, f) =>
      fd <- fdalloc f ;;
      match fd with
      | None => ret (-1)
      | Some fd => filedup f ;; ret (fd_val fd)
      end
  end.

Definition sys_read : M kern Z :=
  r <- argfd 0 ;;
  match r with
  | None => ret (-1)
  | Some (_, f) =>
      n <- um (argint 2) ;;
      p <- um (argaddr 1) ;;
      fileread f p n
  end.

Definition sys_write : M kern Z :=
  r <- argfd 0 ;;
  match r with
  | None => ret (-1)
  | Some (_, f) =>
      n <- um (argint 2) ;;
      p <- um (argaddr 1) ;;
      filewrite f p n
  end.

Definition sys_fstat : M kern Z :=
  r <- argfd 0 ;;
  match r with
  | None => ret (-1)
  | Some (_, f) =>
      st <- um (argaddr 1) ;;
      filestat f st
  end.

(** [argstr(n, buf, MAXPATH)]: the string, or nothing for a negative result. *)
Definition argpath (n : Z) : M kern (option (list Z)) :=
  r <- um (argstr n MAXPATH) ;;
  ret (if fst r <? 0 then None else Some (snd r)).

(** ** Links *)

(** [bad:] of [sys_link] *)
Definition sys_link_bad (ip : inodep) : M kern Z :=
  fs (ilock (Some ip)) ;;
  fs (updi ip (fun i => set_inlink (s16 (i_nlink i - 1)) i)) ;;
  fs (iupdate ip) ;;
  fs (iunlockput ip) ;;
  kend_op ;;
  ret (-1).

Definition link_entry (ip : inodep) (new : list Z) : M kern Z :=
  r <- nameiparent new ;;
  match r with
  | (None, _) => sys_link_bad ip
  | (Some dp, name) =>
      fs (ilock (Some dp)) ;;
      d <- fs (geti dp) ;;
      i <- fs (geti ip) ;;
      r <- (if negb (i_dev d =? i_dev i) then ret (-1) else dirlink dp name (i_inum i)) ;;
      if r <? 0 then
        fs (iunlockput dp) ;;
        sys_link_bad ip
      else
        fs (iunlockput dp) ;;
        fs (iput ip) ;;
        kend_op ;;
        ret 0
  end.

Definition sys_link : M kern Z :=
  old <- argpath 0 ;;
  match old with
  | None => ret (-1)
  | Some old =>
      new <- argpath 1 ;;
      match new with
      | None => ret (-1)
      | Some new =>
          kbegin_op ;;
          r <- namei old ;;
          match r with
          | None => kend_op ;; ret (-1)
          | Some ip =>
              fs (ilock (Some ip)) ;;
              i <- fs (geti ip) ;;
              if i_type i =? T_DIR then
                fs (iunlockput ip) ;;
                kend_op ;;
                ret (-1)
              else
                fs (updi ip (fun i => set_inlink (s16 (i_nlink i + 1)) i)) ;;
                fs (iupdate ip) ;;
                fs (iunlock (Some ip)) ;;
                link_entry ip new
          end
      end
  end.

Definition isdirempty_step (dp : inodep) (off : Z) : M kern (Z + bool) :=
  d <- fs (geti dp) ;;
  if negb (off <? i_size d) then ret (inr true) else
  de <- read_dirent dp off "isdirempty: readi" ;;
  if nz (de_inum de) then ret (inr false) else ret (inl (off + DIRENT)).

Definition isdirempty (dp : inodep) : M kern bool := loop (isdirempty_step dp) (2 * DIRENT).

(** [bad:] of [sys_unlink] *)
Definition sys_unlink_bad (dp : inodep) : M kern Z :=
  fs (iunlockput dp) ;;
  kend_op ;;
  ret (-1).

Definition unlink_entry (dp ip : inodep) (off : Z) : M kern Z :=
  fs (ilock (Some ip)) ;;
  i <- fs (geti ip) ;;
  if i_nlink i <? 1 then panic "unlink: nlink < 1" else
  full <- (if i_type i =? T_DIR then e <- isdirempty ip ;; ret (negb e) else ret false) ;;
  if full : bool then
    fs (iunlockput ip) ;;
    sys_unlink_bad dp
  else
    n <- writei dp Local (replicate (Z.to_nat DIRENT) 0) off DIRENT ;;
    if negb (n =? DIRENT) then panic "unlink: writei" else
    when (i_type i =? T_DIR)
      (fs (updi dp (fun d => set_inlink (s16 (i_nlink d - 1)) d)) ;;
       fs (iupdate dp)) ;;
    fs (iunlockput dp) ;;
    fs (updi ip (fun i => set_inlink (s16 (i_nlink i - 1)) i)) ;;
    fs (iupdate ip) ;;
    fs (iunlockput ip) ;;
    kend_op ;;
    ret 0.

Definition sys_unlink : M kern Z :=
  path <- argpath 0 ;;
  match path with
  | None => ret (-1)
  | Some path =>
      kbegin_op ;;
      r <- nameiparent path ;;
      match r with
      | (None, _) => kend_op ;; ret (-1)
      | (Some dp, name) =>
          fs (ilock (Some dp)) ;;
          if (namecmp name (chars "." ++ [0]) =? 0) || (namecmp name (chars ".." ++ [0]) =? 0) then sys_unlink_bad dp else
          r <- dirlookup dp name ;;
          match r with
          | None => sys_unlink_bad dp
          | Some (ip, off) => unlink_entry dp ip off
          end
      end
  end.

(** ** Creating and opening *)

(** A new inode in [dp], which is locked. *)
Definition create_new (dp : inodep) (name : list Z) (type major minor : Z) : M kern (option inodep) :=
  d <- fs (geti dp) ;;
  ip <- fs (ialloc (i_dev d) type) ;;
  fs (ilock (Some ip)) ;;
  fs (updi ip (set_imajor major)) ;;
  fs (updi ip (set_iminor minor)) ;;
  fs (updi ip (set_inlink 1)) ;;
  fs (iupdate ip) ;;
  i <- fs (geti ip) ;;
  when (type =? T_DIR)
    (fs (updi dp (fun d => set_inlink (s16 (i_nlink d + 1)) d)) ;;
     fs (iupdate dp) ;;
     r <- dirlink ip (chars "." ++ [0]) (i_inum i) ;;
     if r <? 0 then panic "create dots" else
     r <- dirlink ip (chars ".." ++ [0]) (i_inum d) ;;
     if r <? 0 then panic "create dots" else ret tt) ;;
  r <- dirlink dp name (i_inum i) ;;
  if r <? 0 then panic "create: dirlink" else
  fs (iunlockput dp) ;;
  ret (Some ip).

(** The inode is returned locked. *)
Definition create (path : list Z) (type major minor : Z) : M kern (option inodep) :=
  r <- nameiparent path ;;
  match r with
  | (None, _) => ret None
  | (Some dp, name) =>
      fs (ilock (Some dp)) ;;
      r <- dirlookup dp name ;;
      match r with
      | Some (ip, _) =>
          fs (iunlockput dp) ;;
          fs (ilock (Some ip)) ;;
          i <- fs (geti ip) ;;
          if (type =? T_FILE) && ((i_type i =? T_FILE) || (i_type i =? T_DEVICE)) then ret (Some ip) else
          fs (iunlockput ip) ;;
          ret None
      | None => create_new dp name type major minor
      end
  end.

Section Sysfile.
Variables kend trampoline : Z.

Definition sys_close : M kern Z :=
  r <- argfd 0 ;;
  match r with
  | None => ret (-1)
  | Some (fd, f) =>
      updcur (upd_ofile fd None) ;;
      fileclose kend f ;;
      ret 0
  end.

(** The inode of [sys_open], locked; nothing after an error. *)
Definition open_inode (path : list Z) (omode : Z) : M kern (option inodep) :=
  if nz (Z.land omode O_CREATE) then create path T_FILE 0 0 else
  r <- namei path ;;
  match r with
  | None => ret None
  | Some ip =>
      fs (ilock (Some ip)) ;;
      i <- fs (geti ip) ;;
      if (i_type i =? T_DIR) && negb (omode =? O_RDONLY) then
        fs (iunlockput ip) ;;
        ret None
      else ret (Some ip)
  end.

(** [filealloc] and [fdalloc], undone when the second fails. *)
Definition open_file : M kern (option (filep * fdp)) :=
  f <- filealloc ;;
  match f with
  | None => ret None
  | Some f =>
      fd <- fdalloc f ;;
      match fd with
      | None => fileclose kend f ;; ret None
      | Some fd => ret (Some (f, fd))
      end
  end.

Definition open_setup (ip : inodep) (f : filep) (omode : Z) : M kern unit :=
  i <- fs (geti ip) ;;
  (if i_type i =? T_DEVICE then
     updf f (set_ftype FD_DEVICE) ;;
     updf f (set_fmajor (i_major i))
   else
     updf f (set_ftype FD_INODE) ;;
     updf f (set_foff 0)) ;;
  updf f (set_fip (Some ip)) ;;
  updf f (set_freadable (if nz (Z.land omode O_WRONLY) then 0 else 1)) ;;
  updf f (set_fwritable (if nz (Z.land omode O_WRONLY) || nz (Z.land omode O_RDWR) then 1 else 0)) ;;
  when (nz (Z.land omode O_TRUNC) && (i_type i =? T_FILE)) (fs (itrunc ip)).

Definition sys_open : M kern Z :=
  path <- argpath 0 ;;
  match path with
  | None => ret (-1)
  | Some path =>
      omode <- um (argint 1) ;;
      kbegin_op ;;
      r <- open_inode path omode ;;
      match r with
      | None => kend_op ;; ret (-1)
      | Some ip =>
          i <- fs (geti ip) ;;
          if (i_type i =? T_DEVICE) && ((i_major i <? 0) || (NDEV <=? i_major i)) then
            fs (iunlockput ip) ;;
            kend_op ;;
            ret (-1)
          else
            r <- open_file ;;
            match r with
            | None =>
                fs (iunlockput ip) ;;
                kend_op ;;
                ret (-1)
            | Some (f, fd) =>
                open_setup ip f omode ;;
                fs (iunlock (Some ip)) ;;
                kend_op ;;
                ret (fd_val fd)
            end
      end
  end.

(** [sys_mkdir] and [sys_mknod] after their arguments. *)
Definition make_node (path : option (list Z)) (type major minor : Z) : M kern Z :=
  r <- match path with None => ret None | Some path => create path type major minor end ;;
  match r with
  | None => kend_op ;; ret (-1)
  | Some ip =>
      fs (iunlockput ip) ;;
      kend_op ;;
      ret 0
  end.

Definition sys_mkdir : M kern Z :=
  kbegin_op ;;
  path <- argpath 0 ;;
  make_node path T_DIR 0 0.

Definition sys_mknod : M kern Z :=
  kbegin_op ;;
  path <- argpath 0 ;;
  match path with
  | None => make_node None T_DEVICE 0 0
  | Some path =>
      major <- um (argint 1) ;;
      minor <- um (argint 2) ;;
      make_node (Some path) T_DEVICE (s16 major) (s16 minor)
  end.

Definition sys_chdir : M kern Z :=
  p <- myprocp ;;
  kbegin_op ;;
  path <- argpath 0 ;;
  r <- match path with None => ret None | Some path => namei path end ;;
  match r with
  | None => kend_op ;; ret (-1)
  | Some ip =>
      fs (ilock (Some ip)) ;;
      i <- fs (geti ip) ;;
      if negb (i_type i =? T_DIR) then
        fs (iunlockput ip) ;;
        kend_op ;;
        ret (-1)
      else
        fs (iunlock (Some ip)) ;;
        pr <- getp p ;;
        match p_cwd pr with None => fault "iput: null" | Some cwd => fs (iput cwd) end ;;
        kend_op ;;
        updp p (set_pcwd (Some ip)) ;;
        ret 0
  end.

(** ** exec *)

(** [fetchstr(uarg, page, PGSIZE)] *)
Definition fetchstr_page (uarg pa : Z) : M kern Z :=
  r <- um (fetchstr uarg PGSIZE) ;;
  let '(n, s) := r in
  kvm (upd_mem (fun m => store_bytes m pa (if n <? 0 then s else s ++ [0]))) ;;
  ret n.

(** The loop over [uargv]: the pages filled so far, and whether all went well. *)
Definition exec_argv_step (uargv : Z) (argv : list Z) : M kern (list Z + list Z * bool) :=
  let i := length argv in
  if (MAXARG <=? i)%nat then ret (inr (argv, false)) else
  r <- um (fetchaddr (u64 (uargv + 8 * Z.of_nat i))) ;;
  let '(err, uarg) := r in
  if err <? 0 then ret (inr (argv, false)) else
  if uarg =? 0 then ret (inr (argv, true)) else
  a <- kvm kalloc ;;
  if a =? 0 then ret (inr (argv, false)) else
  n <- fetchstr_page uarg a ;;
  if n <? 0 then ret (inr (argv ++ [a], false)) else
  ret (inl (argv ++ [a])).

Definition sys_exec : M kern Z :=
  path <- argpath 0 ;;
  match path with
  | None => ret (-1)
  | Some path =>
      uargv <- um (argaddr 1) ;;
      r <- loop (exec_argv_step uargv) [] ;;
      let '(argv, good) := r in
      r <- (if good : bool then exec kend trampoline path argv else ret (-1)) ;;
      forM argv (fun a => kvm (kfree kend a)) ;;
      ret r
  end.

(** ** pipe *)

(** Both files closed and the descriptors given out cleared. *)
Definition sys_pipe_bad (p : fin NPROC) (fds : list fdp) (rf wf : filep) : M kern Z :=
  forM fds (fun fd => updp p (upd_ofile fd None)) ;;
  fileclose kend rf ;;
  fileclose kend wf ;;
  ret (-1).

Definition sys_pipe : M kern Z :=
  p <- myprocp ;;
  fdarray <- um (argaddr 0) ;;
  r <- pipealloc kend ;;
  match r with
  | None => ret (-1)
  | Some (rf, wf) =>
      fd0 <- fdalloc rf ;;
      match fd0 with
      | None => sys_pipe_bad p [] rf wf
      | Some fd0 =>
          fd1 <- fdalloc wf ;;
          match fd1 with
          | None => sys_pipe_bad p [fd0] rf wf
          | Some fd1 =>
              pr <- getp p ;;
              r <- kvm (copyout (p_pagetable pr) fdarray (le_bytes 4 (fd_val fd0)) 4) ;;
              if r <? 0 then sys_pipe_bad p [fd0; fd1] rf wf else
              r <- kvm (copyout (p_pagetable pr) (u64 (fdarray + 4)) (le_bytes 4 (fd_val fd1)) 4) ;;
              if r <? 0 then sys_pipe_bad p [fd0; fd1] rf wf else
              ret 0
          end
      end
  end.

(** ** mmap *)

(** The code rejects only [fd >= NOFILE]: a negative index reads outside the
    array and an unused descriptor gives a null pointer that is dereferenced. *)
Definition sys_mmap : M kern Z :=
  p <- myprocp ;;
  len <- um (argint 1) ;;
  prot <- um (argint 2) ;;
  flag <- um (argint 3) ;;
  fd <- um (argint 4) ;;
  if Z.of_nat NOFILE <=? fd then ret (-1) else
  match fdp_of fd with
  | None => fault "mmap: negative descriptor"
  | Some fd' =>
      pr <- getp p ;;
      match p_ofile pr !!! fd' with
      | None => fault "mmap: null file"
      | Some f =>
          x <- getf f ;;
          if (f_writable x =? 0) && nz (Z.land prot PROT_WRITE) && (Z.land flag MAP_PRIVATE =? 0) then ret (-1) else
          filedup f ;;
          r <- forM_find (indices 16) (fun i =>
            pr <- getp p ;;
            if vm_valid (p_vma pr !!! i) =? 0 then
              updp p (upd_vma i (fun _ => Vma (p_sz pr) len prot flag (Some f) 0 fd 1)) ;;
              ret (Some i)
            else ret None) ;;
          match r with
          | None => ret (-1)
          | Some i =>
              updp p (fun pr => set_psz (u64 (p_sz pr + len)) pr) ;;
              pr <- getp p ;;
              ret (vm_addr (p_vma pr !!! i))
          end
      end
  end.

(** [addr, addr + len) lies in the region, in 64-bit arithmetic. *)
Definition vma_covers (v : vma) (addr len : Z) : bool :=
  (vm_valid v =? 1) && (vm_addr v <=? addr) && (u64 (addr + len) <=? u64 (vm_addr v + vm_len v)).

Definition munmap_vma (p : fin NPROC) (i : vmap) (addr len : Z) : M kern unit :=
  pr <- getp p ;;
  let v := p_vma pr !!! i in
  match vm_f v with
  | None => fault "munmap: null file"
  | Some f =>
      when (nz (Z.land (vm_flag v) MAP_SHARED)) (filewrite f addr len ;; ret tt) ;;
      when (addr =? vm_addr v) (updp p (upd_vma i (set_vaddr (u64 (addr + len))))) ;;
      updp p (upd_vma i (fun v => set_vlen (s32 (vm_len v - len)) v)) ;;
      pr <- getp p ;;
      when (vm_len (p_vma pr !!! i) =? 0)
        (fileclose kend f ;;
         updp p (upd_vma i (set_vvalid 0))) ;;
      kvm (uvmunmap kend (p_pagetable pr) addr (u64 (Z.quot len PGSIZE)) false)
  end.

Definition sys_munmap : M kern Z :=
  p <- myprocp ;;
  addr <- um (argaddr 0) ;;
  len <- um (argint 1) ;;
  r <- forM_find (indices 16) (fun i =>
    pr <- getp p ;;
    if vma_covers (p_vma pr !!! i) addr len then
      munmap_vma p i addr len ;;
      ret (Some i)
    else ret None) ;;
  ret (match r with Some _ => 0 | None => -1 end).
End Sysfile.
