(* ===== verification/Syscall.v ===== *)
(** System calls: [src/kernel/sysproc.c] and the dispatch of
    [src/kernel/syscall.c]. *)

From S2P Require Import Prelude Params Spinlock Kalloc Vm Sched Sleeplock Bio Log Fs Umem Console Pipe Kern Path File Proc Exec Sysfile.
Local Open Scope kernel_scope.

(** * sysproc.c *)

Section Syscall.
Variables kend trampoline forkret_addr : Z.

Definition sys_exit : M kern Z :=
  n <- um (argint 0) ;;
  exit kend n ;;
  ret 0.

Definition sys_getpid : M kern Z := p <- kcurproc ;; ret (p_pid p).

Definition sys_fork : M kern Z := fork kend trampoline forkret_addr.

Definition sys_wait : M kern Z :=
  p <- um (argaddr 0) ;;
  wait kend p.

(** [int addr]: the old size is cut to 32 bits. *)
Definition sys_sbrk : M kern Z :=
  n <- um (argint 0) ;;
  p <- kcurproc ;;
  let addr := s32 (p_sz p) in
  r <- growproc kend n ;;
  if r <? 0 then ret (-1) else ret addr.

(** [ticks - ticks0 < n] compares unsigned integers. *)
Definition sys_sleep_step (ticks0 n : Z) (_ : unit) : M kern (unit + Z) :=
  ticks <- gets k_ticks ;;
  if u32 (ticks - ticks0) <? u32 n then
    p <- kcurproc ;;
    if nz (p_killed p) then
      release tickslock ;;
      ret (inr (-1))
    else
      sleep KTicks tickslock ;;
      ret (inl tt)
  else
    release tickslock ;;
    ret (inr 0).

Definition sys_sleep : M kern Z :=
  n <- um (argint 0) ;;
  acquire tickslock ;;
  ticks0 <- gets k_ticks ;;
  loop (sys_sleep_step ticks0 n) tt.

Definition sys_kill : M kern Z :=
  pid <- um (argint 0) ;;
  kill pid.

Definition sys_uptime : M kern Z :=
  acquire tickslock ;;
  xticks <- gets k_ticks ;;
  release tickslock ;;
  ret xticks.

(** * syscall.c *)

(** [syscalls[num]] *)
Definition syscalls (num : Z) : option (M kern Z) :=
  match num with
  | 1 => Some sys_fork
  | 2 => Some sys_exit
  | 3 => Some sys_wait
  | 4 => Some (sys_pipe kend)
  | 5 => Some sys_read
  | 6 => Some sys_kill
  | 7 => Some (sys_exec kend trampoline)
  | 8 => Some sys_fstat
  | 9 => Some sys_chdir
  | 10 => Some sys_dup
  | 11 => Some sys_getpid
  | 12 => Some sys_sbrk
  | 13 => Some sys_sleep
  | 14 => Some sys_uptime
  | 15 => Some (sys_open kend)
  | 16 => Some sys_write
  | 17 => Some sys_mknod
  | 18 => Some sys_unlink
  | 19 => Some sys_link
  | 20 => Some sys_mkdir
  | 21 => Some (sys_close kend)
  | 22 => Some sys_mmap
  | 23 => Some (sys_munmap kend)
  | _ => None
  end.

Definition syscall : M kern unit :=
  p <- kcurproc ;;
  a7 <- um (tf_get (p_trapframe p) TF_A7) ;;
  let num := s32 a7 in
  match syscalls num with
  | Some f =>
      r <- f ;;
      um (tf_set (p_trapframe p) TF_A0 (u64 r))
  | None =>
      kprintf "%d %s: unknown sys call %d
" [AInt (p_pid p); AStr (Some (p_name p)); AInt num] ;;
      um (tf_set (p_trapframe p) TF_A0 (u64 (-1)))
  end.
End Syscall.
