(* ===== verification/Trap.v ===== *)
(** Traps: [src/kernel/trap.c] with the page faults of mapped files, the
    interrupt controller of [src/kernel/plic.c], and [forkret] of
    [src/kernel/proc.c].

    The addresses of code ([usertrap], [kernelvec], the trampoline's [uservec]
    and [userret]) come from the linker. [usertrapret] ends in a jump to the
    trampoline: its result is the two arguments of [userret]. *)

From S2P Require Import Prelude Params Spinlock Kalloc Vm Sched Sleeplock Bio Log Fs Umem Console Pipe Virtio Kern Path File Proc Exec Sysfile Syscall.
Local Open Scope kernel_scope.

#[export] Instance vst_swtch : HasSwtch vst := swtch_stop.

(** * Registers *)

Definition SSTATUS_SPP : Z := 256.
Definition SSTATUS_SPIE : Z := 32.
Definition SSTATUS_SIE : Z := 2.
Definition SATP_SV39 : Z := Z.shiftl 8 60.
Definition MAKE_SATP (pagetable : Z) : Z := Z.lor SATP_SV39 (Z.shiftr pagetable 12).

Definition r_sstatus : M kern Z :=
  c <- getcsr ;;
  i <- intr_get ;;
  ret (Z.lor (Z.land (cs_sstatus c) (Z.lnot SSTATUS_SIE)) (if i : bool then SSTATUS_SIE else 0)).
Definition w_sstatus (x : Z) : M kern unit :=
  updcsr (set_csstatus x) ;;
  c <- mycpu ;;
  set_mycpu (set_sie (nz (Z.land x SSTATUS_SIE)) c).

(** * plic.c *)

Definition PLIC_SENABLE (hart : Z) : Z := PLIC + 8320 + hart * 256.
Definition PLIC_SPRIORITY (hart : Z) : Z := PLIC + 2101248 + hart * 8192.
Definition PLIC_SCLAIM (hart : Z) : Z := PLIC + 2101252 + hart * 8192.

Definition plic_write (r x : Z) : M kern unit := updcsr (fun c => set_cplic (cs_plic c ++ [(r, u32 x)]) c).

Definition plicinit : M kern unit :=
  plic_write (PLIC + UART0_IRQ * 4) 1 ;;
  plic_write (PLIC + VIRTIO0_IRQ * 4) 1.

Definition plicinithart : M kern unit :=
  hart <- cpuid ;;
  plic_write (PLIC_SENABLE hart) (Z.lor (Z.shiftl 1 UART0_IRQ) (Z.shiftl 1 VIRTIO0_IRQ)) ;;
  plic_write (PLIC_SPRIORITY hart) 0.

(** Reading the claim register gives the next pending interrupt, 0 if none. *)
Definition plic_claim : M kern Z :=
  c <- getcsr ;;
  match cs_irq c with
  | [] => ret 0
  | irq :: rest => updcsr (set_cirq rest) ;; ret (s32 irq)
  end.

Definition plic_complete (irq : Z) : M kern unit :=
  hart <- cpuid ;;
  plic_write (PLIC_SCLAIM hart) irq.

(** * Interrupts *)

Definition trapinit : M kern unit := initlock tickslock "time".

Definition clockintr : M kern unit :=
  acquire tickslock ;;
  modify (fun k => set_kticks (u32 (k_ticks k + 1)) k) ;;
  wakeup KTicks ;;
  release tickslock.

Definition devintr : M kern Z :=
  c <- getcsr ;;
  let scause := cs_scause c in
  if nz (Z.land scause (2 ^ 63)) && (Z.land scause 255 =? 9) then
    irq <- plic_claim ;;
    (if irq =? UART0_IRQ then term uartintr
     else if irq =? VIRTIO0_IRQ then zoom vstL virtio_disk_intr
     else when (nz irq) (kprintf "unexpected interrupt irq=%d
" [AInt irq])) ;;
    when (nz irq) (plic_complete irq) ;;
    ret 1
  else if scause =? 2 ^ 63 + 1 then
    id <- cpuid ;;
    when (id =? 0) clockintr ;;
    updcsr (fun c => set_csip (Z.land (cs_sip c) (Z.lnot 2)) c) ;;
    ret 2
  else ret 0.

(** * Traps *)

Section Trap.
Variables kend trampoline forkret_addr kernelvec uservec userret usertrap_addr : Z.

Definition trapinithart : M kern unit := updcsr (set_cstvec kernelvec).

Definition usertrapret : M kern (Z * Z) :=
  p <- kcurproc ;;
  intr_off ;;
  updcsr (set_cstvec (u64 (TRAMPOLINE + (uservec - trampoline)))) ;;
  c <- getcsr ;;
  um (tf_set (p_trapframe p) TF_KERNEL_SATP (cs_satp c)) ;;
  um (tf_set (p_trapframe p) TF_KERNEL_SP (u64 (p_kstack p + PGSIZE))) ;;
  um (tf_set (p_trapframe p) TF_KERNEL_TRAP usertrap_addr) ;;
  tp <- cpuid ;;
  um (tf_set (p_trapframe p) TF_KERNEL_HARTID tp) ;;
  x <- r_sstatus ;;
  let x := Z.land x (Z.lnot SSTATUS_SPP) in
  let x := Z.lor x SSTATUS_SPIE in
  w_sstatus x ;;
  epc <- um (tf_get (p_trapframe p) TF_EPC) ;;
  updcsr (set_csepc epc) ;;
  ret (TRAPFRAME, MAKE_SATP (p_pagetable p)).

Definition setkilled (p : fin NPROC) : M kern unit := updp p (set_pkilled 1).

(** The permissions of the pages of a region. *)
Definition vma_perm (prot : Z) : Z :=
  let flag := PTE_U in
  let flag := if nz (Z.land prot PROT_READ) then Z.lor flag PTE_R else flag in
  if nz (Z.land prot PROT_WRITE) then Z.lor flag PTE_W else flag.

(** A fault at [va] in the region [v]: true for [break]. *)
Definition mmap_fault (p : fin NPROC) (v : vma) (va : Z) : M kern bool :=
  mem <- kvm kalloc ;;
  if mem =? 0 then
    setkilled p ;;
    ret false
  else
    kvm (memsetM mem 0 PGSIZE) ;;
    match vm_f v with
    | None => fault "usertrap: null file"
    | Some f =>
        x <- getf f ;;
        fs (ilock (f_ip x)) ;;
        match f_ip x with
        | None => fault "readi: null inode"
        | Some ip =>
            readi ip (Phys mem) (u32 (va - vm_addr v)) PGSIZE ;;
            fs (iunlock (Some ip)) ;;
            pr <- getp p ;;
            r <- kvm (mappages (p_pagetable pr) (PGROUNDDOWN va) PGSIZE mem (vma_perm (vm_prot v))) ;;
            when (nz r)
              (kvm (kfree kend mem) ;;
               setkilled p) ;;
            ret true
        end
    end.

Definition vma_hit (v : vma) (va : Z) : bool :=
  (vm_valid v =? 1) && (vm_addr v <=? va) && (va <? u64 (vm_addr v + vm_len v)).

(** [scause] 13 or 15 *)
Definition pagefault (p : fin NPROC) (va : Z) : M kern unit :=
  pr <- getp p ;;
  sp <- um (tf_get (p_trapframe pr) TF_SP) ;;
  when ((p_sz pr <=? va) || (va <? sp)) (setkilled p) ;;
  forM_find (indices 16) (fun i =>
    pr <- getp p ;;
    let v := p_vma pr !!! i in
    if vma_hit v va then
      b <- mmap_fault p v va ;;
      ret (if b : bool then Some tt else None)
    else ret None) ;;
  ret tt.

(** The cause of the trap is handled: [which_dev]. *)
Definition usertrap_cause (p : fin NPROC) : M kern Z :=
  c <- getcsr ;;
  if cs_scause c =? 8 then
    pr <- getp p ;;
    when (nz (p_killed pr)) (exit kend (-1)) ;;
    epc <- um (tf_get (p_trapframe pr) TF_EPC) ;;
    um (tf_set (p_trapframe pr) TF_EPC (u64 (epc + 4))) ;;
    intr_on ;;
    syscall kend trampoline forkret_addr ;;
    ret 0
  else
    which_dev <- devintr ;;
    if nz which_dev then ret which_dev
    else if (cs_scause c =? 13) || (cs_scause c =? 15) then
      pagefault p (cs_stval c) ;;
      ret 0
    else
      pr <- getp p ;;
      kprintf "usertrap(): unexpected scause %p pid=%d
" [APtr (cs_scause c); AInt (p_pid pr)] ;;
      kprintf "            sepc=%p stval=%p
" [APtr (cs_sepc c); APtr (cs_stval c)] ;;
      setkilled p ;;
      ret 0.

Definition usertrap : M kern (Z * Z) :=
  s <- r_sstatus ;;
  if nz (Z.land s SSTATUS_SPP) then panic "usertrap: not from user mode" else
  updcsr (set_cstvec kernelvec) ;;
  p <- myprocp ;;
  pr <- getp p ;;
  c <- getcsr ;;
  um (tf_set (p_trapframe pr) TF_EPC (cs_sepc c)) ;;
  which_dev <- usertrap_cause p ;;
  pr <- getp p ;;
  when (nz (p_killed pr)) (exit kend (-1)) ;;
  when (which_dev =? 2) yield ;;
  usertrapret.

Definition kerneltrap : M kern unit :=
  c <- getcsr ;;
  sstatus <- r_sstatus ;;
  if Z.land sstatus SSTATUS_SPP =? 0 then panic "kerneltrap: not from supervisor mode" else
  i <- intr_get ;;
  if i : bool then panic "kerneltrap: interrupts enabled" else
  which_dev <- devintr ;;
  if which_dev =? 0 then
    kprintf "scause %p
" [APtr (cs_scause c)] ;;
    kprintf "sepc=%p stval=%p
" [APtr (cs_sepc c); APtr (cs_stval c)] ;;
    panic "kerneltrap"
  else
    when (which_dev =? 2)
      (me <- myproc ;;
       match me with
       | None => ret tt
       | Some _ =>
           pr <- kcurproc ;;
           when (bool_decide (p_state pr = RUNNING)) yield
       end) ;;
    updcsr (set_csepc (cs_sepc c)) ;;
    w_sstatus sstatus.

Definition forkret : M kern (Z * Z) :=
  p <- myprocp ;;
  release (plockL p) ;;
  first <- gets k_first ;;
  when (nz first)
    (modify (set_kfirst 0) ;;
     fs (fsinit ROOTDEV)) ;;
  usertrapret.
End Trap.
