(* ===== verification/Mmap.v ===== *)
(** Memory-mapped files: [sys_mmap] and [sys_munmap] of [src/kernel/sysfile.c], and
    the page faults that [usertrap] of [src/kernel/trap.c] serves for the regions. *)

From stdpp Require Import gmap.
From S2P Require Import Prelude Params Spinlock Cstring Kalloc Vm PageTable Uvm UvmAlloc AddressSpace Sched Sleeplock Bio Cache Log Journal Crash Txn Fs.
From S2P Require Import Blocks Inodes Umem Console Kern Path Contents Names Namei File Proc Sysfile Trap.
Local Open Scope kernel_scope.

(** * The process and the files within the kernel *)

Definition kp (c : cpu) (P : vec proc NPROC) (F : vec file NFILE) (k : kern) : kern := set_kfile F (put procsL P (put cpuL c k)).

Lemma kp_self k : kp (view cpuL k) (view procsL k) (k_file k) k = k.
Proof. by destruct k as [[[[? [] ? ? ?] ?] ? ? ?]]. Qed.

Section Runs.
Context (me : fin NPROC).
Implicit Types (c : cpu) (P : vec proc NPROC) (F : vec file NFILE) (k : kern).

Lemma myprocp_kp c P F k : cpu_ok c -> c_proc c = Some me -> myprocp (kp c P F k) = Ok me (kp (settle c) P F k).
Proof.
  intros Hc Hr. unfold myprocp. erewrite bind_ok by (eapply myproc_run; exact Hc). change (view cpuL (kp c P F k)) with c. by rewrite Hr.
Qed.

(** The value of the [n]th argument of the system call. *)
Definition argument (m : memory) (pr : proc) (n : Z) : Z := load64 m (p_trapframe pr + (TF_A0 + 8 * n)).

Lemma argraw_kp c P F k n :
  cpu_ok c -> c_proc c = Some me -> 0 <= n <= 5 ->
  um (argraw n) (kp c P F k) = Ok (argument (k_mem k) (P !!! me) n) (kp (settle c) P F k).
Proof.
  intros Hc Hr Hn. unfold um, zoom, argraw, curproc. rewrite bind_assoc. unfold myprocp. rewrite bind_assoc.
  erewrite bind_ok by (eapply myproc_run; exact Hc). change (view cpuL (view ustL (kp c P F k))) with c. rewrite Hr.
  destruct (Z.leb_spec 0 n), (Z.leb_spec n 5); [|lia..]. done.
Qed.
Lemma argint_kp c P F k n :
  cpu_ok c -> c_proc c = Some me -> 0 <= n <= 5 ->
  um (argint n) (kp c P F k) = Ok (s32 (argument (k_mem k) (P !!! me) n)) (kp (settle c) P F k).
Proof.
  intros Hc Hr Hn. exact (zoom_map ustL (argraw n) s32 _ _ _ (argraw_kp c P F k n Hc Hr Hn)).
Qed.

Definition more_ref (f : filep) F : vec file NFILE := vinsert f (set_fref (s32 (f_ref (F !!! f) + 1)) (F !!! f)) F.
Lemma filedup_kp c P F k f :
  cpu_ok c -> idle (k_ftlock k) -> 1 <= f_ref (F !!! f) -> filedup f (kp c P F k) = Ok f (kp (settle c) P (more_ref f F) k).
Proof.
  intros Hc [Hw Ho] Hr. unfold filedup. erewrite bind_ok by (apply (acquire_run ftable_lock); exact Hw).
  erewrite bind_ok by done. change (k_file _) with F. destruct (Z.ltb_spec (f_ref (F !!! f)) 1); [lia|].
  erewrite bind_ok by done. erewrite bind_ok.
  2:{ apply (release_run ftable_lock); [apply holding_taken|done|by eapply push_noff]. }
  unfold ret. cbn. rewrite pop_push, freed_taken by done. by destruct k.
Qed.

(** The first region that is not in use. *)
Definition free_vma (vs : vec vma 16) : option vmap := hd_error (filter (fun i => vm_valid (vs !!! i) = 0) (indices 16)).

Definition mapped (i : vmap) (x : vma) (p : proc) : proc := upd_vma i (fun _ => x) p.
Lemma find_vma_kp c P F k (x : proc -> vma) l :
  forM_find l (fun i =>
    pr <- getp me ;;
    if vm_valid (p_vma pr !!! i) =? 0 then updp me (upd_vma i (fun _ => x pr)) ;; ret (Some i) else ret None) (kp c P F k) =
  match hd_error (filter (fun i => vm_valid (p_vma (P !!! me) !!! i) = 0) l) with
  | Some i => Ok (Some i) (kp c (vinsert me (mapped i (x (P !!! me)) (P !!! me)) P) F k)
  | None => Ok None (kp c P F k)
  end.
Proof.
  induction l as [|i l IH]; [done|]. cbn [forM_find]. rewrite bind_assoc. erewrite bind_ok by done.
  change (view (procL me) (kp c P F k)) with (P !!! me). destruct (Z.eqb_spec (vm_valid (p_vma (P !!! me) !!! i)) 0) as [E|E].
  - rewrite filter_cons_True by done. done.
  - rewrite filter_cons_False by done. exact IH.
Qed.
End Runs.

(** * [mmap] *)

(** The regions in use lie below the end of the process's memory, apart from each other. *)
Record regions_ok (pr : proc) : Prop := {
  rg_size : 0 <= p_sz pr < 2 ^ 64;
  rg_in i : vm_valid (p_vma pr !!! i) <> 0 ->
    0 <= vm_addr (p_vma pr !!! i) /\ 0 <= vm_len (p_vma pr !!! i) /\ vm_addr (p_vma pr !!! i) + vm_len (p_vma pr !!! i) <= p_sz pr;
  rg_apart i j : i <> j -> vm_valid (p_vma pr !!! i) <> 0 -> vm_valid (p_vma pr !!! j) <> 0 ->
    vm_addr (p_vma pr !!! i) + vm_len (p_vma pr !!! i) <= vm_addr (p_vma pr !!! j) \/
    vm_addr (p_vma pr !!! j) + vm_len (p_vma pr !!! j) <= vm_addr (p_vma pr !!! i);
}.

(** The process with a new region at its end. *)
Definition with_region (i : vmap) (len prot flag fd : Z) (f : filep) (pr : proc) : proc :=
  set_psz (u64 (p_sz pr + len)) (mapped i (Vma (p_sz pr) len prot flag (Some f) 0 fd 1) pr).

Lemma free_vma_spec vs i : free_vma vs = Some i -> vm_valid (vs !!! i) = 0.
Proof.
  unfold free_vma. destruct (filter _ (indices 16)) as [|j l] eqn:E; [done|]. intros [= ->].
  assert (i ∈ filter (fun i => vm_valid (vs !!! i) = 0) (indices 16)) as Hi by (rewrite E; left).
  by apply list_elem_of_filter in Hi as [].
Qed.
Lemma with_region_ok i len prot flag fd f pr :
  regions_ok pr -> 0 <= len -> p_sz pr + len < 2 ^ 64 -> regions_ok (with_region i len prot flag fd f pr).
Proof.
  intros [Hsz Hin Hap] Hlen Hmax. unfold with_region. rewrite u64_small by lia.
  split; [cbn; lia|intros j|intros j j' Hne]; cbn; rewrite !vlookup_vinsert; repeat case_decide; subst; cbn; try done; try lia; intros Hj.
  - specialize (Hin j Hj). lia.
  - intros Hj'. specialize (Hin j' Hj'). lia.
  - intros _. specialize (Hin j Hj). lia.
  - intros Hj'. by apply Hap.
Qed.

(** C13: [mmap]. A descriptor past the table, and a shared writable mapping of a file
    that is not writable, give -1 and no change; a negative descriptor or one that is
    not open makes the kernel read outside of the table or at the null pointer.
    Otherwise the file has one more reference; with all sixteen regions in use
    the result is -1 (the reference stays); else the first free region
    is the new one, from the end of the process's memory, which grows by the length,
    with the permissions, flags and file asked for: its address is the result, nothing else changes, and
    the regions stay apart from each other and below the end. *)
Theorem sys_mmap_correct (k : kern) (me : fin NPROC) :
  let c := view cpuL k in let P := view procsL k in let F := k_file k in let pr := P !!! me in
  let arg n := s32 (argument (k_mem k) pr n) in
  let len := arg 1 in let prot := arg 2 in let flag := arg 3 in let fd := arg 4 in
  cpu_ok c -> c_proc c = Some me -> idle (k_ftlock k) ->
  if Z.of_nat NOFILE <=? fd then sys_mmap k = Ok (-1) (kp (settle c) P F k) else
  match fdp_of fd with
  | None => exists k', sys_mmap k = Stop (Fault "mmap: negative descriptor") k'
  | Some fd' =>
      match p_ofile pr !!! fd' with
      | None => exists k', sys_mmap k = Stop (Fault "mmap: null file") k'
      | Some f =>
          if (f_writable (F !!! f) =? 0) && nz (Z.land prot PROT_WRITE) && (Z.land flag MAP_PRIVATE =? 0)
          then sys_mmap k = Ok (-1) (kp (settle c) P F k)
          else 1 <= f_ref (F !!! f) ->
            match free_vma (p_vma pr) with
            | None => sys_mmap k = Ok (-1) (kp (settle c) P (more_ref f F) k)
            | Some i =>
                let pr' := with_region i len prot flag fd f pr in
                sys_mmap k = Ok (p_sz pr) (kp (settle c) (vinsert me pr' P) (more_ref f F) k) /\
                (regions_ok pr -> 0 <= len -> p_sz pr + len < 2 ^ 64 -> regions_ok pr')
            end
      end
  end.
Proof.
  cbv zeta. intros Hc Hr Hi. set (c := view cpuL k) in *. set (P := view procsL k) in *. set (F := k_file k) in *. set (pr := P !!! me).
  assert (cpu_ok (settle c) /\ c_proc (settle c) = Some me) as [Hc' Hr'] by (split; [by apply settle_ok|by rewrite settle_proc]).
  assert (sys_mmap k = sys_mmap (kp c P F k)) as -> by (f_equal; symmetry; apply kp_self).
  unfold sys_mmap. erewrite bind_ok by (by apply myprocp_kp).
  do 4 (erewrite bind_ok by (apply (argint_kp me); [done|done|lia]); rewrite ?settle_idem). fold pr.
  destruct (Z.of_nat NOFILE <=? _); [done|]. destruct (fdp_of _) as [fd'|]; [|by eexists].
  erewrite bind_ok by done. change (view (procL me) (kp (settle c) P F k)) with pr. destruct (p_ofile pr !!! fd') as [f|]; [|by eexists].
  erewrite bind_ok by done. change (k_file (kp (settle c) P F k)) with F. destruct (_ && _ && _); [done|]. intros Hf.
  erewrite bind_ok by (by apply filedup_kp). rewrite settle_idem. unfold free_vma.
  pose proof (fun x => find_vma_kp me (settle c) P (more_ref f F) k x (indices 16)) as Ef. fold pr in Ef.
  destruct (hd_error _) as [i|]; [|by erewrite bind_ok by apply Ef].
  split; [|by apply with_region_ok]. erewrite bind_ok by apply Ef. unfold bind, updp, modify, getp, gets, ret. cbn. rewrite !vlookup_insert, vinsert_twice. cbn.
  by rewrite vlookup_insert.
Qed.

(** A process that maps 5000 bytes of its open file. *)
Module Caller.
Definition mem : memory := store64 (store64 (store64 (store64 (fun _ => 0) 120 5000) 128 3) 136 1) 144 0.
Definition lk : spinlock := Spinlock 0 "lock" None.
Definition proc : proc :=
  Proc lk RUNNING None 0 0 1 None 0 8192 0 0 (Context 0 0 []) (vreplicate NOFILE (Some 0%fin)) None []
    (vreplicate 16 (Vma 0 0 0 0 None 0 0 0)).
Definition procs : vec Sched.proc NPROC := vreplicate NPROC proc.
Definition files : vec file NFILE := vreplicate NFILE (File FD_INODE 1 1 1 0 (Some 0%fin) 0 0).
Definition cpu : cpu := Cpu 0 false (Some 0%fin) 0 false.
Definition kernel (s : fss) : kern := kp cpu procs files (set_kmem mem lk 0 (Around.kernel s)).
Lemma caller_regions : regions_ok proc.
Proof. split; [cbn; lia|intros i|intros i j _]; unfold proc; cbn [p_vma]; rewrite !vlookup_replicate; done. Qed.
End Caller.

Lemma sys_mmap_correct_witness : exists k k', sys_mmap k = Ok 8192 k' /\
  regions_ok (with_region 0%fin 5000 3 1 0 0%fin Caller.proc).
Proof.
  destruct Volume.volume_open as [s _]. pose proof (sys_mmap_correct (Caller.kernel s) 0%fin) as Hm. cbv beta zeta in Hm.
  change (view procsL (Caller.kernel s) !!! 0%fin) with Caller.proc in Hm. change (k_mem (Caller.kernel s)) with Caller.mem in Hm.
  change (k_file (Caller.kernel s)) with Caller.files in Hm.
  replace (s32 (argument Caller.mem Caller.proc 1)) with 5000 in Hm by (by vm_compute).
  replace (s32 (argument Caller.mem Caller.proc 2)) with 3 in Hm by (by vm_compute).
  replace (s32 (argument Caller.mem Caller.proc 3)) with 1 in Hm by (by vm_compute).
  replace (s32 (argument Caller.mem Caller.proc 4)) with 0 in Hm by (by vm_compute).
  change (fdp_of 0) with (Some (0%fin : fdp)) in Hm. change (p_ofile Caller.proc !!! (0%fin : fdp)) with (Some (0%fin : filep)) in Hm.
  change (free_vma (p_vma Caller.proc)) with (Some (0%fin : vmap)) in Hm.
  destruct (Hm ltac:(by split) eq_refl ltac:(done) ltac:(done)) as [E Hok].
  exists (Caller.kernel s). eexists. exact (conj E (Hok Caller.caller_regions ltac:(lia) ltac:(done))).
Defined.

(** * Page faults *)

(** The kernel with a file system and an allocator. *)
Definition K (s : fss) (m : memory) (lk : spinlock) (fl : Z) (k : kern) : kern := set_kmem m lk fl (set_kfs s k).
Lemma K_self k : K (k_fs k) (k_mem k) (k_kmlock k) (k_freelist k) k = k.
Proof. by destruct k. Qed.
Definition on_cpu (c : cpu) (s : fss) : fss := fenv c (fptab s) (fs_itlock s) (fs_inode s) s.
Lemma wp_kvm {A} (m : M kmst A) Q s mem lk fl k :
  wp m (fun a km => Q a (K (on_cpu (km_cpu km) s) (km_mem km) (km_lock km) (km_freelist km) k)) (Km (fcpu s) mem lk fl) ->
  wp (kvm m) Q (K s mem lk fl k).
Proof. intros Hm. apply wp_zoom. exact Hm. Qed.

(** A byte of the file, zero past its end. *)
Definition file_byte (V : blocks) (d : inode) (x : Z) : Z := if x <? i_size d then u8 (fbyte V d x) else 0.

Lemma file_page m mem V d off i :
  0 <= i < PGSIZE -> 0 <= off -> 0 <= i_size d ->
  load8 (store_bytes (memset m mem 0 PGSIZE) mem (content V d off (read_len d off PGSIZE))) (mem + i) = file_byte V d (off + i).
Proof.
  intros Hi Hoff Hsz. unfold load8, file_byte, read_len.
  assert (forall n, length (content V d off n) = Z.to_nat n) as Hlen by (intros n; unfold content; by rewrite length_fmap, length_seqZ).
  destruct (Z.ltb_spec (i_size d) off) as [Hpast|Hin].
  - rewrite store_bytes_out by (rewrite Hlen; lia). rewrite memset_in by lia. destruct (Z.ltb_spec (off + i) (i_size d)); [lia|done].
  - destruct (Z.ltb_spec (off + i) (i_size d)).
    + rewrite store_bytes_in by (rewrite Hlen; lia). rewrite (list_lookup_total_correct _ _ (fbyte V d (off + i))).
      * unfold u8. by rewrite Z.mod_mod by done.
      * unfold content. rewrite list_lookup_fmap, lookup_seqZ_lt by lia. cbn. do 2 f_equal. lia.
    + rewrite store_bytes_out by (rewrite Hlen; lia). by rewrite memset_in by lia.
Qed.

Definition same_refs (v v' : vec inode NINODE) : Prop :=
  forall jp, i_ref (v' !!! jp) = i_ref (v !!! jp) /\ i_dev (v' !!! jp) = i_dev (v !!! jp) /\ i_inum (v' !!! jp) = i_inum (v !!! jp).

Section Fault.
Context (e : env) (La : layout e) (V : blocks) (Hblk : forall b, blk (V b)) (L : list Z) (HL : (length L < NBUF)%nat).
Implicit Types (s : fss) (v : vec inode NINODE) (k : kern).

Lemma op_on_cpu s H v c : op e s H V L v -> cpu_ok c -> c_proc c = Some (e_me e) -> op e (on_cpu c s) H V L v.
Proof.
  intros Hop Hc Hp. destruct (op_quiet _ _ _ _ _ _ Hop) as [_ _ H3 H4 H5]. pose proof (op_inodes _ _ _ _ _ _ Hop) as <-.
  apply (op_fenv e s H V L _ _ _ _ _ Hop); [by split|apply Hop].
Qed.

(** A mapped file read into a page. *)
Lemma read_mapped {A} s m lk fl k v ip n mem off (tail : M kern A) Q :
  op e s ∅ V L v -> coherent e V None v -> is_for ROOTDEV n (v !!! ip) -> i_type (node e V n) <> 0 -> file_ok e V (node e V n) ->
  0 <= mem -> mem + PGSIZE < 2 ^ 64 -> 0 <= off -> off + PGSIZE < 2 ^ 32 ->
  (forall s' v', op e s' ∅ V L v' -> coherent e V None v' -> same_refs v v' ->
     wp tail Q (K s' (store_bytes m mem (content V (node e V n) off (read_len (node e V n) off PGSIZE))) lk fl k)) ->
  wp (fs (ilock (Some ip)) ;; readi ip (Phys mem) off PGSIZE ;; fs (iunlock (Some ip)) ;; tail) Q (K s m lk fl k).
Proof.
  intros Hop Hco Hfor Hty Hf Hm1 Hm2 Ho1 Ho2 Htail. apply wp_bind, wp_zoom. eapply wp_mono; [by apply (ilock_live e La s V L v ip n)|].
  cbv beta. intros [] s1 (i1 & Hop1 & Hco1 & Hr1 & Hfor1 & Hdi).
  assert (file_ok e V i1) as Hf1. { destruct Hfor1 as (_ & ? & _). by apply (same_file e V i1 (node e V n)). }
  assert (i_size i1 = i_size (node e V n) /\ i_addrs i1 = i_addrs (node e V n)) as [Es Ea] by (split; [exact (f_equal di_size Hdi)|exact (f_equal di_addrs Hdi)]).
  apply wp_bind. eapply wp_mono; [apply (readi_spec e (K s1 m lk fl k) V L _ ip (Phys mem) off PGSIZE La Hop1 Hblk);
    [by rewrite vlookup_insert|done|by split|unfold PGSIZE in *; lia|done]|].
  cbv beta. rewrite vlookup_insert. destruct (Z.ltb_spec (off + PGSIZE) (2 ^ 32)); [|lia]. intros r k2 (_ & Hop2 & s2 & ->).
  assert (read_len i1 off PGSIZE = read_len (node e V n) off PGSIZE) as -> by (unfold read_len; by rewrite Es).
  assert (content V i1 off (read_len (node e V n) off PGSIZE) = content V (node e V n) off (read_len (node e V n) off PGSIZE)) as ->.
  { unfold content. apply list_fmap_ext. intros _ x _. unfold fbyte, addr_at. by rewrite Ea. }
  apply wp_bind. apply wp_zoom. eapply wp_mono; [apply (iunlock_live e s2 V L (vinsert ip i1 v) ip Hop2 Hco1); rewrite vlookup_insert; apply Hfor1|].
  cbv beta. intros [] s3 [Hop3 Hco3]. apply (Htail s3 _ Hop3 Hco3).
  destruct Hfor as (_ & Hd & Hn), Hfor1 as (_ & Hd1 & Hn1).
  intros jp. rewrite !vlookup_vinsert. repeat case_decide; subst; try done. split_and!; cbn; congruence.
Qed.

(** The process's entry changed. *)
Definition set_eproc (x : proc) : env := Env (e_me e) x (e_start e) (e_size e) (e_disk e) (e_sb e) (e_active e).
Definition set_me (x : proc) s : fss :=
  fenv (fcpu s) (put pt_procL (vinsert (e_me e) x (pt_proc (fptab s))) (fptab s)) (fs_itlock s) (fs_inode s) s.
Lemma op_set_me s H v x :
  op e s H V L v -> p_pid x = p_pid (e_proc e) -> idle (p_lock x) -> op (set_eproc x) (set_me x s) H V L v.
Proof.
  intros [[Hj1 Hj2 Hj3] Hinj Htx Hi Hc Hl He Hcl Hsb Hit Hin] Hp Hx. split; try done. split; [|done..].
  eapply cache_proc; [exact Hj1|exact Hp|]. destruct (ca_quiet _ _ _ _ _ _ Hj1) as [H1 H2 H3 H4 H5]. split; try done.
  - apply vlookup_insert.
  - intros i. cbn. rewrite vlookup_vinsert. by case_decide; subst.
Qed.
End Fault.

Section Mapping.
Context (kend : Z) (Hkend : KERNBASE <= kend).
Context (e : env) (La : layout e) (V : blocks) (Hblk : forall b, blk (V b)) (L : list Z) (HL : (length L < NBUF)%nat).
Implicit Types (s : fss) (v : vec inode NINODE) (k : kern).
Abbreviation root := (p_pagetable (e_proc e)).

(** The allocator of the kernel; on any CPU. *)
Definition space_of (c : cpu) k : kmst := Km c (k_mem k) (k_kmlock k) (k_freelist k).
(** The page that a fault at an offset of the file is to have. *)
Definition page_at (d : inode) (off va : Z) : option Z := Some (file_byte V d (off + va mod PGSIZE)).
Definition page_flags (x : vma) (va : Z) : Z := Z.lor (vma_perm (vm_prot x)) PTE_V.
Definition grown_at (d : inode) (x : vma) (va : Z) k T l D (hi : Z) k' T' l' D' : Prop :=
  exists c, grown kend (page_at d (va - vm_addr x)) (page_flags x) (space_of c k) root T l D (PGROUNDDOWN va) hi (view kmL k') T' l' D'.

Lemma vma_perm_range prot : 0 <= vma_perm prot < 1024 /\ nz (Z.land (vma_perm prot) PTE_U) = true /\ Z.lor (vma_perm prot) PTE_V <> PTE_V.
Proof. unfold vma_perm. destruct (nz (Z.land prot PROT_READ)), (nz (Z.land prot PROT_WRITE)); by vm_compute. Qed.

(** What is left after the fault: the page, or a process to be killed for want of memory. *)
Definition fault_post (d : inode) (x : vma) (va : Z) k v T l D (r : bool) k' : Prop :=
  exists v', coherent e V None v' /\ same_refs v v' /\ (exists s' m' lk' fl', k' = K s' m' lk' fl' k) /\
  (r = true /\ op e (k_fs k') ∅ V L v' /\
     (exists p T' l', grown_at d x va k T l D (PGROUNDDOWN va + PGSIZE) k' T' l' (<[PGROUNDDOWN va := p]> D)) \/
   op (set_eproc e (set_pkilled 1 (e_proc e))) (k_fs k') ∅ V L v' /\
     exists T' l', grown_at d x va k T l D (PGROUNDDOWN va) k' T' l' D /\ (r = false /\ l' = [] \/ r = true /\ length l' = 1%nat)).

Lemma setkilled_spec s m lk fl k v (Q : unit -> kern -> Prop) :
  op e s ∅ V L v -> (forall s', op (set_eproc e (set_pkilled 1 (e_proc e))) s' ∅ V L v -> fcpu s' = fcpu s -> Q tt (K s' m lk fl k)) ->
  wp (setkilled (e_me e)) Q (K s m lk fl k).
Proof.
  intros Hop HQ. destruct (op_quiet _ _ _ _ _ _ Hop) as [_ _ H3 _ H5]. apply wp_modify.
  pose proof (op_set_me e V L s ∅ v (set_pkilled 1 (e_proc e)) Hop eq_refl) as Hop'. specialize (H5 (e_me e)). rewrite H3 in H5.
  specialize (HQ _ (Hop' H5) eq_refl). unfold set_me in HQ. rewrite <- H3 in HQ. exact HQ.
Qed.

(** The file system on the CPU that the allocator has left. *)
Lemma op_uspace km s v T l D :
  op e s ∅ V L v -> uspace kend km root T l D -> csame (fcpu s) (km_cpu km) -> op e (on_cpu (km_cpu km) s) ∅ V L v.
Proof.
  intros Hop Hu Hcs. apply op_on_cpu; [done|exact (kmi_cpu _ _ _ (vmi_km _ _ _ _ _ (us_vm _ _ _ _ _ _ Hu)))|].
  destruct (op_quiet _ _ _ _ _ _ Hop) as [_ Hr _ _ _]. by rewrite <- settle_proc, Hcs, settle_proc.
Qed.

(** The page is filled: it is mapped, or given back. *)
Lemma map_filled k v0 v s m2 m3 lk fl x va d T p l D :
  op e s ∅ V L v -> coherent e V None v -> same_refs v0 v -> 0 <= va < TRAPFRAME -> D !! PGROUNDDOWN va = None ->
  uspace kend (view kmL k) root T (p :: l) D -> uspace kend (Km (fcpu s) m2 lk fl) root T l D -> fresh kend T l D p ->
  (forall va, leaf T m2 va = leaf T (k_mem k) va) -> same_frames D (view kmL k) (Km (fcpu s) m2 lk fl) ->
  outside T (p :: l) D (view kmL k) (Km (fcpu s) m2 lk fl) -> (forall y, ~ in_page p y -> m3 y = m2 y) ->
  (forall i, 0 <= i < PGSIZE -> load8 m3 (p + i) = file_byte V d (va - vm_addr x + i)) ->
  wp (pr <- getp (e_me e) ;;
      r <- kvm (mappages (p_pagetable pr) (PGROUNDDOWN va) PGSIZE p (vma_perm (vm_prot x))) ;;
      when (nz r) (kvm (kfree kend p) ;; setkilled (e_me e)) ;; ret true)
    (fault_post d x va k v0 T (p :: l) D) (K s m3 lk fl k).
Proof.
  intros Hop Hco Hsr Hva Hda Hu Hu2 Hfr Hl2 Hs2 Ho2 Hm3 Hby. pose proof (op_quiet _ _ _ _ _ _ Hop) as [Hc Hr Hpr _ _].
  apply wp_bind, wp_gets. change (view (procL (e_me e)) (K s m3 lk fl k)) with (pt_proc (fptab s) !!! e_me e). rewrite Hpr.
  destruct (vma_perm_range (vm_prot x)) as (Hp1 & Hp2 & Hp3). pose proof (uspace_cpu kend _ root _ _ _ (fcpu s) Hu Hc) as Hu0.
  pose proof (PGROUNDDOWN_bounds va) as Hb. assert (aligned (PGROUNDDOWN va)) as Ha by apply PGROUNDDOWN_aligned.
  pose proof (PGROUNDDOWN_nonneg va ltac:(lia)). set (a := PGROUNDDOWN va) in *.
  pose proof (grown_refl kend (page_at d (va - vm_addr x)) (page_flags x) (space_of (fcpu s) k) root T (p :: l) D a Hu0) as Hg.
  apply wp_bind, wp_kvm. eapply wp_mono.
  { apply (fill_and_map kend Hkend (page_at d (va - vm_addr x)) (page_flags x) (space_of (fcpu s) k) root T (p :: l) D a a
      (space_of (fcpu s) k) T p l D (Km (fcpu s) m2 lk fl) m3); try done; try lia.
    intros va' _. rewrite Hp2. split; [|done]. unfold page_at. f_equal. symmetry. apply Hby, Z.mod_pos_bound. done. }
  cbv beta. intros r km (T' & l' & Hfr' & [(-> & Hg')|(-> & -> & Hu4 & Hc4 & Hs4 & Hp4 & Ho4 & Hl4)]).
  - cbn [nz Z.eqb negb when]. apply wp_bind, wp_ret, wp_ret. exists v.
    split_and!; [done|done|by eexists _, _, _, _|]. left. split; [done|]. split; [exact (op_uspace km s v _ _ _ Hop (gn_space _ _ _ _ _ _ _ _ _ _ _ _ _ _ Hg') (gn_cpu _ _ _ _ _ _ _ _ _ _ _ _ _ _ Hg'))|].
    exists p, T', l'. exists (fcpu s). by destruct km.
  - cbn [nz Z.eqb negb when]. apply wp_bind, wp_bind, wp_kvm. eapply wp_mono.
    { destruct km. by apply (unfilled kend Hkend (page_at d (va - vm_addr x)) (page_flags x) (space_of (fcpu s) k) root T (p :: l) D a a
        (space_of (fcpu s) k) T p l D _ T' []). }
    cbv beta. intros [] km2 Hg2. eapply (setkilled_spec _ _ _ _ _ v).
    { exact (op_uspace km2 s v _ _ _ Hop (gn_space _ _ _ _ _ _ _ _ _ _ _ _ _ _ Hg2) (gn_cpu _ _ _ _ _ _ _ _ _ _ _ _ _ _ Hg2)). }
    intros s' Hop' Ecpu. apply wp_ret. exists v. split_and!; [done|done|by eexists _, _, _, _|]. right. split; [done|].
    exists T', [p]. split; [|by right]. exists (fcpu s). destruct km2. cbn in *. rewrite Ecpu. exact Hg2.
Qed.

(** A region of a file, and an address in it that is not mapped. *)
Record faults_at k v (x : vma) (n va : Z) (D : gmap Z Z) : Prop := {
  fa_file : exists f ip, vm_f x = Some f /\ f_ip (k_file k !!! f) = Some ip /\ is_for ROOTDEV n (v !!! ip);
  fa_type : i_type (node e V n) <> 0;
  fa_ok : file_ok e V (node e V n);
  fa_range : 0 <= vm_addr x <= va /\ va < vm_addr x + vm_len x /\ vm_len x < 2 ^ 31;
  fa_user : va < TRAPFRAME;
  fa_new : D !! PGROUNDDOWN va = None;
}.

Lemma mmap_fault_spec k v x n va T l D :
  op e (k_fs k) ∅ V L v -> coherent e V None v -> uspace kend (view kmL k) root T l D -> faults_at k v x n va D ->
  wp (mmap_fault kend (e_me e) x va) (fault_post (node e V n) x va k v T l D) k.
Proof.
  intros Hop Hco Hu [(f & ip & Hf & Hip & Hfor) Hty Hok Hr Huser Hnew].
  cut (wp (mmap_fault kend (e_me e) x va) (fault_post (node e V n) x va k v T l D) (K (k_fs k) (k_mem k) (k_kmlock k) (k_freelist k) k)); [by rewrite K_self|].
  unfold mmap_fault. apply wp_bind, wp_kvm. eapply wp_mono; [apply (kalloc_uspace kend Hkend _ root T l D Hu)|].
  cbv beta. intros mem km (Hc & Hl2 & Hs2 & Ho2 & Hpost). destruct l as [|p l].
  - destruct Hpost as [-> Hu2]. cbn [Z.eqb]. apply wp_bind. eapply (setkilled_spec _ _ _ _ _ v); [by eapply (op_uspace km)|].
    intros s' Hop' Ecpu. apply wp_ret. exists v. split_and!; [done|by intros jp|by eexists _, _, _, _|]. right. split; [done|].
    exists T, []. split; [|by left]. exists (view cpuL k).
    eapply grown_keep; [apply grown_refl; exact Hu| | |done|done|done|done]; destruct km; cbn in *; rewrite Ecpu; done.
  - destruct Hpost as (-> & Hu2 & Hfr & Hm2). pose proof (page_ok_range kend Hkend p (proj1 Hfr)).
    pose proof (page_ok_pos kend Hkend p (proj1 Hfr)). assert (PGSIZE = 4096) as HP by done.
    destruct (Z.eqb_spec p 0); [lia|]. apply wp_bind, wp_kvm. apply wp_modify. rewrite Hf. apply wp_bind, wp_gets.
    change (k_file _) with (k_file k). rewrite Hip. cbn [km_cpu km_mem km_lock km_freelist set_mem].
    rewrite (u32_small (va - vm_addr x)) by lia. pose proof (op_uspace km _ _ _ _ _ Hop Hu2 Hc) as Hop2.
    apply (read_mapped e La V Hblk L HL _ _ _ _ k v ip n p (va - vm_addr x)); try done; try lia.
    intros s' v' Hop' Hco' Hsr. destruct (op_quiet _ _ _ _ _ _ Hop') as [Hc' _ _ _ _]. destruct km as [c m lk fl].
    cbn [km_cpu km_mem km_lock km_freelist] in *.
    apply (map_filled k v v' s' m _ lk fl x va (node e V n) T p l D Hop' Hco' Hsr); [lia|done|done| |done|done|done|done| |].
    + exact (uspace_cpu kend _ root _ _ _ _ Hu2 Hc').
    + intros y Hy. unfold in_page in Hy. rewrite store_bytes_out, memset_out; [done|lia|].
      unfold content. rewrite length_fmap, length_seqZ. unfold read_len. destruct (_ <? _); lia.
    + intros i Hi. apply file_page; [done|lia|apply Hok].
Qed.
End Mapping.

(** * [pagefault] *)

Lemma forM_find_skip {S X B} (f : X -> M S (option B)) (l1 l2 : list X) s :
  (forall x, x ∈ l1 -> f x s = Ok None s) -> forM_find (l1 ++ l2) f s = forM_find l2 f s.
Proof.
  induction l1 as [|x l1 IH]; intros Hf; [done|]. cbn [app forM_find]. erewrite bind_ok by (apply Hf; left). apply IH. intros y Hy. apply Hf. by right.
Qed.
Lemma forM_find_none {S X B} (f : X -> M S (option B)) (l : list X) s :
  (forall x, x ∈ l -> f x s = Ok None s) -> forM_find l f s = Ok None s.
Proof. intros Hf. rewrite <- (app_nil_r l). by rewrite forM_find_skip. Qed.

(** One region at most has an address. *)
Lemma one_hit pr i j va : regions_ok pr -> vma_hit (p_vma pr !!! i) va = true -> vma_hit (p_vma pr !!! j) va = true -> i = j.
Proof.
  intros [Hsz Hin Hap] Hi Hj. destruct (decide (i = j)) as [|Hne]; [done|]. unfold vma_hit in *.
  specialize (Hap i j Hne). pose proof (Hin i) as Hi'. pose proof (Hin j) as Hj'.
  destruct (Z.eqb_spec (vm_valid (p_vma pr !!! i)) 1) as [Ei|], (Z.eqb_spec (vm_valid (p_vma pr !!! j)) 1) as [Ej|]; try done.
  rewrite Ei in *. rewrite Ej in *. specialize (Hi' ltac:(done)). specialize (Hj' ltac:(done)). specialize (Hap ltac:(done) ltac:(done)).
  rewrite !u64_small in * by lia. lia.
Qed.

Section Find.
Context (kend : Z) (Hkend : KERNBASE <= kend).
Context (e : env) (La : layout e) (V : blocks) (Hblk : forall b, blk (V b)) (L : list Z) (HL : (length L < NBUF)%nat).
Implicit Types (s : fss) (v : vec inode NINODE) (k : kern).

Abbreviation look va := (fun i =>
    pr <- getp (e_me e) ;;
    let v := p_vma pr !!! i in
    if vma_hit v va then b <- mmap_fault kend (e_me e) v va ;; ret (if b : bool then Some tt else None)
    else ret None).

(** The other regions are passed over; also after the process has been killed. *)
Lemma look_others k pr va i (l : list vmap) :
  regions_ok pr -> vma_hit (p_vma pr !!! i) va = true -> i ∉ l -> p_vma (view (procL (e_me e)) k) = p_vma pr ->
  forall j, j ∈ l -> look va j k = Ok None k.
Proof.
  intros Hok Hi Hni Hpr j Hj. cbv beta. erewrite bind_ok by done. cbv zeta. rewrite Hpr. destruct (vma_hit (p_vma pr !!! j) va) eqn:E; [|done].
  by rewrite (one_hit pr i j va Hok Hi E) in Hni.
Qed.

Lemma find_region k v i n va T l D :
  op e (k_fs k) ∅ V L v -> coherent e V None v -> uspace kend (view kmL k) (p_pagetable (e_proc e)) T l D ->
  regions_ok (e_proc e) -> vma_hit (p_vma (e_proc e) !!! i) va = true -> faults_at e V k v (p_vma (e_proc e) !!! i) n va D ->
  wp (forM_find (indices 16) (look va)) (fun _ k' =>
    exists r, fault_post kend e V L (node e V n) (p_vma (e_proc e) !!! i) va k v T l D r k') k.
Proof.
  intros Hop Hco Hu Hok Hhit Hf. destruct (op_quiet _ _ _ _ _ _ Hop) as [_ _ Hpr _ _].
  destruct (list_elem_of_split _ _ (elem_of_indices i)) as (l1 & l2 & E). pose proof (NoDup_indices 16) as Hnd. rewrite E in Hnd |- *.
  apply NoDup_app in Hnd as (_ & Hn1 & Hn2). apply NoDup_cons in Hn2 as [Hn2 _].
  assert (i ∉ l1) as Hn1' by (intros Hi; apply (Hn1 i Hi); left).
  assert (p_vma (view (procL (e_me e)) k) = p_vma (e_proc e)) as Hv by exact (f_equal p_vma Hpr).
  unfold wp. rewrite forM_find_skip by (by apply (look_others k (e_proc e) va i l1)).
  change (wp (forM_find (i :: l2) (look va)) (fun _ k' =>
    exists r, fault_post kend e V L (node e V n) (p_vma (e_proc e) !!! i) va k v T l D r k') k).
  cbn [forM_find]. apply wp_bind, wp_bind, wp_gets. cbv zeta. rewrite Hv, Hhit. apply wp_bind.
  eapply wp_mono; [by apply (mmap_fault_spec kend Hkend e La V Hblk L HL k v _ n va T l D)|]. cbv beta.
  intros [|] k' Hpost; [apply wp_ret, wp_ret; by exists true|]. apply wp_ret.
  assert (p_vma (view (procL (e_me e)) k') = p_vma (e_proc e)) as Hv'.
  { destruct Hpost as (v' & _ & _ & _ & [(? & _)|(Hop' & _)]); [done|]. destruct (op_quiet _ _ _ _ _ _ Hop') as [_ _ Hpr' _ _].
    exact (f_equal p_vma Hpr'). }
  eapply wp_ok; [apply forM_find_none; by apply (look_others k' (e_proc e) va i l2)|]. by exists false.
Qed.
End Find.

(** C12: page faults in mapped files. A fault at an address of a region, between the
    stack pointer and the end of the memory, whose page is not mapped reads the file
    into a free page and maps it there: user code sees the bytes of the file from the
    fault's offset in the region on, zeros past its end, with the region's permissions;
    every other byte it sees, the pages of all others, the file system and the reference counts are as they
    were. (The page starts at the address rounded down, so the bytes are those of the
    addresses when the fault is at the start of a page.) When there is no page
    left for it or for the page tables, the process is marked as killed and its address space is as it
    was. *)
Theorem pagefault_correct kend e k V L v T l D i n va :
  let pr := e_proc e in let x := p_vma pr !!! i in let a := PGROUNDDOWN va in
  KERNBASE <= kend -> layout e -> (forall b, blk (V b)) -> (length L < NBUF)%nat ->
  op e (k_fs k) ∅ V L v -> coherent e V None v -> uspace kend (view kmL k) (p_pagetable pr) T l D ->
  regions_ok pr -> vm_valid x = 1 -> faults_at e V k v x n va D ->
  load64 (k_mem k) (p_trapframe pr + TF_SP) <= va < p_sz pr ->
  wp (pagefault kend (e_me e) va) (fun _ k' => exists v' T' l', coherent e V None v' /\ same_refs v v' /\
    (forall y, (forall p, pool T l D p -> ~ in_page p y) -> k_mem k' y = k_mem k y) /\
    (op e (k_fs k') ∅ V L v' /\
     (exists p, uspace kend (view kmL k') (p_pagetable pr) T' l' (<[a := p]> D) /\
        forall q, pool T' l' (<[a := p]> D) q <-> pool T l D q) /\
     PTE_FLAGS (leaf T' (k_mem k') a) = Z.lor (vma_perm (vm_prot x)) PTE_V /\
     (forall va', 0 <= va' < MAXVA -> ubyte T' (k_mem k') va' =
        if (a <=? va') && (va' <? a + PGSIZE) then Some (file_byte V (node e V n) (va - vm_addr x + va' mod PGSIZE))
        else ubyte T (k_mem k) va') \/
     op (set_eproc e (set_pkilled 1 pr)) (k_fs k') ∅ V L v' /\ (length l' <= 1)%nat /\
     uspace kend (view kmL k') (p_pagetable pr) T' l' D /\ (forall q, pool T' l' D q <-> pool T l D q) /\
     (forall va', 0 <= va' < MAXVA -> ubyte T' (k_mem k') va' = ubyte T (k_mem k) va'))) k.
Proof.
  cbv zeta. set (pr := e_proc e). set (x := p_vma pr !!! i). intros Hk La Hblk HL Hop Hco Hu Hok Hval Hf [Hsp Hsz].
  destruct (op_quiet _ _ _ _ _ _ Hop) as [_ _ Hpr _ _]. unfold pagefault. apply wp_bind, wp_gets.
  change (view (procL (e_me e)) k) with (pt_proc (fptab (k_fs k)) !!! e_me e). rewrite Hpr. fold pr.
  apply wp_bind, wp_zoom, wp_zoom, wp_gets. rewrite !put_view. change (km_mem _) with (k_mem k).
  destruct (Z.leb_spec (p_sz pr) va), (Z.ltb_spec va (load64 (k_mem k) (p_trapframe pr + TF_SP))); try lia. cbn [orb when].
  apply wp_bind, wp_ret, wp_bind.
  assert (vma_hit x va = true) as Hhit.
  { destruct (fa_range _ _ _ _ _ _ _ _ Hf) as (H1 & H2 & _). pose proof (rg_in _ Hok i) as Hin. fold x in Hin. rewrite Hval in Hin.
    specialize (Hin ltac:(done)). pose proof (rg_size _ Hok). unfold vma_hit. rewrite Hval, u64_small by lia. lia. }
  eapply wp_mono; [by apply (find_region kend Hk e La V Hblk L HL k v i n va T l D)|]. cbv beta. intros r k' [b Hpost]. apply wp_ret.
  destruct Hpost as (v' & Hco' & Hsr & _ & [(_ & Hop' & p & T' & l' & c & Hg)|(Hop' & T' & l' & [c Hg] & Hl)]); exists v', T', l';
    (split; [done|]); (split; [done|]); (split; [exact (gn_out _ _ _ _ _ _ _ _ _ _ _ _ _ _ Hg)|]); [left|right]; (split; [done|]).
  - pose proof (PGROUNDDOWN_bounds va). pose proof (PGROUNDDOWN_nonneg va) as Hnn. pose proof (fa_user _ _ _ _ _ _ _ _ Hf).
    destruct (fa_range _ _ _ _ _ _ _ _ Hf) as (Hva & _). assert (TRAPFRAME < MAXVA) by done. split_and!.
    + exists p. split; [apply Hg|exact (gn_pool _ _ _ _ _ _ _ _ _ _ _ _ _ _ Hg)].
    + etransitivity; [apply (gn_flags _ _ _ _ _ _ _ _ _ _ _ _ _ _ Hg); lia|].
      destruct (Z.leb_spec (PGROUNDDOWN va) (PGROUNDDOWN va)), (Z.ltb_spec (PGROUNDDOWN va) (PGROUNDDOWN va + PGSIZE)); done || lia.
    + exact (gn_byte _ _ _ _ _ _ _ _ _ _ _ _ _ _ Hg).
  - split_and!; [destruct Hl as [[_ ->]|[_ ->]]; cbn; lia|apply Hg|exact (gn_pool _ _ _ _ _ _ _ _ _ _ _ _ _ _ Hg)|].
    intros va' Hva'. etransitivity; [apply (gn_byte _ _ _ _ _ _ _ _ _ _ _ _ _ _ Hg); done|]. by rewrite empty_range.
Qed.

(** Between operations, a process with a region of a file: of the directory of [Tree], which is not empty. *)
Module Region.
Definition vma0 : vma := Vma 4096 4096 3 1 (Some 0%fin) 0 0 1.
Definition proc : proc :=
  Proc Machine.lk0 RUNNING None 0 0 1 None 0 8192 Boot.root 0 (Context 0 0 []) (vreplicate NOFILE None) None []
    (vinsert 0%fin vma0 (vreplicate 16 (Vma 0 0 0 0 None 0 0 0))).
Definition between : env := Env 0%fin Machine.proc0 2 30 Tree.dsk Volume.super false.
Definition machine : env := set_eproc between proc.
Definition entry : inode := Inode ROOTDEV 1 1 (Sleeplock 0 Volume.lk "inode" 0) 0 0 0 0 0 0 (replicate 13 0).
Definition table : vec inode NINODE := vinsert 0%fin entry Tree.table.
Definition files : vec file NFILE := vreplicate NFILE (File FD_INODE 1 1 1 0 (Some 0%fin) 0 0).
Definition kernel (s : fss) : kern :=
  set_kfile files (K s (km_mem Boot.st) (km_lock Boot.st) (km_freelist Boot.st) (Around.kernel s)).

Lemma region_op : exists s, op machine s ∅ (dread Tree.dsk) [] table.
Proof.
  destruct (machine_quiescent Tree.dsk ltac:(by vm_compute)) as [t Ht].
  exists (set_me between proc (Fss t Volume.super Volume.lk table)). apply (op_set_me between (dread Tree.dsk) []); [|done..].
  by apply (op_quiescent between (Fss t Volume.super Volume.lk table) Machine.log0).
Qed.
Lemma region_layout : layout machine.
Proof. destruct Tree.tree_layout. by split. Qed.
Lemma region_coherent : coherent machine (dread Tree.dsk) None table.
Proof.
  assert (forall ip, table !!! ip = if decide (0%fin = ip) then entry else Volume.inode0) as E.
  { intros ip. unfold table. rewrite vlookup_vinsert. case_decide; [done|apply vlookup_replicate]. }
  split; [split|..]; intros ip *; rewrite !E; repeat case_decide; subst; done.
Qed.
Lemma region_regions : regions_ok proc.
Proof.
  assert (forall i, p_vma proc !!! i = if decide (0%fin = i) then vma0 else Vma 0 0 0 0 None 0 0 0) as E.
  { intros i. unfold proc. cbn [p_vma]. rewrite vlookup_vinsert. case_decide; [done|apply vlookup_replicate]. }
  split; [cbn; lia|intros i|intros i j Hne]; rewrite !E; repeat case_decide; subst; cbn; done || lia.
Qed.
Lemma region_faults s : faults_at machine (dread Tree.dsk) (kernel s) table (p_vma proc !!! (0%fin : vmap)) 1 4096 ∅.
Proof.
  assert (p_vma proc !!! (0%fin : vmap) = vma0) as -> by apply vlookup_insert. split.
  - exists 0%fin, 0%fin. split; [done|]. split; [change (f_ip (files !!! 0%fin) = Some 0%fin); unfold files; by rewrite vlookup_replicate|].
    unfold table. rewrite vlookup_insert. by vm_compute.
  - by vm_compute.
  - assert (dir_ok Tree.tree (dread Tree.dsk) (node Tree.tree (dread Tree.dsk) 1)) as [_ [] _]; [|by split].
    apply (tr_dir _ _ Tree.tree_tree); [vm_compute; intuition congruence|by vm_compute].
  - cbn. lia.
  - done.
  - done.
Qed.
End Region.

Lemma pagefault_correct_witness : exists k k', pagefault Boot.kend 0%fin 4096 k = Ok tt k' /\ exists T,
  ubyte T (k_mem k') 4096 = Some 1 \/ ubyte T (k_mem k') 4096 = None.
Proof.
  destruct Region.region_op as [s Hs]. destruct (op_quiet _ _ _ _ _ _ Hs) as [Hc _ _ _ _].
  pose proof (pagefault_correct Boot.kend Region.machine (Region.kernel s) _ [] _ Boot.tree Boot.free ∅ 0%fin 1 4096 Boot.boot_kend_pos
    Region.region_layout Tree.tree_blk ltac:(unfold NBUF; cbn; lia) Hs Region.region_coherent (uspace_cpu Boot.kend _ _ _ _ _ _ Boot.space Hc)
    Region.region_regions ltac:(done) (Region.region_faults s) ltac:(by vm_compute)) as Hw.
  destruct (wp_run _ _ _ Hw) as ([] & k' & E & v' & T' & l' & _ & _ & _ & [(_ & _ & _ & Hb)|(_ & _ & _ & _ & Hb)]);
    exists (Region.kernel s), k'; split; [exact E| |exact E|]; exists T'.
  - left. rewrite (Hb 4096 ltac:(done)). by vm_compute.
  - right. rewrite (Hb 4096 ltac:(done)). by vm_compute.
Defined.
