(* ===== verification/Close.v ===== *)
(** Closing files: [fileclose] of [src/kernel/file.c] on the file of an inode, with
    the transaction around its [iput]. *)

From stdpp Require Import gmap.
From S2P Require Import Prelude Params Spinlock Kalloc Vm Sched Sleeplock Bio Cache Log Journal Crash Txn Fs Blocks Inodes Itrunc.
From S2P Require Import Umem Console Pipe Kern Path Contents File Sysfile Mmap.
Local Open Scope kernel_scope.

(** * Operations *)

Definition set_eactive (b : bool) (e : env) : env := Env (e_me e) (e_proc e) (e_start e) (e_size e) (e_disk e) (e_sb e) b.
Definition set_edisk (d : disk) (e : env) : env := Env (e_me e) (e_proc e) (e_start e) (e_size e) d (e_sb e) (e_active e).

(** Between operations, with the table [v]. *)
Definition at_rest (e : env) (s : fss) (v : vec inode NINODE) : Prop := e_active e = false /\ op e s ∅ (dread (e_disk e)) [] v.

Section Operations.
Context (e : env).
Implicit Types (s : fss) (V : blocks) (L : list Z) (v : vec inode NINODE).

Lemma op_begins s v :
  at_rest e s v -> wp (logop begin_op) (fun _ s' => op (set_eactive true e) s' ∅ (dread (e_disk e)) [] v) s.
Proof.
  intros [Ha Hop]. pose proof Hop as [Hj _ Htx Hi Hc (Hst & Hsz & Hl) He _ _ _ _]. rewrite Ha in Hc.
  assert (quiescent (fs_l s) (e_me e) (e_proc e) (ls_log (fs_l s)) (e_disk e)) as Hq.
  { split; try done. by rewrite Hsz. }
  eapply wp_mono; [eapply (op_step e s _ _ _ _ begin_op); [exact Hop|]; apply (begin_active _ _ _ _ _ Hq)|].
  cbv beta. intros [] s' (Hac & Hsb & Hit & <-). by apply (op_active (set_eactive true e) s' _ (set_outstanding 1 (ls_log (fs_l s)))).
Qed.

Lemma op_ends s V L v :
  op (set_eactive true e) s ∅ V L v ->
  wp (logop end_op) (fun _ s' => exists d', (forall b, ehome e b -> dread d' b = V b) /\
    at_rest (set_eactive false (set_edisk d' e)) s' v) s.
Proof.
  intros Hop. pose proof (active_op (set_eactive true e) s V L v eq_refl Hop) as Hac. pose proof (op_log _ _ _ _ _ _ Hop) as (Hst & Hsz & _).
  eapply wp_mono; [eapply (op_step (set_eactive true e) s _ _ _ _ end_op); [exact Hop|]; apply (end_any _ _ _ _ _ _ _ Hac)|].
  cbv beta. intros [] s' ((d' & Hq & Hd) & Hsb & Hit & <-). exists d'. split.
  - intros b Hb. apply Hd. unfold home. rewrite Hst, Hsz. exact Hb.
  - split; [done|]. by apply (op_quiescent (set_eactive false (set_edisk d' e)) s' (ended (ls_log (fs_l s)))).
Qed.
End Operations.

(** * [fileclose] *)

(** The entry of the file table that nobody has open any more. *)
Definition closed (x : file) : file := set_ftype FD_NONE (set_fref 0 x).

(** What the last close of a file does to the inode [ip]: it has one reference less,
    and an inode without links and other references is freed on the disk. *)
Record inode_put (e : env) (v : vec inode NINODE) (ip : inodep) (d' : disk) (v' : vec inode NINODE) : Prop := {
  ip_ref : i_ref (v' !!! ip) = i_ref (v !!! ip) - 1;
  ip_key : i_dev (v' !!! ip) = i_dev (v !!! ip) /\ i_inum (v' !!! ip) = i_inum (v !!! ip);
  ip_other jp : jp <> ip -> v' !!! jp = v !!! jp;
  ip_disk : exists V', (forall b, ehome e b -> dread d' b = V' b) /\
    if goes (v !!! ip) then freed_inode e (dread (e_disk e)) (v !!! ip) V' else V' = dread (e_disk e);
}.

(** The inode can be put back: it is referenced, and can be freed if it goes. *)
Definition can_put (e : env) (v : vec inode NINODE) (ip : inodep) : Prop :=
  0 < i_ref (v !!! ip) < 2 ^ 31 /\
  (goes (v !!! ip) = true -> can_free (set_eactive true e) ∅ (dread (e_disk e)) [] (v !!! ip)).

Section Close.
Context (kend : Z) (me : fin NPROC).
Implicit Types (c : cpu) (P : vec proc NPROC) (F : vec file NFILE) (k : kern).

(** Another reference is left. *)
Definition less_ref (f : filep) F : vec file NFILE := vinsert f (set_fref (s32 (f_ref (F !!! f) - 1)) (F !!! f)) F.
Lemma fileclose_kp c P F k f :
  cpu_ok c -> idle (k_ftlock k) -> 2 <= f_ref (F !!! f) < 2 ^ 31 -> fileclose kend f (kp c P F k) = Ok tt (kp (settle c) P (less_ref f F) k).
Proof.
  intros Hc [Hw Ho] Hr. unfold fileclose. erewrite bind_ok by (apply (acquire_run ftable_lock); exact Hw).
  erewrite bind_ok by done. change (k_file _) with F. destruct (Z.ltb_spec (f_ref (F !!! f)) 1); [lia|].
  assert (s32 (f_ref (F !!! f) - 1) = f_ref (F !!! f) - 1) as Es by (apply s32_small; lia).
  erewrite bind_ok by done. erewrite bind_ok by done.
  match goal with |- context [k_file ?s !!! f] => change (k_file s) with (vinsert f (set_fref (s32 (f_ref (F !!! f) - 1)) (F !!! f)) F) end.
  rewrite vlookup_insert. cbn [set_fref f_ref]. rewrite Es.
  destruct (Z.ltb_spec 0 (f_ref (F !!! f) - 1)); [|lia].
  rewrite (release_run ftable_lock); [|apply holding_taken|done|by eapply push_noff].
  cbn. rewrite pop_push, freed_taken by done. by destruct k.
Qed.

(** Nobody else has it open. *)
Lemma fileclose_last_kp c P F k f :
  cpu_ok c -> idle (k_ftlock k) -> f_ref (F !!! f) = 1 ->
  fileclose kend f (kp c P F k) =
    match f_type (F !!! f) with
    | FD_PIPE => kpipe (f_pipe (F !!! f)) (pipeclose (f_pipe (F !!! f)) kend (f_writable (F !!! f)))
    | FD_INODE | FD_DEVICE =>
        kbegin_op ;;
        match f_ip (F !!! f) with
        | None => fault "fileclose: ip"
        | Some ip => fs (iput ip)
        end ;;
        kend_op
    | FD_NONE => ret tt
    end (kp (settle c) P (vinsert f (closed (F !!! f)) F) k).
Proof.
  intros Hc [Hw Ho] Hr. unfold fileclose. erewrite bind_ok by (apply (acquire_run ftable_lock); exact Hw).
  erewrite bind_ok by done. change (k_file _) with F. destruct (Z.ltb_spec (f_ref (F !!! f)) 1); [lia|].
  erewrite bind_ok by done. erewrite bind_ok by done.
  match goal with |- context [k_file ?s !!! f] => change (k_file s) with (vinsert f (set_fref (s32 (f_ref (F !!! f) - 1)) (F !!! f)) F) end.
  rewrite vlookup_insert. cbn [set_fref f_ref f_type f_pipe f_ip f_writable]. rewrite Hr. change (0 <? s32 (1 - 1)) with false. cbv iota.
  erewrite bind_ok by done. erewrite bind_ok by done. erewrite bind_ok.
  2:{ apply (release_run ftable_lock); [apply holding_taken|done|by eapply push_noff]. }
  cbn. rewrite pop_push, freed_taken by done. rewrite !vlookup_insert, !vinsert_twice. by destruct k.
Qed.

(** The operation around [iput]. *)
Lemma iput_op e s v ip :
  layout e -> at_rest e s v -> can_put e v ip ->
  wp (logop begin_op ;; iput ip ;; logop end_op) (fun _ s' => exists d' v',
    at_rest (set_edisk d' e) s' v' /\ inode_put e v ip d' v') s.
Proof.
  intros La Hrest [Hr Hcf]. assert (layout (set_eactive true e)) as La' by (destruct La; by split). pose proof Hrest as [Ha _].
  wseq (op_begins e s v Hrest). cbv beta. intros [] s1 Hop1.
  assert (wp (iput ip) (fun _ s' => exists V' L' i, op (set_eactive true e) s' ∅ V' L' (vinsert ip i v) /\
    i_ref i = i_ref (v !!! ip) - 1 /\ (i_dev i = i_dev (v !!! ip) /\ i_inum i = i_inum (v !!! ip)) /\
    if goes (v !!! ip) then freed_inode e (dread (e_disk e)) (v !!! ip) V' else V' = dread (e_disk e)) s1) as Hput.
  { destruct (goes (v !!! ip)) eqn:Hg.
    - eapply wp_mono; [by apply (iput_frees_spec _ La' s1 ∅ _ [] v ip Hop1 Hg), Hcf|]. cbv beta. intros [] s2 (V' & L' & [[Hb1 Hb2] F2 F3 F4 F5] & Hop2).
      pose proof Hg as [[Er _]%andb_true_iff _]%andb_true_iff. apply Z.eqb_eq in Er.
      exists V', L'. eexists. split; [exact Hop2|]. split; [cbn; lia|]. split; [done|]. split; [by split|done..].
    - eapply wp_mono; [by apply (iput_keeps_spec _ s1 ∅ _ [] v ip Hop1 Hg)|]. cbv beta. rewrite s32_small by lia.
      intros [] s2 Hop2. eexists _, _, _. split; [exact Hop2|]. done. }
  apply wp_bind. eapply wp_mono; [exact Hput|]. cbv beta. intros [] s2 (V' & L' & i & Hop2 & Ei & Ek & Hdisk).
  eapply wp_mono; [apply (op_ends e s2 V' L' _ Hop2)|]. cbv beta. intros [] s3 (d' & Hd & Hrest3).
  exists d', (vinsert ip i v). split; [unfold set_eactive in Hrest3; cbn in Hrest3; by rewrite <- Ha in Hrest3|].
  split; [by rewrite vlookup_insert..| |by exists V']. intros jp Hne. by rewrite vlookup_insert_ne.
Qed.

Lemma fs_seq (m n p : M fss unit) k : (fs m ;; fs n ;; fs p) k = fs (m ;; n ;; p) k.
Proof.
  unfold bind, fs, zoom. destruct (m (view fsL k)) as [[] s|w s]; [|done]. change (view fsL (put fsL s k)) with s.
  destruct (n s) as [[] s2|w s2]; [|done]. change (view fsL (put fsL s2 (put fsL s k))) with s2. by destruct (p s2).
Qed.

(** The last close of a file of an inode. *)
Lemma fileclose_last c P F k f ip e v :
  cpu_ok c -> settle c = c -> idle (k_ftlock k) -> f_ref (F !!! f) = 1 ->
  f_type (F !!! f) = FD_INODE \/ f_type (F !!! f) = FD_DEVICE -> f_ip (F !!! f) = Some ip ->
  layout e -> at_rest e (k_fs (kp c P F k)) v -> can_put e v ip ->
  wp (fileclose kend f) (fun _ k' => exists s' d' v', k' = set_kfs s' (kp c P (vinsert f (closed (F !!! f)) F) k) /\
    at_rest (set_edisk d' e) s' v' /\ inode_put e v ip d' v') (kp c P F k).
Proof.
  intros Hc Hst Hi Hr Ht Hip La Hrest Hput. unfold wp. rewrite fileclose_last_kp, Hst, Hip by done.
  set (k1 := kp c P (vinsert f (closed (F !!! f)) F) k).
  assert (wp (kbegin_op ;; fs (iput ip) ;; kend_op) (fun _ k' => exists s' d' v', k' = set_kfs s' k1 /\
    at_rest (set_edisk d' e) s' v' /\ inode_put e v ip d' v') k1) as Hw.
  { unfold wp, kbegin_op, kend_op. rewrite fs_seq. apply (wp_zoom fsL). eapply wp_mono; [exact (iput_op e _ v ip La Hrest Hput)|]. cbv beta. intros [] s' (d' & v' & H1 & H2). by exists s', d', v'. }
  by destruct Ht as [-> | ->].
Qed.
End Close.
