(* ===== verification/Munmap.v ===== *)
(** Unmapping memory-mapped files: [sys_munmap] of [src/kernel/sysfile.c]. *)

From stdpp Require Import gmap.
From S2P Require Import Prelude Params Spinlock Cstring Kalloc Vm PageTable Uvm UvmAlloc AddressSpace Sched Sleeplock Bio Cache Log Journal Crash Txn Fs.
From S2P Require Import Blocks Inodes Itrunc Refs Umem Console Kern Path Contents Names Namei File Proc Sysfile Trap Mmap Close.
Local Open Scope kernel_scope.

(** The first region that covers the range. *)
Definition find_cover (vs : vec vma 16) (addr len : Z) : option vmap :=
  hd_error (filter (fun i => vma_covers (vs !!! i) addr len = true) (indices 16)).

(** The region after a part of it is unmapped, and the process with it. *)
Definition shrink (addr len : Z) (x : vma) : vma :=
  let x1 := if addr =? vm_addr x then set_vaddr (u64 (addr + len)) x else x in
  set_vlen (s32 (vm_len x1 - len)) x1.
Definition cut_region (addr len : Z) (x : vma) : vma :=
  if vm_len (shrink addr len x) =? 0 then set_vvalid 0 (shrink addr len x) else shrink addr len x.
Definition cut_proc (i : vmap) (addr len : Z) (pr : proc) : proc := set_pvma (vinsert i (cut_region addr len (p_vma pr !!! i)) (p_vma pr)) pr.

(** Nothing is left of the region, and it was the last user of its file. *)
Definition closes (F : vec file NFILE) (f : filep) (addr len : Z) (x : vma) : bool :=
  (vm_len (shrink addr len x) =? 0) && (f_ref (F !!! f) =? 1).
Definition cut_files (x : vma) (addr len : Z) (f : filep) (F : vec file NFILE) : vec file NFILE :=
  if vm_len (shrink addr len x) =? 0
  then if f_ref (F !!! f) =? 1 then vinsert f (closed (F !!! f)) F else less_ref f F
  else F.

(** The file system when the file is closed for good: between operations, and the
    file is of an inode that can be put back. *)
Record closable (e : env) (k : kern) (v : vec inode NINODE) (f : filep) (ip : inodep) : Prop := {
  cb_layout : layout e;
  cb_rest : at_rest e (k_fs k) v;
  cb_type : f_type (k_file k !!! f) = FD_INODE \/ f_type (k_file k !!! f) = FD_DEVICE;
  cb_ip : f_ip (k_file k !!! f) = Some ip;
  cb_put : can_put e v ip;
}.

Lemma hd_filter_split {A} (P : A -> Prop) `{forall x, Decision (P x)} (l : list A) x :
  hd_error (filter P l) = Some x -> exists l1 l2, l = l1 ++ x :: l2 /\ P x /\ forall y, y ∈ l1 -> ~ P y.
Proof.
  induction l as [|y l IH]; [done|]. destruct (decide (P y)) as [Hy|Hy].
  - rewrite filter_cons_True by done. intros [= ->]. exists [], l. split_and!; [done..|]. intros z []%elem_of_nil.
  - rewrite filter_cons_False by done. intros (l1 & l2 & -> & Hx & Hno)%IH. exists (y :: l1), l2. split_and!; [done..|].
    intros z [->|Hz]%elem_of_cons; auto.
Qed.

Section Runs.
Context (kend : Z) (me : fin NPROC).
Implicit Types (c : cpu) (P : vec proc NPROC) (F : vec file NFILE) (k : kern).

Lemma upd_vma_twice i g h pr : upd_vma i h (upd_vma i g pr) = upd_vma i (fun x => h (g x)) pr.
Proof. unfold upd_vma. cbn. by rewrite vlookup_insert, vinsert_twice. Qed.
Lemma updp_kp c P F k g : updp me g (kp c P F k) = Ok tt (kp c (vinsert me (g (P !!! me)) P) F k).
Proof. done. Qed.

Lemma shrink_upd i addr len pr :
  upd_vma i (fun v => set_vlen (s32 (vm_len v - len)) v)
    (upd_vma i (if addr =? vm_addr (p_vma pr !!! i) then set_vaddr (u64 (addr + len)) else fun x => x) pr) =
  set_pvma (vinsert i (shrink addr len (p_vma pr !!! i)) (p_vma pr)) pr.
Proof. rewrite upd_vma_twice. unfold upd_vma, shrink. by destruct (addr =? vm_addr (p_vma pr !!! i)). Qed.

(** [munmap_vma] of a private region, up to the close of the file. *)
Lemma munmap_vma_kp c P F k i addr len f :
  let pr := P !!! me in let x := p_vma pr !!! i in
  vm_f x = Some f -> Z.land (vm_flag x) MAP_SHARED = 0 ->
  munmap_vma kend me i addr len (kp c P F k) =
    (when (vm_len (shrink addr len x) =? 0) (fileclose kend f ;; updp me (upd_vma i (set_vvalid 0))) ;;
     kvm (uvmunmap kend (p_pagetable pr) addr (u64 (Z.quot len PGSIZE)) false))
      (kp c (vinsert me (set_pvma (vinsert i (shrink addr len x) (p_vma pr)) pr) P) F k).
Proof.
  intros pr x Hf Hfl. unfold munmap_vma. erewrite bind_ok by done. change (view (procL me) (kp c P F k)) with pr.
  cbv zeta. fold x. rewrite Hf, Hfl. cbn [nz Z.eqb negb when]. erewrite bind_ok by done.
  set (g1 := if addr =? vm_addr x then set_vaddr (u64 (addr + len)) else fun x => x).
  assert (when (addr =? vm_addr x) (updp me (upd_vma i (set_vaddr (u64 (addr + len))))) (kp c P F k) =
    Ok tt (kp c (vinsert me (upd_vma i g1 pr) P) F k)) as E1.
  { unfold g1. destruct (addr =? vm_addr x); [done|]. unfold upd_vma. rewrite vlookup_insert_self.
    assert (set_pvma (p_vma pr) pr = pr) as -> by (by destruct pr). unfold pr. by rewrite vlookup_insert_self. }
  erewrite bind_ok by exact E1. erewrite bind_ok by apply updp_kp. rewrite vlookup_insert, vinsert_twice. unfold g1, x. rewrite shrink_upd. fold x.
  erewrite bind_ok by done. set (P2 := vinsert me _ P). change (view (procL me) (kp c P2 F k)) with (P2 !!! me).
  unfold P2 at 1 2. rewrite !vlookup_insert. cbn [p_vma set_pvma p_pagetable]. by rewrite vlookup_insert.
Qed.

(** Once the region is cut and its file closed. *)
Record unhooked (e : env) v ip c P F k (i : vmap) (addr len : Z) (f : filep) (k1 : kern) : Prop := {
  uh_me : view procsL k1 !!! me = cut_proc i addr len (P !!! me);
  uh_cpu : cpu_ok (view cpuL k1);
  uh_km : view kmL k1 = put cpuL (view cpuL k1) (view kmL (kp c P F k));
  uh_files : k_file k1 = cut_files (p_vma (P !!! me) !!! i) addr len f F;
  uh_rest : if closes F f addr len (p_vma (P !!! me) !!! i)
            then exists d' v', at_rest (set_edisk d' (set_eproc e (cut_proc i addr len (P !!! me)))) (k_fs k1) v' /\ inode_put e v ip d' v'
            else view procsL k1 = vinsert me (cut_proc i addr len (P !!! me)) P;
}.
End Runs.

Section Unhook.
Context (kend : Z).
Implicit Types (c : cpu) (P : vec proc NPROC) (F : vec file NFILE) (k : kern) (me : fin NPROC).

(** The process's entry does not matter to the disk. *)
Lemma can_put_eproc e v ip x : can_put e v ip -> can_put (set_eproc e x) v ip.
Proof.
  intros [Hr Hf]. split; [done|]. intros Hg. destruct (Hf Hg) as [[B1 B2] ? ? ? ? ? [F1 F2 F3]]. split; try done; by split.
Qed.
Lemma inode_put_eproc e v ip x d' v' : inode_put (set_eproc e x) v ip d' v' -> inode_put e v ip d' v'.
Proof.
  intros [H1 H2 H3 (V' & HV & Hd)]. split; try done. exists V'. split; [done|]. destruct (goes (v !!! ip)); [|done].
  destruct Hd as [[B1 B2] ? ? ? ?]. split; try done; by split.
Qed.

Lemma last_close_kp me e v ip c P F k f i addr len :
  let pr := P !!! me in let x := p_vma pr !!! i in
  cpu_ok c -> settle c = c -> c_proc c = Some me -> idle (k_ftlock k) -> vm_len (shrink addr len x) = 0 -> f_ref (F !!! f) = 1 ->
  closable e (kp c P F k) v f ip ->
  wp (fileclose kend f ;; updp me (upd_vma i (set_vvalid 0))) (fun _ => unhooked me e v ip c P F k i addr len f)
    (kp c (vinsert me (set_pvma (vinsert i (shrink addr len x) (p_vma pr)) pr) P) F k).
Proof.
  intros pr x Hc Hst Hr Hi Hz Href [La [Ha Hop] Hty Hip Hput]. change (k_file (kp c P F k)) with F in Hty, Hip.
  destruct (op_quiet _ _ _ _ _ _ Hop) as [_ Hme Hpr _ Hlk]. change (fcpu (k_fs (kp c P F k))) with c in Hme.
  assert (me = e_me e) by congruence. subst me. change (pt_proc (fptab (k_fs (kp c P F k)))) with P in Hpr, Hlk. fold pr in Hpr.
  set (pr2 := set_pvma _ pr). pose proof (Hlk (e_me e)) as Hlk'. fold pr in Hlk'.
  pose proof (op_set_me e _ _ _ _ _ pr2 Hop ltac:(by rewrite <- Hpr) Hlk') as Hop2.
  assert (layout (set_eproc e pr2)) as La2 by (destruct La; by split).
  wseq (fileclose_last kend c (vinsert (e_me e) pr2 P) F k f ip (set_eproc e pr2) v); try done; [by apply can_put_eproc|].
  cbv beta. intros [] k1 (s' & d' & v' & -> & [Ha' Hop'] & Hin%inode_put_eproc). apply wp_modify.
  destruct (op_quiet _ _ _ _ _ _ Hop') as [Hc' Hr' Hpr' _ _]. cbn [e_me e_proc set_edisk set_eproc] in Hpr', Hr'.
  pose proof (op_set_me _ _ _ _ _ _ (cut_proc i addr len pr) Hop' eq_refl Hlk') as Hop3.
  assert (upd_vma i (set_vvalid 0) pr2 = cut_proc i addr len pr) as Ecut.
  { unfold cut_proc, cut_region, upd_vma, pr2. cbn [p_vma set_pvma]. rewrite vlookup_insert, vinsert_twice. fold x. by rewrite Hz. }
  match goal with |- unhooked _ _ _ _ _ _ _ _ _ _ _ _ ?K => assert (K = set_kfs (set_me (set_edisk d' (set_eproc e pr2)) (cut_proc i addr len pr) s')
    (kp c (vinsert (e_me e) pr2 P) (vinsert f (closed (F !!! f)) F) k)) as -> end.
  { rewrite <- Ecut, <- Hpr'. by destruct k, s' as [[[] ?] ? ? ?]. }
  split.
  - apply vlookup_insert.
  - exact Hc'.
  - by destruct k as [[[[? [] ? ? ?] ?] ? ? ?]].
  - unfold cut_files. fold pr x. by rewrite Hz, Href.
  - unfold closes. fold pr x. rewrite Hz, Href. cbn. exists d', v'. split; [|done]. by split.
Qed.

Lemma munmap_close_kp me e v ip c P F k f i addr len :
  let pr := P !!! me in let x := p_vma pr !!! i in
  cpu_ok c -> settle c = c -> c_proc c = Some me -> idle (k_ftlock k) -> 1 <= f_ref (F !!! f) < 2 ^ 31 ->
  (closes F f addr len x = true -> closable e (kp c P F k) v f ip) ->
  wp (when (vm_len (shrink addr len x) =? 0) (fileclose kend f ;; updp me (upd_vma i (set_vvalid 0))))
    (fun _ => unhooked me e v ip c P F k i addr len f)
    (kp c (vinsert me (set_pvma (vinsert i (shrink addr len x) (p_vma pr)) pr) P) F k).
Proof.
  intros pr x Hc Hst Hr Hi Href Hcl. set (pr2 := set_pvma _ pr).
  destruct (Z.eqb_spec (vm_len (shrink addr len x)) 0) as [Hz|Hnz]; cbn [when].
  - destruct (decide (f_ref (F !!! f) = 1)) as [E1|E1].
    { apply last_close_kp; try done. apply Hcl. unfold closes. by rewrite Hz, E1. }
    apply wp_bind. eapply wp_ok; [apply fileclose_kp; [done|done|lia]|]. rewrite Hst. eapply wp_ok; [apply updp_kp|].
    rewrite vlookup_insert, vinsert_twice.
    assert (upd_vma i (set_vvalid 0) pr2 = cut_proc i addr len pr) as ->.
    { unfold cut_proc, cut_region, upd_vma, pr2. cbn [p_vma set_pvma]. rewrite vlookup_insert, vinsert_twice. fold x. by rewrite Hz. }
    apply Z.eqb_neq in E1. split; try done.
    + apply vlookup_insert.
    + unfold cut_files. fold pr x. by rewrite Hz, E1.
    + unfold closes. fold pr x. by rewrite E1, andb_false_r.
  - apply wp_ret. apply Z.eqb_neq in Hnz. assert (pr2 = cut_proc i addr len pr) as ->.
    { unfold cut_proc, cut_region, pr2. fold x. by rewrite Hnz. }
    split; try done.
    + apply vlookup_insert.
    + unfold cut_files. fold pr x. by rewrite Hnz.
    + unfold closes. fold pr x. by rewrite Hnz.
Qed.

(** One region: it is cut, its file closed, and its pages go. *)
Lemma munmap_vma_runs me e v ip c P F k i addr len f :
  let pr := P !!! me in let x := p_vma pr !!! i in
  cpu_ok c -> settle c = c -> c_proc c = Some me -> idle (k_ftlock k) ->
  vm_f x = Some f -> 1 <= f_ref (F !!! f) < 2 ^ 31 -> Z.land (vm_flag x) MAP_SHARED = 0 ->
  (closes F f addr len x = true -> closable e (kp c P F k) v f ip) ->
  exists k1, unhooked me e v ip c P F k i addr len f k1 /\
    munmap_vma kend me i addr len (kp c P F k) =
      kvm (uvmunmap kend (p_pagetable pr) addr (u64 (Z.quot len PGSIZE)) false) k1.
Proof.
  intros pr x Hc Hst Hr Hi Hf Href Hfl Hcl.
  destruct (wp_run _ _ _ (munmap_close_kp me e v ip c P F k f i addr len Hc Hst Hr Hi Href Hcl)) as ([] & k1 & E & Hun).
  exists k1. split; [done|]. rewrite (munmap_vma_kp kend me c P F k i addr len f Hf Hfl). by erewrite bind_ok by exact E.
Qed.

(** The whole call, up to the page table. *)
Lemma sys_munmap_kp me e v ip c P F k :
  let pr := P !!! me in
  let addr := argument (k_mem k) pr 0 in let len := s32 (argument (k_mem k) pr 1) in
  cpu_ok c -> settle c = c -> c_proc c = Some me -> idle (k_ftlock k) ->
  match find_cover (p_vma pr) addr len with
  | None => sys_munmap kend (kp c P F k) = Ok (-1) (kp c P F k)
  | Some i => forall f, let x := p_vma pr !!! i in
      vm_f x = Some f -> 1 <= f_ref (F !!! f) < 2 ^ 31 -> Z.land (vm_flag x) MAP_SHARED = 0 ->
      (closes F f addr len x = true -> closable e (kp c P F k) v f ip) ->
      exists k1, unhooked me e v ip c P F k i addr len f k1 /\
        sys_munmap kend (kp c P F k) =
          bind (kvm (uvmunmap kend (p_pagetable pr) addr (u64 (Z.quot len PGSIZE)) false)) (fun _ => ret 0) k1
  end.
Proof.
  intros pr addr len Hc Hst Hr Hi. unfold sys_munmap. erewrite bind_ok by (by apply myprocp_kp). rewrite Hst.
  erewrite bind_ok by (apply (argraw_kp me); [done|done|lia]). rewrite Hst. erewrite bind_ok by (apply (argint_kp me); [done|done|lia]). rewrite Hst.
  fold pr addr len. unfold find_cover.
  assert (forall j, vma_covers (p_vma pr !!! j) addr len <> true ->
    (pr <- getp me ;; if vma_covers (p_vma pr !!! j) addr len then munmap_vma kend me j addr len ;; ret (Some j) else ret None) (kp c P F k) =
      Ok None (kp c P F k)) as Hskip.
  { intros j Hj. erewrite bind_ok by done. change (view (procL me) (kp c P F k)) with pr. by destruct (vma_covers (p_vma pr !!! j) addr len). }
  destruct (hd_error _) as [i|] eqn:E.
  - apply hd_filter_split in E as (l1 & l2 & E & Hcov & Hno). intros f Hf Href Hfl Hcl. set (x := p_vma pr !!! i) in *. rewrite E.
    destruct (munmap_vma_runs me e v ip c P F k i addr len f Hc Hst Hr Hi Hf Href Hfl Hcl) as (k1 & Hun & Hrun). exists k1. split; [done|].
    assert (forM_find (l1 ++ i :: l2) (fun i => pr <- getp me ;; if vma_covers (p_vma pr !!! i) addr len
      then munmap_vma kend me i addr len ;; ret (Some i) else ret None) (kp c P F k) =
      bind (kvm (uvmunmap kend (p_pagetable pr) addr (u64 (Z.quot len PGSIZE)) false)) (fun _ => ret (Some i)) k1) as Ef.
    { rewrite forM_find_skip by auto. cbn [forM_find]. rewrite bind_assoc. erewrite bind_ok by done.
      change (view (procL me) (kp c P F k)) with pr. fold x. rewrite Hcov, bind_assoc. unfold bind at 1.
      rewrite Hrun. fold pr. unfold bind. by destruct (kvm _ _). }
    unfold bind at 1. rewrite Ef. unfold bind. by destruct (kvm _ _).
  - rewrite (bind_ok _ _ _ None (kp c P F k)); [done|]. apply forM_find_none. intros j _. apply Hskip. intros Hj.
    assert (j ∈ filter (fun i => vma_covers (p_vma pr !!! i) addr len = true) (indices 16)) as Hin.
    { apply list_elem_of_filter. split; [done|apply elem_of_indices]. }
    destruct (filter _ _); [by apply elem_of_nil in Hin|done].
Qed.
End Unhook.

(** The regions after the cut. *)
Lemma cut_proc_ok i addr len pr :
  regions_ok pr -> vma_covers (p_vma pr !!! i) addr len = true -> 0 <= len -> 0 <= addr -> addr + len < 2 ^ 64 -> vm_len (p_vma pr !!! i) < 2 ^ 31 ->
  regions_ok (cut_proc i addr len pr).
Proof.
  intros [Hsz Hin Hap] Hc Hlen Ha Hmax Hx. set (x := p_vma pr !!! i) in *. unfold vma_covers in Hc.
  destruct (Z.eqb_spec (vm_valid x) 1) as [Hv|]; [|done]. cbn [andb] in Hc. apply andb_true_iff in Hc as [H1 H2]. apply Z.leb_le in H1, H2.
  pose proof (Hin i ltac:(fold x; lia)) as Hi. fold x in Hi. rewrite !u64_small in H2 by lia.
  assert (vm_addr x <= vm_addr (cut_region addr len x) /\ 0 <= vm_len (cut_region addr len x) /\
    vm_addr (cut_region addr len x) + vm_len (cut_region addr len x) <= vm_addr x + vm_len x) as Hcut.
  { unfold cut_region, shrink. destruct (Z.eqb_spec addr (vm_addr x)) as [E|E]; cbn; rewrite s32_small by lia;
      (destruct (_ =? 0); cbn; [|]); rewrite ?u64_small by lia; lia. }
  assert (forall j, vm_valid (p_vma (cut_proc i addr len pr) !!! j) <> 0 -> vm_valid (p_vma pr !!! j) <> 0 /\
    vm_addr (p_vma pr !!! j) <= vm_addr (p_vma (cut_proc i addr len pr) !!! j) /\ 0 <= vm_len (p_vma (cut_proc i addr len pr) !!! j) /\
    vm_addr (p_vma (cut_proc i addr len pr) !!! j) + vm_len (p_vma (cut_proc i addr len pr) !!! j) <= vm_addr (p_vma pr !!! j) + vm_len (p_vma pr !!! j)) as Hsub.
  { intros j. unfold cut_proc. cbn [p_vma set_pvma]. rewrite vlookup_vinsert. case_decide as E; [|intros Hj; specialize (Hin j Hj); lia].
    subst j. fold x. intros _. split; [lia|exact Hcut]. }
  split; [done|intros j Hj|intros j j' Hne Hj Hj'].
  - destruct (Hsub j Hj) as [Hv' ?]. specialize (Hin j Hv'). change (p_sz (cut_proc i addr len pr)) with (p_sz pr). lia.
  - destruct (Hsub j Hj) as [Hv' ?], (Hsub j' Hj') as [Hv'' ?]. specialize (Hap j j' Hne Hv' Hv''). lia.
Qed.

(** What a call leaves of the process, its files and the file system. *)
Record cut_off (me : fin NPROC) (e : env) (v : vec inode NINODE) (ip : inodep) (k : kern) (i : vmap) (addr len : Z) (f : filep) (k' : kern) : Prop := {
  ct_proc : view procsL k' !!! me = cut_proc i addr len (view procsL k !!! me);
  ct_files : k_file k' = cut_files (p_vma (view procsL k !!! me) !!! i) addr len f (k_file k);
  ct_close : closes (k_file k) f addr len (p_vma (view procsL k !!! me) !!! i) = true ->
    exists d' v', at_rest (set_edisk d' (set_eproc e (cut_proc i addr len (view procsL k !!! me)))) (k_fs k') v' /\ inode_put e v ip d' v';
  ct_open : closes (k_file k) f addr len (p_vma (view procsL k !!! me) !!! i) = false ->
    view procsL k' = vinsert me (cut_proc i addr len (view procsL k !!! me)) (view procsL k);
}.

Lemma unhooked_cut kend me e v ip c k i addr len f k1 km T l D :
  unhooked me e v ip c (view procsL k) (k_file k) k i addr len f k1 ->
  uspace kend km (p_pagetable (view procsL k !!! me)) T l D -> csame (view cpuL k1) (km_cpu km) ->
  cut_off me e v ip k i addr len f (put kmL km k1).
Proof.
  intros [H1 H2 H3 H4 H5] Hu Hcs. split; [exact H1|exact H4|intros E; rewrite E in H5|intros E; rewrite E in H5; exact H5].
  destruct H5 as (d' & v' & [Ha Hop] & Hin). exists d', v'. split; [|done]. split; [done|].
  exact (op_uspace kend _ _ _ km (k_fs k1) v' T l D Hop Hu Hcs).
Qed.

(** The pages gone, seen from the state before the close. *)
Lemma gone_from kend s0 s root T l D do_free va hi s' :
  km_mem s0 = km_mem s -> gone kend s root T l D do_free va hi s' -> gone kend s0 root T l D do_free va hi s'.
Proof. intros E (l' & H1 & H2 & H3 & H4). exists l'. unfold outside. rewrite E. by split_and!. Qed.

(** The call, run up to the page table. *)
Lemma sys_munmap_runs (kend : Z) (k : kern) (me : fin NPROC) (e : env) (v : vec inode NINODE) (ip : inodep) :
  let c := view cpuL k in let P := view procsL k in let F := k_file k in let pr := P !!! me in
  let addr := argument (k_mem k) pr 0 in let len := s32 (argument (k_mem k) pr 1) in
  cpu_ok c -> c_proc c = Some me -> idle (k_ftlock k) -> 0 <= len < 2 ^ 40 ->
  match find_cover (p_vma pr) addr len with
  | None => sys_munmap kend k = Ok (-1) (kp (settle c) P F k)
  | Some i => forall f, let x := p_vma pr !!! i in
      vm_f x = Some f -> 1 <= f_ref (F !!! f) < 2 ^ 31 -> Z.land (vm_flag x) MAP_SHARED = 0 ->
      (closes F f addr len x = true -> closable e k v f ip) ->
      exists k1, unhooked me e v ip (settle c) P F k i addr len f k1 /\
        sys_munmap kend k = bind (kvm (uvmunmap kend (p_pagetable pr) addr (len / PGSIZE) false)) (fun _ => ret 0) k1
  end.
Proof.
  intros c P F pr addr len Hc Hr Hi Hlen.
  assert (settle (settle c) = settle c /\ cpu_ok (settle c) /\ c_proc (settle c) = Some me) as (Hst & Hc' & Hr')
    by (split_and!; [apply settle_idem|by apply settle_ok|by rewrite settle_proc]).
  assert (sys_munmap kend k = sys_munmap kend (kp (settle c) P F k)) as E0.
  { transitivity (sys_munmap kend (kp c P F k)); [f_equal; symmetry; apply kp_self|]. unfold sys_munmap.
    erewrite bind_ok by (by apply myprocp_kp). symmetry. erewrite bind_ok by (by apply myprocp_kp). by rewrite Hst. }
  pose proof (sys_munmap_kp kend me e v ip (settle c) P F k Hc' Hst Hr' Hi) as Hrun. cbv zeta in Hrun. fold pr addr len in Hrun.
  assert (u64 (Z.quot len PGSIZE) = len / PGSIZE) as Eq.
  { rewrite Z.quot_div_nonneg by (done || lia). apply u64_small. unfold PGSIZE in *. pose proof (Z.div_pos len 4096). pose proof (Z.div_le_upper_bound len 4096 (2 ^ 40)). lia. }
  destruct (find_cover (p_vma pr) addr len) as [i|] eqn:Ec; [|by rewrite E0].
  intros f x Hf Href Hfl Hcl. destruct (Hrun f Hf Href Hfl) as (k1 & Hun & Erun).
  { intros Hclose. destruct (Hcl Hclose) as [B1 [B2 B3] B4 B5 B6]. split; [done| |done..]. split; [done|].
    apply op_settle in B3. destruct k as [[[[? [] ? ? ?] ?] ? ? ?]]. exact B3. }
  rewrite Eq in Erun. exists k1. by rewrite E0.
Qed.

(** C14: [munmap]. A range that no region covers gives -1 and no change. For a private
    region, the region loses the length, at its start when the range is there
    and else at its end. When nothing is left of it the region is free and its file
    is closed: another user keeps the file open with one reference less, and
    else the file's entry is free and its inode is put back in an operation of
    its own, which frees the inode on the disk when it has no name and no other
    reference. Then the pages of the range disappear from the address space, the others
    keep their bytes; the result is 0 and the regions stay apart. The frames do not go
    back to the allocator. If any page of the range was never touched, the call
    panics at the first such page, the region cut, the file closed and the
    pages before it gone. *)
Theorem sys_munmap_correct (kend : Z) (k : kern) (me : fin NPROC) (T : ptree) (l : list Z) (D : gmap Z Z)
    (e : env) (v : vec inode NINODE) (ip : inodep) :
  let c := view cpuL k in let P := view procsL k in let F := k_file k in let pr := P !!! me in
  let addr := argument (k_mem k) pr 0 in let len := s32 (argument (k_mem k) pr 1) in
  KERNBASE <= kend -> cpu_ok c -> c_proc c = Some me -> idle (k_ftlock k) -> 0 <= len -> 0 <= addr -> addr + len <= TRAPFRAME ->
  uspace kend (view kmL k) (p_pagetable pr) T l D ->
  match find_cover (p_vma pr) addr len with
  | None => sys_munmap kend k = Ok (-1) (kp (settle c) P F k)
  | Some i => forall f, let x := p_vma pr !!! i in let hi := addr + len / PGSIZE * PGSIZE in
      vm_f x = Some f -> 1 <= f_ref (F !!! f) < 2 ^ 31 -> Z.land (vm_flag x) MAP_SHARED = 0 -> vm_len x < 2 ^ 31 -> aligned addr -> regions_ok pr ->
      (closes F f addr len x = true -> closable e k v f ip) ->
      ((forall a, aligned a -> addr <= a < hi -> is_Some (D !! a)) ->
       wp (sys_munmap kend) (fun r k' => r = 0 /\ cut_off me e v ip k i addr len f k' /\ regions_ok (cut_proc i addr len pr) /\
         gone kend (view kmL k) (p_pagetable pr) T l D false addr hi (view kmL k')) k) /\
      (forall h, aligned h -> addr <= h < hi -> D !! h = None ->
       exists h0 msg k', sys_munmap kend k = Stop (Panic msg) k' /\ aligned h0 /\ addr <= h0 <= h /\ D !! h0 = None /\
         cut_off me e v ip k i addr len f k' /\ gone kend (view kmL k) (p_pagetable pr) T l D false addr h0 (view kmL k'))
  end.
Proof.
  intros c P F pr addr len Hk Hc Hr Hi Hlen Haddr Hmax Hu. assert (TRAPFRAME < 2 ^ 40) by done. assert (PGSIZE = 4096) as HP by done.
  pose proof (sys_munmap_runs kend k me e v ip Hc Hr Hi ltac:(fold P pr len; lia)) as Hrun. cbv zeta in Hrun. fold c P F pr addr len in Hrun.
  pose proof (Z.div_pos len PGSIZE Hlen ltac:(done)) as Hn. pose proof (Z.mul_div_le len PGSIZE ltac:(done)) as Hle.
  destruct (find_cover (p_vma pr) addr len) as [i|] eqn:Ec; [|done].
  intros f x hi Hf Href Hfl Hx Ha Hok Hcl. destruct (Hrun f Hf Href Hfl Hcl) as (k1 & Hun & Erun).
  clear Hrun. pose proof (uh_km _ _ _ _ _ _ _ _ _ _ _ _ _ Hun) as Ekm.
  assert (uspace kend (view kmL k1) (p_pagetable pr) T l D) as Hu1.
  { rewrite Ekm. apply uspace_cpu; [|apply Hun]. exact (uspace_cpu kend _ _ _ _ _ (settle c) Hu (settle_ok _ Hc)). }
  assert (km_mem (view kmL k) = km_mem (view kmL k1)) as Em by (by rewrite Ekm).
  split.
  - intros Hall. unfold wp. rewrite Erun. apply (wp_bind (kvm _)), wp_zoom.
    eapply wp_mono; [apply (uvmunmap_spec kend Hk _ _ T l D addr (len / PGSIZE) false Hu1); done || lia|].
    cbv beta. intros [] km [l' Hum]. apply wp_ret. split_and!; [done| | |].
    + eapply unhooked_cut; [exact Hun|apply Hum|]. exact (um_cpu _ _ _ _ _ _ _ _ _ _ _ Hum).
    + unfold find_cover in Ec. apply hd_filter_split in Ec as (_ & _ & _ & Hcov & _). apply cut_proc_ok; try done. lia.
    + apply (gone_from kend _ (view kmL k1)); [done|]. rewrite (view_put (l := kmL)). by eapply unmapped_gone.
  - intros h Hh Hhr Hd. destruct (first_hole D addr h Ha ltac:(lia) Hh Hd) as (h0 & Hh0 & Hr0 & Hd0 & Hall).
    destruct (uvmunmap_hole kend (view kmL k1) (p_pagetable pr) T l D addr (len / PGSIZE) false h0) as (s' & l' & Hum & Hstop); try done; try (unfold hi in *; lia).
    assert (exists msg, sys_munmap kend k = Stop (Panic msg) (put kmL s' k1)) as [msg E].
    { rewrite Erun. unfold bind, kvm, zoom. destruct Hstop as [-> | ->]; by eexists. }
    exists h0, msg, (put kmL s' k1). split_and!; [done|done|lia|lia|done| |].
    + eapply unhooked_cut; [exact Hun|apply Hum|]. exact (um_cpu _ _ _ _ _ _ _ _ _ _ _ Hum).
    + apply (gone_from kend _ (view kmL k1)); [done|]. rewrite (view_put (l := kmL)). by eapply unmapped_gone.
Qed.

(** A process with a page at 0 in a private region, of a file without a name that
    nobody else has open. *)
Module Unnamed.
Definition region (len : Z) : vma := Vma 0 len 3 2 (Some 0%fin) 0 0 1.
Definition proc (len : Z) : proc :=
  Proc Machine.lk0 RUNNING None 0 0 1 None 0 8192 Boot.root 0 (Context 0 0 []) (vreplicate NOFILE None) None []
    (vinsert 0%fin (region len) (vreplicate 16 (Vma 0 0 0 0 None 0 0 0))).
Definition between : env := Env 0%fin Machine.proc0 2 30 Orphan.dsk Volume.super false.
Definition files : vec file NFILE := vreplicate NFILE (File FD_INODE 1 1 1 0 (Some 0%fin) 0 0).
Definition mem (m : memory) (len : Z) : memory := store64 (store64 m 112 0) 120 len.
Definition kernel (s : fss) (km : kmst) (len : Z) : kern :=
  set_kfile files (K s (mem (km_mem km) len) (km_lock km) (km_freelist km) (Around.kernel s)).

Lemma unnamed_rest len : exists s, at_rest (set_eproc between (proc len)) s Orphan.table.
Proof.
  destruct (machine_quiescent Orphan.dsk ltac:(by vm_compute)) as [t Ht].
  exists (set_me between (proc len) (Fss t Volume.super Volume.lk Orphan.table)). split; [done|].
  apply (op_set_me between (dread Orphan.dsk) []); [|done..].
  by apply (op_quiescent between (Fss t Volume.super Volume.lk Orphan.table) Machine.log0).
Qed.
Lemma unnamed_layout len : layout (set_eproc between (proc len)).
Proof. destruct Orphan.orphan_layout. by split. Qed.
Lemma unnamed_put len : can_put (set_eproc between (proc len)) Orphan.table 0%fin.
Proof. apply can_put_eproc. split; [split; reflexivity|]. intros _. exact Orphan.orphan_free. Qed.
Lemma unnamed_space s km len T l D :
  cpu_ok (fcpu s) -> uspace Boot.kend km Boot.root T l D -> uspace Boot.kend (view kmL (kernel s km len)) Boot.root T l D.
Proof.
  intros Hc Hu. pose proof Boot.boot_kend_pos as Hk.
  assert (forall p x, page_ok Boot.kend p -> in_page p x -> mem (km_mem km) len x = km_mem km x) as Hp.
  { intros p x (_ & Hp & _) Hx. unfold in_page in Hx. unfold mem. rewrite !store64_out; [done|unfold KERNBASE in Hk; lia..]. }
  pose proof (vmi_km _ _ _ _ _ (us_vm _ _ _ _ _ _ Hu)) as Hkm.
  apply (uspace_cpu Boot.kend (set_mem (mem (km_mem km) len) km) _ _ _ _ (fcpu s)); [|done].
  apply (uspace_frame Boot.kend km Boot.root T l D (set_mem (mem (km_mem km) len) km) l Hu).
  - apply km_inv_mem; [done|]. intros x (p & Hin & Hx). apply (Hp p); [|done].
    exact (proj1 (Forall_forall _ _) (kmi_ok _ _ _ Hkm) p Hin).
  - by left.
  - intros x (p & [path Ht] & Hx). apply (Hp p); [|done]. exact (pti_ok _ _ _ _ (vmi_pt _ _ _ _ _ (us_vm _ _ _ _ _ _ Hu)) _ _ Ht).
Qed.
Lemma unnamed_args m len : 0 <= len < 2 ^ 31 ->
  argument (mem m len) (proc len) 0 = 0 /\ s32 (argument (mem m len) (proc len) 1) = len.
Proof.
  intros Hl. unfold argument, mem. cbn [p_trapframe proc]. change (0 + (TF_A0 + 8 * 0)) with 112. change (0 + (TF_A0 + 8 * 1)) with 120.
  rewrite load64_store64_out, !load64_store64 by lia. rewrite !u64_small, s32_small by lia. done.
Qed.
Lemma unnamed_regions len : 0 <= len <= 8192 -> regions_ok (proc len).
Proof.
  intros Hl. assert (forall i, p_vma (proc len) !!! i = if decide (0%fin = i) then region len else Vma 0 0 0 0 None 0 0 0) as E.
  { intros i. unfold proc. cbn [p_vma]. rewrite vlookup_vinsert. case_decide; [done|apply vlookup_replicate]. }
  split; [cbn; lia|intros i|intros i j Hne]; rewrite !E; repeat case_decide; subst; cbn; done || lia.
Qed.

(** What the call of [munmap] with the region of [len] bytes does. *)
Definition outcome (k : kern) (len : Z) (T : ptree) (l : list Z) (D : gmap Z Z) : Prop :=
  let e := set_eproc between (proc len) in let hi := 0 + len / PGSIZE * PGSIZE in
  let off := cut_off 0%fin e Orphan.table 0%fin k 0%fin 0 len 0%fin in
  ((forall a, aligned a -> 0 <= a < hi -> is_Some (D !! a)) ->
    wp (sys_munmap Boot.kend) (fun r k' => r = 0 /\ off k' /\ regions_ok (cut_proc 0%fin 0 len (proc len)) /\
      gone Boot.kend (view kmL k) Boot.root T l D false 0 hi (view kmL k')) k) /\
  (forall h, aligned h -> 0 <= h < hi -> D !! h = None ->
    exists h0 msg k', sys_munmap Boot.kend k = Stop (Panic msg) k' /\ aligned h0 /\ 0 <= h0 <= h /\ D !! h0 = None /\
      off k' /\ gone Boot.kend (view kmL k) Boot.root T l D false 0 h0 (view kmL k')).
End Unnamed.

(** The process of [boot_grown] has the page at 0 and no other. *)
Lemma one_page km T l D a :
  grown Boot.kend zeroed heap_flags Boot.st Boot.root Boot.tree Boot.free ∅ 0 4096 km T l D -> aligned a -> 0 <= a ->
  is_Some (D !! a) <-> a = 0.
Proof.
  intros Hg Ha Hpos. destruct (aligned_mult a Ha) as [j Ej]. assert (HP : PGSIZE = 4096) by done. split.
  - intros [q E]. destruct (decide (a < 4096)); [lia|exfalso].
    assert (without D 0 4096 !! a = Some q) as E' by (rewrite lookup_without, decide_False by lia; exact E).
    rewrite (gn_old _ _ _ _ _ _ _ _ _ _ _ _ _ _ Hg), lookup_empty in E'. discriminate E'.
  - intros ->. apply (gn_new _ _ _ _ _ _ _ _ _ _ _ _ _ _ Hg); [done|lia].
Qed.

(** The region of one page: its page goes, the file is closed and its inode is free on
    the disk. With a second page that was not touched: a panic at that page, the first
    one gone. *)
Lemma sys_munmap_correct_witness : exists T l D, is_Some (D !! 0) /\
  (exists k k' d' v', sys_munmap Boot.kend k = Ok 0 k' /\ gone Boot.kend (view kmL k) Boot.root T l D false 0 4096 (view kmL k') /\
    f_type (k_file k' !!! 0%fin) = FD_NONE /\ inode_put Unnamed.between Orphan.table 0%fin d' v' /\ fs_inode (k_fs k') = v') /\
  (exists k k' msg, sys_munmap Boot.kend k = Stop (Panic msg) k' /\ gone Boot.kend (view kmL k) Boot.root T l D false 0 4096 (view kmL k')).
Proof.
  destruct boot_grown as (km & T & l & D & _ & Hg). pose proof (gn_space _ _ _ _ _ _ _ _ _ _ _ _ _ _ Hg) as Hu.
  assert (HT : 16384 <= TRAPFRAME) by (unfold TRAPFRAME, TRAMPOLINE, MAXVA, PGSIZE; lia).
  assert (forall a, aligned a -> 0 <= a -> D !! a = None <-> a <> 0) as Hnone.
  { intros a Ha Hpos. rewrite <- (one_page km T l D a Hg Ha Hpos). destruct (D !! a); split; [done|by intros []|by intros _ [? ?]|done]. }
  assert (forall len, len = 4096 \/ len = 8192 -> exists s, view procsL (Unnamed.kernel s km len) !!! (0%fin : fin NPROC) = Unnamed.proc len /\
    Unnamed.outcome (Unnamed.kernel s km len) len T l D) as Hcall.
  { intros len Hlen. destruct (Unnamed.unnamed_rest len) as [s Hrest]. exists s.
    destruct (op_quiet _ _ _ _ _ _ (proj2 Hrest)) as [Hc Hr Hpr _ _]. cbn [e_me e_proc set_eproc Unnamed.between] in Hr, Hpr. split; [exact Hpr|].
    pose proof (sys_munmap_correct Boot.kend (Unnamed.kernel s km len) 0%fin T l D (set_eproc Unnamed.between (Unnamed.proc len)) Orphan.table
      0%fin Boot.boot_kend_pos Hc Hr) as Hm. cbv beta zeta in Hm.
    change (view procsL (Unnamed.kernel s km len)) with (pt_proc (fptab s)) in Hm. rewrite Hpr in Hm.
    change (k_mem (Unnamed.kernel s km len)) with (Unnamed.mem (km_mem km) len) in Hm.
    destruct (Unnamed.unnamed_args (km_mem km) len ltac:(lia)) as [E1 E2]. rewrite E1, E2 in Hm.
    specialize (Hm ltac:(done) ltac:(lia) ltac:(lia) ltac:(lia) (Unnamed.unnamed_space s km len T l D Hc Hu)).
    replace (find_cover (p_vma (Unnamed.proc len)) 0 len) with (Some (0%fin : vmap)) in Hm by (by destruct Hlen as [-> | ->]; vm_compute).
    apply (Hm 0%fin); [reflexivity|split; reflexivity|reflexivity|cbn; lia|reflexivity|apply Unnamed.unnamed_regions; lia|].
    intros _. split; [apply Unnamed.unnamed_layout|exact Hrest|by left|reflexivity|apply Unnamed.unnamed_put]. }
  exists T, l, D. split; [by apply (one_page km T l D 0 Hg)|]. split.
  - destruct (Hcall 4096 ltac:(lia)) as (s & Hpr & Hok & _). change (0 + 4096 / PGSIZE * PGSIZE) with 4096 in Hok.
    assert (forall a, aligned a -> 0 <= a < 4096 -> is_Some (D !! a)) as Hall.
    { intros a Ha Har. apply (one_page km T l D a Hg Ha); [lia|]. destruct (aligned_mult a Ha) as [j ->]. unfold PGSIZE in *. lia. }
    destruct (wp_run _ _ _ (Hok Hall)) as (r & k' & E & -> & [_ Hfiles Hclose _] & _ & Hgone).
    rewrite Hpr in Hfiles, Hclose.
    destruct (Hclose eq_refl) as (d' & v' & [_ Hop] & Hput). exists (Unnamed.kernel s km 4096), k', d', v'.
    split_and!; [exact E|exact Hgone|rewrite Hfiles; reflexivity|exact (inode_put_eproc _ _ _ _ _ _ Hput)|exact (op_inodes _ _ _ _ _ _ Hop)].
  - destruct (Hcall 8192 ltac:(lia)) as (s & _ & _ & Hbad). change (0 + 8192 / PGSIZE * PGSIZE) with 8192 in Hbad.
    destruct (Hbad 4096 ltac:(done) ltac:(lia) ltac:(by apply Hnone)) as (h0 & msg & k' & E & Hh0 & Hr0 & Hd0 & _ & Hgone).
    assert (h0 = 4096) as ->.
    { apply Hnone in Hd0; [|done|lia]. destruct (aligned_mult h0 Hh0) as [j ->]. unfold PGSIZE in *. lia. }
    exists (Unnamed.kernel s km 8192), k', msg. split; [exact E|exact Hgone].
Defined.
