(* ===== verification/Boot.v ===== *)
(** Booting: the kernel page table ([kvmmake] of [src/kernel/vm.c],
    [proc_mapstacks] of [src/kernel/proc.c]), [main] of [src/kernel/main.c], and
    the machine-mode code of [src/kernel/start.c].

    [etext], [kend] and [trampoline] are symbols of the linker script;
    [disk_pages] is the address of [disk.pages]. *)

From S2P Require Import Prelude Params Spinlock Kalloc Vm Sched Sleeplock Bio Log Fs Umem Console Pipe Virtio Kern Path File Proc Exec Sysfile Syscall Trap.
Local Open Scope kernel_scope.

(** * The kernel page table *)

Definition proc_mapstacks (kpgtbl : Z) : M kmst unit :=
  forM (seqZ 0 (Z.of_nat NPROC)) (fun p =>
    pa <- kalloc ;;
    if pa =? 0 then panic "kalloc" else
    kvmmap kpgtbl (KSTACK p) pa PGSIZE (Z.lor PTE_R PTE_W)).

Section Boot.
Variables etext kend trampoline forkret_addr kernelvec disk_pages : Z.

(** [memset] of the null page, should [kalloc] fail, is undefined. *)
Definition kvmmake : M kmst Z :=
  kpgtbl <- kalloc ;;
  if kpgtbl =? 0 then fault "kvmmake: null page" else
  memsetM kpgtbl 0 PGSIZE ;;
  kvmmap kpgtbl UART0 UART0 PGSIZE (Z.lor PTE_R PTE_W) ;;
  kvmmap kpgtbl VIRTIO0 VIRTIO0 PGSIZE (Z.lor PTE_R PTE_W) ;;
  kvmmap kpgtbl PLIC PLIC 4194304 (Z.lor PTE_R PTE_W) ;;
  kvmmap kpgtbl KERNBASE KERNBASE (u64 (etext - KERNBASE)) (Z.lor PTE_R PTE_X) ;;
  kvmmap kpgtbl etext etext (u64 (PHYSTOP - etext)) (Z.lor PTE_R PTE_W) ;;
  kvmmap kpgtbl TRAMPOLINE trampoline PGSIZE (Z.lor PTE_R PTE_X) ;;
  proc_mapstacks kpgtbl ;;
  ret kpgtbl.

Definition kvminit : M kern unit :=
  kpgtbl <- kvm kvmmake ;;
  updcsr (set_ckpgtbl kpgtbl).

Definition kvminithart : M kern unit :=
  updcsr (fun c => set_csatp (MAKE_SATP (cs_kpgtbl c)) c).

(** * main *)

(** What CPU 0 does before it sets [started]. *)
Definition main_first : M kern unit :=
  term consoleinit ;;
  term printfinit ;;
  term (printf [10] []) ;;
  term (printf (chars "xv6 kernel is booting" ++ [10]) []) ;;
  term (printf [10] []) ;;
  kvm (kinit kend) ;;
  kvminit ;;
  kvminithart ;;
  procinit ;;
  trapinit ;;
  trapinithart kernelvec ;;
  plicinit ;;
  plicinithart ;;
  zoom bstL binit ;;
  fs iinit ;;
  fileinit ;;
  zoom vstL (virtio_disk_init disk_pages) ;;
  userinit kend trampoline forkret_addr.

(** What the other CPUs do once it is set. *)
Definition main_other : M kern unit :=
  id <- cpuid ;;
  kprintf "hart %d starting
" [AInt id] ;;
  kvminithart ;;
  trapinithart kernelvec ;;
  plicinithart.

(** [main] up to [scheduler]; a CPU other than the first spins while [started]
    is 0. [scheduler] begins by clearing the CPU's process. *)
Definition main (started : bool) : M kern unit :=
  id <- cpuid ;;
  (if id =? 0 then main_first
   else if started then main_other else halt Spin) ;;
  c <- mycpu ;;
  set_mycpu (set_cproc None c).
End Boot.

(** * start.c *)

(** The machine-mode registers, the timer and its scratch area. *)
Record mst : Type := Mst {
  m_mhartid : Z;
  m_mstatus : Z;
  m_mepc : Z;
  m_satp : Z;
  m_medeleg : Z;
  m_mideleg : Z;
  m_sie : Z;
  m_pmpaddr0 : Z;
  m_pmpcfg0 : Z;
  m_mie : Z;
  m_mtvec : Z;
  m_mscratch : Z;
  m_tp : Z;
  m_mtime : Z;
  m_mtimecmp : Z -> Z;
  m_scratch : Z -> Z -> Z;
}.

Definition MSTATUS_MPP_MASK : Z := Z.shiftl 3 11.
Definition MSTATUS_MPP_S : Z := Z.shiftl 1 11.
Definition MSTATUS_MIE : Z := Z.shiftl 1 3.
Definition SIE_SEIE : Z := Z.shiftl 1 9.
Definition SIE_STIE : Z := Z.shiftl 1 5.
Definition SIE_SSIE : Z := Z.shiftl 1 1.
Definition MIE_MTIE : Z := Z.shiftl 1 7.
Definition CLINT : Z := 33554432.
Definition CLINT_MTIMECMP (hartid : Z) : Z := CLINT + 16384 + 8 * hartid.

(** [timer_scratch] and [timervec] are addresses of the kernel image. *)
Definition timerinit (timer_scratch timervec : Z) (s : mst) : mst :=
  let id := s32 (m_mhartid s) in
  let interval := 1000000 in
  Mst (m_mhartid s) (Z.lor (m_mstatus s) MSTATUS_MIE) (m_mepc s) (m_satp s) (m_medeleg s) (m_mideleg s) (m_sie s)
    (m_pmpaddr0 s) (m_pmpcfg0 s) (Z.lor (m_mie s) MIE_MTIE) timervec (timer_scratch + 40 * id) (m_tp s) (m_mtime s)
    (fun h => if h =? id then u64 (m_mtime s + interval) else m_mtimecmp s h)
    (fun h k => if (h =? id) && (k =? 3) then CLINT_MTIMECMP id
                else if (h =? id) && (k =? 4) then interval
                else m_scratch s h k).

Definition start (main_addr timer_scratch timervec : Z) (s : mst) : mst :=
  let x := Z.lor (Z.land (m_mstatus s) (Z.lnot MSTATUS_MPP_MASK)) MSTATUS_MPP_S in
  let s1 :=
    Mst (m_mhartid s) x main_addr 0 65535 65535 (Z.lor (Z.lor (Z.lor (m_sie s) SIE_SEIE) SIE_STIE) SIE_SSIE)
      18014398509481983 15 (m_mie s) (m_mtvec s) (m_mscratch s) (m_tp s) (m_mtime s) (m_mtimecmp s) (m_scratch s) in
  let s2 := timerinit timer_scratch timervec s1 in
  Mst (m_mhartid s2) (m_mstatus s2) (m_mepc s2) (m_satp s2) (m_medeleg s2) (m_mideleg s2) (m_sie s2) (m_pmpaddr0 s2)
    (m_pmpcfg0 s2) (m_mie s2) (m_mtvec s2) (m_mscratch s2) (s32 (m_mhartid s2)) (m_mtime s2) (m_mtimecmp s2) (m_scratch s2).
