(* ===== verification/User.v ===== *)
(** User processes and their library: [src/user/ulib.c], [src/user/printf.c],
    [src/user/usys.pl].

    A user process has a byte memory, a stack pointer (for the local variables
    whose address is taken) and the rest of the system, of any type [W], which
    only system calls change: [Kernel W] is the interface, one operation
    [ecall], and each stub of [usys.pl] is a call of it. String literals that
    are only read are lists; the other objects a program names have an address.
    [char] is unsigned on RISC-V. *)

From S2P Require Import Prelude Cstring.
Local Open Scope kernel_scope.

(** * General recursion *)

(** A recursive C function whose recursion is not structural: its body [F] takes
    the function. As in [loop], the fuel bounds the depth of the calls by 2^64. *)
Fixpoint rec_fuel {S A B} (n : positive) (F : (A -> M S B) -> A -> M S B) (k : A -> M S B) (a : A) : M S B :=
  match n with
  | xH => F k a
  | xO n' => rec_fuel n' F (rec_fuel n' F k) a
  | xI n' => F (rec_fuel n' F (rec_fuel n' F k)) a
  end.
Definition fixp {S A B} (F : (A -> M S B) -> A -> M S B) (a : A) : M S B :=
  rec_fuel (2 ^ 64) F (fun _ => halt NoFuel) a.
#[global] Arguments fixp : simpl never.

(** Recursion rule, for any outcome: a measure that every call decreases. *)
Lemma fixp_rule {S A B} (F : (A -> M S B) -> A -> M S B) (I : nat -> A -> S -> Prop)
    (Q : A -> S -> out S B -> Prop) :
  (forall n f a s, I n a s ->
     (forall n' a' s', (n' < n)%nat -> I n' a' s' -> Q a' s' (f a' s')) -> Q a s (F f a s)) ->
  forall n a s, I n a s -> Z.of_nat n < 2 ^ 64 -> Q a s (fixp F a s).
Proof.
  intros HF n a s HI Hn.
  assert (Hr : forall p k j,
    (forall n a s, (n < j)%nat -> I n a s -> Q a s (k a s)) ->
    forall n a s, (n < j + Pos.to_nat p)%nat -> I n a s -> Q a s (rec_fuel p F k a s)).
  { clear n a s HI Hn. induction p as [p IH|p IH|]; intros k j Hk n a s Hn HI; cbn [rec_fuel].
    - apply (HF n); [done|]. intros n' a' s' Hn' HI'.
      apply (IH _ (j + Pos.to_nat p)%nat) with n'; [|lia|done].
      intros n2 a2 s2 Hn2 HI2. apply (IH _ j) with n2; [|lia|done]. done.
    - apply (IH _ (j + Pos.to_nat p)%nat) with n; [|lia|done].
      intros n2 a2 s2 Hn2 HI2. apply (IH _ j) with n2; [|lia|done]. done.
    - apply (HF n); [done|]. intros n' a' s' Hn' HI'. apply (Hk n'); [lia|done]. }
  unfold fixp. apply (Hr _ _ 0%nat) with n; [lia|lia|done].
Qed.

(** * Processes *)

Class Kernel (W : Type) : Type := ecall : Z -> list Z -> M (memory * W) Z.

Record user (W : Type) : Type := User { u_mem : memory; u_sp : Z; u_w : W }.
Arguments User {W} u_mem u_sp u_w.
Arguments u_mem {W} u.
Arguments u_sp {W} u.
Arguments u_w {W} u.

Section Process.
Context {W : Type}.

Definition set_umem (m : memory) (u : user W) : user W := User m (u_sp u) (u_w u).
Definition set_usp (a : Z) (u : user W) : user W := User (u_mem u) a (u_w u).

(** [*p] and [*p = v] of a [char *p] *)
Definition rd8 (p : Z) : M (user W) Z := gets (fun u => load8 (u_mem u) p).
Definition wr8 (p v : Z) : M (user W) unit := modify (fun u => set_umem (store8 (u_mem u) p v) u).

(** [n] bytes of the stack for the run of [f]. *)
Definition local {A} (n : Z) (f : Z -> M (user W) A) : M (user W) A := fun u =>
  let a := u_sp u - n in
  match f a (set_usp a u) with
  | Ok r u' => Ok r (set_usp (u_sp u) u')
  | Stop w u' => Stop w u'
  end.

Context `{!Kernel W}.

(** ** The system call stubs *)

(** [li a7, num; ecall; ret] *)
Definition stub (num : Z) (args : list Z) : M (user W) Z := fun u =>
  match ecall num args (u_mem u, u_w u) with
  | Ok r (m, w) => Ok r (User m (u_sp u) w)
  | Stop y (m, w) => Stop y (User m (u_sp u) w)
  end.

Definition fork : M (user W) Z := stub 1 [].
(** [exit] is declared [noreturn]: code after it is never reached. *)
Definition exit {A} (status : Z) : M (user W) A := stub 2 [status] ;; fault "exit returned".
Definition wait (p : Z) : M (user W) Z := stub 3 [p].
Definition pipe (p : Z) : M (user W) Z := stub 4 [p].
Definition read (fd p n : Z) : M (user W) Z := stub 5 [fd; p; n].
Definition kill (pid : Z) : M (user W) Z := stub 6 [pid].
Definition exec (path argv : Z) : M (user W) Z := stub 7 [path; argv].
Definition fstat (fd st : Z) : M (user W) Z := stub 8 [fd; st].
Definition chdir (path : Z) : M (user W) Z := stub 9 [path].
Definition dup (fd : Z) : M (user W) Z := stub 10 [fd].
Definition getpid : M (user W) Z := stub 11 [].
Definition sbrk (n : Z) : M (user W) Z := stub 12 [n].
Definition sleep (n : Z) : M (user W) Z := stub 13 [n].
Definition uptime : M (user W) Z := stub 14 [].
Definition open (path mode : Z) : M (user W) Z := stub 15 [path; mode].
Definition write (fd p n : Z) : M (user W) Z := stub 16 [fd; p; n].
Definition mknod (path major minor : Z) : M (user W) Z := stub 17 [path; major; minor].
Definition unlink (path : Z) : M (user W) Z := stub 18 [path].
Definition link (old new : Z) : M (user W) Z := stub 19 [old; new].
Definition mkdir (path : Z) : M (user W) Z := stub 20 [path].
Definition close (fd : Z) : M (user W) Z := stub 21 [fd].
Definition mmap (addr len prot flags fd off : Z) : M (user W) Z := stub 22 [addr; len; prot; flags; fd; off].
Definition munmap (addr len : Z) : M (user W) Z := stub 23 [addr; len].

End Process.

(** ** Strings in memory *)

(** The C string at [p] is [s]. *)
Fixpoint cstring (m : memory) (p : Z) (s : list Z) : Prop :=
  match s with
  | [] => load8 m p = 0
  | c :: s' => load8 m p = c /\ c <> 0 /\ cstring m (p + 1) s'
  end.

Lemma cstring_inj m s : forall p s', cstring m p s -> cstring m p s' -> s = s'.
Proof.
  induction s as [|c s IH]; intros p [|c' s'] H H'; cbn in *; [done| | |].
  - destruct H' as (E&?&?). lia.
  - destruct H as (E&?&?). lia.
  - destruct H as (<-&?&H), H' as (<-&?&H'). f_equal. by apply (IH (p + 1)).
Qed.

Lemma cstring_ext m m' s : forall p,
  (forall x, p <= x <= p + Z.of_nat (length s) -> m x = m' x) -> cstring m p s -> cstring m' p s.
Proof.
  induction s as [|c s IH]; intros p Hx H; cbn in *.
  - unfold load8 in *. rewrite <- Hx by lia. done.
  - destruct H as (Hc&Hn&H). split_and!; [|done|apply IH; [|done]].
    + unfold load8 in *. rewrite <- Hx by lia. done.
    + intros x ?. apply Hx. lia.
Qed.

(** A string is its bytes, none of them NUL, and a NUL. *)
Lemma cstring_bytes m s : forall p,
  cstring m p s <->
  load_bytes m p (length s) = s /\ load8 m (p + Z.of_nat (length s)) = 0 /\ Forall (fun c => c <> 0) s.
Proof.
  induction s as [|c s IH]; intros p; cbn [cstring length].
  - rewrite Z.add_0_r. cbn. split; [by intros ->|by intros (_&->&_)].
  - rewrite load_bytes_cons, IH, Forall_cons.
    replace (p + 1 + Z.of_nat (length s)) with (p + Z.of_nat (S (length s))) by lia.
    split; [intros (->&?&->&?&?); done|]. intros ([= -> ?]&?&?&?). done.
Qed.

Lemma cstring_drop m s t : forall p, cstring m p (s ++ t) -> cstring m (p + Z.of_nat (length s)) t.
Proof.
  induction s as [|c s IH]; intros p H; cbn in *; [by rewrite Z.add_0_r|].
  destruct H as (_&_&H). apply IH in H.
  by replace (p + Z.of_nat (S (length s))) with (p + 1 + Z.of_nat (length s)) by lia.
Qed.

Lemma cstring_take m s t : forall p, cstring m p (s ++ t) -> load_bytes m p (length s) = s.
Proof.
  induction s as [|c s IH]; intros p H; cbn [app] in H; [done|]. destruct H as (Hc&_&H).
  cbn [length]. rewrite load_bytes_cons, (IH (p + 1)) by done. by rewrite Hc.
Qed.

(** * ulib.c *)

Module Ulib.
Section Ulib.
Context {W : Type}.

Definition strcpy_step (st : Z * Z) : M (user W) ((Z * Z) + unit) :=
  let '(s, t) := st in
  c <- rd8 t ;;
  wr8 s c ;;
  if nz c then ret (inl (s + 1, t + 1)) else ret (inr tt).
Definition strcpy (s t : Z) : M (user W) Z := loop strcpy_step (s, t) ;; ret s.

Definition strcmp_step (pq : Z * Z) : M (user W) ((Z * Z) + Z) :=
  let '(p, q) := pq in
  a <- rd8 p ;;
  b <- rd8 q ;;
  if nz a && (a =? b) then ret (inl (p + 1, q + 1)) else ret (inr (a - b)).
Definition strcmp (p q : Z) : M (user W) Z := loop strcmp_step (p, q).

Definition strlen_step (s n : Z) : M (user W) (Z + Z) :=
  c <- rd8 (s + n) ;;
  if nz c then ret (inl (n + 1)) else ret (inr n).
Definition strlen (s : Z) : M (user W) Z := n <- loop (strlen_step s) 0 ;; ret (u32 n).

Definition memset (dst c n : Z) : M (user W) Z :=
  modify (fun u => set_umem (memset_loop (u_mem u) dst c 0 (Z.to_nat (u32 n))) u) ;;
  ret dst.

(** [strchr(s, c)], the address found or 0; on a literal, whether [c] is in it. *)
Definition strchr_step (c s : Z) : M (user W) (Z + Z) :=
  x <- rd8 s ;;
  if x =? 0 then ret (inr 0)
  else if x =? c then ret (inr s)
  else ret (inl (s + 1)).
Definition strchr (s c : Z) : M (user W) Z := loop (strchr_step c) s.

(** [if (src > dst)] copy up, otherwise copy down. *)
Definition memmove (vdst vsrc n : Z) : M (user W) Z :=
  modify (fun u =>
    set_umem (if vdst <? vsrc then copy_fwd (u_mem u) vdst vsrc (Z.to_nat n)
              else copy_bwd (u_mem u) (vdst + n) (vsrc + n) (Z.to_nat n)) u) ;;
  ret vdst.
Definition memcpy (dst src n : Z) : M (user W) Z := memmove dst src (s32 n).

Fixpoint memcmp_loop (k : nat) (p1 p2 : Z) : M (user W) Z :=
  match k with
  | O => ret 0
  | S k' =>
      a <- rd8 p1 ;;
      b <- rd8 p2 ;;
      if a =? b then memcmp_loop k' (p1 + 1) (p2 + 1) else ret (a - b)
  end.
Definition memcmp (s1 s2 n : Z) : M (user W) Z := memcmp_loop (Z.to_nat (u32 n)) s1 s2.

Definition atoi_step (sn : Z * Z) : M (user W) ((Z * Z) + Z) :=
  let '(s, n) := sn in
  c <- rd8 s ;;
  if (48 <=? c) && (c <=? 57) then ret (inl (s + 1, s32 (n * 10 + c - 48))) else ret (inr n).
Definition atoi (s : Z) : M (user W) Z := loop atoi_step (s, 0).

Context `{!Kernel W}.

Definition gets_step (buf max c i : Z) : M (user W) (Z + Z) :=
  if negb (i + 1 <? max) then ret (inr i) else
  cc <- read 0 c 1 ;;
  if cc <? 1 then ret (inr i) else
  x <- rd8 c ;;
  wr8 (buf + i) x ;;
  if (x =? 10) || (x =? 13) then ret (inr (i + 1)) else ret (inl (i + 1)).
Definition gets (buf max : Z) : M (user W) Z :=
  local 1 (fun c =>
    i <- loop (gets_step buf max c) 0 ;;
    wr8 (buf + i) 0 ;;
    ret buf).

Definition O_RDONLY : Z := 0.
Definition stat (n st : Z) : M (user W) Z :=
  fd <- open n O_RDONLY ;;
  if fd <? 0 then ret (-1) else
  r <- fstat fd st ;;
  close fd ;;
  ret r.

End Ulib.

(** [strchr] on a literal. *)
Fixpoint in_literal (l : list Z) (c : Z) : bool :=
  match l with
  | [] => false
  | x :: l' => if x =? c then true else in_literal l' c
  end.
End Ulib.

(** * printf.c *)

Module Uprintf.
Section Uprintf.
Context {W : Type} `{!Kernel W}.

Definition digit (d : Z) : Z := if d <? 10 then 48 + d else 55 + d.

Definition putc (fd c : Z) : M (user W) unit :=
  local 1 (fun a => wr8 a c ;; write fd a 1 ;; ret tt).

(** [do { buf[i++] = digits[x % base]; } while ((x /= base) != 0);] *)
Fixpoint digits_of (fuel : nat) (x base : Z) : list Z :=
  match fuel with
  | O => []
  | S fuel' => digit (x mod base) :: (if x / base =? 0 then [] else digits_of fuel' (x / base) base)
  end.
Definition int_text (xx base : Z) (sgn : bool) : list Z :=
  let neg := sgn && (xx <? 0) in
  let x := if neg then u32 (- xx) else u32 xx in
  let buf := digits_of 32 x base in
  rev (if neg then buf ++ [45] else buf).
Definition printint (fd xx base : Z) (sgn : bool) : M (user W) unit :=
  forM (int_text xx base sgn) (putc fd).

Fixpoint ptr_text (n : nat) (x : Z) : list Z :=
  match n with
  | O => []
  | S n' => digit (Z.shiftr x 60) :: ptr_text n' (u64 (Z.shiftl x 4))
  end.
Definition printptr (fd x : Z) : M (user W) unit :=
  putc fd 48 ;; putc fd 120 ;; forM (ptr_text 16 x) (putc fd).

Definition puts_step (fd s : Z) : M (user W) (Z + unit) :=
  c <- rd8 s ;;
  if c =? 0 then ret (inr tt) else putc fd c ;; ret (inl (s + 1)).

(** The characters of a string literal. *)
Definition lit (s : string) : list Z := (fun c => Z.of_nat (Ascii.nat_of_ascii c)) <$> String.list_ascii_of_string s.

(** An argument of a call: a word (an integer or the address of a string), or a
    string literal. *)
Inductive uarg : Type :=
| Word (v : Z)
| Lit (s : list Z).

Definition null_text : list Z := [40; 110; 117; 108; 108; 41].

Definition print_str (fd : Z) (a : uarg) : M (user W) unit :=
  match a with
  | Word s => if s =? 0 then forM null_text (putc fd) else loop (puts_step fd) s
  | Lit l => forM l (putc fd)
  end.

(** One directive [%c]; the arguments it leaves. *)
Definition directive (fd c : Z) (ap : list uarg) : M (user W) (list uarg) :=
  if c =? 100 then
    match ap with Word v :: ap' => printint fd (s32 v) 10 true ;; ret ap' | _ => fault "va_arg" end
  else if c =? 108 then
    match ap with Word v :: ap' => printint fd (s32 v) 10 false ;; ret ap' | _ => fault "va_arg" end
  else if c =? 120 then
    match ap with Word v :: ap' => printint fd (s32 v) 16 false ;; ret ap' | _ => fault "va_arg" end
  else if c =? 112 then
    match ap with Word v :: ap' => printptr fd (u64 v) ;; ret ap' | _ => fault "va_arg" end
  else if c =? 115 then
    match ap with a :: ap' => print_str fd a ;; ret ap' | [] => fault "va_arg" end
  else if c =? 99 then
    match ap with Word v :: ap' => putc fd v ;; ret ap' | _ => fault "va_arg" end
  else if c =? 37 then putc fd c ;; ret ap
  else putc fd 37 ;; putc fd c ;; ret ap.

(** [state] is whether the last character was a [%]. *)
Fixpoint vprintf_loop (fd : Z) (fmt : list Z) (state : bool) (ap : list uarg) : M (user W) unit :=
  match fmt with
  | [] => ret tt
  | c :: fmt' =>
      if state then ap' <- directive fd c ap ;; vprintf_loop fd fmt' false ap'
      else if c =? 37 then vprintf_loop fd fmt' true ap
      else putc fd c ;; vprintf_loop fd fmt' false ap
  end.
Definition vprintf (fd : Z) (fmt : list Z) (ap : list uarg) : M (user W) unit :=
  vprintf_loop fd fmt false ap.
Definition fprintf (fd : Z) (fmt : list Z) (ap : list uarg) : M (user W) unit := vprintf fd fmt ap.
Definition printf (fmt : list Z) (ap : list uarg) : M (user W) unit := vprintf 1 fmt ap.

End Uprintf.
End Uprintf.

(** * What the library promises *)

Section Specs.
Context {W : Type}.
Implicit Types u : user W.

Lemma rd8_ok u p c : load8 (u_mem u) p = c -> rd8 p u = Ok c u.
Proof. by intros <-. Qed.

(** [strchr] finds the first [c], or the end of the string. *)
Lemma strchr_spec u p s c :
  cstring (u_mem u) p s -> Z.of_nat (length s) < 2 ^ 63 ->
  ((c ∉ s) /\ Ulib.strchr p c u = Ok 0 u) \/
  (exists a b, s = a ++ c :: b /\ (c ∉ a) /\ Ulib.strchr p c u = Ok (p + Z.of_nat (length a)) u).
Proof.
  intros Hs Hl. unfold Ulib.strchr.
  apply (loop_rule (Ulib.strchr_step c)
    (fun n p' u' => u' = u /\ exists a b, s = a ++ b /\ p' = p + Z.of_nat (length a) /\ n = length b /\
       (c ∉ a) /\ cstring (u_mem u) p' b)
    (fun o => (c ∉ s) /\ o = Ok 0 u \/
       exists a b, s = a ++ c :: b /\ (c ∉ a) /\ o = Ok (p + Z.of_nat (length a)) u)) with (n := length s); [| |lia].
  - intros n p' u' (->&a&b&->&->&->&Ha&Hb). unfold Ulib.strchr_step, bind. destruct b as [|x b].
    + rewrite (rd8_ok _ _ 0) by done. cbn. left. by rewrite app_nil_r.
    + destruct Hb as (Hx&Hx0&Hb). rewrite (rd8_ok _ _ x) by done. cbv beta iota.
      destruct (Z.eqb_spec x 0); [done|]. destruct (Z.eqb_spec x c) as [->|Hc].
      * right. by exists a, b.
      * exists (length b). split; [cbn; lia|]. split; [done|]. exists (a ++ [x]), b.
        rewrite <- app_assoc, length_app. cbn. split_and!; [done|lia|done| |].
        -- rewrite elem_of_app, list_elem_of_singleton. intros [?|?]; [done|by subst].
        -- done.
  - split; [done|]. exists [], s. cbn. rewrite Z.add_0_r. split_and!; [done..|by apply not_elem_of_nil|done].
Qed.

Lemma ustrlen_spec u p s :
  cstring (u_mem u) p s -> Z.of_nat (length s) < 2 ^ 32 -> Ulib.strlen p u = Ok (Z.of_nat (length s)) u.
Proof.
  intros Hs Hl. unfold Ulib.strlen. rewrite (bind_ok _ _ _ (Z.of_nat (length s)) u); [by rewrite u32_small by lia|].
  apply (loop_rule (Ulib.strlen_step p)
    (fun n i u' => u' = u /\ exists a b, s = a ++ b /\ i = Z.of_nat (length a) /\ n = length b /\ cstring (u_mem u) (p + i) b)
    (fun o => o = Ok (Z.of_nat (length s)) u)) with (n := length s); [| |lia].
  - intros n i u' (->&a&b&->&->&->&Hb). unfold Ulib.strlen_step, bind. destruct b as [|x b].
    + rewrite (rd8_ok _ _ 0) by done. by rewrite app_nil_r.
    + destruct Hb as (Hx&Hx0&Hb). rewrite (rd8_ok _ _ x) by done. cbv beta iota.
      unfold nz. destruct (Z.eqb_spec x 0); [done|]. cbn [negb].
      exists (length b). split; [cbn; lia|]. split; [done|]. exists (a ++ [x]), b.
      rewrite <- app_assoc, length_app. cbn. split_and!; [done|lia|done|].
      by replace (p + (Z.of_nat (length a) + 1)) with (p + Z.of_nat (length a) + 1) by lia.
  - split; [done|]. exists [], s. by rewrite Z.add_0_r.
Qed.

(** [memmove] down: what was at [src] is at [dst], and nothing else changes. *)
Lemma memmove_spec u dst src n :
  dst <= src -> 0 <= n ->
  exists u', Ulib.memmove dst src n u = Ok dst u' /\ u_sp u' = u_sp u /\ u_w u' = u_w u /\
    load_bytes (u_mem u') dst (Z.to_nat n) = load_bytes (u_mem u) src (Z.to_nat n) /\
    (forall x, x < dst \/ dst + n <= x -> u_mem u' x = u_mem u x).
Proof.
  intros Hd Hn. unfold Ulib.memmove, bind, modify, ret.
  eexists. split_and!; [done..| |]; cbn [u_mem set_umem].
  - apply list_eq. intros i. destruct (decide (i < Z.to_nat n)%nat).
    + rewrite !lookup_load_bytes by lia. f_equal. unfold load8 at 1. destruct (Z.ltb_spec dst src).
      * rewrite copy_fwd_in by lia. rewrite load8_u8. f_equal. lia.
      * rewrite copy_bwd_in by lia. rewrite load8_u8. f_equal. lia.
    + rewrite !lookup_ge_None_2; rewrite ?length_load_bytes; lia || done.
  - intros x Hx. destruct (Z.ltb_spec dst src); [apply copy_fwd_out; lia|apply copy_bwd_out; lia].
Qed.

End Specs.

(** * Streams *)

(** What [read] of a descriptor and [write] to standard output promise: [read]
    delivers the next bytes, at least one unless it is asked for none or there are
    none left; [write] prints all its bytes. *)
Class Streams (W : Type) `{!Kernel W} (fd : Z) : Type := {
  pending : W -> list Z;
  printed : W -> list Z;
  read_stream m w a n : 0 <= n -> exists k w',
    ecall 5 [fd; a; n] (m, w) = Ok (Z.of_nat (length k)) (store_bytes m a k, w') /\
    pending w = k ++ pending w' /\ Z.of_nat (length k) <= n /\
    (k = [] -> pending w = [] \/ n = 0) /\ printed w' = printed w;
  write_stdout m w a n : 0 <= n -> exists w',
    ecall 16 [1; a; n] (m, w) = Ok n (m, w') /\
    printed w' = printed w ++ load_bytes m a (Z.to_nat n) /\ pending w' = pending w
}.
#[global] Arguments pending {W Kernel0} fd {Streams} w.
#[global] Arguments printed {W Kernel0} fd {Streams} w.

(** Such a system: a file read [c] bytes at a time, and a terminal. *)
Module Stdio.
Definition state : Type := list Z * list Z.
Definition chunk : Z := 5.
#[global] Instance kernel : Kernel state := fun num args mw =>
  let '(m, (inp, outp)) := mw in
  match num, args with
  | 5, [_; a; n] =>
      let k := take (Z.to_nat (Z.min n chunk)) inp in
      Ok (Z.of_nat (length k)) (store_bytes m a k, (drop (Z.to_nat (Z.min n chunk)) inp, outp))
  | 16, [_; a; n] => Ok n (m, (inp, outp ++ load_bytes m a (Z.to_nat n)))
  | _, _ => Stop Swtch mw
  end.
#[global] Instance streams fd : Streams state fd.
Proof.
  refine {| pending w := w.1; printed w := w.2 |}.
  - intros m [inp outp] a n Hn. eexists _, _. split; [done|]. cbn [fst snd].
    rewrite take_drop, length_take. unfold chunk. split_and!; [done|lia| |done].
    intros Hk. apply (f_equal length) in Hk. rewrite length_take in Hk. cbn in Hk.
    destruct (decide (n = 0)); [by right|]. left. apply nil_length_inv. lia.
  - intros m [inp outp] a n Hn. by eexists.
Defined.
End Stdio.
