(* ===== verification/Programs.v ===== *)
(** The small programs of [src/user/]: [cat], [echo], [wc], [ls], [init], [kill],
    [ln], [mkdir], [rm], [zombie] and [initcode.S].

    [argv] is the list of the argument pointers. A literal that is passed to a
    system call is a parameter, its address. [cat] and [wc] are verified against
    the streams of [User]; so is [printf]. *)

From S2P Require Import Prelude Cstring User.
Local Open Scope kernel_scope.

Section Programs.
Context {W : Type} `{!Kernel W}.
Local Abbreviation Mo := (M (user W)).
Local Abbreviation text s := (Uprintf.lit s).
Local Abbreviation printf := Uprintf.printf.
Local Abbreviation fprintf := Uprintf.fprintf.
Local Abbreviation Word := Uprintf.Word.

(** ** cat.c *)

(** [buf] is a global array of 512 bytes. *)
Definition cat_step (buf fd : Z) (_ : unit) : Mo (unit + Z) :=
  n <- read fd buf 512 ;;
  if 0 <? n then
    r <- write 1 buf n ;;
    if negb (r =? n) then fprintf 2 (text "cat: write error" ++ [10]) [] ;; exit 1
    else ret (inl tt)
  else ret (inr n).
Definition cat (buf fd : Z) : Mo unit :=
  n <- loop (cat_step buf fd) tt ;;
  if n <? 0 then fprintf 2 (text "cat: read error" ++ [10]) [] ;; exit 1 else ret tt.

Definition cat_file (buf path : Z) : Mo unit :=
  fd <- open path 0 ;;
  if fd <? 0 then fprintf 2 (text "cat: cannot open %s" ++ [10]) [Word path] ;; exit 1
  else cat buf fd ;; close fd ;; ret tt.
Definition cat_main (buf : Z) (argv : list Z) : Mo unit :=
  if Z.of_nat (length argv) <=? 1 then cat buf 0 ;; exit 0
  else forM (tail argv) (cat_file buf) ;; exit 0.

(** ** echo.c *)

(** [blank] and [newline] are the literals of the calls of [write]. *)
Fixpoint echo_args (blank newline : Z) (args : list Z) : Mo unit :=
  match args with
  | [] => ret tt
  | a :: args' =>
      n <- Ulib.strlen a ;;
      write 1 a n ;;
      match args' with
      | _ :: _ => write 1 blank 1
      | [] => write 1 newline 1
      end ;;
      echo_args blank newline args'
  end.
Definition echo_main (blank newline : Z) (argv : list Z) : Mo unit :=
  echo_args blank newline (tail argv) ;; exit 0.

(** ** wc.c *)

Record counts : Type := Counts { n_l : Z; n_w : Z; n_c : Z; inword : bool }.

(** One character of [buf]. *)
Definition wc_char (x : Z) (k : counts) : counts :=
  let c := s32 (n_c k + 1) in
  let l := if x =? 10 then s32 (n_l k + 1) else n_l k in
  if Ulib.in_literal [32; 13; 9; 10; 11] x then Counts l (n_w k) c false
  else if inword k then Counts l (n_w k) c true
  else Counts l (s32 (n_w k + 1)) c true.
Fixpoint wc_buf (n : nat) (p : Z) (k : counts) : Mo counts :=
  match n with
  | O => ret k
  | S n' => x <- rd8 p ;; wc_buf n' (p + 1) (wc_char x k)
  end.
Definition wc_step (buf fd : Z) (k : counts) : Mo (counts + (Z * counts)) :=
  n <- read fd buf 512 ;;
  if 0 <? n then k' <- wc_buf (Z.to_nat n) buf k ;; ret (inl k')
  else ret (inr (n, k)).
Definition wc (buf fd : Z) (name : Uprintf.uarg) : Mo unit :=
  r <- loop (wc_step buf fd) (Counts 0 0 0 false) ;;
  let '(n, k) := r in
  if n <? 0 then printf (text "wc: read error" ++ [10]) [] ;; exit 1
  else printf (text "%d %d %d %s" ++ [10]) [Word (n_l k); Word (n_w k); Word (n_c k); name].

Definition wc_file (buf path : Z) : Mo unit :=
  fd <- open path 0 ;;
  if fd <? 0 then printf (text "wc: cannot open %s" ++ [10]) [Word path] ;; exit 1
  else wc buf fd (Word path) ;; close fd ;; ret tt.
Definition wc_main (buf : Z) (argv : list Z) : Mo unit :=
  if Z.of_nat (length argv) <=? 1 then wc buf 0 (Uprintf.Lit []) ;; exit 0
  else forM (tail argv) (wc_file buf) ;; exit 0.

(** ** kill.c, ln.c, mkdir.c, rm.c, zombie.c *)

Definition kill_main (argv : list Z) : Mo unit :=
  if Z.of_nat (length argv) <? 2 then fprintf 2 (text "usage: kill pid..." ++ [10]) [] ;; exit 1 else
  forM (tail argv) (fun a => pid <- Ulib.atoi a ;; kill pid ;; ret tt) ;;
  exit 0.

Definition ln_main (argv : list Z) : Mo unit :=
  match argv with
  | [_; old; new] =>
      r <- link old new ;;
      (if r <? 0 then fprintf 2 (text "link %s %s: failed" ++ [10]) [Word old; Word new] else ret tt) ;;
      exit 0
  | _ => fprintf 2 (text "Usage: ln old new" ++ [10]) [] ;; exit 1
  end.

(** [call] for each name up to the first that fails. *)
Fixpoint each_name (call : Z -> Mo Z) (msg : list Z) (names : list Z) : Mo unit :=
  match names with
  | [] => ret tt
  | a :: names' =>
      r <- call a ;;
      if r <? 0 then fprintf 2 msg [Word a] else each_name call msg names'
  end.
Definition mkdir_main (argv : list Z) : Mo unit :=
  if Z.of_nat (length argv) <? 2 then fprintf 2 (text "Usage: mkdir files..." ++ [10]) [] ;; exit 1 else
  each_name mkdir (text "mkdir: %s failed to create" ++ [10]) (tail argv) ;;
  exit 0.
Definition rm_main (argv : list Z) : Mo unit :=
  if Z.of_nat (length argv) <? 2 then fprintf 2 (text "Usage: rm files..." ++ [10]) [] ;; exit 1 else
  each_name unlink (text "rm: %s failed to delete" ++ [10]) (tail argv) ;;
  exit 0.

Definition zombie_main : Mo unit :=
  pid <- fork ;;
  (if 0 <? pid then sleep 5 ;; ret tt else ret tt) ;;
  exit 0.

(** ** init.c and initcode.S *)

(** The inner loop, until the shell [pid] is the one waited for. *)
Definition init_wait (pid : Z) (_ : unit) : Mo (unit + unit) :=
  wpid <- wait 0 ;;
  if wpid =? pid then ret (inr tt)
  else if wpid <? 0 then printf (text "init: wait returned an error" ++ [10]) [] ;; exit 1
  else ret (inl tt).
Definition init_step (sh argv : Z) (_ : unit) : Mo (unit + unit) :=
  printf (text "init: starting sh" ++ [10]) [] ;;
  pid <- fork ;;
  if pid <? 0 then printf (text "init: fork failed" ++ [10]) [] ;; exit 1
  else if pid =? 0 then exec sh argv ;; printf (text "init: exec sh failed" ++ [10]) [] ;; exit 1
  else loop (init_wait pid) tt ;; ret (inl tt).
(** [console], [sh] and [argv] are addresses. *)
Definition init_main (console sh argv : Z) : Mo unit :=
  r <- open console 2 ;;
  (if r <? 0 then mknod console 1 0 ;; open console 2 ;; ret tt else ret tt) ;;
  dup 0 ;;
  dup 0 ;;
  loop (init_step sh argv) tt.

(** The argument register of [exit] holds the result of the last call. *)
Definition initcode_start (init argv : Z) : Mo unit :=
  r <- stub 7 [init; argv] ;;
  loop (fun a0 => a <- stub 2 [a0] ;; ret (inl a)) r.

(** ** ls.c *)

Definition DIRSIZ : Z := 14.
Definition rd_le (n : nat) (p : Z) : Mo Z := gets (fun u => le_val (load_bytes (u_mem u) p n)).

Definition last_slash_step (path p : Z) : Mo (Z + Z) :=
  if path <=? p then
    c <- rd8 p ;;
    if c =? 47 then ret (inr p) else ret (inl (p - 1))
  else ret (inr p).
(** [buf] is the static array of [fmtname]. *)
Definition fmtname (buf path : Z) : Mo Z :=
  n <- Ulib.strlen path ;;
  p <- loop (last_slash_step path) (path + n) ;;
  let p := p + 1 in
  n <- Ulib.strlen p ;;
  if DIRSIZ <=? n then ret p else
  Ulib.memmove buf p n ;;
  Ulib.memset (buf + n) 32 (DIRSIZ - n) ;;
  ret buf.

(** [st.type], [st.ino] and [st.size]; an [int] or 64-bit argument of [printf]. *)
Definition stat_words (st : Z) : Mo (list Uprintf.uarg) :=
  ty <- rd_le 2 (st + 8) ;;
  ino <- rd_le 4 (st + 4) ;;
  size <- rd_le 8 (st + 16) ;;
  ret [Word (s16 ty); Word ino; Word size].

Definition ls_entry (sbuf fd buf de st p : Z) (_ : unit) : Mo (unit + unit) :=
  n <- read fd de 16 ;;
  if negb (n =? 16) then ret (inr tt) else
  inum <- rd_le 2 de ;;
  if inum =? 0 then ret (inl tt) else
  Ulib.memmove p (de + 2) DIRSIZ ;;
  wr8 (p + DIRSIZ) 0 ;;
  r <- Ulib.stat buf st ;;
  if r <? 0 then printf (text "ls: cannot stat %s" ++ [10]) [Word buf] ;; ret (inl tt) else
  nm <- fmtname sbuf buf ;;
  ws <- stat_words st ;;
  printf (text "%s %d %d %d" ++ [10]) (Word nm :: ws) ;;
  ret (inl tt).

Definition ls_dir (sbuf fd path buf de st : Z) : Mo unit :=
  n <- Ulib.strlen path ;;
  if 512 <? n + 1 + DIRSIZ + 1 then printf (text "ls: path too long" ++ [10]) [] else
  Ulib.strcpy buf path ;;
  n <- Ulib.strlen buf ;;
  let p := buf + n in
  wr8 p 47 ;;
  loop (ls_entry sbuf fd buf de st (p + 1)) tt.

Definition ls (sbuf path : Z) : Mo unit :=
  local 512 (fun buf => local 16 (fun de => local 24 (fun st =>
    fd <- open path 0 ;;
    if fd <? 0 then fprintf 2 (text "ls: cannot open %s" ++ [10]) [Word path] else
    r <- fstat fd st ;;
    if r <? 0 then fprintf 2 (text "ls: cannot stat %s" ++ [10]) [Word path] ;; close fd ;; ret tt else
    ty <- rd_le 2 (st + 8) ;;
    (if s16 ty =? 2 then
       nm <- fmtname sbuf path ;;
       ws <- stat_words st ;;
       printf (text "%s %d %d %l" ++ [10]) (Word nm :: ws)
     else if s16 ty =? 1 then ls_dir sbuf fd path buf de st
     else ret tt) ;;
    close fd ;;
    ret tt))).
(** [dot] is the literal ["."]. *)
Definition ls_main (sbuf dot : Z) (argv : list Z) : Mo unit :=
  if Z.of_nat (length argv) <? 2 then ls sbuf dot ;; exit 0
  else forM (tail argv) (ls sbuf) ;; exit 0.

End Programs.

(** * Printing *)

Section Printing.
Context {W : Type} `{!Kernel W} (fd : Z) `{!Streams W fd}.
Implicit Types (u : user W).

(** [m] prints [t], and uses one byte of the stack. *)
Definition emitted (o : out (user W) unit) (t : list Z) u : Prop := exists u',
  o = Ok tt u' /\ u_sp u' = u_sp u /\ (forall x, x <> u_sp u - 1 -> u_mem u' x = u_mem u x) /\
  printed fd (u_w u') = printed fd (u_w u) ++ t /\ pending fd (u_w u') = pending fd (u_w u).

Definition emits (m : M (user W) unit) (t : list Z) u : Prop := emitted (m u) t u.

Lemma emits_ret u : emits (ret tt) [] u.
Proof. exists u. by rewrite app_nil_r. Qed.

Lemma emits_bind (m k : M (user W) unit) t t' u :
  emits m t u ->
  (forall u', u_sp u' = u_sp u -> (forall x, x <> u_sp u - 1 -> u_mem u' x = u_mem u x) -> emits k t' u') ->
  emits (m ;; k) (t ++ t') u.
Proof.
  intros (u1&E1&Hs1&Hm1&Hp1&Hq1) Hk. destruct (Hk u1 Hs1 Hm1) as (u2&E2&Hs2&Hm2&Hp2&Hq2).
  exists u2. rewrite (bind_ok _ _ _ _ _ E1). split_and!; [done|congruence| |by rewrite Hp2, Hp1, app_assoc|congruence].
  intros x Hx. rewrite Hm2 by congruence. by apply Hm1.
Qed.

Lemma emits_putc c u : emits (Uprintf.putc 1 c) [u8 c] u.
Proof.
  unfold emits, emitted, Uprintf.putc, local, bind, wr8, modify, write, stub. cbn [u_mem u_sp u_w set_usp set_umem].
  destruct (write_stdout (fd := fd) (store8 (u_mem u) (u_sp u - 1) c) (u_w u) (u_sp u - 1) 1) as (w'&->&Hp&Hq); [lia|].
  eexists. split_and!; [done|done| | |done]; cbn.
  - intros x Hx. unfold store8. by destruct (Z.eqb_spec x (u_sp u - 1)).
  - rewrite Hp. f_equal. change (Z.to_nat 1) with 1%nat. rewrite load_bytes_cons, load8_store8. done.
Qed.

Lemma emits_chars l : Forall is_byte l -> forall u, emits (forM l (Uprintf.putc 1)) l u.
Proof.
  induction 1 as [|c l Hc Hl IH]; intros u; cbn [forM]; [apply emits_ret|].
  rewrite <- (u8_small c) at 2 by done. apply (emits_bind _ _ [u8 c]); [apply emits_putc|intros; apply IH].
Qed.

(** A string in memory, out of the way of the stack. *)
Definition clear (p : Z) (n : nat) u : Prop := u_sp u - 1 < p \/ p + Z.of_nat n < u_sp u - 1.

Lemma emits_string s : Forall is_byte s -> forall p u,
  cstring (u_mem u) p s -> clear p (length s) u -> Z.of_nat (length s) < 2 ^ 63 ->
  emits (loop (Uprintf.puts_step 1) p) s u.
Proof.
  intros Hb p u Hs Hc Hl.
  apply (loop_rule (Uprintf.puts_step 1)
    (fun n p' u' => exists a b, s = a ++ b /\ n = length b /\ p' = p + Z.of_nat (length a) /\ emitted (Ok tt u') a u)
    (fun o => emitted o s u)) with (n := length s); [| |lia].
  - intros n p' u' (a&b&->&->&->&u2&E&Hsp&Hm&Hp&Hq). injection E as <-. unfold Uprintf.puts_step.
    assert (Hb' : cstring (u_mem u') (p + Z.of_nat (length a)) b).
    { apply cstring_drop in Hs. revert Hs. apply cstring_ext. intros x Hx. symmetry. apply Hm.
      unfold clear in Hc. rewrite length_app in Hc. lia. }
    destruct b as [|c b]; [rewrite (bind_ok _ _ _ 0 u') by by apply rd8_ok|].
    + exists u'. by rewrite app_nil_r.
    + destruct Hb' as (Hrd&Hc0&_). rewrite (bind_ok _ _ _ c u') by by apply rd8_ok.
      destruct (Z.eqb_spec c 0); [done|]. destruct (emits_putc c u') as (u2&E2&Hsp2&Hm2&Hp2&Hq2).
      rewrite (bind_ok _ _ _ _ _ E2). exists (length b). split; [cbn; lia|]. exists (a ++ [c]), b.
      rewrite <- app_assoc, length_app. cbn. split_and!; [done|done|lia|]. exists u2.
      rewrite Forall_app, Forall_cons in Hb. destruct Hb as (_&Hc1&_).
      split_and!; [done|congruence| |rewrite Hp2, Hp, <- app_assoc; by rewrite u8_small|congruence].
      intros x Hx. rewrite Hm2 by congruence. by apply Hm.
  - exists [], s. split_and!; [done|done|cbn; lia|]. exists u. by rewrite app_nil_r.
Qed.

(** What the arguments print as. *)
Definition shows (d : Z) (a : Uprintf.uarg) (t : list Z) u : Prop :=
  match a with
  | Uprintf.Word v =>
      if d =? 115 then v <> 0 /\ cstring (u_mem u) v t /\ clear v (length t) u /\ Z.of_nat (length t) < 2 ^ 63
      else (d = 100 /\ t = Uprintf.int_text (s32 v) 10 true) \/ (d = 120 /\ t = Uprintf.int_text (s32 v) 16 false)
  | Uprintf.Lit l => d = 115 /\ t = l
  end.

Lemma emits_plain c fmt ap t u :
  is_byte c -> c <> 37 -> (forall u', u_sp u' = u_sp u -> (forall x, x <> u_sp u - 1 -> u_mem u' x = u_mem u x) ->
     emits (Uprintf.vprintf_loop 1 fmt false ap) t u') ->
  emits (Uprintf.vprintf_loop 1 (c :: fmt) false ap) (c :: t) u.
Proof.
  intros Hb Hc Hk. cbn [Uprintf.vprintf_loop]. destruct (Z.eqb_spec c 37); [done|].
  apply (emits_bind _ _ [c]); [|done]. rewrite <- (u8_small c) at 2 by done. apply emits_putc.
Qed.

Lemma emits_directive d a t fmt ap t' u :
  shows d a t u -> Forall is_byte t ->
  (forall u', u_sp u' = u_sp u -> (forall x, x <> u_sp u - 1 -> u_mem u' x = u_mem u x) ->
     emits (Uprintf.vprintf_loop 1 fmt false ap) t' u') ->
  emits (Uprintf.vprintf_loop 1 (37 :: d :: fmt) false (a :: ap)) (t ++ t') u.
Proof.
  intros Hs Hb Hk. cbn [Uprintf.vprintf_loop Z.eqb Pos.eqb].
  assert (Hd : forall m, emits m t u -> Uprintf.directive 1 d (a :: ap) = (m ;; ret ap) ->
    emits (x <- Uprintf.directive 1 d (a :: ap) ;; Uprintf.vprintf_loop 1 fmt false x) (t ++ t') u).
  { intros m Hm ->. destruct (emits_bind m (Uprintf.vprintf_loop 1 fmt false ap) t t' u Hm Hk) as (u'&E&H).
    exists u'. split; [|done]. rewrite <- E. unfold bind. by destruct (m u). }
  unfold shows in Hs. destruct a as [v|l].
  - destruct (Z.eqb_spec d 115) as [->|Hne].
    + destruct Hs as (Hv&Hs&Hc&Hl). apply (Hd (loop (Uprintf.puts_step 1) v)); [by apply emits_string|].
      unfold Uprintf.directive. cbn [Z.eqb Pos.eqb Uprintf.print_str]. by destruct (Z.eqb_spec v 0).
    + destruct Hs as [[-> ->]|[-> ->]].
      * apply (Hd (Uprintf.printint 1 (s32 v) 10 true)); [by apply emits_chars|done].
      * apply (Hd (Uprintf.printint 1 (s32 v) 16 false)); [by apply emits_chars|done].
  - destruct Hs as [-> ->]. apply (Hd (forM l (Uprintf.putc 1))); [by apply emits_chars|done].
Qed.

End Printing.

(** * [cat] *)

Section Copying.
Context {W : Type} `{!Kernel W} (fd : Z) `{!Streams W fd}.
Implicit Types (u : user W).

(** A [read] into a buffer. *)
Lemma read_buf u a n : 0 <= n ->
  exists k u', read fd a n u = Ok (Z.of_nat (length k)) u' /\ u_sp u' = u_sp u /\ u_mem u' = store_bytes (u_mem u) a k /\
    pending fd (u_w u) = k ++ pending fd (u_w u') /\ Z.of_nat (length k) <= n /\
    (k = [] -> pending fd (u_w u) = [] \/ n = 0) /\ printed fd (u_w u') = printed fd (u_w u).
Proof.
  intros Hn. destruct (read_stream (fd := fd) (u_mem u) (u_w u) a n Hn) as (k&w'&E&H1&H2&H3&H4). exists k.
  exists (User (store_bytes (u_mem u) a k) (u_sp u) w'). unfold read, stub. rewrite E. by split_and!.
Qed.

(** [cat] copies: with a descriptor that delivers its bytes in pieces of any size, it
    prints all of them, in order, and nothing else, and returns at the end. *)
Theorem cat_correct u buf :
  Forall is_byte (pending fd (u_w u)) -> Z.of_nat (length (pending fd (u_w u))) < 2 ^ 63 ->
  exists u', cat buf fd u = Ok tt u' /\ pending fd (u_w u') = [] /\
    printed fd (u_w u') = printed fd (u_w u) ++ pending fd (u_w u).
Proof.
  intros Hb Hl. unfold cat.
  assert (H : exists u', loop (cat_step buf fd) tt u = Ok 0 u' /\ pending fd (u_w u') = [] /\
    printed fd (u_w u') = printed fd (u_w u) ++ pending fd (u_w u)).
  { apply (loop_rule (cat_step buf fd)
      (fun n _ u1 => n = length (pending fd (u_w u1)) /\ Forall is_byte (pending fd (u_w u1)) /\
         printed fd (u_w u1) ++ pending fd (u_w u1) = printed fd (u_w u) ++ pending fd (u_w u))
      (fun o => exists u', o = Ok 0 u' /\ pending fd (u_w u') = [] /\
         printed fd (u_w u') = printed fd (u_w u) ++ pending fd (u_w u)))
      with (n := length (pending fd (u_w u))); [|done|lia].
    intros n [] u1 (->&Hb1&Hp1). unfold cat_step.
    destruct (read_buf u1 buf 512 ltac:(lia)) as (k&u2&E&_&Hm&Hk&_&Hk0&Hp). rewrite (bind_ok _ _ _ _ _ E).
    rewrite Hk in Hb1, Hp1. apply Forall_app in Hb1 as [Hbk Hb2]. destruct k as [|c k].
    - destruct (Hk0 eq_refl) as [Hnil|?]; [|lia]. rewrite Hnil in Hk. cbn in Hk. exists u2.
      split_and!; [done|done|]. cbn in Hp1. by rewrite <- Hk, app_nil_r, <- Hp in Hp1.
    - set (l := c :: k) in *. destruct (Z.ltb_spec 0 (Z.of_nat (length l))); [|cbn in *; lia].
      destruct (write_stdout (fd := fd) (u_mem u2) (u_w u2) buf (Z.of_nat (length l))) as (w3&Ew&Hpr&Hpe); [lia|].
      rewrite (bind_ok _ _ _ (Z.of_nat (length l)) (User (u_mem u2) (u_sp u2) w3)) by (unfold write, stub; by rewrite Ew).
      rewrite Z.eqb_refl. cbn [negb]. exists (length (pending fd w3)). rewrite Hk, Hpe, length_app.
      split; [cbn; lia|]. cbn [u_w]. rewrite Hpe, Hpr, Hm, Nat2Z.id, load_store_bytes, Hp by done.
      split_and!; [done|done|]. by rewrite <- app_assoc. }
  destruct H as (u'&E&H). exists u'. by rewrite (bind_ok _ _ _ _ _ E).
Qed.

(** * [wc] *)

Definition white (c : Z) : bool := Ulib.in_literal [32; 13; 9; 10; 11] c.

(** The text cut at white space; the words are the pieces that are not empty. *)
Fixpoint fields (s : list Z) : list (list Z) :=
  match s with
  | [] => [[]]
  | c :: s' => if white c then [] :: fields s'
               else match fields s' with f :: fs => (c :: f) :: fs | [] => [[c]] end
  end.
Definition words (s : list Z) : nat := length (filter (fun f => f <> []) (fields s)).
Definition lines (s : list Z) : nat := length (filter (fun c => c = 10) s).

(** The words of a text that goes on in a word that has been counted. *)
Definition more_words (inside : bool) (s : list Z) : nat :=
  if inside then match fields s with [] :: _ => words s | _ => pred (words s) end else words s.

Lemma fields_cons s : exists f fs, fields s = f :: fs.
Proof. destruct s as [|c s]; cbn [fields]; [by eexists _, _|]. destruct (white c); [by eexists _, _|]. destruct (fields s); by eexists _, _. Qed.

Lemma more_words_cons inside c s :
  more_words inside (c :: s) =
  if white c then more_words false s else ((if inside then 0 else 1) + more_words true s)%nat.
Proof.
  unfold more_words, words. cbn [fields]. destruct (fields_cons s) as (f&fs&->).
  destruct (white c); [by destruct inside|]. rewrite (filter_cons_True _ (c :: f)) by done.
  destruct f as [|x f]; [rewrite filter_cons_False by tauto|rewrite filter_cons_True by done]; destruct inside; cbn; lia.
Qed.

Lemma more_words_nil inside : more_words inside [] = 0%nat.
Proof. by destruct inside. Qed.

Lemma more_words_le s : forall inside, (more_words inside s <= length s)%nat.
Proof.
  induction s as [|c s IH]; intros inside; [by rewrite more_words_nil|]. rewrite more_words_cons. cbn [length].
  destruct (white c); [specialize (IH false); lia|]. specialize (IH true). destruct inside; lia.
Qed.

Definition counting (k : counts) (s : list Z) : counts :=
  foldl (fun k x => wc_char x k) k s.

Lemma counting_spec s : forall k,
  0 <= n_l k -> 0 <= n_w k -> 0 <= n_c k -> n_l k <= n_c k -> n_w k <= n_c k -> n_c k + Z.of_nat (length s) < 2 ^ 31 ->
  let k' := counting k s in
  n_l k' = n_l k + Z.of_nat (lines s) /\ n_w k' = n_w k + Z.of_nat (more_words (inword k) s) /\
  n_c k' = n_c k + Z.of_nat (length s).
Proof.
  induction s as [|c s IH]; intros k Hl Hw Hc Hlc Hwc Hmax k'; subst k'.
  - rewrite (more_words_nil (inword k)). cbn. lia.
  - cbn [counting foldl length] in *. fold (counting (wc_char c k) s).
    rewrite more_words_cons. unfold lines in *. unfold wc_char. fold (white c).
    rewrite !(s32_small (n_c k + 1)), (s32_small (n_l k + 1)), (s32_small (n_w k + 1)) by lia.
    assert (El : Z.of_nat (length (filter (fun c => c = 10) (c :: s))) =
      (if c =? 10 then 1 else 0) + Z.of_nat (length (filter (fun c => c = 10) s))).
    { destruct (Z.eqb_spec c 10); [rewrite filter_cons_True by done|rewrite filter_cons_False by done]; cbn; lia. }
    rewrite El. destruct (white c), (inword k), (c =? 10); cbn [n_l n_w n_c inword];
      match goal with |- context [counting ?k s] => destruct (IH k) as (->&->&->); cbn [n_l n_w n_c inword]; lia end.
Qed.

(** Decimal numerals. *)
Definition numeral (d : list Z) (n : Z) : Prop :=
  d <> [] /\ Forall (fun c => 48 <= c <= 57) d /\ foldl (fun a c => 10 * a + (c - 48)) 0 d = n.

Lemma digits_of_spec fuel : forall x, (0 < fuel)%nat -> 0 <= x < 10 ^ Z.of_nat fuel ->
  Uprintf.digits_of fuel x 10 <> [] /\ Forall (fun c => 48 <= c <= 57) (Uprintf.digits_of fuel x 10) /\
  foldr (fun c a => 10 * a + (c - 48)) 0 (Uprintf.digits_of fuel x 10) = x.
Proof.
  induction fuel as [|fuel IH]; intros x Hf Hx; [lia|]. cbn [Uprintf.digits_of].
  pose proof (Z.mod_pos_bound x 10 ltac:(lia)). pose proof (Z.div_mod x 10 ltac:(lia)).
  assert (Ed : Uprintf.digit (x mod 10) = 48 + x mod 10).
  { unfold Uprintf.digit. destruct (Z.ltb_spec (x mod 10) 10); lia. }
  rewrite Ed. destruct (Z.eqb_spec (x / 10) 0) as [E0|E0].
  - split_and!; [done|repeat constructor; lia|cbn; lia].
  - rewrite Nat2Z.inj_succ, Z.pow_succ_r in Hx by lia.
    assert (0 <= x / 10 < 10 ^ Z.of_nat fuel) by (split; [apply Z.div_pos; lia|apply Z.div_lt_upper_bound; lia]).
    destruct fuel as [|fuel]; [cbn in *; lia|]. destruct (IH (x / 10)) as (_&Hd&Hv); [lia|done|].
    split_and!; [done|constructor; [lia|done]|]. cbn [foldr]. rewrite Hv. lia.
Qed.

Lemma foldl_rev {A} (f : A -> Z -> A) (l : list Z) : forall a, foldl f a (rev l) = foldr (fun c a => f a c) a l.
Proof. induction l as [|c l IH]; intros a; [done|]. cbn [rev foldr]. by rewrite foldl_app, IH. Qed.

Lemma int_text_numeral x : 0 <= x < 2 ^ 31 -> numeral (Uprintf.int_text (s32 x) 10 true) x.
Proof.
  intros Hx. unfold Uprintf.int_text. rewrite s32_small by lia. cbn [andb]. destruct (Z.ltb_spec x 0); [lia|].
  rewrite u32_small by lia. destruct (digits_of_spec 32 x) as (Hn&Hf&Hv); [lia|split; [lia|]|].
  { eapply Z.lt_trans; [apply Hx|]. by vm_compute. }
  split_and!; [|by apply Forall_rev|by rewrite foldl_rev].
  intros E%(f_equal (@length Z)). rewrite length_rev in E. by destruct (Uprintf.digits_of 32 x 10).
Qed.

Lemma numeral_bytes d n : numeral d n -> Forall is_byte d.
Proof. intros (_&Hf&_). eapply Forall_impl; [exact Hf|]. intros c. cbn. unfold is_byte. lia. Qed.

Lemma cstring_is_byte m s : forall p, cstring m p s -> Forall is_byte s.
Proof.
  induction s as [|c s IH]; intros p; [by constructor|]. intros (<-&_&H). constructor; [apply u8_range|by eapply IH].
Qed.

Lemma wc_buf_spec n : forall p k u, wc_buf n p k u = Ok (counting k (load_bytes (u_mem u) p n)) u.
Proof.
  induction n as [|n IH]; intros p k u; [done|]. cbn [wc_buf].
  rewrite (bind_ok _ _ _ (load8 (u_mem u) p) u) by done. by rewrite IH, load_bytes_cons.
Qed.

(** The loop reads and counts everything. *)
Lemma wc_loop_spec u buf k :
  Forall is_byte (pending fd (u_w u)) -> Z.of_nat (length (pending fd (u_w u))) < 2 ^ 63 ->
  exists u', loop (wc_step buf fd) k u = Ok (0, counting k (pending fd (u_w u))) u' /\ u_sp u' = u_sp u /\
    printed fd (u_w u') = printed fd (u_w u) /\ pending fd (u_w u') = [] /\
    (forall x, x < buf \/ buf + 512 <= x -> u_mem u' x = u_mem u x).
Proof.
  intros Hb Hl.
  apply (loop_rule (wc_step buf fd)
    (fun n k1 u1 => n = length (pending fd (u_w u1)) /\ Forall is_byte (pending fd (u_w u1)) /\
       counting k1 (pending fd (u_w u1)) = counting k (pending fd (u_w u)) /\ u_sp u1 = u_sp u /\
       printed fd (u_w u1) = printed fd (u_w u) /\ (forall x, x < buf \/ buf + 512 <= x -> u_mem u1 x = u_mem u x))
    (fun o => exists u', o = Ok (0, counting k (pending fd (u_w u))) u' /\ u_sp u' = u_sp u /\
       printed fd (u_w u') = printed fd (u_w u) /\ pending fd (u_w u') = [] /\
       (forall x, x < buf \/ buf + 512 <= x -> u_mem u' x = u_mem u x)))
    with (n := length (pending fd (u_w u))); [|done|lia].
  intros n k1 u1 (->&Hb1&Hk1&Hsp1&Hp1&Hm1). unfold wc_step.
  destruct (read_buf u1 buf 512 ltac:(lia)) as (l&u2&E&Hsp2&Hm2&Hq2&Hle&Hl0&Hp2). rewrite (bind_ok _ _ _ _ _ E).
  assert (Hm : forall x, x < buf \/ buf + 512 <= x -> u_mem u2 x = u_mem u x).
  { intros x Hx. rewrite Hm2, store_bytes_out by lia. by apply Hm1. }
  rewrite Hq2 in Hb1, Hk1. apply Forall_app in Hb1 as [Hbl Hb2]. destruct l as [|c l].
  - destruct (Hl0 eq_refl) as [Hnil|?]; [|lia]. rewrite Hnil in Hq2. cbn in Hq2, Hk1. rewrite <- Hq2 in Hk1. cbn in Hk1.
    exists u2. split_and!; [by rewrite Hk1|congruence|congruence|done|done].
  - set (s := c :: l) in *. destruct (Z.ltb_spec 0 (Z.of_nat (length s))); [|cbn in *; lia].
    rewrite (bind_ok _ _ _ _ _ (wc_buf_spec _ _ _ _)), Hm2, Nat2Z.id, load_store_bytes by done.
    exists (length (pending fd (u_w u2))). rewrite Hq2, length_app. split; [cbn; lia|].
    unfold counting in *. rewrite foldl_app in Hk1. split_and!; [done|done|done|congruence|congruence|done].
Qed.

(** The line [wc] prints. *)
Lemma wc_line u k name nm :
  0 <= n_l k < 2 ^ 31 -> 0 <= n_w k < 2 ^ 31 -> 0 <= n_c k < 2 ^ 31 ->
  name <> 0 -> cstring (u_mem u) name nm -> Z.of_nat (length nm) < 2 ^ 63 -> clear name (length nm) u ->
  emits fd (Uprintf.printf (Uprintf.lit "%d %d %d %s" ++ [10])
      [Uprintf.Word (n_l k); Uprintf.Word (n_w k); Uprintf.Word (n_c k); Uprintf.Word name])
    (Uprintf.int_text (s32 (n_l k)) 10 true ++ 32 :: Uprintf.int_text (s32 (n_w k)) 10 true ++ 32 ::
     Uprintf.int_text (s32 (n_c k)) 10 true ++ 32 :: nm ++ [10]) u.
Proof.
  intros Hl Hw Hc Hnz Hnm Hnl Hcl. unfold Uprintf.printf, Uprintf.vprintf.
  change (Uprintf.lit "%d %d %d %s" ++ [10]) with [37; 100; 32; 37; 100; 32; 37; 100; 32; 37; 115; 10].
  assert (Hd : forall x u', 0 <= x < 2 ^ 31 -> shows 100 (Uprintf.Word x) (Uprintf.int_text (s32 x) 10 true) u' /\
    Forall is_byte (Uprintf.int_text (s32 x) 10 true)).
  { intros x u' Hx. split; [by left|]. by eapply numeral_bytes, int_text_numeral. }
  apply emits_directive; [by apply Hd..|]. intros u1 Hs1 Hm1. apply emits_plain; [done|done|]. intros u2 Hs2 Hm2.
  apply emits_directive; [by apply Hd..|]. intros u3 Hs3 Hm3. apply emits_plain; [done|done|]. intros u4 Hs4 Hm4.
  apply emits_directive; [by apply Hd..|]. intros u5 Hs5 Hm5. apply emits_plain; [done|done|]. intros u6 Hs6 Hm6.
  assert (Hs : u_sp u6 = u_sp u) by congruence.
  apply emits_directive; [|by eapply cstring_is_byte|intros u7 _ _; apply emits_plain; [done|done|intros; apply emits_ret]].
  unfold shows. cbn [Z.eqb Pos.eqb]. split_and!; [done| |by unfold clear in *; rewrite Hs|done].
  revert Hnm. apply cstring_ext. intros x Hx. unfold clear in Hcl.
  rewrite Hm6, Hm5, Hm4, Hm3, Hm2, Hm1 by (rewrite ?Hs5, ?Hs4, ?Hs3, ?Hs2, ?Hs1; lia). done.
Qed.

(** [wc] counts: it reads everything the descriptor delivers, and prints the number of
    newlines, of words (the pieces between white space that are not empty) and of bytes in
    decimal, and the name. *)
Theorem wc_correct u buf name nm :
  let s := pending fd (u_w u) in
  Forall is_byte s -> Z.of_nat (length s) < 2 ^ 31 ->
  name <> 0 -> cstring (u_mem u) name nm -> Z.of_nat (length nm) < 2 ^ 63 -> clear name (length nm) u ->
  name + Z.of_nat (length nm) < buf \/ buf + 512 <= name ->
  exists u' dl dw dc, wc buf fd (Uprintf.Word name) u = Ok tt u' /\ pending fd (u_w u') = [] /\
    printed fd (u_w u') = printed fd (u_w u) ++ dl ++ 32 :: dw ++ 32 :: dc ++ 32 :: nm ++ [10] /\
    numeral dl (Z.of_nat (lines s)) /\ numeral dw (Z.of_nat (words s)) /\ numeral dc (Z.of_nat (length s)).
Proof.
  intros s Hb Hl Hnz Hnm Hnl Hcl Hbuf. unfold wc. assert (Hl' : Z.of_nat (length s) < 2 ^ 63) by lia.
  destruct (wc_loop_spec u buf (Counts 0 0 0 false) Hb Hl') as (u1&E&Hsp&Hp&Hq&Hm). rewrite (bind_ok _ _ _ _ _ E).
  cbv beta iota. cbn [Z.ltb Z.compare]. fold s. clear E. set (k := counting _ s).
  destruct (counting_spec s (Counts 0 0 0 false)) as (El&Ew&Ec); [done..|]. fold k in El, Ew, Ec. cbn [n_l n_w n_c inword more_words] in El, Ew, Ec.
  pose proof (more_words_le s false) as Hwle. pose proof (length_filter (fun c => c = 10) s) as Hlle. fold (lines s) in Hlle.
  cbn [more_words] in Hwle.
  destruct (wc_line u1 k name nm) as (u2&E2&_&_&Hp2&Hq2); [lia..|done| |done|by unfold clear in *; rewrite Hsp|].
  { revert Hnm. apply cstring_ext. intros x Hx. symmetry. apply Hm. lia. }
  exists u2. eexists _, _, _. split_and!; [exact E2|congruence|by rewrite Hp2, Hp|..].
  - replace (Z.of_nat (lines s)) with (n_l k) by lia. apply int_text_numeral. lia.
  - replace (Z.of_nat (words s)) with (n_w k) by lia. apply int_text_numeral. lia.
  - replace (Z.of_nat (length s)) with (n_c k) by lia. apply int_text_numeral. lia.
Qed.

End Copying.

(** * Examples *)

Module Input.
Import Stdio.
(** The file [ab c] / [d], read 5 bytes at a time, and the name [f]. *)
Definition contents : list Z := Uprintf.lit "ab  c" ++ [10] ++ Uprintf.lit "d" ++ [10].
Definition init : user state := User (store_bytes (fun _ => 0) 100 (Uprintf.lit "f")) 4096 (contents, []).
End Input.

Lemma cat_correct_witness : exists u', cat 1024 0 Input.init = Ok tt u' /\ printed 0 (u_w u') = Input.contents.
Proof.
  destruct (cat_correct 0 Input.init 1024) as (u'&E&_&H); [by apply (bool_decide_unpack _)|done|]. by exists u'.
Defined.

Lemma wc_correct_witness : exists u' dl dw dc, wc 1024 0 (Uprintf.Word 100) Input.init = Ok tt u' /\
  printed 0 (u_w u') = dl ++ 32 :: dw ++ 32 :: dc ++ [32; 102; 10] /\ numeral dl 2 /\ numeral dw 3 /\ numeral dc 8.
Proof.
  destruct (wc_correct 0 Input.init 1024 100 (Uprintf.lit "f")) as (u'&dl&dw&dc&E&_&H&H1&H2&H3);
    [by apply (bool_decide_unpack _)|done|done|vm_compute; repeat split; discriminate|done|right; done|left; done|].
  exists u', dl, dw, dc. exact (conj E (conj H (conj H1 (conj H2 H3)))).
Defined.
