(* ===== verification/Grep.v ===== *)
(** grep: [src/user/grep.c].

    The matcher of Kernighan and Pike over strings in memory, and the loop that
    splits what [read] delivers into lines. The theorems give the matcher its
    meaning, a language for each pattern, and show that the loop prints the
    lines of the input in that language, however the input arrives. *)

From S2P Require Import Prelude Cstring User.
Local Open Scope kernel_scope.

Section Grep.
Context {W : Type}.

(** * The matcher *)

(** One round of the [do] loop; its condition ends it at the NUL, and after a
    character that is neither [c] nor matched by [.]. *)
Definition matchstar_step (matchhere : Z * Z -> M (user W) bool) (c re text : Z) : M (user W) (Z + bool) :=
  b <- matchhere (re, text) ;;
  if (b : bool) then ret (inr true) else
  t <- rd8 text ;;
  if nz t && ((t =? c) || (c =? 46)) then ret (inl (text + 1)) else ret (inr false).
Definition matchstar (matchhere : Z * Z -> M (user W) bool) (c re text : Z) : M (user W) bool :=
  loop (matchstar_step matchhere c re) text.

Definition matchhere_body (matchhere : Z * Z -> M (user W) bool) (rt : Z * Z) : M (user W) bool :=
  let '(re, text) := rt in
  c0 <- rd8 re ;;
  if c0 =? 0 then ret true else
  c1 <- rd8 (re + 1) ;;
  if c1 =? 42 then matchstar matchhere c0 (re + 2) text
  else
    t <- rd8 text ;;
    if (c0 =? 36) && (c1 =? 0) then ret (t =? 0)
    else if nz t && ((c0 =? 46) || (c0 =? t)) then matchhere (re + 1, text + 1)
    else ret false.
Definition matchhere : Z * Z -> M (user W) bool := fixp matchhere_body.

Definition match_step (re text : Z) : M (user W) (Z + bool) :=
  b <- matchhere (re, text) ;;
  if (b : bool) then ret (inr true) else
  t <- rd8 text ;;
  if nz t then ret (inl (text + 1)) else ret (inr false).
Definition match_ (re text : Z) : M (user W) bool :=
  c <- rd8 re ;;
  if c =? 94 then matchhere (re + 1, text) else loop (match_step re) text.

(** * The loop over the input *)

Context `{!Kernel W}.

(** [while ((q = strchr(p, '\n')) != 0) { ... }] *)
Definition line_step (pattern p : Z) : M (user W) (Z + Z) :=
  q <- Ulib.strchr p 10 ;;
  if q =? 0 then ret (inr p) else
  wr8 q 0 ;;
  b <- match_ pattern p ;;
  (if (b : bool) then wr8 q 10 ;; write 1 p (q + 1 - p) ;; ret tt else ret tt) ;;
  ret (inl (q + 1)).

(** [buf] is a global array of 1024 bytes. *)
Definition grep_step (buf pattern fd m : Z) : M (user W) (Z + unit) :=
  n <- read fd (buf + m) (1024 - m - 1) ;;
  if n <=? 0 then ret (inr tt) else
  let m := m + n in
  wr8 (buf + m) 0 ;;
  p <- loop (line_step pattern) buf ;;
  if 0 <? m then
    let m := m - (p - buf) in
    Ulib.memmove buf p m ;;
    ret (inl m)
  else ret (inl m).
Definition grep (buf pattern fd : Z) : M (user W) unit := loop (grep_step buf pattern fd) 0.

(** [for (i = 2; i < argc; i++)]; [argv] has [argc] pointers. *)
Definition grep_file (buf pattern path : Z) : M (user W) unit :=
  fd <- open path 0 ;;
  if fd <? 0 then Uprintf.printf (Uprintf.lit "grep: cannot open %s" ++ [10]) [Uprintf.Word path] ;; exit 1
  else grep buf pattern fd ;; close fd ;; ret tt.
Definition main (buf : Z) (argv : list Z) : M (user W) unit :=
  match argv with
  | _ :: pattern :: [] => grep buf pattern 0 ;; exit 0
  | _ :: pattern :: files => forM files (grep_file buf pattern) ;; exit 0
  | _ => Uprintf.fprintf 2 (Uprintf.lit "usage: grep pattern [file ...]" ++ [10]) [] ;; exit 1
  end.

End Grep.

(** * What a pattern means *)

Inductive item : Type :=
| One (c : Z)
| Star (c : Z).

(** The items of a pattern, and whether a final [$] anchors it. *)
Fixpoint items (re : list Z) : list item * bool :=
  match re with
  | [] => ([], false)
  | c :: re1 =>
      match re1 with
      | [] => if c =? 36 then ([], true) else ([One c], false)
      | x :: re2 =>
          if x =? 42 then (Star c :: (items re2).1, (items re2).2)
          else (One c :: (items re1).1, (items re1).2)
      end
  end.

Definition accepts (c x : Z) : Prop := c = 46 \/ c = x.

(** The language of a list of items. *)
Fixpoint lang (l : list item) (s : list Z) : Prop :=
  match l with
  | [] => s = []
  | One c :: l' => exists x s', s = x :: s' /\ accepts c x /\ lang l' s'
  | Star c :: l' => exists s1 s2, s = s1 ++ s2 /\ Forall (accepts c) s1 /\ lang l' s2
  end.

(** [text] starts with a word of the pattern, and is one if the pattern ends in [$]. *)
Definition starts (re text : list Z) : Prop :=
  exists s r, text = s ++ r /\ lang (items re).1 s /\ ((items re).2 = true -> r = []).

(** The pattern matches somewhere in [text], or at its start after [^]. *)
Definition matches (re text : list Z) : Prop :=
  match re with
  | 94 :: re' => starts re' text
  | _ => exists p t, text = p ++ t /\ starts re t
  end.

Lemma starts_nil T : starts [] T.
Proof. by exists [], T. Qed.

Lemma starts_end T : starts [36] T <-> T = [].
Proof.
  split.
  - intros (s&r&->&Hs&Hr). cbn in *. by rewrite Hs, Hr.
  - intros ->. by exists [], [].
Qed.

Lemma starts_star c re T :
  starts (c :: 42 :: re) T <->
  starts re T \/ exists x T', T = x :: T' /\ accepts c x /\ starts (c :: 42 :: re) T'.
Proof.
  unfold starts. cbn. split.
  - intros (s&r&->&(s1&s2&->&Hc&Hs)&Hr). destruct Hc as [|x s1 Hx Hc].
    + left. by exists s2, r.
    + right. exists x, ((s1 ++ s2) ++ r). split_and!; [done|done|].
      exists (s1 ++ s2), r. split_and!; [done| |done]. by exists s1, s2.
  - intros [(s&r&->&Hs&Hr)|(x&T'&->&Hx&s&r&->&(s1&s2&->&Hc&Hs)&Hr)].
    + exists s, r. split_and!; [done| |done]. by exists [], s.
    + exists ((x :: s1) ++ s2), r. split_and!; [done| |done]. exists (x :: s1), s2.
      split_and!; [done| |done]. by constructor.
Qed.

Lemma starts_star_here c re T : starts re T -> starts (c :: 42 :: re) T.
Proof. rewrite starts_star. by left. Qed.

Lemma starts_star_end c re : ~ starts re [] -> ~ starts (c :: 42 :: re) [].
Proof. rewrite starts_star. by intros ? [?|(?&?&[=]&_)]. Qed.

Lemma starts_star_step c re x T :
  ~ starts re (x :: T) -> starts (c :: 42 :: re) (x :: T) <-> accepts c x /\ starts (c :: 42 :: re) T.
Proof.
  intros Hno. rewrite starts_star. split; [intros [?|(?&?&[= <- <-]&?&?)]; done|].
  intros [??]. right. by exists x, T.
Qed.

Lemma starts_one c re T :
  hd_error re <> Some 42 -> c :: re <> [36] ->
  starts (c :: re) T <-> exists x T', T = x :: T' /\ accepts c x /\ starts re T'.
Proof.
  intros H1 H2. assert (E : items (c :: re) = (One c :: (items re).1, (items re).2)).
  { cbn. destruct re as [|x re2].
    - destruct (Z.eqb_spec c 36) as [->|]; [done|done].
    - destruct (Z.eqb_spec x 42) as [->|]; [done|done]. }
  unfold starts. rewrite E. cbn. split.
  - intros (s&r&->&(x&s'&->&Hx&Hs)&Hr). exists x, (s' ++ r). split_and!; [done|done|]. by exists s', r.
  - intros (x&T'&->&Hx&s&r&->&Hs&Hr). exists (x :: s), r. split_and!; [done| |done]. by exists x, s.
Qed.

Section Matcher.
Context {W : Type}.
Implicit Types (u : user W) (R T : list Z).

Definition is_true_iff (o : out (user W) bool) u (P : Prop) : Prop :=
  exists b, o = Ok b u /\ (b = true <-> P).

#[global] Instance is_true_iff_proper o u : Proper (iff ==> iff) (is_true_iff o u).
Proof.
  intros P Q E. unfold is_true_iff. split; intros (b&?&Hb); exists b; (split; [done|]).
  - by rewrite <- E.
  - by rewrite E.
Qed.

(** The loop of [matchstar], given what [matchhere] decides. *)
Lemma matchstar_spec (mh : Z * Z -> M (user W) bool) u c re R :
  (forall text T, cstring (u_mem u) text T -> Z.of_nat (length T) < 2 ^ 63 ->
     is_true_iff (mh (re, text) u) u (starts R T)) ->
  forall text T, cstring (u_mem u) text T -> Z.of_nat (length T) < 2 ^ 63 ->
  is_true_iff (matchstar mh c re text u) u (starts (c :: 42 :: R) T).
Proof.
  intros Hmh text T HT Hlen. unfold matchstar.
  apply (loop_rule (matchstar_step mh c re)
    (fun n text' u' => u' = u /\ exists T', cstring (u_mem u) text' T' /\ n = length T' /\
       Z.of_nat n < 2 ^ 63 /\ (starts (c :: 42 :: R) T' <-> starts (c :: 42 :: R) T))
    (fun o => is_true_iff o u (starts (c :: 42 :: R) T))) with (n := length T); [|eauto 10|lia].
  intros n text' u' (->&T'&HT'&->&Hn&Heq). unfold matchstar_step, bind.
  destruct (Hmh text' T' HT' Hn) as (b&->&Hb). destruct b.
  { exists true. split; [done|]. split; [|done]. intros _. apply Heq, starts_star_here, Hb. done. }
  assert (Hno : ~ starts R T') by (intros H; by apply Hb in H). destruct T' as [|x T'].
  - rewrite (rd8_ok _ _ 0) by done. cbn. exists false. split; [done|]. split; [done|].
    intros H. by apply Heq, starts_star_end in H.
  - destruct HT' as (Hx&Hx0&HT'). rewrite (rd8_ok _ _ x) by done. cbv beta iota.
    rewrite starts_star_step in Heq by done.
    unfold nz. destruct (Z.eqb_spec x 0); [lia|]. cbn [negb andb].
    destruct ((x =? c) || (c =? 46)) eqn:E.
    + assert (Ha : accepts c x) by (unfold accepts; lia).
      exists (length T'). split; [cbn; lia|]. split; [done|]. exists T'. split_and!; [done..|cbn in Hn; lia|].
      rewrite <- Heq. split; [done|]. by intros [??].
    + exists false. split; [done|]. rewrite <- Heq. split; [done|]. intros [Ha _]. unfold accepts in Ha. lia.
Qed.

Lemma matchhere_spec u re R text T :
  cstring (u_mem u) re R -> cstring (u_mem u) text T ->
  Z.of_nat (length R) < 2 ^ 63 -> Z.of_nat (length T) < 2 ^ 63 ->
  is_true_iff (matchhere (re, text) u) u (starts R T).
Proof.
  intros HR HT HlR HlT. unfold matchhere.
  apply (fixp_rule matchhere_body
    (fun n a u' => u' = u /\ exists R, cstring (u_mem u) a.1 R /\ n = length R)
    (fun a u' o => forall R T, cstring (u_mem u) a.1 R -> cstring (u_mem u) a.2 T ->
       Z.of_nat (length T) < 2 ^ 63 -> is_true_iff o u (starts R T))) with (n := length R);
    [|by eauto|lia|done..].
  clear re R text T HR HT HlR HlT. intros n f [re text] u' (->&R&HR&->) IH R' T HR' HT HlT.
  cbn [fst snd] in *. rewrite (cstring_inj _ _ _ _ HR' HR). clear R' HR'.
  unfold matchhere_body, bind. destruct R as [|c0 R].
  { rewrite (rd8_ok _ _ 0) by done. exists true. split; [done|]. split; [|done]. intros _. apply starts_nil. }
  destruct HR as (Hc0&Hn0&HR). rewrite (rd8_ok _ _ c0) by done. cbv beta iota.
  destruct (Z.eqb_spec c0 0); [done|].
  destruct (decide (hd_error R = Some 42)) as [H42|Hns].
  - destruct R as [|? R2]; [done|]. injection H42 as ->.
    destruct HR as (H1&_&HR). rewrite (rd8_ok _ _ 42) by done. cbn.
    replace (re + 1 + 1) with (re + 2) in HR by lia.
    apply matchstar_spec; [|done|done]. intros text' T' HT' HlT'.
    apply (IH (length R2) (re + 2, text') u); [cbn; lia|by eauto|done..].
  - set (c1 := load8 (u_mem u) (re + 1)). rewrite (rd8_ok _ (re + 1) c1) by done. cbv beta iota.
    assert (Hc1 : c1 <> 42 /\ (c1 = 0 <-> R = [])).
    { unfold c1. destruct R as [|x R]; cbn in *; [rewrite HR; done|]. destruct HR as (->&?&?). naive_solver. }
    destruct Hc1 as [H42 H0]. destruct (Z.eqb_spec c1 42); [done|].
    set (t := load8 (u_mem u) text). rewrite (rd8_ok _ text t) by done. cbv beta iota.
    assert (Ht : t = 0 <-> T = []).
    { unfold t. destruct T as [|x T]; cbn in *; [rewrite HT; done|]. destruct HT as (->&?&?). done. }
    destruct ((c0 =? 36) && (c1 =? 0)) eqn:Eend.
    + assert (E36 : c0 = 36 /\ R = []) by (rewrite <- H0; lia). destruct E36 as [-> ->].
      exists (t =? 0). split; [done|]. by rewrite starts_end, Z.eqb_eq.
    + rewrite starts_one; [|done|intros [= -> ->]; cbn in Eend; destruct H0 as [_ H0]; specialize (H0 eq_refl); lia].
      destruct T as [|x T].
      { destruct Ht as [_ ->]; [|done]. exists false. split; [done|]. split; [done|]. by intros (?&?&?&?). }
      destruct HT as (Ex&Hx&HT). fold t in Ex. subst t. rewrite Ex in *. unfold nz.
      destruct (Z.eqb_spec x 0); [done|]. cbn [negb andb].
      destruct ((c0 =? 46) || (c0 =? x)) eqn:Ea.
      * destruct (IH (length R) (re + 1, text + 1) u) with (R := R) (T := T) as (b&Hb&Hiff);
          [cbn; lia|by eauto|done|done|cbn in HlT; lia|].
        exists b. split; [done|]. rewrite Hiff. split; [|by intros (?&?&[= <- <-]&?&?)].
        intros. exists x, T. split_and!; [done|unfold accepts; lia|done].
      * exists false. split; [done|]. split; [done|]. intros (?&?&[= <- <-]&Ha&_). unfold accepts in Ha. lia.
Qed.

Lemma match_spec u re R text T :
  cstring (u_mem u) re R -> cstring (u_mem u) text T ->
  Z.of_nat (length R) < 2 ^ 63 -> Z.of_nat (length T) < 2 ^ 63 ->
  is_true_iff (match_ re text u) u (matches R T).
Proof.
  intros HR HT HlR HlT. unfold match_, bind.
  set (c := load8 (u_mem u) re). rewrite (rd8_ok _ re c) by done. cbv beta iota.
  destruct (Z.eqb_spec c 94) as [E|E].
  - destruct R as [|x R]; [cbn in HR; lia|]. destruct HR as (Ex&_&HR).
    assert (x = 94) as -> by lia. cbn [matches]. apply matchhere_spec; [done..|cbn in HlR; lia|done].
  - assert (Hm : forall T', matches R T' <-> exists p t, T' = p ++ t /\ starts R t).
    { intros T'. destruct R as [|x R]; [done|]. destruct HR as (Ex&_&HR).
      destruct (decide (x = 94)) as [->|Hx]; [done|]. unfold matches.
      destruct x as [|[]|]; try done; repeat (case_match; try done). }
    rewrite Hm.
    apply (loop_rule (match_step re)
      (fun n text' u' => u' = u /\ exists T', cstring (u_mem u) text' T' /\ n = length T' /\
         Z.of_nat n < 2 ^ 63 /\ ((exists p t, T' = p ++ t /\ starts R t) <-> (exists p t, T = p ++ t /\ starts R t)))
      (fun o => is_true_iff o u (exists p t, T = p ++ t /\ starts R t))) with (n := length T); [|eauto 10|lia].
    intros n text' u' (->&T'&HT'&->&Hn&Heq). unfold match_step, bind.
    destruct (matchhere_spec u re R text' T' HR HT' HlR Hn) as (b&->&Hb). destruct b.
    { exists true. split; [done|]. rewrite <- Heq. split; [|done]. intros _. exists [], T'. split; [done|by apply Hb]. }
    assert (Hno : ~ starts R T') by (intros H; by apply Hb in H). destruct T' as [|x T'].
    + rewrite (rd8_ok _ _ 0) by done. exists false. split; [done|]. rewrite <- Heq.
      split; [done|]. intros (p&t&Ept&?). destruct p, t; done.
    + destruct HT' as (Hx&Hx0&HT'). rewrite (rd8_ok _ _ x) by done. cbv beta iota.
      unfold nz. destruct (Z.eqb_spec x 0); [lia|]. cbn [negb].
      exists (length T'). split; [cbn; lia|]. split; [done|]. exists T'. split_and!; [done..|cbn in Hn; lia|].
      rewrite <- Heq. split.
      * intros (p&t&->&?). by exists (x :: p), t.
      * intros (p&t&Ept&?). destruct p as [|y p]; [cbn in Ept; by subst|]. injection Ept as -> ->. by exists p, t.
Qed.

(** C18: The matcher of [grep] decides the language of its pattern: [match] returns,
    changes nothing, and says whether the pattern (literals, [.], [*], [^] at the
    start, [$] at the end) matches somewhere in the text. *)
Theorem match_correct u re R text T :
  cstring (u_mem u) re R -> cstring (u_mem u) text T ->
  Z.of_nat (length R) < 2 ^ 63 -> Z.of_nat (length T) < 2 ^ 63 ->
  exists b, match_ re text u = Ok b u /\ (b = true <-> matches R T).
Proof. apply match_spec. Qed.

End Matcher.

(** * The loop *)

#[global] Instance starts_dec re text : Decision (starts re text).
Proof.
  assert (H : forall n re, (length re <= n)%nat -> forall text, Decision (starts re text)).
  { clear re text. induction n as [|n IH]; intros re Hn text.
    { destruct re; [left; apply starts_nil|cbn in Hn; lia]. }
    destruct re as [|c re]; [left; apply starts_nil|]. cbn in Hn.
    destruct (decide (c :: re = [36])) as [->|H36].
    { destruct (decide (text = [])); [left|right]; by rewrite starts_end. }
    destruct (decide (hd_error re = Some 42)) as [H42|Hns].
    - destruct re as [|? re]; [done|]. injection H42 as ->. cbn in Hn.
      induction text as [|x text IHt].
      + destruct (IH re ltac:(lia) []); [left; by apply starts_star_here|right; by apply starts_star_end].
      + destruct (IH re ltac:(lia) (x :: text)) as [H|H]; [left; by apply starts_star_here|].
        destruct (decide (c = 46 \/ c = x)) as [Ha|Ha], IHt as [Ht|Ht];
          [left|right|right|right]; rewrite starts_star_step by done; unfold accepts; tauto.
    - destruct text as [|x text]; [right; rewrite starts_one by done; by intros (?&?&?&?)|].
      destruct (decide (c = 46 \/ c = x)) as [Ha|Ha], (IH re ltac:(lia) text) as [Ht|Ht];
        [left; rewrite starts_one by done; by exists x, text| | |];
        right; rewrite starts_one by done; intros (?&?&[= <- <-]&?&?); done. }
  exact (H (length re) re (le_n _) text).
Qed.

#[global] Instance matches_dec re text : Decision (matches re text).
Proof.
  assert (H : Decision (exists p t, text = p ++ t /\ starts re t)).
  { induction text as [|x text IH].
    - destruct (decide (starts re [])); [left; by exists [], []|right].
      intros (p&t&E&?). by destruct p, t.
    - destruct (decide (starts re (x :: text))) as [|Hn]; [left; by exists [], (x :: text)|].
      destruct IH as [IH|IH]; [left|right].
      + destruct IH as (p&t&->&?). by exists (x :: p), t.
      + intros ([|y p]&t&E&?); [cbn in E; by subst|]. injection E as -> ->. apply IH. by exists p, t. }
  destruct re as [|x re]; [exact H|]. destruct (decide (x = 94)) as [->|Hx]; [apply starts_dec|].
  unfold matches. destruct x as [|x|x]; try exact H; repeat (destruct x as [x|x|]; try exact H). done.
Qed.

(** Lines with their newlines. *)
Definition flat (ls : list (list Z)) : list Z := concat ((fun l => l ++ [10]) <$> ls).

(** A line the buffer has room for, with its newline and a NUL. *)
Definition text_ok (l : list Z) : Prop := Forall is_byte l /\ (10 ∉ l) /\ (0 ∉ l).

#[global] Instance text_ok_dec l : Decision (text_ok l).
Proof. unfold text_ok, is_byte. apply _. Defined.

Lemma first_line ls tail a b :
  Forall (fun l => 10 ∉ l) ls -> (10 ∉ tail) -> (10 ∉ a) -> flat ls ++ tail = a ++ 10 :: b ->
  exists ls', ls = a :: ls' /\ b = flat ls' ++ tail.
Proof.
  assert (Hsplit : forall a a' b b' : list Z, (10 ∉ a) -> (10 ∉ a') -> a ++ 10 :: b = a' ++ 10 :: b' -> a = a' /\ b = b').
  { induction a0 as [|x a0 IH]; intros [|x' a'] b0 b' Ha Ha' E; cbn in E.
    - by injection E.
    - injection E as <- ->. by destruct Ha'; left.
    - injection E as -> <-. by destruct Ha; left.
    - injection E as -> E. destruct (IH a' b0 b') as [-> ->]; [by intros ?; apply Ha; right|by intros ?; apply Ha'; right|done|done]. }
  intros Hls Ht Ha E. destruct ls as [|l ls].
  - cbn in E. destruct Ht. rewrite E. rewrite elem_of_app. right. left.
  - apply Forall_cons in Hls as [Hl Hls]. unfold flat in E. cbn in E. rewrite <- !app_assoc in E. cbn in E.
    apply Hsplit in E as [-> <-]; [|done|done]. by exists ls.
Qed.

Section Loop.
Context {W : Type} `{!Kernel W} (fd : Z) `{!Streams W fd}.
Context (buf pattern : Z) (R tail OUT : list Z).
Context (Hbuf : 0 < buf) (HlR : Z.of_nat (length R) < 2 ^ 63).
Context (Hapart : pattern + Z.of_nat (length R) < buf \/ buf + 1024 <= pattern).
Context (Htail : text_ok tail).
Implicit Types (u : user W) (ls : list (list Z)).

Definition line_ok (l : list Z) : Prop := text_ok l /\ (length l <= 1022)%nat.
#[global] Instance line_ok_dec l : Decision (line_ok l).
Proof. unfold line_ok. apply _. Defined.

(** What is still to be done: the bytes [rest] in the buffer and those still to be
    read are the lines [ls] and the tail, and printing the matching ones of [ls]
    completes the output. *)
Record todo (rest : list Z) ls u : Prop := {
  td_pat : cstring (u_mem u) pattern R;
  td_in : rest ++ pending fd (u_w u) = flat ls ++ tail;
  td_out : printed fd (u_w u) ++ flat (filter (matches R) ls) = OUT;
  td_ok : Forall line_ok ls
}.

Lemma flat_cons l ls : flat (l :: ls) = l ++ 10 :: flat ls.
Proof. unfold flat. cbn. by rewrite <- app_assoc. Qed.

(** The input has no NUL and is bytes. *)
Lemma flat_bytes ls : Forall line_ok ls -> Forall (fun b => is_byte b /\ b <> 0) (flat ls ++ tail).
Proof.
  assert (Ht : forall l, text_ok l -> Forall (fun b => is_byte b /\ b <> 0) l).
  { intros l (Hb&_&H0). rewrite Forall_forall in *. intros b Hbl. split; [by apply Hb|]. by intros ->. }
  induction 1 as [|l ls [Hl _] _ IH]; [by apply Ht|].
  rewrite flat_cons, <- app_assoc. apply Forall_app. split; [by apply Ht|].
  cbn. constructor; [|done]. unfold is_byte. lia.
Qed.

(** A string cut at [q] by a NUL. *)
Lemma cstring_cut m p a c b :
  cstring m p (a ++ c :: b) -> cstring (store8 m (p + Z.of_nat (length a)) 0) p a.
Proof.
  intros H. apply cstring_bytes in H as (Hl&_&Hn). apply Forall_app in Hn as [Hn _].
  apply cstring_bytes. rewrite load8_store8. split_and!; [|done|done].
  transitivity (take (length a) (load_bytes m p (length (a ++ c :: b)))).
  - apply list_eq. intros i. destruct (decide (i < length a)%nat).
    + rewrite lookup_take_lt, !lookup_load_bytes by (rewrite ?length_app; lia).
      f_equal. apply load8_store8_ne. lia.
    + rewrite !lookup_ge_None_2; rewrite ?length_take, ?length_load_bytes; lia || done.
  - by rewrite Hl, take_app_length.
Qed.

(** The line at [p], its newline put back. *)
Lemma line_bytes m p a b :
  cstring m p (a ++ 10 :: b) ->
  load_bytes (store8 (store8 m (p + Z.of_nat (length a)) 0) (p + Z.of_nat (length a)) 10) p (length a + 1) = a ++ [10].
Proof.
  intros Hs. apply cstring_bytes in Hs as (Hl&_).
  transitivity (take (length (a ++ [10])) (load_bytes m p (length (a ++ 10 :: b)))).
  - apply list_eq. intros i. rewrite !length_app. cbn [length]. destruct (decide (i < length a + 1)%nat).
    + rewrite lookup_take_lt, !lookup_load_bytes by lia. f_equal.
      destruct (decide (i = length a)) as [->|Hne].
      * rewrite load8_store8. apply (f_equal (.!! length a)) in Hl.
        rewrite lookup_load_bytes, list_lookup_middle in Hl by (rewrite ?length_app; cbn; lia).
        injection Hl as ->. done.
      * by rewrite !load8_store8_ne by lia.
    + rewrite !lookup_ge_None_2; rewrite ?length_take, ?length_load_bytes; lia || done.
  - rewrite Hl. by rewrite (cons_middle 10 a b), app_assoc, take_app_length.
Qed.

Lemma pattern_store u x v : buf <= x < buf + 1024 ->
  cstring (u_mem u) pattern R -> cstring (store8 (u_mem u) x v) pattern R.
Proof.
  intros Hx. apply cstring_ext. intros y Hy. unfold store8. destruct (Z.eqb_spec y x); [lia|done].
Qed.

(** The state of the inner loop: [rest] is the string at [p], and ends in the buffer. *)
Definition scanning (e p : Z) (rest : list Z) ls u : Prop :=
  buf <= p /\ p + Z.of_nat (length rest) = e /\ cstring (u_mem u) p rest /\ todo rest ls u.

(** The rest of a round, after the newline was replaced by a NUL. *)
Lemma line_done e p a b ls u u' :
  buf <= p -> p + Z.of_nat (length (a ++ 10 :: b)) = e -> e < buf + 1024 ->
  cstring (u_mem u) p (a ++ 10 :: b) -> todo (a ++ 10 :: b) (a :: ls) u ->
  (forall x, x <> p + Z.of_nat (length a) -> u_mem u' x = u_mem u x) ->
  pending fd (u_w u') = pending fd (u_w u) ->
  printed fd (u_w u') = printed fd (u_w u) ++ (if decide (matches R a) then a ++ [10] else []) ->
  scanning e (p + Z.of_nat (length a) + 1) b ls u'.
Proof.
  intros Hp He Hlt Hs [Hpat Hin Hout Hok] Hm Hpd Hpr. rewrite length_app in He. cbn in He.
  split_and!; [lia|lia| |].
  - change (a ++ 10 :: b) with (a ++ [10] ++ b) in Hs. rewrite app_assoc in Hs.
    apply cstring_drop in Hs. rewrite length_app in Hs. cbn in Hs.
    replace (p + Z.of_nat (length a) + 1) with (p + Z.of_nat (length a + 1)) by lia.
    revert Hs. apply cstring_ext. intros x Hx. symmetry. apply Hm. lia.
  - apply Forall_cons in Hok as [_ Hok]. split; [| | |done].
    + revert Hpat. apply cstring_ext. intros x Hx. symmetry. apply Hm. lia.
    + rewrite Hpd. rewrite flat_cons, <- !app_assoc in Hin. apply app_inv_head in Hin. cbn in Hin.
      by injection Hin.
    + rewrite Hpr, <- Hout, filter_cons. destruct (decide (matches R a)).
      * by rewrite flat_cons, <- !app_assoc.
      * by rewrite app_nil_r.
Qed.

Lemma line_step_spec e p rest ls u :
  scanning e p rest ls u -> e < buf + 1024 ->
  ((10 ∉ rest) /\ line_step pattern p u = Ok (inr p) u) \/
  (exists p' rest' ls' u', line_step pattern p u = Ok (inl p') u' /\
     (length rest' < length rest)%nat /\ scanning e p' rest' ls' u' /\
     pending fd (u_w u') = pending fd (u_w u)).
Proof.
  intros (Hp&He&Hs&Ht) Hlt. unfold line_step.
  destruct (strchr_spec u p rest 10 Hs ltac:(lia)) as [[Hno E]|(a&b&->&Ha&E)].
  { left. split; [done|]. by rewrite (bind_ok _ _ _ _ _ E). }
  right. rewrite (bind_ok _ _ _ _ _ E).
  pose proof Ht as [Hpat Hin Hout Hok]. rewrite <- app_assoc in Hin. cbn in Hin.
  destruct (first_line ls tail a (b ++ pending fd (u_w u))) as (ls'&->&Hin'); [|by apply Htail|done|done|].
  { eapply Forall_impl; [exact Hok|]. by intros l [(_&?&_) _]. }
  assert (Hle : length (a ++ 10 :: b) = (length a + S (length b))%nat) by (rewrite length_app; done).
  set (q := p + Z.of_nat (length a)) in *. destruct (Z.eqb_spec q 0); [lia|].
  set (u1 := set_umem (store8 (u_mem u) q 0) u).
  rewrite (bind_ok _ _ _ tt u1) by done.
  destruct (match_spec u1 pattern R p a) as (r&Er&Hr); [| |done|lia|].
  { apply pattern_store; [lia|done]. }
  { by apply cstring_cut in Hs. }
  rewrite (bind_ok _ _ _ _ _ Er). destruct r.
  - destruct Hr as [Hr _]. specialize (Hr eq_refl).
    set (u2 := set_umem (store8 (u_mem u1) q 10) u1).
    destruct (write_stdout (fd := fd) (u_mem u2) (u_w u2) p (q + 1 - p) ltac:(lia)) as (w'&Ew&Hpr&Hpd).
    replace (Z.to_nat (q + 1 - p)) with (length a + 1)%nat in Hpr by lia.
    change (u_mem u2) with (store8 (store8 (u_mem u) q 0) q 10) in Hpr. unfold q in Hpr at 1 2.
    rewrite (line_bytes _ _ _ _ Hs) in Hpr.
    exists (q + 1), b, ls', (User (u_mem u2) (u_sp u2) w'). split_and!; [|lia| |done].
    + unfold bind, wr8, write, stub, modify. change (set_umem _ u1) with u2. by rewrite Ew.
    + apply (line_done e p a b ls' u); [done..| |done|]; cbn [u_w u_mem].
      * intros x Hx. cbn. unfold store8. by destruct (Z.eqb_spec x q).
      * rewrite decide_True by done. done.
  - exists (q + 1), b, ls', u1. split_and!; [done|lia| |done].
    apply (line_done e p a b ls' u); [done..| |done|].
    * intros x Hx. cbn. unfold store8. by destruct (Z.eqb_spec x q).
    * rewrite decide_False, app_nil_r; [done|]. intros Hm. by apply Hr in Hm.
Qed.

(** The inner loop takes all whole lines. *)
Lemma lines_spec e p rest ls u :
  scanning e p rest ls u -> e < buf + 1024 ->
  exists p' rest' ls' u', loop (line_step pattern) p u = Ok p' u' /\ (10 ∉ rest') /\
    scanning e p' rest' ls' u' /\ pending fd (u_w u') = pending fd (u_w u).
Proof.
  intros Hsc He.
  apply (loop_rule (line_step pattern)
    (fun n p' u' => exists rest' ls', n = length rest' /\ scanning e p' rest' ls' u' /\
       pending fd (u_w u') = pending fd (u_w u))
    (fun o => exists p' rest' ls' u', o = Ok p' u' /\ (10 ∉ rest') /\ scanning e p' rest' ls' u' /\
       pending fd (u_w u') = pending fd (u_w u))) with (n := length rest).
  - intros n p' u' (rest'&ls'&->&Hsc'&Hpd).
    destruct (line_step_spec e p' rest' ls' u' Hsc' He) as [[Hno ->]|(p2&rest2&ls2&u2&->&Hl&Hsc2&Hpd2)].
    + by exists p', rest', ls', u'.
    + exists (length rest2). split; [done|]. exists rest2, ls2. by rewrite Hpd2.
  - by exists rest, ls.
  - destruct Hsc as (?&?&_). lia.
Qed.

(** At the head of the outer loop: [held], of [m] bytes, is at the start of the buffer
    and holds no whole line. *)
Definition reading (m : Z) (held : list Z) ls u : Prop :=
  m = Z.of_nat (length held) /\ m <= 1023 /\ load_bytes (u_mem u) buf (length held) = held /\
  (10 ∉ held) /\ todo held ls u.

(** When [read] has nothing more, no whole line is left: a line fits the buffer. *)
Lemma no_line_left m held ls u :
  reading m held ls u -> pending fd (u_w u) = [] \/ 1024 - m - 1 = 0 -> ls = [].
Proof.
  intros (->&Hm&_&Hno&[_ Hin _ Hok]) Hend. destruct ls as [|l ls]; [done|]. exfalso.
  apply Forall_cons in Hok as [[_ Hl] _]. rewrite flat_cons, <- app_assoc in Hin. cbn in Hin.
  apply Hno. destruct Hend as [Hp|Hfull].
  - rewrite Hp, app_nil_r in Hin. rewrite Hin, elem_of_app. right. left.
  - apply list_elem_of_lookup. exists (length l).
    rewrite <- (lookup_app_l _ (pending fd (u_w u))) by lia. rewrite Hin. by apply list_lookup_middle.
Qed.

(** After a read: the held bytes, the new ones, and a NUL. *)
Lemma filled mem held k :
  Forall (fun b => is_byte b /\ b <> 0) (held ++ k) -> load_bytes mem buf (length held) = held ->
  cstring (store8 (store_bytes mem (buf + Z.of_nat (length held)) k)
             (buf + (Z.of_nat (length held) + Z.of_nat (length k))) 0) buf (held ++ k).
Proof.
  intros Hb Hheld. apply cstring_bytes. rewrite length_app. split_and!.
  - apply list_eq. intros i. destruct (decide (i < length held + length k)%nat).
    + rewrite lookup_load_bytes by lia. rewrite load8_store8_ne by lia.
      destruct (decide (i < length held)%nat) as [Hi|Hi].
      * unfold load8. rewrite store_bytes_out by lia. rewrite lookup_app_l by lia.
        apply (f_equal (.!! i)) in Hheld. by rewrite lookup_load_bytes in Hheld by lia.
      * rewrite lookup_app_r by lia. apply Forall_app in Hb as [_ Hb].
        assert (Hst : load_bytes (store_bytes mem (buf + Z.of_nat (length held)) k) (buf + Z.of_nat (length held)) (length k) = k).
        { apply load_store_bytes. eapply Forall_impl; [exact Hb|]. by intros ? [? _]. }
        apply (f_equal (.!! (i - length held)%nat)) in Hst. rewrite <- Hst.
        rewrite lookup_load_bytes by lia. do 2 f_equal. lia.
    + rewrite !lookup_ge_None_2; rewrite ?length_app, ?length_load_bytes; lia || done.
  - rewrite Nat2Z.inj_add. apply load8_store8.
  - eapply Forall_impl; [exact Hb|]. by intros ? [_ ?].
Qed.

Lemma grep_step_spec m held ls u :
  reading m held ls u ->
  (ls = [] /\ exists u', grep_step buf pattern fd m u = Ok (inr tt) u' /\ todo held [] u') \/
  (exists m' held' ls' u', grep_step buf pattern fd m u = Ok (inl m') u' /\ reading m' held' ls' u' /\
     (length (pending fd (u_w u')) < length (pending fd (u_w u)))%nat).
Proof.
  intros Hrd. pose proof Hrd as (Em&Hm&Hheld&Hno&Ht). unfold grep_step.
  destruct (read_stream (fd := fd) (u_mem u) (u_w u) (buf + m) (1024 - m - 1) ltac:(lia))
    as (k&w'&Er&Hpd&Hk&Hend&Hpr).
  set (u1 := User (store_bytes (u_mem u) (buf + m) k) (u_sp u) w').
  assert (E1 : read fd (buf + m) (1024 - m - 1) u = Ok (Z.of_nat (length k)) u1).
  { unfold read, stub. by rewrite Er. }
  rewrite (bind_ok _ _ _ _ _ E1).
  assert (Hpat1 : cstring (u_mem u1) pattern R).
  { destruct Ht as [Hpat _ _ _]. revert Hpat. apply cstring_ext. intros x Hx. cbn.
    rewrite store_bytes_out by lia. done. }
  destruct k as [|c k].
  { left. specialize (Hend eq_refl). pose proof (no_line_left _ _ _ _ Hrd Hend) as ->. split; [done|].
    exists u1. split; [done|]. destruct Ht as [_ Hin Hout Hok]. split; [done| | |done]; cbn [u_w u1].
    - rewrite <- Hin, Hpd. done.
    - by rewrite Hpr. }
  right. destruct (Z.leb_spec (Z.of_nat (length (c :: k))) 0) as [Hle|_]; [cbn in Hle; lia|].
  set (ck := c :: k) in *. assert (Hck : (0 < length ck)%nat) by (cbn; lia).
  set (m1 := m + Z.of_nat (length ck)). set (u2 := set_umem (store8 (u_mem u1) (buf + m1) 0) u1).
  rewrite (bind_ok _ _ _ tt u2) by done.
  assert (Hsc : scanning (buf + m1) buf (held ++ ck) ls u2).
  { destruct Ht as [Hpat Hin Hout Hok]. rewrite Hpd, app_assoc in Hin.
    pose proof (flat_bytes ls Hok) as Hb. rewrite <- Hin in Hb. apply Forall_app in Hb as [Hb _].
    split_and!; [lia|rewrite length_app; lia| |split; [|done|by cbn; rewrite Hpr|done]].
    - unfold u2, u1, m1. cbn [u_mem set_umem]. rewrite Em. by apply filled.
    - cbn [u_mem u2 set_umem]. apply pattern_store; [lia|done]. }
  destruct (lines_spec _ _ _ _ _ Hsc ltac:(lia)) as (p&rest&ls'&u3&E3&Hno3&(Hp&He&Hs3&Ht3)&Hpd3).
  rewrite (bind_ok _ _ _ _ _ E3). destruct (Z.ltb_spec 0 m1); [|lia].
  destruct (memmove_spec u3 buf p (m1 - (p - buf)) Hp ltac:(lia)) as (u4&E4&_&Hw4&Hl4&Ho4).
  rewrite (bind_ok _ _ _ _ _ E4). exists (m1 - (p - buf)), rest, ls', u4.
  replace (Z.to_nat (m1 - (p - buf))) with (length rest) in Hl4 by lia.
  split_and!; [done| |].
  - split_and!; [lia|lia| |done|].
    + rewrite Hl4. by apply cstring_bytes in Hs3 as (?&_).
    + destruct Ht3 as [Hpat Hin Hout Hok]. split; [|by rewrite Hw4|by rewrite Hw4|done].
      revert Hpat. apply cstring_ext. intros x Hx. symmetry. apply Ho4. lia.
  - rewrite Hw4, Hpd3. cbn [u_w u2 u1 set_umem]. rewrite Hpd, length_app. lia.
Qed.

End Loop.

(** C30: [grep] prints the lines of its input that the pattern matches, in order and
    whole, however the reads deliver the input in pieces; it returns. The lines have
    no NUL and at most 1022 characters, what the buffer of 1024 has room for; text
    after the last newline is not a line, and is not printed. *)
Theorem grep_correct {W} `{!Kernel W} fd `{!Streams W fd} (u : user W) buf pattern R ls tail :
  0 < buf -> cstring (u_mem u) pattern R -> Z.of_nat (length R) < 2 ^ 63 ->
  pattern + Z.of_nat (length R) < buf \/ buf + 1024 <= pattern ->
  pending fd (u_w u) = flat ls ++ tail -> Z.of_nat (length (pending fd (u_w u))) < 2 ^ 63 ->
  Forall line_ok ls -> text_ok tail ->
  exists u', grep buf pattern fd u = Ok tt u' /\
    printed fd (u_w u') = printed fd (u_w u) ++ flat (filter (matches R) ls).
Proof.
  intros Hbuf Hpat HlR Hap Hin Hlen Hok Htail. unfold grep.
  set (OUT := printed fd (u_w u) ++ flat (filter (matches R) ls)).
  apply (loop_rule (grep_step buf pattern fd)
    (fun n m u' => n = length (pending fd (u_w u')) /\ exists held ls', reading fd buf pattern R tail OUT m held ls' u')
    (fun o => exists u', o = Ok tt u' /\ printed fd (u_w u') = OUT)) with (n := length (pending fd (u_w u))).
  - intros n m u' (->&held&ls'&Hrd).
    destruct (grep_step_spec fd buf pattern R tail OUT Hbuf HlR Hap Htail m held ls' u' Hrd)
      as [(->&u2&->&[_ _ Hout _])|(m2&held2&ls2&u2&->&Hrd2&Hlt)].
    + exists u2. split; [done|]. by rewrite <- Hout, app_nil_r.
    + exists (length (pending fd (u_w u2))). split; [done|]. split; [done|]. by exists held2, ls2.
  - split; [done|]. exists [], ls. split_and!; [done|lia|done|by apply not_elem_of_nil|]. by split.
  - lia.
Qed.

(** The pattern [a.*c$] on a small input that arrives five bytes at a time. *)
Module Example.
Import Stdio.
Definition re : list Z := [97; 46; 42; 99; 36].
Definition input : list (list Z) := [[97; 98; 99]; [98; 99]; [120; 97; 98; 98; 98; 99]; [97; 99; 100]].
Definition init : user state :=
  User (store_bytes (fun _ => 0) 100 re) 0 (flat input ++ [97; 98; 99], []).
End Example.

Lemma match_correct_witness :
  exists b, match_ (W := Stdio.state) 100 100 Example.init = Ok b Example.init /\ (b = true <-> matches Example.re Example.re).
Proof.
  apply match_correct; [|  |done|done]; vm_compute; repeat split; discriminate.
Defined.

Lemma grep_correct_witness :
  exists u', grep 4096 100 0 Example.init = Ok tt u' /\
    printed 0 (u_w u') = printed 0 (u_w Example.init) ++ flat (filter (matches Example.re) Example.input).
Proof.
  apply (grep_correct 0 Example.init 4096 100 Example.re Example.input [97; 98; 99]); [done| |done|left; done|done|done| |].
  - vm_compute. repeat split; discriminate.
  - by apply (bool_decide_unpack _).
  - by apply (bool_decide_unpack _).
Defined.
