(* ===== verification/Umalloc.v ===== *)
(** The user-level allocator: [src/user/umalloc.c].

    Headers of 16 bytes in memory: [ptr] at offset 0, [size], a [uint], at offset
    8. The free blocks form a circular list in address order through [base], and
    [freep] points anywhere into it. The abstraction is two lists of blocks, the
    free and the allocated ones; the theorems say how [malloc] and [free] move
    memory between them. *)

From S2P Require Import Prelude User.
Local Open Scope kernel_scope.

Definition load32 (m : memory) (a : Z) : Z := le_val (load_bytes m a 4).
Definition store32 (m : memory) (a v : Z) : memory := store_bytes m a (le_bytes 4 v).

#[global] Arguments load32 : simpl never.
#[global] Arguments store32 : simpl never.

Section Code.
Context {W : Type} (base freep : Z).

Definition rd64 (p : Z) : M (user W) Z := gets (fun u => load64 (u_mem u) p).
Definition wr64 (p v : Z) : M (user W) unit := modify (fun u => set_umem (store64 (u_mem u) p v) u).
Definition rd32 (p : Z) : M (user W) Z := gets (fun u => load32 (u_mem u) p).
Definition wr32 (p v : Z) : M (user W) unit := modify (fun u => set_umem (store32 (u_mem u) p v) u).

(** [p->s.ptr] and [p->s.size] *)
Definition get_ptr (p : Z) : M (user W) Z := rd64 p.
Definition set_ptr (p v : Z) : M (user W) unit := wr64 p v.
Definition get_size (p : Z) : M (user W) Z := rd32 (p + 8).
Definition set_size (p v : Z) : M (user W) unit := wr32 (p + 8) v.

(** The search of [free]: the block after which [bp] goes. *)
Definition free_step (bp p : Z) : M (user W) (Z + Z) :=
  nxt <- get_ptr p ;;
  if (p <? bp) && (bp <? nxt) then ret (inr p)
  else if (nxt <=? p) && ((p <? bp) || (bp <? nxt)) then ret (inr p)
  else ret (inl nxt).

(** [bp] is linked to what follows [p], or merged with it. *)
Definition link_right (bp p : Z) : M (user W) unit :=
  sz <- get_size bp ;;
  nxt <- get_ptr p ;;
  if bp + 16 * sz =? nxt then
    nsz <- get_size nxt ;;
    set_size bp (sz + nsz) ;;
    nn <- get_ptr nxt ;;
    set_ptr bp nn
  else set_ptr bp nxt.

(** [p] is linked to [bp], or merged with it. *)
Definition link_left (bp p : Z) : M (user W) unit :=
  psz <- get_size p ;;
  if p + 16 * psz =? bp then
    sz <- get_size bp ;;
    set_size p (psz + sz) ;;
    nn <- get_ptr bp ;;
    set_ptr p nn
  else set_ptr p bp.

Definition free (ap : Z) : M (user W) unit :=
  let bp := ap - 16 in
  p0 <- rd64 freep ;;
  p <- loop (free_step bp) p0 ;;
  link_right bp p ;;
  link_left bp p ;;
  wr64 freep p.

Context `{!Kernel W}.

Definition morecore (nu : Z) : M (user W) Z :=
  let nu := if nu <? 4096 then 4096 else nu in
  p <- sbrk (s32 (nu * 16)) ;;
  if p =? -1 then ret 0 else
  set_size p nu ;;
  free (p + 16) ;;
  rd64 freep.

(** A block that is large enough: all of it, or its tail end. *)
Definition malloc_take (nunits prevp p sz : Z) : M (user W) Z :=
  p' <- (if sz =? nunits then
           nxt <- get_ptr p ;;
           set_ptr prevp nxt ;;
           ret p
         else
           set_size p (sz - nunits) ;;
           sz' <- get_size p ;;
           set_size (p + 16 * sz') nunits ;;
           ret (p + 16 * sz')) ;;
  wr64 freep prevp ;;
  ret (p' + 16).

Definition malloc_step (nunits : Z) (pp : Z * Z) : M (user W) ((Z * Z) + Z) :=
  let '(prevp, p) := pp in
  sz <- get_size p ;;
  if nunits <=? sz then
    r <- malloc_take nunits prevp p sz ;;
    ret (inr r)
  else
    fp <- rd64 freep ;;
    if p =? fp then
      p' <- morecore nunits ;;
      if p' =? 0 then ret (inr 0) else
      nxt <- get_ptr p' ;;
      ret (inl (p', nxt))
    else
      nxt <- get_ptr p ;;
      ret (inl (p, nxt)).

Definition nunits_of (nbytes : Z) : Z := u32 ((nbytes + 16 - 1) / 16 + 1).

Definition malloc (nbytes : Z) : M (user W) Z :=
  let nunits := nunits_of nbytes in
  prevp <- rd64 freep ;;
  prevp <- (if prevp =? 0 then
              set_ptr base base ;;
              wr64 freep base ;;
              set_size base 0 ;;
              ret base
            else ret prevp) ;;
  p <- get_ptr prevp ;;
  loop (malloc_step nunits) (prevp, p).

End Code.

(** * Words of 32 bits *)

Lemma load32_ext m m' a : mem_agree (fun x => a <= x < a + 4) m m' -> load32 m a = load32 m' a.
Proof. intros H. unfold load32. f_equal. by apply load_bytes_ext. Qed.

Lemma load32_store32 m a v : load32 (store32 m a v) a = u32 v.
Proof.
  unfold load32, store32. rewrite <- (length_le_bytes 4 v) at 2.
  rewrite load_store_bytes by apply le_bytes_is_byte. apply le_val_bytes.
Qed.

Lemma store32_out m a v x : x < a \/ a + 4 <= x -> store32 m a v x = m x.
Proof. intros. apply store_bytes_out. rewrite length_le_bytes. lia. Qed.

Lemma load32_range m a : 0 <= load32 m a < 2 ^ 32.
Proof.
  pose proof (le_val_range (load_bytes m a 4) (load_bytes_is_byte m a 4)) as H.
  rewrite length_load_bytes in H. exact H.
Qed.

(** * Blocks *)

(** A block: its address and its size in units of 16 bytes. *)
Definition block : Type := Z * Z.
Definition bend (b : block) : Z := b.1 + 16 * b.2.
Definition disj (b b' : block) : Prop := bend b <= b'.1 \/ bend b' <= b.1.
Fixpoint total (l : list block) : Z :=
  match l with
  | [] => 0
  | b :: l' => b.2 + total l'
  end.

(** In address order, and no two adjacent. *)
Fixpoint sorted (l : list block) : Prop :=
  match l with
  | [] => True
  | x :: l' => Forall (fun y => bend x < y.1) l' /\ sorted l'
  end.
Fixpoint apart (l : list block) : Prop :=
  match l with
  | [] => True
  | x :: l' => Forall (disj x) l' /\ apart l'
  end.

(** A block put before a list, merged with the first block if they touch. *)
Definition join (x : block) (l : list block) : list block :=
  match l with
  | y :: l' => if bend x =? y.1 then (x.1, x.2 + y.2) :: l' else x :: l
  | [] => [x]
  end.

Definition positive (l : list block) : Prop := Forall (fun b => 0 <= b.2) l.

Lemma join_sorted x l :
  positive l -> sorted l -> Forall (fun y => bend x <= y.1) l -> sorted (join x l).
Proof.
  destruct l as [|y l]; [cbn; done|]. intros [Hy Hp]%Forall_cons [Hf Hs] [Hxy Hx]%Forall_cons.
  cbn beta in *. unfold bend in *. cbn [join]. unfold bend. destruct (Z.eqb_spec (x.1 + 16 * x.2) y.1) as [E|E]; cbn [sorted fst snd].
  - split; [|done]. eapply Forall_impl; [exact Hf|]. cbn. unfold bend. cbn. intros z. lia.
  - unfold bend. split; [|done]. constructor; [lia|]. eapply Forall_impl; [exact Hf|]. cbn. intros z. lia.
Qed.

Lemma join_total x l : total (join x l) = x.2 + total l.
Proof. destruct l as [|y l]; cbn; [done|]. destruct (_ =? _); cbn; lia. Qed.

Lemma join_positive x l : 0 <= x.2 -> positive l -> positive (join x l).
Proof.
  intros Hx Hl. destruct l as [|y l]; [by repeat constructor|]. apply Forall_cons in Hl as [Hy Hl].
  cbn [join]. destruct (_ =? _); repeat constructor; cbn; lia || done.
Qed.

(** The blocks of a joined list are bounded by those of its parts. *)
Lemma join_bounds (P : Z -> Z -> Prop) x l :
  (forall a b c, P a b -> P b c -> P a c) ->
  P x.1 (bend x) -> Forall (fun b => P b.1 (bend b)) l -> Forall (fun b => P b.1 (bend b)) (join x l).
Proof.
  intros HP Hx Hl. destruct l as [|y l]; [by repeat constructor|]. pose proof Hl as [Hy Hl']%Forall_cons.
  cbn [join]. unfold bend in *. destruct (Z.eqb_spec (x.1 + 16 * x.2) y.1) as [E|]; [|by apply Forall_cons].
  constructor; [|done]. cbn. replace (x.1 + 16 * (x.2 + y.2)) with (y.1 + 16 * y.2) by lia.
  apply HP with y.1; [by rewrite <- E|done].
Qed.

Lemma join_disj a x l :
  0 < a.2 -> 0 <= x.2 -> positive l -> disj a x -> Forall (disj a) l -> Forall (disj a) (join x l).
Proof.
  intros Ha Hx Hp Hd Hl. destruct l as [|y l]; [by apply Forall_singleton|].
  apply Forall_cons in Hp as [Hy _]. pose proof Hl as [Hdy Hl']%Forall_cons.
  cbn [join]. destruct (Z.eqb_spec (bend x) y.1) as [E|]; [|by apply Forall_cons].
  constructor; [|done]. unfold disj, bend in *. cbn. lia.
Qed.

Lemma sorted_app l1 l2 :
  sorted (l1 ++ l2) <-> sorted l1 /\ sorted l2 /\ Forall (fun x => Forall (fun y => bend x < y.1) l2) l1.
Proof.
  induction l1 as [|x l1 IH]; cbn; [split; [by repeat split|by intros (_&?&_)]|].
  rewrite Forall_app, IH, Forall_cons. tauto.
Qed.

Lemma total_app l1 l2 : total (l1 ++ l2) = total l1 + total l2.
Proof. induction l1; cbn; lia. Qed.

Lemma apart_perm l l' : l ≡ₚ l' -> apart l -> apart l'.
Proof.
  assert (Hsym : forall a b, disj a b -> disj b a) by (unfold disj; tauto).
  induction 1 as [|x l l' Hp IH|x y l|l1 l2 l3 _ IH1 _ IH2]; cbn; [done| | |tauto].
  - intros [Hf Ha]. split; [by rewrite <- Hp|tauto].
  - rewrite !Forall_cons. intros ([Hxy Hx]&Hy&Ha). split_and!; [by apply Hsym|done|done|done].
Qed.

Lemma apart_disj l a b : apart l -> a ∈ l -> b ∈ l -> a <> b -> disj a b.
Proof.
  induction l as [|x l IH]; cbn; [by intros _ ?%not_elem_of_nil|]. intros [Hx Hl].
  rewrite !elem_of_cons, Forall_forall in *. intros [->|Ha] [->|Hb] Hne; [done|by apply Hx| |by apply IH].
  specialize (Hx a Ha). unfold disj in *. lia.
Qed.

(** * Circular lists in memory *)

Definition hdaddr (l : list block) (d : Z) : Z :=
  match l with
  | [] => d
  | x :: _ => x.1
  end.

(** The headers of [l], linked in order; the last one points to [stop]. *)
Fixpoint seg (m : memory) (l : list block) (stop : Z) : Prop :=
  match l with
  | [] => True
  | x :: l' => load64 m x.1 = hdaddr l' stop /\ load32 m (x.1 + 8) = x.2 /\ seg m l' stop
  end.
Definition circ (m : memory) (c : list block) : Prop := seg m c (hdaddr c 0).

Lemma hdaddr_app l1 l2 d : hdaddr (l1 ++ l2) d = hdaddr l1 (hdaddr l2 d).
Proof. by destruct l1. Qed.

Lemma fl_seg_app m l1 l2 stop : seg m (l1 ++ l2) stop <-> seg m l1 (hdaddr l2 stop) /\ seg m l2 stop.
Proof.
  induction l1 as [|x l1 IH]; cbn; [tauto|]. rewrite IH, hdaddr_app. tauto.
Qed.

(** A circular list may start anywhere. *)
Lemma circ_rotate m l1 l2 : circ m (l1 ++ l2) <-> circ m (l2 ++ l1).
Proof.
  destruct l1 as [|x l1], l2 as [|y l2]; rewrite ?app_nil_r; [done..|].
  unfold circ. rewrite !fl_seg_app. cbn. tauto.
Qed.

Lemma circ_next m l1 x l2 :
  circ m (l1 ++ x :: l2) ->
  load64 m x.1 = hdaddr l2 (hdaddr l1 x.1) /\ load32 m (x.1 + 8) = x.2.
Proof.
  intros H. apply circ_rotate in H. destruct H as (H&H2&_). rewrite hdaddr_app in H.
  split; [|done]. exact H.
Qed.

(** The bytes of the headers of a list. *)
Definition header (l : list block) (x : Z) : Prop := Exists (fun b => b.1 <= x < b.1 + 12) l.

Lemma seg_ext m m' l stop : mem_agree (header l) m m' -> seg m l stop -> seg m' l stop.
Proof.
  intros Hm. induction l as [|b l IH]; cbn; [done|]. intros (H1&H2&H3). split_and!.
  - rewrite <- H1. apply load64_ext. intros x Hx. symmetry. apply Hm. left. lia.
  - rewrite <- H2. apply load32_ext. intros x Hx. symmetry. apply Hm. left. lia.
  - apply IH; [|done]. intros x Hx. apply Hm. by right.
Qed.

Lemma header_out l (x : Z) : Forall (fun b => x < b.1 \/ b.1 + 12 <= x) l -> ~ header l x.
Proof. unfold header. rewrite Exists_exists, Forall_forall. intros H (b&Hb&?). specialize (H b Hb). lia. Qed.

(** What [sbrk] promises: it fails, or the new memory is above the old. The kernel
    returns the old size as an [int]. *)
Class Brk (W : Type) `{!Kernel W} : Type := {
  brk : W -> Z;
  sbrk_law m w n : 0 < n < 2 ^ 31 ->
    (exists w', ecall 12 [n] (m, w) = Ok (-1) (m, w') /\ brk w' = brk w) \/
    (exists m' w', ecall 12 [n] (m, w) = Ok (brk w) (m', w') /\ brk w' = brk w + n /\
       brk w' <= 2 ^ 31 /\ mem_agree (fun z => z < brk w) m m')
}.

Section Heap.
Context {W : Type} `{!Kernel W, !Brk W} (base freep lo : Z).
(** The static variables are below the heap and do not overlap. *)
Context (Hbase : 0 < base) (Hlo : base + 16 <= lo) (Hfp : 0 < freep) (Hflo : freep + 8 <= lo).
Context (Hbf : base + 16 <= freep \/ freep + 8 <= base).
Implicit Types (u : user W) (m : memory) (bl al l : list block).

Definition links (bl : list block) : list block := (base, 0) :: bl.

(** The list through [base], and [freep] in it. *)
Definition linked m (bl : list block) : Prop :=
  circ m (links bl) /\ exists l1 x l2, links bl = l1 ++ x :: l2 /\ load64 m freep = x.1.

Definition in_heap (hi : Z) (b : block) : Prop := 0 < b.2 /\ lo <= b.1 /\ bend b <= hi.

Record heap m (hi : Z) (bl al : list block) : Prop := {
  hp_link : linked m bl \/ (load64 m freep = 0 /\ bl = [] /\ al = []);
  hp_sorted : sorted bl;
  hp_range : Forall (in_heap hi) (bl ++ al);
  hp_size : Forall (fun b => load32 m (b.1 + 8) = b.2) al;
  hp_disj : Forall (fun a => Forall (disj a) bl) al;
  hp_apart : apart al;
  hp_hi : lo <= hi <= 2 ^ 31
}.

Lemma links_sorted bl : Forall (fun b => lo <= b.1) bl -> sorted bl -> sorted (links bl).
Proof.
  intros Hl Hs. split; [|done]. eapply Forall_impl; [exact Hl|]. cbn. unfold bend. cbn. lia.
Qed.

Lemma heap_bounds m hi bl al : heap m hi bl al ->
  Forall (fun b => 0 <= b.2 /\ base <= b.1 /\ bend b < 2 ^ 32) (links bl) /\ sorted (links bl) /\
  Forall (in_heap hi) bl /\ Forall (in_heap hi) al.
Proof.
  intros [_ Hs Hr _ _ _ Hhi]. apply Forall_app in Hr as [Hb Ha]. split_and!; [| |done|done].
  - constructor; [unfold bend; cbn; lia|]. eapply Forall_impl; [exact Hb|]. unfold in_heap. cbn. lia.
  - apply links_sorted; [|done]. eapply Forall_impl; [exact Hb|]. unfold in_heap. cbn. lia.
Qed.

(** Where a block that is not free goes in the list. *)
Lemma place bl (bp : block) :
  sorted (links bl) -> base < bp.1 -> 0 < bp.2 -> Forall (fun b => 0 < b.2) bl -> Forall (disj bp) bl ->
  exists l1 x l2, links bl = l1 ++ x :: l2 /\ bend x <= bp.1 /\
    Forall (fun y => bend y <= bp.1 /\ y.1 < bp.1) (l1 ++ [x]) /\ Forall (fun y => bend bp <= y.1) l2.
Proof.
  intros Hs Hb Hn Hp Hd. unfold links in *.
  assert (H : exists l1 l2, bl = l1 ++ l2 /\
    Forall (fun y => bend y <= bp.1 /\ y.1 < bp.1) l1 /\ Forall (fun y => bend bp <= y.1) l2).
  { destruct Hs as [_ Hs]. induction bl as [|y bl IH]; [by exists [], []|].
    destruct Hs as [Hy Hs]. apply Forall_cons in Hp as [Hy0 Hp]. apply Forall_cons in Hd as [Hdy Hd]. cbn beta in Hy0.
    destruct (decide (bend bp <= y.1)) as [Hle|Hle].
    - exists [], (y :: bl). split_and!; [done..|]. constructor; [done|].
      eapply Forall_impl; [exact Hy|]. cbn. unfold bend in *. lia.
    - destruct (IH Hs Hp Hd) as (l1&l2&->&H1&H2). exists (y :: l1), l2. split_and!; [done| |done].
      constructor; [|done]. unfold disj, bend in *. cbn in *. lia. }
  destruct H as (l1&l2&->&H1&H2).
  destruct (exists_last (l := (base, 0) :: l1)) as (k&x&E); [done|].
  exists k, x, l2. change ((base, 0) :: l1 ++ l2) with (((base, 0) :: l1) ++ l2). rewrite E, <- app_assoc.
  assert (Hall : Forall (fun y => bend y <= bp.1 /\ y.1 < bp.1) (k ++ [x])).
  { rewrite <- E. constructor; [unfold bend; cbn; lia|done]. }
  split_and!; [done| |done|done]. by apply Forall_app in Hall as [_ [[? ?] _]%Forall_cons].
Qed.

(** One round of the search, at a block of the list. *)
Lemma free_step_spec u bl l1 x l2 (bp : block) k1 y k2 :
  circ (u_mem u) (links bl) -> sorted (links bl) -> positive (links bl) ->
  links bl = l1 ++ x :: l2 -> base < bp.1 -> 0 < bp.2 ->
  Forall (fun y => bend y <= bp.1 /\ y.1 < bp.1) (l1 ++ [x]) -> Forall (fun y => bend bp <= y.1) l2 ->
  links bl = k1 ++ y :: k2 ->
  free_step bp.1 y.1 u =
    if decide (length k1 = length l1) then Ok (inr x.1) u else Ok (inl (hdaddr k2 base)) u.
Proof.
  intros Hc Hs Hp El Hb Hn H1 H2 Ek.
  assert (Hnext : load64 (u_mem u) y.1 = hdaddr k2 base).
  { rewrite Ek in Hc. apply circ_next in Hc as [Hc _]. rewrite Hc. f_equal.
    destruct k1; cbn; injection Ek as <- ?; done. }
  unfold free_step, get_ptr, rd64, bind, gets. rewrite Hnext.
  assert (Hge : Forall (fun b => base <= b.1) (links bl)).
  { destruct Hs as [Hs _]. constructor; [cbn; lia|]. eapply Forall_impl; [exact Hs|]. unfold bend. cbn. lia. }
  rewrite El in Hs, Hp, Hge, Ek.
  apply sorted_app in Hs as (Hs1&[Hsx Hsl]&Hsc). rewrite Forall_app in H1. destruct H1 as [H1 [Hx _]%Forall_cons].
  apply Forall_app in Hge as [_ [Hgx _]%Forall_cons]. cbn beta in *.
  unfold positive in Hp. case_decide as Hlen.
  { apply app_inj_1 in Ek as [_ [= <- <-]]; [|done]. unfold bend in *. destruct l2 as [|z l2]; cbn [hdaddr].
    - destruct (Z.ltb_spec x.1 bp.1), (Z.ltb_spec bp.1 base), (Z.leb_spec base x.1); cbn; lia || done.
    - apply Forall_cons in H2 as [H2 _]. destruct (Z.ltb_spec x.1 bp.1), (Z.ltb_spec bp.1 z.1); cbn; lia || done. }
  apply app_eq_inv in Ek as [(k&->&Ek)|(k&->&Ek)].
  - destruct k as [|y' k]; [by rewrite app_nil_r in Hlen|]. injection Ek as -> ->.
    rewrite hdaddr_app. cbn [hdaddr]. apply Forall_app in H1 as [_ [Hy Hk]%Forall_cons].
    apply sorted_app in Hs1 as (_&[Hyk _]&_). apply Forall_app in Hsc as [_ [Hyx _]%Forall_cons].
    apply Forall_cons in Hyx as [Hyx _]. cbn beta in *.
    assert (Hz : y'.1 < hdaddr k x.1 <= bp.1).
    { rewrite Forall_app in Hp. destruct Hp as [[_ [Hpy _]%Forall_cons]%Forall_app _]. unfold bend in *.
      destruct k as [|z k]; cbn; [lia|]. apply Forall_cons in Hk as [Hk _]. apply Forall_cons in Hyk as [Hyk _]. lia. }
    destruct (Z.ltb_spec y'.1 bp.1), (Z.ltb_spec bp.1 (hdaddr k x.1)), (Z.leb_spec (hdaddr k x.1) y'.1); cbn; lia || done.
  - destruct k as [|x' k]; [by rewrite app_nil_r in Hlen|]. injection Ek as -> ->.
    apply Forall_app in H2 as [_ [Hy Hk]%Forall_cons]. apply sorted_app in Hsl as (_&[Hyk _]&_).
    assert (Hpy : 0 <= y.2) by (apply Forall_app in Hp as [_ [_ [_ [Hp _]%Forall_cons]%Forall_app]%Forall_cons]; done).
    assert (Hz : y.1 < hdaddr k2 base \/ hdaddr k2 base = base).
    { destruct k2 as [|z k2]; [by right|]. apply Forall_cons in Hyk as [Hyk _]. unfold bend in Hyk. cbn. lia. }
    unfold bend in *.
    destruct (Z.ltb_spec y.1 bp.1), (Z.ltb_spec bp.1 (hdaddr k2 base)), (Z.leb_spec (hdaddr k2 base) y.1); cbn; lia || done.
Qed.

(** The search ends at the block that precedes [bp], from wherever it starts. *)
Lemma free_walk u bl l1 x l2 (bp : block) k1 y k2 :
  circ (u_mem u) (links bl) -> sorted (links bl) -> positive (links bl) ->
  links bl = l1 ++ x :: l2 -> base < bp.1 -> 0 < bp.2 ->
  Forall (fun y => bend y <= bp.1 /\ y.1 < bp.1) (l1 ++ [x]) -> Forall (fun y => bend bp <= y.1) l2 ->
  links bl = k1 ++ y :: k2 -> Z.of_nat (length (links bl)) < 2 ^ 62 ->
  loop (free_step bp.1) y.1 u = Ok x.1 u.
Proof.
  intros Hc Hs Hp El Hb Hn H1 H2 Ek Hlen.
  set (dist := fun k : nat => if decide (k <= length l1)%nat then (length l1 - k)%nat
                              else (length (links bl) + 1 - k + length l1)%nat).
  assert (Hl : (length l1 < length (links bl))%nat) by (rewrite El, length_app; cbn; lia).
  apply (loop_rule (free_step bp.1)
    (fun n p u' => u' = u /\ exists k1 y k2, links bl = k1 ++ y :: k2 /\ p = y.1 /\ n = dist (length k1))
    (fun o => o = Ok x.1 u)) with (n := dist (length k1)).
  - clear k1 y k2 Ek. intros n p u' (->&k1&y&k2&Ek&->&->).
    rewrite (free_step_spec u bl l1 x l2 bp k1 y k2) by done. case_decide as Hd; [done|].
    destruct k2 as [|z k2].
    + exists (dist 0%nat). split; [|split; [done|by exists [], (base, 0), bl]].
      assert (length (links bl) = (length k1 + 1)%nat) by (rewrite Ek, length_app; done).
      unfold dist. repeat case_decide; lia.
    + exists (dist (length k1 + 1)%nat). split; [|split; [done|]].
      * assert ((length k1 + 1 < length (links bl))%nat) by (rewrite Ek, length_app; cbn; lia).
        unfold dist. repeat case_decide; lia.
      * exists (k1 ++ [y]), z, k2. by rewrite <- app_assoc, length_app.
  - split; [done|]. by exists k1, y, k2.
  - unfold dist. case_decide; lia.
Qed.

(** * Linking a block *)

Lemma mem_agree_out64 m a v (P : Z -> Prop) : (forall x, P x -> x < a \/ a + 8 <= x) -> mem_agree P m (store64 m a v).
Proof. intros H x Hx. symmetry. apply store64_out, H, Hx. Qed.

Lemma mem_agree_out32 m a v (P : Z -> Prop) : (forall x, P x -> x < a \/ a + 4 <= x) -> mem_agree P m (store32 m a v).
Proof. intros H x Hx. symmetry. apply store32_out, H, Hx. Qed.

(** Memory changed in the header of a block only. *)
Definition only_header (b : Z) m m' : Prop := forall x, x < b \/ b + 12 <= x -> m x = m' x.

Lemma only_header_set m b p n :
  only_header b m (store64 (store32 m (b + 8) n) b p) /\
  load64 (store64 (store32 m (b + 8) n) b p) b = u64 p /\
  load32 (store64 (store32 m (b + 8) n) b p) (b + 8) = u32 n.
Proof.
  split_and!.
  - intros x Hx. rewrite store64_out, store32_out by lia. done.
  - apply load64_store64.
  - transitivity (load32 (store32 m (b + 8) n) (b + 8)); [|apply load32_store32].
    apply load32_ext. intros x Hx. rewrite store64_out by lia. done.
Qed.

Lemma only_header_ptr m b p :
  only_header b m (store64 m b p) /\ load64 (store64 m b p) b = u64 p /\
  load32 (store64 m b p) (b + 8) = load32 m (b + 8).
Proof.
  split_and!.
  - intros x Hx. by rewrite store64_out by lia.
  - apply load64_store64.
  - apply load32_ext. intros x Hx. rewrite store64_out by lia. done.
Qed.

(** Headers of blocks of [l] are not at [b]. *)
Definition away (b : Z) (l : list block) : Prop := Forall (fun y => y.1 + 12 <= b \/ b + 12 <= y.1) l.

Lemma only_header_seg b m m' l stop : only_header b m m' -> away b l -> seg m l stop -> seg m' l stop.
Proof.
  intros Ho Ha. apply seg_ext. intros x Hx. apply Ho. unfold header in Hx. apply Exists_exists in Hx as (y&Hy&?).
  unfold away in Ha. rewrite Forall_forall in Ha. specialize (Ha y Hy). lia.
Qed.

Definition addr_ok (l : list block) : Prop := Forall (fun b => 0 <= b.1 < 2 ^ 64) l.

(** A block [b] put in front of the segment [t]. *)
Lemma put_front u (b : block) t stop (q : Z) :
  load32 (u_mem u) (b.1 + 8) = b.2 -> load64 (u_mem u) q = hdaddr t stop ->
  seg (u_mem u) t stop -> away b.1 t -> addr_ok t -> 0 <= stop < 2 ^ 64 ->
  0 <= b.2 -> Forall (fun y => 0 <= y.2) t -> b.2 + total t < 2 ^ 32 -> (t = [] -> bend b <> stop) ->
  exists u', link_right b.1 q u = Ok tt u' /\ u_w u' = u_w u /\ u_sp u' = u_sp u /\
    only_header b.1 (u_mem u) (u_mem u') /\ seg (u_mem u') (join b t) stop.
Proof.
  intros Hsz Hq Hseg Haw Had Hstop Hb Hpt Htot Hne.
  unfold link_right, get_size, get_ptr, rd32, rd64, bind, gets. rewrite Hsz, Hq.
  destruct t as [|y t]; cbn [hdaddr].
  - change (b.1 + 16 * b.2) with (bend b). destruct (Z.eqb_spec (bend b) stop); [by destruct Hne|].
    unfold set_ptr, wr64, modify. eexists. do 3 (split; [done|]). cbn [u_mem set_umem]. split.
    + apply only_header_ptr.
    + destruct (only_header_ptr (u_mem u) b.1 stop) as (_&H1&H2).
      cbn. rewrite H1, H2, u64_small by lia. done.
  - apply Forall_cons in Had as [Hy Had]. apply Forall_cons in Haw as [Hay Haw]. destruct Hseg as (Hp&Hs&Hseg).
    change (b.1 + 16 * b.2) with (bend b). cbn [join]. apply Forall_cons in Hpt as [Hpy Hpt]. cbn [total] in Htot.
    assert (0 <= total t) by (clear -Hpt; induction Hpt; cbn in *; lia). cbn beta in *.
    destruct (Z.eqb_spec (bend b) y.1) as [E|E].
    + rewrite Hs. unfold set_size, set_ptr, wr32, wr64, modify. cbn [u_mem set_umem].
      rewrite (load64_ext _ (u_mem u) y.1) by (intros x Hx; apply store32_out; lia). rewrite Hp.
      destruct (only_header_set (u_mem u) b.1 (hdaddr t stop) (b.2 + y.2)) as (H1&H2&H3).
      eexists. do 3 (split; [done|]). split; [exact H1|]. cbn [u_mem set_umem seg fst snd]. rewrite H2, H3, u32_small by lia.
      split; [|split; [done|by apply (only_header_seg b.1 (u_mem u))]].
      apply u64_small. destruct t as [|z t]; [done|]. by apply Forall_cons in Had as [? _].
    + unfold set_ptr, wr64, modify. destruct (only_header_ptr (u_mem u) b.1 y.1) as (H1&H2&H3).
      eexists. do 3 (split; [done|]). split; [exact H1|]. cbn [u_mem set_umem]. cbn [seg]. rewrite H2, H3, u64_small by lia.
      split; [done|]. split; [done|]. apply (only_header_seg b.1 (u_mem u) _ (y :: t)); [done|by constructor|done].
Qed.

Lemma put_left u (x b : block) t stop :
  load32 (u_mem u) (x.1 + 8) = x.2 -> seg (u_mem u) (b :: t) stop -> away x.1 (b :: t) ->
  addr_ok (b :: t) -> 0 <= stop < 2 ^ 64 -> 0 <= x.2 -> 0 <= b.2 -> x.2 + b.2 < 2 ^ 32 ->
  exists u', link_left b.1 x.1 u = Ok tt u' /\ u_w u' = u_w u /\ u_sp u' = u_sp u /\
    only_header x.1 (u_mem u) (u_mem u') /\ seg (u_mem u') (join x (b :: t)) stop.
Proof.
  intros Hsz (Hp&Hs&Hseg) [Hab Hat]%Forall_cons [Hb Had]%Forall_cons Hstop Hx Hb2 Htot.
  unfold link_left, get_size, get_ptr, rd32, rd64, bind, gets. rewrite Hsz.
  change (x.1 + 16 * x.2) with (bend x). cbn [join]. cbn beta in *. destruct (Z.eqb_spec (bend x) b.1) as [E|E].
  - rewrite Hs. unfold set_size, set_ptr, wr32, wr64, modify. cbn [u_mem set_umem].
    rewrite (load64_ext _ (u_mem u) b.1) by (intros z Hz; apply store32_out; lia). rewrite Hp.
    destruct (only_header_set (u_mem u) x.1 (hdaddr t stop) (x.2 + b.2)) as (H1&H2&H3).
    eexists. do 3 (split; [done|]). split; [exact H1|]. cbn [u_mem set_umem seg fst snd]. rewrite H2, H3, u32_small by lia.
    split; [|split; [done|by apply (only_header_seg x.1 (u_mem u))]].
    apply u64_small. destruct t as [|z t]; [done|]. by apply Forall_cons in Had as [? _].
  - unfold set_ptr, wr64, modify. destruct (only_header_ptr (u_mem u) x.1 b.1) as (H1&H2&H3).
    eexists. do 3 (split; [done|]). split; [exact H1|]. cbn [u_mem set_umem]. cbn [seg]. rewrite H2, H3, u64_small by lia.
    split; [done|]. split; [done|].
    apply (only_header_seg x.1 (u_mem u) _ (b :: t)); [done|by apply Forall_cons|done].
Qed.

(** * [free] *)

Lemma join_addr (P : Z -> Prop) x l : P x.1 -> Forall (fun b => P b.1) l -> Forall (fun b => P b.1) (join x l).
Proof.
  intros Hx Hl. destruct l as [|y l]; [by apply Forall_singleton|]. cbn [join].
  destruct (_ =? _); [|by apply Forall_cons]. apply Forall_cons in Hl as [_ Hl]. by apply Forall_cons.
Qed.

Lemma join_app x l l' : l <> [] \/ bend x <> hdaddr l' (bend x + 1) -> join x (l ++ l') = join x l ++ l'.
Proof.
  intros H. destruct l as [|y l]; cbn [app join]; [|by destruct (_ =? _)].
  destruct l' as [|y l']; [done|]. cbn [join]. destruct H as [|H]; [done|]. cbn in H.
  by destruct (Z.eqb_spec (bend x) y.1).
Qed.

Lemma join_cons x l : positive l -> exists n l', join x l = (x.1, n) :: l' /\ x.2 <= n.
Proof.
  intros Hl. destruct l as [|y l]; cbn [join].
  - exists x.2, []. by destruct x.
  - apply Forall_cons in Hl as [Hy _]. cbn in Hy. destruct (_ =? _).
    + exists (x.2 + y.2), l. split; [done|lia].
    + exists x.2, (y :: l). by destruct x.
Qed.

(** The blocks of the list are apart, [base] and its header included. *)
Lemma links_away bl l1 x l2 :
  sorted bl -> Forall (fun b => 0 < b.2 /\ lo <= b.1) bl -> links bl = l1 ++ x :: l2 ->
  away x.1 (l2 ++ l1).
Proof.
  intros Hs Hr E. unfold away. apply Forall_app.
  assert (H : forall a b k, links bl = k ++ a :: b -> Forall (fun y => a.1 + 12 <= y.1) b).
  { clear l1 x l2 E. intros a b [|z k] E; injection E as E E'.
    - subst. eapply Forall_impl; [exact Hr|]. cbn. lia.
    - rewrite E' in Hs, Hr. apply sorted_app in Hs as (_&[Hs _]&_).
      apply Forall_app in Hr as [_ [Ha _]%Forall_cons]. eapply Forall_impl; [exact Hs|]. cbn. unfold bend. lia. }
  split.
  - eapply Forall_impl; [exact (H _ _ _ E)|]. cbn. lia.
  - apply Forall_forall. intros y Hy. apply list_elem_of_split in Hy as (k1&k2&->).
    rewrite <- app_assoc in E. cbn in E. apply H in E. apply Forall_app in E as [_ [E _]%Forall_cons]. cbn in E. lia.
Qed.

Lemma total_bound (bl : list block) a hi :
  Forall (fun b => 0 < b.2 /\ a <= b.1 /\ bend b <= hi) bl -> sorted bl -> a <= hi ->
  0 <= total bl /\ 16 * total bl <= hi - a /\ Z.of_nat (length bl) <= hi - a.
Proof.
  revert a. induction bl as [|y bl IH]; intros a Hr Hs Ha; cbn; [lia|].
  apply Forall_cons in Hr as [Hy Hr]. destruct Hs as [Hys Hs]. unfold bend in *.
  destruct (IH (y.1 + 16 * y.2)) as (?&?&?); [|done|lia|lia].
  apply Forall_forall. intros z Hz. rewrite Forall_forall in Hr, Hys. specialize (Hr z Hz). specialize (Hys z Hz). cbn in *. lia.
Qed.

(** Joining keeps blocks inside the heap. *)
Lemma join_in_heap hi x l : in_heap hi x -> Forall (in_heap hi) l -> Forall (in_heap hi) (join x l).
Proof.
  intros Hx Hl. destruct l as [|y l]; [by apply Forall_singleton|]. cbn [join].
  destruct (Z.eqb_spec (bend x) y.1) as [E|E]; [|by apply Forall_cons].
  apply Forall_cons in Hl as [Hy Hl]. apply Forall_cons. split; [|done].
  unfold in_heap, bend in *. cbn. lia.
Qed.

Lemma in_heap_positive hi l : Forall (in_heap hi) l -> positive l.
Proof. intros H. eapply Forall_impl; [exact H|]. intros b (?&_). lia. Qed.

(** The free list with [b] put in. *)
Record inserted (hi : Z) (bl : list block) (b : block) (bl' : list block) : Prop := {
  ins_sorted : sorted bl';
  ins_range : Forall (in_heap hi) bl';
  ins_total : total bl' = total bl + b.2;
  ins_big : Exists (fun y => b.2 <= y.2) bl';
  ins_disj a : 0 < a.2 -> disj a b -> Forall (disj a) bl -> Forall (disj a) bl'
}.

(** What joins into [x] and what follows it. *)
Lemma insert_at hi k x l2 b :
  sorted (k ++ x :: l2) -> Forall (in_heap hi) (k ++ x :: l2) -> in_heap hi b ->
  Forall (fun y => bend y <= b.1 /\ y.1 < b.1) (k ++ [x]) -> Forall (fun y => bend b <= y.1) l2 ->
  inserted hi (k ++ x :: l2) b (k ++ join x (join b l2)).
Proof.
  intros Hs Hr Hb H1 H2. apply sorted_app in Hs as (Hk&[Hx Hl]&Hkx).
  apply Forall_app in Hr as [Hrk [Hrx Hrl]%Forall_cons]. apply Forall_app in H1 as [H1 [[Hxb Hxb'] _]%Forall_cons].
  assert (Hp : positive l2) by by eapply in_heap_positive.
  assert (Hpb : positive (join b l2)) by (eapply in_heap_positive; by apply join_in_heap).
  destruct (join_cons b l2 Hp) as (n&l'&Ej&Hn).
  assert (Hsj : sorted (join b l2)) by by apply join_sorted.
  assert (Hxj : Forall (fun y => bend x <= y.1) (join b l2)).
  { apply (join_addr (fun z => bend x <= z)); [done|]. eapply Forall_impl; [exact Hx|]. cbn. lia. }
  split.
  - apply sorted_app. split_and!; [done|by apply join_sorted|].
    eapply Forall_impl; [exact Hkx|]. cbn. intros y [Hyx Hyl]%Forall_cons.
    apply (join_addr (fun z => bend y < z)); [done|]. apply (join_addr (fun z => bend y < z)); [|done].
    destruct Hrx as (?&_). unfold bend in *. lia.
  - apply Forall_app. split; [done|]. by repeat apply join_in_heap.
  - rewrite !total_app, !join_total. cbn. lia.
  - apply Exists_app. right. rewrite Ej. cbn [join].
    cbn [fst] in *. destruct Hrx as (?&_). destruct (_ =? _); [left; cbn; lia|right; by left].
  - intros a Ha Hab [Hak [Hax Hal]%Forall_cons]%Forall_app. apply Forall_app. split; [done|].
    destruct Hb as (?&_), Hrx as (?&_). apply join_disj; [done|lia|done|done|]. apply join_disj; [done|lia|done..].
Qed.

Lemma insert_block hi bl l1 x l2 b :
  links bl = l1 ++ x :: l2 -> sorted bl -> Forall (in_heap hi) bl -> in_heap hi b ->
  Forall (fun y => bend y <= b.1 /\ y.1 < b.1) (l1 ++ [x]) -> Forall (fun y => bend b <= y.1) l2 ->
  exists bl', l1 ++ join x (join b l2) = links bl' /\ inserted hi bl b bl'.
Proof.
  intros E Hs Hr Hb H1 H2. destruct l1 as [|z k]; injection E as E E'.
  - subst x l2. exists (join b bl). destruct (join_cons b bl (in_heap_positive _ _ Hr)) as (n&l'&Ej&Hn).
    assert (Hp : positive bl) by by eapply in_heap_positive. split.
    + cbn [app]. rewrite Ej. cbn [join]. unfold bend. cbn [fst snd]. destruct Hb as (?&?&?).
      destruct (Z.eqb_spec (base + 16 * 0) b.1); [lia|done].
    + split; [by apply join_sorted|by apply join_in_heap|rewrite join_total; lia|rewrite Ej; by left|].
      intros a Ha Hab Hal. destruct Hb as (?&_). apply join_disj; [done|lia|done..].
  - subst z bl. exists (k ++ join x (join b l2)). split; [done|].
    apply Forall_cons in H1 as [_ H1]. by apply insert_at.
Qed.

(** A block of the heap that is not free has its header away from the list. *)
Lemma away_links hi bl b : in_heap hi b -> Forall (in_heap hi) bl -> Forall (disj b) bl -> away b.1 (links bl).
Proof.
  intros (Hb0&Hb&_) Hr Hd. apply Forall_cons. split; [cbn; lia|]. apply Forall_forall. intros y Hy.
  rewrite Forall_forall in Hr, Hd. destruct (Hr y Hy) as (?&?&?). specialize (Hd y Hy). unfold disj, bend in *. lia.
Qed.

Lemma heap_linked m hi bl b al : heap m hi bl (b :: al) -> linked m bl.
Proof. intros [[H|(_&_&?)] _ _ _ _ _ _]; done. Qed.

(** The two linking steps, where the search ended. *)
Lemma free_link u hi bl (b : block) l1 x l2 :
  circ (u_mem u) (links bl) -> links bl = l1 ++ x :: l2 -> sorted bl -> Forall (in_heap hi) bl ->
  in_heap hi b -> hi <= 2 ^ 31 -> Forall (disj b) bl -> load32 (u_mem u) (b.1 + 8) = b.2 ->
  x.1 < b.1 ->
  exists u', (link_right b.1 x.1 ;; link_left b.1 x.1) u = Ok tt u' /\ u_w u' = u_w u /\ u_sp u' = u_sp u /\
    seg (u_mem u') (join x (join b (l2 ++ l1))) x.1 /\
    (forall z, z < b.1 \/ b.1 + 12 <= z -> z < x.1 \/ x.1 + 12 <= z -> u_mem u z = u_mem u' z).
Proof.
  intros Hc E Hs Hr Hb Hhi Hd Hsz Hxb.
  pose proof (away_links hi bl b Hb Hr Hd) as Haw. pose proof (links_away bl l1 x l2 Hs) as Hax.
  destruct (total_bound bl lo hi Hr Hs) as (Ht0&Ht&_); [destruct Hb as (?&?&?); unfold bend in *; lia|].
  assert (Hok : Forall (fun y => 0 <= y.2 /\ 0 <= y.1 < 2 ^ 64) (links bl)).
  { apply Forall_cons. split; [cbn; lia|]. eapply Forall_impl; [exact Hr|]. unfold in_heap, bend. cbn. lia. }
  assert (Htot : total (links bl) = total bl) by done.
  rewrite E in Hc, Haw, Hok, Htot. rewrite total_app in Htot. cbn [total] in Htot.
  apply Forall_app in Haw as [Haw1 [Hawx Haw2]%Forall_cons]. apply Forall_app in Hok as [Hok1 [Hokx Hok2]%Forall_cons].
  apply circ_rotate in Hc. destruct Hc as (Hp&Hsx&Hseg). rewrite <- app_comm_cons in Hp, Hseg. cbn [hdaddr] in Hp, Hseg.
  assert (Hokt : Forall (fun y => 0 <= y.2 /\ 0 <= y.1 < 2 ^ 64) (l2 ++ l1)) by by apply Forall_app.
  assert (Hpos : positive (l2 ++ l1)) by (eapply Forall_impl; [exact Hokt|]; cbn; lia).
  assert (Hao : addr_ok (l2 ++ l1)) by (eapply Forall_impl; [exact Hokt|]; cbn; lia).
  assert (Hbb : 0 < b.2 /\ lo <= b.1 /\ 16 * b.2 <= hi - lo) by (destruct Hb as (?&?&?); unfold bend in *; lia).
  destruct (put_front u b (l2 ++ l1) x.1 x.1) as (u1&E1&Hw1&Hsp1&Ho1&Hseg1); [done|done|done| |done|cbn in Hokx; lia|lia|done| | |].
  { by apply Forall_app. }
  { rewrite total_app. cbn beta in *. lia. }
  { intros _. unfold bend. lia. }
  destruct (join_cons b (l2 ++ l1) Hpos) as (n&t&Ej&Hn). cbn beta in Hawx.
  assert (Hax' : away x.1 (join b (l2 ++ l1))).
  { apply (join_addr (fun y => y + 12 <= x.1 \/ x.1 + 12 <= y)); [lia|]. apply Hax; [|done].
    eapply Forall_impl; [exact Hr|]. unfold in_heap. cbn. lia. }
  assert (Hao' : addr_ok (join b (l2 ++ l1))).
  { apply (join_addr (fun y => 0 <= y < 2 ^ 64)); [|done]. destruct Hb as (?&?&?). unfold bend in *. lia. }
  assert (Hpos' : positive (join b (l2 ++ l1))) by (apply join_positive; [lia|done]).
  pose proof (join_total b (l2 ++ l1)) as Hjt. rewrite Ej in Hseg1, Hax', Hao', Hpos', Hjt |- *.
  assert (0 <= total t).
  { apply Forall_cons in Hpos' as [_ Hpos']. clear -Hpos'. induction Hpos'; cbn in *; lia. }
  rewrite total_app in Hjt. cbn [total fst snd] in Hjt.
  destruct (put_left u1 x (b.1, n) t x.1) as (u2&E2&Hw2&Hsp2&Ho2&Hseg2); [|done|done|done|cbn in Hokx; lia|cbn in Hokx; lia|cbn; lia| |].
  { rewrite <- Hsx. apply load32_ext. intros z Hz. symmetry. apply Ho1. lia. }
  { cbn in *. lia. }
  exists u2. rewrite (bind_ok _ _ _ _ _ E1). split_and!; [done|congruence|congruence|done|].
  intros z Hzb Hzx. rewrite Ho1 by lia. by apply Ho2.
Qed.

(** Nothing inside the allocated blocks changes. *)
Definition keeps (al : list block) m m' : Prop :=
  forall a z, a ∈ al -> a.1 <= z < bend a -> m z = m' z.

Lemma keeps_size al hi m m' :
  Forall (in_heap hi) al -> keeps al m m' ->
  Forall (fun b => load32 m (b.1 + 8) = b.2) al -> Forall (fun b => load32 m' (b.1 + 8) = b.2) al.
Proof.
  rewrite !Forall_forall. intros Hr Hk H b Hb. rewrite <- (H b Hb). apply load32_ext.
  intros z Hz. symmetry. destruct (Hr b Hb) as (?&_). apply (Hk b); [done|]. unfold bend. lia.
Qed.

(** The headers of the list are not in an allocated block. *)
Lemma header_apart hi bl al y a z :
  Forall (in_heap hi) bl -> Forall (in_heap hi) al -> Forall (fun a => Forall (disj a) bl) al ->
  y ∈ links bl -> a ∈ al -> a.1 <= z < bend a -> z < y.1 \/ y.1 + 12 <= z.
Proof.
  intros Hrb Hra Hd Hy Ha Hz. rewrite Forall_forall in Hra, Hd, Hrb.
  destruct (Hra a Ha) as (?&?&?). specialize (Hd a Ha). unfold links in Hy.
  apply elem_of_cons in Hy as [->|Hy]; [cbn; lia|].
  rewrite Forall_forall in Hd. specialize (Hd y Hy). destruct (Hrb y Hy) as (?&?&?). unfold disj, bend in *. lia.
Qed.

Lemma keeps_trans al m1 m2 m3 : keeps al m1 m2 -> keeps al m2 m3 -> keeps al m1 m3.
Proof. intros H1 H2 a z Ha Hz. rewrite (H1 a z) by done. by apply (H2 a). Qed.

Lemma keeps_freep hi al m v : Forall (in_heap hi) al -> keeps al m (store64 m freep v).
Proof.
  intros Hr a z Ha Hz. rewrite Forall_forall in Hr. destruct (Hr a Ha) as (?&?&?). rewrite store64_out by lia. done.
Qed.

(** A circular list through [base] is not disturbed by [freep]. *)
Lemma circ_freep hi bl m v : Forall (in_heap hi) bl -> circ m (links bl) -> circ (store64 m freep v) (links bl).
Proof.
  intros Hr. apply seg_ext. intros z Hz. rewrite store64_out; [done|]. unfold header, links in Hz.
  apply Exists_cons in Hz as [Hz|Hz]; [cbn in Hz; lia|]. apply Exists_exists in Hz as (y&Hy&?).
  rewrite Forall_forall in Hr. destruct (Hr y Hy) as (?&?&?). lia.
Qed.

Lemma links_tail (P : block -> Prop) bl l1 x l2 : links bl = l1 ++ x :: l2 -> Forall P bl -> Forall P l2.
Proof.
  intros E H. destruct l1 as [|z l1]; injection E as _ ->; [done|].
  by apply Forall_app in H as [_ [_ H]%Forall_cons].
Qed.

(** The list after the linking steps and the store to [freep]. *)
Lemma relinked m hi bl bl' (b : block) l1 x l2 :
  links bl = l1 ++ x :: l2 -> Forall (in_heap hi) bl -> in_heap hi b -> hi <= 2 ^ 31 ->
  l1 ++ join x (join b l2) = links bl' -> Forall (in_heap hi) bl' ->
  seg m (join x (join b (l2 ++ l1))) x.1 -> linked (store64 m freep x.1) bl'.
Proof.
  intros E Hrb (Hb0&Hblo&Hbhi) Hhi E' Hrb' Hseg. unfold bend in Hbhi.
  destruct (join_cons x (join b l2)) as (n&t&Ej&_).
  { apply join_positive; [lia|]. eapply in_heap_positive. by eapply links_tail. }
  assert (Hx : 0 <= x.1 < 2 ^ 64).
  { destruct l1; injection E as E1 E2; [subst x; cbn; lia|]. rewrite E2 in Hrb.
    apply Forall_app in Hrb as [_ [(?&?&?) _]%Forall_cons]. unfold bend in *. lia. }
  rewrite join_app, join_app in Hseg.
  - split; [|rewrite load64_store64, u64_small by done; rewrite <- E', Ej; by exists l1, (x.1, n), t].
    apply (circ_freep hi); [done|]. rewrite <- E'. apply circ_rotate. rewrite Ej in Hseg |- *. exact Hseg.
  - left. destruct l2; cbn; [done|]. by destruct (_ =? _).
  - right. destruct l1 as [|z l1]; cbn [hdaddr]; [lia|]. injection E as E _. rewrite <- E. unfold bend. cbn. lia.
Qed.

Lemma free_spec u hi bl (b : block) al :
  heap (u_mem u) hi bl (b :: al) ->
  exists u' bl', free freep (b.1 + 16) u = Ok tt u' /\ u_w u' = u_w u /\ u_sp u' = u_sp u /\
    heap (u_mem u') hi bl' al /\ linked (u_mem u') bl' /\ inserted hi bl b bl' /\ keeps al (u_mem u) (u_mem u').
Proof.
  intros Hh. pose proof (heap_linked _ _ _ _ _ Hh) as (Hc&k1&y&k2&Ek&Hfpy).
  pose proof Hh as [_ Hs Hr Hsz Hd Hap Hhi]. apply Forall_app in Hr as [Hrb [Hb Hra]%Forall_cons].
  apply Forall_cons in Hsz as [Hsb Hsz]. apply Forall_cons in Hd as [Hdb Hd]. destruct Hap as [Hab Hap].
  destruct (heap_bounds _ _ _ _ Hh) as (Hlk&Hls&_).
  assert (Hpl : positive (links bl)) by (eapply Forall_impl; [exact Hlk|]; cbn; lia).
  pose proof Hb as (Hb0&Hblo&Hbhi).
  destruct (place bl b) as (l1&x&l2&E&Hx&H1&H2); [done|lia|done| |done|].
  { eapply Forall_impl; [exact Hrb|]. by intros ? (?&_). }
  unfold free. replace (b.1 + 16 - 16) with b.1 by lia.
  rewrite (bind_ok _ _ _ y.1 u) by (unfold rd64, gets; by rewrite Hfpy).
  rewrite (bind_ok _ _ _ x.1 u).
  2: { apply (free_walk u bl l1 x l2 b k1 y k2); try done; [lia|].
       destruct (total_bound bl lo hi Hrb Hs) as (_&_&?); [lia|]. unfold links. cbn [length]. lia. }
  assert (Hxb : x.1 < b.1) by (by apply Forall_app in H1 as [_ [[_ ?] _]%Forall_cons]).
  destruct (free_link u hi bl b l1 x l2) as (u1&E1&Hw1&Hsp1&Hseg&Hm1); [try done; lia..|].
  rewrite <- bind_assoc, (bind_ok _ _ _ _ _ E1). unfold wr64, modify.
  destruct (insert_block hi bl l1 x l2 b) as (bl'&E'&Hins); [done..|].
  assert (Hxin : x ∈ links bl) by (rewrite E; apply elem_of_app; right; left).
  assert (Hk1 : keeps al (u_mem u) (u_mem u1)).
  { intros a z Ha Hz. apply Hm1; [|by apply (header_apart hi bl al x a)].
    rewrite Forall_forall in Hra, Hab. destruct (Hra a Ha) as (?&?&?). specialize (Hab a Ha). unfold disj, bend in *. lia. }
  pose proof (keeps_trans al _ _ _ Hk1 (keeps_freep hi al (u_mem u1) x.1 Hra)) as Hk.
  assert (Hlk' : linked (store64 (u_mem u1) freep x.1) bl').
  { apply (relinked (u_mem u1) hi bl bl' b l1 x l2); try done; [lia|apply Hins]. }
  eexists _, bl'. split; [done|]. cbn [u_mem u_w u_sp set_umem].
  split; [done|]. split; [done|]. split; [|by split; [|split]].
  destruct Hins as [Hs' Hr' _ _ Hd']. split; [by left|done|by apply Forall_app| | |done|done].
  - by apply (keeps_size al hi (u_mem u)).
  - apply Forall_forall. intros a Ha. rewrite Forall_forall in Hra, Hd, Hab. destruct (Hra a Ha) as (?&_).
    apply Hd'; [done| |by apply Hd]. specialize (Hab a Ha). unfold disj in *. lia.
Qed.

(** * [morecore] *)

(** The heap in a larger address space. *)
Lemma heap_grow m m' hi hi' bl al :
  heap m hi bl al -> mem_agree (fun z => z < hi) m m' -> hi <= hi' <= 2 ^ 31 -> heap m' hi' bl al.
Proof.
  intros Hh Hm Hle. pose proof Hh as [Hl Hs Hr Hsz Hd Hap Hhi]. destruct (heap_bounds _ _ _ _ Hh) as (_&_&Hrb&Hra).
  assert (Hfr : load64 m' freep = load64 m freep).
  { apply load64_ext. intros z Hz. symmetry. apply Hm. lia. }
  split; [| |eapply Forall_impl; [exact Hr|]; intros b (?&?&?); split_and!; lia| |done|done|lia].
  - destruct Hl as [[Hc Hf]|Hl]; [left|right; by rewrite Hfr]. split; [|by rewrite Hfr].
    revert Hc. apply seg_ext. intros z Hz. apply Hm. apply Exists_cons in Hz as [Hz|Hz]; [cbn in Hz; lia|].
    apply Exists_exists in Hz as (y&Hy&?). rewrite Forall_forall in Hrb. destruct (Hrb y Hy) as (?&?&?). unfold bend in *. lia.
  - done.
  - apply (keeps_size al hi m); [done| |done]. intros a z Ha Hz. apply Hm.
    rewrite Forall_forall in Hra. destruct (Hra a Ha) as (?&?&?). lia.
Qed.

(** New memory as an allocated block. *)
Lemma heap_new m hi n bl al :
  heap m hi bl al -> linked m bl -> 0 < n < 2 ^ 32 -> hi + 16 * n <= 2 ^ 31 ->
  heap (store32 m (hi + 8) n) (hi + 16 * n) bl ((hi, n) :: al).
Proof.
  intros Hh Hl Hn Hle.
  assert (Hh' : heap (store32 m (hi + 8) n) (hi + 16 * n) bl al).
  { eapply heap_grow; [exact Hh| |lia]. apply mem_agree_out32. lia. }
  destruct (heap_bounds _ _ _ _ Hh) as (_&_&Hrb&Hra). destruct Hh as [_ _ _ _ _ _ Hhi].
  destruct Hh' as [Hl' Hs Hr Hsz Hd Hap Hhi']. split.
  - left. destruct Hl' as [?|(H0&_&_)]; [done|]. exfalso. destruct Hl as (_&l1&x&l2&E&Hf).
    rewrite (load64_ext _ m) in H0 by (intros z Hz; apply store32_out; lia). rewrite Hf in H0.
    destruct l1; injection E as E1 E2; [subst x; cbn in H0; lia|]. rewrite E2 in Hrb.
    apply Forall_app in Hrb as [_ [(?&?&?) _]%Forall_cons]. lia.
  - done.
  - rewrite Forall_app in Hr |- *. destruct Hr as [Hr1 Hr2]. split; [done|]. constructor; [|done].
    unfold in_heap, bend. cbn. lia.
  - constructor; [|done]. cbn. rewrite load32_store32. apply u32_small. lia.
  - constructor; [|done]. eapply Forall_impl; [exact Hrb|]. unfold in_heap, disj, bend. cbn. lia.
  - split; [|done]. eapply Forall_impl; [exact Hra|]. unfold in_heap, disj, bend. cbn. lia.
  - done.
Qed.

Lemma linked_freep m hi bl : linked m bl -> Forall (in_heap hi) bl -> hi <= 2 ^ 31 -> load64 m freep <> 0.
Proof.
  intros (_&l1&x&l2&E&->) Hr Hhi. destruct l1; injection E as E1 E2; [subst x; cbn; lia|].
  rewrite E2 in Hr. apply Forall_app in Hr as [_ [(?&?&?) _]%Forall_cons]. lia.
Qed.

(** The heap of a process, with the allocated blocks [al] as in [u0] and all memory
    accounted for. *)
Record state (u0 : user W) (bl0 al : list block) u bl : Prop := {
  st_heap : heap (u_mem u) (brk (u_w u)) bl al;
  st_keeps : keeps al (u_mem u0) (u_mem u);
  st_total : 16 * total bl - brk (u_w u) = 16 * total bl0 - brk (u_w u0)
}.

Lemma morecore_spec u0 bl0 al u bl nu :
  state u0 bl0 al u bl -> linked (u_mem u) bl -> 0 < nu < 2 ^ 27 ->
  (exists u', morecore freep nu u = Ok 0 u' /\ state u0 bl0 al u' bl) \/
  (exists p u' bl', morecore freep nu u = Ok p u' /\ p <> 0 /\ load64 (u_mem u') freep = p /\
     state u0 bl0 al u' bl' /\ linked (u_mem u') bl' /\ Exists (fun y => nu <= y.2) bl').
Proof.
  intros [Hh Hk Ht] Hl Hnu. unfold morecore. set (n := if nu <? 4096 then 4096 else nu).
  assert (Hn : nu <= n /\ 0 < n * 16 < 2 ^ 31) by (unfold n; destruct (Z.ltb_spec nu 4096); lia).
  rewrite s32_small by lia.
  destruct (sbrk_law (u_mem u) (u_w u) (n * 16) ltac:(lia)) as [(w'&E&Hb)|(m'&w'&E&Hb&Hb'&Hm)].
  - left. eexists. unfold bind, sbrk, stub. rewrite E. split; [done|]. split; cbn [u_mem u_w]; [|done|].
    + by rewrite Hb.
    + by rewrite Hb.
  - right. set (hi := brk (u_w u)) in *. pose proof Hh as [_ _ _ _ _ _ Hhi].
    set (u1 := User (store32 m' (hi + 8) n) (u_sp u) w').
    assert (Hg : heap m' hi bl al) by (eapply heap_grow; [done..|lia]).
    assert (Hlg : linked m' bl).
    { destruct Hg as [[?|(H0&_&_)] _ _ _ _ _ _]; [done|]. exfalso. destruct (heap_bounds _ _ _ _ Hh) as (_&_&Hrb&_).
      apply (linked_freep (u_mem u) hi bl Hl Hrb); [lia|]. rewrite <- H0. apply load64_ext.
      intros z Hz. apply Hm. lia. }
    assert (Hnew : heap (u_mem u1) (brk w') bl ((hi, n) :: al)).
    { rewrite Hb. replace (hi + n * 16) with (hi + 16 * n) by lia. apply heap_new; try done; lia. }
    destruct (free_spec u1 (brk w') bl (hi, n) al Hnew)
      as (u2&bl'&E2&Hw2&_&Hh2&Hl2&Hins&Hk2).
    assert (Hka : keeps al (u_mem u) (u_mem u1)).
    { intros a z Ha Hz. destruct (heap_bounds _ _ _ _ Hh) as (_&_&_&Hra).
      rewrite Forall_forall in Hra. destruct (Hra a Ha) as (?&?&?). cbn. rewrite store32_out by lia. apply Hm. lia. }
    exists (load64 (u_mem u2) freep), u2, bl'. split_and!.
    + unfold bind, sbrk, stub. rewrite E. destruct (Z.eqb_spec hi (-1)); [lia|].
      unfold set_size, wr32, modify. change (set_umem _ _) with u1. cbn [fst] in E2. by rewrite E2.
    + destruct (heap_bounds _ _ _ _ Hh2) as (_&_&Hrb2&_).
      apply (linked_freep _ _ _ Hl2 Hrb2). destruct Hh2 as [_ _ _ _ _ _ ?]. lia.
    + done.
    + split; [by rewrite Hw2| |].
      * eapply keeps_trans; [exact Hk|]. by eapply keeps_trans.
      * rewrite Hw2. cbn [u_w u1]. destruct Hins as [_ _ Hit _ _]. rewrite Hit, Hb. cbn. lia.
    + done.
    + destruct Hins as [_ _ _ Hbig _]. eapply Exists_impl; [exact Hbig|]. cbn. lia.
Qed.

(** * [malloc] *)

Lemma sorted_disj (l1 l2 : list block) x :
  sorted (l1 ++ x :: l2) -> Forall (disj x) (l1 ++ l2).
Proof.
  intros (_&[Hx _]&Hs)%sorted_app. apply Forall_app. split.
  - eapply Forall_impl; [exact Hs|]. intros y [Hy _]%Forall_cons. unfold disj. lia.
  - eapply Forall_impl; [exact Hx|]. unfold disj. cbn. lia.
Qed.

(** What remains of the block [x] when its last [n] units are taken. *)
Definition rest (x : block) (n : Z) : list block := if x.2 =? n then [] else [(x.1, x.2 - n)].
Definition taken (x : block) (n : Z) : block := (x.1 + 16 * (x.2 - n), n).

(** The heap without a part of [x], in terms of lists. *)
Lemma carve m hi a x b n al m' :
  heap m hi (a ++ x :: b) al -> 0 < n <= x.2 ->
  linked m' (a ++ rest x n ++ b) -> keeps al m m' -> load32 m' ((taken x n).1 + 8) = n ->
  heap m' hi (a ++ rest x n ++ b) (taken x n :: al) /\
  total (a ++ rest x n ++ b) + n = total (a ++ x :: b).
Proof.
  intros [_ Hs Hr Hsz Hd Hap Hhi] Hn Hl Hk Hsn.
  rewrite !Forall_app in Hr. destruct Hr as [[Hra [Hrx Hrb]%Forall_cons] Hral].
  assert (Hrest : Forall (fun y => y.1 = x.1 /\ 0 < y.2 /\ bend y <= (taken x n).1) (rest x n)).
  { unfold rest, taken, bend. destruct (Z.eqb_spec x.2 n); repeat constructor; cbn; lia. }
  assert (Htk : bend (taken x n) = bend x /\ x.1 <= (taken x n).1 /\ (taken x n).2 = n).
  { unfold taken, bend. cbn. lia. }
  pose proof (sorted_disj a b x Hs) as Hxd. apply sorted_app in Hs as (Hsa&[Hxb Hsb]&Hab).
  assert (Hin : forall y, disj y x -> 0 < y.2 -> disj y (taken x n) /\ Forall (disj y) (rest x n)).
  { intros y Hy Hy2. unfold disj in *. split; [lia|]. eapply Forall_impl; [exact Hrest|].
    intros z (?&?&?). unfold disj, bend in *. lia. }
  assert (Hsym : forall y z, disj y z -> disj z y) by (unfold disj; lia).
  split; [split|].
  - by left.
  - apply sorted_app. split_and!; [done| |].
    + apply sorted_app. split_and!; [by unfold rest; destruct (_ =? _)|done|].
      eapply Forall_impl; [exact Hrest|]. intros y (?&?&?). eapply Forall_impl; [exact Hxb|]. cbn. unfold bend in *. lia.
    + eapply Forall_impl; [exact Hab|]. intros y [Hyx Hyb]%Forall_cons. apply Forall_app. split; [|done].
      eapply Forall_impl; [exact Hrest|]. cbn. lia.
  - rewrite !Forall_app. split_and!; [done| |done|constructor; [|done]].
    + eapply Forall_impl; [exact Hrest|]. intros y (?&?&?). unfold in_heap, bend in *. lia.
    + destruct Htk as (?&?&?), Hrx as (?&?&?). split_and!; lia.
  - constructor; [by destruct Htk as (_&_&->)|by apply (keeps_size al hi m)].
  - constructor.
    + rewrite !Forall_app. apply Forall_app in Hxd as [Hxa Hxb'].
      assert (Hf : forall l, Forall (in_heap hi) l -> Forall (disj x) l -> Forall (disj (taken x n)) l).
      { intros l Hl1 Hl2. rewrite Forall_forall in *. intros y Hy. apply Hsym, Hin; [by apply Hsym, Hl2|by apply Hl1]. }
      split_and!; [by apply Hf| |by apply Hf]. eapply Forall_impl; [exact Hrest|]. intros y (?&?&?). unfold disj. lia.
    + rewrite Forall_forall in Hd, Hral |- *. intros y Hy. specialize (Hd y Hy). rewrite Forall_app in Hd. rewrite !Forall_app.
      destruct Hd as [? [? ?]%Forall_cons]. split_and!; [done| |done]. apply Hin; [done|by apply Hral].
  - split; [|done]. rewrite Forall_forall in Hd, Hral |- *. intros y Hy. apply Hsym, Hin; [|by apply Hral].
    specialize (Hd y Hy). by apply Forall_app in Hd as [_ [? _]%Forall_cons].
  - done.
  - rewrite !total_app. cbn [total]. unfold rest. destruct (Z.eqb_spec x.2 n); cbn; lia.
Qed.

Lemma heap_away m hi bl al l1 x l2 : heap m hi bl al -> links bl = l1 ++ x :: l2 -> away x.1 (l2 ++ l1).
Proof.
  intros Hh. destruct (heap_bounds _ _ _ _ Hh) as (_&_&Hrb&_). destruct Hh as [_ Hs _ _ _ _ _].
  apply links_away; [done|]. eapply Forall_impl; [exact Hrb|]. intros ? (?&?&?). done.
Qed.

Lemma fl_links_app l l' : links (l ++ l') = links l ++ l'.
Proof. done. Qed.

(** Stores to [freep] are outside of the headers of the heap. *)
Lemma freep_load32 m v p : lo <= p \/ p = base -> load32 (store64 m freep v) (p + 8) = load32 m (p + 8).
Proof. intros Hp. apply load32_ext. intros z Hz. apply store64_out. lia. Qed.

(** The block [x] unlinked: its predecessor [z] points to its successor. *)
Lemma unlink_mem m hi a x b al z k :
  heap m hi (a ++ x :: b) al -> circ m (links (a ++ x :: b)) -> links a = k ++ [z] ->
  let m' := store64 (store64 m z.1 (load64 m x.1)) freep z.1 in
  linked m' (a ++ b) /\ load32 m' (x.1 + 8) = x.2 /\ keeps al m m'.
Proof.
  intros Hh Hc Ez. destruct (heap_bounds _ _ _ _ Hh) as (Hlk&_&Hrb&Hra). pose proof Hh as [_ Hs _ _ Hd _ Hhi].
  assert (El : links (a ++ x :: b) = k ++ z :: x :: b).
  { rewrite fl_links_app, Ez, <- app_assoc. done. }
  assert (El' : links (a ++ b) = k ++ z :: b).
  { rewrite fl_links_app, Ez, <- app_assoc. done. }
  pose proof (heap_away _ _ _ _ _ _ _ Hh El) as Haz. apply Forall_app in Haz as [[Hzx Hzb]%Forall_cons Hzk].
  rewrite El in Hc, Hlk. apply circ_rotate in Hc. destruct Hc as (Hpz&Hsz&Hpx&Hsx&Hseg).
  cbn [hdaddr app] in Hseg, Hpx. apply Forall_app in Hlk as [_ [Hlz [Hlx Hlb]%Forall_cons]%Forall_cons].
  rewrite Forall_app in Hrb. destruct Hrb as [Hrba [Hrx Hrbb]%Forall_cons]. cbn beta in *.
  set (m1 := store64 m z.1 (load64 m x.1)). destruct (only_header_ptr m z.1 (load64 m x.1)) as (Ho&Hp1&Hs1).
  assert (Hc1 : circ m1 (links (a ++ b))).
  { rewrite El'. apply circ_rotate. cbn [app]. unfold circ. cbn [seg hdaddr]. unfold m1. rewrite Hp1, Hs1, u64_small by apply load64_range.
    split; [rewrite Hpx; by destruct (b ++ k)|]. split; [done|].
    apply (only_header_seg z.1 m); [done|by apply Forall_app|done]. }
  assert (Hz64 : u64 z.1 = z.1) by (apply u64_small; unfold bend in Hlz; lia).
  cbn zeta. fold m1. split_and!.
  - split; [apply (circ_freep hi); [by apply Forall_app|done]|]. rewrite load64_store64, Hz64, El'. by exists k, z, b.
  - rewrite freep_load32 by (destruct Hrx as (?&?&?); lia). rewrite <- Hsx. apply load32_ext.
    intros y Hy. symmetry. apply Ho. lia.
  - apply (keeps_trans al m m1); [|by apply (keeps_freep hi)]. intros w y Hw Hy. apply Ho.
    apply (header_apart hi (a ++ x :: b) al z w); [by apply Forall_app; split; [|constructor]|done..| |done|done].
    rewrite El. apply elem_of_app. right. left.
Qed.

(** The block [x] cut: its header keeps its place, and a new one is inside it. *)
Lemma cut_mem m hi a x b al z k n :
  heap m hi (a ++ x :: b) al -> circ m (links (a ++ x :: b)) -> links a = k ++ [z] -> 0 < n < x.2 ->
  let m' := store64 (store32 (store32 m (x.1 + 8) (x.2 - n)) (x.1 + 16 * (x.2 - n) + 8) n) freep z.1 in
  linked m' (a ++ (x.1, x.2 - n) :: b) /\ load32 m' (x.1 + 16 * (x.2 - n) + 8) = n /\ keeps al m m'.
Proof.
  intros Hh Hc Ez Hn. destruct (heap_bounds _ _ _ _ Hh) as (Hlk&_&Hrb&Hra). pose proof Hh as [_ Hs _ _ Hd _ Hhi].
  assert (El : links (a ++ x :: b) = links a ++ x :: b) by done.
  pose proof (heap_away _ _ _ _ _ _ _ Hh El) as Haw. pose proof (sorted_disj a b x Hs) as Hxd.
  rewrite El in Hc. apply circ_rotate in Hc. destruct Hc as (Hpx&Hsx&Hseg). cbn [hdaddr app] in Hseg, Hpx.
  rewrite Forall_app in Hrb. destruct Hrb as [Hrba [Hrx Hrbb]%Forall_cons]. pose proof Hrx as (_&Hxlo&Hxhi). unfold bend in Hxhi.
  set (m2 := store32 (store32 m (x.1 + 8) (x.2 - n)) (x.1 + 16 * (x.2 - n) + 8) n).
  assert (Ho : forall y, y < x.1 \/ bend x <= y -> m y = m2 y).
  { intros y Hy. unfold m2, bend in *. rewrite !store32_out by lia. done. }
  assert (Hc2 : circ m2 (links (a ++ (x.1, x.2 - n) :: b))).
  { rewrite fl_links_app. apply circ_rotate. cbn [app]. unfold circ. cbn [seg hdaddr fst snd]. split; [|split].
    - rewrite <- Hpx. apply load64_ext. intros y Hy. unfold m2. rewrite !store32_out by lia. done.
    - unfold m2. rewrite (load32_ext _ (store32 m (x.1 + 8) (x.2 - n))), load32_store32 by (intros y Hy; apply store32_out; lia).
      apply u32_small. lia.
    - revert Hseg. apply seg_ext. intros y Hy. apply Ho. apply Exists_app in Hy.
      rewrite !Forall_app in Hxd. destruct Hxd as [Hxa Hxb]. rewrite Forall_forall in Hxa, Hxb, Hrba, Hrbb.
      unfold disj, bend, links in *. rewrite Exists_cons in Hy. rewrite !Exists_exists in Hy.
      destruct Hy as [(w&Hw&?)|[?|(w&Hw&?)]]; [|cbn in *; lia|].
      + specialize (Hxb w Hw). destruct (Hrbb w Hw) as (?&?&?). lia.
      + specialize (Hxa w Hw). destruct (Hrba w Hw) as (?&?&?). lia. }
  assert (Hrb' : Forall (in_heap hi) (a ++ (x.1, x.2 - n) :: b)).
  { apply Forall_app. split; [done|]. constructor; [|done]. unfold in_heap, bend. cbn. lia. }
  assert (Hz64 : u64 z.1 = z.1).
  { apply u64_small. assert (z ∈ links a) as [->|Hz]%elem_of_cons by (rewrite Ez; apply elem_of_app; right; left).
    - cbn. lia.
    - rewrite Forall_forall in Hrba. destruct (Hrba z Hz) as (?&?&?). unfold bend in *. lia. }
  cbn zeta. fold m2. split_and!.
  - split; [by apply (circ_freep hi)|]. rewrite load64_store64, Hz64.
    exists k, z, ((x.1, x.2 - n) :: b). rewrite fl_links_app, Ez, <- app_assoc. done.
  - rewrite freep_load32 by lia. unfold m2. rewrite load32_store32. apply u32_small. lia.
  - apply (keeps_trans al m m2); [|by apply (keeps_freep hi)]. intros w y Hw Hy. apply Ho.
    rewrite Forall_forall in Hd, Hra. specialize (Hd w Hw). destruct (Hra w Hw) as (?&?&?).
    apply Forall_app in Hd as [_ [Hd _]%Forall_cons]. unfold disj, bend in *. lia.
Qed.

(** [malloc] of [n] units returns [r]: null and a heap as before, or a new block. *)
Definition malloc_post (u0 : user W) (bl0 al : list block) (n r : Z) u : Prop :=
  (r = 0 /\ exists bl, state u0 bl0 al u bl) \/
  (lo + 16 <= r /\ exists bl, heap (u_mem u) (brk (u_w u)) bl ((r - 16, n) :: al) /\
     keeps al (u_mem u0) (u_mem u) /\ 16 * (total bl + n) - brk (u_w u) = 16 * total bl0 - brk (u_w u0)).

Lemma malloc_take_spec u0 bl0 al u a x b z k n :
  state u0 bl0 al u (a ++ x :: b) -> circ (u_mem u) (links (a ++ x :: b)) -> links a = k ++ [z] -> 0 < n <= x.2 ->
  exists r u', malloc_take freep n z.1 x.1 x.2 u = Ok r u' /\ malloc_post u0 bl0 al n r u'.
Proof.
  intros [Hh Hk Ht] Hc Ez Hn. destruct (heap_bounds _ _ _ _ Hh) as (_&_&Hrb&_).
  rewrite Forall_app in Hrb. destruct Hrb as [_ [(_&Hxlo&Hxhi) _]%Forall_cons]. unfold bend in Hxhi.
  pose proof Hh as [_ _ _ _ _ _ Hhi].
  assert (H : exists m', malloc_take freep n z.1 x.1 x.2 u = Ok ((taken x n).1 + 16) (set_umem m' u) /\
    linked m' (a ++ rest x n ++ b) /\ load32 m' ((taken x n).1 + 8) = n /\ keeps al (u_mem u) m').
  { unfold malloc_take, rest, taken. destruct (Z.eqb_spec x.2 n) as [E|E].
    - destruct (unlink_mem _ _ _ _ _ _ _ _ Hh Hc Ez) as (H1&H2&H3). cbn zeta in H1, H2, H3.
      cbn [fst]. replace (x.1 + 16 * (x.2 - n)) with x.1 by lia. eexists. split; [done|].
      split; [exact H1|]. split; [by rewrite <- E|exact H3].
    - destruct (cut_mem _ _ _ _ _ _ _ _ n Hh Hc Ez ltac:(lia)) as (H1&H2&H3). cbn zeta in H1, H2, H3.
      unfold bind, set_size, get_size, wr32, rd32, wr64, modify, gets. cbn [u_mem set_umem].
      rewrite load32_store32, u32_small by lia. eexists. split; [done|]. cbn [fst app u_mem set_umem].
      split; [exact H1|]. split; [exact H2|exact H3]. }
  destruct H as (m'&E&Hl&Hs&Hk'). exists ((taken x n).1 + 16), (set_umem m' u). split; [done|]. right.
  destruct (carve _ _ _ _ _ _ _ _ Hh Hn Hl Hk' Hs) as [Hh' Ht'].
  split; [unfold taken; cbn; lia|]. exists (a ++ rest x n ++ b). cbn [u_mem u_w set_umem]. split_and!.
  - replace ((taken x n).1 + 16 - 16, n) with (taken x n); [done|]. unfold taken. cbn. f_equal. lia.
  - by eapply keeps_trans.
  - lia.
Qed.

(** The head of the loop: [x], at [p], comes after [z], at [prevp]; [f], at [freep],
    ends the round. Before [morecore] every block may be too small; after it, one of
    those still to come is not. *)
Definition searching (u0 : user W) (bl0 al : list block) (nunits : Z) (c : nat) (pp : Z * Z) u : Prop :=
  exists bl a x b r f d e z,
    state u0 bl0 al u bl /\ linked (u_mem u) bl /\ links bl = a ++ x :: b /\
    x :: b ++ a = r ++ f :: d /\ x :: b ++ a = e ++ [z] /\ pp = (z.1, x.1) /\ load64 (u_mem u) freep = f.1 /\
    (c = (length r + Z.to_nat (2 ^ 32))%nat \/ (c = length r /\ Exists (fun y => nunits <= y.2) (r ++ [f]))).

(** A new round, from the successor of [f]. *)
Lemma searching_start u0 bl0 al nunits u bl f l1 l2 :
  state u0 bl0 al u bl -> linked (u_mem u) bl -> links bl = l1 ++ f :: l2 -> load64 (u_mem u) freep = f.1 ->
  exists c, searching u0 bl0 al nunits c (f.1, load64 (u_mem u) f.1) u /\
    Z.of_nat c <= 2 ^ 31 + 2 ^ 32 /\
    (Exists (fun y => nunits <= y.2) bl -> exists c', searching u0 bl0 al nunits c' (f.1, load64 (u_mem u) f.1) u /\
      Z.of_nat c' <= 2 ^ 31).
Proof.
  intros Hst Hl E Hf. pose proof Hst as [Hh _ _]. pose proof Hl as [Hc _]. destruct (heap_bounds _ _ _ _ Hh) as (_&_&Hrb&_).
  pose proof Hh as [_ Hs _ _ _ _ Hhi]. destruct (total_bound bl lo _ Hrb Hs) as (_&_&Hlen); [lia|].
  assert (Hll : (length l1 + length l2)%nat = length bl).
  { apply (f_equal length) in E. rewrite length_app in E. cbn in E. lia. }
  rewrite E in Hc. apply circ_next in Hc as [Hn _].
  (* the successor [x], and the rotation from it to [f] *)
  assert (Hx : exists a x b, links bl = a ++ x :: b /\ x.1 = load64 (u_mem u) f.1 /\ x :: b ++ a = (l2 ++ l1) ++ [f]).
  { rewrite Hn. destruct l2 as [|x l2]; cbn [hdaddr].
    - destruct l1 as [|x l1]; cbn [hdaddr]; [exists [], f, []; by rewrite E|].
      exists [], x, (l1 ++ [f]). split_and!; [done..|]. by rewrite app_nil_r.
    - exists (l1 ++ [f]), x, l2. rewrite <- app_assoc. split_and!; [done..|]. cbn. by rewrite app_assoc. }
  destruct Hx as (a&x&b&Ex&Hxa&Er).
  exists (length (l2 ++ l1) + Z.to_nat (2 ^ 32))%nat. split; [|split; [rewrite length_app; lia|]].
  - exists bl, a, x, b, (l2 ++ l1), f, [], (l2 ++ l1), f. rewrite <- Hxa. split_and!; [done..|by left].
  - intros Hbig. exists (length (l2 ++ l1)). split; [|rewrite length_app; lia].
    exists bl, a, x, b, (l2 ++ l1), f, [], (l2 ++ l1), f. rewrite <- Hxa. split_and!; [done..|right].
    split; [done|]. assert (Hb' : Exists (fun y => nunits <= y.2) (links bl)) by by right.
    rewrite E, Exists_app, Exists_cons in Hb'. rewrite !Exists_app, Exists_cons. tauto.
Qed.

(** One round of [malloc]'s loop. *)
Lemma malloc_step_spec u0 bl0 al nunits c pp u :
  0 < nunits < 2 ^ 27 -> searching u0 bl0 al nunits c pp u ->
  exists o u', malloc_step freep nunits pp u = Ok o u' /\
    match o with
    | inl pp' => exists c', (c' < c)%nat /\ searching u0 bl0 al nunits c' pp' u'
    | inr r => malloc_post u0 bl0 al nunits r u'
    end.
Proof.
  intros Hn (bl&a&x&b&r&f&d&e&z&Hst&Hl&E&Er&Ee&->&Hf&Hc). pose proof Hl as [Hcirc _].
  pose proof Hst as [Hh _ _]. rewrite E in Hcirc. pose proof (circ_next _ _ _ _ Hcirc) as [Hnx Hsx].
  pose proof (heap_away _ _ _ _ _ _ _ Hh E) as Haw.
  unfold malloc_step. rewrite (bind_ok _ _ _ x.2 u) by (unfold get_size, rd32, gets; by rewrite Hsx).
  destruct (Z.leb_spec nunits x.2) as [Hfit|Hfit].
  { destruct a as [|y a]; injection E as E1 E2; [subst x; cbn in Hfit; lia|]. subst y bl.
    destruct (exists_last (l := links a)) as (k&z'&Ez); [done|].
    assert (z' = z) as ->.
    { change ((base, 0) :: a) with (links a) in Ee. rewrite Ez, app_comm_cons, app_assoc in Ee.
      by apply app_inj_2 in Ee as [_ [= ->]]. }
    destruct (malloc_take_spec u0 bl0 al u a x b z k nunits Hst Hcirc Ez) as (r'&u'&Et&Hpost); [lia|].
    exists (inr r'), u'. by rewrite (bind_ok _ _ _ _ _ Et). }
  rewrite (bind_ok _ _ _ f.1 u) by (unfold rd64, gets; by rewrite Hf).
  destruct r as [|x' r].
  - injection Er as <- _. rewrite Z.eqb_refl. destruct Hc as [->|[_ Hbig]].
    2: { apply Exists_cons in Hbig as [Hbig|Hbig]; [lia|by apply Exists_nil in Hbig]. }
    destruct (morecore_spec u0 bl0 al u bl nunits Hst Hl Hn)
      as [(u'&Em&Hst')|(p&u'&bl'&Em&Hp&Hfp'&Hst'&Hl'&Hbig)].
    { exists (inr 0), u'. rewrite (bind_ok _ _ _ _ _ Em). split; [done|]. left. split; [done|by exists bl]. }
    rewrite (bind_ok _ _ _ _ _ Em). destruct (Z.eqb_spec p 0); [done|].
    pose proof Hl' as (_&l1&f'&l2&El&Hf'). rewrite Hf' in Hfp'. subst p.
    destruct (searching_start u0 bl0 al nunits u' bl' f' l1 l2 Hst' Hl' El Hf') as (_&_&_&Hs).
    destruct (Hs Hbig) as (c'&Hs'&Hle). eexists (inl _), u'. split; [done|].
    exists c'. split; [cbn; lia|exact Hs'].
  - injection Er as <- Er. assert (Hxf : x.1 <> f.1).
    { rewrite Er in Haw. apply Forall_app in Haw as [_ [Haw _]%Forall_cons]. cbn in Haw. lia. }
    destruct (Z.eqb_spec x.1 f.1); [done|]. eexists (inl _), u. split; [done|].
    exists (c - 1)%nat. split; [destruct Hc as [->|[-> _]]; cbn; lia|].
    assert (Hnext : exists a' y b', links bl = a' ++ y :: b' /\ y.1 = load64 (u_mem u) x.1 /\ y :: b' ++ a' = (r ++ f :: d) ++ [x]).
    { destruct b as [|y b]; cbn [hdaddr] in Hnx.
      - destruct a as [|y a]; [by destruct r|]. exists [], y, (a ++ [x]). cbn in E, Er. rewrite <- Er.
        split_and!; [done|done|by rewrite app_nil_r].
      - exists (a ++ [x]), y, b. rewrite <- Er, <- app_assoc. split_and!; [done|done|]. cbn. by rewrite app_assoc. }
    destruct Hnext as (a'&y&b'&Ey&Hy&Ery).
    exists bl, a', y, b', r, f, (d ++ [x]), (r ++ f :: d), x. rewrite <- Hy.
    split_and!; [done..|by rewrite Ery, <- app_assoc|done|done|done|].
    destruct Hc as [->|[-> Hbig]]; [left; cbn; lia|right]. split; [cbn; lia|].
    by apply Exists_cons in Hbig as [?|?]; [lia|].
Qed.

Lemma malloc_loop_spec u0 bl0 al nunits c pp u :
  0 < nunits < 2 ^ 27 -> searching u0 bl0 al nunits c pp u -> Z.of_nat c < 2 ^ 64 ->
  exists r u', loop (malloc_step freep nunits) pp u = Ok r u' /\ malloc_post u0 bl0 al nunits r u'.
Proof.
  intros Hn Hs Hc. apply (loop_rule (malloc_step freep nunits) (searching u0 bl0 al nunits)
    (fun o => exists r u', o = Ok r u' /\ malloc_post u0 bl0 al nunits r u')) with (n := c); [|done|done].
  intros c' pp' u' Hs'. destruct (malloc_step_spec u0 bl0 al nunits c' pp' u' Hn Hs') as (o&u2&->&Ho).
  destruct o as [pp2|r]; [done|]. by exists r, u2.
Qed.

Lemma nunits_ok nbytes : 0 <= nbytes <= 2 ^ 31 - 32 ->
  0 < nunits_of nbytes < 2 ^ 27 /\ nbytes <= 16 * (nunits_of nbytes - 1).
Proof.
  intros Hn. unfold nunits_of.
  assert (0 <= (nbytes + 16 - 1) / 16 < 2 ^ 27 - 1) by (split; [apply Z.div_pos; lia|apply Z.div_lt_upper_bound; lia]).
  rewrite u32_small by lia. pose proof (Z.mod_pos_bound (nbytes + 16 - 1) 16 ltac:(lia)).
  pose proof (Z.div_mod (nbytes + 16 - 1) 16 ltac:(lia)). lia.
Qed.

(** The first call of [malloc]: the list is [base] alone. *)
Lemma init_mem m hi :
  heap m hi [] [] ->
  let m' := store32 (store64 (store64 m base base) freep base) (base + 8) 0 in
  heap m' hi [] [] /\ linked m' [].
Proof.
  intros [_ _ _ _ _ _ Hhi] m'.
  assert (Hl : linked m' []).
  { split.
    - unfold circ. cbn. split_and!; [| |done].
      + unfold m'. rewrite (load64_ext _ (store64 m base base)).
        * rewrite load64_store64. apply u64_small. lia.
        * intros z Hz. rewrite store32_out, store64_out by lia. done.
      + unfold m'. by rewrite load32_store32.
    - exists [], (base, 0), []. split; [done|]. unfold m'. rewrite (load64_ext _ (store64 (store64 m base base) freep base)).
      + rewrite load64_store64. apply u64_small. cbn. lia.
      + intros z Hz. by rewrite store32_out by lia. }
  split; [|done]. by split; [left| | | | | |].
Qed.

Lemma malloc_spec u bl al nbytes :
  heap (u_mem u) (brk (u_w u)) bl al -> 0 <= nbytes <= 2 ^ 31 - 32 ->
  exists r u', malloc base freep nbytes u = Ok r u' /\ malloc_post u bl al (nunits_of nbytes) r u'.
Proof.
  intros Hh Hn. destruct (nunits_ok nbytes Hn) as [Hu _]. unfold malloc. set (n := nunits_of nbytes) in *.
  rewrite (bind_ok _ _ _ (load64 (u_mem u) freep) u) by done.
  assert (H : exists u1 f l1 l2, (if load64 (u_mem u) freep =? 0 then
      set_ptr base base ;; wr64 freep base ;; set_size base 0 ;; ret base else ret (load64 (u_mem u) freep)) u
      = Ok f.1 u1 /\ state u bl al u1 bl /\ linked (u_mem u1) bl /\ links bl = l1 ++ f :: l2 /\
      load64 (u_mem u1) freep = f.1).
  { pose proof Hh as [[Hl|(H0&->&->)] _ _ _ _ _ Hhi].
    - pose proof Hl as (_&l1&f&l2&E&Hf). exists u, f, l1, l2.
      destruct (heap_bounds _ _ _ _ Hh) as (_&_&Hrb&_).
      pose proof (linked_freep _ _ _ Hl Hrb ltac:(lia)). destruct (Z.eqb_spec (load64 (u_mem u) freep) 0); [done|].
      rewrite <- Hf. by split_and!.
    - rewrite H0. cbn [Z.eqb]. destruct (init_mem _ _ Hh) as [Hh' Hl'].
      eexists _, (base, 0), [], []. split; [done|].
      split; [split; [exact Hh'|by intros ?? ?%not_elem_of_nil|done]|]. split; [done|]. split; [done|].
      destruct Hl' as (_&l1&f&l2&E&Hf). cbn [u_mem set_umem]. rewrite Hf.
      destruct l1 as [|? l1]; [by injection E as <- _|]. injection E as _ E. by destruct l1. }
  destruct H as (u1&f&l1&l2&E1&Hst&Hl&E&Hf). rewrite (bind_ok _ _ _ _ _ E1).
  rewrite (bind_ok _ _ _ (load64 (u_mem u1) f.1) u1) by done.
  destruct (searching_start u bl al n u1 bl f l1 l2 Hst Hl E Hf) as (c&Hs&Hc&_).
  apply (malloc_loop_spec u bl al n c); [done|done|lia].
Qed.

Lemma heap_perm m hi bl al al' : al ≡ₚ al' -> heap m hi bl al -> heap m hi bl al'.
Proof.
  intros Hp [Hl Hs Hr Hsz Hd Hap Hhi]. split; [|done| | | |by eapply apart_perm|done].
  - destruct Hl as [?|(?&?&->)]; [by left|right]. apply Permutation_nil_l in Hp. by subst.
  - by rewrite <- Hp.
  - by rewrite <- Hp.
  - by rewrite <- Hp.
Qed.

(** C16: [malloc], on any heap the allocator made, returns: null, with the allocated
    blocks as they were, or a block of at least [nbytes] bytes that overlaps no other
    block. Free and allocated memory stay accounted for: what [sbrk] gave is in one of
    them. *)
Theorem malloc_correct u bl al nbytes :
  heap (u_mem u) (brk (u_w u)) bl al -> 0 <= nbytes <= 2 ^ 31 - 32 ->
  exists r u', malloc base freep nbytes u = Ok r u' /\
    malloc_post u bl al (nunits_of nbytes) r u' /\ nbytes <= 16 * (nunits_of nbytes - 1).
Proof.
  intros Hh Hn. destruct (malloc_spec u bl al nbytes Hh Hn) as (r&u'&E&Hp).
  exists r, u'. split_and!; [done|done|]. by apply nunits_ok.
Qed.

(** C17: [free] of an allocated block returns; the block is free again, merged with the
    free blocks it touches (no two free blocks are adjacent), the other blocks keep
    their contents, and no memory is lost. *)
Theorem free_correct u hi bl b al al' :
  heap (u_mem u) hi bl al -> al ≡ₚ b :: al' ->
  exists u' bl', free freep (b.1 + 16) u = Ok tt u' /\ u_w u' = u_w u /\
    heap (u_mem u') hi bl' al' /\ sorted bl' /\ total bl' = total bl + b.2 /\ keeps al' (u_mem u) (u_mem u').
Proof.
  intros Hh Hp. destruct (free_spec u hi bl b al') as (u'&bl'&E&Hw&_&Hh'&_&[Hs _ Ht _ _]&Hk); [by apply (heap_perm _ _ _ al)|].
  by exists u', bl'.
Qed.

(** * A process that uses the allocator *)

(** Calls of [malloc] and [free], and stores into allocated blocks; the second component
    is the blocks the process holds. *)
Inductive uses : user W * list block -> user W * list block -> Prop :=
| use_malloc u al nbytes r u' :
    0 <= nbytes <= 2 ^ 31 - 32 -> malloc base freep nbytes u = Ok r u' ->
    uses (u, al) (u', if r =? 0 then al else (r - 16, nunits_of nbytes) :: al)
| use_free u b al al' u' :
    al ≡ₚ b :: al' -> free freep (b.1 + 16) u = Ok tt u' -> uses (u, al) (u', al')
| use_store u b al p v :
    b ∈ al -> b.1 + 16 <= p < bend b -> uses (u, al) (set_umem (store8 (u_mem u) p v) u, al).

(** A store into an allocated block, after its header. *)
Lemma heap_store m hi bl al b p v :
  heap m hi bl al -> b ∈ al -> b.1 + 16 <= p < bend b -> heap (store8 m p v) hi bl al.
Proof.
  intros Hh Hb Hp. destruct (heap_bounds _ _ _ _ Hh) as (_&_&Hrb&Hra). destruct Hh as [Hl Hs Hr Hsz Hd Hap Hhi].
  assert (Hm : forall P : Z -> Prop, (forall z, P z -> z <> p) -> mem_agree P m (store8 m p v)).
  { intros P HP z Hz. unfold store8. destruct (Z.eqb_spec z p); [by destruct (HP z)|done]. }
  rewrite Forall_forall in Hra, Hd, Hrb. destruct (Hra b Hb) as (Hb0&Hblo&_).
  assert (Hf : load64 (store8 m p v) freep = load64 m freep).
  { symmetry. apply load64_ext, Hm. lia. }
  split; [|done|done| | |done|done].
  - rewrite Hf. destruct Hl as [[Hc He]|?]; [left|by right]. split; [|by rewrite Hf].
    revert Hc. apply seg_ext, Hm. intros z Hz. apply Exists_cons in Hz as [Hz|Hz]; [cbn in Hz; lia|].
    apply Exists_exists in Hz as (y&Hy&?). specialize (Hd b Hb). rewrite Forall_forall in Hd. specialize (Hd y Hy).
    destruct (Hrb y Hy) as (?&?&?). unfold disj, bend in *. lia.
  - rewrite Forall_forall in Hsz |- *. intros a Ha. rewrite <- (Hsz a Ha). symmetry. apply load32_ext, Hm.
    intros z Hz. destruct (decide (a = b)) as [->|Hne]; [lia|].
    assert (Hab : disj a b) by by apply (apart_disj al).
    destruct (Hra a Ha) as (?&?&?). unfold disj, bend in *. lia.
  - by rewrite Forall_forall.
Qed.

Lemma uses_heap hi0 s s' :
  uses s s' -> (exists bl, heap (u_mem s.1) (brk (u_w s.1)) bl s.2 /\ 16 * (total bl + total s.2) = brk (u_w s.1) - hi0) ->
  exists bl, heap (u_mem s'.1) (brk (u_w s'.1)) bl s'.2 /\ 16 * (total bl + total s'.2) = brk (u_w s'.1) - hi0.
Proof.
  intros Hu (bl&Hh&Ht). destruct Hu as [u al nbytes r u' Hn E|u b al al' u' Hp E|u b al p v Hb Hp]; cbn [fst snd] in *.
  - destruct (malloc_spec u bl al nbytes Hh Hn) as (r'&u2&E2&Hpost). rewrite E in E2. injection E2 as <- <-.
    destruct Hpost as [(->&bl'&[Hh' _ Ht'])|(Hr&bl'&Hh'&_&Ht')].
    + exists bl'. cbn [Z.eqb]. split; [done|lia].
    + exists bl'. destruct (Z.eqb_spec r 0); [lia|]. split; [done|]. cbn [total snd]. lia.
  - destruct (free_spec u (brk (u_w u)) bl b al') as (u2&bl'&E2&Hw&_&Hh'&_&[_ _ Ht' _ _]&_); [by apply (heap_perm _ _ _ al)|].
    rewrite E in E2. injection E2 as <-. exists bl'. rewrite Hw. split; [done|].
    assert (Hta : total al = b.2 + total al').
    { change (b.2 + total al') with (total (b :: al')). clear -Hp. induction Hp; cbn in *; lia. }
    lia.
  - exists bl. split; [by apply (heap_store _ _ _ _ b)|done].
Qed.

(** C10: However a process uses the allocator, the blocks it holds lie in the memory
    [sbrk] gave, overlap neither each other nor the free list, and with the free blocks
    make up all of that memory. *)
Theorem allocator_invariant u0 u al :
  heap (u_mem u0) (brk (u_w u0)) [] [] -> rtc uses (u0, []) (u, al) ->
  exists bl, heap (u_mem u) (brk (u_w u)) bl al /\ apart al /\
    16 * (total bl + total al) = brk (u_w u) - brk (u_w u0).
Proof.
  intros H0 Hr.
  assert (H : exists bl, heap (u_mem (u, al).1) (brk (u_w (u, al).1)) bl (u, al).2 /\
    16 * (total bl + total (u, al).2) = brk (u_w (u, al).1) - brk (u_w u0)).
  { remember (u, al) as s eqn:Es. clear Es. remember (u0, []) as s0 eqn:Es0.
    assert (Hi : exists bl, heap (u_mem s0.1) (brk (u_w s0.1)) bl s0.2 /\ 16 * (total bl + total s0.2) = brk (u_w s0.1) - brk (u_w u0)).
    { subst s0. exists []. split; [done|]. cbn. lia. }
    clear Es0 H0. induction Hr as [s|s s1 s2 Hstep Hr IH]; [done|]. apply IH. by eapply uses_heap. }
  destruct H as (bl&Hh&Ht). exists bl. pose proof Hh as [_ _ _ _ _ Hap _]. done.
Qed.

End Heap.

(** * An instance *)

(** A process whose size is all that [sbrk] changes. *)
Module Sample.
#[global] Instance kernel : Kernel Z := fun num args mw =>
  let '(m, b) := mw in
  match num, args with
  | 12, [n] => if b + n <=? 2 ^ 31 then Ok b (m, b + n) else Ok (-1) (m, b)
  | _, _ => Stop Swtch mw
  end.
#[global] Instance sample_brk : Brk Z.
Proof.
  refine {| brk := fun b => b |}. intros m b n Hn. unfold ecall, kernel.
  destruct (Z.leb_spec (b + n) (2 ^ 31)); [right|left].
  - by exists m, (b + n).
  - by exists b.
Defined.
Definition base : Z := 1024.
Definition freep : Z := 2048.
Definition lo : Z := 4096.

(** Before the first call. *)
Definition fresh : user Z := User (fun _ => 0) 0 4096.
Lemma fresh_heap : heap base freep lo (u_mem fresh) (brk (u_w fresh)) [] [].
Proof. split; [by right|done|by apply Forall_app|done|done|done|done]. Qed.

(** One block of two units allocated, nothing free. *)
Definition used : user Z :=
  User (store32 (store64 (store64 (fun _ => 0) base base) freep base) (4096 + 8) 2) 0 8192.
Lemma used_heap : heap base freep lo (u_mem used) (brk (u_w used)) [] [(4096, 2)].
Proof.
  split; [left|done| | |by repeat constructor|by repeat constructor|done].
  - split; [by vm_compute; repeat split|]. by exists [], (base, 0), [].
  - by repeat constructor.
  - by repeat constructor.
Qed.
End Sample.

Lemma malloc_correct_witness :
  exists r u', malloc Sample.base Sample.freep 100 Sample.fresh = Ok r u' /\
    malloc_post Sample.base Sample.freep Sample.lo Sample.fresh [] [] (nunits_of 100) r u' /\
    100 <= 16 * (nunits_of 100 - 1).
Proof.
  apply (malloc_correct Sample.base Sample.freep Sample.lo); [done..|by left|apply Sample.fresh_heap|done].
Defined.

Lemma free_correct_witness :
  exists u' bl', free Sample.freep 4112 Sample.used = Ok tt u' /\ u_w u' = u_w Sample.used /\
    heap Sample.base Sample.freep Sample.lo (u_mem u') 8192 bl' [] /\ sorted bl' /\
    total bl' = total [] + 2 /\ keeps [] (u_mem Sample.used) (u_mem u').
Proof.
  apply (free_correct Sample.base Sample.freep Sample.lo) with (b := (4096, 2)) (al := [(4096, 2)]);
    [done..|by left|apply Sample.used_heap|done].
Defined.

Lemma allocator_invariant_witness :
  exists u al bl, heap Sample.base Sample.freep Sample.lo (u_mem u) (brk (u_w u)) bl al /\ apart al /\
    16 * (total bl + total al) = brk (u_w u) - brk (u_w Sample.fresh).
Proof.
  destruct (malloc_spec Sample.base Sample.freep Sample.lo) with (u := Sample.fresh) (bl := @nil block) (al := @nil block) (nbytes := 100)
    as (r&u'&E&_); [done..|by left|apply Sample.fresh_heap|done|].
  exists u', (if r =? 0 then [] else (r - 16, nunits_of 100) :: []).
  apply (allocator_invariant Sample.base Sample.freep Sample.lo) with (u0 := Sample.fresh);
    [done..|by left|apply Sample.fresh_heap|].
  apply rtc_once. exact (use_malloc Sample.base Sample.freep Sample.fresh [] 100 r u' ltac:(lia) E).
Defined.
