(* ===== verification/Sh.v ===== *)
(** The shell: [src/user/sh.c].

    Commands are nodes of a store of their own, in place of structures from
    [malloc], whose result the source does not test; a pointer to a command is an
    index from 1. [sh_ps] is the variable [s] of [parsecmd], to which [ps] points
    in all parsing functions. *)

From S2P Require Import Prelude User.
Local Open Scope kernel_scope.

(** [struct execcmd], ...; the arrays of [execcmd] have [MAXARGS] elements. *)
Inductive node : Type :=
| NExec (argv eargv : list Z)
| NRedir (cmd file efile mode fd : Z)
| NPipe (left right : Z)
| NList (left right : Z)
| NBack (cmd : Z).

Definition MAXARGS : Z := 10.

Record shell (W : Type) : Type := Sh { sh_u : user W; sh_heap : list node; sh_ps : Z }.
Arguments Sh {W} sh_u sh_heap sh_ps.
Arguments sh_u {W} s.
Arguments sh_heap {W} s.
Arguments sh_ps {W} s.

Section Shell.
Context {W : Type} `{!Kernel W}.
Local Abbreviation Mo := (M (shell W)).

Definition userL : lens (shell W) (user W) := Lens sh_u (fun u s => Sh u (sh_heap s) (sh_ps s)).
Definition us {A} (m : M (user W) A) : Mo A := zoom userL m.

Definition set_ps (p : Z) : Mo unit := modify (fun s => Sh (sh_u s) (sh_heap s) p).
Definition get_node (p : Z) : Mo node := fun s =>
  match sh_heap s !! Z.to_nat (p - 1) with
  | Some n => if p <=? 0 then Stop (Fault "null") s else Ok n s
  | None => Stop (Fault "wild pointer") s
  end.
Definition set_node (p : Z) (n : node) : Mo unit :=
  modify (fun s => Sh (sh_u s) (<[Z.to_nat (p - 1) := n]> (sh_heap s)) (sh_ps s)).
Definition new_node (n : node) : Mo Z := fun s =>
  Ok (Z.of_nat (length (sh_heap s)) + 1) (Sh (sh_u s) (sh_heap s ++ [n]) (sh_ps s)).

(** [panic(s)] of the shell *)
Definition panic {A} (msg : list Z) : M (user W) A :=
  Uprintf.fprintf 2 (Uprintf.lit "%s" ++ [10]) [Uprintf.Lit msg] ;;
  exit 1.

Definition fork1 : M (user W) Z :=
  pid <- fork ;;
  if pid =? -1 then panic (Uprintf.lit "fork") else ret pid.

(** * Constructors *)

Definition execcmd : Mo Z := new_node (NExec (replicate 10 0) (replicate 10 0)).
Definition redircmd (subcmd file efile mode fd : Z) : Mo Z := new_node (NRedir subcmd file efile mode fd).
Definition pipecmd (left right : Z) : Mo Z := new_node (NPipe left right).
Definition listcmd (left right : Z) : Mo Z := new_node (NList left right).
Definition backcmd (subcmd : Z) : Mo Z := new_node (NBack subcmd).

(** * Parsing *)

Definition whitespace : list Z := [32; 9; 13; 10; 11].
Definition symbols : list Z := [60; 124; 62; 38; 59; 40; 41].

(** [while (s < es && strchr(whitespace, ...)) s++;] *)
Definition skip_step (es s : Z) : M (user W) (Z + Z) :=
  if s <? es then
    c <- rd8 s ;;
    if Ulib.in_literal whitespace c then ret (inl (s + 1)) else ret (inr s)
  else ret (inr s).
Definition skip (es s : Z) : M (user W) Z := loop (skip_step es) s.

(** The end of a word. *)
Definition word_step (es s : Z) : M (user W) (Z + Z) :=
  if s <? es then
    c <- rd8 s ;;
    if negb (Ulib.in_literal whitespace c) && negb (Ulib.in_literal symbols c)
    then ret (inl (s + 1)) else ret (inr s)
  else ret (inr s).

(** The [switch] of [gettoken]: the token and its end. *)
Definition token_at (es s : Z) : M (user W) (Z * Z) :=
  c <- rd8 s ;;
  if c =? 0 then ret (c, s)
  else if Ulib.in_literal [124; 40; 41; 59; 38; 60] c then ret (c, s + 1)
  else if c =? 62 then
    c' <- rd8 (s + 1) ;;
    if c' =? 62 then ret (43, s + 2) else ret (c, s + 1)
  else
    e <- loop (word_step es) s ;;
    ret (97, e).

(** The token, [*q] and [*eq]. *)
Definition gettoken (es : Z) : Mo (Z * Z * Z) :=
  s0 <- gets sh_ps ;;
  q <- us (skip es s0) ;;
  te <- us (token_at es q) ;;
  let '(tok, eq) := te in
  s' <- us (skip es eq) ;;
  set_ps s' ;;
  ret (tok, q, eq).

Definition peek (es : Z) (toks : list Z) : Mo bool :=
  s0 <- gets sh_ps ;;
  s <- us (skip es s0) ;;
  set_ps s ;;
  c <- us (rd8 s) ;;
  ret (nz c && Ulib.in_literal toks c).

(** [O_RDONLY], [O_WRONLY|O_CREATE|O_TRUNC] and [O_WRONLY|O_CREATE] *)
Definition O_RDONLY : Z := 0.
Definition O_TRUNCATE : Z := Z.lor (Z.lor 1 512) 1024.
Definition O_NOTRUNC : Z := Z.lor 1 512.

Definition parseredirs_step (es cmd : Z) : Mo (Z + Z) :=
  b <- peek es [60; 62] ;;
  if (b : bool) then
    t <- gettoken es ;;
    f <- gettoken es ;;
    let '(tok, _, _) := t in
    let '(tok', q, eq) := f in
    if negb (tok' =? 97) then us (panic (Uprintf.lit "missing file for redirection"))
    else if tok =? 60 then c <- redircmd cmd q eq O_RDONLY 0 ;; ret (inl c)
    else if tok =? 62 then c <- redircmd cmd q eq O_TRUNCATE 1 ;; ret (inl c)
    else if tok =? 43 then c <- redircmd cmd q eq O_NOTRUNC 1 ;; ret (inl c)
    else ret (inl cmd)
  else ret (inr cmd).
Definition parseredirs (cmd es : Z) : Mo Z := loop (parseredirs_step es) cmd.

Definition parseblock (parseline : unit -> Mo Z) (es : Z) : Mo Z :=
  b <- peek es [40] ;;
  if negb b then us (panic (Uprintf.lit "parseblock")) else
  gettoken es ;;
  cmd <- parseline tt ;;
  b <- peek es [41] ;;
  if negb b then us (panic (Uprintf.lit "syntax - missing )")) else
  gettoken es ;;
  parseredirs cmd es.

(** [cmd->argv[i] = q; cmd->eargv[i] = eq] *)
Definition set_arg (cmd i q eq : Z) : Mo unit :=
  n <- get_node cmd ;;
  match n with
  | NExec argv eargv =>
      if i <? MAXARGS then set_node cmd (NExec (<[Z.to_nat i := q]> argv) (<[Z.to_nat i := eq]> eargv))
      else fault "argv"
  | _ => fault "not an execcmd"
  end.

(** [cmd] stays the [execcmd] when redirections are put around it ([ret]). *)
Definition parseexec_step (es cmd : Z) (a : Z * Z) : Mo ((Z * Z) + (Z * Z)) :=
  let '(argc, r) := a in
  b <- peek es [124; 41; 38; 59] ;;
  if (b : bool) then ret (inr (argc, r)) else
  t <- gettoken es ;;
  let '(tok, q, eq) := t in
  if tok =? 0 then ret (inr (argc, r))
  else if negb (tok =? 97) then us (panic (Uprintf.lit "syntax"))
  else
    set_arg cmd argc q eq ;;
    let argc := argc + 1 in
    if MAXARGS <=? argc then us (panic (Uprintf.lit "too many args")) else
    r <- parseredirs r es ;;
    ret (inl (argc, r)).
Definition parseexec (parseline : unit -> Mo Z) (es : Z) : Mo Z :=
  b <- peek es [40] ;;
  if (b : bool) then parseblock parseline es else
  cmd <- execcmd ;;
  r <- parseredirs cmd es ;;
  a <- loop (parseexec_step es cmd) (0, r) ;;
  let '(argc, r) := a in
  set_arg cmd argc 0 0 ;;
  ret r.

Definition parsepipe_body (parseline : unit -> Mo Z) (es : Z) (parsepipe : unit -> Mo Z) (_ : unit) : Mo Z :=
  cmd <- parseexec parseline es ;;
  b <- peek es [124] ;;
  if (b : bool) then
    gettoken es ;;
    r <- parsepipe tt ;;
    pipecmd cmd r
  else ret cmd.
Definition parsepipe (parseline : unit -> Mo Z) (es : Z) : Mo Z := fixp (parsepipe_body parseline es) tt.

Definition back_step (es cmd : Z) : Mo (Z + Z) :=
  b <- peek es [38] ;;
  if (b : bool) then gettoken es ;; c <- backcmd cmd ;; ret (inl c) else ret (inr cmd).
Definition parseline_body (es : Z) (parseline : unit -> Mo Z) (_ : unit) : Mo Z :=
  cmd <- parsepipe parseline es ;;
  cmd <- loop (back_step es) cmd ;;
  b <- peek es [59] ;;
  if (b : bool) then
    gettoken es ;;
    r <- parseline tt ;;
    listcmd cmd r
  else ret cmd.
Definition parseline (es : Z) : Mo Z := fixp (parseline_body es) tt.

(** [for (i = 0; ecmd->argv[i]; i++) *ecmd->eargv[i] = 0;] *)
Fixpoint nul_args (argv eargv : list Z) : M (user W) unit :=
  match argv, eargv with
  | a :: argv', e :: eargv' => if a =? 0 then ret tt else wr8 e 0 ;; nul_args argv' eargv'
  | _, _ => fault "argv"
  end.

Definition nulterminate_body (nulterminate : Z -> Mo unit) (cmd : Z) : Mo unit :=
  if cmd =? 0 then ret tt else
  n <- get_node cmd ;;
  match n with
  | NExec argv eargv => us (nul_args argv eargv)
  | NRedir c _ efile _ _ => nulterminate c ;; us (wr8 efile 0)
  | NPipe l r => nulterminate l ;; nulterminate r
  | NList l r => nulterminate l ;; nulterminate r
  | NBack c => nulterminate c
  end.
Definition nulterminate (cmd : Z) : Mo unit := fixp nulterminate_body cmd.

Definition parsecmd (s : Z) : Mo Z :=
  set_ps s ;;
  n <- us (Ulib.strlen s) ;;
  let es := s + n in
  cmd <- parseline es ;;
  peek es [] ;;
  s <- gets sh_ps ;;
  if negb (s =? es) then
    us (Uprintf.fprintf 2 (Uprintf.lit "leftovers: %s" ++ [10]) [Uprintf.Word s]) ;;
    us (panic (Uprintf.lit "syntax"))
  else
    nulterminate cmd ;;
    ret cmd.

(** * Running *)

(** The arguments of an [execcmd] up to the null. *)
Fixpoint upto_null (argv : list Z) : list Z :=
  match argv with
  | [] => []
  | a :: argv' => if a =? 0 then [] else a :: upto_null argv'
  end.

(** [exec(path, argv)]: the kernel gets the pointers of the array. *)
Definition exec_args (path : Z) (argv : list Z) : M (user W) Z := stub 7 (path :: argv).

(** The two descriptors that [pipe] stores. *)
Definition pipe_fds (f : Z -> Z -> Mo unit) : Mo unit := fun s =>
  match local 8 (fun p => r <- pipe p ;; a <- gets (fun u => (get_le 4 (load_bytes (u_mem u) p 8) 0, get_le 4 (load_bytes (u_mem u) p 8) 4)) ;; ret (r, a)) (sh_u s) with
  | Ok (r, (p0, p1)) u =>
      let s' := Sh u (sh_heap s) (sh_ps s) in
      if r <? 0 then us (panic (Uprintf.lit "pipe")) s' else f (s32 p0) (s32 p1) s'
  | Stop w u => Stop w (Sh u (sh_heap s) (sh_ps s))
  end.

Definition runcmd_body (runcmd : Z -> Mo unit) (cmd : Z) : Mo unit :=
  if cmd =? 0 then us (exit 1) else
  n <- get_node cmd ;;
  match n with
  | NExec argv _ =>
      match upto_null argv with
      | [] => us (exit 1)
      | a0 :: rest =>
          us (exec_args a0 (a0 :: rest) ;;
              Uprintf.fprintf 2 (Uprintf.lit "exec %s failed" ++ [10]) [Uprintf.Word a0])
      end
  | NRedir c file _ mode fd =>
      us (close fd) ;;
      r <- us (open file mode) ;;
      if r <? 0 then
        us (Uprintf.fprintf 2 (Uprintf.lit "open %s failed" ++ [10]) [Uprintf.Word file] ;; exit 1)
      else runcmd c
  | NList l r =>
      pid <- us fork1 ;;
      (if pid =? 0 then runcmd l else ret tt) ;;
      us (wait 0) ;;
      runcmd r
  | NPipe l r =>
      pipe_fds (fun p0 p1 =>
        pid <- us fork1 ;;
        (if pid =? 0 then us (close 1 ;; dup p1 ;; close p0 ;; close p1) ;; runcmd l else ret tt) ;;
        pid <- us fork1 ;;
        (if pid =? 0 then us (close 0 ;; dup p0 ;; close p0 ;; close p1) ;; runcmd r else ret tt) ;;
        us (close p0 ;; close p1 ;; wait 0 ;; wait 0) ;;
        ret tt)
  | NBack c =>
      pid <- us fork1 ;;
      if pid =? 0 then runcmd c else ret tt
  end ;;
  us (exit 0).
Definition runcmd (cmd : Z) : Mo unit := fixp runcmd_body cmd.

(** * main *)

Definition getcmd (buf nbuf : Z) : M (user W) Z :=
  Uprintf.fprintf 2 (Uprintf.lit "$ ") [] ;;
  Ulib.memset buf 0 nbuf ;;
  Ulib.gets buf nbuf ;;
  c <- rd8 buf ;;
  if c =? 0 then ret (-1) else ret 0.

(** Three descriptors open. [console] is the address of the name. *)
Definition open_step (console : Z) (_ : unit) : M (user W) (unit + unit) :=
  fd <- open console 2 ;;
  if 0 <=? fd then
    if 3 <=? fd then close fd ;; ret (inr tt) else ret (inl tt)
  else ret (inr tt).

(** [buf] is a static array of 100 bytes. *)
Definition main_step (buf : Z) (_ : unit) : Mo (unit + unit) :=
  r <- us (getcmd buf 100) ;;
  if negb (0 <=? r) then ret (inr tt) else
  c0 <- us (rd8 buf) ;;
  c1 <- us (rd8 (buf + 1)) ;;
  c2 <- us (rd8 (buf + 2)) ;;
  if (c0 =? 99) && (c1 =? 100) && (c2 =? 32) then
    us (n <- Ulib.strlen buf ;;
        wr8 (buf + (n - 1)) 0 ;;
        r <- chdir (buf + 3) ;;
        if r <? 0 then Uprintf.fprintf 2 (Uprintf.lit "cannot cd %s" ++ [10]) [Uprintf.Word (buf + 3)] else ret tt) ;;
    ret (inl tt)
  else
    pid <- us fork1 ;;
    (if pid =? 0 then cmd <- parsecmd buf ;; runcmd cmd else ret tt) ;;
    us (wait 0) ;;
    ret (inl tt).
Definition main (console buf : Z) : Mo unit :=
  us (loop (open_step console) tt) ;;
  loop (main_step buf) tt ;;
  us (exit 0).

End Shell.
