(* ===== verification/Shell.v ===== *)
(** The syntax of the shell: tokens, a reference parser on them, and a printer.

    The reference parser has the structure of the recursive descent of
    [src/user/sh.c], on a list of tokens instead of a buffer. Here it is shown
    to invert the printer; [Parse] shows that the parser in memory implements
    it. *)

From S2P Require Import Prelude User Sh.

(** * Commands and tokens *)

Inductive redir : Type := RIn | ROut | RApp.

Inductive cmd : Type :=
| Exec (args : list (list Z))
| Redir (c : cmd) (r : redir) (file : list Z)
| Pipe (left right : cmd)
| List (left right : cmd)
| Back (c : cmd).

Inductive sym : Type := Bar | Lpar | Rpar | Semi | Amp.

Inductive tok : Type :=
| Word (w : list Z)
| Red (r : redir)
| Sym (c : sym).

#[global] Instance redir_eq_dec : EqDecision redir.
Proof. solve_decision. Defined.
#[global] Instance sym_eq_dec : EqDecision sym.
Proof. solve_decision. Defined.
#[global] Instance tok_eq_dec : EqDecision tok.
Proof. solve_decision. Defined.

(** Redirections around a command, the first one innermost. *)
Definition wrap (c : cmd) (rs : list (redir * list Z)) : cmd :=
  foldl (fun c r => Redir c r.1 r.2) c rs.

(** * The reference parser *)

Definition result (A : Type) : Type := option (A * list tok).

Fixpoint p_redirs (ts : list tok) : result (list (redir * list Z)) :=
  match ts with
  | Red r :: Word f :: ts' =>
      match p_redirs ts' with Some (rs, rest) => Some ((r, f) :: rs, rest) | None => None end
  | Red _ :: _ => None
  | _ => Some ([], ts)
  end.

(** The rest of a simple command that has [argc] arguments already. *)
Fixpoint p_args (argc : nat) (ts : list tok) : result (list (list Z) * list (redir * list Z)) :=
  match ts with
  | [] => Some (([], []), [])
  | Word w :: ts' =>
      if (9 <=? argc)%nat then None else
      match p_args (S argc) ts' with Some ((ws, rs), rest) => Some ((w :: ws, rs), rest) | None => None end
  | Red r :: Word f :: ts' =>
      match p_args argc ts' with Some ((ws, rs), rest) => Some ((ws, (r, f) :: rs), rest) | None => None end
  | Red _ :: _ => None
  | Sym Lpar :: _ => None
  | Sym _ :: _ => Some (([], []), ts)
  end.

Definition p_exec (p_line : list tok -> result cmd) (ts : list tok) : result cmd :=
  match ts with
  | Sym Lpar :: ts' =>
      match p_line ts' with
      | Some (c, Sym Rpar :: ts2) =>
          match p_redirs ts2 with Some (rs, rest) => Some (wrap c rs, rest) | None => None end
      | _ => None
      end
  | _ => match p_args 0 ts with Some ((ws, rs), rest) => Some (wrap (Exec ws) rs, rest) | None => None end
  end.

Fixpoint p_pipe (p_line : list tok -> result cmd) (fuel : nat) (ts : list tok) : result cmd :=
  match fuel with
  | O => None
  | S fuel' =>
      match p_exec p_line ts with
      | Some (c, Sym Bar :: ts') =>
          match p_pipe p_line fuel' ts' with Some (d, rest) => Some (Pipe c d, rest) | None => None end
      | r => r
      end
  end.

Fixpoint p_back (c : cmd) (ts : list tok) : cmd * list tok :=
  match ts with
  | Sym Amp :: ts' => p_back (Back c) ts'
  | _ => (c, ts)
  end.

Fixpoint p_line (fuel : nat) (ts : list tok) : result cmd :=
  match fuel with
  | O => None
  | S fuel' =>
      match p_pipe (p_line fuel') fuel ts with
      | Some (c, ts1) =>
          match p_back c ts1 with
          | (c', Sym Semi :: ts2) =>
              match p_line fuel' ts2 with Some (d, rest) => Some (List c' d, rest) | None => None end
          | (c', rest) => Some (c', rest)
          end
      | None => None
      end
  end.

(** All tokens; the fuel is more than there are tokens. *)
Definition p_cmd (ts : list tok) : option cmd :=
  match p_line (S (length ts)) ts with
  | Some (c, []) => Some c
  | _ => None
  end.

(** ** The parser consumes its input *)

Fixpoint csize (c : cmd) : nat :=
  match c with
  | Exec _ => 1
  | Redir c _ _ => S (csize c)
  | Pipe l r => S (csize l + csize r)
  | List l r => S (csize l + csize r)
  | Back c => S (csize c)
  end.

Lemma csize_wrap rs : forall c, csize (wrap c rs) = (csize c + length rs)%nat.
Proof.
  induction rs as [|r rs IH]; intros c; cbn; [lia|]. unfold wrap in IH. rewrite IH. cbn. lia.
Qed.

Definition shrinks (p : list tok -> result cmd) : Prop :=
  forall ts c rest, p ts = Some (c, rest) -> (csize c + 2 * length rest <= 2 * length ts + 1)%nat.

Lemma p_redirs_shrinks ts : forall rs rest, p_redirs ts = Some (rs, rest) -> (length rs + length rest <= length ts)%nat.
Proof.
  remember (length ts) as n eqn:En. revert ts En. induction n as [n IH] using lt_wf_ind. intros ts -> rs rest.
  destruct ts as [|[w|r|c] ts]; cbn [p_redirs]; [by intros [= <- <-]..| |by intros [= <- <-]].
  destruct ts as [|[w|r'|c'] ts]; [done| |done|done].
  destruct (p_redirs ts) as [[rs' rest']|] eqn:E; [|done]. intros [= <- <-]. apply (IH (length ts)) in E; cbn in *; lia.
Qed.

Lemma p_args_shrinks ts : forall argc ws rs rest,
  p_args argc ts = Some ((ws, rs), rest) -> (length rs + length rest <= length ts)%nat.
Proof.
  remember (length ts) as n eqn:En. revert ts En. induction n as [n IH] using lt_wf_ind. intros ts -> argc ws rs rest.
  destruct ts as [|[w|r|c] ts]; cbn [p_args]; [by intros [= <- <- <-]| | |].
  - destruct (9 <=? argc)%nat; [done|]. destruct (p_args (S argc) ts) as [[[ws' rs'] rest']|] eqn:E; [|done].
    intros [= <- <- <-]. apply (IH (length ts)) in E; cbn in *; lia.
  - destruct ts as [|[w|r'|c'] ts]; [done| |done|done]. destruct (p_args argc ts) as [[[ws' rs'] rest']|] eqn:E; [|done].
    intros [= <- <- <-]. apply (IH (length ts)) in E; cbn in *; lia.
  - by destruct c; [intros [= <- <- <-]|discriminate|intros [= <- <- <-]..].
Qed.

Lemma p_exec_shrinks pl : shrinks pl -> shrinks (p_exec pl).
Proof.
  intros Hpl ts c rest.
  assert (Hs : match p_args 0 ts with Some ((ws, rs), rest) => Some (wrap (Exec ws) rs, rest) | None => None end = Some (c, rest) ->
    (csize c + 2 * length rest <= 2 * length ts + 1)%nat).
  { destruct (p_args 0 ts) as [[[ws rs] rest']|] eqn:E; [|done]. intros [= <- <-]. apply p_args_shrinks in E.
    rewrite csize_wrap. cbn. lia. }
  destruct ts as [|[w|r|[]] ts]; try exact Hs. cbn [p_exec].
  destruct (pl ts) as [[d [|[| |[]] ts2]]|] eqn:E; try done. apply Hpl in E.
  destruct (p_redirs ts2) as [[rs rest']|] eqn:Er; [|done]. apply p_redirs_shrinks in Er. intros [= <- <-].
  rewrite csize_wrap. cbn in *. lia.
Qed.

Lemma p_pipe_shrinks pl : shrinks pl -> forall fuel, shrinks (p_pipe pl fuel).
Proof.
  intros Hpl fuel. induction fuel as [|fuel IH]; intros ts c rest; cbn [p_pipe]; [done|].
  destruct (p_exec pl ts) as [[d ts1]|] eqn:E; [|done]. apply (p_exec_shrinks pl Hpl) in E.
  assert (Hd : Some (d, ts1) = Some (c, rest) -> (csize c + 2 * length rest <= 2 * length ts + 1)%nat) by (by intros [= <- <-]).
  destruct ts1 as [|[| |[]] ts1]; try exact Hd.
  destruct (p_pipe pl fuel ts1) as [[e rest']|] eqn:E'; [|done]. apply IH in E'. intros [= <- <-]. cbn in *. lia.
Qed.

Lemma p_back_shrinks ts : forall c,
  (csize (p_back c ts).1 + 2 * length (p_back c ts).2 <= csize c + 2 * length ts)%nat.
Proof.
  induction ts as [|[| |[]] ts IH]; intros c; cbn [p_back fst snd length]; try lia. specialize (IH (Back c)). cbn in IH. lia.
Qed.

Lemma p_back_length ts : forall c, (length (p_back c ts).2 <= length ts)%nat.
Proof.
  induction ts as [|[| |[]] ts IH]; intros c; cbn [p_back fst snd length]; try lia. specialize (IH (Back c)). lia.
Qed.

Lemma p_line_shrinks : forall fuel, shrinks (p_line fuel).
Proof.
  induction fuel as [|fuel IH]; intros ts c rest; cbn [p_line]; [done|].
  destruct (p_pipe (p_line fuel) (S fuel) ts) as [[d ts1]|] eqn:E; [|done]. apply (p_pipe_shrinks _ IH) in E.
  pose proof (p_back_shrinks ts1 d) as Hb. destruct (p_back d ts1) as [d' ts2]. cbn [fst snd] in Hb.
  assert (Hd : Some (d', ts2) = Some (c, rest) -> (csize c + 2 * length rest <= 2 * length ts + 1)%nat) by (intros [= <- <-]; lia).
  destruct ts2 as [|[| |[]] ts2]; try exact Hd.
  destruct (p_line fuel ts2) as [[e rest']|] eqn:E'; [|done]. apply IH in E'. intros [= <- <-]. cbn in *. lia.
Qed.

Lemma csize_pos c : (0 < csize c)%nat.
Proof. destruct c; cbn; lia. Qed.

Lemma shrinks_length p ts c rest : shrinks p -> p ts = Some (c, rest) -> (length rest <= length ts)%nat.
Proof. intros Hp E. apply Hp in E. pose proof (csize_pos c). lia. Qed.

(** * The printer *)

(** The tokens of a command where a line (0), a command before [;] (1), a pipeline (2)
    or an element of a pipeline (3) is expected; parentheses where the grammar needs
    them. *)
Definition paren (b : bool) (ts : list tok) : list tok :=
  if b then Sym Lpar :: ts ++ [Sym Rpar] else ts.
Fixpoint show (level : nat) (c : cmd) : list tok :=
  match c with
  | Exec args => Word <$> args
  | Redir c r f => show 3 c ++ [Red r; Word f]
  | Pipe l r => paren (2 <? level)%nat (show 3 l ++ Sym Bar :: show 2 r)
  | List l r => paren (0 <? level)%nat (show 1 l ++ Sym Semi :: show 0 r)
  | Back c => paren (1 <? level)%nat (show 1 c ++ [Sym Amp])
  end.

(** At most nine arguments: [argv] has ten elements, the last of them null. *)
Fixpoint printable (c : cmd) : Prop :=
  match c with
  | Exec args => (length args <= 9)%nat
  | Redir c _ _ => printable c
  | Pipe l r => printable l /\ printable r
  | List l r => printable l /\ printable r
  | Back c => printable c
  end.

(** * Printing and parsing *)

(** What may follow an element of a pipeline, a pipeline, and a line. *)
Definition ends (k : sym -> Prop) (ts : list tok) : Prop :=
  match ts with
  | [] => True
  | Sym c :: _ => k c
  | _ => False
  end.
Definition ends3 : list tok -> Prop := ends (fun c => c <> Lpar).
Definition ends2 : list tok -> Prop := ends (fun c => c <> Lpar /\ c <> Bar).
Definition ends1 : list tok -> Prop := ends (fun c => c = Rpar \/ c = Semi).
Definition ends0 : list tok -> Prop := ends (fun c => c = Rpar).

Lemma ends_2_3 ts : ends2 ts -> ends3 ts.
Proof. destruct ts as [|[| |c] ts]; cbn; tauto. Qed.
Lemma ends_1_2 ts : ends1 ts -> ends2 ts.
Proof. destruct ts as [|[| |c] ts]; cbn; [done..|]. by intros [->| ->]. Qed.
Lemma ends_0_1 ts : ends0 ts -> ends1 ts.
Proof. destruct ts as [|[| |c] ts]; cbn; tauto. Qed.

Lemma p_redirs_app rs rest :
  ends3 rest -> p_redirs (flat_map (fun r => [Red r.1; Word r.2]) rs ++ rest) = Some (rs, rest).
Proof.
  intros Hr. induction rs as [|[r f] rs IH]; cbn.
  - by destruct rest as [|[w|r|c] rest].
  - by rewrite IH.
Qed.

Lemma p_args_app ws rs rest argc :
  ends3 rest -> (argc + length ws <= 9)%nat ->
  p_args argc ((Word <$> ws) ++ flat_map (fun r => [Red r.1; Word r.2]) rs ++ rest) = Some ((ws, rs), rest).
Proof.
  intros Hr. revert argc. induction ws as [|w ws IH]; intros argc Hn.
  - induction rs as [|[r f] rs IHr]; cbn; [|by cbn in IHr; rewrite IHr].
    destruct rest as [|[w|r|c] rest]; [done..|]. by destruct c.
  - cbn [fmap list_fmap app p_args length] in *. destruct (Nat.leb_spec 9 argc); [lia|]. by rewrite IH by lia.
Qed.

(** A command as redirections around one that is none. *)
Fixpoint core (c : cmd) : cmd := match c with Redir c _ _ => core c | _ => c end.
Fixpoint outer (c : cmd) : list (redir * list Z) :=
  match c with Redir c r f => outer c ++ [(r, f)] | _ => [] end.

Lemma wrap_core c : wrap (core c) (outer c) = c.
Proof.
  induction c as [|c IH r f| | |]; cbn; try done. unfold wrap in *. rewrite foldl_app. cbn. by rewrite IH.
Qed.

Lemma show_core c : show 3 c = show 3 (core c) ++ flat_map (fun r => [Red r.1; Word r.2]) (outer c).
Proof.
  induction c as [|c IH r f| | |]; cbn [core outer]; try (cbn [flat_map]; by rewrite app_nil_r).
  cbn [show]. rewrite IH, flat_map_app, <- app_assoc. done.
Qed.

Lemma printable_core c : printable c -> printable (core c).
Proof. by induction c. Qed.

Lemma show3_block c :
  match core c with Exec _ => True | d => show 3 d = Sym Lpar :: show 0 d ++ [Sym Rpar] end.
Proof. induction c as [|c IH r f| | |]; cbn [core]; done. Qed.

Lemma p_exec_args pl ts :
  hd_error ts <> Some (Sym Lpar) ->
  p_exec pl ts = match p_args 0 ts with Some ((ws, rs), rest) => Some (wrap (Exec ws) rs, rest) | None => None end.
Proof. by destruct ts as [|[| |[]] ts]. Qed.

(** An element of a pipeline, given that smaller lines are parsed. *)
Lemma p_exec_show pl c rest :
  printable c -> ends3 rest ->
  (forall d rest, (length (show 0 d) < length (show 3 c))%nat -> printable d -> ends0 rest -> pl (show 0 d ++ rest) = Some (d, rest)) ->
  p_exec pl (show 3 c ++ rest) = Some (c, rest).
Proof.
  intros Hp Hr IH. rewrite show_core, <- app_assoc. pose proof (show3_block c) as Hb.
  assert (Hl : (length (show 3 (core c)) <= length (show 3 c))%nat) by (rewrite (show_core c), length_app; lia).
  pose proof (printable_core c Hp) as Hpc. pose proof (wrap_core c) as Hw.
  assert (Hnr : forall d r f, core c <> Redir d r f) by (clear; induction c; cbn; done).
  destruct (core c) as [args|d r f|l r|l r|d] eqn:Ec; [|by destruct (Hnr d r f)|..].
  - cbn [show]. assert (E : p_args 0 ((Word <$> args) ++ flat_map (fun r => [Red r.1; Word r.2]) (outer c) ++ rest)
      = Some ((args, outer c), rest)) by (apply p_args_app; [done|cbn in *; lia]).
    rewrite p_exec_args, E, Hw; [done|]. destruct args, (outer c) as [|[] ?], rest as [|[| |[]] ?]; done.
  - rewrite Hb. cbn [app p_exec]. rewrite <- app_assoc, IH; [|rewrite Hb in Hl; cbn [length] in Hl; rewrite length_app in Hl; lia|done|done].
    cbn [app]. by rewrite p_redirs_app, Hw.
  - rewrite Hb. cbn [app p_exec]. rewrite <- app_assoc, IH; [|rewrite Hb in Hl; cbn [length] in Hl; rewrite length_app in Hl; lia|done|done].
    cbn [app]. by rewrite p_redirs_app, Hw.
  - rewrite Hb. cbn [app p_exec]. rewrite <- app_assoc, IH; [|rewrite Hb in Hl; cbn [length] in Hl; rewrite length_app in Hl; lia|done|done].
    cbn [app]. by rewrite p_redirs_app, Hw.
Qed.

Lemma p_pipe_show pl c : forall fuel rest,
  printable c -> ends2 rest -> (length (show 2 c) < fuel)%nat ->
  (forall d rest, (length (show 0 d) < length (show 2 c))%nat -> printable d -> ends0 rest -> pl (show 0 d ++ rest) = Some (d, rest)) ->
  p_pipe pl fuel (show 2 c ++ rest) = Some (c, rest).
Proof.
  assert (Hdef : forall c fuel rest, printable c -> ends2 rest -> show 2 c = show 3 c ->
    (forall d rest, (length (show 0 d) < length (show 2 c))%nat -> printable d -> ends0 rest -> pl (show 0 d ++ rest) = Some (d, rest)) ->
    (0 < fuel)%nat -> p_pipe pl fuel (show 2 c ++ rest) = Some (c, rest)).
  { clear c. intros c [|fuel] rest Hp Hr E IH Hf; [lia|]. cbn [p_pipe].
    rewrite E in *. rewrite p_exec_show; [|done|by apply ends_2_3|done].
    destruct rest as [|[| |[]] rest]; cbn in Hr; try done. by destruct Hr. }
  induction c as [args|c _ r f|l _ r IHr|l _ r _|c _]; intros fuel rest Hp Hr Hf IH; try (apply Hdef; done || lia).
  destruct fuel as [|fuel]; [lia|]. destruct Hp as [Hpl Hpr]. cbn [show] in *. change (2 <? 2)%nat with false in *.
  cbn [paren] in *. rewrite length_app in Hf. cbn [length] in Hf. rewrite length_app in IH. cbn [length] in IH.
  cbn [p_pipe]. rewrite <- app_assoc. cbn [app]. rewrite p_exec_show; [|done|done|].
  - rewrite IHr; [done|done|done|lia|]. intros d rest' Hd. apply IH. lia.
  - intros d rest' Hd. apply IH. lia.
Qed.

Fixpoint backs (k : nat) (c : cmd) : cmd := match k with O => c | S k' => Back (backs k' c) end.

Lemma show1 l : exists k d, l = backs k d /\ show 1 l = show 2 d ++ replicate k (Sym Amp) /\ (printable l -> printable d).
Proof.
  induction l as [args|c _ r f|l _ r _|l _ r _|c (k&d&->&E&Hp)].
  1-4: eexists 0%nat, _; cbn [backs replicate]; by rewrite app_nil_r.
  exists (S k), d. split_and!; [done| |done]. cbn [show]. change (1 <? 1)%nat with false. cbn [paren].
  rewrite E, <- app_assoc, replicate_S_end. done.
Qed.

Lemma backs_swap k c : backs k (Back c) = backs (S k) c.
Proof. induction k as [|k IH]; cbn; [done|]. by rewrite IH. Qed.

Lemma p_back_app k : forall c rest, ends1 rest -> p_back c (replicate k (Sym Amp) ++ rest) = (backs k c, rest).
Proof.
  induction k as [|k IH]; intros c rest Hr; cbn [replicate app p_back].
  - destruct rest as [|[| |[]] rest]; cbn in Hr |- *; try done. by destruct Hr.
  - by rewrite IH, backs_swap by done.
Qed.

Lemma p_line_show n : forall c fuel rest,
  (length (show 0 c) <= n)%nat -> (n < fuel)%nat -> printable c -> ends0 rest ->
  p_line fuel (show 0 c ++ rest) = Some (c, rest).
Proof.
  induction n as [n IHn] using lt_wf_ind. intros c fuel rest Hn Hf Hp Hr. destruct fuel as [|fuel]; [lia|].
  (* a command before [;] or the end *)
  assert (Hpre : forall l ts, (length (show 1 l) <= n)%nat -> printable l -> ends1 ts ->
    exists d k, p_pipe (p_line fuel) (S fuel) (show 1 l ++ ts) = Some (d, replicate k (Sym Amp) ++ ts) /\ l = backs k d).
  { intros l ts Hl Hpl Ht. destruct (show1 l) as (k&d&->&E&Hpd). exists d, k. split; [|done].
    rewrite E, <- app_assoc. rewrite E, length_app in Hl. rewrite p_pipe_show; [done|by apply Hpd| |lia|].
    - destruct k; [by apply ends_1_2|done].
    - intros d' rest' Hd' Hp' Hr'. apply (IHn (length (show 0 d'))); [lia|done|lia|done|done]. }
  assert (Hdef : show 0 c = show 1 c -> p_line (S fuel) (show 0 c ++ rest) = Some (c, rest)).
  { intros E. destruct (Hpre c rest) as (d&k&Ep&->); [by rewrite <- E|done|by apply ends_0_1|].
    rewrite E. cbn [p_line]. rewrite Ep, p_back_app by by apply ends_0_1.
    destruct rest as [|[| |[]] rest]; cbn in Hr; done. }
  destruct c as [args|c r f|l r|l r|c]; try by apply Hdef.
  cbn [show] in *. change (0 <? 0)%nat with false in *. cbn [paren] in *. rewrite length_app in Hn. cbn [length] in Hn.
  destruct Hp as [Hpl Hpr]. rewrite <- app_assoc. cbn [app].
  destruct (Hpre l (Sym Semi :: show 0 r ++ rest)) as (d&k&Ep&->); [lia|done|by right|].
  cbn [p_line]. rewrite Ep, p_back_app by by right.
  rewrite (IHn (length (show 0 r))); [done|lia|done|lia|done|done].
Qed.

Lemma p_cmd_show c : printable c -> p_cmd (show 0 c) = Some c.
Proof.
  intros Hp. unfold p_cmd. rewrite <- (app_nil_r (show 0 c)) at 2.
  by rewrite (p_line_show (length (show 0 c))) by (done || lia).
Qed.
