(* ===== verification/Parse.v ===== *)
(** The parser of the shell implements the reference parser.

    [parsecmd] of [src/user/sh.c] on a line in memory: it returns the command that
    [Shell.p_cmd] finds in the tokens of the line, or prints a message and exits
    when there is none. *)

From S2P Require Import Prelude User Sh Shell.
Local Open Scope kernel_scope.

(** * Tokens in a line *)

Definition space (c : Z) : Prop := Ulib.in_literal whitespace c = true.
Definition wordchar (c : Z) : Prop :=
  c <> 0 /\ Ulib.in_literal whitespace c = false /\ Ulib.in_literal symbols c = false.
#[global] Instance wordchar_dec c : Decision (wordchar c).
Proof. unfold wordchar. apply _. Defined.

Definition sym_char (c : sym) : Z :=
  match c with Bar => 124 | Lpar => 40 | Rpar => 41 | Semi => 59 | Amp => 38 end.
Definition text (t : tok) : list Z :=
  match t with
  | Word w => w
  | Red RIn => [60]
  | Red ROut => [62]
  | Red RApp => [62; 62]
  | Sym c => [sym_char c]
  end.

(** What [gettoken] returns for a token. *)
Definition code (t : tok) : Z :=
  match t with
  | Word _ => 97
  | Red RIn => 60
  | Red ROut => 62
  | Red RApp => 43
  | Sym c => sym_char c
  end.

Definition tok_ok (t : tok) : Prop :=
  match t with
  | Word w => w <> [] /\ Forall wordchar w
  | _ => True
  end.

(** What may follow a token in the text: a word and [>] are as long as they can be. *)
Definition sep (t : tok) (s : list Z) : Prop :=
  match t, s with
  | Word _, c :: _ => ~ wordchar c
  | Red ROut, c :: _ => c <> 62
  | _, _ => True
  end.

(** [s] is the tokens [ts], with white space around them. *)
Fixpoint spells (ts : list tok) (s : list Z) : Prop :=
  match ts with
  | [] => Forall space s
  | t :: ts' => exists sp s', s = sp ++ text t ++ s' /\ Forall space sp /\ tok_ok t /\ sep t s' /\ spells ts' s'
  end.

Lemma spells_space ts x s : space x -> spells ts s -> spells ts (x :: s).
Proof.
  intros Hx. destruct ts as [|t ts]; cbn; [by constructor|].
  intros (sp&s'&->&Hsp&Ht). exists (x :: sp), s'. split_and!; [done|by constructor|tauto..].
Qed.

(** The longest word at the start of a text. *)
Lemma take_word s : exists w s', s = w ++ s' /\ Forall wordchar w /\ sep (Word w) s'.
Proof.
  induction s as [|c s (w&s'&->&Hw&Hs)]; [by exists [], []|].
  destruct (decide (wordchar c)); [|by exists [], (c :: w ++ s')].
  exists (c :: w), s'. split_and!; [done|by constructor|done].
Qed.

(** Every line is a sequence of tokens. *)
Lemma spells_total s : Forall (fun c => c <> 0) s -> exists ts, spells ts s.
Proof.
  remember (length s) as n eqn:En. revert s En. induction n as [n IH] using lt_wf_ind. intros s -> Hs.
  destruct s as [|c s]; [exists []; constructor|]. apply Forall_cons in Hs as [Hc Hs].
  assert (Hone : forall t s', text t = [c] -> s = s' -> tok_ok t -> sep t s' -> exists ts, spells ts (c :: s)).
  { intros t s' Ht <- Hok Hsep. destruct (IH (length s)) with (s := s) as [ts Hts]; [cbn; lia|done|done|].
    exists (t :: ts), [], s. split; [by rewrite Ht|]. by split_and!. }
  destruct (Ulib.in_literal whitespace c) eqn:Ew.
  { destruct (IH (length s)) with (s := s) as [ts Hts]; [cbn; lia|done|done|]. exists ts. by apply spells_space. }
  destruct (Ulib.in_literal symbols c) eqn:Es.
  - unfold symbols in Es. cbn [Ulib.in_literal] in Es. revert Es.
    destruct (Z.eqb_spec 60 c) as [<-|]; [intros _; by apply (Hone (Red RIn) s)|].
    destruct (Z.eqb_spec 124 c) as [<-|]; [intros _; by apply (Hone (Sym Bar) s)|].
    destruct (Z.eqb_spec 62 c) as [<-|].
    { intros _. destruct s as [|c s]; [by apply (Hone (Red ROut) [])|].
      destruct (decide (c = 62)) as [->|]; [|by apply (Hone (Red ROut) (c :: s))].
      apply Forall_cons in Hs as [_ Hs]. destruct (IH (length s)) with (s := s) as [ts Hts]; [cbn; lia|done|done|].
      exists (Red RApp :: ts), [], s. by split_and!. }
    destruct (Z.eqb_spec 38 c) as [<-|]; [intros _; by apply (Hone (Sym Amp) s)|].
    destruct (Z.eqb_spec 59 c) as [<-|]; [intros _; by apply (Hone (Sym Semi) s)|].
    destruct (Z.eqb_spec 40 c) as [<-|]; [intros _; by apply (Hone (Sym Lpar) s)|].
    destruct (Z.eqb_spec 41 c) as [<-|]; [intros _; by apply (Hone (Sym Rpar) s)|done].
  - destruct (take_word s) as (w&s'&->&Hw&Hsep). apply Forall_app in Hs as [_ Hs'].
    destruct (IH (length s')) with (s := s') as [ts Hts]; [cbn; rewrite length_app; lia|done|done|].
    exists (Word (c :: w) :: ts), [], s'. split_and!; [done|done| |done|done]. split; [done|]. by constructor.
Qed.

(** The first character of a token is not white space. *)
Lemma text_hd t : tok_ok t -> exists c s, text t = c :: s /\ c <> 0 /\ ~ space c.
Proof.
  unfold space. destruct t as [w|[]|[]]; cbn; try by (intros _; eexists _, _).
  destruct w as [|c w]; [by intros []|]. intros [_ [(?&?&?) _]%Forall_cons]. exists c, w. split_and!; [done|done|].
  change (~ Ulib.in_literal whitespace c = true). congruence.
Qed.

Section Scan.
Context {W : Type} `{!Kernel W}.
Implicit Types (u : user W) (m : memory).

(** A scan up to the first character that [f] rejects, or [es]. *)
Definition scans (f : Z -> bool) (es : Z) (step : Z -> M (user W) (Z + Z)) : Prop := forall p u,
  step p u = if p <? es then if f (load8 (u_mem u) p) then Ok (inl (p + 1)) u else Ok (inr p) u else Ok (inr p) u.

Lemma scan_spec f es step u p sp s :
  scans f es step -> cstring (u_mem u) p (sp ++ s) -> es = p + Z.of_nat (length (sp ++ s)) ->
  Forall (fun c => f c = true) sp -> match s with c :: _ => f c = false | [] => True end ->
  Z.of_nat (length sp) < 2 ^ 63 ->
  loop step p u = Ok (p + Z.of_nat (length sp)) u.
Proof.
  intros Hst Hs He Hsp Hhd Hlen. rewrite length_app in He.
  apply (loop_rule step
    (fun n p' u' => u' = u /\ exists sp', n = length sp' /\ cstring (u_mem u) p' (sp' ++ s) /\
       Forall (fun c => f c = true) sp' /\ p' + Z.of_nat (length sp') = p + Z.of_nat (length sp))
    (fun o => o = Ok (p + Z.of_nat (length sp)) u)) with (n := length sp); [|by eauto 10|lia].
  intros n p' u' (->&sp'&->&Hs'&Hf&Hp). rewrite Hst. destruct sp' as [|c sp'].
  - cbn in Hp. rewrite Z.add_0_r in Hp. subst p'. destruct s as [|c s]; cbn [app] in Hs'.
    + destruct (Z.ltb_spec (p + Z.of_nat (length sp)) es); [cbn in *; lia|done].
    + destruct Hs' as (->&_&_). rewrite Hhd. by destruct (_ <? _).
  - destruct Hs' as (->&_&Hs'). apply Forall_cons in Hf as [Hc Hf]. rewrite Hc. cbn [length] in Hp.
    destruct (Z.ltb_spec p' es); [|lia].
    exists (length sp'). split; [cbn; lia|]. split; [done|]. exists sp'. split_and!; [done..|lia].
Qed.

Lemma skip_scans es : scans (Ulib.in_literal whitespace) es (skip_step es).
Proof. intros p u. unfold skip_step. destruct (p <? es); [|done]. unfold bind, rd8, gets. by destruct (Ulib.in_literal _ _). Qed.

Lemma word_scans es :
  scans (fun c => negb (Ulib.in_literal whitespace c) && negb (Ulib.in_literal symbols c)) es (word_step es).
Proof. intros p u. unfold word_step. destruct (p <? es); [|done]. unfold bind, rd8, gets. by destruct (_ && _). Qed.

(** The end of a token. *)
Lemma token_at_spec es u p t s :
  cstring (u_mem u) p (text t ++ s) -> es = p + Z.of_nat (length (text t ++ s)) -> tok_ok t -> sep t s ->
  Z.of_nat (length (text t)) < 2 ^ 63 ->
  token_at es p u = Ok (code t, p + Z.of_nat (length (text t))) u.
Proof.
  intros Hs He Hok Hsep Hlen. unfold token_at, bind.
  destruct t as [w|[]|[]]; cbn [text app] in *; try by (destruct Hs as (Hc&_&_); rewrite (rd8_ok _ _ _ Hc)).
  - destruct Hok as [Hne Hw]. destruct w as [|c w]; [done|]. pose proof Hs as (Hc&Hc0&_). cbn [app] in Hc.
    rewrite (rd8_ok _ _ _ Hc). cbv beta iota.
    apply Forall_cons in Hw as Hw'. destruct Hw' as [(_&Hws&Hsy) _].
    destruct (Z.eqb_spec c 0); [done|].
    assert (Ulib.in_literal [124; 40; 41; 59; 38; 60] c = false /\ (c =? 62) = false) as [-> ->].
    { unfold symbols in Hsy. cbn [Ulib.in_literal] in Hsy |- *. revert Hsy. rewrite (Z.eqb_sym c 62).
      destruct (60 =? c), (124 =? c), (62 =? c), (38 =? c), (59 =? c), (40 =? c), (41 =? c); done. }
    rewrite (scan_spec _ _ _ _ _ (c :: w) s (word_scans es)); [done|done|done| | |done].
    + eapply Forall_impl; [exact Hw|]. cbv beta. intros x (_&->&->). done.
    + destruct s as [|x s]; [done|]. cbn in Hsep.
      assert (x <> 0) by (clear -Hs; change (c :: w ++ x :: s) with ((c :: w) ++ x :: s) in Hs; apply cstring_drop in Hs; by destruct Hs as (_&?&_)).
      destruct (Ulib.in_literal whitespace x) eqn:E1, (Ulib.in_literal symbols x) eqn:E2; try done. by destruct Hsep.
  - destruct Hs as (Hc&_&Hs). rewrite (rd8_ok _ _ _ Hc).
    change (62 =? 0) with false. change (Ulib.in_literal [124; 40; 41; 59; 38; 60] 62) with false.
    change (62 =? 62) with true. cbv beta iota.
    destruct s as [|x s].
    + cbn in Hs. by rewrite (rd8_ok _ _ _ Hs).
    + destruct Hs as (Hx&_&_). rewrite (rd8_ok _ _ _ Hx). cbn in Hsep. by destruct (Z.eqb_spec x 62).
  - destruct Hs as (Hc&_&Hs). rewrite (rd8_ok _ _ _ Hc).
    change (62 =? 0) with false. change (Ulib.in_literal [124; 40; 41; 59; 38; 60] 62) with false.
    change (62 =? 62) with true. cbv beta iota.
    destruct Hs as (Hx&_&_). by rewrite (rd8_ok _ _ _ Hx).
Qed.

End Scan.

(** What the system calls of an error message promise: [write] returns and leaves the
    memory of the process alone, and [exit] does not return. *)
Class Terminal (W : Type) `{!Kernel W} : Prop := {
  write_returns fd a n m w : exists r w', ecall 16 [fd; a; n] (m, w) = Ok r (m, w');
  exit_stops n m w : exists w', ecall 2 [n] (m, w) = Stop Swtch (m, w')
}.

Section Parser.
Context {W : Type} `{!Kernel W, !Terminal W} (lo es : Z).
Implicit Types (st : shell W) (ts : list tok).

Definition mem st : memory := u_mem (sh_u st).

(** The tokens from [*ps] to the end of the line. *)
Definition at_toks st ts : Prop :=
  exists s, cstring (mem st) (sh_ps st) s /\ es = sh_ps st + Z.of_nat (length s) /\ spells ts s /\
    Z.of_nat (length s) < 2 ^ 63.

Definition move st (p : Z) : shell W := Sh (sh_u st) (sh_heap st) p.

Lemma us_ok {A} (m : M (user W) A) st a u' :
  m (sh_u st) = Ok a u' -> us m st = Ok a (Sh u' (sh_heap st) (sh_ps st)).
Proof. intros E. unfold us. by rewrite (zoom_ok userL m st a u'). Qed.

Lemma us_read {A} (m : M (user W) A) st a : m (sh_u st) = Ok a (sh_u st) -> us m st = Ok a st.
Proof. intros E. rewrite (us_ok _ _ _ _ E). by destruct st. Qed.

(** Spaces before the tokens, then nothing or the first token. *)
Lemma spells_split ts s : spells ts s -> exists sp s', s = sp ++ s' /\ Forall space sp /\ spells ts s' /\
  match ts with
  | [] => s' = []
  | t :: ts' => exists s2, s' = text t ++ s2 /\ tok_ok t /\ sep t s2 /\ spells ts' s2
  end.
Proof.
  destruct ts as [|t ts]; cbn.
  - intros Hs. exists s, []. by rewrite app_nil_r.
  - intros (sp&s'&->&Hsp&Hok&Hsep&Hs). exists sp, (text t ++ s'). split_and!; [done|done| |by exists s'].
    by exists [], s'.
Qed.

(** Skipping white space. *)
Lemma skip_toks st ts : at_toks st ts ->
  exists p s, skip es (sh_ps st) (sh_u st) = Ok p (sh_u st) /\ sh_ps st <= p /\ cstring (mem st) p s /\
    es = p + Z.of_nat (length s) /\ spells ts s /\ Z.of_nat (length s) < 2 ^ 63 /\
    match ts with
    | [] => s = []
    | t :: ts' => exists s2, s = text t ++ s2 /\ tok_ok t /\ sep t s2 /\ spells ts' s2
    end.
Proof.
  intros (s&Hs&He&Hsp&Hlen). destruct (spells_split ts s Hsp) as (sp&s'&->&Hspc&Hsp'&Hts).
  rewrite length_app in Hlen, He.
  exists (sh_ps st + Z.of_nat (length sp)), s'. split_and!; [|lia|by apply cstring_drop in Hs|lia|done|lia|done].
  apply (scan_spec _ _ _ _ _ sp s' (skip_scans es)); [done|rewrite length_app; lia|done| |lia].
  destruct ts as [|t ts]; [by subst|]. destruct Hts as (s2&->&Hok&_&_).
  destruct (text_hd t Hok) as (c&x&->&_&Hc). cbn [app]. unfold space in Hc. by destruct (Ulib.in_literal whitespace c).
Qed.

Lemma at_move st p s ts :
  cstring (mem st) p s -> es = p + Z.of_nat (length s) -> spells ts s -> Z.of_nat (length s) < 2 ^ 63 ->
  at_toks (move st p) ts.
Proof. intros. by exists s. Qed.

(** [peek] looks at the first character of the next token. *)
Definition next_in (l : list Z) ts : bool :=
  match ts with
  | [] => false
  | t :: _ => match text t with c :: _ => Ulib.in_literal l c | [] => false end
  end.

Lemma peek_spec l st ts : at_toks st ts ->
  exists p, peek es l st = Ok (next_in l ts) (move st p) /\ at_toks (move st p) ts /\ sh_ps st <= p.
Proof.
  intros Hat. destruct (skip_toks st ts Hat) as (p&s&E&Hle&Hs&He&Hsp&Hlen&Hts). exists p. split_and!; [|by eapply at_move|done].
  unfold peek. rewrite (bind_ok _ _ _ (sh_ps st) st) by done. rewrite (bind_ok _ _ _ _ _ (us_read _ _ _ E)).
  rewrite (bind_ok _ _ _ tt (move st p)) by done. destruct ts as [|t ts]; cbn [next_in].
  - subst s. cbn in Hs. rewrite (bind_ok _ _ _ 0 (move st p)); [done|]. by apply us_read, rd8_ok.
  - destruct Hts as (s2&->&Hok&_). destruct (text_hd t Hok) as (c&x&Et&Hc&_). rewrite Et in Hs |- *. destruct Hs as (Hrd&_).
    rewrite (bind_ok _ _ _ c (move st p)); [|by apply us_read, rd8_ok].
    unfold ret, nz. by destruct (Z.eqb_spec c 0).
Qed.

(** [gettoken] at a token, and at the end. *)
Lemma gettoken_spec st t ts : at_toks st (t :: ts) ->
  exists q p, gettoken es st = Ok (code t, q, q + Z.of_nat (length (text t))) (move st p) /\
    at_toks (move st p) ts /\ sh_ps st <= q /\ q < q + Z.of_nat (length (text t)) <= p /\
    load_bytes (mem st) q (length (text t)) = text t /\ tok_ok t /\ p <= es /\
    match t with Word _ => ~ wordchar (load8 (mem st) (q + Z.of_nat (length (text t)))) | _ => True end.
Proof.
  intros Hat. destruct (skip_toks st (t :: ts) Hat) as (q&s&E&Hle&Hs&He&Hsp&Hlen&(s2&->&Hok&Hsep&Hs2)).
  rewrite length_app in Hlen. set (e := q + Z.of_nat (length (text t))) in *.
  assert (Hat2 : at_toks (move st e) ts).
  { exists s2. split_and!; [by apply cstring_drop in Hs|cbn; rewrite length_app in He; lia|done|lia]. }
  destruct (skip_toks (move st e) ts Hat2) as (p&s3&E3&Hle3&Hs3&He3&Hsp3&Hlen3&_).
  exists q, p. split_and!; [|by eapply at_move|done| |exact Hle3|by eapply cstring_take|done|lia|].
  - unfold gettoken. rewrite (bind_ok _ _ _ (sh_ps st) st) by done. rewrite (bind_ok _ _ _ _ _ (us_read _ _ _ E)).
    rewrite (bind_ok _ _ _ (code t, e) st); [|apply us_read, (token_at_spec _ _ _ _ s2); try done; lia].
    cbv beta iota. by rewrite (bind_ok _ _ _ _ _ (us_read _ st p E3)).
  - unfold e. destruct (text_hd t Hok) as (c&x&->&_). cbn. lia.
  - destruct t as [w| |]; [|done..]. destruct s2 as [|c s2].
    + apply cstring_drop in Hs. cbn in Hs. unfold e. cbn [text]. rewrite Hs. intros (?&_). done.
    + apply cstring_drop in Hs. destruct Hs as (Hc&_&_). unfold e. cbn [text] in Hc |- *. by rewrite Hc.
Qed.

Lemma gettoken_end st : at_toks st [] ->
  exists q p, gettoken es st = Ok (0, q, q) (move st p) /\ at_toks (move st p) [] /\ sh_ps st <= p.
Proof.
  intros Hat. destruct (skip_toks st [] Hat) as (q&s&E&Hle&Hs&He&Hsp&Hlen&->). cbn in Hs, He.
  exists q, q. split_and!; [|by eapply at_move with (s := []); cbn; try done; lia|done].
  unfold gettoken. rewrite (bind_ok _ _ _ (sh_ps st) st) by done. rewrite (bind_ok _ _ _ _ _ (us_read _ _ _ E)).
  rewrite (bind_ok _ _ _ (0, q) st).
  2: { apply us_read. unfold token_at. by rewrite (bind_ok _ _ _ 0 (sh_u st)) by by apply rd8_ok. }
  cbv beta iota. rewrite (bind_ok _ _ _ q st); [done|]. apply us_read.
  unfold skip. apply loop_once. rewrite (skip_scans es q). by destruct (Z.ltb_spec q es); [lia|].
Qed.

(** * Messages *)

(** [m] returns [a], and changes one byte of the stack at most. *)
Definition says {A} (m : M (user W) A) (a : A) : Prop := forall u, exists u', m u = Ok a u' /\ u_sp u' = u_sp u /\
  forall x, x <> u_sp u - 1 -> u_mem u' x = u_mem u x.

Lemma says_ret {A} (a : A) : says (ret a) a.
Proof. intros u. by exists u. Qed.

Lemma says_bind {A B} (m : M (user W) A) (k : A -> M (user W) B) a b :
  says m a -> says (k a) b -> says (bind m k) b.
Proof.
  intros Hm Hk u. destruct (Hm u) as (u1&E1&Hsp1&Hm1). destruct (Hk u1) as (u2&E2&Hsp2&Hm2).
  exists u2. rewrite (bind_ok _ _ _ _ _ E1). split_and!; [done|congruence|].
  intros x Hx. rewrite Hm2, Hm1 by congruence. done.
Qed.

Lemma says_putc fd c : says (Uprintf.putc fd c) tt.
Proof.
  intros u. unfold Uprintf.putc, local, bind, wr8, modify, write, stub.
  cbn [u_mem u_sp u_w set_usp set_umem].
  destruct (write_returns fd (u_sp u - 1) 1 (store8 (u_mem u) (u_sp u - 1) c) (u_w u)) as (r&w'&->).
  eexists _. split_and!; [done..|]. cbn. intros x Hx. unfold store8. by destruct (Z.eqb_spec x (u_sp u - 1)).
Qed.

Lemma says_forM {X} (l : list X) (f : X -> M (user W) unit) : (forall x, says (f x) tt) -> says (forM l f) tt.
Proof.
  intros Hf. induction l as [|x l IH]; cbn [forM]; [apply says_ret|]. eapply says_bind; [apply Hf|]. done.
Qed.

(** A format of plain characters and [%s] for literals. *)
Fixpoint plain (fmt : list Z) (state : bool) (ap : list Uprintf.uarg) : Prop :=
  match fmt with
  | [] => True
  | c :: fmt' =>
      if state then
        c = 115 /\ match ap with Uprintf.Lit _ :: ap' => plain fmt' false ap' | _ => False end
      else if c =? 37 then plain fmt' true ap else plain fmt' false ap
  end.

Lemma says_vprintf fd fmt : forall state ap, plain fmt state ap -> says (Uprintf.vprintf_loop fd fmt state ap) tt.
Proof.
  induction fmt as [|c fmt IH]; intros state ap Hp; cbn [Uprintf.vprintf_loop plain] in *; [apply says_ret|].
  destruct state.
  - destruct Hp as [-> Hp]. destruct ap as [|[v|l] ap]; [done..|].
    apply says_bind with ap; [|by apply IH]. cbn.
    apply says_bind with tt; [apply says_forM, says_putc|apply says_ret].
  - destruct (c =? 37); [by apply IH|]. apply says_bind with tt; [apply says_putc|by apply IH].
Qed.

(** [exit] does not return. *)
Lemma exit_exits {A} n (u : user W) : exists u', exit (A := A) n u = Stop Swtch u'.
Proof.
  unfold exit, bind, stub. destruct (exit_stops n (u_mem u) (u_w u)) as (w'&->). by eexists.
Qed.

Lemma panic_exits {A} msg st : exists st', us (Sh.panic (A := A) msg) st = Stop Swtch st'.
Proof.
  unfold us, zoom, Sh.panic, bind, Uprintf.fprintf, Uprintf.vprintf.
  destruct (says_vprintf 2 (Uprintf.lit "%s" ++ [10]) false [Uprintf.Lit msg] ltac:(done) (view userL st)) as (u&->&_).
  destruct (exit_exits (A := A) 1 u) as (u'&->). by eexists.
Qed.

(** * Commands in the store *)

Definition node_at (h : list node) (p : Z) (n : node) : Prop := 0 < p /\ h !! Z.to_nat (p - 1) = Some n.

(** The word [w] from [q] to [e], and no word character after it. *)
Definition word_at (m : memory) (q e : Z) (w : list Z) : Prop :=
  lo <= q /\ e = q + Z.of_nat (length w) /\ e <= es /\ load_bytes m q (length w) = w /\
  w <> [] /\ Forall wordchar w /\ ~ wordchar (load8 m e).

Definition args_at (m : memory) (argv eargv : list Z) (args : list (list Z)) : Prop :=
  length argv = 10%nat /\ length eargv = 10%nat /\ (length args <= 9)%nat /\
  (forall i, (length args <= i < 10)%nat -> argv !! i = Some 0) /\
  (forall i w, args !! i = Some w -> exists q e, argv !! i = Some q /\ eargv !! i = Some e /\ word_at m q e w).

Definition mode_of (r : redir) : Z := match r with RIn => O_RDONLY | ROut => O_TRUNCATE | RApp => O_NOTRUNC end.
Definition fd_of (r : redir) : Z := match r with RIn => 0 | _ => 1 end.

(** The command at [p], its words still parts of the line. *)
Fixpoint rep0 (m : memory) (h : list node) (p : Z) (c : cmd) : Prop :=
  match c with
  | Exec args => exists argv eargv, node_at h p (NExec argv eargv) /\ args_at m argv eargv args
  | Redir c r f => exists q file efile,
      node_at h p (NRedir q file efile (mode_of r) (fd_of r)) /\ rep0 m h q c /\ word_at m file efile f
  | Pipe l r => exists pl pr, node_at h p (NPipe pl pr) /\ rep0 m h pl l /\ rep0 m h pr r
  | List l r => exists pl pr, node_at h p (NList pl pr) /\ rep0 m h pl l /\ rep0 m h pr r
  | Back c => exists q, node_at h p (NBack q) /\ rep0 m h q c
  end.

(** [p] is [p0] with redirections around it. *)
Fixpoint chain (m : memory) (h : list node) (p p0 : Z) (rs : list (redir * list Z)) : Prop :=
  match rs with
  | [] => p = p0
  | (r, f) :: rs' => exists q file efile, p0 < q /\
      node_at h q (NRedir p0 file efile (mode_of r) (fd_of r)) /\ word_at m file efile f /\ chain m h p q rs'
  end.

Lemma node_at_prefix h h' p n : h `prefix_of` h' -> node_at h p n -> node_at h' p n.
Proof. intros Hp [Hp0 Hn]. split; [done|]. by eapply prefix_lookup_Some. Qed.

Lemma rep0_prefix m h h' p c : h `prefix_of` h' -> rep0 m h p c -> rep0 m h' p c.
Proof.
  intros Hp. revert p. induction c as [args|c IH r f|l IHl r IHr|l IHl r IHr|c IH]; intros p; cbn [rep0].
  - intros (?&?&?&?). eexists _, _. split; [by eapply node_at_prefix|done].
  - intros (?&?&?&?&?&?). eexists _, _, _. split; [by eapply node_at_prefix|]. split; [by apply IH|done].
  - intros (?&?&?&?&?). eexists _, _. split; [by eapply node_at_prefix|]. split; [by apply IHl|by apply IHr].
  - intros (?&?&?&?&?). eexists _, _. split; [by eapply node_at_prefix|]. split; [by apply IHl|by apply IHr].
  - intros (?&?&?). eexists. split; [by eapply node_at_prefix|by apply IH].
Qed.

Lemma chain_prefix m h h' p rs : h `prefix_of` h' -> forall p0, chain m h p p0 rs -> chain m h' p p0 rs.
Proof.
  intros Hp. induction rs as [|[r f] rs IH]; intros p0; cbn [chain]; [done|].
  intros (q&?&?&?&?&?&?). eexists _, _, _. split; [done|]. split; [by eapply node_at_prefix|]. split; [done|by apply IH].
Qed.

Lemma chain_app m h p rs1 : forall q p0 rs2, chain m h q p0 rs1 -> chain m h p q rs2 -> chain m h p p0 (rs1 ++ rs2).
Proof.
  induction rs1 as [|[r f] rs1 IH]; intros q p0 rs2; cbn [chain app]; [by intros ->|].
  intros (q'&?&?&?&?&?&?) ?. eexists _, _, _. split_and!; [done..|]. by eapply IH.
Qed.

Lemma chain_rep m h p rs : forall p0 c, rep0 m h p0 c -> chain m h p p0 rs -> rep0 m h p (wrap c rs).
Proof.
  induction rs as [|[r f] rs IH]; intros p0 c Hc; cbn [chain]; [by intros ->|].
  intros (q&file&efile&_&Hn&Hw&Hch). cbn. eapply (IH q); [|done]. cbn [rep0]. by exists p0, file, efile.
Qed.

(** The node [p0] itself is not part of what is around it. *)
Lemma chain_update m h p k n rs : forall p0, k <= p0 ->
  chain m h p p0 rs -> 0 < k -> chain m (<[Z.to_nat (k - 1) := n]> h) p p0 rs.
Proof.
  induction rs as [|[r f] rs IH]; intros p0 Hk; cbn [chain]; [done|].
  intros (q&file&efile&Hlt&[Hq Hn]&Hw&Hch) Hk0. exists q, file, efile. split_and!; [done| |done|apply IH; [lia|done|done]].
  split; [done|]. by rewrite list_lookup_insert_ne by lia.
Qed.

(** * The parsing functions *)

Definition here st ts : Prop := lo <= sh_ps st /\ at_toks st ts.
Definition ext st st' : Prop :=
  sh_u st' = sh_u st /\ sh_heap st `prefix_of` sh_heap st' /\ sh_ps st <= sh_ps st'.

(** [o] is what the reference parser finds, or an exit. *)
Definition runs {X} (o : out (shell W) Z) st (res : result X) (R : X -> Z -> shell W -> Prop) : Prop :=
  match res with
  | Some (x, rest) => exists p st', o = Ok p st' /\ here st' rest /\ ext st st' /\ R x p st'
  | None => exists st', o = Stop Swtch st'
  end.

Lemma ext_refl st : ext st st.
Proof. split_and!; [done|done|lia]. Qed.
Lemma ext_trans st1 st2 st3 : ext st1 st2 -> ext st2 st3 -> ext st1 st3.
Proof. intros (E1&H1&L1) (E2&H2&L2). split_and!; [congruence|by etrans|lia]. Qed.
Lemma ext_move st p : sh_ps st <= p -> ext st (move st p).
Proof. intros. by split_and!. Qed.
Lemma ext_mem st st' : ext st st' -> mem st' = mem st.
Proof. intros (E&_&_). unfold mem. by rewrite E. Qed.

Lemma spells_length ts : forall s, spells ts s -> (length ts <= length s)%nat.
Proof.
  induction ts as [|t ts IH]; intros s; cbn; [lia|]. intros (sp&s'&->&_&Hok&_&Hs). apply IH in Hs.
  destruct (text_hd t Hok) as (c&x&->&_). rewrite !length_app. cbn. lia.
Qed.

Lemma here_length st ts : here st ts -> Z.of_nat (length ts) < 2 ^ 63.
Proof. intros (_&s&_&_&Hs&Hl). apply spells_length in Hs. lia. Qed.

Lemma here_ok st t ts : here st (t :: ts) -> tok_ok t.
Proof. by intros (_&s&_&_&(?&?&_&_&?&_)&_). Qed.

(** A word does not start with a symbol. *)
Lemma in_symbols c l : wordchar c -> Forall (fun x => Ulib.in_literal symbols x = true) l -> Ulib.in_literal l c = false.
Proof.
  intros (_&_&Hs) Hl. induction Hl as [|x l Hx Hl IH]; cbn [Ulib.in_literal]; [done|].
  destruct (Z.eqb_spec x c) as [->|]; [congruence|done].
Qed.

Lemma next_in_word l w ts : tok_ok (Word w) -> Forall (fun x => Ulib.in_literal symbols x = true) l -> next_in l (Word w :: ts) = false.
Proof.
  intros [Hw Hf] Hl. destruct w as [|c w]; [done|]. cbn [next_in text]. apply Forall_cons in Hf as [Hc _]. by apply in_symbols.
Qed.

(** [peek] and [gettoken] as steps of the reference parser. *)
Lemma next_view y l st ts : l = [sym_char y] -> here st ts ->
  (exists ts', ts = Sym y :: ts' /\ next_in l ts = true) \/ ((forall ts', ts <> Sym y :: ts') /\ next_in l ts = false).
Proof.
  intros -> Hh. destruct ts as [|[w|r|z] ts]; [by right|right..|].
  - split; [done|]. apply next_in_word; [by eapply here_ok|by destruct y; repeat constructor].
  - split; [done|]. by destruct r, y.
  - destruct (decide (z = y)) as [->|Hne]; [left; exists ts; by destruct y|right; split; [congruence|by destruct z, y]].
Qed.

Lemma peek_here l st ts : here st ts -> exists st', peek es l st = Ok (next_in l ts) st' /\ here st' ts /\ ext st st' /\
  sh_heap st' = sh_heap st.
Proof.
  intros [Hlo Hat]. destruct (peek_spec l st ts Hat) as (p&E&Hat'&Hle). exists (move st p).
  split_and!; [done|split; [cbn; lia|done]|by apply ext_move|done].
Qed.

Lemma gettoken_here st t ts : here st (t :: ts) -> exists q e st', gettoken es st = Ok (code t, q, e) st' /\
  here st' ts /\ ext st st' /\ sh_ps st < sh_ps st' /\ sh_heap st' = sh_heap st /\
  match t with Word w => word_at (mem st) q e w | _ => True end.
Proof.
  intros [Hlo Hat]. destruct (gettoken_spec st t ts Hat) as (q&p&E&Hat'&Hq&Hp&Hl&Hok&Hes&Hnw).
  eexists q, _, (move st p). split_and!; [done|split; [cbn; lia|done]|apply ext_move; lia|cbn; lia|done|].
  destruct t as [w| |]; [|done..]. destruct Hok as [Hne Hw]. cbn [text] in *. split_and!; [lia|done|lia|done..].
Qed.

Lemma node_new h n : node_at (h ++ [n]) (Z.of_nat (length h) + 1) n.
Proof. split; [lia|]. rewrite Z.add_simpl_r, Nat2Z.id. by apply list_lookup_middle. Qed.

Definition grow st (n : node) : shell W := Sh (sh_u st) (sh_heap st ++ [n]) (sh_ps st).

Lemma ext_grow st n : ext st (grow st n).
Proof. split_and!; [done|by eexists|cbn; lia]. Qed.

Lemma here_grow st n ts : here st ts -> here (grow st n) ts.
Proof. done. Qed.

Definition valid st (p : Z) : Prop := 0 < p <= Z.of_nat (length (sh_heap st)).

Lemma valid_ext st st' p : ext st st' -> valid st p -> valid st' p.
Proof. intros (_&Hp&_) Hv. apply prefix_length in Hp. unfold valid in *. lia. Qed.

Lemma valid_grow st n : valid (grow st n) (Z.of_nat (length (sh_heap st)) + 1).
Proof. unfold valid. cbn. rewrite length_app. cbn. lia. Qed.

Lemma word_at_mem m m' q e w : m = m' -> word_at m q e w -> word_at m' q e w.
Proof. by intros ->. Qed.

(** One round of [parseredirs]. *)
Lemma parseredirs_step_spec st cmd ts : here st ts ->
  match ts with
  | Red r :: Word f :: ts' => exists p st', parseredirs_step es cmd st = Ok (inl p) st' /\ here st' ts' /\ ext st st' /\
      valid st' p /\ exists file efile, node_at (sh_heap st') p (NRedir cmd file efile (mode_of r) (fd_of r)) /\
        word_at (mem st') file efile f /\ Z.of_nat (length (sh_heap st)) < p
  | Red _ :: _ => exists st', parseredirs_step es cmd st = Stop Swtch st'
  | _ => exists st', parseredirs_step es cmd st = Ok (inr cmd) st' /\ here st' ts /\ ext st st' /\ sh_heap st' = sh_heap st
  end.
Proof.
  intros Hh. unfold parseredirs_step.
  destruct (peek_here [60; 62] st ts Hh) as (st1&E1&Hh1&Hx1&Hp1). rewrite (bind_ok _ _ _ _ _ E1).
  destruct ts as [|t ts]; [by exists st1|]. destruct t as [w|r|c].
  - rewrite next_in_word; [by exists st1|by eapply here_ok|by repeat constructor].
  - replace (next_in [60; 62] (Red r :: ts)) with true by by destruct r.
    destruct (gettoken_here st1 _ _ Hh1) as (q&e&st2&E2&Hh2&Hx2&_&Hp2&_). rewrite (bind_ok _ _ _ _ _ E2).
    destruct ts as [|t' ts'].
    { destruct Hh2 as [Hlo2 Hat2]. destruct (gettoken_end st2 Hat2) as (q'&p'&E3&_). rewrite (bind_ok _ _ _ _ _ E3).
      cbv beta iota. cbn [negb Z.eqb]. apply panic_exits. }
    destruct (gettoken_here st2 _ _ Hh2) as (q'&e'&st3&E3&Hh3&Hx3&_&Hp3&Hw). rewrite (bind_ok _ _ _ _ _ E3).
    cbv beta iota. destruct t' as [w|r'|c'].
    + change (code (Word w)) with 97. change (97 =? 97) with true. cbn [negb].
      assert (Hx : ext st st3) by (eapply ext_trans; [exact Hx1|by eapply ext_trans]).
      assert (Hheap : sh_heap st3 = sh_heap st) by congruence.
      exists (Z.of_nat (length (sh_heap st3)) + 1), (grow st3 (NRedir cmd q' e' (mode_of r) (fd_of r))).
      split_and!; [by destruct r|done|by eapply ext_trans; [exact Hx|apply ext_grow]|apply valid_grow..|].
      exists q', e'. split_and!; [apply node_new| |rewrite Hheap; lia].
      apply (word_at_mem (mem st2)); [|done]. rewrite <- (ext_mem st2 st3 Hx3). done.
    + replace (code (Red r') =? 97) with false by by destruct r'. apply panic_exits.
    + replace (code (Sym c') =? 97) with false by by destruct c'. apply panic_exits.
  - replace (next_in [60; 62] (Sym c :: ts)) with false by by destruct c. by exists st1.
Qed.

Definition chained (cmd : Z) (rs : list (redir * list Z)) (p : Z) st' : Prop :=
  chain (mem st') (sh_heap st') p cmd rs /\ valid st' p.

Lemma parseredirs_spec st cmd ts : here st ts -> valid st cmd ->
  runs (parseredirs cmd es st) st (p_redirs ts) (chained cmd).
Proof.
  intros Hh Hv. unfold parseredirs.
  apply (loop_rule (parseredirs_step es)
    (fun n p st1 => exists ts1 rs1, n = length ts1 /\ here st1 ts1 /\ ext st st1 /\ chained cmd rs1 p st1 /\ cmd <= p /\
       p_redirs ts = match p_redirs ts1 with Some (rs2, rest) => Some (rs1 ++ rs2, rest) | None => None end)
    (fun o => runs o st (p_redirs ts) (chained cmd))) with (n := length ts).
  - intros n p st1 (ts1&rs1&->&Hh1&Hx1&[Hch Hvp]&Hle&E).
    pose proof (parseredirs_step_spec st1 p ts1 Hh1) as Hs.
    assert (Hend : p_redirs ts1 = Some ([], ts1) -> forall st', here st' ts1 -> ext st1 st' -> sh_heap st' = sh_heap st1 ->
      runs (Ok p st') st (p_redirs ts) (chained cmd)).
    { intros Ep st' Hh' Hx' Hp'. rewrite E, Ep, app_nil_r. exists p, st'. split_and!; [done|done|by eapply ext_trans|].
      split; [rewrite (ext_mem _ _ Hx'), Hp'; done|by eapply valid_ext]. }
    destruct ts1 as [|[w|r|c] ts1]; try (destruct Hs as (st'&->&Hh'&Hx'&Hp'); by apply Hend).
    destruct ts1 as [|[w|r'|c'] ts1]; cbn [p_redirs] in E; try (destruct Hs as (st'&->); rewrite E; by eexists).
    destruct Hs as (p'&st'&->&Hh'&Hx'&Hv'&file&efile&Hn&Hw&Hlt).
    exists (length ts1). split; [cbn; lia|]. exists ts1, (rs1 ++ [(r, w)]). split_and!; [done|done|by eapply ext_trans| | |].
    + split; [|done]. destruct Hx' as (Hu&Hpre&_). eapply chain_app; [eapply chain_prefix; [exact Hpre|]|].
      * unfold mem. rewrite Hu. exact Hch.
      * cbn [chain]. exists p', file, efile. unfold valid in Hvp. split_and!; [lia|done|done|done].
    + unfold valid in Hvp. lia.
    + rewrite E. cbn [p_redirs]. destruct (p_redirs ts1) as [[rs2 rest]|]; [|done]. by rewrite <- app_assoc.
  - exists ts, []. split_and!; [done|done|apply ext_refl|by split|lia|]. by destruct (p_redirs ts) as [[]|].
  - apply here_length in Hh. lia.
Qed.

(** The reference parser's arguments: redirections, then a word or the end. *)
Definition p_more (argc : nat) ts : result (list (list Z) * list (redir * list Z)) :=
  match ts with
  | [] => Some (([], []), [])
  | Word w :: ts' =>
      if (9 <=? argc)%nat then None else
      match p_args (S argc) ts' with Some ((ws, rs), rest) => Some ((w :: ws, rs), rest) | None => None end
  | Red _ :: _ => None
  | Sym Lpar :: _ => None
  | Sym _ :: _ => Some (([], []), ts)
  end.

Lemma p_args_redirs argc ts :
  p_args argc ts = match p_redirs ts with
                   | Some (rs, ts1) =>
                       match p_more argc ts1 with Some ((ws, rs'), rest) => Some ((ws, rs ++ rs'), rest) | None => None end
                   | None => None
                   end.
Proof.
  remember (length ts) as n eqn:En. revert ts En. induction n as [n IH] using lt_wf_ind. intros ts ->.
  destruct ts as [|[w|r|c] ts].
  - done.
  - cbn [p_args p_redirs p_more]. destruct (9 <=? argc)%nat; [done|]. by destruct (p_args (S argc) ts) as [[[ws rs] rest]|].
  - destruct ts as [|[w|r'|c'] ts]; [done| |done|done]. cbn [p_args p_redirs]. rewrite (IH (length ts)) by (done || cbn; lia).
    destruct (p_redirs ts) as [[rs ts1]|]; [|done]. by destruct (p_more argc ts1) as [[[ws rs'] rest]|].
  - by destruct c.
Qed.

Lemma p_redirs_rest ts rs ts1 : p_redirs ts = Some (rs, ts1) -> (length ts1 <= length ts)%nat /\ forall r ts2, ts1 <> Red r :: ts2.
Proof.
  remember (length ts) as n eqn:En. revert ts rs En. induction n as [n IH] using lt_wf_ind. intros ts rs ->.
  destruct ts as [|[w|r|c] ts]; cbn [p_redirs]; [by intros [= _ <-]..| |by intros [= _ <-]].
  destruct ts as [|[w|r'|c'] ts]; [done| |done|done]. destruct (p_redirs ts) as [[rs' rest]|] eqn:E; [|done].
  intros [= _ <-]. destruct (IH (length ts)) with (ts := ts) (rs := rs') as [Hl Hn]; [cbn; lia|done|done|]. cbn. split; [lia|done].
Qed.

(** ** Simple commands *)

Definition filled st (p : Z) (ws : list (list Z)) : Prop :=
  exists argv eargv, node_at (sh_heap st) p (NExec argv eargv) /\ args_at (mem st) argv eargv ws.

Lemma filled_ext st st' p ws : ext st st' -> filled st p ws -> filled st' p ws.
Proof.
  intros (Hu&Hp&_) (argv&eargv&Hn&Ha). exists argv, eargv. split; [by eapply node_at_prefix|]. unfold mem. by rewrite Hu.
Qed.

Lemma args_at_snoc m argv eargv ws q e w :
  args_at m argv eargv ws -> (length ws < 9)%nat -> word_at m q e w ->
  args_at m (<[length ws := q]> argv) (<[length ws := e]> eargv) (ws ++ [w]).
Proof.
  intros (Ha&He&Hl&H0&Hw) Hlt Hwa. unfold args_at. rewrite !length_insert, length_app. cbn.
  split_and!; [done|done|lia| |].
  - intros i Hi. rewrite list_lookup_insert_ne by lia. apply H0. lia.
  - intros i w' Hi. destruct (decide (i = length ws)) as [->|Hne].
    + rewrite list_lookup_middle in Hi by done. injection Hi as <-. exists q, e.
      rewrite !list_lookup_insert_eq by lia. done.
    + pose proof (lookup_lt_Some _ _ _ Hi) as Hlt'. rewrite length_app in Hlt'. cbn in Hlt'.
      rewrite lookup_app_l in Hi by lia. destruct (Hw i w' Hi) as (q'&e'&?&?&?). exists q', e'.
      rewrite !list_lookup_insert_ne by done. done.
Qed.

(** The null at the end. *)
Lemma args_at_null m argv eargv ws :
  args_at m argv eargv ws -> args_at m (<[length ws := 0]> argv) (<[length ws := 0]> eargv) ws.
Proof.
  intros (Ha&He&Hl&H0&Hw). unfold args_at. rewrite !length_insert. split_and!; [done..| |].
  - intros i Hi. destruct (decide (i = length ws)) as [->|]; [by rewrite list_lookup_insert_eq by lia|].
    rewrite list_lookup_insert_ne by done. by apply H0.
  - intros i w Hi. pose proof (lookup_lt_Some _ _ _ Hi). rewrite !list_lookup_insert_ne by lia. by apply Hw.
Qed.

(** The node [p0], the last one of [st0] and one more, is changed. *)
Definition redo st (p : Z) (n : node) : shell W := Sh (sh_u st) (<[Z.to_nat (p - 1) := n]> (sh_heap st)) (sh_ps st).

Lemma set_arg_ok st p argv eargv i q e :
  node_at (sh_heap st) p (NExec argv eargv) -> 0 <= i < 10 ->
  set_arg p i q e st = Ok tt (redo st p (NExec (<[Z.to_nat i := q]> argv) (<[Z.to_nat i := e]> eargv))).
Proof.
  intros [Hp Hn] Hi. unfold set_arg, get_node, bind. rewrite Hn. destruct (Z.leb_spec p 0); [lia|].
  unfold MAXARGS. by destruct (Z.ltb_spec i 10); [|lia].
Qed.

Lemma redo_ext st0 st p n : ext st0 st -> Z.of_nat (length (sh_heap st0)) < p -> ext st0 (redo st p n).
Proof.
  intros (Hu&[h Hp]&Hle) Hlt. split_and!; [done| |done]. cbn [sh_heap redo]. rewrite Hp.
  rewrite insert_app_r_alt by lia. by eexists.
Qed.

Lemma redo_node st p n n' : node_at (sh_heap st) p n -> node_at (sh_heap (redo st p n')) p n'.
Proof. intros [Hp Hn]. split; [done|]. apply list_lookup_insert_eq. by eapply lookup_lt_Some. Qed.

Lemma redo_valid st p n q : valid st q -> valid (redo st p n) q.
Proof. unfold valid. cbn. by rewrite length_insert. Qed.

(** The loop of [parseexec], after [ws] and [rs], and before a token that is no
    redirection. *)
Record collecting st0 p0 ts0 (argc r : Z) st ts ws rs : Prop := {
  co_here : here st ts;
  co_nored : forall k ts', ts <> Red k :: ts';
  co_ext : ext st0 st;
  co_args : filled st p0 ws;
  co_argc : argc = Z.of_nat (length ws);
  co_chain : chained p0 rs r st;
  co_res : p_args 0 ts0 = match p_more (length ws) ts with
                          | Some ((ws', rs'), rest) => Some ((ws ++ ws', rs ++ rs'), rest)
                          | None => None
                          end
}.

Definition collected st0 p0 (o : out (shell W) (Z * Z)) (res : result (list (list Z) * list (redir * list Z))) : Prop :=
  match res with
  | Some ((ws, rs), rest) => exists r st, o = Ok (Z.of_nat (length ws), r) st /\ here st rest /\ ext st0 st /\
      filled st p0 ws /\ chained p0 rs r st
  | None => exists st, o = Stop Swtch st
  end.

Lemma chained_ext st st' p0 rs r : ext st st' -> chained p0 rs r st -> chained p0 rs r st'.
Proof.
  intros Hx [Hc Hv]. split; [|by eapply valid_ext]. rewrite (ext_mem _ _ Hx). destruct Hx as (_&Hp&_). by eapply chain_prefix.
Qed.

Lemma filled_len st p ws : filled st p ws -> (length ws <= 9)%nat.
Proof. by intros (?&?&_&_&_&?&_). Qed.

(** A word is stored, and then the redirections after it. *)
Lemma add_arg st0 p0 st ws rs r q e w ts :
  Z.of_nat (length (sh_heap st0)) < p0 -> ext st0 st -> filled st p0 ws -> chained p0 rs r st ->
  word_at (mem st) q e w -> here st ts ->
  exists st', set_arg p0 (Z.of_nat (length ws)) q e st = Ok tt st' /\ ext st0 st' /\ chained p0 rs r st' /\ here st' ts /\
    ((length ws < 9)%nat -> filled st' p0 (ws ++ [w])).
Proof.
  intros Hp0 Hx Hf [Hc Hv] Hw Hh. pose proof (filled_len _ _ _ Hf) as Hlen. pose proof Hf as (argv&eargv&Hn&Ha).
  eexists. split; [by apply (set_arg_ok st p0 argv eargv); [|lia]|]. rewrite Nat2Z.id. split_and!; [by apply redo_ext| |done|].
  - split; [|by apply redo_valid]. apply chain_update; [lia|done|by destruct Hn].
  - intros Hlt. eexists _, _. split; [by eapply redo_node|]. by apply args_at_snoc.
Qed.

Lemma collect_redirs st0 p0 ts0 st ts ws w rs r :
  here st ts -> ext st0 st -> filled st p0 (ws ++ [w]) -> chained p0 rs r st -> (length ws < 9)%nat ->
  p_args 0 ts0 = match p_more (length ws) (Word w :: ts) with
                 | Some ((ws', rs'), rest) => Some ((ws ++ ws', rs ++ rs'), rest)
                 | None => None
                 end ->
  match parseredirs r es st with
  | Ok r' st' => exists ts' rs', (length ts' <= length ts)%nat /\
      collecting st0 p0 ts0 (Z.of_nat (length ws) + 1) r' st' ts' (ws ++ [w]) rs'
  | Stop why st' => collected st0 p0 (Stop why st') (p_args 0 ts0)
  end.
Proof.
  intros Hh Hx Hf [Hc Hv] Hlt E. cbn [p_more] in E. rewrite (proj2 (Nat.leb_gt _ _) Hlt), (p_args_redirs (S (length ws))) in E.
  pose proof (parseredirs_spec st r ts Hh Hv) as Hr.
  destruct (p_redirs ts) as [[rs2 ts3]|] eqn:Er; cbn [runs] in Hr.
  2: { destruct Hr as (st'&->). rewrite E. by eexists. }
  destruct Hr as (r'&st4&->&Hh4&Hx4&Hc4&Hv4). destruct (p_redirs_rest _ _ _ Er) as [Hl Hnr3].
  exists ts3, (rs ++ rs2). split; [done|].
  split; [done|done|by eapply ext_trans|by eapply filled_ext|rewrite length_app; cbn; lia| |].
  - split; [|done]. eapply chain_app; [|exact Hc4].
    rewrite (ext_mem _ _ Hx4). destruct Hx4 as (_&Hp4&_). by eapply chain_prefix.
  - rewrite E, length_app. cbn [length]. replace (length ws + 1)%nat with (S (length ws)) by lia.
    destruct (p_more (S (length ws)) ts3) as [[[ws' rs'] rest]|]; [|done]. by rewrite <- !app_assoc.
Qed.

Lemma parseexec_step_spec st0 p0 ts0 argc r st ts ws rs :
  Z.of_nat (length (sh_heap st0)) < p0 -> collecting st0 p0 ts0 argc r st ts ws rs ->
  match parseexec_step es p0 (argc, r) st with
  | Ok (inl (argc', r')) st' => exists ts' ws' rs', (length ts' < length ts)%nat /\ collecting st0 p0 ts0 argc' r' st' ts' ws' rs'
  | Ok (inr a) st' => collected st0 p0 (Ok a st') (p_args 0 ts0)
  | Stop w st' => collected st0 p0 (Stop w st') (p_args 0 ts0)
  end.
Proof.
  intros Hp0 [Hh Hnr Hx Hf -> Hc E]. unfold parseexec_step.
  destruct (peek_here [124; 41; 38; 59] st ts Hh) as (st1&E1&Hh1&Hx1&Hp1). rewrite (bind_ok _ _ _ _ _ E1).
  assert (Hfin : forall st2, ext st1 st2 -> here st2 ts -> p_more (length ws) ts = Some (([], []), ts) ->
    collected st0 p0 (Ok (Z.of_nat (length ws), r) st2) (p_args 0 ts0)).
  { intros st2 Hx2 Hh2 Em. rewrite E, Em, !app_nil_r. assert (ext st st2) by by eapply ext_trans.
    exists r, st2. split_and!; [done|done|by eapply ext_trans|by eapply filled_ext|by eapply chained_ext]. }
  destruct ts as [|[w|k|c] ts2].
  - cbn [next_in]. destruct (gettoken_end st1) as (q&p&E2&Hat2&Hle2); [by destruct Hh1|]. rewrite (bind_ok _ _ _ _ _ E2).
    cbv beta iota. cbn [Z.eqb]. apply Hfin; [by apply ext_move| |done]. split; [|done]. destruct Hh1. cbn. lia.
  - rewrite next_in_word by (by eapply here_ok || by repeat constructor).
    destruct (gettoken_here st1 _ _ Hh1) as (q&e&st2&E2&Hh2&Hx2&_&Hp2&Hw). rewrite (bind_ok _ _ _ _ _ E2).
    cbv beta iota. change (code (Word w)) with 97. change (97 =? 0) with false. change (97 =? 97) with true. cbn [negb].
    assert (Hx02 : ext st st2) by by eapply ext_trans.
    destruct (add_arg st0 p0 st2 ws rs r q e w ts2) as (st3&E3&Hx3&Hc3&Hh3&Hf3);
      [done|by eapply ext_trans|by eapply filled_ext|by eapply chained_ext| |done|].
    { apply (word_at_mem (mem st1)); [|done]. by rewrite <- (ext_mem st1 st2). }
    rewrite (bind_ok _ _ _ _ _ E3). unfold MAXARGS.
    destruct (Z.leb_spec 10 (Z.of_nat (length ws) + 1)) as [Hmax|Hmax].
    { rewrite E. cbn [p_more]. rewrite (proj2 (Nat.leb_le _ _)) by lia.
      destruct (panic_exits (A := (Z * Z) + (Z * Z)) (Uprintf.lit "too many args") st3) as (st'&->). by eexists. }
    pose proof (collect_redirs st0 p0 ts0 st3 ts2 ws w rs r Hh3 Hx3 (Hf3 ltac:(lia)) Hc3 ltac:(lia) E) as Hr.
    unfold bind. destruct (parseredirs r es st3) as [r' st4|]; [|done].
    destruct Hr as (ts3&rs3&Hl&Hco). exists ts3, (ws ++ [w]), rs3. split; [cbn; lia|done].
  - by destruct (Hnr k ts2).
  - destruct c.
    1,3-5: by apply Hfin; [apply ext_refl|..].
    cbn [next_in text sym_char]. change (Ulib.in_literal [124; 41; 38; 59] 40) with false. cbv iota.
    destruct (gettoken_here st1 _ _ Hh1) as (q&e&st2&E2&_). rewrite (bind_ok _ _ _ _ _ E2). cbv beta iota.
    change (code (Sym Lpar)) with 40. change (40 =? 0) with false. change (40 =? 97) with false. cbn [negb].
    destruct (panic_exits (A := (Z * Z) + (Z * Z)) (Uprintf.lit "syntax") st2) as (st'&->). rewrite E. by eexists.
Qed.

(** ** Elements of pipelines *)

Definition parsed (c : cmd) (p : Z) st : Prop := rep0 (mem st) (sh_heap st) p c /\ valid st p.

Lemma parsed_ext st st' c p : ext st st' -> parsed c p st -> parsed c p st'.
Proof.
  intros Hx [Hr Hv]. split; [|by eapply valid_ext]. rewrite (ext_mem _ _ Hx). destruct Hx as (_&Hp&_). by eapply rep0_prefix.
Qed.

Lemma parsed_chain c rs p0 p st : parsed c p0 st -> chained p0 rs p st -> parsed (wrap c rs) p st.
Proof. intros [Hr _] [Hc Hv]. split; [|done]. by eapply chain_rep. Qed.

(** A simple command. *)
Lemma simple_spec st ts : here st ts ->
  runs ((cmd <- execcmd ;; r <- parseredirs cmd es ;; a <- loop (parseexec_step es cmd) (0, r) ;;
         let '(argc, r) := a in set_arg cmd argc 0 0 ;; ret r) st) st
    match p_args 0 ts with Some ((ws, rs), rest) => Some (wrap (Exec ws) rs, rest) | None => None end parsed.
Proof.
  intros Hh. set (st1 := grow st (NExec (replicate 10 0) (replicate 10 0))).
  set (p0 := Z.of_nat (length (sh_heap st)) + 1).
  rewrite (bind_ok _ _ _ p0 st1) by done.
  assert (Hf1 : filled st1 p0 []).
  { eexists _, _. split; [apply node_new|]. split_and!; [done|done|cbn; lia| |done].
    intros i Hi. apply lookup_replicate_2. lia. }
  pose proof (parseredirs_spec st1 p0 ts (here_grow _ _ _ Hh) (valid_grow _ _)) as Hr.
  destruct (p_redirs ts) as [[rs1 ts1]|] eqn:Er; cbn [runs] in Hr.
  2: { destruct Hr as (st'&Est). rewrite p_args_redirs, Er. unfold bind at 1. rewrite Est. by eexists. }
  destruct Hr as (r1&st2&Est&Hh2&Hx2&Hc2). rewrite (bind_ok _ _ _ _ _ Est).
  assert (Hx : ext st st2) by (eapply ext_trans; [apply ext_grow|exact Hx2]).
  assert (Hp0 : Z.of_nat (length (sh_heap st)) < p0) by (unfold p0; lia).
  assert (Hcol : collected st p0 (loop (parseexec_step es p0) (0, r1) st2) (p_args 0 ts)).
  { apply (loop_rule (parseexec_step es p0)
      (fun n a st' => exists ts' ws rs, n = length ts' /\ collecting st p0 ts a.1 a.2 st' ts' ws rs)
      (fun o => collected st p0 o (p_args 0 ts))) with (n := length ts1).
    - intros n [argc r] st' (ts'&ws&rs&->&Hco). pose proof (parseexec_step_spec st p0 ts argc r st' ts' ws rs Hp0 Hco) as Hs.
      destruct (parseexec_step es p0 (argc, r) st') as [[[argc' r']|a] st3|]; [|done|done].
      destruct Hs as (ts3&ws3&rs3&Hlt&Hco3). exists (length ts3). split; [done|]. by exists ts3, ws3, rs3.
    - exists ts1, [], rs1. split; [done|]. destruct (p_redirs_rest _ _ _ Er) as [_ Hnr].
      split; [done|done|done|by apply (filled_ext st1)|done|done|]. rewrite p_args_redirs, Er. cbn [length].
      by destruct (p_more 0 ts1) as [[[]]|].
    - apply here_length in Hh2. lia. }
  destruct (p_args 0 ts) as [[[ws rs] rest]|]; cbn [collected] in Hcol.
  2: { destruct Hcol as (st'&E). unfold bind at 1. rewrite E. by eexists. }
  destruct Hcol as (r&st3&E&Hh3&Hx3&Hf3&Hc3). rewrite (bind_ok _ _ _ _ _ E). cbv beta iota.
  pose proof (filled_len _ _ _ Hf3) as Hlen. pose proof Hf3 as (argv&eargv&Hn&Ha).
  rewrite (bind_ok _ _ _ _ _ (set_arg_ok st3 p0 argv eargv (Z.of_nat (length ws)) 0 0 Hn ltac:(lia))). rewrite Nat2Z.id.
  set (st4 := redo st3 p0 _). exists r, st4. split_and!; [done|done|by apply redo_ext|].
  apply (parsed_chain _ _ p0); [split|split].
  - cbn [rep0]. eexists _, _. split; [by eapply redo_node|]. by apply args_at_null.
  - apply redo_valid. destruct Hn as [? Hn]. apply lookup_lt_Some in Hn. unfold valid. lia.
  - apply chain_update; [lia|by destruct Hc3|by destruct Hn].
  - apply redo_valid. by destruct Hc3.
Qed.

(** What [parseline] does on the rest of the line, where it is called. *)
Definition line_spec (pl : unit -> M (shell W) Z) (plr : list tok -> result cmd) (p : Z) (n : nat) : Prop :=
  forall st ts, here st ts -> p < sh_ps st -> (length ts < n)%nat -> runs (pl tt st) st (plr ts) parsed.

Lemma runs_bind {X} (m : M (shell W) Z) (k : Z -> M (shell W) Z) st (res : result X) R res' :
  runs (m st) st res R ->
  (forall x rest p st', res = Some (x, rest) -> m st = Ok p st' -> here st' rest -> ext st st' -> R x p st' ->
     runs (k p st') st' (res' : result cmd) parsed) ->
  (res = None -> res' = None) -> runs (bind m k st) st res' parsed.
Proof.
  intros Hm Hk Hn. destruct res as [[x rest]|]; cbn [runs] in Hm.
  - destruct Hm as (p&st'&E&Hh&Hx&HR). rewrite (bind_ok _ _ _ _ _ E).
    specialize (Hk x rest p st' eq_refl E Hh Hx HR). destruct res' as [[c r]|]; [|done].
    destruct Hk as (p2&st2&?&?&?&?). exists p2, st2. split_and!; [done|done|by eapply ext_trans|done].
  - destruct Hm as (st'&E). rewrite Hn by done. exists st'. unfold bind. by rewrite E.
Qed.

(** A step that changes the position only. *)
Lemma runs_step {B} (m : M (shell W) B) (k : B -> M (shell W) Z) st b st' (res : result cmd) :
  m st = Ok b st' -> ext st st' -> runs (k b st') st' res parsed -> runs (bind m k st) st res parsed.
Proof.
  intros E Hx Hk. rewrite (bind_ok _ _ _ _ _ E). destruct res as [[c r]|]; [|done].
  destruct Hk as (p2&st2&?&?&?&?). exists p2, st2. split_and!; [done|done|by eapply ext_trans|done].
Qed.

Lemma runs_panic msg st : runs (us (Sh.panic msg) st) st (None : result cmd) parsed.
Proof. apply panic_exits. Qed.

Lemma parseblock_spec pl plr st ts :
  here st (Sym Lpar :: ts) -> line_spec pl plr (sh_ps st) (S (length ts)) ->
  runs (parseblock pl es st) st
    match plr ts with
    | Some (c, Sym Rpar :: ts2) => match p_redirs ts2 with Some (rs, rest) => Some (wrap c rs, rest) | None => None end
    | _ => None
    end parsed.
Proof.
  intros Hh Hpl. unfold parseblock.
  destruct (peek_here [40] st _ Hh) as (st1&E1&Hh1&Hx1&_). eapply runs_step; [exact E1|done|]. cbn [negb next_in text].
  change (Ulib.in_literal [40] (sym_char Lpar)) with true. cbn [negb].
  destruct (gettoken_here st1 _ _ Hh1) as (q&e&st2&E2&Hh2&Hx2&Hlt&_). eapply runs_step; [exact E2|done|].
  eapply runs_bind; [apply Hpl; [done| |lia]|..].
  - destruct Hx1 as (_&_&?). lia.
  - intros c rest p st3 -> E3 Hh3 Hx3 Hc.
    destruct (peek_here [41] st3 _ Hh3) as (st4&E4&Hh4&Hx4&_). eapply runs_step; [exact E4|done|].
    destruct (next_view Rpar [41] _ _ eq_refl Hh4) as [(ts'&->&->)|[Hne ->]]; cbn [negb].
    2: { destruct rest as [|[w|r|[]] rest]; try apply runs_panic. by destruct (Hne rest). }
    rename ts' into rest.
    destruct (gettoken_here st4 _ _ Hh4) as (q'&e'&st5&E5&Hh5&Hx5&_). eapply runs_step; [exact E5|done|].
    assert (Hc5 : parsed c p st5) by (eapply parsed_ext; [exact Hx5|]; by eapply parsed_ext).
    pose proof (parseredirs_spec st5 p rest Hh5 ltac:(by destruct Hc5)) as Hr.
    destruct (p_redirs rest) as [[rs rest']|]; [|done]. destruct Hr as (p'&st6&?&?&Hx6&Hc6).
    exists p', st6. split_and!; [done..|]. eapply parsed_chain; [by eapply parsed_ext|done].
  - by intros ->.
Qed.

Lemma parseexec_spec pl plr st ts :
  here st ts -> line_spec pl plr (sh_ps st) (length ts) ->
  runs (parseexec pl es st) st (p_exec plr ts) parsed.
Proof.
  intros Hh Hpl. unfold parseexec.
  destruct (peek_here [40] st _ Hh) as (st1&E1&Hh1&Hx1&_). eapply runs_step; [exact E1|done|].
  destruct (next_view Lpar [40] _ _ eq_refl Hh) as [(ts'&->&->)|[Hne ->]].
  - apply parseblock_spec; [done|]. intros st' ts Hh' Hlt Hl. apply Hpl; [done| |cbn in *; lia].
    destruct Hx1 as (_&_&?). lia.
  - rewrite p_exec_args; [by apply simple_spec|]. destruct ts as [|t ts]; [done|]. intros [= ->]. by destruct (Hne ts).
Qed.

(** ** Pipelines and lines *)

Lemma line_spec_mono pl plr p p' n n' :
  p <= p' -> (n' <= n)%nat -> line_spec pl plr p n -> line_spec pl plr p' n'.
Proof. intros Hp Hn Hl st ts Hh Hlt Hlen. apply Hl; [done|lia|lia]. Qed.

(** Room left on the line: the measure of the recursion. *)
Definition left st : nat := Z.to_nat (es - sh_ps st).

Lemma left_bound st ts : here st ts -> sh_ps st <= es /\ Z.of_nat (left st) < 2 ^ 64.
Proof. intros (_&s&_&He&_&Hl). unfold left. lia. Qed.

Lemma parsepipe_spec pl plr st ts fuel :
  here st ts -> line_spec pl plr (sh_ps st) (length ts) -> shrinks plr -> (length ts < fuel)%nat ->
  runs (parsepipe pl es st) st (p_pipe plr fuel ts) parsed.
Proof.
  intros Hh Hpl Hsh Hfuel. unfold parsepipe.
  apply (fixp_rule (parsepipe_body pl es)
    (fun n _ st1 => n = left st1 /\ sh_ps st <= sh_ps st1)
    (fun _ st1 o => forall ts1 fuel, here st1 ts1 -> (length ts1 <= length ts)%nat -> (length ts1 < fuel)%nat ->
       runs o st1 (p_pipe plr fuel ts1) parsed)) with (n := left st); [|split; [done|lia]|apply (left_bound _ _ Hh)|done|lia|done].
  clear fuel Hfuel. intros n rec [] st1 [-> Hle] IH ts1 fuel Hh1 Hl Hf. destruct fuel as [|fuel]; [lia|].
  unfold parsepipe_body. cbn [p_pipe].
  eapply runs_bind; [apply parseexec_spec; [done|by eapply line_spec_mono]|..].
  - intros c rest p st2 Ec _ Hh2 Hx2 Hc. rewrite Ec. pose proof (shrinks_length _ _ _ _ (p_exec_shrinks plr Hsh) Ec) as Hlr.
    destruct (peek_here [124] st2 _ Hh2) as (st3&E3&Hh3&Hx3&_). eapply runs_step; [exact E3|done|].
    assert (Hdone : runs (ret p st3) st3 (Some (c, rest)) parsed).
    { exists p, st3. split_and!; [done|done|apply ext_refl|by eapply parsed_ext]. }
    destruct (next_view Bar [124] _ _ eq_refl Hh3) as [(ts'&->&->)|[Hne ->]].
    2: { destruct rest as [|[w|r|[]] rest]; try exact Hdone. by destruct (Hne rest). }
    rename ts' into rest.
    destruct (gettoken_here st3 _ _ Hh3) as (q&e&st4&E4&Hh4&Hx4&Hlt&_). eapply runs_step; [exact E4|done|].
    assert (Hx14 : ext st1 st4) by (eapply ext_trans; [exact Hx2|]; by eapply ext_trans).
    eapply runs_bind.
    * apply (IH (left st4) tt st4) with (ts1 := rest) (fuel := fuel); [|split; [done|destruct Hx14 as (_&_&?); lia]|done|cbn in *; lia|cbn in *; lia].
      pose proof (left_bound _ _ Hh4). destruct Hx2 as (_&_&?), Hx3 as (_&_&?). unfold left. lia.
    * intros d rest' p' st5 -> _ Hh5 Hx5 Hd.
      eexists _, (grow st5 (NPipe p p')). split_and!; [done|done|apply ext_grow|].
      assert (Hx25 : ext st2 (grow st5 (NPipe p p'))).
      { eapply ext_trans; [exact Hx3|]. eapply ext_trans; [exact Hx4|]. eapply ext_trans; [exact Hx5|apply ext_grow]. }
      split; [|apply valid_grow]. cbn [rep0]. exists p, p'. split_and!; [apply node_new|..].
      -- by eapply parsed_ext.
      -- apply (parsed_ext st5); [apply ext_grow|done].
    * by intros ->.
  - by intros ->.
Qed.

(** The loop over [&]. *)
Lemma back_spec st p c ts : here st ts -> parsed c p st ->
  runs (loop (back_step es) p st) st (Some (p_back c ts)) parsed.
Proof.
  intros Hh Hc.
  apply (loop_rule (back_step es)
    (fun n p1 st1 => exists ts1 c1, n = length ts1 /\ here st1 ts1 /\ ext st st1 /\ parsed c1 p1 st1 /\ p_back c1 ts1 = p_back c ts)
    (fun o => runs o st (Some (p_back c ts)) parsed)) with (n := length ts).
  - intros n p1 st1 (ts1&c1&->&Hh1&Hx1&Hc1&E). unfold back_step.
    destruct (peek_here [38] st1 _ Hh1) as (st2&E2&Hh2&Hx2&_). rewrite (bind_ok _ _ _ _ _ E2).
    assert (Hdone : p_back c1 ts1 = (c1, ts1) -> runs (Ok p1 st2) st (Some (p_back c ts)) parsed).
    { intros Eb. rewrite <- E, Eb. exists p1, st2. split_and!; [done|done|by eapply ext_trans|by eapply parsed_ext]. }
    destruct (next_view Amp [38] _ _ eq_refl Hh2) as [(ts'&->&->)|[Hne ->]].
    2: { apply Hdone. destruct ts1 as [|[w|r|[]] ts1]; try done. by destruct (Hne ts1). }
    rename ts' into ts1.
    destruct (gettoken_here st2 _ _ Hh2) as (q&e&st3&E3&Hh3&Hx3&_). rewrite (bind_ok _ _ _ _ _ E3).
    set (st4 := grow st3 (NBack p1)). rewrite (bind_ok _ _ _ (Z.of_nat (length (sh_heap st3)) + 1) st4) by done.
    assert (Hx14 : ext st1 st4) by (eapply ext_trans; [exact Hx2|]; eapply ext_trans; [exact Hx3|apply ext_grow]).
    exists (length ts1). split; [cbn; lia|]. exists ts1, (Back c1). split_and!; [done|done|by eapply ext_trans| |done].
    split; [|apply valid_grow]. cbn [rep0]. exists p1. split; [apply node_new|].
    by destruct (parsed_ext st1 st4 c1 p1 Hx14 Hc1).
  - exists ts, c. split_and!; [done|done|apply ext_refl|done|done].
  - apply here_length in Hh. lia.
Qed.

Lemma parseline_spec st ts fuel :
  here st ts -> (length ts < fuel)%nat -> runs (parseline es st) st (p_line fuel ts) parsed.
Proof.
  intros Hh Hfuel. unfold parseline.
  apply (fixp_rule (parseline_body es) (fun n _ st1 => n = left st1)
    (fun _ st1 o => forall ts1 fuel, here st1 ts1 -> (length ts1 < fuel)%nat -> runs o st1 (p_line fuel ts1) parsed))
    with (n := left st); [|done|apply (left_bound _ _ Hh)|done|done].
  clear st ts fuel Hh Hfuel. intros n rec [] st -> IH ts fuel Hh Hf. destruct fuel as [|fuel]; [lia|].
  assert (Hrec : forall st' ts', here st' ts' -> sh_ps st < sh_ps st' -> (length ts' < fuel)%nat ->
    runs (rec tt st') st' (p_line fuel ts') parsed).
  { intros st' ts' Hh' Hlt Hl. apply (IH (left st') tt st'); [|done|done|done].
    pose proof (left_bound _ _ Hh). pose proof (left_bound _ _ Hh'). unfold left. lia. }
  unfold parseline_body. cbn [p_line].
  eapply runs_bind; [apply (parsepipe_spec rec (p_line fuel)) with (fuel := S fuel); [done| |apply p_line_shrinks|lia]|..].
  - intros st' ts' Hh' Hlt Hl. apply Hrec; [done|done|lia].
  - intros c ts1 p st1 Ec _ Hh1 Hx1 Hc. rewrite Ec. pose proof (shrinks_length _ _ _ _ (p_pipe_shrinks _ (p_line_shrinks fuel) _) Ec) as Hl1.
    pose proof (back_spec st1 p c ts1 Hh1 Hc) as Hb.
    destruct (p_back c ts1) as [c' ts2] eqn:Eb.
    pose proof (p_back_length ts1 c) as Hl3. rewrite Eb in Hl3. cbn [snd] in Hl3.
    eapply runs_bind; [exact Hb| |done]. intros x rest p2 st2 [= <- <-] _ Hh2 Hx2 Hc2.
    destruct (peek_here [59] st2 _ Hh2) as (st3&E3&Hh3&Hx3&_). eapply runs_step; [exact E3|done|].
    assert (Hdone : runs (ret p2 st3) st3 (Some (c', ts2)) parsed).
    { exists p2, st3. split_and!; [done|done|apply ext_refl|by eapply parsed_ext]. }
    destruct (next_view Semi [59] _ _ eq_refl Hh3) as [(ts'&->&->)|[Hne ->]].
    2: { destruct ts2 as [|[w|r|[]] ts2]; try exact Hdone. by destruct (Hne ts2). }
    rename ts' into ts2.
    destruct (gettoken_here st3 _ _ Hh3) as (q&e&st4&E4&Hh4&Hx4&Hlt&_). eapply runs_step; [exact E4|done|].
    eapply runs_bind; [apply Hrec; [done| |cbn in *; lia]|..].
    * destruct Hx1 as (_&_&?), Hx2 as (_&_&?), Hx3 as (_&_&?). lia.
    * intros d rest p3 st5 -> _ Hh5 Hx5 Hd.
      eexists _, (grow st5 (NList p2 p3)). split_and!; [done|done|apply ext_grow|].
      assert (Hx25 : ext st2 (grow st5 (NList p2 p3))).
      { eapply ext_trans; [exact Hx3|]. eapply ext_trans; [exact Hx4|]. eapply ext_trans; [exact Hx5|apply ext_grow]. }
      split; [|apply valid_grow]. cbn [rep0]. exists p2, p3. split_and!; [apply node_new|..].
      -- by eapply parsed_ext.
      -- apply (parsed_ext st5); [apply ext_grow|done].
    * by intros ->.
  - by intros ->.
Qed.

(** * [nulterminate] *)

(** The command at [p], its words C strings. *)
Fixpoint rep (m : memory) (h : list node) (p : Z) (c : cmd) : Prop :=
  match c with
  | Exec args => exists argv eargv, node_at h p (NExec argv eargv) /\ argv !! length args = Some 0 /\
      forall i w, args !! i = Some w -> exists q, argv !! i = Some q /\ 0 < q /\ cstring m q w
  | Redir c r f => exists q file efile,
      node_at h p (NRedir q file efile (mode_of r) (fd_of r)) /\ rep m h q c /\ cstring m file f
  | Pipe l r => exists pl pr, node_at h p (NPipe pl pr) /\ rep m h pl l /\ rep m h pr r
  | List l r => exists pl pr, node_at h p (NList pl pr) /\ rep m h pl l /\ rep m h pr r
  | Back c => exists q, node_at h p (NBack q) /\ rep m h q c
  end.

(** [m'] is [m] with NULs at places of the line where [m0] has no word. *)
Definition cut (m0 m m' : memory) : Prop := forall x,
  m' x = m x \/ (m' x = 0 /\ lo <= x <= es /\ ~ wordchar (load8 m0 x)).

Lemma cut_refl m0 m : cut m0 m m.
Proof. by left. Qed.
Lemma cut_trans m0 m1 m2 m3 : cut m0 m1 m2 -> cut m0 m2 m3 -> cut m0 m1 m3.
Proof.
  intros H1 H2 x. destruct (H2 x) as [->|?]; [|by right]. apply H1.
Qed.

Lemma cut_end m0 m q e w : word_at m0 q e w -> cut m0 m (store8 m e 0).
Proof.
  intros (Hq&He&Hes&_&_&_&Hn) x. unfold store8. destruct (Z.eqb_spec x e) as [->|]; [right|by left].
  split_and!; [done|lia|lia|done].
Qed.

(** Words stay, and are strings once their ends are cut. *)
Lemma word_string m0 m q e w : word_at m0 q e w -> cut m0 m0 m -> load8 m e = 0 -> cstring m q w.
Proof.
  intros (Hq&->&Hes&Hl&_&Hw&_) Hc He. apply cstring_bytes. split_and!; [|done|].
  - rewrite <- Hl at 2. apply list_eq. intros i. destruct (decide (i < length w)%nat) as [Hi|Hi].
    + rewrite !lookup_load_bytes by done. f_equal. unfold load8. destruct (Hc (q + Z.of_nat i)) as [->|(_&_&Hn)]; [done|].
      destruct Hn. apply (f_equal (.!! i)) in Hl. rewrite lookup_load_bytes in Hl by done.
      rewrite Forall_lookup in Hw. eapply Hw. by symmetry.
    + rewrite !lookup_ge_None_2; rewrite ?length_load_bytes; lia || done.
  - eapply Forall_impl; [exact Hw|]. by intros c (?&_).
Qed.

Lemma cut_zero m0 m m' x : cut m0 m m' -> load8 m x = 0 -> load8 m' x = 0.
Proof. intros Hc Hx. unfold load8 in *. destruct (Hc x) as [->|[-> _]]; done. Qed.

(** A string of the line stays a string. *)
Lemma cstring_stays m0 m m' q e w : word_at m0 q e w -> cut m0 m0 m -> cut m0 m m' -> cstring m q w -> cstring m' q w.
Proof.
  intros Hw Hc Hc' Hs. eapply word_string; [exact Hw|by eapply cut_trans|]. eapply cut_zero; [exact Hc'|].
  apply cstring_bytes in Hs as (_&He&_). destruct Hw as (_&->&_). done.
Qed.

Lemma rep_cut m0 m m' h c : cut m0 m0 m -> cut m0 m m' -> forall p, rep0 m0 h p c -> rep m h p c -> rep m' h p c.
Proof.
  intros Hc Hc'. induction c as [args|c IH r f|l IHl r IHr|l IHl r IHr|c IH]; intros p; cbn [rep0 rep].
  - intros (argv&eargv&[_ Hn]&_&_&_&_&Hw) (argv'&eargv'&[Hp Hn']&H0&Hs). rewrite Hn in Hn'. injection Hn' as <- <-.
    exists argv, eargv. split_and!; [by split|done|]. intros i w Hi. destruct (Hs i w Hi) as (q&Hq&Hq0&Hqs).
    destruct (Hw i w Hi) as (q'&e&Hq'&_&Hwa). rewrite Hq in Hq'. injection Hq' as <-.
    exists q. split_and!; [done|done|]. by eapply cstring_stays.
  - intros (q&file&efile&[_ Hn]&Hr0&Hw) (q'&file'&efile'&[Hp Hn']&Hr&Hs). rewrite Hn in Hn'. injection Hn' as <- <- <-.
    exists q, file, efile. split_and!; [by split|by apply IH|by eapply cstring_stays].
  - intros (pl&pr&[_ Hn]&Hl0&Hr0) (pl'&pr'&[Hp Hn']&Hl&Hr). rewrite Hn in Hn'. injection Hn' as <- <-.
    exists pl, pr. split_and!; [by split|by apply IHl|by apply IHr].
  - intros (pl&pr&[_ Hn]&Hl0&Hr0) (pl'&pr'&[Hp Hn']&Hl&Hr). rewrite Hn in Hn'. injection Hn' as <- <-.
    exists pl, pr. split_and!; [by split|by apply IHl|by apply IHr].
  - intros (q&[_ Hn]&Hr0) (q'&[Hp Hn']&Hr). rewrite Hn in Hn'. injection Hn' as <-. exists q. split; [by split|by apply IH].
Qed.

(** The arguments of a simple command. *)
Lemma nul_args_spec m0 argv eargv args (u : user W) :
  0 < lo -> cut m0 m0 (u_mem u) -> (length args < length argv)%nat -> argv !! length args = Some 0 ->
  (forall i w, args !! i = Some w -> exists q e, argv !! i = Some q /\ eargv !! i = Some e /\ word_at m0 q e w) ->
  length argv = length eargv ->
  exists m', nul_args argv eargv u = Ok tt (set_umem m' u) /\ cut m0 (u_mem u) m' /\
    forall i w, args !! i = Some w -> exists q, argv !! i = Some q /\ 0 < q /\ cstring m' q w.
Proof.
  intros Hlo. revert argv eargv u. induction args as [|w args IH]; intros argv eargv u Hc Hl H0 Hw He.
  - destruct argv as [|a argv], eargv as [|e eargv]; cbn in *; try lia. injection H0 as ->. cbn.
    exists (u_mem u). split_and!; [by destruct u|apply cut_refl|done].
  - destruct argv as [|a argv], eargv as [|e eargv]; cbn [length] in *; try lia.
    destruct (Hw 0%nat w eq_refl) as (q&e'&Ha&He'&Hwa). cbn in Ha, He'. injection Ha as ->. injection He' as ->.
    pose proof Hwa as (Hq&_). cbn [nul_args]. destruct (Z.eqb_spec q 0); [lia|].
    set (u1 := set_umem (store8 (u_mem u) e' 0) u). rewrite (bind_ok _ _ _ tt u1) by done.
    assert (Hc1 : cut m0 (u_mem u) (u_mem u1)) by by eapply cut_end.
    destruct (IH argv eargv u1) as (m'&E&Hc'&Hs); [by eapply cut_trans|lia|done| |lia|].
    { intros i x Hi. by apply (Hw (S i) x). }
    exists m'. split_and!; [by rewrite E|by eapply cut_trans|]. intros [|i] x Hi; [|by apply Hs].
    cbn in Hi. injection Hi as <-. exists q. split_and!; [done|lia|].
    eapply word_string; [exact Hwa|eapply cut_trans; [exact Hc|by eapply cut_trans]|].
    eapply cut_zero; [exact Hc'|]. cbn. by rewrite load8_store8.
Qed.

Lemma word_at_inj m q e w w' : word_at m q e w -> word_at m q e w' -> w = w'.
Proof.
  intros (_&He&_&Hl&_) (_&He'&_&Hl'&_). rewrite <- Hl, <- Hl'. f_equal. lia.
Qed.

Lemma args_at_inj m argv eargv args args' : 0 < lo -> args_at m argv eargv args -> args_at m argv eargv args' -> args = args'.
Proof.
  intros Hlo (_&_&Hl&H0&Hw) (_&_&Hl'&H0'&Hw'). apply list_eq. intros i.
  destruct (args !! i) as [w|] eqn:E, (args' !! i) as [w'|] eqn:E'; [| | |done].
  - destruct (Hw i w E) as (q&e&Hq&He&Hwa), (Hw' i w' E') as (q'&e'&Hq'&He'&Hwa'). simplify_eq. f_equal. by eapply word_at_inj.
  - exfalso. destruct (Hw i w E) as (q&e&Hq&_&(?&_)). apply lookup_lt_Some in E. apply lookup_ge_None in E'.
    rewrite H0' in Hq by lia. injection Hq as <-. lia.
  - exfalso. destruct (Hw' i w' E') as (q&e&Hq&_&(?&_)). apply lookup_lt_Some in E'. apply lookup_ge_None in E.
    rewrite H0 in Hq by lia. injection Hq as <-. lia.
Qed.

(** The node that a representation starts with. *)
Lemma rep0_node m h p c : rep0 m h p c -> exists n, node_at h p n /\
  match c, n with
  | Exec args, NExec argv eargv => args_at m argv eargv args
  | Redir c r f, NRedir q file efile mode fd => mode = mode_of r /\ fd = fd_of r /\ rep0 m h q c /\ word_at m file efile f
  | Pipe l r, NPipe pl pr => rep0 m h pl l /\ rep0 m h pr r
  | List l r, NList pl pr => rep0 m h pl l /\ rep0 m h pr r
  | Back c, NBack q => rep0 m h q c
  | _, _ => False
  end.
Proof.
  destruct c; cbn [rep0].
  - intros (argv&eargv&?&?). by exists (NExec argv eargv).
  - intros (q&fl&efl&?&?&?). eexists. split; [done|]. done.
  - intros (pl&pr&?&?&?). by exists (NPipe pl pr).
  - intros (pl&pr&?&?&?). by exists (NList pl pr).
  - intros (q&?&?). by exists (NBack q).
Qed.

(** A pointer represents one command. *)
Lemma rep0_inj m h : 0 < lo -> forall c c' p, rep0 m h p c -> rep0 m h p c' -> c = c'.
Proof.
  intros Hlo. induction c as [args|c IH r f|l IHl r IHr|l IHl r IHr|c IH]; intros c' p H H';
    apply rep0_node in H as (n&[_ Hn]&H); apply rep0_node in H' as (n'&[_ Hn']&H');
    rewrite Hn in Hn'; injection Hn' as <-; destruct n; try done; destruct c'; try done.
  - f_equal. by eapply args_at_inj.
  - destruct H as (Hm&_&Hc&Hw), H' as (Hm'&_&Hc'&Hw'). f_equal; [by eapply IH| |by eapply word_at_inj].
    rewrite Hm in Hm'. by destruct r, r0.
  - destruct H, H'. f_equal; [by eapply IHl|by eapply IHr].
  - destruct H, H'. f_equal; [by eapply IHl|by eapply IHr].
  - f_equal. by eapply IH.
Qed.

Definition cut_state st (m : memory) : shell W := Sh (set_umem m (sh_u st)) (sh_heap st) (sh_ps st).

(** Two sub-commands, one after the other. *)
Lemma nul_both m0 h (f : Z -> M (shell W) unit) st pl l pr r :
  cut m0 m0 (mem st) -> sh_heap st = h -> rep0 m0 h pl l -> rep0 m0 h pr r ->
  (forall st' p c, sh_heap st' = h -> cut m0 m0 (mem st') -> rep0 m0 h p c -> c = l \/ c = r ->
     exists m', f p st' = Ok tt (cut_state st' m') /\ cut m0 (mem st') m' /\ rep m' h p c) ->
  exists m', (f pl ;; f pr) st = Ok tt (cut_state st m') /\ cut m0 (mem st) m' /\ rep m' h pl l /\ rep m' h pr r.
Proof.
  intros Hc Hh Hl Hr Hf. destruct (Hf st pl l Hh Hc Hl ltac:(by left)) as (m1&E1&Hc1&Hr1).
  rewrite (bind_ok _ _ _ _ _ E1).
  destruct (Hf (cut_state st m1) pr r) as (m2&E2&Hc2&Hr2); [done|by eapply cut_trans|done|by right|].
  exists m2. split_and!; [by rewrite E2|by eapply cut_trans| |done].
  apply (rep_cut m0 m1); [by eapply cut_trans|done|done|done].
Qed.

Lemma nulterminate_spec m0 st p c :
  0 < lo -> rep0 m0 (sh_heap st) p c -> cut m0 m0 (mem st) -> Z.of_nat (csize c) < 2 ^ 64 ->
  exists m', nulterminate p st = Ok tt (cut_state st m') /\ cut m0 (mem st) m' /\ rep m' (sh_heap st) p c.
Proof.
  intros Hlo Hr Hc Hsz. remember (sh_heap st) as h eqn:Hh. symmetry in Hh.
  apply (fixp_rule nulterminate_body
    (fun n p st => sh_heap st = h /\ cut m0 m0 (mem st) /\ exists c, n = csize c /\ rep0 m0 h p c)
    (fun p st o => forall c, rep0 m0 h p c ->
       exists m', o = Ok tt (cut_state st m') /\ cut m0 (mem st) m' /\ rep m' h p c)) with (n := csize c);
    [|by eauto 10|done|done].
  clear p st Hr Hc Hsz Hh c. intros n f p st (Hh&Hc&c&->&Hr) IH c' Hr'.
  rewrite (rep0_inj m0 h Hlo _ _ _ Hr' Hr). clear c' Hr'.
  assert (Hf : forall st' q d, sh_heap st' = h -> cut m0 m0 (mem st') -> rep0 m0 h q d -> (csize d < csize c)%nat ->
    exists m', f q st' = Ok tt (cut_state st' m') /\ cut m0 (mem st') m' /\ rep m' h q d).
  { intros st' q d Hh' Hc' Hd Hlt. apply (IH (csize d)); [done|by eauto|done]. }
  apply rep0_node in Hr as (nd&[Hp Hn]&Hr). unfold nulterminate_body.
  destruct (Z.eqb_spec p 0); [lia|].
  rewrite (bind_ok _ _ _ nd st) by (unfold get_node; rewrite Hh, Hn; by destruct (Z.leb_spec p 0); [lia|]).
  destruct c as [args|c r fl|l r|l r|c], nd as [argv eargv|q file efile mode fd|pl pr|pl pr|q]; try done.
  - destruct Hr as (Hl&He&Hla&H0&Hw).
    destruct (nul_args_spec m0 argv eargv args (sh_u st)) as (m'&E&Hc'&Hs); [done|done|lia|apply H0; lia|done|congruence|].
    exists m'. split_and!; [by rewrite (us_ok _ _ _ _ E)|done|]. exists argv, eargv. split_and!; [by split|apply H0; lia|done].
  - destruct Hr as (->&->&Hr&Hw). destruct (Hf st q c Hh Hc Hr) as (m1&E1&Hc1&Hr1); [cbn; lia|].
    rewrite (bind_ok _ _ _ _ _ E1). exists (store8 m1 efile 0).
    pose proof (cut_end m0 m1 file efile fl Hw) as Hc2. assert (Hc01 : cut m0 m0 m1) by by eapply cut_trans.
    split_and!; [done|by eapply cut_trans|]. exists q, file, efile. split_and!; [by split|by eapply rep_cut|].
    eapply word_string; [exact Hw|by eapply cut_trans|]. by rewrite load8_store8.
  - destruct Hr as [Hl Hr]. destruct (nul_both m0 h f st pl l pr r Hc Hh Hl Hr) as (m'&E&Hc'&Hl'&Hr').
    { intros st' q d Hh' Hc' Hd Hor. apply Hf; [done..|]. pose proof (csize_pos l). pose proof (csize_pos r). cbn. destruct Hor as [->| ->]; lia. }
    exists m'. split_and!; [done|done|]. by exists pl, pr.
  - destruct Hr as [Hl Hr]. destruct (nul_both m0 h f st pl l pr r Hc Hh Hl Hr) as (m'&E&Hc'&Hl'&Hr').
    { intros st' q d Hh' Hc' Hd Hor. apply Hf; [done..|]. pose proof (csize_pos l). pose proof (csize_pos r). cbn. destruct Hor as [->| ->]; lia. }
    exists m'. split_and!; [done|done|]. by exists pl, pr.
  - destruct (Hf st q c Hh Hc Hr) as (m1&E1&Hc1&Hr1); [cbn; lia|]. exists m1. split_and!; [done|done|]. by exists q.
Qed.

End Parser.

(** * The whole parser *)

Section Command.
Context {W : Type} `{!Kernel W, !Terminal W}.
Implicit Types (st : shell W) (u : user W).

(** A string is printed, when the stack is not in it. *)
Lemma puts_spec fd u p s :
  cstring (u_mem u) p s -> Z.of_nat (length s) < 2 ^ 63 ->
  u_sp u - 1 < p \/ p + Z.of_nat (length s) < u_sp u - 1 ->
  exists u', loop (Uprintf.puts_step fd) p u = Ok tt u'.
Proof.
  intros Hs Hl Hsp.
  apply (loop_rule (Uprintf.puts_step fd)
    (fun n p' u' => u_sp u' = u_sp u /\ exists s', n = length s' /\ cstring (u_mem u') p' s' /\
       p <= p' /\ p' + Z.of_nat (length s') = p + Z.of_nat (length s))
    (fun o => exists u', o = Ok tt u')) with (n := length s); [| |lia].
  - intros n p' u' (Hu&s'&->&Hs'&Hp&He). unfold Uprintf.puts_step. destruct s' as [|c s'].
    + rewrite (bind_ok _ _ _ 0 u') by by apply rd8_ok. by eexists.
    + destruct Hs' as (Hc&Hc0&Hs'). rewrite (bind_ok _ _ _ c u') by by apply rd8_ok.
      destruct (Z.eqb_spec c 0); [done|]. destruct (says_putc fd c u') as (u2&E&Hu2&Hm2). rewrite (bind_ok _ _ _ _ _ E).
      exists (length s'). split; [cbn; lia|]. cbn [length] in He. split; [congruence|].
      exists s'. split_and!; [done| |lia|lia]. revert Hs'. apply cstring_ext. intros x Hx. symmetry. apply Hm2. lia.
  - split; [done|]. exists s. split_and!; [done|done|lia|lia].
Qed.

(** Text without directives is printed as it is. *)
Lemma vprintf_plain pre fmt u ap : Forall (fun c => (c =? 37) = false) pre ->
  exists u', u_sp u' = u_sp u /\ (forall x, x <> u_sp u - 1 -> u_mem u' x = u_mem u x) /\
    Uprintf.vprintf_loop 2 (pre ++ fmt) false ap u = Uprintf.vprintf_loop 2 fmt false ap u'.
Proof.
  revert u. induction pre as [|c pre IH]; intros u Hf; [by exists u|]. apply Forall_cons in Hf as [Hc Hf].
  cbn [app Uprintf.vprintf_loop]. rewrite Hc. destruct (says_putc 2 c u) as (u1&E&Hu1&Hm1). rewrite (bind_ok _ _ _ _ _ E).
  destruct (IH u1 Hf) as (u2&Hu2&Hm2&->). exists u2. split_and!; [congruence| |done].
  intros x Hx. rewrite Hm2, Hm1 by congruence. done.
Qed.

Lemma leftovers_spec {A} st p s :
  cstring (mem st) p s -> Z.of_nat (length s) < 2 ^ 63 -> p <> 0 ->
  u_sp (sh_u st) - 1 < p \/ p + Z.of_nat (length s) < u_sp (sh_u st) - 1 ->
  exists st', (us (Uprintf.fprintf 2 (Uprintf.lit "leftovers: %s" ++ [10]) [Uprintf.Word p]) ;;
               us (Sh.panic (A := A) (Uprintf.lit "syntax"))) st = Stop Swtch st'.
Proof.
  intros Hs Hl Hp Hsp.
  assert (H : exists u', Uprintf.fprintf 2 (Uprintf.lit "leftovers: %s" ++ [10]) [Uprintf.Word p] (sh_u st) = Ok tt u').
  { unfold Uprintf.fprintf, Uprintf.vprintf.
    change (Uprintf.lit "leftovers: %s" ++ [10]) with (Uprintf.lit "leftovers: " ++ [37; 115; 10]).
    destruct (vprintf_plain (Uprintf.lit "leftovers: ") [37; 115; 10] (sh_u st) [Uprintf.Word p]) as (u1&Hu1&Hm1&->);
      [by repeat constructor|].
    cbn [Uprintf.vprintf_loop Z.eqb Pos.eqb]. unfold Uprintf.directive. cbn [Z.eqb Pos.eqb Uprintf.print_str].
    destruct (Z.eqb_spec p 0); [done|].
    destruct (puts_spec 2 u1 p s) as (u2&E2); [|done|by rewrite Hu1|].
    { revert Hs. apply cstring_ext. intros x Hx. symmetry. apply Hm1. lia. }
    destruct (says_putc 2 10 u2) as (u3&E3&_). exists u3. unfold bind. rewrite E2. cbn. by rewrite E3. }
  destruct H as (u'&E). rewrite (bind_ok _ _ _ _ _ (us_ok _ _ _ _ E)). apply panic_exits.
Qed.

(** Where [peek] leaves [*ps]. *)
Lemma peek_end es st ts : at_toks es st ts ->
  exists p s, peek es [] st = Ok false (move st p) /\ cstring (mem st) p s /\ es = p + Z.of_nat (length s) /\
    Z.of_nat (length s) < 2 ^ 63 /\ sh_ps st <= p /\ (p = es <-> ts = []).
Proof.
  intros Hat. destruct (skip_toks es st ts Hat) as (p&s&E&Hle&Hs&He&Hsp&Hlen&Hts). exists p, s. split_and!; [|done..|].
  - unfold peek. rewrite (bind_ok _ _ _ (sh_ps st) st) by done. rewrite (bind_ok _ _ _ _ _ (us_read _ _ _ E)).
    rewrite (bind_ok _ _ _ tt (move st p)) by done.
    assert (Hc : us (rd8 p) (move st p) = Ok (load8 (mem st) p) (move st p)) by (by apply us_read, rd8_ok).
    rewrite (bind_ok _ _ _ _ _ Hc). unfold ret. by rewrite andb_false_r.
  - destruct ts as [|t ts]; [subst s; cbn in He; split; [done|lia]|]. destruct Hts as (s2&->&Hok&_).
    destruct (text_hd t Hok) as (c&x&Et&_). rewrite Et in He. cbn in He. split; [lia|done].
Qed.

Lemma parsecmd_spec st buf s ts :
  0 < buf -> cstring (mem st) buf s -> Z.of_nat (length s) < 2 ^ 31 ->
  u_sp (sh_u st) - 1 < buf \/ buf + Z.of_nat (length s) < u_sp (sh_u st) - 1 -> spells ts s ->
  match p_cmd ts with
  | Some c => exists p st', parsecmd buf st = Ok p st' /\ rep (mem st') (sh_heap st') p c
  | None => exists st', parsecmd buf st = Stop Swtch st'
  end.
Proof.
  intros Hbuf Hs Hlen Hsp Hts. unfold parsecmd, p_cmd. set (es := buf + Z.of_nat (length s)).
  set (st1 := move st buf). rewrite (bind_ok _ _ _ tt st1) by done.
  rewrite (bind_ok _ _ _ (Z.of_nat (length s)) st1) by (apply us_read, ustrlen_spec; [done|lia]). fold es.
  assert (Hh : here buf es st1 ts) by (split; [cbn; lia|]; exists s; split_and!; [done..|lia]).
  pose proof (parseline_spec buf es st1 ts (S (length ts)) Hh ltac:(lia)) as Hr.
  destruct (p_line (S (length ts)) ts) as [[c rest]|] eqn:Ep; cbn [runs] in Hr.
  2: { destruct Hr as (st'&E). exists st'. unfold bind at 1. by rewrite E. }
  destruct Hr as (p&st2&E2&Hh2&Hx2&[Hr0 Hv]). rewrite (bind_ok _ _ _ _ _ E2).
  destruct (peek_end es st2 rest) as (p3&s3&E3&Hs3&He3&Hl3&Hle3&Hiff); [by destruct Hh2|]. rewrite (bind_ok _ _ _ _ _ E3).
  set (st3 := move st2 p3). rewrite (bind_ok _ _ _ p3 st3) by done.
  pose proof Hx2 as (Hu&_&Hps). destruct rest as [|t rest].
  - replace (p3 =? es) with true by (symmetry; apply Z.eqb_eq; tauto). cbn [negb].
    apply p_line_shrinks in Ep. pose proof (here_length _ _ _ _ Hh) as Hlt.
    destruct (nulterminate_spec buf es (mem st2) st3 p c) as (m'&E4&_&Hr); [done|done|apply cut_refl|cbn in Ep; lia|].
    rewrite (bind_ok _ _ _ _ _ E4). eexists p, _. split; [done|]. exact Hr.
  - destruct (Z.eqb_spec p3 es) as [Heq|_]; [by apply Hiff in Heq|]. cbn [negb].
    apply (leftovers_spec st3 p3 s3); [done|done|destruct Hh2; lia|]. cbn [sh_u st3 move]. rewrite Hu.
    change (sh_u st1) with (sh_u st). change (sh_ps st1) with buf in Hps. unfold es in He3. lia.
Qed.

(** C9: [parsecmd] implements the grammar, on every line: whatever the line in memory
    says, it is a sequence of tokens, and [parsecmd] ends; it returns the command that the
    tokens make up, as a tree of nodes whose words are C strings, or, when they make up
    none, prints a message and exits. *)
Theorem parsecmd_correct st buf s :
  0 < buf -> cstring (mem st) buf s -> Z.of_nat (length s) < 2 ^ 31 ->
  u_sp (sh_u st) - 1 < buf \/ buf + Z.of_nat (length s) < u_sp (sh_u st) - 1 ->
  (exists ts, spells ts s) /\
  forall ts, spells ts s ->
    match p_cmd ts with
    | Some c => exists p st', parsecmd buf st = Ok p st' /\ rep (mem st') (sh_heap st') p c
    | None => exists st', parsecmd buf st = Stop Swtch st'
    end.
Proof.
  intros Hbuf Hs Hlen Hsp. split; [|by intros ts; apply parsecmd_spec].
  apply cstring_bytes in Hs as (_&_&Hnz). by apply spells_total.
Qed.

(** C19: Printing and parsing: a line that spells the tokens of a command, with any white
    space between them, is parsed to that command. *)
Theorem parse_print_roundtrip st buf s c :
  0 < buf -> cstring (mem st) buf s -> Z.of_nat (length s) < 2 ^ 31 ->
  u_sp (sh_u st) - 1 < buf \/ buf + Z.of_nat (length s) < u_sp (sh_u st) - 1 ->
  printable c -> spells (show 0 c) s ->
  exists p st', parsecmd buf st = Ok p st' /\ rep (mem st') (sh_heap st') p c.
Proof.
  intros Hbuf Hs Hlen Hsp Hc Hts. pose proof (parsecmd_spec st buf s (show 0 c) Hbuf Hs Hlen Hsp Hts) as H.
  by rewrite p_cmd_show in H.
Qed.

End Command.

(** * Examples *)

Module Lines.
#[global] Instance terminal : Terminal Stdio.state.
Proof. split; [intros fd a n m []; by eexists _, _|intros n m []; by eexists]. Qed.

(** [spells] of concrete tokens in a concrete text. *)
Ltac spell :=
  lazymatch goal with
  | |- spells (_ :: _) _ =>
      first [eexists [], _; split; [reflexivity|] | eexists [32], _; split; [reflexivity|]];
      split; [by repeat constructor|]; split; [first [exact I | by split; [|repeat constructor]]|];
      split; [first [exact I | done | intros (_&?&?); discriminate]|spell]
  | |- spells [] _ => by repeat constructor
  end.
Ltac spell_line :=
  lazymatch goal with
  | |- spells ?ts ?s => let ts' := eval vm_compute in ts in let s' := eval vm_compute in s in change (spells ts' s'); spell
  end.

(** The line [(a<i|b)>o; c &], and one with no command before the bar. *)
Definition line : list Z := Uprintf.lit "(a<i|b)>o; c &" ++ [10].
Definition toks : list tok :=
  [Sym Lpar; Word [97]; Red RIn; Word [105]; Sym Bar; Word [98]; Sym Rpar; Red ROut; Word [111]; Sym Semi; Word [99]; Sym Amp].
Definition tree : cmd :=
  List (Redir (Pipe (Redir (Exec [[97]]) RIn [105]) (Exec [[98]])) ROut [111]) (Back (Exec [[99]])).
Definition bad : list Z := Uprintf.lit "a < | b".
Definition bad_toks : list tok := [Word [97]; Red RIn; Sym Bar; Word [98]].

Definition buf : Z := 4096.
Definition reads (s : list Z) : shell Stdio.state := Sh (User (store_bytes (fun _ => 0) buf s) 2048 ([], [])) [] 0.

End Lines.

Lemma parsecmd_correct_witness :
  (exists p st', parsecmd Lines.buf (Lines.reads Lines.line) = Ok p st' /\ rep (mem st') (sh_heap st') p Lines.tree) /\
  (exists st', parsecmd Lines.buf (Lines.reads Lines.bad) = Stop Swtch st').
Proof.
  split.
  - refine (proj2 (parsecmd_correct (Lines.reads Lines.line) Lines.buf Lines.line _ _ _ _) Lines.toks _);
      [done|vm_compute; repeat split; discriminate|done|left; done|Lines.spell_line].
  - refine (proj2 (parsecmd_correct (Lines.reads Lines.bad) Lines.buf Lines.bad _ _ _ _) Lines.bad_toks _);
      [done|vm_compute; repeat split; discriminate|done|left; done|Lines.spell_line].
Defined.

Lemma parse_print_roundtrip_witness :
  exists p st', parsecmd Lines.buf (Lines.reads Lines.line) = Ok p st' /\ rep (mem st') (sh_heap st') p Lines.tree.
Proof.
  apply (parse_print_roundtrip _ _ Lines.line);
    [done|vm_compute; repeat split; discriminate|done|left; done|cbn; lia|Lines.spell_line].
Defined.
